(* ===== verification/_CoqProject ===== *)
-Q . S2P
Prelude.v
Rpc.v
Errors.v
System.v
Numbers.v
Target.v
Interface.v
NativeTarget.v
AdminTarget.v
EsploraTarget.v
BitcoindTarget.v
Queries.v
ElectrumVersion.v
ElectrumRequest.v
ElectrumHandshake.v
Merkle.v
ElectrumSubscribe.v
ElectrumAddresses.v
FeeHistogram.v
ElectrumMempool.v
ElectrumOutpoints.v
ElectrumHeaders.v
BtcdFilter.v
BtcdSession.v
Descriptor.v
BitcoindParsers.v
BlockStats.v
Dispatch.v
HttpService.v
MempoolFile.v
Archive.v
TxOutProof.v
BlockWait.v
BitcoindBlockchain.v
UtxoScan.v
BlockScan.v
BitcoindMempool.v
ElectrumTransactions.v
ElectrumServer.v
Combine.v
BitcoindTransaction.v
BtcdSearch.v
Psbt.v
BitcoindRest.v
Native.v
NativeService.v
EsploraChain.v
EsploraIndex.v
EsploraService.v
Admin.v
Sparrow.v
BitcoindUtility.v
BitcoindNetwork.v
BtcdUtility.v
BitcoindInterfaces.v
Subscriptions.v
Sessions.v
BitcoindRefusals.v
BitcoindMining.v
BitcoindControl.v
Zmq.v
Options.v
ServerNode.v
Localize.v
Console.v
ExecutorStore.v
Daemon.v
ExecutorPrompts.v
Scans.v
Executor.v
Runner.v
Process.v
ExecutorOptions.v
