(* ===== verification/Prelude.v ===== *)
(** * libbitcoin-server: a verification development

    libbitcoin-server publishes a bitcoin node over several text protocols: the
    electrum protocol (json-rpc over tcp, websocket or http post), bitcoind and
    btcd json-rpc, bitcoind REST, esplora REST, a native REST explorer and an
    admin service. A service accepts a channel; the channel parses what it reads
    into a json-rpc request model (REST paths are parsed into the same model), and
    the request is dispatched to the handler of its method, which reads the
    archive of the node and sends a result or an error code. Chain events of the
    node reach the protocols, which notify the subscriptions that they hold.

    ** What is modelled, and where

    The data model and the libraries:
    - [Prelude]: scope, tactics, hint databases and generic lemmas;
    - [Rpc]: [value_t], [object_t], [request_t] of network::rpc, as far as the
      sources use them;
    - [Errors]: src/error/*.cpp and include/bitcoin/server/error/*.hpp, the
      enumerations of the four error categories, their messages, and the
      [translate] function of the electrum, bitcoind and btcd categories;
    - [System]: the functions of libbitcoin-system that the parsers call, as
      type classes with laws;
    - [Archive], [HttpService]: the archive that the bitcoind handlers query and
      the replies that they send; the service of http targets and of pages
      (protocol_html.cpp).

    From a path to a request (src/parsers):
    - [Numbers]: [to_number] and [to_hash] of the path parsers;
    - [Target]: the cursor over path segments that all path parsers share, as a
      state monad with early return, and routes: a declarative table of paths;
    - [Interface]: the published methods of include/.../interfaces and what it
      takes for a request to conform to one;
    - [NativeTarget], [AdminTarget], [EsploraTarget], [BitcoindTarget]: the four
      path parsers, branch by branch, with their interfaces;
    - [Queries]: native_query.cpp, admin_query.cpp, bitcoind_query.cpp.

    Requests and dispatch:
    - [Dispatch]: protocol_rpc.hpp with the claims of the subgroups of a channel,
      the dispatch of the bitcoind and btcd protocols, and the senders of
      protocol_bitcoind.cpp;
    - [BitcoindInterfaces]: the methods of the subgroups of the bitcoind service;
    - [Subscriptions]: for each rpc protocol the methods that it publishes
      (include/.../interfaces), the handlers that it declares
      (include/.../protocols) and the subscriptions of its start();
    - [Sessions]: include/.../sessions, session.cpp and channel_rpc.hpp.

    Utilities and serializers:
    - [Merkle], [FeeHistogram], [MempoolFile]: merkle.cpp, and the fee histograms
      and the mempool file of chain.cpp;
    - [Descriptor], [BitcoindParsers]: bitcoind_descriptor.cpp, to_address,
      bitcoind_scan.cpp and bitcoind_transaction.cpp of src/parsers;
    - [Combine], [BlockStats]: bitcoind_combine.cpp, bitcoind_block_stats.cpp.

    Electrum and sparrow:
    - [ElectrumVersion], [ElectrumRequest], [ElectrumHandshake]: versions, the
      normalization of requests, and the handshake as a transition system;
    - [ElectrumSubscribe], [ElectrumAddresses], [ElectrumOutpoints],
      [ElectrumHeaders], [ElectrumMempool], [ElectrumTransactions],
      [ElectrumServer]: the methods of src/protocols/electrum, with their jobs,
      completions, notifiers and timers;
    - [Sparrow]: the silent payment subscriptions of src/protocols/sparrow.

    Bitcoind and btcd:
    - [BitcoindBlockchain], [TxOutProof], [BlockWait], [UtxoScan], [BlockScan],
      [BitcoindMempool]: protocol_bitcoind_blockchain.cpp, by subject, with the
      objects of src/serializers;
    - [BitcoindTransaction], [Psbt]: protocol_bitcoind_transaction.cpp,
      bitcoind_update.cpp and bitcoind_psbt.cpp;
    - [BitcoindUtility], [BitcoindNetwork], [BitcoindMining], [BitcoindControl],
      [BitcoindRefusals]: the other subgroups, one file each; the methods of the
      wallet and of the tests are claimed and refused;
    - [BitcoindRest]: protocol_bitcoind_rest.cpp;
    - [BtcdFilter], [BtcdSession]: the watch lists with protocol_btcd_filter.cpp,
      and a client of protocol_btcd.cpp as a machine of its strands;
    - [BtcdSearch], [BtcdUtility]: btcd_json.cpp and protocol_btcd_utility.cpp;
    - [Zmq]: protocol_bitcoind_zmq.cpp and protocol_bitcoind_notifications.cpp.

    Native, esplora and admin:
    - [Native], [NativeService]: src/protocols/native, handlers and dispatch;
    - [EsploraChain], [EsploraIndex], [EsploraService]: src/protocols/esplora;
    - [Admin]: src/protocols/admin.

    The server:
    - [Options]: parser.cpp, the constructed values, the options with the members
      that they write, and the order of parsing;
    - [ServerNode]: the startup of server_node.cpp, settings.cpp and
      configuration.cpp, and the stratum handlers, which are not implemented.

    The console (src/console):
    - [Localize]: localize.hpp, the texts and their formats;
    - [Console]: commands as programs over the operations of the store, the node,
      the files and the log, and the order in which they may be used;
    - [ExecutorStore], [ExecutorPrompts]: executor_store.cpp, executor_dumps.cpp
      and executor_warnings.cpp;
    - [Scans]: executor_scans.cpp;
    - [Executor]: executor_commands.cpp and the run of executor_runner.cpp;
    - [Runner]: the handlers of executor.cpp with the threads that wait on them;
    - [Process]: the entry, the signals, the notifications of the service manager and
      the events (main.cpp, executor_signals.cpp, executor_events.cpp);
    - [ExecutorOptions]: executor_options.cpp and executor_logging.cpp;
    - [Daemon]: the service installation of executor_daemon.cpp.

    ** What the theorems show

    Proofs: a proof of transactions that verifies proves them in a confirmed block
    or holds a second preimage of the hash of one of the block's nodes; the proof
    that is made of transactions verifies as those; the branches of electrum prove
    their transaction in the block that they name.

    Requests: the http services (native, esplora, REST) and the sessions of
    json-rpc answer each request exactly once, whatever its target or content, and
    the btcd websocket serves nothing before credentials are accepted. Parsers are
    defined on every path; the native, admin and esplora parsers accept exactly the
    routes of their table, in a request that the interface accepts.

    Handshake: whatever the order of requests, completions, resumption and stop,
    the handshake completes at most once, a negotiated version lies in the
    configured range and never changes, and a client that offers an overlapping
    range is served.

    Interfaces: every published method has one handler, which is subscribed once
    and takes its parameters; the subgroups of a session share no method, and three
    methods of btcd come before those of bitcoind.

    Subscriptions: the status sent for an address is that of its whole history,
    although it is computed incrementally from a cursor; notifiers post exactly
    what changed; their number is bounded. Likewise for outpoints, for the watch
    lists of btcd, for native websockets, for silent payments and for the topics of
    zmq, whose demands on the node are exactly those of its subscriptions. The
    admin filters refine a subscription with at most one handler. A btcd client gets
    one response for each request however its requests, jobs, queries, events and
    completions interleave, and only notifications that it subscribed to.

    Waits, estimates and submissions: a wait for a block is answered exactly once,
    fee estimates end with one estimate for each target, a package is submitted only
    if it parses and is reported by one result for each transaction.

    Scans and pages: unspent outputs, blocks of a filter and pages of histories are
    exactly those that are asked for, each once. Scan objects expand within a fixed
    number of derivations; addresses of a descriptor are derived in order, and
    the loop over the indexes of a range ends unless the range ends at the last
    32-bit index with each index deriving.

    Bytes and documents: the parser of the mempool file reads what the serializer
    wrote, whichever the key; a save replaces the file whole or leaves it. Combined
    transactions carry each input's signatures and nothing else; an update of a
    partially signed transaction fills what the descriptors and the archive know and
    keeps the rest. A descriptor checksum detects a change of up to four consecutive
    characters.

    Reports of the network stay in their range. The node commands of btcd do what
    the bitcoind method does.

    Configuration: each option writes its own member; a member has what its option
    configures or else what is constructed; services start one after another, and
    the handler is invoked once, with the first failure or the last completion.

    Console: whatever the outside answers, a command uses the store and the node in
    the order that they allow and leaves the store closed (a failed backup apart);
    the run of a node keeps its first signal, can end once signalled, and succeeds
    exactly if no call of the node failed and the store closed. The keys of the
    menus are distinct, and a line of the console keeps the store open. Removing an
    installed service restores the machine. A scan counts each row that it reads in the
    bucket of its key, up to a byte. Once the process runs its manager is told at most
    once more that it starts.

    Examples record the runs in which the code departs from its intent; they are at
    the end of the file of their component.

    ** Choices

    Strings are byte strings; integers are [Z] (or [nat] for sizes) with the range
    of the C++ type stated where it matters and the wrap-around written out where
    the code can wrap. Hashes are lists of bytes, and the functions that make them
    parameters. Floating point numbers are the machine's (primitive floats); the
    theorems do not depend on how they compare. An access that C++ leaves
    undefined ([front] of an empty vector, a segment past the end) is a value of
    its own ([Undefined] or [None]), and the theorems show that it does not occur.

    A handler runs on a strand: the jobs posted to a strand run one at a time, so
    that a handler is a function of the state of its strand, and interleaving is
    that of whole handlers. Sends complete later; in the handshake each leaves a
    pending completion. The iteration of an unordered map takes its order as an
    argument, so that the theorems hold for every order. A query of the archive
    that fails leaves the cursor of the subscription as it was. The queries of one
    handler are of one state of the archive; a request that runs in parallel takes
    the state at its query apart from that at its check, and a long scan the state
    that it reads apart from that once it is done. An atomic word is read and written
    in separate steps ([Admin]); a file is written by buffers ([BitcoindMempool]), so
    that it can fail between any two. A command of the console is a tree of
    operations with their answers ([prog] of [Console]); [safe] quantifies over all
    answers, and a file system answers them where a theorem needs one ([Daemon]).

    Code of other libraries is a parameter: a type class with the operations that
    are called (of libbitcoin-system, -database, -network and -node, and of the
    options and json libraries) and, apart from it, a class or a premise with the
    laws that the code relies on. Laws have an instance by concrete functions, which
    the witnesses of the theorems use.

    Recursion is structural but for these loops. The loop of [tree_height] has fuel
    63 ([merkle_arithmetic] shows that it ends within the fuel for at most 2^62
    transactions). The outpoint loop of [BitcoindTarget] has the number of segments
    that remain, each turn taking one. The loops over the indexes of a descriptor
    have 1,000,000 turns for a scan object ([maximum_range]) and 10,000 for addresses
    ([maximum_derivation]), as the code checks that a range has no more. The mempool
    parser has a turn for each byte of the file, as each record takes bytes. The fee
    estimates have a turn for each target. An import of a
    file runs by turns of the reader.

    ** What is not modelled

    Of the console: the built-in tests (executor_test_reader.cpp and
    executor_test_writer.cpp) are walks of the tables of the database library, most
    of them disabled; they are one operation each. The Windows, macOS and ARM branches
    are not taken, so the hidden window and the stack trace are left out. The embedded
    pages are data.

    The headers of protocols and channels declare what the sources define; their
    templates over libbitcoin-network bind handlers and create channels. The json of
    library types is a parameter. The overloads of the query parsers that read the
    accept header only pass what the network library parses of it. *)
From Stdlib Require Export ZArith Lia Ascii.
From stdpp Require Export base tactics option list numbers strings gmap.

#[global] Open Scope string_scope.
#[global] Open Scope Z_scope.
Set Default Goal Selector "!".

(** ** Scope and notations of the development *)

Declare Scope server_scope.
Delimit Scope server_scope with server.
#[global] Open Scope server_scope.

(** Comparison of [std::string] values, as the sources write it. *)
Infix "==" := String.eqb (at level 70, no associativity) : server_scope.
Notation "s != t" := (negb (String.eqb s t))
  (at level 70, no associativity) : server_scope.

(** ** Automation

    [server] collects the rewriting lemmas of the components (lookups of
    objects, lengths, machine integers); [server_core] collects the facts that
    [eauto] chains. *)

Create Rewrite HintDb server.
Create HintDb server_core discriminated.

(** Case analysis on the scrutinee of a [match] or an [if] of the goal or of a
    hypothesis, innermost first, recording the equation. *)
Ltac destruct_scrutinee t :=
  lazymatch t with
  | context [match ?s with _ => _ end] => destruct_scrutinee s
  | _ => let E := fresh "E" in destruct t eqn:E
  end.

Ltac split_goal :=
  match goal with
  | |- context [match ?t with _ => _ end] => destruct_scrutinee t
  end.

Ltac split_in H :=
  match type of H with
  | context [match ?t with _ => _ end] => destruct_scrutinee t
  end.

(** Turn boolean string comparisons into equations and use them. *)
Ltac string_eqs :=
  repeat match goal with
  | H : String.eqb ?s ?t = true |- _ =>
      apply String.eqb_eq in H; try (is_var s; subst s)
  | H : negb _ = true |- _ => apply negb_true_iff in H
  | H : negb _ = false |- _ => apply negb_false_iff in H
  end.


(** ** Strings *)

(** [std::string_view::starts_with(char)]. *)
Definition starts_with (c : ascii) (s : string) : bool :=
  match s with
  | String a _ => Ascii.eqb a c
  | EmptyString => false
  end.

(** [s.substr(1)], of a string that has a first character. *)
Definition substr1 (s : string) : string :=
  match s with
  | String _ t => t
  | EmptyString => EmptyString
  end.

Definition is_empty (s : string) : bool :=
  match s with EmptyString => true | _ => false end.

Lemma is_empty_true s : is_empty s = true <-> s = "".
Proof. by destruct s. Qed.

Lemma eqb_neq_false (s t : string) : s ≠ t → (s == t) = false.
Proof. by apply String.eqb_neq. Qed.

Lemma string_length_app s t :
  String.length (s ++ t) = (String.length s + String.length t)%nat.
Proof. induction s as [|c s IH]; simpl; [done|]. by rewrite IH. Qed.

Lemma string_app_nil s : (s ++ "")%string = s.
Proof. induction s as [|c s IH]; [done|]. exact (f_equal (String c) IH). Qed.

Lemma string_app_assoc (s t u : string) : (s ++ (t ++ u))%string = ((s ++ t) ++ u)%string.
Proof. induction s as [|c s IH]; [done|]. exact (f_equal (String c) IH). Qed.

(** ** Integers *)

(** A size compares like the integer that it is. *)
Lemma eqb_of_nat (k : nat) (n : Z) (m : nat) :
  Z.of_nat k = n → (k =? m)%nat = (n =? Z.of_nat m).
Proof. intros <-. destruct (Nat.eqb_spec k m), (Z.eqb_spec (Z.of_nat k) (Z.of_nat m)); lia. Qed.

(** ** Lists *)

(** Zero or more steps preserve whatever each step preserves. *)
Lemma rtc_preserves {A} (R : relation A) (P : A → Prop) :
  (∀ x y, P x → R x y → P y) → ∀ x y, rtc R x y → P x → P y.
Proof. intros Hstep x y Hrtc. induction Hrtc; eauto. Qed.

Lemma filter_fmap {A B} (f : A → B) (P : B → Prop) `{∀ x, Decision (P x)} (l : list A) :
  filter P (f <$> l) = f <$> filter (λ x, P (f x)) l.
Proof.
  induction l as [|x l IH]; [done|]. rewrite fmap_cons, !filter_cons, IH.
  by destruct (decide (P (f x))).
Qed.

Lemma omap_fmap {A B C} (f : B → option C) (g : A → B) (l : list A) :
  omap f (g <$> l) = omap (λ x, f (g x)) l.
Proof. induction l as [|x l IH]; [done|]. cbn. by destruct (f (g x)); rewrite <-IH. Qed.

Lemma forallb_elem {A} (p : A → bool) (l : list A) x :
  forallb p l = true → x ∈ l → p x = true.
Proof.
  intros H Hx. rewrite forallb_forall in H. apply H.
  by apply list_elem_of_In.
Qed.

Lemma NoDup_map_unique {A B} (f : A → B) l x y :
  NoDup (f <$> l) → x ∈ l → y ∈ l → f x = f y → x = y.
Proof.
  intros Hnd Hx Hy Hf. apply list_elem_of_lookup in Hx as [i Hi], Hy as [j Hj].
  assert (i = j) as Hij; [|congruence].
  eapply (NoDup_lookup (f <$> l) i j (f x)); [done|by rewrite list_lookup_fmap, Hi|].
  rewrite list_lookup_fmap, Hj. simpl. by f_equal.
Qed.

Lemma concat_fmap {A B} (f : A → B) (ls : list (list A)) :
  concat (fmap (M:=list) (fmap (M:=list) f) ls) = f <$> concat ls.
Proof. induction ls as [|l ls IH]; [done|]. by rewrite fmap_cons, !concat_cons, IH, fmap_app. Qed.

(** [std::find_if]: the found element is the first that qualifies. *)
Lemma find_first {A} (p : A → bool) (l : list A) x :
  List.find p l = Some x →
  ∃ pre post, l = (pre ++ x :: post)%list ∧ p x = true ∧ Forall (λ y, p y = false) pre.
Proof.
  induction l as [|y l IH]; simpl; [done|]. destruct (p y) eqn:Hy.
  - intros [= ->]. exists [], l. split_and!; [done..|constructor].
  - intros (pre & post & -> & Hx & Hpre)%IH. exists (y :: pre), post.
    split_and!; [done..|by constructor].
Qed.

(** The pages of a list, of [n] elements but for the last. *)
Definition pages {A} (n : nat) (l : list A) : list (list A) :=
  (λ k, take n (drop (n * k) l)) <$> seq 0 ((length l + n - 1) / n).

Lemma concat_pages {A} n (l : list A) : n ≠ 0%nat → concat (pages n l) = l.
Proof.
  intros Hn. unfold pages.
  assert (∀ m, concat ((λ k, take n (drop (n * k) l)) <$> seq 0 m) = take (n * m) l) as ->.
  { induction m as [|m IH]; [by rewrite Nat.mul_0_r|].
    rewrite seq_S, fmap_app, concat_app, IH. cbn [fmap list_fmap concat].
    rewrite app_nil_r, Nat.add_0_l, Nat.mul_succ_r. apply take_take_drop. }
  apply take_ge. pose proof (Nat.div_mod_eq (length l + n - 1) n).
  pose proof (Nat.mod_upper_bound (length l + n - 1) n Hn). lia.
Qed.

Lemma pages_lookup {A} n (l : list A) k page :
  n ≠ 0%nat → pages n l !! k = Some page → page = take n (drop (n * k) l) ∧ (n * k < length l)%nat.
Proof.
  intros Hn. unfold pages. rewrite list_lookup_fmap.
  destruct (seq 0 _ !! k) as [j|] eqn:Hk; [|done]. intros [= <-].
  apply lookup_seq in Hk as [-> Hk]. split; [done|].
  pose proof (Nat.Div0.mul_div_le (length l + n - 1) n). nia.
Qed.

Lemma mapM_page {A B} (f : A → option B) (l : list A) (ys : list B) n m :
  mapM f l = Some ys → mapM f (take n (drop m l)) = Some (take n (drop m ys)).
Proof. rewrite !mapM_Some. intros Hall. by apply Forall2_take, Forall2_drop. Qed.

#[export] Hint Resolve eqb_neq_false : server_core.
