(* ===== verification/Rpc.v ===== *)
(** The json-rpc data model that the server components exchange.

    [value_t], [request_t] and their parts follow [network::rpc], of which the
    sources use the alternatives listed here; objects are association lists
    updated by key. *)
From Corelib Require Import PrimFloat.
From S2P Require Import Prelude.

(** ** Values *)

(** [double], the C++ type of json numbers. *)
Abbreviation double := PrimFloat.float.

(** Byte vectors ([data_chunk]) and hashes ([hash_digest]), bytes as integers. *)
Abbreviation data_chunk := (list Z).
Abbreviation hash_digest := (list Z).

Set Warnings "-register-all".
Inductive value_t :=
  | null_t
  | boolean_t (b : bool)
  | number_t (d : double)
  | string_t (s : string)
  | uint8_t (n : Z)
  | uint16_t (n : Z)
  | uint32_t (n : Z)
  | uint64_t (n : Z)
  | int64_t (n : Z)
  | hash_t (h : hash_digest)
  | array_t (items : list value_t)
  | object_t (fields : list (string * value_t)).
Set Warnings "register-all".

Abbreviation array := (list value_t).
Abbreviation object := (list (string * value_t)).

(** [params[key] = value]: replace the entry of the key, or add one. *)
Fixpoint set_field (key : string) (value : value_t) (o : object) : object :=
  match o with
  | [] => [(key, value)]
  | (k, v) :: rest =>
      if k == key then (key, value) :: rest
      else (k, v) :: set_field key value rest
  end.

(** [params.find(key)]. *)
Fixpoint find_field (key : string) (o : object) : option value_t :=
  match o with
  | [] => None
  | (k, v) :: rest => if k == key then Some v else find_field key rest
  end.

(** [params.erase(key)]. *)
Fixpoint erase_field (key : string) (o : object) : object :=
  match o with
  | [] => []
  | (k, v) :: rest =>
      if k == key then rest else (k, v) :: erase_field key rest
  end.

Definition has_field (key : string) (o : object) : bool :=
  match find_field key o with Some _ => true | None => false end.

Definition field_names (o : object) : list string := o.*1.

Lemma find_set_eq key v o : find_field key (set_field key v o) = Some v.
Proof.
  induction o as [|[k w] o IH]; simpl; [by rewrite String.eqb_refl|].
  destruct (String.eqb_spec k key) as [->|Hne]; simpl.
  - by rewrite String.eqb_refl.
  - by rewrite eqb_neq_false.
Qed.

Lemma find_set_ne key key' v o :
  key ≠ key' → find_field key' (set_field key v o) = find_field key' o.
Proof.
  intros Hne. induction o as [|[k w] o IH]; simpl.
  - by rewrite eqb_neq_false.
  - destruct (String.eqb_spec k key) as [->|Hk]; simpl.
    + by rewrite eqb_neq_false.
    + by rewrite IH.
Qed.

(** The keys of an object are distinct. *)
Definition object_ok (o : object) : Prop := NoDup (field_names o).

Lemma set_field_names key v o k :
  k ∈ field_names (set_field key v o) ↔ k = key ∨ k ∈ field_names o.
Proof.
  induction o as [|[k' w] o IH]; simpl; [set_solver|].
  destruct (String.eqb_spec k' key) as [->|Hk]; simpl; set_solver.
Qed.

Lemma set_field_ok key v o : object_ok o → object_ok (set_field key v o).
Proof.
  unfold object_ok. induction o as [|[k w] o IH]; simpl; intros Ho.
  - apply NoDup_singleton.
  - apply NoDup_cons in Ho as [Hk Ho].
    destruct (String.eqb_spec k key) as [->|Hne]; simpl.
    + by apply NoDup_cons.
    + apply NoDup_cons. split; [|by apply IH].
      rewrite set_field_names. set_solver.
Qed.

Lemma find_erase_eq key o : object_ok o → find_field key (erase_field key o) = None.
Proof.
  unfold object_ok. induction o as [|[k w] o IH]; simpl; [done|].
  intros [Hk Ho]%NoDup_cons.
  destruct (String.eqb_spec k key) as [->|Hne]; simpl.
  - clear IH Ho. induction o as [|[k' w'] o IH]; [done|]. simpl in *.
    rewrite eqb_neq_false by set_solver. apply IH. set_solver.
  - rewrite eqb_neq_false by done. by apply IH.
Qed.

Lemma find_erase_ne key key' o :
  key ≠ key' → find_field key' (erase_field key o) = find_field key' o.
Proof.
  intros Hne. induction o as [|[k w] o IH]; simpl; [done|].
  destruct (String.eqb_spec k key) as [->|Hk]; simpl.
  - by rewrite eqb_neq_false.
  - by rewrite IH.
Qed.

Lemma find_field_elem key v o : find_field key o = Some v → (key, v) ∈ o.
Proof.
  induction o as [|[k w] o IH]; simpl; [done|].
  destruct (String.eqb_spec k key) as [->|Hk]; intros; simplify_eq.
  - apply list_elem_of_here.
  - by apply list_elem_of_further, IH.
Qed.

Lemma erase_set_fresh key v o :
  key ∉ field_names o → erase_field key (set_field key v o) = o.
Proof.
  induction o as [|[k w] o IH]; simpl; [by rewrite String.eqb_refl|].
  intros [Hne Hk]%not_elem_of_cons.
  rewrite (eqb_neq_false k key) by congruence. simpl.
  rewrite (eqb_neq_false k key) by congruence. by rewrite IH.
Qed.

Lemma has_field_set key key' v o :
  has_field key' (set_field key v o) = (key == key') || has_field key' o.
Proof.
  unfold has_field. destruct (String.eqb_spec key key') as [->|Hne].
  - by rewrite find_set_eq.
  - by rewrite find_set_ne.
Qed.

(** [object.try_emplace(key, value)], also [emplace]: an entry is not replaced. *)
Definition try_emplace (key : string) (v : value_t) (o : object) : object :=
  if has_field key o then o else (o ++ [(key, v)])%list.

Lemma find_field_snoc key v o k :
  find_field key o = None →
  find_field k (o ++ [(key, v)])%list = if k == key then Some v else find_field k o.
Proof.
  induction o as [|[k' w] o IH]; simpl.
  - intros _. rewrite String.eqb_sym. by destruct (k == key).
  - destruct (String.eqb_spec k' key) as [->|Hne]; [done|]. intros Hn. rewrite (IH Hn).
    destruct (String.eqb_spec k' k) as [->|Hk]; [|done].
    by rewrite eqb_neq_false.
Qed.

Lemma find_try_emplace key v o k :
  find_field k (try_emplace key v o) =
    if k == key then Some (default v (find_field key o)) else find_field k o.
Proof.
  unfold try_emplace, has_field. destruct (find_field key o) as [w|] eqn:Hf.
  - destruct (String.eqb_spec k key) as [->|]; by rewrite ?Hf.
  - by rewrite find_field_snoc.
Qed.

Lemma find_field_fresh key o : key ∉ field_names o → find_field key o = None.
Proof.
  intros Hk. destruct (find_field key o) as [v|] eqn:Hf; [|done].
  destruct Hk. apply find_field_elem in Hf. by apply (list_elem_of_fmap_2 fst) in Hf.
Qed.

Lemma set_field_fresh key v o : key ∉ field_names o → set_field key v o = (o ++ [(key, v)])%list.
Proof.
  induction o as [|[k w] o IH]; [done|]. cbn. intros [Hne Hk]%not_elem_of_cons.
  rewrite eqb_neq_false by congruence. by rewrite IH.
Qed.

#[export] Hint Rewrite find_set_eq : server.
#[export] Hint Rewrite find_set_ne using done : server.
#[export] Hint Rewrite find_erase_ne using done : server.
#[export] Hint Resolve set_field_ok : server_core.

(** ** Requests *)

Inductive version_t := version_undefined | version_v1 | version_v2.

(** [params_t], either positional or named (a lone value is the lax form that
    electrum clients send). *)
Inductive params_t :=
  | params_value (v : value_t)
  | params_array (a : array)
  | params_object (o : object).

Record request_t := Request {
  jsonrpc : version_t;
  id : option value_t;
  method : string;
  params : option params_t;
}.

(** [request_t{}]. *)
Definition request_default : request_t := Request version_undefined None "" None.
