(* ===== verification/Errors.v ===== *)
(** The error categories of the server (src/error, include/bitcoin/server/error):
    the enumerations with their wire values and messages, [std::error_code] as
    a category and a value, and the translations into the code space of each
    published protocol. *)
From S2P Require Import Prelude.

(** ** [code], that is [std::error_code] *)

(** The categories whose codes the server tests or publishes. The last is any
    category of the libraries that the server only forwards. *)
Inductive category_t :=
  | server_category
  | electrum_category
  | bitcoind_category
  | btcd_category
  | database_category
  | node_category
  | network_category
  | foreign_category (name : string).

#[global] Instance category_t_eq_dec : EqDecision category_t.
Proof. solve_decision. Defined.

Record code := Code { category : category_t; value : Z }.

#[global] Instance code_eq_dec : EqDecision code.
Proof. solve_decision. Defined.

(** [std::error_code::operator bool]. *)
Definition is_error (ec : code) : bool := negb (value ec =? 0).

(** [error_category::contains(ec)]. *)
Definition contains (c : category_t) (ec : code) : bool :=
  bool_decide (category ec = c).

(** [ec == other]. *)
Definition code_eqb (ec other : code) : bool := bool_decide (ec = other).

(** Values of the store's category that the server distinguishes; the store is
    not part of this repository. *)
Class StoreErrors := {
  depth_limited : Z;
  query_canceled : Z;
  integrity : Z;
}.

(** A code of an error, in the store's enumeration, is not zero. *)
Class StoreErrorsLaws `{StoreErrors} : Prop := {
  depth_limited_nonzero : depth_limited <> 0;
  query_canceled_nonzero : query_canceled <> 0;
  integrity_nonzero : integrity <> 0;
}.

(** ** The server category ([error/error_t.hpp], [error/error_t.cpp]) *)

Module Error.

Inductive error_t :=
  | success
  | empty_path
  | invalid_number
  | invalid_hash
  | missing_version
  | missing_target
  | invalid_target
  | missing_hash
  | missing_height
  | missing_position
  | missing_id_type
  | invalid_id_type
  | missing_type_id
  | missing_component
  | invalid_component
  | invalid_subcomponent
  | extra_segment
  | not_found
  | not_implemented
  | invalid_argument
  | subscription_limit
  | unsupported_argument
  | unconfirmable_transaction
  | argument_overflow
  | target_overflow
  | maximum_depth
  | wrong_version
  | server_error.

#[global] Instance error_t_eq_dec : EqDecision error_t.
Proof. solve_decision. Defined.

Definition enumerators : list error_t :=
  [success;
   empty_path;
   invalid_number;
   invalid_hash;
   missing_version;
   missing_target;
   invalid_target;
   missing_hash;
   missing_height;
   missing_position;
   missing_id_type;
   invalid_id_type;
   missing_type_id;
   missing_component;
   invalid_component;
   invalid_subcomponent;
   extra_segment;
   not_found;
   not_implemented;
   invalid_argument;
   subscription_limit;
   unsupported_argument;
   unconfirmable_transaction;
   argument_overflow;
   target_overflow;
   maximum_depth;
   wrong_version;
   server_error].

(** The enumerator's value. *)
Definition to_value (e : error_t) : Z :=
  match e with
  | success => 0
  | empty_path => 1
  | invalid_number => 2
  | invalid_hash => 3
  | missing_version => 4
  | missing_target => 5
  | invalid_target => 6
  | missing_hash => 7
  | missing_height => 8
  | missing_position => 9
  | missing_id_type => 10
  | invalid_id_type => 11
  | missing_type_id => 12
  | missing_component => 13
  | invalid_component => 14
  | invalid_subcomponent => 15
  | extra_segment => 16
  | not_found => 17
  | not_implemented => 18
  | invalid_argument => 19
  | subscription_limit => 20
  | unsupported_argument => 21
  | unconfirmable_transaction => 22
  | argument_overflow => 23
  | target_overflow => 24
  | maximum_depth => 25
  | wrong_version => 26
  | server_error => 27
  end.

(** The message map of the category. *)
Definition message_map : list (error_t * string) :=
  [(success, "success");
   (empty_path, "empty_path");
   (invalid_number, "invalid_number");
   (invalid_hash, "invalid_hash");
   (missing_version, "missing_version");
   (missing_target, "missing_target");
   (invalid_target, "invalid_target");
   (missing_hash, "missing_hash");
   (missing_height, "missing_height");
   (missing_position, "missing_position");
   (missing_id_type, "missing_id_type");
   (invalid_id_type, "invalid_id_type");
   (missing_type_id, "missing_type_id");
   (missing_component, "missing_component");
   (invalid_component, "invalid_component");
   (invalid_subcomponent, "invalid_subcomponent");
   (extra_segment, "extra_segment");
   (not_found, "not_found");
   (not_implemented, "not_implemented");
   (invalid_argument, "invalid_argument");
   (subscription_limit, "subscription_limit");
   (unsupported_argument, "unsupported_argument");
   (unconfirmable_transaction, "unconfirmable_transaction");
   (argument_overflow, "argument_overflow");
   (target_overflow, "target_overflow");
   (maximum_depth, "maximum_depth");
   (wrong_version, "wrong_version");
   (server_error, "server_error")].

(** The implicit conversion of an enumerator to [code]. *)
Definition make (e : error_t) : code := Code server_category (to_value e).

End Error.

(** ** The electrum category ([error/electrum_error_t.hpp]) *)

Module ElectrumError.

Inductive error_t :=
  | success
  | bad_request
  | daemon_error
  | excessive_history
  | invalid_request
  | method_not_found
  | invalid_args
  | internal_error
  | parse_error
  | unavailable
  | excessive_resource_usage
  | server_busy.

#[global] Instance error_t_eq_dec : EqDecision error_t.
Proof. solve_decision. Defined.

Definition enumerators : list error_t :=
  [success;
   bad_request;
   daemon_error;
   excessive_history;
   invalid_request;
   method_not_found;
   invalid_args;
   internal_error;
   parse_error;
   unavailable;
   excessive_resource_usage;
   server_busy].

(** The enumerator's value. *)
Definition to_value (e : error_t) : Z :=
  match e with
  | success => 0
  | bad_request => 1
  | daemon_error => 2
  | excessive_history => 10001
  | invalid_request => -32600
  | method_not_found => -32601
  | invalid_args => -32602
  | internal_error => -32603
  | parse_error => -32700
  | unavailable => -100
  | excessive_resource_usage => -101
  | server_busy => -102
  end.

(** The message map of the category. *)
Definition message_map : list (error_t * string) :=
  [(success, "success");
   (bad_request, "bad_request");
   (daemon_error, "daemon_error");
   (excessive_history, "excessive_history");
   (invalid_request, "invalid_request");
   (method_not_found, "method_not_found");
   (invalid_args, "invalid_args");
   (internal_error, "internal_error");
   (parse_error, "parse_error");
   (unavailable, "unavailable");
   (excessive_resource_usage, "excessive_resource_usage");
   (server_busy, "server_busy")].

(** The implicit conversion of an enumerator to [code]. *)
Definition make (e : error_t) : code := Code electrum_category (to_value e).

(** [translate]: map a foreign code to the electrum code space. *)
Definition translate `{StoreErrors} (ec : code) (failure : error_t) : code :=
  if negb (is_error ec) then make success
  else if contains electrum_category ec then ec
  else if code_eqb ec (Code database_category depth_limited) then
    make excessive_history
  else if contains database_category ec then make daemon_error
  else make failure.

End ElectrumError.

(** ** The bitcoind category ([error/bitcoind_error_t.hpp]) *)

Module BitcoindError.

Inductive error_t :=
  | success
  | invalid_request
  | method_not_found
  | invalid_params
  | internal_error
  | parse_error
  | misc_error
  | forbidden_by_safe_mode
  | type_error
  | invalid_address_or_key
  | out_of_memory
  | invalid_parameter
  | database_error
  | deserialization_error
  | verify_error
  | verify_rejected
  | verify_already_in_utxo_set
  | in_warmup
  | method_deprecated
  | limit_exceeded
  | client_not_connected
  | client_in_initial_download
  | client_node_already_added
  | client_node_not_added
  | client_node_not_connected
  | client_invalid_ip_or_subnet
  | client_p2p_disabled
  | client_node_capacity_reached
  | client_mempool_disabled
  | wallet_error
  | wallet_insufficient_funds
  | wallet_invalid_label_name
  | wallet_keypool_ran_out
  | wallet_unlock_needed
  | wallet_passphrase_incorrect
  | wallet_wrong_enc_state
  | wallet_encryption_failed
  | wallet_already_unlocked
  | wallet_not_found
  | wallet_not_specified
  | wallet_already_loaded
  | wallet_already_exists.

#[global] Instance error_t_eq_dec : EqDecision error_t.
Proof. solve_decision. Defined.

Definition enumerators : list error_t :=
  [success;
   invalid_request;
   method_not_found;
   invalid_params;
   internal_error;
   parse_error;
   misc_error;
   forbidden_by_safe_mode;
   type_error;
   invalid_address_or_key;
   out_of_memory;
   invalid_parameter;
   database_error;
   deserialization_error;
   verify_error;
   verify_rejected;
   verify_already_in_utxo_set;
   in_warmup;
   method_deprecated;
   limit_exceeded;
   client_not_connected;
   client_in_initial_download;
   client_node_already_added;
   client_node_not_added;
   client_node_not_connected;
   client_invalid_ip_or_subnet;
   client_p2p_disabled;
   client_node_capacity_reached;
   client_mempool_disabled;
   wallet_error;
   wallet_insufficient_funds;
   wallet_invalid_label_name;
   wallet_keypool_ran_out;
   wallet_unlock_needed;
   wallet_passphrase_incorrect;
   wallet_wrong_enc_state;
   wallet_encryption_failed;
   wallet_already_unlocked;
   wallet_not_found;
   wallet_not_specified;
   wallet_already_loaded;
   wallet_already_exists].

(** The enumerator's value. *)
Definition to_value (e : error_t) : Z :=
  match e with
  | success => 0
  | invalid_request => -32600
  | method_not_found => -32601
  | invalid_params => -32602
  | internal_error => -32603
  | parse_error => -32700
  | misc_error => -1
  | forbidden_by_safe_mode => -2
  | type_error => -3
  | invalid_address_or_key => -5
  | out_of_memory => -7
  | invalid_parameter => -8
  | database_error => -20
  | deserialization_error => -22
  | verify_error => -25
  | verify_rejected => -26
  | verify_already_in_utxo_set => -27
  | in_warmup => -28
  | method_deprecated => -32
  | limit_exceeded => -37
  | client_not_connected => -9
  | client_in_initial_download => -10
  | client_node_already_added => -23
  | client_node_not_added => -24
  | client_node_not_connected => -29
  | client_invalid_ip_or_subnet => -30
  | client_p2p_disabled => -31
  | client_node_capacity_reached => -34
  | client_mempool_disabled => -33
  | wallet_error => -4
  | wallet_insufficient_funds => -6
  | wallet_invalid_label_name => -11
  | wallet_keypool_ran_out => -12
  | wallet_unlock_needed => -13
  | wallet_passphrase_incorrect => -14
  | wallet_wrong_enc_state => -15
  | wallet_encryption_failed => -16
  | wallet_already_unlocked => -17
  | wallet_not_found => -18
  | wallet_not_specified => -19
  | wallet_already_loaded => -35
  | wallet_already_exists => -36
  end.

(** The message map of the category. *)
Definition message_map : list (error_t * string) :=
  [(success, "success");
   (invalid_request, "invalid_request");
   (method_not_found, "method_not_found");
   (invalid_params, "invalid_params");
   (internal_error, "internal_error");
   (parse_error, "parse_error");
   (misc_error, "misc_error");
   (forbidden_by_safe_mode, "forbidden_by_safe_mode");
   (type_error, "type_error");
   (invalid_address_or_key, "invalid_address_or_key");
   (out_of_memory, "out_of_memory");
   (invalid_parameter, "invalid_parameter");
   (database_error, "database_error");
   (deserialization_error, "deserialization_error");
   (verify_error, "verify_error");
   (verify_rejected, "verify_rejected");
   (verify_already_in_utxo_set, "verify_already_in_utxo_set");
   (in_warmup, "in_warmup");
   (method_deprecated, "method_deprecated");
   (limit_exceeded, "limit_exceeded");
   (client_not_connected, "client_not_connected");
   (client_in_initial_download, "client_in_initial_download");
   (client_node_already_added, "client_node_already_added");
   (client_node_not_added, "client_node_not_added");
   (client_node_not_connected, "client_node_not_connected");
   (client_invalid_ip_or_subnet, "client_invalid_ip_or_subnet");
   (client_p2p_disabled, "client_p2p_disabled");
   (client_node_capacity_reached, "client_node_capacity_reached");
   (client_mempool_disabled, "client_mempool_disabled");
   (wallet_error, "wallet_error");
   (wallet_insufficient_funds, "wallet_insufficient_funds");
   (wallet_invalid_label_name, "wallet_invalid_label_name");
   (wallet_keypool_ran_out, "wallet_keypool_ran_out");
   (wallet_unlock_needed, "wallet_unlock_needed");
   (wallet_passphrase_incorrect, "wallet_passphrase_incorrect");
   (wallet_wrong_enc_state, "wallet_wrong_enc_state");
   (wallet_encryption_failed, "wallet_encryption_failed");
   (wallet_already_unlocked, "wallet_already_unlocked");
   (wallet_not_found, "wallet_not_found");
   (wallet_not_specified, "wallet_not_specified");
   (wallet_already_loaded, "wallet_already_loaded");
   (wallet_already_exists, "wallet_already_exists")].

(** The implicit conversion of an enumerator to [code]. *)
Definition make (e : error_t) : code := Code bitcoind_category (to_value e).

(** [translate]: map a foreign code to the bitcoind code space. *)
Definition translate (ec : code) (failure : error_t) : code :=
  if negb (is_error ec) then make success
  else if contains bitcoind_category ec then ec
  else if contains database_category ec then make internal_error
  else make failure.

End BitcoindError.

(** ** The btcd category ([error/btcd_error_t.hpp]) *)

Module BtcdError.

Inductive error_t :=
  | success
  | invalid_request
  | method_not_found
  | invalid_params
  | internal_error
  | parse_error
  | misc_error
  | unimplemented
  | forbidden_by_safe_mode
  | type_error
  | wallet_error
  | invalid_address_or_key
  | wallet_insufficient_funds
  | out_of_memory
  | invalid_parameter
  | client_not_connected
  | client_in_initial_download
  | wallet_invalid_account_name
  | wallet_keypool_ran_out
  | wallet_unlock_needed
  | wallet_passphrase_incorrect
  | wallet_wrong_enc_state
  | wallet_encryption_failed
  | wallet_already_unlocked
  | wallet_not_found
  | wallet_not_specified
  | database_error
  | deserialization_error
  | client_node_already_added
  | client_node_not_added
  | verify_error
  | verify_rejected
  | verify_already_in_chain
  | in_warmup
  | client_node_not_connected
  | client_invalid_ip_or_subnet
  | method_deprecated
  | client_mempool_disabled.

#[global] Instance error_t_eq_dec : EqDecision error_t.
Proof. solve_decision. Defined.

Definition enumerators : list error_t :=
  [success;
   invalid_request;
   method_not_found;
   invalid_params;
   internal_error;
   parse_error;
   misc_error;
   unimplemented;
   forbidden_by_safe_mode;
   type_error;
   wallet_error;
   invalid_address_or_key;
   wallet_insufficient_funds;
   out_of_memory;
   invalid_parameter;
   client_not_connected;
   client_in_initial_download;
   wallet_invalid_account_name;
   wallet_keypool_ran_out;
   wallet_unlock_needed;
   wallet_passphrase_incorrect;
   wallet_wrong_enc_state;
   wallet_encryption_failed;
   wallet_already_unlocked;
   wallet_not_found;
   wallet_not_specified;
   database_error;
   deserialization_error;
   client_node_already_added;
   client_node_not_added;
   verify_error;
   verify_rejected;
   verify_already_in_chain;
   in_warmup;
   client_node_not_connected;
   client_invalid_ip_or_subnet;
   method_deprecated;
   client_mempool_disabled].

(** The enumerator's value. *)
Definition to_value (e : error_t) : Z :=
  match e with
  | success => 0
  | invalid_request => -32600
  | method_not_found => -32601
  | invalid_params => -32602
  | internal_error => -32603
  | parse_error => -32700
  | misc_error => -1
  | unimplemented => -1
  | forbidden_by_safe_mode => -2
  | type_error => -3
  | wallet_error => -4
  | invalid_address_or_key => -5
  | wallet_insufficient_funds => -6
  | out_of_memory => -7
  | invalid_parameter => -8
  | client_not_connected => -9
  | client_in_initial_download => -10
  | wallet_invalid_account_name => -11
  | wallet_keypool_ran_out => -12
  | wallet_unlock_needed => -13
  | wallet_passphrase_incorrect => -14
  | wallet_wrong_enc_state => -15
  | wallet_encryption_failed => -16
  | wallet_already_unlocked => -17
  | wallet_not_found => -18
  | wallet_not_specified => -19
  | database_error => -20
  | deserialization_error => -22
  | client_node_already_added => -23
  | client_node_not_added => -24
  | verify_error => -25
  | verify_rejected => -26
  | verify_already_in_chain => -27
  | in_warmup => -28
  | client_node_not_connected => -29
  | client_invalid_ip_or_subnet => -30
  | method_deprecated => -32
  | client_mempool_disabled => -33
  end.

(** The message map of the category. *)
Definition message_map : list (error_t * string) :=
  [(success, "success");
   (invalid_request, "invalid_request");
   (method_not_found, "method_not_found");
   (invalid_params, "invalid_params");
   (internal_error, "internal_error");
   (parse_error, "parse_error");
   (misc_error, "misc_error");
   (forbidden_by_safe_mode, "forbidden_by_safe_mode");
   (type_error, "type_error");
   (wallet_error, "wallet_error");
   (invalid_address_or_key, "invalid_address_or_key");
   (wallet_insufficient_funds, "wallet_insufficient_funds");
   (out_of_memory, "out_of_memory");
   (invalid_parameter, "invalid_parameter");
   (client_not_connected, "client_not_connected");
   (client_in_initial_download, "client_in_initial_download");
   (wallet_invalid_account_name, "wallet_invalid_account_name");
   (wallet_keypool_ran_out, "wallet_keypool_ran_out");
   (wallet_unlock_needed, "wallet_unlock_needed");
   (wallet_passphrase_incorrect, "wallet_passphrase_incorrect");
   (wallet_wrong_enc_state, "wallet_wrong_enc_state");
   (wallet_encryption_failed, "wallet_encryption_failed");
   (wallet_already_unlocked, "wallet_already_unlocked");
   (wallet_not_found, "wallet_not_found");
   (wallet_not_specified, "wallet_not_specified");
   (database_error, "database_error");
   (deserialization_error, "deserialization_error");
   (client_node_already_added, "client_node_already_added");
   (client_node_not_added, "client_node_not_added");
   (verify_error, "verify_error");
   (verify_rejected, "verify_rejected");
   (verify_already_in_chain, "verify_already_in_chain");
   (in_warmup, "in_warmup");
   (client_node_not_connected, "client_node_not_connected");
   (client_invalid_ip_or_subnet, "client_invalid_ip_or_subnet");
   (method_deprecated, "method_deprecated");
   (client_mempool_disabled, "client_mempool_disabled")].

(** The implicit conversion of an enumerator to [code]. *)
Definition make (e : error_t) : code := Code btcd_category (to_value e).

(** [translate]: map a foreign code to the btcd code space. *)
Definition translate (ec : code) (failure : error_t) : code :=
  if negb (is_error ec) then make success
  else if contains btcd_category ec then ec
  else if contains database_category ec then make internal_error
  else make failure.

End BtcdError.

(** ** Properties *)

(** What a translation into the code space of a protocol promises: the result
    is a code of that protocol's category, a failure is never reported as
    success (nor success as a failure), and a translated code passes through
    unchanged. *)
Record translation_ok {E} (cat : category_t) (good : E) (tr : code → E → code) := {
  translation_category ec e : category (tr ec e) = cat;
  translation_faithful ec e : e ≠ good → is_error (tr ec e) = is_error ec;
  translation_idempotent ec e e' : tr (tr ec e) e' = tr ec e;
}.

Lemma contains_spec c ec : contains c ec = true ↔ category ec = c.
Proof. unfold contains. by rewrite bool_decide_eq_true. Qed.

(** The cases of a translation: the code is of the protocol already and passes
    through, or an enumerator of the protocol replaces it. *)
Definition translation_cases {E} (cat : category_t) (good : E) (make : E → code)
    (tr : code → E → code) : Prop :=
  ∀ ec e,
    (is_error ec = true ∧ category ec = cat ∧ ∀ e', tr ec e' = ec) ∨
    (∃ e', tr ec e = make e' ∧ (is_error ec = false → e' = good) ∧
      (is_error ec = true → e ≠ good → e' ≠ good)).

Lemma translation_by_cases {E} cat (good : E) make (tr : code → E → code) :
  (∀ e, category (make e) = cat) →
  (∀ e, is_error (make e) = true ↔ e ≠ good) →
  (∀ e e', tr (make e) e' = make e) →
  translation_cases cat good make tr → translation_ok cat good tr.
Proof.
  intros Hcat Herr Hmake Hcases. split.
  - intros ec e. destruct (Hcases ec e) as [(_ & ? & ->)|(? & -> & _)]; auto.
  - intros ec e He. destruct (Hcases ec e) as [(_ & _ & ->)|(e' & -> & H1 & H2)]; [done|].
    destruct (is_error ec); [by apply Herr, H2|].
    apply not_true_is_false. rewrite Herr. intros Hne. by apply Hne, H1.
  - intros ec e e'. destruct (Hcases ec e) as [(_ & _ & Hs)|(? & -> & _)]; [|apply Hmake].
    by rewrite !Hs.
Qed.

Ltac solve_translation :=
  intros ec e; destruct (is_error ec) eqn:He; simpl; [|by eauto];
  match goal with |- context [contains ?c ec] =>
    destruct (contains c ec) eqn:Hc; [apply contains_spec in Hc; by auto|right]
  end; repeat case_match; eexists; split_and!; intros; try reflexivity; done.

Lemma electrum_translation_ok `{StoreErrors} :
  translation_ok electrum_category ElectrumError.success ElectrumError.translate.
Proof.
  apply (translation_by_cases _ _ ElectrumError.make); [done|by intros []|by intros []|].
  unfold ElectrumError.translate. solve_translation.
Qed.

(** The translations into the electrum, bitcoind and btcd code spaces each
    stay in their space, preserve the distinction between success and failure,
    and pass their own codes through. *)
Lemma translations_ok `{StoreErrors} :
  translation_ok electrum_category ElectrumError.success ElectrumError.translate ∧
  translation_ok bitcoind_category BitcoindError.success BitcoindError.translate ∧
  translation_ok btcd_category BtcdError.success BtcdError.translate.
Proof.
  split_and!.
  - apply electrum_translation_ok.
  - apply (translation_by_cases _ _ BitcoindError.make); [done|by intros []|by intros []|].
    unfold BitcoindError.translate. solve_translation.
  - apply (translation_by_cases _ _ BtcdError.make); [done|by intros []|by intros []|].
    unfold BtcdError.translate. solve_translation.
Qed.

(** An enumeration as its tables have it: each wire value has exactly one
    message. *)
Definition messages_ok {E} (to_value : E → Z) (message_map : list (E * string)) : Prop :=
  NoDup (to_value <$> message_map.*1) ∧
  ∀ e, to_value e ∈ to_value <$> message_map.*1.

(** In each of the four error categories every error has exactly one message,
    and distinct errors have distinct wire values, so that a client can tell them
    apart; only the btcd errors for the miscellaneous and the unimplemented share
    a value, as they do in btcd. *)
Lemma enumerations_ok :
  messages_ok Error.to_value Error.message_map ∧
  messages_ok ElectrumError.to_value ElectrumError.message_map ∧
  messages_ok BitcoindError.to_value BitcoindError.message_map ∧
  messages_ok BtcdError.to_value BtcdError.message_map ∧
  Inj (=) (=) Error.to_value ∧ Inj (=) (=) ElectrumError.to_value ∧
  Inj (=) (=) BitcoindError.to_value ∧
  (∀ e e', BtcdError.to_value e = BtcdError.to_value e' → e ≠ e' →
    BtcdError.to_value e = BtcdError.to_value BtcdError.misc_error).
Proof.
  split_and!; try (split; [apply (bool_decide_unpack _); vm_compute; exact I|]).
  all: try (intros e; apply list_elem_of_In; destruct e; vm_compute; tauto).
  1-3: intros [] []; discriminate || done.
  intros [] []; discriminate || done.
Qed.
