(* ===== verification/System.v ===== *)
(** What the server uses of the libraries it is built on (libbitcoin-system and
    libbitcoin-network), which are not part of this repository.

    Each class lists operations the sources call; the [Laws] class beside it
    states the documented behaviour that the sources rely on. The definitions
    of the development take the operations as arguments, its theorems take the
    laws as hypotheses, and [reference_text] (and its likes) show that the laws
    can hold. *)
From S2P Require Import Prelude Rpc.

(** ** Decimal digits *)

(** The value of a decimal digit. *)
Definition digit (c : ascii) : option Z :=
  let n := Z.of_N (N_of_ascii c) in
  if (48 <=? n) && (n <=? 57) then Some (n - 48) else None.

Definition is_digit (c : ascii) : bool :=
  match digit c with Some _ => true | None => false end.

Fixpoint all_chars (p : ascii → bool) (s : string) : bool :=
  match s with
  | EmptyString => true
  | String c t => p c && all_chars p t
  end.

(** The number that a string of digits denotes, after [acc]. *)
Fixpoint decimal_from (acc : Z) (s : string) : Z :=
  match s with
  | EmptyString => acc
  | String c t => decimal_from (acc * 10 + default 0 (digit c)) t
  end.

Definition decimal (s : string) : Z := decimal_from 0 s.

(** ** Text: splitting, numbers and encodings *)

Class Text := {
  (** [split(text, delimiter, trim, compress)]. *)
  split : string → string → bool → bool → list string;
  (** [is_ascii_numeric(text)]. *)
  is_ascii_numeric : string → bool;
  (** [deserialize(out, text)] for an unsigned [out] of the given width. *)
  deserialize : Z → string → option Z;
  (** [decode_hash], [encode_hash]: base16 in reversed byte order. *)
  decode_hash : string → option hash_digest;
  encode_hash : hash_digest → string;
  (** [decode_base16] into a hash and into a chunk, and [encode_base16]. *)
  decode_base16_hash : string → option hash_digest;
  decode_base16 : string → option data_chunk;
  encode_base16 : data_chunk → string;
}.

Definition is_hash (h : hash_digest) : Prop :=
  length h = 32%nat ∧ Forall (λ b, 0 <= b < 256) h.

Class TextLaws `{Text} : Prop := {
  (** A split has at least one (possibly empty) part. *)
  split_not_nil text delimiter trim compress :
    split text delimiter trim compress ≠ [];
  is_ascii_numeric_spec text :
    is_ascii_numeric text = all_chars is_digit text;
  (** A string of digits deserializes to the number it denotes, or overflows. *)
  deserialize_digits width text :
    text ≠ "" → all_chars is_digit text = true →
    deserialize width text =
      if decimal text <? 2 ^ width then Some (decimal text) else None;
  decode_encode_hash h : is_hash h → decode_hash (encode_hash h) = Some h;
  decode_hash_ok text h : decode_hash text = Some h → is_hash h;
  (** The base16 form of a hash has two characters for each byte. *)
  decode_hash_length text h : decode_hash text = Some h → String.length text = 64%nat;
}.

Lemma encode_hash_inj `{TextLaws} h h' :
  is_hash h → is_hash h' → encode_hash h = encode_hash h' → h = h'.
Proof.
  intros Hh Hh' Heq. apply (f_equal decode_hash) in Heq.
  rewrite !decode_encode_hash in Heq by done. by injection Heq.
Qed.

(** ** A reference instance

    Operations that satisfy the laws, on which the development's witnesses
    evaluate the definitions. *)

(** The parts of a string between occurrences of a delimiter character. *)
Fixpoint split_at (c : ascii) (s : string) : list string :=
  match s with
  | EmptyString => [""]
  | String a t =>
      if Ascii.eqb a c then "" :: split_at c t
      else
        match split_at c t with
        | [] => [String a ""]
        | part :: parts => String a part :: parts
        end
  end.

Definition reference_split (text delimiter : string) (trim compress : bool) :
    list string :=
  let parts :=
    match delimiter with
    | EmptyString => [text]
    | String c _ => split_at c text
    end in
  let kept := if compress then filter (λ s, s ≠ "") parts else parts in
  match kept with [] => [""] | _ => kept end.

Definition hex_digit (n : Z) : ascii :=
  default "0"%char (String.get (Z.to_nat n) "0123456789abcdef").

Definition hex_value (c : ascii) : option Z :=
  let n := Z.of_N (N_of_ascii c) in
  if (48 <=? n) && (n <=? 57) then Some (n - 48)
  else if (97 <=? n) && (n <=? 102) then Some (n - 87)
  else if (65 <=? n) && (n <=? 70) then Some (n - 55)
  else None.

Fixpoint reference_encode (bytes : list Z) : string :=
  match bytes with
  | [] => ""
  | b :: rest =>
      String (hex_digit (b / 16)) (String (hex_digit (b mod 16)) (reference_encode rest))
  end.

Fixpoint reference_decode (s : string) : option (list Z) :=
  match s with
  | EmptyString => Some []
  | String a (String b t) =>
      match hex_value a, hex_value b, reference_decode t with
      | Some x, Some y, Some rest => Some (x * 16 + y :: rest)
      | _, _, _ => None
      end
  | _ => None
  end.

Definition reference_decode_hash (s : string) : option hash_digest :=
  match reference_decode s with
  | Some bytes => if (length bytes =? 32)%nat then Some bytes else None
  | None => None
  end.

#[global] Instance reference_text : Text := {
  split := reference_split;
  is_ascii_numeric := all_chars is_digit;
  deserialize width text :=
    if all_chars is_digit text && (decimal text <? 2 ^ width)
    then Some (decimal text) else None;
  decode_hash s := reverse <$> reference_decode_hash s;
  encode_hash h := reference_encode (reverse h);
  decode_base16_hash := reference_decode_hash;
  decode_base16 := reference_decode;
  encode_base16 := reference_encode;
}.

Lemma hex_value_bound c x : hex_value c = Some x → 0 <= x < 16.
Proof. unfold hex_value. repeat case_match; intros; simplify_eq; lia. Qed.

Lemma hex_value_digit x : 0 <= x < 16 → hex_value (hex_digit x) = Some x.
Proof.
  intros Hx. assert (x = 0 ∨ x = 1 ∨ x = 2 ∨ x = 3 ∨ x = 4 ∨ x = 5 ∨ x = 6 ∨ x = 7 ∨
    x = 8 ∨ x = 9 ∨ x = 10 ∨ x = 11 ∨ x = 12 ∨ x = 13 ∨ x = 14 ∨ x = 15) as H by lia.
  by destruct_or! H; subst x.
Qed.

Lemma reference_decode_bytes s bytes :
  reference_decode s = Some bytes → Forall (λ b, 0 <= b < 256) bytes.
Proof.
  revert bytes. remember (String.length s) as n eqn:Hn.
  revert s Hn. induction (lt_wf n) as [n _ IH]; intros [|a [|b s]] -> bytes; simpl;
    intros; simplify_eq; [constructor|].
  destruct (hex_value a) as [x|] eqn:Hx, (hex_value b) as [y|] eqn:Hy; simplify_eq.
  destruct (reference_decode s) as [r|] eqn:Hr; simplify_eq.
  apply hex_value_bound in Hx, Hy. constructor; [lia|].
  eapply IH; [|reflexivity|exact Hr]. simpl. lia.
Qed.

Lemma reference_decode_length s bytes :
  reference_decode s = Some bytes → String.length s = (2 * length bytes)%nat.
Proof.
  revert bytes. remember (String.length s) as n eqn:Hn.
  revert s Hn. induction (lt_wf n) as [n _ IH]; intros [|a [|b s]] -> bytes; simpl;
    intros; simplify_eq; [done|].
  destruct (hex_value a) as [x|], (hex_value b) as [y|]; simplify_eq.
  destruct (reference_decode s) as [r|] eqn:Hr; simplify_eq. simpl.
  rewrite (IH (String.length s) ltac:(simpl; lia) s eq_refl r Hr). lia.
Qed.

Lemma reference_decode_encode bytes :
  Forall (λ b, 0 <= b < 256) bytes → reference_decode (reference_encode bytes) = Some bytes.
Proof.
  induction 1 as [|b bytes Hb _ IH]; [done|]. cbn [reference_encode reference_decode].
  rewrite !hex_value_digit by
    (split; [apply Z.div_pos || apply Z.mod_pos_bound|
             apply Z.div_lt_upper_bound || apply Z.mod_pos_bound]; lia).
  rewrite IH. do 2 f_equal. pose proof (Z.div_mod b 16). lia.
Qed.

#[global] Instance reference_text_laws : TextLaws.
Proof.
  split.
  - intros. simpl. unfold reference_split. by case_match.
  - done.
  - intros width text _ Hd. simpl. by rewrite Hd.
  - intros h [Hlen Hb]. simpl. unfold reference_decode_hash.
    rewrite reference_decode_encode by by rewrite Forall_reverse.
    rewrite length_reverse, Hlen. simpl. by rewrite reverse_involutive.
  - intros text h. simpl. unfold reference_decode_hash.
    destruct (reference_decode text) as [bytes|] eqn:Hd; [|done].
    destruct (Nat.eqb_spec (length bytes) 32) as [Hl|]; [|done].
    simpl. intros [= <-]. split; [by rewrite length_reverse|].
    rewrite Forall_reverse. by eapply reference_decode_bytes.
  - intros text h. simpl. unfold reference_decode_hash.
    destruct (reference_decode text) as [bytes|] eqn:Hd; [|done].
    destruct (Nat.eqb_spec (length bytes) 32) as [Hl|]; [|done].
    intros _. rewrite (reference_decode_length _ _ Hd). lia.
Qed.

(** ** Sizes *)

(** [max_size_t]. *)
Definition max_size_t : Z := 2 ^ 64 - 1.

(** Conversion and saturating arithmetic of 64-bit sizes. *)
Class SizeMath := {
  to_size : double → option Z;
  is_double_zero : double → bool;
  is_add_overflow : Z → Z → bool;
  ceilinged_multiply : Z → Z → Z;
  ceilinged_add : Z → Z → Z;
  floored_subtract : Z → Z → Z;
  limit : Z → Z → Z;
  (** [chain::header::serialized_size()]. *)
  header_size : Z;
}.

Definition is_size (n : Z) : Prop := 0 <= n <= max_size_t.

Class SizeMathLaws `{SizeMath} : Prop := {
  to_size_range d n : to_size d = Some n → is_size n;
  is_add_overflow_spec a b : is_add_overflow a b = (max_size_t <? a + b);
  ceilinged_multiply_spec a b : ceilinged_multiply a b = Z.min (a * b) max_size_t;
  ceilinged_add_spec a b : ceilinged_add a b = Z.min (a + b) max_size_t;
  floored_subtract_spec a b : floored_subtract a b = Z.max (a - b) 0;
  limit_spec a b : limit a b = Z.min a b;
}.

#[global] Instance reference_sizes : SizeMath := {
  to_size d := if PrimFloat.eqb d PrimFloat.one then Some 1 else Some 0;
  is_double_zero _ := false;
  is_add_overflow a b := max_size_t <? a + b;
  ceilinged_multiply a b := Z.min (a * b) max_size_t;
  ceilinged_add a b := Z.min (a + b) max_size_t;
  floored_subtract a b := Z.max (a - b) 0;
  limit a b := Z.min a b;
  header_size := 1;
}.

#[global] Instance reference_sizes_laws : SizeMathLaws.
Proof.
  split; [|done..]. intros d n. simpl. unfold is_size, max_size_t.
  case_match; intros [= <-]; lia.
Qed.
