(* ===== verification/Numbers.v ===== *)
(** Decimal numbers in paths and query strings (the [to_number] and [to_hash]
    helpers of src/parsers): exactly the canonical decimals of the type's range
    are accepted, by either of the two implementations. *)
From stdpp Require Import pretty.
From S2P Require Import Prelude Rpc System.

(** ** Numbers in paths and query strings

    [to_number] is defined alike in src/parsers/native_target.cpp,
    admin_target.cpp, esplora_target.cpp and admin_query.cpp. *)

Section Numbers.
Context `{Text}.

Definition to_number (width : Z) (token : string) : option Z :=
  if negb (is_empty token) && is_ascii_numeric token &&
     ((String.length token =? 1)%nat || negb (starts_with "0" token))
  then deserialize width token
  else None.

Definition to_hash (token : string) : option hash_digest := decode_hash token.

End Numbers.

(** [std::from_chars] for an unsigned integer of the given width: the longest
    prefix of digits, the error and the unread rest. *)
Inductive errc := errc_none | errc_invalid_argument | errc_result_out_of_range.

Fixpoint take_digits (s : string) : string * string :=
  match s with
  | String c t =>
      if is_digit c then let '(d, r) := take_digits t in (String c d, r)
      else ("", s)
  | EmptyString => ("", "")
  end.

Definition from_chars (width : Z) (s : string) : errc * string * Z :=
  let '(digits, rest) := take_digits s in
  if is_empty digits then (errc_invalid_argument, s, 0)
  else if decimal digits <? 2 ^ width then (errc_none, rest, decimal digits)
  else (errc_result_out_of_range, rest, 0).

(** [to_number] of src/parsers/bitcoind_target.cpp and bitcoind_query.cpp. *)
Definition from_chars_number (width : Z) (token : string) : option Z :=
  if is_empty token || ((1 <? String.length token)%nat && starts_with "0" token)
  then None
  else
    match from_chars width token with
    | (errc_none, rest, n) => if is_empty rest then Some n else None
    | _ => None
    end.

(** *** Canonical decimals *)

(** The decimal form of a number, without leading zeros. *)
Definition print_number (n : Z) : string := pretty (Z.to_N n).

Definition canonical (token : string) : bool :=
  negb (is_empty token) && all_chars is_digit token &&
  ((String.length token =? 1)%nat || negb (starts_with "0" token)).

Lemma take_digits_all s : all_chars is_digit s = true → take_digits s = (s, "").
Proof.
  induction s as [|c s IH]; simpl; [done|].
  intros [Hc Hs]%andb_prop. by rewrite Hc, IH.
Qed.

Lemma take_digits_rest s d r :
  take_digits s = (d, r) → is_empty r = all_chars is_digit s.
Proof.
  revert d r. induction s as [|c s IH]; intros d r; simpl.
  - by intros [= <- <-].
  - destruct (is_digit c) eqn:Hc.
    + destruct (take_digits s) as [d' r'] eqn:Ht. intros [= <- <-]. by eapply IH.
    + by intros [= <- <-].
Qed.

Lemma take_digits_nil s r :
  take_digits s = ("", r) → s = "" ∨ all_chars is_digit s = false.
Proof.
  destruct s as [|c s]; simpl; [by left|]. destruct (is_digit c) eqn:Hc.
  - by destruct (take_digits s).
  - by right.
Qed.

Lemma from_chars_number_spec width token :
  from_chars_number width token =
    if canonical token && (decimal token <? 2 ^ width)
    then Some (decimal token) else None.
Proof.
  unfold from_chars_number, canonical, from_chars.
  destruct (is_empty token) eqn:Hne; [done|]. cbn [negb andb orb].
  destruct (take_digits token) as [d r] eqn:Ht.
  pose proof (take_digits_rest _ _ _ Ht) as Hr.
  assert (Hlen : (1 <? String.length token)%nat = negb (String.length token =? 1)%nat).
  { destruct token as [|c [|c' token]]; done. }
  rewrite Hlen. destruct (String.length token =? 1)%nat, (starts_with "0" token);
    cbn [negb andb orb]; rewrite ?andb_true_r, ?andb_false_r; try done;
    (destruct (all_chars is_digit token) eqn:Hall;
      [rewrite (take_digits_all _ Hall) in Ht; injection Ht as <- <-; rewrite Hne;
       cbn [andb]; by destruct (decimal token <? 2 ^ width)
      |cbn [andb]; destruct (is_empty d); [done|];
       destruct (decimal d <? 2 ^ width); by rewrite ?Hr]).
Qed.

Lemma to_number_spec `{TextLaws} width token :
  to_number width token =
    if canonical token && (decimal token <? 2 ^ width)
    then Some (decimal token) else None.
Proof.
  unfold to_number, canonical. rewrite is_ascii_numeric_spec.
  destruct token as [|c token]; [done|].
  destruct (all_chars is_digit _) eqn:Hall; [|done].
  cbn [is_empty negb andb]. destruct (_ || _); [|done]. simpl.
  by rewrite deserialize_digits.
Qed.

Lemma digit_char c d : digit c = Some d → 0 <= d < 10 ∧ pretty_N_char (Z.to_N d) = c.
Proof.
  unfold digit. destruct c as [[] [] [] [] [] [] [] []]; intros H;
    vm_compute in H; simplify_eq; (split; [lia|done]).
Qed.

Lemma char_digit x : (x < 10)%N → digit (pretty_N_char x) = Some (Z.of_N x).
Proof.
  intros Hx. assert (x = 0 ∨ x = 1 ∨ x = 2 ∨ x = 3 ∨ x = 4 ∨ x = 5 ∨ x = 6 ∨
    x = 7 ∨ x = 8 ∨ x = 9)%N as Hin by lia.
  by destruct_or! Hin; subst x.
Qed.

Lemma pretty_go_decimal x s :
  decimal_from 0 (pretty_N_go x s) = decimal_from (Z.of_N x) s.
Proof.
  revert s. induction (N.lt_wf_0 x) as [x _ IH]; intros s.
  destruct (decide (0 < x)%N) as [Hx|Hx].
  - rewrite pretty_N_go_step by done.
    assert (x / 10 < x)%N by (apply N.div_lt; lia). rewrite IH by done. simpl.
    rewrite char_digit by (apply N.mod_lt; lia). simpl. f_equal.
    rewrite N2Z.inj_div, N2Z.inj_mod. pose proof (Z.div_mod (Z.of_N x) 10). lia.
  - assert (x = 0%N) as -> by lia. by rewrite pretty_N_go_0.
Qed.

Lemma pretty_go_digits x s :
  all_chars is_digit (pretty_N_go x s) = all_chars is_digit s.
Proof.
  revert s. induction (N.lt_wf_0 x) as [x _ IH]; intros s.
  destruct (decide (0 < x)%N) as [Hx|Hx].
  - rewrite pretty_N_go_step by done.
    assert (x / 10 < x)%N by (apply N.div_lt; lia). rewrite IH by done. simpl.
    unfold is_digit at 1. by rewrite char_digit by (apply N.mod_lt; lia).
  - assert (x = 0%N) as -> by lia. by rewrite pretty_N_go_0.
Qed.

Lemma pretty_go_leading x s :
  (0 < x)%N → starts_with "0" (pretty_N_go x s) = false ∧ pretty_N_go x s ≠ "".
Proof.
  revert s. induction (N.lt_wf_0 x) as [x _ IH]; intros s Hx.
  rewrite pretty_N_go_step by done.
  assert (x / 10 < x)%N by (apply N.div_lt; lia).
  destruct (decide (0 < x / 10)%N) as [Hq|Hq]; [by apply IH|].
  assert (x / 10 = 0)%N as Hq0 by (destruct (x `div` 10)%N; [done|by destruct Hq]). rewrite Hq0, pretty_N_go_0.
  apply N.div_small_iff in Hq0; [|done]. rewrite N.mod_small by done.
  split; [|done]. simpl. apply Ascii.eqb_neq. intros Hc.
  assert (digit (pretty_N_char x) = Some 0) as Hd by by rewrite Hc.
  rewrite char_digit in Hd by done. injection Hd. lia.
Qed.

Lemma print_number_canonical n :
  0 <= n → canonical (print_number n) = true ∧ decimal (print_number n) = n.
Proof.
  intros Hn. unfold print_number, canonical, decimal, pretty, pretty_N.
  case_decide as H0; [split; [done|simpl; lia]|].
  assert (0 < Z.to_N n)%N as Hpos by lia.
  destruct (pretty_go_leading (Z.to_N n) "" Hpos) as [Hlead Hne].
  rewrite pretty_go_decimal, pretty_go_digits, Hlead, orb_true_r. simpl.
  split; [by destruct (pretty_N_go _ _)|lia].
Qed.

Lemma pretty_go_app acc s :
  all_chars is_digit s = true → 0 < acc →
  pretty_N_go (Z.to_N (decimal_from acc s)) "" = pretty_N_go (Z.to_N acc) s.
Proof.
  enough (∀ u, all_chars is_digit s = true → 0 < acc →
    pretty_N_go (Z.to_N (decimal_from acc s)) u = pretty_N_go (Z.to_N acc) (s +:+ u)) as Hu.
  { intros. rewrite Hu by done. f_equal. clear.
    induction s as [|c s IH]; [done|]. change (String c (s +:+ "") = String c s); by rewrite IH. }
  revert acc. induction s as [|c s IH]; intros acc u; simpl; [done|].
  intros [Hc Hs]%andb_prop Hacc. unfold is_digit in Hc.
  destruct (digit c) as [d|] eqn:Hd; [|done]. apply digit_char in Hd as [Hd Hch].
  simpl. rewrite IH by (done || lia). rewrite (pretty_N_go_step (Z.to_N (_ + _))) by lia.
  replace (Z.to_N (acc * 10 + d) / 10)%N with (Z.to_N acc) by
    (rewrite Z2N.inj_add, Z2N.inj_mul, N.div_add_l, N.div_small by lia; lia).
  replace (Z.to_N (acc * 10 + d) mod 10)%N with (Z.to_N d) by
    (rewrite Z2N.inj_add, Z2N.inj_mul, N.Div0.add_mod, N.Div0.mod_mul by lia;
     rewrite N.add_0_l, N.Div0.mod_mod, N.mod_small by lia; done).
  by rewrite Hch.
Qed.

Lemma canonical_print_number t : canonical t = true → print_number (decimal t) = t.
Proof.
  unfold canonical. intros [[Hne Hdig]%andb_prop Hlead]%andb_prop.
  destruct t as [|c t]; [done|]. simpl in Hdig. apply andb_prop in Hdig as [Hc Hdig].
  unfold is_digit in Hc. destruct (digit c) as [d|] eqn:Hd; [|done].
  pose proof (digit_char _ _ Hd) as [Hdr Hch].
  unfold decimal. simpl. rewrite Hd. simpl. unfold print_number, pretty, pretty_N.
  destruct (decide (d = 0)) as [->|Hd0].
  - vm_compute in Hch. subst c. simpl in Hlead. rewrite orb_false_r in Hlead.
    destruct t; [done|]. simpl in Hlead. done.
  - assert (0 < d) as Hpos by lia.
    pose proof (pretty_go_app d t Hdig Hpos) as Hgo.
    assert (Hge : 0 < decimal_from d t).
    { clear -Hdig Hpos. revert d Hpos. induction t as [|c t IH]; intros d Hpos; [done|].
      simpl in *. apply andb_prop in Hdig as [Hc Hdig]. apply IH; [done|].
      unfold is_digit in Hc. destruct (digit c) as [e|] eqn:He; [|done].
      apply digit_char in He. simpl. lia. }
    change (0 * 10 + d) with d. rewrite decide_False by lia. rewrite Hgo.
    rewrite pretty_N_go_step by lia. rewrite N.div_small, pretty_N_go_0 by lia.
    rewrite N.mod_small by lia. by rewrite Hch.
Qed.

Lemma canonical_digits t : canonical t = true → all_chars is_digit t = true.
Proof. unfold canonical. by intros [[_ ?]%andb_prop _]%andb_prop. Qed.

Lemma decimal_nonneg t : all_chars is_digit t = true → 0 <= decimal t.
Proof.
  unfold decimal. enough (∀ acc, 0 <= acc → all_chars is_digit t = true →
    0 <= decimal_from acc t) as H by (intros; by apply H).
  induction t as [|c t IH]; intros acc Hacc; simpl; [done|].
  intros [Hc Ht]%andb_prop. apply IH; [|done].
  unfold is_digit in Hc. destruct (digit c) as [d|] eqn:Hd; [|done].
  apply digit_char in Hd. simpl. lia.
Qed.

Lemma to_number_bound `{TextLaws} width token n :
  to_number width token = Some n → 0 <= n < 2 ^ width.
Proof.
  rewrite to_number_spec. destruct (canonical token) eqn:Hc; [|done].
  destruct (Z.ltb_spec (decimal token) (2 ^ width)) as [Hlt|]; [|done].
  simpl. intros [= <-]. split; [|done]. by apply decimal_nonneg, canonical_digits.
Qed.

(** ** Properties *)

(** [to_number] accepts exactly the canonical decimal forms (no sign, no
    leading zero, no other character) of the values of its type, so that a
    number of a path has one spelling; and its two implementations (deserialization
    and [std::from_chars]) accept the same tokens with the same values. *)
Lemma to_number_iff `{TextLaws} width token :
  (∀ n, to_number width token = Some n ↔ 0 <= n < 2 ^ width ∧ token = print_number n) ∧
  to_number width token = from_chars_number width token.
Proof.
  rewrite from_chars_number_spec, to_number_spec. split; [|done]. split.
  - destruct (canonical token) eqn:Hc; [|done].
    destruct (Z.ltb_spec (decimal token) (2 ^ width)) as [Hlt|]; [|done].
    simpl. intros [= <-]. split; [|by rewrite canonical_print_number].
    split; [|done]. by apply decimal_nonneg, canonical_digits.
  - intros [[Hn Hlt] ->]. destruct (print_number_canonical n Hn) as [-> ->].
    by rewrite (proj2 (Z.ltb_lt _ _) Hlt).
Qed.
