(* ===== verification/Target.v ===== *)
(** The common shape of the path parsers ([native_target], [admin_target],
    [esplora_target], [bitcoind_target] of src/parsers), and a declarative
    reference for what they accept.

    The sources walk a vector of path segments with an index, fill in an output
    request, and return early with an error code. [parse] is that state with
    early return; reading past the end of the vector is [Undefined]. A [route]
    is one line of the service's documentation: the segments it consists of and
    the request that it denotes. *)
From S2P Require Import Prelude Rpc Errors System Numbers.

(** ** The cursor *)

Record cursor := Cursor {
  segments : list string;
  segment : nat;
  out : request_t;
}.

Inductive outcome (A : Type) :=
  | Continue (a : A) (c : cursor)
  | Return (ec : Error.error_t) (out : request_t)
  | Undefined.
Arguments Continue {A}. Arguments Return {A}. Arguments Undefined {A}.

Definition parse (A : Type) : Type := cursor → outcome A.

Definition pure {A} (a : A) : parse A := λ c, Continue a c.

Definition bind {A B} (m : parse A) (f : A → parse B) : parse B := λ c,
  match m c with
  | Continue a c' => f a c'
  | Return ec o => Return ec o
  | Undefined => Undefined
  end.

Declare Scope parse_scope.
Delimit Scope parse_scope with parse.
Notation "'let*' x := m 'in' k" := (bind m (λ x, k))
  (at level 10, x pattern, m at level 100, k at level 200)
  : parse_scope.
Notation "m ;; k" := (bind m (λ _ : unit, k))
  (at level 100, k at level 200, right associativity) : parse_scope.
#[global] Open Scope parse_scope.

(** [return ec]. *)
Definition return_code {A} (ec : Error.error_t) : parse A := λ c, Return ec (out c).

(** [segment == segments.size()]. *)
Definition at_end : parse bool := λ c,
  Continue (segment c =? length (segments c))%nat c.

(** [segments[segment]]. *)
Definition peek : parse string := λ c,
  match segments c !! segment c with
  | Some s => Continue s c
  | None => Undefined
  end.

(** [segment++]. *)
Definition advance : parse unit := λ c,
  Continue tt (Cursor (segments c) (S (segment c)) (out c)).

(** [segments[segment++]]. *)
Definition next : parse string :=
  let* s := peek in advance ;; pure s.

Definition set_method (name : string) : parse unit := λ c,
  let r := out c in
  Continue tt (Cursor (segments c) (segment c)
    (Request (jsonrpc r) (id r) name (params r))).

(** [params[key] = value], through the reference that the parsers hold. *)
Definition set_param (key : string) (v : value_t) : parse unit := λ c,
  let r := out c in
  match params r with
  | Some (params_object o) =>
      Continue tt (Cursor (segments c) (segment c)
        (Request (jsonrpc r) (id r) (method r)
          (Some (params_object (set_field key v o)))))
  | _ => Undefined
  end.

(** [request_t{ .jsonrpc = v2, .id = null, .method = {}, .params = object_t{} }] *)
Definition message (name : string) (o : object) : request_t :=
  Request version_v2 (Some null_t) name (Some (params_object o)).

(** The conclusion of the parsers that reject trailing segments. *)
Definition conclude : parse unit :=
  let* stop := at_end in
  return_code (if stop then Error.success else Error.extra_segment).

(** Run a parser body over a path: split off the query, split the rest into
    segments, and initialize the output. The result is [None] when the code
    has undefined behaviour, and otherwise the returned code and output. *)
Definition run_target `{Text} (body : parse unit) (out : request_t) (path : string) :
    option (Error.error_t * request_t) :=
  match split path "?" false false with
  | [] => None
  | clean :: _ =>
      if is_empty clean then Some (Error.empty_path, out)
      else
        let segments := split clean "/" false true in
        match body (Cursor segments 0 (message "" [])) with
        | Return ec o => Some (ec, o)
        | Continue _ _ | Undefined => None
        end
  end.

(** ** Following a body over the segments that are left

    [run m seen rest r] runs a body that has read [seen] and has not read
    [rest]; the rules follow it one operation at a time. *)

Definition run {A} (m : parse A) (seen rest : list string) (r : request_t) : outcome A :=
  m (Cursor (seen ++ rest) (length seen) r).

Section Rules.
Context {A : Type} (seen rest : list string) (r : request_t).

Lemma run_at_end (f : bool → parse A) :
  run (bind at_end f) seen rest r =
    run (f (match rest with [] => true | _ => false end)) seen rest r.
Proof.
  unfold run, bind, at_end. simpl. rewrite length_app.
  destruct rest as [|s rest']; simpl.
  - by rewrite Nat.add_0_r, Nat.eqb_refl.
  - by rewrite (proj2 (Nat.eqb_neq _ _)) by lia.
Qed.

Lemma run_peek s (f : string → parse A) :
  run (bind peek f) seen (s :: rest) r = run (f s) seen (s :: rest) r.
Proof. unfold run, bind, peek. cbn [segments segment]. by rewrite list_lookup_middle. Qed.

Lemma run_advance s (f : unit → parse A) :
  run (bind advance f) seen (s :: rest) r = run (f tt) (seen ++ [s]) rest r.
Proof.
  unfold run, bind, advance. simpl.
  by rewrite length_app, Nat.add_1_r, <-(assoc_L (++)).
Qed.

Lemma run_next s (f : string → parse A) :
  run (bind next f) seen (s :: rest) r = run (f s) (seen ++ [s]) rest r.
Proof.
  transitivity (run (bind peek (λ s, bind advance (λ _, f s))) seen (s :: rest) r).
  - unfold run, next, bind, peek. cbn [segments segment]. by rewrite list_lookup_middle.
  - by rewrite run_peek, run_advance.
Qed.

Lemma run_set_method n (f : unit → parse A) name o :
  run (bind (set_method n) f) seen rest (message name o) =
    run (f tt) seen rest (message n o).
Proof. done. Qed.

Lemma run_set_param k v (f : unit → parse A) name o :
  run (bind (set_param k v) f) seen rest (message name o) =
    run (f tt) seen rest (message name (set_field k v o)).
Proof. done. Qed.

Lemma run_return ec : run (@return_code A ec) seen rest r = Return ec r.
Proof. done. Qed.

Lemma run_pure (a : A) {B} (f : A → parse B) :
  run (bind (pure a) f) seen rest r = run (f a) seen rest r.
Proof. done. Qed.
End Rules.

Lemma run_assoc {A B C} (m : parse A) (f : A → parse B) (g : B → parse C) seen rest r :
  run (bind (bind m f) g) seen rest r = run (bind m (λ a, bind (f a) g)) seen rest r.
Proof. unfold run, bind. by destruct (m _). Qed.

Lemma run_bind_return {A B} ec (f : A → parse B) seen rest r :
  run (bind (return_code ec) f) seen rest r = Return ec r.
Proof. done. Qed.

Lemma run_conclude seen rest r :
  run conclude seen rest r =
    Return (match rest with [] => Error.success | _ => Error.extra_segment end) r.
Proof. unfold conclude. rewrite run_at_end, run_return. by destruct rest. Qed.

(** ** Routes *)

(** The shapes of a path segment, with the parameter that it sets. *)
Inductive part :=
  | Literal (text : string)
  | Version (key : string)
  | Number (width : Z) (key : string)
  | Hash (key : string)
  | ScriptHash (key : string)
  | Word (key : string).

(** A path, the method that it invokes and the parameters that it implies. *)
Record route := Route {
  parts : list part;
  invokes : string;
  implies : object;
}.

Definition sized (width n : Z) : value_t :=
  if width =? 8 then uint8_t n else uint32_t n.

Section Matching.
Context `{Text}.

Definition match_part (p : part) (s : string) (o : object) : option object :=
  match p with
  | Literal text => if s == text then Some o else None
  | Version key =>
      if starts_with "v" s then
        match to_number 8 (substr1 s) with
        | Some n => Some (set_field key (uint8_t n) o)
        | None => None
        end
      else None
  | Number width key =>
      match to_number width s with
      | Some n => Some (set_field key (sized width n) o)
      | None => None
      end
  | Hash key =>
      match to_hash s with
      | Some h => Some (set_field key (hash_t h) o)
      | None => None
      end
  | ScriptHash key =>
      match decode_base16_hash s with
      | Some h => Some (set_field key (hash_t h) o)
      | None => None
      end
  | Word key => Some (set_field key (string_t s) o)
  end.

Fixpoint match_parts (ps : list part) (segs : list string) (o : object) : option object :=
  match ps, segs with
  | [], [] => Some o
  | p :: ps, s :: segs =>
      match match_part p s o with
      | Some o' => match_parts ps segs o'
      | None => None
      end
  | _, _ => None
  end.

Definition set_fields (fields o : object) : object :=
  foldl (λ o '(k, v), set_field k v o) o fields.

Definition match_route (r : route) (segs : list string) (o : object) :
    option (string * object) :=
  match match_parts (parts r) segs o with
  | Some o' => Some (invokes r, set_fields (implies r) o')
  | None => None
  end.

(** The request of the first route of a table that a path matches. *)
Fixpoint find_route (table : list route) (segs : list string) (o : object) :
    option (string * object) :=
  match table with
  | [] => None
  | r :: table =>
      match match_route r segs o with
      | Some found => Some found
      | None => find_route table segs o
      end
  end.

(** The routes of a table, below a first segment. *)
Definition under (p : part) (table : list route) : list route :=
  (λ r, Route (p :: parts r) (invokes r) (implies r)) <$> table.

Lemma find_route_app t1 t2 segs o :
  find_route (t1 ++ t2) segs o =
    match find_route t1 segs o with
    | Some found => Some found
    | None => find_route t2 segs o
    end.
Proof.
  induction t1 as [|r t1 IH]; simpl; [done|].
  by destruct (match_route r segs o).
Qed.

Lemma find_route_under_nil p table o : find_route (under p table) [] o = None.
Proof. induction table as [|r table IH]; [done|]. simpl. exact IH. Qed.

Lemma find_route_under p table s segs o :
  find_route (under p table) (s :: segs) o =
    match match_part p s o with
    | Some o' => find_route table segs o'
    | None => None
    end.
Proof.
  induction table as [|r table IH]; simpl; [by destruct (match_part p s o)|].
  unfold match_route. simpl. rewrite IH. by destruct (match_part p s o).
Qed.

(** A found request is that of a route of the table. *)
Lemma find_route_elem table segs o found :
  find_route table segs o = Some found →
  ∃ r, r ∈ table ∧ match_route r segs o = Some found.
Proof.
  induction table as [|r table IH]; simpl; [done|].
  destruct (match_route r segs o) as [found'|] eqn:Hr.
  - intros [= <-]. exists r. split; [apply list_elem_of_here|done].
  - intros (r' & ? & ?)%IH. exists r'. split; [by apply list_elem_of_further|done].
Qed.

End Matching.

(** What a parser body answers: nothing if its behaviour is undefined, and
    otherwise the accepted method and parameters, if any. *)
Definition accepted (r : request_t) : option (option (string * object)) :=
  match r with
  | Request version_v2 (Some null_t) m (Some (params_object ps)) => Some (Some (m, ps))
  | _ => None
  end.

Definition answer (o : outcome unit) : option (option (string * object)) :=
  match o with
  | Return Error.success r => accepted r
  | Return _ _ => Some None
  | Continue _ _ | Undefined => None
  end.

Lemma accepted_message name o : accepted (message name o) = Some (Some (name, o)).
Proof. done. Qed.

(** ** Following a body and a table together *)

#[export] Hint Rewrite @run_at_end @run_peek @run_advance @run_next @run_set_method
  @run_set_param @run_return @run_pure @run_assoc @run_bind_return run_conclude
  @find_route_app @find_route_under_nil @find_route_under accepted_message : server.

(** Evaluate the comparisons of string literals. *)
Ltac eval_literals :=
  repeat match goal with
  | |- context [String.eqb ?s ?t] =>
      let b := eval vm_compute in (String.eqb s t) in
      first [constr_eq b true | constr_eq b false];
      change (String.eqb s t) with b
  end.

(** Use the decisions made so far. *)
Ltac use_decisions :=
  repeat match goal with
  | H : (_ == _) = false |- _ => rewrite !H
  | H : ?x = Some _ |- context [?x] => rewrite !H
  | H : ?x = None |- context [?x] => rewrite !H
  | H : String.eqb ?s ?t = true |- _ =>
      apply String.eqb_eq in H; first [subst s | subst t | discriminate H]
  end.

(** Execute a body by its rules, evaluate the table, and split on the next
    decision of either, until both have answered. *)
Ltac follow_step :=
  autorewrite with server; use_decisions; unfold match_route;
  cbn [find_route match_parts match_part parts invokes implies set_fields
       foldl answer negb andb orb]; eval_literals.

Ltac follow_split :=
  match goal with
  | |- context [run _ _ ?rest _] => is_var rest; destruct rest as [|? rest]
  | |- context [find_route _ ?rest _] => is_var rest; destruct rest as [|? rest]
  | |- context [match ?t with _ => _ end] => destruct_scrutinee t
  end.

Ltac follow_using tac :=
  repeat (progress follow_step); try done;
  repeat (first [progress tac | follow_split]; repeat (progress follow_step); try done).

Ltac follow := follow_using fail.

(** ** From segments to paths *)

Section Paths.
Context `{TextLaws}.

(** The segments of a path, if it has any text before its query. *)
Definition path_segments (path : string) : option (list string) :=
  match split path "?" false false with
  | [] => None
  | clean :: _ => if is_empty clean then None else Some (split clean "/" false true)
  end.

(** The code and output of a parser are those of its table: it is defined on
    every path, and it succeeds on exactly the paths of a route, with the
    request of that route. *)
Definition parses (target : request_t → string → option (Error.error_t * request_t))
    (table : list route) : Prop :=
  ∀ out path,
    (∃ ec o, target out path = Some (ec, o)) ∧
    (∀ o, target out path = Some (Error.success, o) ↔
      ∃ segs name ps, path_segments path = Some segs ∧
        find_route table segs [] = Some (name, ps) ∧ o = message name ps).

Lemma answer_inv o table segs :
  answer o = Some (find_route table segs []) →
  ∃ ec r, o = Return ec r ∧
    (∀ name ps, find_route table segs [] = Some (name, ps) ↔
      ec = Error.success ∧ r = message name ps) ∧
    (ec = Error.success → ∃ name ps, r = message name ps).
Proof.
  destruct o as [| ec r |]; simpl; [done| |done]. intros Ha. exists ec, r.
  destruct (decide (ec = Error.success)) as [->|Hne].
  - destruct r as [[] [[]|] m [[]|]]; simplify_eq/=. rewrite <-Ha.
    split_and!; [done| |by eauto]. intros name ps. unfold message. naive_solver.
  - assert (find_route table segs [] = None) as -> by (destruct ec; simplify_eq; done).
    naive_solver.
Qed.

Lemma run_target_parses body table :
  (∀ segs, segs ≠ [] →
    answer (run body [] segs (message "" [])) = Some (find_route table segs [])) →
  parses (run_target body) table.
Proof.
  intros Hbody out path. unfold run_target, path_segments.
  destruct (split path "?" false false) as [|clean rest] eqn:Hs.
  { by apply split_not_nil in Hs. }
  destruct (is_empty clean); [naive_solver|].
  assert (split clean "/" false true ≠ []) as Hne by apply split_not_nil.
  destruct (answer_inv _ _ _ (Hbody _ Hne)) as (ec & r & Hrun & Hiff & Hmsg).
  unfold run in Hrun. simpl in Hrun. rewrite Hrun. naive_solver.
Qed.

End Paths.
