(* ===== verification/Interface.v ===== *)
(** Published rpc interfaces (include/bitcoin/server/interfaces): methods with
    the names and types of their parameters, and what it takes for a request to
    conform to one. *)
From S2P Require Import Prelude Rpc Errors System Numbers Target.

(** [to_value(media_type)]: the media types that a request selects, by their
    values in the http library. *)
Class MediaValues := {
  media_text : Z;
  media_json : Z;
  media_data : Z;
  media_html : Z;
  media_unknown : Z;
}.

(** ** Interfaces *)

(** The parameter types that the interfaces use. *)
Inductive type_t :=
  | type_boolean | type_number | type_string
  | type_uint8 | type_uint32 | type_uint64
  | type_hash | type_array | type_object | type_value.

#[global] Instance type_t_eq_dec : EqDecision type_t.
Proof. solve_decision. Defined.

(** A plain type is required, [nullable] and [optional] ones may be omitted. *)
Inductive presence_t := required | nullable | optional.

#[global] Instance presence_t_eq_dec : EqDecision presence_t.
Proof. solve_decision. Defined.

Record parameter_t := Param {
  parameter_name : string;
  parameter_type : type_t;
  presence : presence_t;
}.

Record method_t := Method {
  method_name : string;
  parameters : list parameter_t;
}.

Definition find_method (interface : list method_t) (name : string) : option method_t :=
  List.find (λ m, method_name m == name) interface.

Definition find_parameter (m : method_t) (name : string) : option parameter_t :=
  List.find (λ p, parameter_name p == name) (parameters m).

(** The alternative that a value holds. *)
Definition type_of (v : value_t) : option type_t :=
  match v with
  | null_t => None
  | boolean_t _ => Some type_boolean
  | number_t _ => Some type_number
  | string_t _ => Some type_string
  | uint8_t _ => Some type_uint8
  | uint32_t _ => Some type_uint32
  | uint64_t _ => Some type_uint64
  | hash_t _ => Some type_hash
  | array_t _ => Some type_array
  | object_t _ => Some type_object
  | uint16_t _ | int64_t _ => None
  end.

(** A named request conforms to an interface if the method is published, each
    named argument is a parameter of the method with a value of its type, and
    no required parameter is missing, those in [later] apart: the arguments
    that another stage (the query string) supplies. *)
Definition conforms (interface : list method_t) (later : list string)
    (name : string) (o : object) : Prop :=
  ∃ m, find_method interface name = Some m ∧
    (∀ k v, (k, v) ∈ o → ∃ p, find_parameter m k = Some p ∧
      type_of v = Some (parameter_type p)) ∧
    (∀ p, p ∈ parameters m → presence p = required →
      parameter_name p ∈ field_names o ∨ parameter_name p ∈ later).

(** ** Routes and interfaces *)

(** The names and types of the arguments that a route sets. *)
Definition part_type (p : part) : list (string * type_t) :=
  match p with
  | Literal _ => []
  | Version key => [(key, type_uint8)]
  | Number width key => [(key, if width =? 8 then type_uint8 else type_uint32)]
  | Hash key | ScriptHash key => [(key, type_hash)]
  | Word key => [(key, type_string)]
  end.

Definition implied_types (o : object) : list (string * option type_t) :=
  (λ '(k, v), (k, type_of v)) <$> o.

Definition route_types (r : route) : list (string * option type_t) :=
  ((λ '(k, t), (k, Some t)) <$> (parts r ≫= part_type)) ++ implied_types (implies r).

(** The check of one route against an interface. *)
Definition route_conforms (interface : list method_t) (later : list string)
    (r : route) : bool :=
  match find_method interface (invokes r) with
  | None => false
  | Some m =>
      forallb (λ '(k, t),
        match find_parameter m k with
        | Some p => bool_decide (t = Some (parameter_type p))
        | None => false
        end) (route_types r) &&
      forallb (λ p, negb (bool_decide (presence p = required)) ||
        bool_decide (parameter_name p ∈ (route_types r).*1 ∨ parameter_name p ∈ later))
        (parameters m)
  end.

Section Conformance.
Context `{Text}.

(** The fields of an object are typed as [types] says, and cover its keys. *)
Definition typed (types : list (string * option type_t)) (o : object) : Prop :=
  (∀ k v, (k, v) ∈ o → (k, type_of v) ∈ types) ∧
  (∀ k, k ∈ types.*1 → k ∈ field_names o).

Lemma elem_of_set_field k v key w o :
  (k, v) ∈ set_field key w o → (k, v) = (key, w) ∨ (k, v) ∈ o.
Proof.
  induction o as [|[k' v'] o IH]; simpl.
  - intros Hin%list_elem_of_singleton. by left.
  - destruct (k' == key).
    + intros [->|Hin]%elem_of_cons; [by left|].
      right. by apply list_elem_of_further.
    + intros [->|Hin]%elem_of_cons; [right; apply list_elem_of_here|].
      destruct (IH Hin) as [?|?]; [by left|right; by apply list_elem_of_further].
Qed.

Lemma typed_set_field types o key v t :
  typed types o → type_of v = t → typed (types ++ [(key, t)]) (set_field key v o).
Proof.
  intros [Hty Hcov] <-. split.
  - intros k w [[= -> ->]|Hin]%elem_of_set_field; apply elem_of_app.
    + right. apply list_elem_of_here.
    + left. by apply Hty.
  - intros k. rewrite fmap_app, elem_of_app, set_field_names. simpl.
    intros [Hk|Hk%list_elem_of_singleton]; [right; by apply Hcov|by left].
Qed.

Lemma typed_part types p s o o' :
  typed types o → match_part p s o = Some o' →
  typed (types ++ ((λ '(k, t), (k, Some t)) <$> part_type p)) o'.
Proof.
  intros Ht. destruct p as [text|key|width key|key|key|key]; simpl.
  - destruct (s == text); [|done]. intros [= <-]. by rewrite app_nil_r.
  - destruct (starts_with _ s); [|done]. destruct (to_number _ _); [|done].
    intros [= <-]. by apply typed_set_field.
  - destruct (to_number width s) as [n|]; [|done].
    intros [= <-]. apply typed_set_field; [done|]. unfold sized. by destruct (width =? 8).
  - destruct (to_hash s); [|done]. intros [= <-]. by apply typed_set_field.
  - destruct (decode_base16_hash s); [|done]. intros [= <-]. by apply typed_set_field.
  - intros [= <-]. by apply typed_set_field.
Qed.

Lemma typed_parts types ps segs o o' :
  typed types o → match_parts ps segs o = Some o' →
  typed (types ++ ((λ '(k, t), (k, Some t)) <$> (ps ≫= part_type))) o'.
Proof.
  revert types segs o. induction ps as [|p ps IH]; intros types [|s segs] o Ht; simpl;
    try done.
  - intros [= <-]. by rewrite app_nil_r.
  - destruct (match_part p s o) as [o1|] eqn:Hp; [|done]. intros Hps.
    rewrite fmap_app, (assoc_L (++)). eapply IH; [|done]. by eapply typed_part.
Qed.

Lemma typed_set_fields types fields o :
  typed types o → typed (types ++ implied_types fields) (set_fields fields o).
Proof.
  revert types o. induction fields as [|[k v] fields IH]; intros types o Ht; simpl.
  - by rewrite app_nil_r.
  - rewrite cons_middle, (assoc_L (++)). apply IH. by apply typed_set_field.
Qed.

Lemma typed_route r segs name o :
  match_route r segs [] = Some (name, o) → name = invokes r ∧ typed (route_types r) o.
Proof.
  unfold match_route, route_types.
  destruct (match_parts (parts r) segs []) as [o'|] eqn:Hp; [|done].
  intros [= <- <-]. split; [done|]. apply typed_set_fields.
  apply (typed_parts []) in Hp; [done|]. split; [|done]. by intros k v ?%not_elem_of_nil.
Qed.

(** A table whose routes pass the check only yields conforming requests. *)
Lemma find_route_conforms interface later table segs name o :
  forallb (route_conforms interface later) table = true →
  find_route table segs [] = Some (name, o) → conforms interface later name o.
Proof.
  intros Hall (r & Hr & Hm)%find_route_elem.
  apply (forallb_elem _ _ _ Hall) in Hr. clear Hall.
  apply typed_route in Hm as [-> [Hty Hcov]]. unfold route_conforms in Hr.
  destruct (find_method interface (invokes r)) as [m|] eqn:Hf; [|done].
  apply andb_prop in Hr as [Hargs Hreq]. exists m. split_and!; [done| |].
  - intros k v Hkv. apply Hty in Hkv.
    apply (forallb_elem _ _ _ Hargs) in Hkv. simpl in Hkv.
    destruct (find_parameter m k) as [p|]; [|done].
    exists p. split; [done|]. by apply bool_decide_eq_true in Hkv.
  - intros p Hp Hpres. apply (forallb_elem _ _ _ Hreq) in Hp.
    rewrite Hpres in Hp. simpl in Hp. apply bool_decide_eq_true in Hp as [Hp|Hp].
    + left. by apply Hcov.
    + by right.
Qed.

End Conformance.

(** ** Deciding conformance *)

Definition conformsb (interface : list method_t) (later : list string)
    (name : string) (o : object) : bool :=
  match find_method interface name with
  | None => false
  | Some m =>
      forallb (λ '(k, v),
        match find_parameter m k with
        | Some p => bool_decide (type_of v = Some (parameter_type p))
        | None => false
        end) o &&
      forallb (λ p, negb (bool_decide (presence p = required)) ||
        bool_decide (parameter_name p ∈ field_names o ∨ parameter_name p ∈ later))
        (parameters m)
  end.

Lemma conformsb_conforms interface later name o :
  conformsb interface later name o = true → conforms interface later name o.
Proof.
  unfold conformsb. destruct (find_method interface name) as [m|] eqn:Hf; [|done].
  intros [Hargs Hreq]%andb_prop. exists m. split_and!; [done| |].
  - intros k v Hkv. apply (forallb_elem _ _ _ Hargs) in Hkv. simpl in Hkv.
    destruct (find_parameter m k) as [p|]; [|done].
    exists p. split; [done|]. by apply bool_decide_eq_true in Hkv.
  - intros p Hp Hpres. apply (forallb_elem _ _ _ Hreq) in Hp.
    rewrite Hpres in Hp. simpl in Hp. by apply bool_decide_eq_true in Hp.
Qed.

(** An argument of a parameter's type may be added. *)
Lemma conforms_set_field interface later name o key v p m :
  find_method interface name = Some m → find_parameter m key = Some p →
  type_of v = Some (parameter_type p) →
  conforms interface later name o → conforms interface later name (set_field key v o).
Proof.
  intros Hm Hp Ht (m' & Hm' & Hargs & Hreq). simplify_eq.
  exists m. split_and!; [done| |].
  - intros k w [[= -> ->]|Hin]%elem_of_set_field; [by exists p|by apply Hargs].
  - intros q Hq Hr. rewrite set_field_names. destruct (Hreq q Hq Hr); auto.
Qed.

(** ** Media values for examples *)

#[global] Instance reference_media : MediaValues := {
  media_text := 1; media_json := 2; media_data := 3; media_html := 4; media_unknown := 0;
}.
