(* ===== verification/NativeTarget.v ===== *)
(** The native RESTful path parser (src/parsers/native_target.cpp), the native
    interface that it targets (include/bitcoin/server/interfaces/native.hpp),
    and the correspondence of both with the table of native routes. *)
From S2P Require Import Prelude Rpc Errors System Numbers Target Interface.

Section Native.
Context `{Text}.
Import Error.

(** ** The parser *)

Definition native_top : parse unit :=
  let* stop := at_end in
  if stop then set_method "top"
  else
    let* subcomponent := next in
    if subcomponent == "subscribe" then set_method "top_subscribe"
    else return_code invalid_subcomponent.

Definition native_address : parse unit :=
  let* stop := at_end in
  if stop then return_code missing_hash
  else
    let* token := next in
    match to_hash token with
    | None => return_code invalid_hash
    | Some base16 =>
        set_param "hash" (hash_t base16) ;;
        let* stop := at_end in
        if stop then set_method "address"
        else
          let* subcomponent := next in
          if subcomponent == "confirmed" then set_method "address_confirmed"
          else if subcomponent == "unconfirmed" then set_method "address_unconfirmed"
          else if subcomponent == "balance" then set_method "address_balance"
          else if subcomponent == "subscribe" then set_method "address_subscribe"
          else return_code invalid_subcomponent
    end.

Definition native_input : parse unit :=
  let* stop := at_end in
  if stop then return_code missing_hash
  else
    let* token := next in
    match to_hash token with
    | None => return_code invalid_hash
    | Some hash =>
        set_param "hash" (hash_t hash) ;;
        let* stop := at_end in
        if stop then set_method "inputs"
        else
          let* component := next in
          match to_number 32 component with
          | None => return_code invalid_number
          | Some index =>
              set_param "index" (uint32_t index) ;;
              let* stop := at_end in
              if stop then set_method "input"
              else
                let* subcomponent := next in
                if subcomponent == "script" then set_method "input_script"
                else if subcomponent == "witness" then set_method "input_witness"
                else return_code invalid_subcomponent
          end
    end.

Definition native_output : parse unit :=
  let* stop := at_end in
  if stop then return_code missing_hash
  else
    let* token := next in
    match to_hash token with
    | None => return_code invalid_hash
    | Some hash =>
        set_param "hash" (hash_t hash) ;;
        let* stop := at_end in
        if stop then set_method "outputs"
        else
          let* component := next in
          match to_number 32 component with
          | None => return_code invalid_number
          | Some index =>
              set_param "index" (uint32_t index) ;;
              let* stop := at_end in
              if stop then set_method "output"
              else
                let* subcomponent := next in
                if subcomponent == "script" then set_method "output_script"
                else if subcomponent == "spender" then set_method "output_spender"
                else if subcomponent == "spenders" then set_method "output_spenders"
                else if subcomponent == "subscribe" then set_method "output_subscribe"
                else return_code invalid_subcomponent
          end
    end.

Definition native_tx : parse unit :=
  let* stop := at_end in
  if stop then return_code missing_hash
  else
    let* token := peek in
    if token == "subscribe" then advance ;; set_method "tx_subscribe"
    else
      let* token := next in
      match to_hash token with
      | None => return_code invalid_hash
      | Some hash =>
          set_param "hash" (hash_t hash) ;;
          let* stop := at_end in
          if stop then set_method "tx"
          else
            let* component := next in
            if component == "header" then set_method "tx_header"
            else if component == "details" then set_method "tx_details"
            else return_code invalid_component
      end.

(** The block identifier, by hash or by height. *)
Definition native_block_by (by_ : string) : parse unit :=
  if by_ == "hash" then
    let* stop := at_end in
    if stop then return_code missing_hash
    else
      let* token := next in
      match to_hash token with
      | None => return_code invalid_hash
      | Some hash => set_param "hash" (hash_t hash)
      end
  else if by_ == "height" then
    let* stop := at_end in
    if stop then return_code missing_height
    else
      let* token := next in
      match to_number 32 token with
      | None => return_code invalid_number
      | Some height => set_param "height" (uint32_t height)
      end
  else return_code invalid_id_type.

Definition native_block_filter : parse unit :=
  let* stop := at_end in
  if stop then return_code missing_type_id
  else
    let* token := next in
    match to_number 8 token with
    | None => return_code invalid_number
    | Some type =>
        set_param "type" (uint8_t type) ;;
        let* stop := at_end in
        if stop then set_method "block_filter"
        else
          let* subcomponent := next in
          if subcomponent == "hash" then set_method "block_filter_hash"
          else if subcomponent == "header" then set_method "block_filter_header"
          else return_code invalid_subcomponent
    end.

Definition native_block_component (component : string) : parse unit :=
  if component == "tx" then
    let* stop := at_end in
    if stop then return_code missing_position
    else
      let* token := next in
      match to_number 32 token with
      | None => return_code invalid_number
      | Some position =>
          set_param "position" (uint32_t position) ;;
          set_method "block_tx"
      end
  else if component == "header" then
    let* stop := at_end in
    if stop then set_method "block_header"
    else
      let* subcomponent := next in
      if subcomponent == "context" then set_method "block_header_context"
      else return_code invalid_subcomponent
  else if component == "txs" then set_method "block_txs"
  else if component == "details" then set_method "block_details"
  else if component == "filter" then native_block_filter
  else return_code invalid_component.

(** What follows the block identifier. *)
Definition native_block_rest : parse unit :=
  let* stop := at_end in
  if stop then set_method "block"
  else
    let* component := next in
    native_block_component component.

Definition native_block : parse unit :=
  let* stop := at_end in
  if stop then return_code missing_id_type
  else
    let* by_ := peek in
    if by_ == "subscribe" then advance ;; set_method "block_subscribe"
    else
      advance ;;
      native_block_by by_ ;;
      native_block_rest.

Definition native_body : parse unit :=
  let* token := peek in
  if negb (starts_with "v" token) then return_code missing_version
  else
    let* token := next in
    match to_number 8 (substr1 token) with
    | None => return_code invalid_number
    | Some version =>
        set_param "version" (uint8_t version) ;;
        let* stop := at_end in
        if stop then return_code missing_target
        else
          let* target := next in
          (if target == "configuration" then set_method "configuration"
           else if target == "top" then native_top
           else if target == "address" then native_address
           else if target == "input" then native_input
           else if target == "output" then native_output
           else if target == "tx" then native_tx
           else if target == "block" then native_block
           else return_code invalid_target) ;;
          conclude
    end.

Definition native_target (out : request_t) (path : string) :
    option (error_t * request_t) := run_target native_body out path.

(** ** The routes *)

Definition native_address_routes : list route :=
  [Route [Hash "hash"] "address" [];
   Route [Hash "hash"; Literal "confirmed"] "address_confirmed" [];
   Route [Hash "hash"; Literal "unconfirmed"] "address_unconfirmed" [];
   Route [Hash "hash"; Literal "balance"] "address_balance" [];
   Route [Hash "hash"; Literal "subscribe"] "address_subscribe" []].

Definition native_input_routes : list route :=
  [Route [Hash "hash"] "inputs" [];
   Route [Hash "hash"; Number 32 "index"] "input" [];
   Route [Hash "hash"; Number 32 "index"; Literal "script"] "input_script" [];
   Route [Hash "hash"; Number 32 "index"; Literal "witness"] "input_witness" []].

Definition native_output_routes : list route :=
  [Route [Hash "hash"] "outputs" [];
   Route [Hash "hash"; Number 32 "index"] "output" [];
   Route [Hash "hash"; Number 32 "index"; Literal "script"] "output_script" [];
   Route [Hash "hash"; Number 32 "index"; Literal "spender"] "output_spender" [];
   Route [Hash "hash"; Number 32 "index"; Literal "spenders"] "output_spenders" [];
   Route [Hash "hash"; Number 32 "index"; Literal "subscribe"] "output_subscribe" []].

Definition native_tx_routes : list route :=
  [Route [Literal "subscribe"] "tx_subscribe" [];
   Route [Hash "hash"] "tx" [];
   Route [Hash "hash"; Literal "header"] "tx_header" [];
   Route [Hash "hash"; Literal "details"] "tx_details" []].

Definition native_block_component_routes : list route :=
  [Route [] "block" [];
   Route [Literal "tx"; Number 32 "position"] "block_tx" [];
   Route [Literal "header"] "block_header" [];
   Route [Literal "header"; Literal "context"] "block_header_context" [];
   Route [Literal "txs"] "block_txs" [];
   Route [Literal "details"] "block_details" [];
   Route [Literal "filter"; Number 8 "type"] "block_filter" [];
   Route [Literal "filter"; Number 8 "type"; Literal "hash"] "block_filter_hash" [];
   Route [Literal "filter"; Number 8 "type"; Literal "header"] "block_filter_header" []].

Definition native_block_routes : list route :=
  Route [Literal "subscribe"] "block_subscribe" [] ::
  under (Literal "hash") (under (Hash "hash") native_block_component_routes) ++
  under (Literal "height") (under (Number 32 "height") native_block_component_routes).

Definition native_top_routes : list route :=
  [Route [] "top" []; Route [Literal "subscribe"] "top_subscribe" []].

Definition native_target_routes : list route :=
  Route [Literal "configuration"] "configuration" [] ::
  under (Literal "top") native_top_routes ++
  under (Literal "address") native_address_routes ++
  under (Literal "input") native_input_routes ++
  under (Literal "output") native_output_routes ++
  under (Literal "tx") native_tx_routes ++
  under (Literal "block") native_block_routes.

Definition native_routes : list route :=
  under (Version "version") native_target_routes.

(** ** The parser accepts exactly the routes *)

Lemma native_top_ok seen rest o :
  answer (run (native_top ;; conclude) seen rest (message "" o)) =
    Some (find_route native_top_routes rest o).
Proof. unfold native_top, native_top_routes. follow. Qed.

Lemma native_address_ok seen rest o :
  answer (run (native_address ;; conclude) seen rest (message "" o)) =
    Some (find_route native_address_routes rest o).
Proof. unfold native_address, native_address_routes. follow. Qed.

Lemma native_input_ok seen rest o :
  answer (run (native_input ;; conclude) seen rest (message "" o)) =
    Some (find_route native_input_routes rest o).
Proof. unfold native_input, native_input_routes. follow. Qed.

Lemma native_output_ok seen rest o :
  answer (run (native_output ;; conclude) seen rest (message "" o)) =
    Some (find_route native_output_routes rest o).
Proof. unfold native_output, native_output_routes. follow. Qed.

Context `{!TextLaws}.

(** A word of the grammar is no hash, as its length differs. *)
Lemma to_hash_short s : String.length s ≠ 64%nat → to_hash s = None.
Proof.
  intros Hs. unfold to_hash. destruct (decode_hash s) as [h|] eqn:Hd; [|done].
  by apply decode_hash_length in Hd.
Qed.

Lemma native_tx_ok seen rest o :
  answer (run (native_tx ;; conclude) seen rest (message "" o)) =
    Some (find_route native_tx_routes rest o).
Proof.
  unfold native_tx, native_tx_routes.
  pose proof (to_hash_short "subscribe" ltac:(done)) as Hsub. follow.
Qed.

Lemma native_block_rest_ok seen rest o :
  answer (run (native_block_rest ;; conclude) seen rest (message "" o)) =
    Some (find_route native_block_component_routes rest o).
Proof.
  unfold native_block_rest, native_block_component, native_block_filter,
    native_block_component_routes. follow.
Qed.

Lemma native_block_ok seen rest o :
  answer (run (native_block ;; conclude) seen rest (message "" o)) =
    Some (find_route native_block_routes rest o).
Proof.
  unfold native_block, native_block_by, native_block_routes.
  follow_using ltac:(rewrite native_block_rest_ok).
Qed.

Lemma native_body_ok segs :
  segs ≠ [] →
  answer (run native_body [] segs (message "" [])) = Some (find_route native_routes segs []).
Proof.
  intros Hsegs. destruct segs as [|s segs]; [done|].
  unfold native_body, native_routes, native_target_routes.
  follow_using ltac:(rewrite ?native_top_ok, ?native_address_ok, ?native_input_ok,
    ?native_output_ok, ?native_tx_ok, ?native_block_ok).
Qed.

End Native.

(** ** The native interface *)

Definition native_interface : list method_t :=
  [Method "configuration"
     [Param "version" type_uint8 required;
      Param "media" type_uint8 required];
   Method "top"
     [Param "version" type_uint8 required;
      Param "media" type_uint8 required];
   Method "top_subscribe"
     [Param "version" type_uint8 required;
      Param "media" type_uint8 required;
      Param "stop" type_boolean optional];
   Method "block"
     [Param "version" type_uint8 required;
      Param "media" type_uint8 required;
      Param "hash" type_hash nullable;
      Param "height" type_uint32 nullable;
      Param "witness" type_boolean optional];
   Method "block_header"
     [Param "version" type_uint8 required;
      Param "media" type_uint8 required;
      Param "hash" type_hash nullable;
      Param "height" type_uint32 nullable];
   Method "block_header_context"
     [Param "version" type_uint8 required;
      Param "media" type_uint8 required;
      Param "hash" type_hash nullable;
      Param "height" type_uint32 nullable];
   Method "block_details"
     [Param "version" type_uint8 required;
      Param "media" type_uint8 required;
      Param "hash" type_hash nullable;
      Param "height" type_uint32 nullable];
   Method "block_txs"
     [Param "version" type_uint8 required;
      Param "media" type_uint8 required;
      Param "hash" type_hash nullable;
      Param "height" type_uint32 nullable];
   Method "block_filter"
     [Param "version" type_uint8 required;
      Param "media" type_uint8 required;
      Param "type" type_uint8 required;
      Param "hash" type_hash nullable;
      Param "height" type_uint32 nullable];
   Method "block_filter_hash"
     [Param "version" type_uint8 required;
      Param "media" type_uint8 required;
      Param "type" type_uint8 required;
      Param "hash" type_hash nullable;
      Param "height" type_uint32 nullable];
   Method "block_filter_header"
     [Param "version" type_uint8 required;
      Param "media" type_uint8 required;
      Param "type" type_uint8 required;
      Param "hash" type_hash nullable;
      Param "height" type_uint32 nullable];
   Method "block_tx"
     [Param "version" type_uint8 required;
      Param "media" type_uint8 required;
      Param "position" type_uint32 required;
      Param "hash" type_hash nullable;
      Param "height" type_uint32 nullable;
      Param "witness" type_boolean optional];
   Method "block_subscribe"
     [Param "version" type_uint8 required;
      Param "media" type_uint8 required;
      Param "stop" type_boolean optional];
   Method "tx"
     [Param "version" type_uint8 required;
      Param "media" type_uint8 required;
      Param "hash" type_hash required;
      Param "witness" type_boolean optional];
   Method "tx_header"
     [Param "version" type_uint8 required;
      Param "media" type_uint8 required;
      Param "hash" type_hash required];
   Method "tx_details"
     [Param "version" type_uint8 required;
      Param "media" type_uint8 required;
      Param "hash" type_hash required];
   Method "tx_subscribe"
     [Param "version" type_uint8 required;
      Param "media" type_uint8 required;
      Param "stop" type_boolean optional];
   Method "inputs"
     [Param "version" type_uint8 required;
      Param "media" type_uint8 required;
      Param "hash" type_hash required;
      Param "witness" type_boolean optional];
   Method "input"
     [Param "version" type_uint8 required;
      Param "media" type_uint8 required;
      Param "hash" type_hash required;
      Param "index" type_uint32 required;
      Param "witness" type_boolean optional];
   Method "input_script"
     [Param "version" type_uint8 required;
      Param "media" type_uint8 required;
      Param "hash" type_hash required;
      Param "index" type_uint32 required];
   Method "input_witness"
     [Param "version" type_uint8 required;
      Param "media" type_uint8 required;
      Param "hash" type_hash required;
      Param "index" type_uint32 required];
   Method "outputs"
     [Param "version" type_uint8 required;
      Param "media" type_uint8 required;
      Param "hash" type_hash required];
   Method "output"
     [Param "version" type_uint8 required;
      Param "media" type_uint8 required;
      Param "hash" type_hash required;
      Param "index" type_uint32 required];
   Method "output_script"
     [Param "version" type_uint8 required;
      Param "media" type_uint8 required;
      Param "hash" type_hash required;
      Param "index" type_uint32 required];
   Method "output_spender"
     [Param "version" type_uint8 required;
      Param "media" type_uint8 required;
      Param "hash" type_hash required;
      Param "index" type_uint32 required];
   Method "output_spenders"
     [Param "version" type_uint8 required;
      Param "media" type_uint8 required;
      Param "hash" type_hash required;
      Param "index" type_uint32 required];
   Method "output_subscribe"
     [Param "version" type_uint8 required;
      Param "media" type_uint8 required;
      Param "hash" type_hash required;
      Param "index" type_uint32 required;
      Param "stop" type_boolean optional];
   Method "address"
     [Param "version" type_uint8 required;
      Param "media" type_uint8 required;
      Param "hash" type_hash required;
      Param "turbo" type_boolean optional];
   Method "address_confirmed"
     [Param "version" type_uint8 required;
      Param "media" type_uint8 required;
      Param "hash" type_hash required;
      Param "turbo" type_boolean optional];
   Method "address_unconfirmed"
     [Param "version" type_uint8 required;
      Param "media" type_uint8 required;
      Param "hash" type_hash required;
      Param "turbo" type_boolean optional];
   Method "address_balance"
     [Param "version" type_uint8 required;
      Param "media" type_uint8 required;
      Param "hash" type_hash required;
      Param "turbo" type_boolean optional];
   Method "address_subscribe"
     [Param "version" type_uint8 required;
      Param "media" type_uint8 required;
      Param "hash" type_hash required;
      Param "turbo" type_boolean optional;
      Param "stop" type_boolean optional]].

(** The arguments that [native_query] supplies, all of them from the query
    string or the request headers. *)
Definition native_query_arguments : list string := ["media"; "witness"; "turbo"; "stop"].

(** ** Properties *)

Lemma native_routes_conform :
  forallb (route_conforms native_interface native_query_arguments) native_routes = true.
Proof. vm_compute. reflexivity. Qed.

(** The native parser is defined on every path (it never reads past the
    segments), it accepts exactly the paths of the native routes, with the method
    and arguments of the route, and what it accepts is a request that the native
    interface publishes: the method exists, the arguments have the names and types
    of its parameters, and no required parameter is missing but those of the query
    string. *)
Lemma native_target_correct `{TextLaws} :
  parses native_target native_routes ∧
  ∀ out path name ps, native_target out path = Some (Error.success, message name ps) →
    conforms native_interface native_query_arguments name ps.
Proof.
  split; [apply run_target_parses, native_body_ok|]. intros out path name ps.
  intros (segs & n & o & _ & Hf & [= -> ->])%(run_target_parses _ _ native_body_ok).
  by eapply find_route_conforms, Hf.
Qed.

Lemma native_target_correct_witness :
  native_target request_default "/v3/block/height/840000/tx/7?format=json" =
    Some (Error.success, message "block_tx"
      [("version", uint8_t 3); ("height", uint32_t 840000); ("position", uint32_t 7)]) ∧
  conforms native_interface native_query_arguments "tx_details"
    [("version", uint8_t 3); ("hash", hash_t (replicate 32 171))].
Proof.
  split.
  - apply native_target_correct.
    exists ["v3"; "block"; "height"; "840000"; "tx"; "7"], "block_tx".
    eexists. split; [reflexivity|]. split; [reflexivity|]. reflexivity.
  - apply (proj2 native_target_correct request_default
      "/v3/tx/abababababababababababababababababababababababababababababababab/details").
    vm_compute. reflexivity.
Defined.
