(* ===== verification/AdminTarget.v ===== *)
(** The admin path parser (src/parsers/admin_target.cpp) and the admin interface
    that it targets (include/bitcoin/server/interfaces/admin.hpp). *)
From S2P Require Import Prelude Rpc Errors System Numbers Target Interface.

Section Admin.
Context `{Text}.
Import Error.

(** ** The parser *)

Definition admin_body : parse unit :=
  let* token := peek in
  if negb (starts_with "v" token) then return_code missing_version
  else
    let* token := next in
    match to_number 8 (substr1 token) with
    | None => return_code invalid_number
    | Some version =>
        set_param "version" (uint8_t version) ;;
        let* stop := at_end in
        if stop then return_code missing_target
        else
          let* target := next in
          (if target == "log" then
             let* stop := at_end in
             if stop then return_code invalid_subcomponent
             else
               let* subcomponent := next in
               if subcomponent == "subscribe" then set_method "log_subscribe"
               else return_code invalid_subcomponent
           else if target == "event" then
             let* stop := at_end in
             if stop then return_code invalid_subcomponent
             else
               let* subcomponent := next in
               if subcomponent == "subscribe" then set_method "event_subscribe"
               else return_code invalid_subcomponent
           else return_code invalid_target) ;;
          conclude
    end.

Definition admin_target (out : request_t) (path : string) :
    option (error_t * request_t) := run_target admin_body out path.

(** ** The routes *)

Definition admin_routes : list route :=
  under (Version "version")
    [Route [Literal "log"; Literal "subscribe"] "log_subscribe" [];
     Route [Literal "event"; Literal "subscribe"] "event_subscribe" []].

Lemma admin_body_ok segs :
  segs ≠ [] →
  answer (run admin_body [] segs (message "" [])) = Some (find_route admin_routes segs []).
Proof.
  intros Hsegs. destruct segs as [|s segs]; [done|].
  unfold admin_body, admin_routes. follow.
Qed.

End Admin.

Definition admin_interface : list method_t :=
  [Method "log_subscribe"
     [Param "version" type_uint8 required;
      Param "filter" type_uint64 optional];
   Method "event_subscribe"
     [Param "version" type_uint8 required;
      Param "filter" type_uint64 optional]].

(** ** Properties *)

(** The admin parser is defined on every path, accepts exactly the admin
    routes, and what it accepts conforms to the admin interface without any
    other argument. *)
Lemma admin_target_correct `{TextLaws} :
  parses admin_target admin_routes ∧
  ∀ out path name ps,
    admin_target out path = Some (Error.success, message name ps) →
    conforms admin_interface [] name ps.
Proof.
  pose proof (run_target_parses _ _ admin_body_ok) as Hp. split; [done|].
  intros out path name ps (segs & n & o & _ & Hf & [= -> ->])%Hp.
  by eapply find_route_conforms, Hf.
Qed.
