(* ===== verification/EsploraTarget.v ===== *)
(** The esplora path parser (src/parsers/esplora_target.cpp), the esplora
    interface that it targets (include/bitcoin/server/interfaces/esplora.hpp),
    and the correspondence of both with the table of esplora routes. *)
From S2P Require Import Prelude Rpc Errors System Numbers Target Interface.

Section Esplora.
Context `{Text} `{MediaValues}.
Import Error.

Definition set_media (media : Z) : parse unit := set_param "media" (uint8_t media).

(** ** The parser *)

Definition esplora_tx_component (component : string) : parse unit :=
  if component == "hex" then set_media media_text ;; set_method "tx"
  else if component == "raw" then set_media media_data ;; set_method "tx"
  else if component == "status" then set_media media_json ;; set_method "tx_status"
  else if component == "merkleblock-proof" then
    set_media media_text ;; set_method "tx_merkleblock_proof"
  else if component == "merkle-proof" then
    set_media media_json ;; set_method "tx_merkle_proof"
  else if component == "outspend" then
    let* stop := at_end in
    if stop then return_code missing_position
    else
      let* token := next in
      match to_number 32 token with
      | None => return_code invalid_number
      | Some index =>
          set_param "index" (uint32_t index) ;;
          set_media media_json ;;
          set_method "tx_outspend"
      end
  else if component == "outspends" then set_media media_json ;; set_method "tx_outspends"
  else return_code invalid_component.

Definition esplora_tx : parse unit :=
  let* stop := at_end in
  if stop then set_media media_text ;; set_method "broadcast"
  else
    let* token := next in
    match to_hash token with
    | None => return_code invalid_hash
    | Some hash =>
        set_param "hash" (hash_t hash) ;;
        let* stop := at_end in
        if stop then set_media media_json ;; set_method "tx"
        else
          let* component := next in
          esplora_tx_component component
    end.

Definition esplora_txs : parse unit :=
  let* stop := at_end in
  if stop then return_code missing_component
  else
    let* token := next in
    if token != "package" then return_code invalid_component
    else set_media media_json ;; set_method "broadcast_package".

(** What follows the address or script hash. *)
Definition esplora_address_rest : parse unit :=
  let* stop := at_end in
  if stop then set_media media_json ;; set_method "address"
  else
    let* component := next in
    if component == "txs" then
      let* stop := at_end in
      if stop then set_media media_json ;; set_method "address_txs"
      else
        let* subcomponent := next in
        if subcomponent == "chain" then
          let* stop := at_end in
          (if negb stop then
             let* token := next in
             match to_hash token with
             | None => return_code invalid_hash
             | Some last => set_param "last_seen" (hash_t last)
             end
           else pure tt) ;;
          set_media media_json ;;
          set_method "address_txs_chain"
        else if subcomponent == "mempool" then
          set_media media_json ;; set_method "address_txs_mempool"
        else return_code invalid_subcomponent
    else if component == "utxo" then set_media media_json ;; set_method "address_utxo"
    else return_code invalid_component.

Definition esplora_address (target : string) : parse unit :=
  let* stop := at_end in
  if stop then return_code missing_hash
  else
    let* key := next in
    (if target == "scripthash" then
       match decode_base16_hash key with
       | None => return_code invalid_hash
       | Some hash => set_param "hash" (hash_t hash)
       end
     else set_param "address" (string_t key)) ;;
    esplora_address_rest.

Definition esplora_block_component (component : string) : parse unit :=
  if component == "raw" then set_media media_data ;; set_method "block"
  else if component == "header" then set_media media_text ;; set_method "block_header"
  else if component == "status" then set_media media_json ;; set_method "block_status"
  else if component == "txs" then
    let* stop := at_end in
    (if negb stop then
       let* token := next in
       match to_number 32 token with
       | None => return_code invalid_number
       | Some start => set_param "start" (uint32_t start)
       end
     else pure tt) ;;
    set_media media_json ;;
    set_method "block_txs"
  else if component == "txids" then set_media media_json ;; set_method "block_txids"
  else if component == "txid" then
    let* stop := at_end in
    if stop then return_code missing_position
    else
      let* token := next in
      match to_number 32 token with
      | None => return_code invalid_number
      | Some index =>
          set_param "index" (uint32_t index) ;;
          set_media media_text ;;
          set_method "block_txid"
      end
  else return_code invalid_component.

Definition esplora_block : parse unit :=
  let* stop := at_end in
  if stop then return_code missing_hash
  else
    let* token := next in
    match to_hash token with
    | None => return_code invalid_hash
    | Some hash =>
        set_param "hash" (hash_t hash) ;;
        let* stop := at_end in
        if stop then set_media media_json ;; set_method "block"
        else
          let* component := next in
          esplora_block_component component
    end.

Definition esplora_block_height : parse unit :=
  let* stop := at_end in
  if stop then return_code missing_height
  else
    let* token := next in
    match to_number 32 token with
    | None => return_code invalid_number
    | Some height =>
        set_param "height" (uint32_t height) ;;
        set_media media_text ;;
        set_method "block_height"
    end.

Definition esplora_blocks : parse unit :=
  let* stop := at_end in
  if stop then set_media media_json ;; set_method "blocks"
  else
    let* token := peek in
    if token == "tip" then
      advance ;;
      let* stop := at_end in
      if stop then return_code missing_component
      else
        let* subcomponent := next in
        if subcomponent == "height" then set_media media_text ;; set_method "tip_height"
        else if subcomponent == "hash" then set_media media_text ;; set_method "tip_hash"
        else return_code invalid_subcomponent
    else
      let* token := next in
      match to_number 32 token with
      | None => return_code invalid_number
      | Some height =>
          set_param "height" (uint32_t height) ;;
          set_media media_json ;;
          set_method "blocks"
      end.

Definition esplora_mempool : parse unit :=
  let* stop := at_end in
  if stop then set_media media_json ;; set_method "mempool"
  else
    let* component := next in
    if component == "txids" then set_media media_json ;; set_method "mempool_txids"
    else if component == "recent" then set_media media_json ;; set_method "mempool_recent"
    else return_code invalid_component.

Definition esplora_body : parse unit :=
  let* target := next in
  if is_empty target then return_code missing_target
  else
    (if target == "tx" then esplora_tx
     else if target == "txs" then esplora_txs
     else if (target == "address") || (target == "scripthash") then esplora_address target
     else if target == "block" then esplora_block
     else if target == "block-height" then esplora_block_height
     else if target == "blocks" then esplora_blocks
     else if target == "mempool" then esplora_mempool
     else if target == "fee-estimates" then
       set_media media_json ;; set_method "fee_estimates"
     else return_code invalid_target) ;;
    conclude.

Definition esplora_target (out : request_t) (path : string) :
    option (error_t * request_t) := run_target esplora_body out path.

(** ** The routes *)

Definition with_media (media : Z) : object := [("media", uint8_t media)].

Definition esplora_tx_routes : list route :=
  [Route [] "broadcast" (with_media media_text);
   Route [Hash "hash"] "tx" (with_media media_json);
   Route [Hash "hash"; Literal "hex"] "tx" (with_media media_text);
   Route [Hash "hash"; Literal "raw"] "tx" (with_media media_data);
   Route [Hash "hash"; Literal "status"] "tx_status" (with_media media_json);
   Route [Hash "hash"; Literal "merkleblock-proof"] "tx_merkleblock_proof"
     (with_media media_text);
   Route [Hash "hash"; Literal "merkle-proof"] "tx_merkle_proof" (with_media media_json);
   Route [Hash "hash"; Literal "outspend"; Number 32 "index"] "tx_outspend"
     (with_media media_json);
   Route [Hash "hash"; Literal "outspends"] "tx_outspends" (with_media media_json)].

Definition esplora_address_routes : list route :=
  [Route [] "address" (with_media media_json);
   Route [Literal "txs"] "address_txs" (with_media media_json);
   Route [Literal "txs"; Literal "chain"] "address_txs_chain" (with_media media_json);
   Route [Literal "txs"; Literal "chain"; Hash "last_seen"] "address_txs_chain"
     (with_media media_json);
   Route [Literal "txs"; Literal "mempool"] "address_txs_mempool" (with_media media_json);
   Route [Literal "utxo"] "address_utxo" (with_media media_json)].

Definition esplora_block_routes : list route :=
  [Route [Hash "hash"] "block" (with_media media_json);
   Route [Hash "hash"; Literal "raw"] "block" (with_media media_data);
   Route [Hash "hash"; Literal "header"] "block_header" (with_media media_text);
   Route [Hash "hash"; Literal "status"] "block_status" (with_media media_json);
   Route [Hash "hash"; Literal "txs"] "block_txs" (with_media media_json);
   Route [Hash "hash"; Literal "txs"; Number 32 "start"] "block_txs" (with_media media_json);
   Route [Hash "hash"; Literal "txids"] "block_txids" (with_media media_json);
   Route [Hash "hash"; Literal "txid"; Number 32 "index"] "block_txid"
     (with_media media_text)].

Definition esplora_blocks_routes : list route :=
  [Route [] "blocks" (with_media media_json);
   Route [Literal "tip"; Literal "height"] "tip_height" (with_media media_text);
   Route [Literal "tip"; Literal "hash"] "tip_hash" (with_media media_text);
   Route [Number 32 "height"] "blocks" (with_media media_json)].

Definition esplora_mempool_routes : list route :=
  [Route [] "mempool" (with_media media_json);
   Route [Literal "txids"] "mempool_txids" (with_media media_json);
   Route [Literal "recent"] "mempool_recent" (with_media media_json)].

Definition esplora_routes : list route :=
  under (Literal "tx") esplora_tx_routes ++
  under (Literal "txs") [Route [Literal "package"] "broadcast_package" (with_media media_json)] ++
  under (Literal "address") (under (Word "address") esplora_address_routes) ++
  under (Literal "scripthash") (under (ScriptHash "hash") esplora_address_routes) ++
  under (Literal "block") esplora_block_routes ++
  under (Literal "block-height")
    [Route [Number 32 "height"] "block_height" (with_media media_text)] ++
  under (Literal "blocks") esplora_blocks_routes ++
  under (Literal "mempool") esplora_mempool_routes ++
  [Route [Literal "fee-estimates"] "fee_estimates" (with_media media_json)].

(** ** The parser accepts exactly the routes *)

Lemma esplora_tx_ok seen rest o :
  answer (run (esplora_tx ;; conclude) seen rest (message "" o)) =
    Some (find_route esplora_tx_routes rest o).
Proof.
  unfold esplora_tx, esplora_tx_component, esplora_tx_routes, set_media, with_media. follow.
Qed.

Lemma esplora_address_rest_ok seen rest o :
  answer (run (esplora_address_rest ;; conclude) seen rest (message "" o)) =
    Some (find_route esplora_address_routes rest o).
Proof.
  unfold esplora_address_rest, esplora_address_routes, set_media, with_media. follow.
Qed.

Lemma esplora_block_ok seen rest o :
  answer (run (esplora_block ;; conclude) seen rest (message "" o)) =
    Some (find_route esplora_block_routes rest o).
Proof.
  unfold esplora_block, esplora_block_component, esplora_block_routes, set_media,
    with_media. follow.
Qed.

Context `{!TextLaws}.

Lemma esplora_blocks_ok seen rest o :
  answer (run (esplora_blocks ;; conclude) seen rest (message "" o)) =
    Some (find_route esplora_blocks_routes rest o).
Proof.
  unfold esplora_blocks, esplora_blocks_routes, set_media, with_media.
  assert (to_number 32 "tip" = None) as Htip by by rewrite to_number_spec.
  follow.
Qed.

Lemma esplora_mempool_ok seen rest o :
  answer (run (esplora_mempool ;; conclude) seen rest (message "" o)) =
    Some (find_route esplora_mempool_routes rest o).
Proof. unfold esplora_mempool, esplora_mempool_routes, set_media, with_media. follow. Qed.

Lemma esplora_body_ok segs :
  segs ≠ [] →
  answer (run esplora_body [] segs (message "" [])) = Some (find_route esplora_routes segs []).
Proof.
  intros Hsegs. destruct segs as [|s segs]; [done|].
  unfold esplora_body, esplora_routes, esplora_txs, esplora_address,
    esplora_block_height, set_media, with_media.
  follow_using ltac:(rewrite ?esplora_tx_ok, ?esplora_address_rest_ok, ?esplora_block_ok,
    ?esplora_blocks_ok, ?esplora_mempool_ok).
Qed.

End Esplora.

Definition esplora_interface : list method_t :=
  [Method "tx"
     [Param "media" type_uint8 required;
      Param "hash" type_hash required];
   Method "tx_status"
     [Param "media" type_uint8 required;
      Param "hash" type_hash required];
   Method "tx_merkleblock_proof"
     [Param "media" type_uint8 required;
      Param "hash" type_hash required];
   Method "tx_merkle_proof"
     [Param "media" type_uint8 required;
      Param "hash" type_hash required];
   Method "tx_outspend"
     [Param "media" type_uint8 required;
      Param "hash" type_hash required;
      Param "index" type_uint32 required];
   Method "tx_outspends"
     [Param "media" type_uint8 required;
      Param "hash" type_hash required];
   Method "broadcast"
     [Param "media" type_uint8 required;
      Param "transaction" type_string required];
   Method "broadcast_package"
     [Param "media" type_uint8 required;
      Param "transactions" type_array required];
   Method "address"
     [Param "media" type_uint8 required;
      Param "hash" type_hash nullable;
      Param "address" type_string nullable];
   Method "address_txs"
     [Param "media" type_uint8 required;
      Param "hash" type_hash nullable;
      Param "address" type_string nullable];
   Method "address_txs_chain"
     [Param "media" type_uint8 required;
      Param "hash" type_hash nullable;
      Param "address" type_string nullable;
      Param "last_seen" type_hash nullable];
   Method "address_txs_mempool"
     [Param "media" type_uint8 required;
      Param "hash" type_hash nullable;
      Param "address" type_string nullable];
   Method "address_utxo"
     [Param "media" type_uint8 required;
      Param "hash" type_hash nullable;
      Param "address" type_string nullable];
   Method "block"
     [Param "media" type_uint8 required;
      Param "hash" type_hash required];
   Method "block_header"
     [Param "media" type_uint8 required;
      Param "hash" type_hash required];
   Method "block_status"
     [Param "media" type_uint8 required;
      Param "hash" type_hash required];
   Method "block_txs"
     [Param "media" type_uint8 required;
      Param "hash" type_hash required;
      Param "start" type_uint32 optional];
   Method "block_txids"
     [Param "media" type_uint8 required;
      Param "hash" type_hash required];
   Method "block_txid"
     [Param "media" type_uint8 required;
      Param "hash" type_hash required;
      Param "index" type_uint32 required];
   Method "block_height"
     [Param "media" type_uint8 required;
      Param "height" type_uint32 required];
   Method "blocks"
     [Param "media" type_uint8 required;
      Param "height" type_uint32 nullable];
   Method "tip_height"
     [Param "media" type_uint8 required];
   Method "tip_hash"
     [Param "media" type_uint8 required];
   Method "mempool"
     [Param "media" type_uint8 required];
   Method "mempool_txids"
     [Param "media" type_uint8 required];
   Method "mempool_recent"
     [Param "media" type_uint8 required];
   Method "fee_estimates"
     [Param "media" type_uint8 required]].

(** The arguments that the request body supplies. *)
Definition esplora_body_arguments : list string := ["transaction"; "transactions"].

(** ** Properties *)

Lemma esplora_routes_conform `{MediaValues} :
  forallb (route_conforms esplora_interface esplora_body_arguments) esplora_routes = true.
Proof. vm_compute. reflexivity. Qed.

(** The esplora parser is defined on every path, accepts exactly the esplora
    routes with their media, and what it accepts conforms to the esplora
    interface (the transactions of a broadcast come with the request body). *)
Lemma esplora_target_correct `{TextLaws} `{MediaValues} :
  parses esplora_target esplora_routes ∧
  ∀ out path name ps,
    esplora_target out path = Some (Error.success, message name ps) →
    conforms esplora_interface esplora_body_arguments name ps.
Proof.
  pose proof (run_target_parses _ _ esplora_body_ok) as Hp. split; [done|].
  intros out path name ps (segs & n & o & _ & Hf & [= -> ->])%Hp.
  eapply find_route_conforms, Hf. apply esplora_routes_conform.
Qed.
