(* ===== verification/BitcoindTarget.v ===== *)
(** The bitcoind REST path parser (src/parsers/bitcoind_target.cpp) and the REST
    interface that it targets (include/bitcoin/server/interfaces/bitcoind_rest.hpp).

    Unlike the other path parsers this one does not look for segments past those
    that it needs, and takes a file extension for the media type. *)
From S2P Require Import Prelude Rpc Errors System Numbers Target Interface.

Section Bitcoind.
Context `{Text} `{MediaValues}.
Import Error.

(** ** Helpers *)

(** A REST file extension as a media value. *)
Definition to_media (extension : string) : option Z :=
  if extension == "bin" then Some media_data
  else if extension == "hex" then Some media_text
  else if extension == "json" then Some media_json
  else None.

(** A "<name>.<extension>" leaf as its name and media value. *)
Definition split_leaf (leaf : string) : option (string * Z) :=
  match split leaf "." false true with
  | [name; extension] =>
      match to_media extension with
      | Some media => Some (name, media)
      | None => None
      end
  | _ => None
  end.

(** [segment < segments.size()] and [segment == sub1(segments.size())]. *)
Definition more : parse bool := λ c,
  Continue (segment c <? length (segments c))%nat c.
Definition at_last : parse bool := λ c,
  Continue (segment c =? length (segments c) - 1)%nat c.

(** [segments.size() - segment > one]. *)
Definition more_than_one : parse bool := λ c,
  Continue (1 <? length (segments c) - segment c)%nat c.

(** ** The parser *)

(** A leaf that names a hash; [then_] is what follows in the source. *)
Definition hash_leaf (then_ : Z → hash_digest → parse unit) : parse unit :=
  let* leaf := next in
  match split_leaf leaf with
  | None => return_code invalid_target
  | Some (name, media) =>
      match to_hash name with
      | None => return_code invalid_hash
      | Some hash => then_ media hash
      end
  end.

Definition rest_block : parse unit :=
  let* stop := at_end in
  if stop then return_code missing_hash
  else
    let* token := peek in
    let rest_method := if token == "notxdetails" then "block_txs" else "block" in
    (if rest_method != "block" then
       advance ;;
       let* stop := at_end in
       if stop then return_code missing_hash else pure tt
     else pure tt) ;;
    hash_leaf (λ media hash,
      set_method rest_method ;;
      set_param "media" (uint8_t media) ;;
      set_param "hash" (hash_t hash) ;;
      return_code success).

Definition rest_deployment_info (target : string) : parse unit :=
  set_method "deployment_info" ;;
  let* stop := at_end in
  if (target == "deploymentinfo") && negb stop then
    let* leaf := next in
    match split_leaf leaf with
    | None => return_code invalid_target
    | Some (name, media) =>
        if negb (media =? media_json) then return_code invalid_target
        else
          match to_hash name with
          | None => return_code invalid_hash
          | Some hash => set_param "hash" (hash_t hash) ;; return_code success
          end
    end
  else return_code success.

Definition rest_tx : parse unit :=
  let* stop := at_end in
  if stop then return_code missing_hash
  else
    hash_leaf (λ media hash,
      set_method "tx" ;;
      set_param "media" (uint8_t media) ;;
      set_param "hash" (hash_t hash) ;;
      return_code success).

Definition rest_block_hash : parse unit :=
  let* stop := at_end in
  if stop then return_code missing_target
  else
    let* leaf := next in
    match split_leaf leaf with
    | None => return_code invalid_target
    | Some (name, media) =>
        match from_chars_number 32 name with
        | None => return_code invalid_number
        | Some height =>
            set_method "block_hash" ;;
            set_param "media" (uint8_t media) ;;
            set_param "height" (uint32_t height) ;;
            return_code success
        end
    end.

(** The optional count of the legacy forms, which defaults to five. *)
Definition rest_count : parse Z :=
  let* legacy := more_than_one in
  if legacy then
    let* token := next in
    match from_chars_number 32 token with
    | None => return_code invalid_number
    | Some count => pure count
    end
  else pure 5.

Definition rest_headers : parse unit :=
  let* stop := at_end in
  if stop then return_code missing_target
  else
    let* count := rest_count in
    hash_leaf (λ media hash,
      set_method "block_headers" ;;
      set_param "media" (uint8_t media) ;;
      set_param "hash" (hash_t hash) ;;
      set_param "count" (uint32_t count) ;;
      return_code success).

Definition rest_block_filter : parse unit :=
  let* stop := at_end in
  if stop then return_code missing_target
  else
    let* type := next in
    if type != "basic" then return_code invalid_target
    else
      let* stop := at_end in
      if stop then return_code missing_hash
      else
        hash_leaf (λ media hash,
          set_method "block_filter" ;;
          set_param "media" (uint8_t media) ;;
          set_param "hash" (hash_t hash) ;;
          set_param "type" (uint8_t 0) ;;
          return_code success).

Definition rest_block_filter_headers : parse unit :=
  let* stop := at_end in
  if stop then return_code missing_target
  else
    let* type := next in
    if type != "basic" then return_code invalid_target
    else
      let* stop := at_end in
      if stop then return_code missing_hash
      else
        let* count := rest_count in
        hash_leaf (λ media hash,
          set_method "block_filter_headers" ;;
          set_param "media" (uint8_t media) ;;
          set_param "hash" (hash_t hash) ;;
          set_param "type" (uint8_t 0) ;;
          set_param "count" (uint32_t count) ;;
          return_code success).

(** One "<txid>-<n>" outpoint. *)
Definition rest_outpoint (token : string) : error_t + value_t :=
  match split token "-" false false with
  | [txid; n] =>
      match to_hash txid with
      | None => inl invalid_hash
      | Some hash =>
          match from_chars_number 32 n with
          | None => inl invalid_number
          | Some index =>
              inr (object_t (set_field "index" (uint32_t index)
                (set_field "hash" (hash_t hash) [])))
          end
      end
  | _ => inl invalid_hash
  end.

(** The loop over the outpoint segments, the last of which has the extension.
    The fuel is the number of segments that are left. *)
Fixpoint rest_outpoints (fuel : nat) (media : Z) (outpoints : array) :
    parse (Z * array) :=
  let* continue := more in
  if negb continue then pure (media, outpoints)
  else
    match fuel with
    | O => λ _, Undefined
    | S fuel =>
        let* leaf := peek in
        let* last := at_last in
        let* (token, media) :=
          (if last then
             match split_leaf leaf with
             | None => return_code invalid_target
             | Some (name, media) => pure (name, media)
             end
           else pure (leaf, media)) in
        match rest_outpoint token with
        | inl ec => return_code ec
        | inr outpoint =>
            advance ;; rest_outpoints fuel media (outpoints ++ [outpoint])%list
        end
    end.

Definition remaining : parse nat := λ c,
  Continue (length (segments c) - segment c)%nat c.

Definition rest_get_utxos : parse unit :=
  let* stop := at_end in
  if stop then return_code missing_target
  else
    let* token := peek in
    (if token == "checkmempool" then set_param "mempool" (boolean_t true) ;; advance
     else pure tt) ;;
    let* stop := at_end in
    if stop then return_code missing_target
    else
      let* fuel := remaining in
      let* (media, outpoints) := rest_outpoints fuel 0 [] in
      set_method "get_utxos" ;;
      set_param "media" (uint8_t media) ;;
      set_param "outpoints" (array_t outpoints) ;;
      return_code success.

Definition rest_mempool : parse unit :=
  let* stop := at_end in
  if stop then return_code missing_target
  else
    let* leaf := next in
    match split_leaf leaf with
    | None => return_code invalid_target
    | Some (name, media) =>
        if negb (media =? media_json) then return_code invalid_target
        else if name == "info" then
          set_method "mempool_information" ;; return_code success
        else if name != "contents" then return_code invalid_target
        else set_method "mempool" ;; return_code success
    end.

Definition rest_spent_outputs : parse unit :=
  let* stop := at_end in
  if stop then return_code missing_hash
  else
    hash_leaf (λ media hash,
      set_method "block_spent_tx_outputs" ;;
      set_param "media" (uint8_t media) ;;
      set_param "hash" (hash_t hash) ;;
      return_code success).

Definition rest_block_part : parse unit :=
  let* stop := at_end in
  if stop then return_code missing_hash
  else
    hash_leaf (λ media hash,
      set_method "block_part" ;;
      set_param "media" (uint8_t media) ;;
      set_param "hash" (hash_t hash) ;;
      return_code success).

Definition bitcoind_endpoint (target : string) : parse unit :=
  if (target == "chaininfo") || (target == "chaininfo.json") then
    set_method "chain_information" ;; return_code success
  else if target == "block" then rest_block
  else if (target == "deploymentinfo") || (target == "deploymentinfo.json") then
    rest_deployment_info target
  else if target == "tx" then rest_tx
  else if target == "blockhashbyheight" then rest_block_hash
  else if target == "headers" then rest_headers
  else if target == "blockfilter" then rest_block_filter
  else if target == "blockfilterheaders" then rest_block_filter_headers
  else if target == "getutxos" then rest_get_utxos
  else if target == "mempool" then rest_mempool
  else if target == "spenttxouts" then rest_spent_outputs
  else if target == "blockpart" then rest_block_part
  else return_code invalid_target.

Definition bitcoind_body : parse unit :=
  let* token := peek in
  (if token == "rest" then advance else pure tt) ;;
  let* stop := at_end in
  if stop then return_code invalid_target
  else
    let* target := next in
    bitcoind_endpoint target.

Definition bitcoind_target (out : request_t) (path : string) :
    option (error_t * request_t) := run_target bitcoind_body out path.

(** ** Following the parser *)

Section Rules.
Context {A : Type} (seen rest : list string) (r : request_t).

Lemma run_more (f : bool → parse A) :
  run (bind more f) seen rest r =
    run (f (match rest with [] => false | _ => true end)) seen rest r.
Proof.
  unfold run, bind, more. simpl. rewrite length_app. do 2 f_equal.
  destruct rest; simpl; [apply Nat.ltb_ge|apply Nat.ltb_lt]; lia.
Qed.

Lemma run_at_last s (f : bool → parse A) :
  run (bind at_last f) seen (s :: rest) r =
    run (f (match rest with [] => true | _ => false end)) seen (s :: rest) r.
Proof.
  unfold run, bind, at_last. simpl. rewrite length_app. do 2 f_equal.
  destruct rest; simpl; [apply Nat.eqb_eq|apply Nat.eqb_neq]; lia.
Qed.

Lemma run_more_than_one (f : bool → parse A) :
  run (bind more_than_one f) seen rest r =
    run (f (match rest with _ :: _ :: _ => true | _ => false end)) seen rest r.
Proof.
  unfold run, bind, more_than_one. simpl. rewrite length_app. do 2 f_equal.
  destruct rest as [|? [|]]; simpl; [apply Nat.ltb_ge|apply Nat.ltb_ge|apply Nat.ltb_lt]; lia.
Qed.

Lemma run_remaining (f : nat → parse A) :
  run (bind remaining f) seen rest r = run (f (length rest)) seen rest r.
Proof.
  unfold run, bind, remaining. simpl. rewrite length_app. do 2 f_equal. lia.
Qed.
End Rules.

#[local] Hint Rewrite @run_more @run_at_last @run_more_than_one @run_remaining : server.

Lemma run_bind {A B} (m : parse A) (f : A → parse B) seen rest r :
  run (bind m f) seen rest r =
    match run m seen rest r with
    | Continue a c => f a c
    | Return ec o => Return ec o
    | Undefined => Undefined
    end.
Proof. done. Qed.

(** The outpoints that a sequence of segments spells, the last with the file
    extension. *)
Inductive spells : list string → Z → array → Prop :=
  | spells_last leaf name media outpoint :
      split_leaf leaf = Some (name, media) → rest_outpoint name = inr outpoint →
      spells [leaf] media [outpoint]
  | spells_more token rest media outpoint outpoints :
      rest_outpoint token = inr outpoint → spells rest media outpoints →
      spells (token :: rest) media (outpoint :: outpoints).

Lemma rest_outpoint_failure token ec : rest_outpoint token = inl ec → ec ≠ success.
Proof.
  unfold rest_outpoint. repeat case_match; intros; simplify_eq; done.
Qed.

Lemma rest_outpoints_run rest seen media acc r :
  rest ≠ [] →
  (∃ ec, ec ≠ success ∧
    run (rest_outpoints (length rest) media acc) seen rest r = Return ec r) ∨
  (∃ media' outpoints, spells rest media' outpoints ∧
    run (rest_outpoints (length rest) media acc) seen rest r =
      Continue (media', (acc ++ outpoints)%list) (Cursor (seen ++ rest) (length (seen ++ rest)) r)).
Proof.
  revert seen media acc.
  induction rest as [|s rest IH]; intros seen media acc Hne; [done|].
  cbn [length rest_outpoints]. autorewrite with server. cbn [negb]. autorewrite with server.
  destruct rest as [|s' rest].
  - destruct (split_leaf s) as [[name media']|] eqn:Hs; autorewrite with server;
      [|by left; exists invalid_target].
    destruct (rest_outpoint name) as [ec|o] eqn:Ho; autorewrite with server.
    + left. exists ec. split; [by eapply rest_outpoint_failure|done].
    + right. exists media', [o]. split; [by econstructor|].
      cbn [length rest_outpoints]. autorewrite with server. cbn [negb].
      unfold run, pure. by rewrite app_nil_r.
  - autorewrite with server.
    destruct (rest_outpoint s) as [ec|o] eqn:Ho; autorewrite with server.
    + left. exists ec. split; [by eapply rest_outpoint_failure|done].
    + destruct (IH (seen ++ [s])%list media (acc ++ [o])%list) as [(ec & Hec & Hr)|(m' & os & Hsp & Hr)];
        [done| |].
      * left. by exists ec.
      * right. exists m', (o :: os). split; [by constructor|].
        rewrite Hr. by rewrite <-!(assoc_L (++)).
Qed.

(** What may come of a body: an error, or a request that conforms. *)
Definition settles (interface : list method_t) (later : list string) (o : outcome unit) : Prop :=
  match o with
  | Return success r =>
      ∃ name ps, r = message name ps ∧ conformsb interface later name ps = true
  | Return _ _ => True
  | Continue _ _ | Undefined => False
  end.

End Bitcoind.

#[export] Hint Rewrite @run_more @run_at_last @run_more_than_one @run_remaining : server.

Definition bitcoind_rest_interface : list method_t :=
  [Method "block"
     [Param "media" type_uint8 required;
      Param "hash" type_hash required];
   Method "block_hash"
     [Param "media" type_uint8 required;
      Param "height" type_uint32 required];
   Method "block_txs"
     [Param "media" type_uint8 required;
      Param "hash" type_hash required];
   Method "block_headers"
     [Param "media" type_uint8 required;
      Param "hash" type_hash required;
      Param "count" type_uint32 required];
   Method "block_part"
     [Param "media" type_uint8 required;
      Param "hash" type_hash required;
      Param "offset" type_uint32 required;
      Param "size" type_uint32 required];
   Method "block_spent_tx_outputs"
     [Param "media" type_uint8 required;
      Param "hash" type_hash required];
   Method "block_filter"
     [Param "media" type_uint8 required;
      Param "hash" type_hash required;
      Param "type" type_uint8 required];
   Method "block_filter_headers"
     [Param "media" type_uint8 required;
      Param "hash" type_hash required;
      Param "type" type_uint8 required;
      Param "count" type_uint32 required];
   Method "get_utxos"
     [Param "media" type_uint8 required;
      Param "outpoints" type_array required;
      Param "mempool" type_boolean optional];
   Method "mempool"
     [Param "verbose" type_boolean optional;
      Param "mempool_sequence" type_boolean optional];
   Method "chain_information"
     [];
   Method "mempool_information"
     [];
   Method "fork_information"
     [Param "hash" type_hash nullable];
   Method "tx"
     [Param "media" type_uint8 required;
      Param "hash" type_hash required];
   Method "deployment_info"
     [Param "hash" type_hash nullable]].

(** The arguments that [bitcoind_query] supplies. *)
Definition bitcoind_query_arguments : list string :=
  ["count"; "offset"; "size"; "verbose"; "mempool_sequence"].

(** ** Properties *)

(** Execute by the rules, check a returned request, or split the next decision. *)
Ltac settle_step :=
  autorewrite with server; use_decisions; cbn [negb andb orb]; eval_literals.

Ltac settle_with settle_done :=
  repeat (progress settle_step); try settle_done;
  repeat (follow_split; repeat (progress settle_step); try settle_done).

Section Settling.
Context `{Text} `{MediaValues}.

Abbreviation settled := (settles bitcoind_rest_interface bitcoind_query_arguments).

Ltac settle_done :=
  first [exact I | do 2 eexists; split; [reflexivity|vm_compute; reflexivity]].

Ltac settle := settle_with settle_done.

Lemma settled_hash_leaf then_ seen s rest r :
  (∀ media hash seen' rest', settled (run (then_ media hash) seen' rest' r)) →
  settled (run (hash_leaf then_) seen (s :: rest) r).
Proof.
  intros Hthen. unfold hash_leaf. autorewrite with server.
  destruct (split_leaf s) as [[name media]|]; [|done].
  destruct (to_hash name) as [hash|]; [|done]. apply Hthen.
Qed.

(** The endpoints, each from any position of any path. *)
Ltac settle_leaf :=
  settle; apply settled_hash_leaf; intros; settle.

Lemma rest_block_settles seen rest : settled (run rest_block seen rest (message "" [])).
Proof. unfold rest_block. destruct rest as [|s [|s' rest]]; settle_leaf. Qed.

Lemma rest_deployment_info_settles target seen rest :
  settled (run (rest_deployment_info target) seen rest (message "" [])).
Proof. unfold rest_deployment_info. destruct (target == "deploymentinfo"); settle. Qed.

Lemma rest_tx_settles seen rest : settled (run rest_tx seen rest (message "" [])).
Proof. unfold rest_tx. destruct rest; settle_leaf. Qed.

Lemma rest_block_hash_settles seen rest :
  settled (run rest_block_hash seen rest (message "" [])).
Proof. unfold rest_block_hash. settle. Qed.

Lemma rest_headers_settles seen rest : settled (run rest_headers seen rest (message "" [])).
Proof. unfold rest_headers, rest_count. destruct rest as [|? [|]]; settle_leaf. Qed.

Lemma rest_block_filter_settles seen rest :
  settled (run rest_block_filter seen rest (message "" [])).
Proof. unfold rest_block_filter. destruct rest as [|? [|]]; settle_leaf. Qed.

Lemma rest_block_filter_headers_settles seen rest :
  settled (run rest_block_filter_headers seen rest (message "" [])).
Proof.
  unfold rest_block_filter_headers, rest_count.
  destruct rest as [|? [|? [|]]]; settle_leaf.
Qed.

Lemma rest_mempool_settles seen rest : settled (run rest_mempool seen rest (message "" [])).
Proof. unfold rest_mempool. settle. Qed.

Lemma rest_spent_outputs_settles seen rest :
  settled (run rest_spent_outputs seen rest (message "" [])).
Proof. unfold rest_spent_outputs. destruct rest; settle_leaf. Qed.

Lemma rest_block_part_settles seen rest :
  settled (run rest_block_part seen rest (message "" [])).
Proof. unfold rest_block_part. destruct rest; settle_leaf. Qed.

(** The loop over outpoints, whatever the method and arguments so far. *)
Lemma rest_get_utxos_loop seen rest o :
  rest ≠ [] → o = [] ∨ o = [("mempool", boolean_t true)] →
  settled (run
    (let* (media, outpoints) := rest_outpoints (length rest) 0 [] in
     set_method "get_utxos" ;;
     set_param "media" (uint8_t media) ;;
     set_param "outpoints" (array_t outpoints) ;;
     return_code Error.success) seen rest (message "" o)).
Proof.
  intros Hne Ho. rewrite run_bind.
  destruct (rest_outpoints_run rest seen 0 [] (message "" o) Hne)
    as [(ec & Hec & ->)|(media & outpoints & _ & ->)].
  - by destruct ec.
  - destruct Ho as [-> | ->]; do 2 eexists; (split; [reflexivity|vm_compute; reflexivity]).
Qed.

Lemma rest_get_utxos_settles seen rest :
  settled (run rest_get_utxos seen rest (message "" [])).
Proof.
  unfold rest_get_utxos. destruct rest as [|s [|s' rest]]; repeat (progress settle_step);
    [exact I|destruct (s == "checkmempool")..];
    repeat (progress settle_step); try exact I; apply rest_get_utxos_loop; auto.
Qed.

Lemma bitcoind_body_settles segs :
  segs ≠ [] → settled (run bitcoind_body [] segs (message "" [])).
Proof.
  intros Hsegs. destruct segs as [|s segs]; [done|].
  assert (Hend : ∀ target seen rest, settled (run (bitcoind_endpoint target) seen rest
    (message "" []))).
  { intros target seen rest. unfold bitcoind_endpoint.
    repeat (case_match; [first
      [ settle_done | apply rest_block_settles | apply rest_deployment_info_settles
      | apply rest_tx_settles | apply rest_block_hash_settles | apply rest_headers_settles
      | apply rest_block_filter_settles | apply rest_block_filter_headers_settles
      | apply rest_get_utxos_settles | apply rest_mempool_settles
      | apply rest_spent_outputs_settles | apply rest_block_part_settles ]|]).
    exact I. }
  unfold bitcoind_body. settle; apply Hend.
Qed.

End Settling.

(** The bitcoind REST parser is defined on every path, and a path that it
    accepts is a request that the REST interface publishes, complete but for
    the arguments of the query string. *)
Lemma bitcoind_target_correct `{TextLaws} `{MediaValues} out path :
  ∃ ec o, bitcoind_target out path = Some (ec, o) ∧
    (ec = Error.success → ∃ name ps, o = message name ps ∧
      conforms bitcoind_rest_interface bitcoind_query_arguments name ps).
Proof.
  unfold bitcoind_target, run_target.
  destruct (split path "?" false false) as [|clean rest] eqn:Hs.
  { by apply split_not_nil in Hs. }
  destruct (is_empty clean); [by do 2 eexists|].
  assert (split clean "/" false true ≠ []) as Hne by apply split_not_nil.
  pose proof (bitcoind_body_settles _ Hne) as Hsettle. unfold run in Hsettle. simpl in Hsettle.
  destruct (bitcoind_body _) as [|ec o|]; [done| |done].
  exists ec, o. split; [done|]. intros ->.
  destruct Hsettle as (name & ps & -> & Hc%conformsb_conforms). by exists name, ps.
Qed.

(** The outpoints of a getutxos request are those that its segments spell,
    one for each segment and in order. *)
Lemma rest_get_utxos_outpoints `{Text} `{MediaValues} seen rest o :
  rest ≠ [] →
  match run (rest_outpoints (length rest) 0 []) seen rest (message "" o) with
  | Continue (media, outpoints) _ =>
      spells rest media outpoints ∧ length outpoints = length rest
  | Return ec _ => ec ≠ Error.success
  | Undefined => False
  end.
Proof.
  intros Hne.
  destruct (rest_outpoints_run rest seen 0 [] (message "" o) Hne)
    as [(ec & Hec & ->)|(media & outpoints & Hsp & ->)]; [done|].
  split; [done|]. clear -Hsp. by induction Hsp; simpl; f_equal.
Qed.
