(* ===== verification/Queries.v ===== *)
(** The query-string parsers (src/parsers/native_query.cpp, admin_query.cpp and
    bitcoind_query.cpp): they complete the request of a path with the arguments
    of its query string and, for http clients, the media type of the response. *)
From S2P Require Import Prelude Rpc Errors System Numbers Target Interface AdminTarget.

(** [wallet::uri]: the decoded query of a target, if the target is a uri. *)
Class Uri := {
  decode_query : string → option (gmap string string);
}.

(** Distinct enumerators have distinct values. *)
Class MediaLaws `{MediaValues} := {
  media_known : media_unknown ∉ [media_json; media_html; media_text; media_data];
}.

Section Queries.
Context `{Text} `{MediaValues} `{Uri}.

(** ** Operations *)

(** [out.params], which the caller must have set to an object. *)
Definition object_params (r : request_t) : option object :=
  match params r with
  | Some (params_object o) => Some o
  | _ => None
  end.

Definition with_params (r : request_t) (o : object) : request_t :=
  Request (jsonrpc r) (id r) (method r) (Some (params_object o)).

Definition set_media (media : Z) (o : object) : object :=
  set_field "media" (uint8_t media) o.

Definition accepts_media (accepts : list Z) (media : Z) : bool :=
  bool_decide (media ∈ accepts).

Definition is_true (value : string) : bool := value == "true".
Definition is_false (value : string) : bool := value == "false".

(** A flag that is only set if it is not its default. The first component is
    false if the source returns false. *)
Definition query_flag (query : gmap string string) (name : string) (initial : bool)
    (o : object) : bool * object :=
  match query !! name with
  | None => (true, o)
  | Some value =>
      if (if initial then is_false value else is_true value)
      then (true, set_field name (boolean_t (negb initial)) o)
      else if negb (if initial then is_true value else is_false value) then (false, o)
      else (true, o)
  end.

(** [query[token]] of the copied map. *)
Definition query_text (query : gmap string string) (name : string) : string :=
  default "" (query !! name).

Definition native_format (query : gmap string string) (accepts : list Z) (o : object) :
    bool * object :=
  let format := query_text query "format" in
  if format == "json" then (true, set_media media_json o)
  else if format == "text" then (true, set_media media_text o)
  else if format == "data" then (true, set_media media_data o)
  else if format == "html" then (true, set_media media_html o)
  else if negb (is_empty format) then (false, o)
  else if accepts_media accepts media_json then (true, set_media media_json o)
  else if accepts_media accepts media_html then (true, set_media media_html o)
  else if accepts_media accepts media_text then (true, set_media media_text o)
  else if accepts_media accepts media_data then (true, set_media media_data o)
  else (true, o).

(** The returned flag, and the request as it is left, also on failure. *)
Definition native_query (out : request_t) (target : string) (accepts : list Z) :
    bool * request_t :=
  match decode_query target with
  | None => (false, out)
  | Some query =>
      match object_params out with
      | None => (false, out)
      | Some o =>
          let '(ok, o) := query_flag query "witness" true o in
          if negb ok then (false, with_params out o)
          else
            let '(ok, o) := query_flag query "turbo" true o in
            if negb ok then (false, with_params out o)
            else
              let '(ok, o) := query_flag query "stop" false o in
              if negb ok then (false, with_params out o)
              else
                let '(ok, o) := native_format query accepts o in
                (ok, with_params out o)
      end
  end.

(** The media type of a request; [None] where [std::get] throws. *)
Definition get_media (model : request_t) : option Z :=
  match params model with
  | None => Some media_unknown
  | Some (params_object o) =>
      match find_field "media" o with
      | Some (uint8_t value) =>
          if bool_decide (value ∈ [media_html; media_text; media_json; media_data])
          then Some value else Some media_unknown
      | _ => Some media_unknown
      end
  | Some _ => None
  end.

(** Masks are constrained to the exact integers of a json number. *)
Definition maximum_filter : Z := 2 ^ 53 - 1.

Definition admin_format (query : gmap string string) (accepts : list Z) (o : object) :
    bool * object :=
  let format := query_text query "format" in
  if format == "json" then (true, set_media media_json o)
  else if format == "html" then (true, set_media media_html o)
  else if negb (is_empty format) then (false, o)
  else if accepts_media accepts media_json then (true, set_media media_json o)
  else if accepts_media accepts media_html then (true, set_media media_html o)
  else (true, o).

Definition admin_query (out : request_t) (target : string) (accepts : list Z) :
    bool * request_t :=
  match decode_query target with
  | None => (false, out)
  | Some query =>
      match object_params out with
      | None => (false, out)
      | Some o =>
          let '(ok, o) :=
            match query !! "filter" with
            | None => (true, o)
            | Some filter =>
                match to_number 64 filter with
                | None => (false, o)
                | Some value =>
                    if maximum_filter <? value then (false, o)
                    else (true, set_field "filter" (uint64_t value) o)
                end
            end in
          if negb ok then (false, with_params out o)
          else
            let '(ok, o) := admin_format query accepts o in
            (ok, with_params out o)
      end
  end.

Definition strip_media (model : request_t) : option (Z * request_t) :=
  match params model with
  | None => Some (media_unknown, model)
  | Some (params_object o) =>
      match find_field "media" o with
      | Some (uint8_t value) =>
          if bool_decide (value ∈ [media_html; media_json])
          then Some (value, with_params model (erase_field "media" o))
          else Some (media_unknown, model)
      | _ => Some (media_unknown, model)
      end
  | Some _ => None
  end.

(** The two loops over names of [bitcoind_query]. *)
Fixpoint query_numbers (query : gmap string string) (names : list string) (o : object) :
    bool * object :=
  match names with
  | [] => (true, o)
  | name :: names =>
      match query !! name with
      | None => query_numbers query names o
      | Some text =>
          match from_chars_number 32 text with
          | None => (false, o)
          | Some value => query_numbers query names (set_field name (uint32_t value) o)
          end
      end
  end.

Fixpoint query_booleans (query : gmap string string) (names : list string) (o : object) :
    bool * object :=
  match names with
  | [] => (true, o)
  | name :: names =>
      match query !! name with
      | None => query_booleans query names o
      | Some text =>
          if (text != "true") && (text != "false") then (false, o)
          else query_booleans query names (set_field name (boolean_t (text == "true")) o)
      end
  end.

Definition bitcoind_query (out : request_t) (target : string) : bool * request_t :=
  match decode_query target with
  | None => (false, out)
  | Some query =>
      match object_params out with
      | None => (false, out)
      | Some o =>
          let '(ok, o) := query_numbers query ["count"; "offset"; "size"] o in
          if negb ok then (false, with_params out o)
          else
            let '(ok, o) := query_booleans query ["verbose"; "mempool_sequence"] o in
            (ok, with_params out o)
      end
  end.

(** ** Reference: the arguments that a query denotes *)

(** The text of a flag is absent, or spells a boolean. *)
Definition flag_ok (query : gmap string string) (name : string) : bool :=
  match query !! name with
  | None => true
  | Some text => (text == "true") || (text == "false")
  end.

Definition flag_is (query : gmap string string) (name text : string) : bool :=
  bool_decide (query !! name = Some text).

(** The formats that a service knows, by name, and the media types that it
    prefers, in order. *)
Record formats_t := Formats {
  named : list (string * Z);
  preferred : list Z;
}.

Definition native_formats : formats_t :=
  Formats [("json", media_json); ("text", media_text); ("data", media_data);
           ("html", media_html)]
          [media_json; media_html; media_text; media_data].

Definition admin_formats : formats_t :=
  Formats [("json", media_json); ("html", media_html)] [media_json; media_html].

Definition named_format (f : formats_t) (text : string) : option Z :=
  snd <$> List.find (λ '(name, _), text == name) (named f).

Definition format_ok (f : formats_t) (query : gmap string string) : bool :=
  is_empty (query_text query "format") ||
  bool_decide (is_Some (named_format f (query_text query "format"))).

(** The query's format has priority over the accepted types. *)
Definition chosen_media (f : formats_t) (query : gmap string string) (accepts : list Z) :
    option Z :=
  match named_format f (query_text query "format") with
  | Some media => Some media
  | None => List.find (accepts_media accepts) (preferred f)
  end.

(** The value of an argument after the native query, given that of the path. *)
Definition native_argument (query : gmap string string) (accepts : list Z)
    (key : string) (path : option value_t) : option value_t :=
  if (key == "media") && bool_decide (is_Some (chosen_media native_formats query accepts))
  then uint8_t <$> chosen_media native_formats query accepts
  else if (key == "witness") && flag_is query "witness" "false" then Some (boolean_t false)
  else if (key == "turbo") && flag_is query "turbo" "false" then Some (boolean_t false)
  else if (key == "stop") && flag_is query "stop" "true" then Some (boolean_t true)
  else path.

(** ** Lemmas *)

Lemma find_set_field key k v o :
  find_field k (set_field key v o) = if k == key then Some v else find_field k o.
Proof.
  destruct (String.eqb_spec k key) as [->|Hne]; [apply find_set_eq|].
  by apply find_set_ne.
Qed.

Lemma bool_decide_ext_if {A} (P Q : Prop) `{Decision P, Decision Q} (a b : A) :
  P ↔ Q → (if bool_decide P then a else b) = (if bool_decide Q then a else b).
Proof. intros HPQ. by rewrite (bool_decide_ext P Q HPQ). Qed.

Lemma query_flag_spec query name initial o ok o' :
  query_flag query name initial o = (ok, o') →
  ok = flag_ok query name ∧
  ∀ k, find_field k o' =
    if (k == name) && flag_is query name (if initial then "false" else "true")
    then Some (boolean_t (negb initial)) else find_field k o.
Proof.
  unfold query_flag, flag_ok, flag_is, is_true, is_false.
  destruct (query !! name) as [text|]; [|intros [= <- <-]; split; [done|]; intros k;
    by rewrite andb_false_r].
  destruct initial; (destruct (String.eqb_spec text "false") as [->|Hf];
    [|destruct (String.eqb_spec text "true") as [->|Ht]]); intros [= <- <-];
    (split; [done|]); intros k; rewrite ?find_set_field;
    first [rewrite bool_decide_eq_true_2 by done
          |rewrite bool_decide_eq_false_2 by congruence];
    rewrite ?andb_true_r, ?andb_false_r; done.
Qed.

Lemma native_format_spec query accepts o ok o' :
  native_format query accepts o = (ok, o') →
  ok = format_ok native_formats query ∧
  (ok = true → o' = match chosen_media native_formats query accepts with
                    | Some media => set_media media o
                    | None => o
                    end).
Proof.
  unfold native_format, format_ok, chosen_media, named_format. simpl.
  repeat match goal with
  | |- context [query_text query "format" == ?s] => destruct (query_text query "format" == s)
  end; simpl; try (intros [= <- <-]; split; [|done]; by destruct (is_empty _)).
  destruct (is_empty (query_text query "format")); simpl; [|by intros [= <- <-]].
  repeat case_match; by intros [= <- <-].
Qed.

Lemma admin_format_spec query accepts o ok o' :
  admin_format query accepts o = (ok, o') →
  ok = format_ok admin_formats query ∧
  (ok = true → o' = match chosen_media admin_formats query accepts with
                    | Some media => set_media media o
                    | None => o
                    end).
Proof.
  unfold admin_format, format_ok, chosen_media, named_format. simpl.
  repeat match goal with
  | |- context [query_text query "format" == ?s] => destruct (query_text query "format" == s)
  end; simpl; try (intros [= <- <-]; split; [|done]; by destruct (is_empty _)).
  destruct (is_empty (query_text query "format")); simpl; [|by intros [= <- <-]].
  repeat case_match; by intros [= <- <-].
Qed.

(** A chosen media type is one that the service names or prefers. *)
Lemma chosen_media_elem f query accepts media :
  chosen_media f query accepts = Some media →
  media ∈ (named f).*2 ∨ (media ∈ preferred f ∧ media ∈ accepts).
Proof.
  unfold chosen_media, named_format.
  destruct (List.find _ (named f)) as [[name m]|] eqn:Hf; simpl.
  - intros [= ->]. apply List.find_some in Hf as [Hin _]. left.
    apply list_elem_of_In in Hin. by apply (list_elem_of_fmap_2 snd) in Hin.
  - intros [Hin Ha]%List.find_some. right. apply list_elem_of_In in Hin.
    split; [done|]. unfold accepts_media in Ha. by apply bool_decide_eq_true in Ha.
Qed.

Lemma conforms_fresh interface later name o key m :
  find_method interface name = Some m → find_parameter m key = None →
  conforms interface later name o → key ∉ field_names o.
Proof.
  intros Hm Hk (m' & Hm' & Hargs & _) Hin. simplify_eq.
  apply list_elem_of_fmap in Hin as ([k v] & -> & Hin).
  destruct (Hargs k v Hin) as (p & Hp & _). simpl in Hk. congruence.
Qed.

Lemma query_numbers_spec query names o ok o' :
  NoDup names → query_numbers query names o = (ok, o') →
  ok = forallb (λ name, match query !! name with
                        | Some text => bool_decide (is_Some (from_chars_number 32 text))
                        | None => true
                        end) names ∧
  (ok = true → ∀ k, find_field k o' =
    if bool_decide (k ∈ names ∧ is_Some (query !! k))
    then uint32_t <$> (query !! k ≫= from_chars_number 32) else find_field k o).
Proof.
  revert o. induction names as [|name names IH]; intros o Hnd;
    cbn [query_numbers forallb].
  - intros [= <- <-]. split; [done|]. intros _ k.
    rewrite bool_decide_eq_false_2; [done|]. by intros [?%not_elem_of_nil _].
  - apply NoDup_cons in Hnd as [Hfresh Hnd]. destruct (query !! name) as [text|] eqn:Hq.
    + destruct (from_chars_number 32 text) as [n|] eqn:Hn; [|by intros [= <- <-]].
      intros [-> Hk]%IH; [|done]. split; [done|]. intros Hok k. rewrite (Hk Hok k).
      rewrite find_set_field. destruct (String.eqb_spec k name) as [->|Hne].
      * rewrite bool_decide_eq_false_2 by naive_solver.
        rewrite bool_decide_eq_true_2; [by rewrite Hq; simpl; rewrite Hn|].
        rewrite Hq. split; [apply list_elem_of_here|by eexists].
      * apply bool_decide_ext_if. set_solver.
    + intros [-> Hk]%IH; [|done]. split; [done|]. intros Hok k. rewrite (Hk Hok k).
      apply bool_decide_ext_if. rewrite elem_of_cons.
      destruct (decide (k = name)) as [->|]; [|naive_solver].
      rewrite Hq. naive_solver.
Qed.

Lemma query_booleans_spec query names o ok o' :
  NoDup names → query_booleans query names o = (ok, o') →
  ok = forallb (flag_ok query) names ∧
  (ok = true → ∀ k, find_field k o' =
    if bool_decide (k ∈ names ∧ is_Some (query !! k))
    then (λ text, boolean_t (text == "true")) <$> query !! k else find_field k o).
Proof.
  revert o. induction names as [|name names IH]; intros o Hnd;
    cbn [query_booleans forallb].
  - intros [= <- <-]. split; [done|]. intros _ k.
    rewrite bool_decide_eq_false_2; [done|]. by intros [?%not_elem_of_nil _].
  - apply NoDup_cons in Hnd as [Hfresh Hnd]. unfold flag_ok at 1.
    destruct (query !! name) as [text|] eqn:Hq.
    + rewrite <-negb_orb. destruct ((text == "true") || (text == "false"));
        [|by intros [= <- <-]]. cbn [negb andb].
      intros [-> Hk]%IH; [|done]. split; [done|]. intros Hok k. rewrite (Hk Hok k).
      rewrite find_set_field. destruct (String.eqb_spec k name) as [->|Hne].
      * rewrite bool_decide_eq_false_2 by naive_solver.
        rewrite bool_decide_eq_true_2; [by rewrite Hq|].
        rewrite Hq. split; [apply list_elem_of_here|by eexists].
      * apply bool_decide_ext_if. set_solver.
    + intros [-> Hk]%IH; [|done]. split; [done|]. intros Hok k. rewrite (Hk Hok k).
      apply bool_decide_ext_if. rewrite elem_of_cons.
      destruct (decide (k = name)) as [->|]; [|naive_solver].
      rewrite Hq. naive_solver.
Qed.

End Queries.

(** ** The admin request *)

(** A path sets no filter, and conforms. *)
Lemma admin_path_request `{Text} segs name ps :
  find_route admin_routes segs [] = Some (name, ps) →
  find_field "filter" ps = None ∧ conforms admin_interface [] name ps.
Proof.
  intros Hf. split; [|by eapply find_route_conforms, Hf].
  apply find_route_elem in Hf as (r & Hr & Hm).
  apply typed_route in Hm as [_ [Hty _]].
  destruct (find_field "filter" ps) as [v|] eqn:Hfind; [|done].
  exfalso. apply find_field_elem, Hty, (list_elem_of_fmap_2 fst) in Hfind. revert Hfind.
  change ("filter" ∉ (route_types r).*1).
  apply elem_of_cons in Hr as [->|Hr%list_elem_of_singleton]; [|subst r];
    apply (bool_decide_unpack _); vm_compute; exact I.
Qed.

(** The methods of the admin interface have a filter and no media parameter. *)
Lemma admin_methods name m :
  find_method admin_interface name = Some m →
  find_parameter m "filter" = Some (Param "filter" type_uint64 optional) ∧
  find_parameter m "media" = None.
Proof.
  unfold find_method, admin_interface. cbn [List.find method_name].
  destruct ("log_subscribe" == name); [by intros [= <-]|].
  destruct ("event_subscribe" == name); [by intros [= <-]|done].
Qed.

Lemma admin_filter_conforms `{TextLaws} (query : gmap string string) name ps o :
  (match query !! "filter" with
   | None => (true, ps)
   | Some filter =>
       match to_number 64 filter with
       | None => (false, ps)
       | Some value =>
           if maximum_filter <? value then (false, ps)
           else (true, set_field "filter" (uint64_t value) ps)
       end
   end) = (true, o) →
  find_field "filter" ps = None → conforms admin_interface [] name ps →
  conforms admin_interface [] name o ∧ ("media" ∉ field_names o) ∧
  ∀ n, find_field "filter" o = Some (uint64_t n) → 0 <= n < 2 ^ 53.
Proof.
  intros Hread Hnone Hc. pose proof Hc as (m & Hm & _).
  destruct (admin_methods name m Hm) as [Hfilter Hmedia].
  assert (conforms admin_interface [] name o ∧
    ∀ n, find_field "filter" o = Some (uint64_t n) → 0 <= n < 2 ^ 53) as [Ho Hn].
  { destruct (query !! "filter") as [text|]; [|simplify_eq; split; [done|]; congruence].
    destruct (to_number 64 text) as [value|] eqn:Hv; [|done].
    destruct (Z.ltb_spec maximum_filter value) as [|Hle]; simplify_eq.
    split; [by eapply conforms_set_field|]. intros n. rewrite find_set_eq.
    intros [= <-]. apply to_number_bound in Hv. unfold maximum_filter in Hle. lia. }
  split_and!; [done| |done]. by eapply conforms_fresh.
Qed.

(** ** A reference uri, for examples *)

(** The pairs of a query string. *)
Definition reference_query (target : string) : gmap string string :=
  match reference_split target "?" false false with
  | [_; query] =>
      list_to_map (omap (λ pair,
        match reference_split pair "=" false false with
        | [key; value] => Some (key, value)
        | _ => None
        end) (reference_split query "&" false true))
  | _ => ∅
  end.

#[global] Instance reference_uri : Uri := {
  decode_query target := Some (reference_query target);
}.

#[global] Instance reference_media_laws : MediaLaws.
Proof. split. simpl. set_solver by lia. Qed.

(** ** Properties *)

(** The native query parser succeeds exactly on queries whose flags spell
    booleans and whose format is a known one or absent. It then leaves every
    argument of the path as it was, other than the flags that the query turns
    from their defaults and the media type, which is the query's format or else
    the first of json, html, text and data that the client accepts. *)
Lemma native_query_correct `{MediaValues} `{Uri} out target accepts query o :
  decode_query target = Some query → object_params out = Some o →
  ∃ ok o', native_query out target accepts = (ok, with_params out o') ∧
    ok = flag_ok query "witness" && flag_ok query "turbo" && flag_ok query "stop" &&
      format_ok native_formats query ∧
    (ok = true → ∀ k, find_field k o' = native_argument query accepts k (find_field k o)).
Proof.
  intros Hq Ho. unfold native_query. rewrite Hq, Ho.
  destruct (query_flag query "witness" true o) as [ok1 o1] eqn:H1.
  destruct (query_flag query "turbo" true o1) as [ok2 o2] eqn:H2.
  destruct (query_flag query "stop" false o2) as [ok3 o3] eqn:H3.
  destruct (native_format query accepts o3) as [ok4 o4] eqn:H4.
  apply query_flag_spec in H1 as [<- H1], H2 as [<- H2], H3 as [<- H3].
  apply native_format_spec in H4 as [<- H4].
  destruct ok1; simpl; [|by do 2 eexists]. destruct ok2; simpl; [|by do 2 eexists].
  destruct ok3; simpl; [|by do 2 eexists]. exists ok4, o4. split_and!; [done..|].
  intros -> k. rewrite (H4 eq_refl). unfold native_argument.
  destruct (chosen_media native_formats query accepts) as [media|].
  - rewrite bool_decide_eq_true_2 by done. unfold set_media. rewrite find_set_field, H3, H2, H1.
    destruct (String.eqb_spec k "media") as [->|]; [done|]. simpl.
    destruct (String.eqb_spec k "stop") as [->|]; [done|].
    destruct (String.eqb_spec k "turbo") as [->|]; done.
  - rewrite bool_decide_eq_false_2 by (intros [? ?]; done). rewrite andb_false_r.
    rewrite H3, H2, H1.
    destruct (String.eqb_spec k "stop") as [->|]; [done|].
    destruct (String.eqb_spec k "turbo") as [->|]; done.
Qed.

(** The media type that the native service reads back from a completed
    request is the one that its query parser chose, whatever the path, and
    unknown (not acceptable) if neither the query nor the client names one. *)
Lemma native_media_correct `{MediaValues} `{Uri} out out' target accepts query o :
  decode_query target = Some query → object_params out = Some o →
  find_field "media" o = None →
  native_query out target accepts = (true, out') →
  get_media out' = Some (default media_unknown (chosen_media native_formats query accepts)).
Proof.
  intros Hq Ho Hfresh. unfold native_query. rewrite Hq, Ho.
  destruct (query_flag query "witness" true o) as [ok1 o1] eqn:H1.
  destruct (query_flag query "turbo" true o1) as [ok2 o2] eqn:H2.
  destruct (query_flag query "stop" false o2) as [ok3 o3] eqn:H3.
  destruct (native_format query accepts o3) as [ok4 o4] eqn:H4.
  destruct ok1, ok2, ok3; simpl; try discriminate. intros [= -> <-].
  apply query_flag_spec in H1 as [_ H1], H2 as [_ H2], H3 as [_ H3].
  apply native_format_spec in H4 as [_ H4]. rewrite (H4 eq_refl). clear H4.
  destruct (chosen_media native_formats query accepts) as [media|] eqn:Hm;
    unfold get_media; simpl.
  - unfold set_media. rewrite find_set_eq, bool_decide_eq_true_2; [done|].
    apply chosen_media_elem in Hm as [Hm|[Hm _]]; simpl in Hm; set_solver.
  - rewrite H3, H2, H1. simpl. by rewrite Hfresh.
Qed.

(** From path to dispatch, the admin service only produces requests that its
    interface publishes: if the path and its query parse and the request has a
    media type, then what is left once the media type is taken out conforms,
    and every filter is exact as a json number. *)
Lemma admin_request_conforms `{TextLaws} `{MediaLaws} `{Uri}
    out path target accepts r1 r2 media r3 :
  admin_target out path = Some (Error.success, r1) →
  admin_query r1 target accepts = (true, r2) →
  strip_media r2 = Some (media, r3) → media ≠ media_unknown →
  ∃ name ps, r3 = message name ps ∧ conforms admin_interface [] name ps ∧
    ∀ n, find_field "filter" ps = Some (uint64_t n) → 0 <= n < 2 ^ 53.
Proof.
  intros (segs & name & ps & _ & Hf & ->)%(run_target_parses _ _ admin_body_ok).
  destruct (admin_path_request _ _ _ Hf) as [Hnone Hconf].
  unfold admin_query. destruct (decode_query target) as [query|]; [|done]. simpl.
  set (read := match query !! "filter" with Some _ => _ | None => _ end).
  destruct read as [ok o] eqn:Hread. subst read. destruct ok; simpl; [|done].
  destruct (admin_filter_conforms _ _ _ _ Hread Hnone Hconf) as (Hc & Hfresh & Hn).
  destruct (admin_format query accepts o) as [ok4 o4] eqn:H4.
  intros [= -> <-]. apply admin_format_spec in H4 as [_ H4]. rewrite (H4 eq_refl). clear H4.
  unfold strip_media. simpl.
  destruct (chosen_media admin_formats query accepts) as [m|] eqn:Hm.
  - unfold set_media. rewrite find_set_eq, bool_decide_eq_true_2.
    + rewrite erase_set_fresh by done. intros [= <- <-] _. by exists name, o.
    + apply chosen_media_elem in Hm as [Hm|[Hm _]]; simpl in Hm; set_solver.
  - rewrite find_field_fresh by done. by intros [= <- <-].
Qed.

(** The bitcoind query parser succeeds exactly if the numbers of the query
    are canonical 32-bit decimals and its flags spell booleans, and then sets
    those arguments and leaves every other one as the path had it. *)
Lemma bitcoind_query_correct `{Text} `{Uri} out target query o :
  decode_query target = Some query → object_params out = Some o →
  ∃ ok o', bitcoind_query out target = (ok, with_params out o') ∧
    ok = forallb (λ name, match query !! name with
                          | Some text => bool_decide (is_Some (from_chars_number 32 text))
                          | None => true
                          end) ["count"; "offset"; "size"] &&
      forallb (flag_ok query) ["verbose"; "mempool_sequence"] ∧
    (ok = true → ∀ k, find_field k o' =
      if bool_decide (k ∈ ["verbose"; "mempool_sequence"] ∧ is_Some (query !! k))
      then (λ text, boolean_t (text == "true")) <$> query !! k
      else if bool_decide (k ∈ ["count"; "offset"; "size"] ∧ is_Some (query !! k))
      then uint32_t <$> (query !! k ≫= from_chars_number 32)
      else find_field k o).
Proof.
  intros Hq Ho. unfold bitcoind_query. rewrite Hq, Ho.
  destruct (query_numbers query _ o) as [ok1 o1] eqn:H1.
  apply query_numbers_spec in H1 as [<- H1]; [|by apply (bool_decide_unpack _)].
  destruct ok1; cbn [negb andb]; [|by do 2 eexists].
  destruct (query_booleans query _ o1) as [ok2 o2] eqn:H2.
  apply query_booleans_spec in H2 as [<- H2]; [|by apply (bool_decide_unpack _)].
  exists ok2, o2. split_and!; [done..|]. intros Hok k. by rewrite (H2 Hok), (H1 eq_refl).
Qed.
