(* ===== verification/ElectrumVersion.v ===== *)
(** Electrum protocol versions and their negotiation
    (src/utilities/electrum_version.cpp; the enumeration is that of
    include/bitcoin/server/interfaces/electrum.hpp). *)
From stdpp Require Import sorting pretty.
From S2P Require Import Prelude Rpc.

(** ** Numeric versions

    [config::version] of the system library: up to four components, totally
    ordered, parsed from and printed to dotted digits. *)

Class ConfigVersion := {
  config_version : Type;
  make_version : Z → Z → Z → Z → config_version;
  version_leb : config_version → config_version → bool;
  (** The constructor from text; [None] where it throws. *)
  parse_version : string → option config_version;
  print_version : config_version → string;
}.

(** Components compare from the first on. *)
Fixpoint components_leb (a b : list Z) : bool :=
  match a, b with
  | [], _ => true
  | _ :: _, [] => false
  | x :: a, y :: b => (x <? y) || ((x =? y) && components_leb a b)
  end.

Class ConfigVersionLaws `{ConfigVersion} := {
  version_leb_total a b : version_leb a b = true ∨ version_leb b a = true;
  version_leb_trans a b c :
    version_leb a b = true → version_leb b c = true → version_leb a c = true;
  version_leb_antisym a b : version_leb a b = true → version_leb b a = true → a = b;
  version_leb_make a b c d a' b' c' d' :
    version_leb (make_version a b c d) (make_version a' b' c' d') =
      components_leb [a; b; c; d] [a'; b'; c'; d'];
}.

Inductive version :=
  | v0_0 | v0_6 | v0_8 | v0_9 | v0_10 | v1_0 | v1_1 | v1_2 | v1_3 | v1_4
  | v1_4_1 | v1_4_2 | v1_6 | v1_7.

#[global] Instance version_eq_dec : EqDecision version.
Proof. solve_decision. Defined.

(** The underlying value of the enumeration, by which versions compare. *)
Definition version_value (v : version) : Z :=
  match v with
  | v0_0 => 0 | v0_6 => 1 | v0_8 => 2 | v0_9 => 3 | v0_10 => 4 | v1_0 => 5
  | v1_1 => 6 | v1_2 => 7 | v1_3 => 8 | v1_4 => 9 | v1_4_1 => 10 | v1_4_2 => 11
  | v1_6 => 12 | v1_7 => 13
  end.

Lemma version_value_inj a b : version_value a = version_value b → a = b.
Proof. by destruct a, b. Qed.

Definition version_before (a b : version) : bool := version_value a <? version_value b.

(** The character classes of the system library. *)
Class Characters := {
  is_ascii_number : ascii → bool;
  is_ascii_character : ascii → bool;
  is_ascii_whitespace : ascii → bool;
}.

Class CharactersLaws `{Characters} := {
  star_character : is_ascii_character "*"%char = true;
  star_whitespace : is_ascii_whitespace "*"%char = false;
}.

Section Versions.
Context `{ConfigVersion} `{Characters}.

(** ** Operations *)

Definition versions : list (version * config_version) :=
  [(v0_0, make_version 0 0 0 0);
   (v0_6, make_version 0 6 0 0);
   (v0_8, make_version 0 8 0 0);
   (v0_9, make_version 0 9 0 0);
   (v0_10, make_version 0 10 0 0);
   (v1_0, make_version 1 0 0 0);
   (v1_1, make_version 1 1 0 0);
   (v1_2, make_version 1 2 0 0);
   (v1_3, make_version 1 3 0 0);
   (v1_4, make_version 1 4 0 0);
   (v1_4_1, make_version 1 4 1 0);
   (v1_4_2, make_version 1 4 2 0);
   (v1_6, make_version 1 6 0 0);
   (v1_7, make_version 1 7 0 0)].

Definition version_to_number (value : version) : config_version :=
  match List.find (λ entry, bool_decide (entry.1 = value)) versions with
  | Some entry => entry.2
  | None => make_version 0 0 0 0
  end.

Definition version_to_string (value : version) : string :=
  print_version (version_to_number value).

(** [value.back() == '.'] of a non-empty text, and [value.find("..") != npos]. *)
Fixpoint ends_with (c : ascii) (s : string) : bool :=
  match s with
  | EmptyString => false
  | String a EmptyString => Ascii.eqb a c
  | String _ t => ends_with c t
  end.

Fixpoint has_double (c : ascii) (s : string) : bool :=
  match s with
  | String a t => (Ascii.eqb a c && starts_with c t) || has_double c t
  | EmptyString => false
  end.

Fixpoint all_of (p : ascii → bool) (s : string) : bool :=
  match s with
  | EmptyString => true
  | String c t => p c && all_of p t
  end.

Definition version_from_string (value : string) : option config_version :=
  let result := negb (is_empty value)
    && negb (starts_with "." value)
    && negb (ends_with "." value)
    && negb (has_double "." value)
    && all_of (λ c, is_ascii_number c || Ascii.eqb c ".") value in
  if result then parse_version value else None.

Definition version_floor (value : config_version) : version :=
  match List.find (λ entry, version_leb entry.2 value) (reverse versions) with
  | Some entry => entry.1
  | None => v0_0
  end.

(** The requested range, or [None] where the source returns false. *)
Definition version_range (value : value_t) : option (config_version * config_version) :=
  match value with
  | string_t text =>
      match version_from_string text with
      | Some min => Some (min, min)
      | None => None
      end
  | array_t [low; high] =>
      match low, high with
      | string_t low, string_t high =>
          match version_from_string low with
          | None => None
          | Some min =>
              match version_from_string high with
              | None => None
              | Some max => Some (min, max)
              end
          end
      | _, _ => None
      end
  | _ => None
  end.

(** [a < b], and [std::max] and [std::min], which prefer the first argument. *)
Definition version_ltb (a b : config_version) : bool := negb (version_leb b a).
Definition version_max (a b : config_version) : config_version :=
  if version_ltb a b then b else a.
Definition version_min (a b : config_version) : config_version :=
  if version_ltb b a then b else a.

Definition negotiate (value : value_t) (minimum maximum : config_version) : version :=
  match version_range value with
  | None => v0_0
  | Some (min, max) =>
      let lower := version_max min minimum in
      let upper := version_min max maximum in
      let floor := version_floor upper in
      if version_ltb (version_to_number floor) lower then v0_0 else floor
  end.

Definition restricted_maximum : version := v1_4_2.
Definition maximum_client_name : nat := 1024.

Fixpoint escape_client (s : string) : string :=
  match s with
  | EmptyString => EmptyString
  | String c t =>
      String (if is_ascii_character c && negb (is_ascii_whitespace c) then c else "*"%char)
        (escape_client t)
  end.

Definition version_result (negotiated : version) (server_name : string) : value_t :=
  if version_before negotiated v1_1 then string_t server_name
  else array_t [string_t server_name; string_t (version_to_string negotiated)].

(** ** Lemmas *)

(** Every enumerator is in the table, and the table is in ascending order. *)
Lemma version_to_number_elem v : (v, version_to_number v) ∈ versions.
Proof. destruct v; vm_compute; repeat constructor. Qed.

Lemma versions_elem v n : (v, n) ∈ versions → n = version_to_number v.
Proof.
  unfold versions. intros Hin.
  repeat (apply elem_of_cons in Hin as [[= -> ->]|Hin]; [done|]).
  by apply not_elem_of_nil in Hin.
Qed.

Context `{!ConfigVersionLaws}.

Lemma version_leb_refl a : version_leb a a = true.
Proof. by destruct (version_leb_total a a). Qed.

Lemma version_ltb_leb a b : version_ltb a b = true → version_leb a b = true.
Proof.
  unfold version_ltb. intros Hn%negb_true_iff. destruct (version_leb_total a b); congruence.
Qed.

Lemma version_ltb_irrefl a b : version_ltb a b = true → version_leb b a = false.
Proof. apply negb_true_iff. Qed.

Lemma version_max_leb a b c :
  version_leb (version_max a b) c = true ↔ version_leb a c = true ∧ version_leb b c = true.
Proof.
  unfold version_max. destruct (version_ltb a b) eqn:Hlt.
  - apply version_ltb_leb in Hlt. split; [|naive_solver].
    intros Hbc. split; [|done]. by eapply version_leb_trans.
  - apply negb_false_iff in Hlt. split; [|naive_solver].
    intros Hac. split; [done|]. by eapply version_leb_trans.
Qed.

Lemma version_min_leb a b c :
  version_leb c (version_min a b) = true ↔ version_leb c a = true ∧ version_leb c b = true.
Proof.
  unfold version_min. destruct (version_ltb b a) eqn:Hlt.
  - apply version_ltb_leb in Hlt. split; [|naive_solver].
    intros Hcb. split; [|done]. by eapply version_leb_trans.
  - apply negb_false_iff in Hlt. split; [|naive_solver].
    intros Hca. split; [done|]. by eapply version_leb_trans.
Qed.

(** The numeric order of the defined versions is that of the enumeration. *)
Lemma version_to_number_leb a b :
  version_leb (version_to_number a) (version_to_number b) =
    (version_value a <=? version_value b).
Proof.
  destruct a, b; unfold version_to_number; simpl; rewrite version_leb_make; reflexivity.
Qed.

Lemma versions_descend :
  StronglySorted (λ a b : version * config_version, version_value b.1 <= version_value a.1)
    (reverse versions).
Proof. unfold versions. cbn. repeat constructor; simpl; lia. Qed.

(** The first entry from the back that does not exceed a value is greatest. *)
Lemma version_floor_cases value :
  (version_leb (version_to_number (version_floor value)) value = true ∧
   ∀ v, version_leb (version_to_number v) value = true →
     version_value v <= version_value (version_floor value)) ∨
  (version_floor value = v0_0 ∧
   ∀ v, version_leb (version_to_number v) value = false).
Proof.
  unfold version_floor.
  assert (∀ v, (v, version_to_number v) ∈ reverse versions) as Hall
    by (intros v; apply elem_of_reverse, version_to_number_elem).
  destruct (List.find _ (reverse versions)) as [[f n]|] eqn:Hf.
  - left. apply find_first in Hf as (pre & post & Heq & Hle & Hpre). simpl in *.
    assert (n = version_to_number f) as ->.
    { apply versions_elem, elem_of_reverse. rewrite Heq. set_solver. }
    split; [done|]. intros v Hv. specialize (Hall v).
    pose proof versions_descend as Hsort. rewrite Heq in Hall, Hsort.
    apply elem_of_app in Hall as [Hin|[[= ->]|Hin]%elem_of_cons]; [|done|].
    + rewrite Forall_forall in Hpre. apply Hpre in Hin. simpl in Hin. congruence.
    + apply StronglySorted_app_1_r, StronglySorted_inv in Hsort as [_ Hpost].
      rewrite Forall_forall in Hpost. by apply Hpost in Hin.
  - right. split; [done|]. intros v.
    apply (List.find_none _ _ Hf (v, version_to_number v)). by apply list_elem_of_In.
Qed.

(** A negotiated version is in the configured range. *)
Lemma negotiate_bounds value minimum maximum :
  negotiate value minimum maximum ≠ v0_0 →
  version_leb minimum (version_to_number (negotiate value minimum maximum)) = true ∧
  version_leb (version_to_number (negotiate value minimum maximum)) maximum = true.
Proof.
  unfold negotiate. destruct (version_range value) as [[min max]|]; [|done].
  destruct (version_ltb _ _) eqn:Hlt; [done|]. intros Hne.
  apply negb_false_iff, version_max_leb in Hlt as [_ Hmin]. split; [done|].
  destruct (version_floor_cases (version_min max maximum)) as [[Hle _]|[Hz _]]; [|done].
  by apply version_min_leb in Hle as [_ ?].
Qed.

End Versions.

(** ** Reference instances, for examples *)

(** The number that a text of digits denotes. *)
Definition reference_components (s : string) : list Z :=
  let fix go (s : string) (n : Z) : list Z :=
    match s with
    | EmptyString => [n]
    | String c t =>
        if Ascii.eqb c "." then n :: go t 0
        else go t (n * 10 + (Z.of_nat (nat_of_ascii c) - 48))
    end in
  go s 0.

#[global] Instance reference_version : ConfigVersion := {
  config_version := Z * Z * Z * Z;
  make_version a b c d := (a, b, c, d);
  version_leb '(a, b, c, d) '(a', b', c', d') :=
    components_leb [a; b; c; d] [a'; b'; c'; d'];
  parse_version s :=
    match reference_components s with
    | [a] => Some (a, 0, 0, 0)
    | [a; b] => Some (a, b, 0, 0)
    | [a; b; c] => Some (a, b, c, 0)
    | [a; b; c; d] => Some (a, b, c, d)
    | _ => None
    end;
  print_version '(a, b, c, d) :=
    String.concat "." (pretty <$> (if (c =? 0) && (d =? 0) then [a; b]
      else if d =? 0 then [a; b; c] else [a; b; c; d]));
}.

Lemma components_leb_spec (a b : list Z) :
  (components_leb a b = true ∨ components_leb b a = true) ∧
  (components_leb a b = true → components_leb b a = true → a = b).
Proof.
  revert b. induction a as [|x a IH]; intros [|y b]; simpl;
    [naive_solver..|].
  destruct (IH b) as [Htot Hanti].
  rewrite !orb_true_iff, !andb_true_iff, !Z.ltb_lt, !Z.eqb_eq. split.
  - destruct (Z.lt_trichotomy x y) as [|[->|]]; [auto| |auto]. destruct Htot; auto.
  - intros [|[-> Hab]] [|[Heq Hba]]; [lia..|]. by rewrite Hanti.
Qed.

Lemma components_leb_trans (a b c : list Z) :
  components_leb a b = true → components_leb b c = true → components_leb a c = true.
Proof.
  revert b c. induction a as [|x a IH]; intros [|y b] [|z c]; simpl; try done.
  rewrite !orb_true_iff, !andb_true_iff, !Z.ltb_lt, !Z.eqb_eq.
  intros [|[-> ?]] [|[-> ?]]; [left; lia|left; lia|left; lia|right; eauto].
Qed.

#[global] Instance reference_version_laws : ConfigVersionLaws.
Proof.
  split.
  - intros [[[a b] c] d] [[[a' b'] c'] d']. apply components_leb_spec.
  - intros [[[? ?] ?] ?] [[[? ?] ?] ?] [[[? ?] ?] ?]. apply components_leb_trans.
  - intros [[[a b] c] d] [[[a' b'] c'] d'] H1 H2.
    apply components_leb_spec in H2; [|exact H1]. by simplify_eq.
  - done.
Qed.

#[global] Instance reference_characters : Characters := {
  is_ascii_number c := (48 <=? nat_of_ascii c)%nat && (nat_of_ascii c <=? 57)%nat;
  is_ascii_character c := (nat_of_ascii c <? 128)%nat;
  is_ascii_whitespace c := (nat_of_ascii c =? 32)%nat ||
    ((9 <=? nat_of_ascii c)%nat && (nat_of_ascii c <=? 13)%nat);
}.

#[global] Instance reference_characters_laws : CharactersLaws.
Proof. by split. Qed.

(** ** Well-formed version texts *)

(** The well-formed texts: one or more runs of digits, separated by dots. *)
Inductive dotted `{Characters} : string → Prop :=
  | dotted_last s : s ≠ "" → all_of is_ascii_number s = true → dotted s
  | dotted_more s t :
      s ≠ "" → all_of is_ascii_number s = true → dotted t → dotted (s ++ "." ++ t).

Lemma dotted_cons `{Characters} c s : is_ascii_number c = true → dotted s → dotted (String c s).
Proof.
  intros Hc. destruct 1 as [s Hne Hs|s t Hne Hs Ht].
  - constructor; [done|]. simpl. by rewrite Hc.
  - apply (dotted_more (String c s) t); [done| |done]. simpl. by rewrite Hc.
Qed.

Lemma dotted_of_checks `{Characters} s :
  is_empty s = false → starts_with "." s = false → ends_with "." s = false →
  has_double "." s = false →
  all_of (λ c, is_ascii_number c || Ascii.eqb c ".") s = true → dotted s.
Proof.
  induction s as [s IH] using (induction_ltof1 _ String.length).
  destruct s as [|c s]; [done|]. intros _ Hfront Hback Hdouble Hall. simpl in *.
  rewrite Hfront in *. simpl in Hdouble.
  apply andb_prop in Hall as [Hc Hall]. rewrite orb_false_r in Hc.
  destruct s as [|d s].
  { constructor; [done|]. simpl. by rewrite Hc. }
  destruct (Ascii.eqb_spec d ".") as [->|Hd].
  - simpl in Hdouble. apply orb_false_iff in Hdouble as [Hnext Hdouble].
    destruct s as [|e s]; [done|].
    apply (dotted_more (String c "") (String e s)); [done|simpl; by rewrite Hc|].
    apply IH; [unfold ltof; simpl; lia|done|done|exact Hback|done|].
    simpl in Hall. apply andb_prop in Hall as [_ Hall]. exact Hall.
  - apply dotted_cons; [done|]. apply IH; [unfold ltof; simpl; lia|done| |done|done|done].
    simpl. by apply Ascii.eqb_neq.
Qed.

(** ** Properties *)

(** A version is within the requested range and the configured one. *)
Definition in_overlap `{ConfigVersion} (range : config_version * config_version)
    (minimum maximum : config_version) (v : version) : Prop :=
  let n := version_to_number v in
  version_leb range.1 n = true ∧ version_leb minimum n = true ∧
  version_leb n range.2 = true ∧ version_leb n maximum = true.

(** Negotiation settles on the greatest defined version that both the
    client's range and the configured range contain; it answers v0_0 exactly if
    the request is malformed or no (valid) version is in both ranges. *)
Lemma negotiate_correct `{ConfigVersionLaws} `{Characters} value minimum maximum v :
  negotiate value minimum maximum = v ↔
    match version_range value with
    | None => v = v0_0
    | Some range =>
        (v ≠ v0_0 ∧ in_overlap range minimum maximum v ∧
          ∀ v', in_overlap range minimum maximum v' → version_value v' <= version_value v) ∨
        (v = v0_0 ∧ ∀ v', v' ≠ v0_0 → ¬ in_overlap range minimum maximum v')
    end.
Proof.
  unfold negotiate. destruct (version_range value) as [[min max]|]; [|done].
  set (lower := version_max min minimum). set (upper := version_min max maximum).
  assert (∀ v', in_overlap (min, max) minimum maximum v' ↔
    version_leb lower (version_to_number v') = true ∧
    version_leb (version_to_number v') upper = true) as Hov.
  { intros v'. unfold in_overlap, lower, upper. simpl.
    rewrite version_max_leb, version_min_leb. naive_solver. }
  setoid_rewrite Hov. clear Hov. clearbody lower upper.
  destruct (version_floor_cases upper) as [[Hle Hgreat]|[-> Hnone]].
  - set (floor := version_floor upper) in *. clearbody floor.
    unfold version_ltb. destruct (version_leb lower (version_to_number floor)) eqn:Hlow; simpl.
    + destruct (decide (floor = v0_0)) as [->|Hne].
      * split; [intros <-; right|].
        { split; [done|]. intros v' Hv' [_ Hup%Hgreat]. by destruct v'. }
        { intros [(Hv & [_ Hup%Hgreat] & _)|[-> _]]; [|done]. by destruct v. }
      * split; [intros <-; left; naive_solver|].
        intros [(Hv & [_ Hup] & Hmax)|[-> Hno]]; [|exfalso; by apply (Hno floor)].
        apply version_value_inj, Z.le_antisymm; [apply Hmax|by apply Hgreat]. done.
    + assert (∀ v', version_leb lower (version_to_number v') = true →
        version_leb (version_to_number v') upper = true → False) as Hno.
      { intros v' Hl Hup%Hgreat. apply Z.leb_le in Hup. rewrite <-version_to_number_leb in Hup.
        pose proof (version_leb_trans _ _ _ Hl Hup). congruence. }
      naive_solver.
  - assert ((if version_ltb (version_to_number v0_0) lower then v0_0 else v0_0) = v0_0) as ->
      by by destruct (version_ltb _ _).
    assert (∀ v', version_leb (version_to_number v') upper = true → False) as Hno
      by (intros v' Hv'; by rewrite Hnone in Hv'). naive_solver.
Qed.

(** A client's version text is handed to the numeric parser only if it
    consists of dot-separated runs of digits: no sign, blank, empty segment or
    trailing character reaches the stream extraction. *)
Lemma version_from_string_dotted `{ConfigVersion} `{Characters} value v :
  version_from_string value = Some v → dotted value ∧ parse_version value = Some v.
Proof.
  unfold version_from_string. case_match eqn:Hok; [|done]. intros Hp. split; [|done].
  revert Hok. clear v Hp. rewrite !andb_true_iff, !negb_true_iff.
  intros [[[[Hne Hfront] Hback] Hdouble] Hall]. by apply dotted_of_checks.
Qed.

(** An escaped client name has the length of the name, and neither
    whitespace nor a character beyond ascii. *)
Lemma escape_client_safe `{CharactersLaws} name :
  String.length (escape_client name) = String.length name ∧
  all_of (λ c, is_ascii_character c && negb (is_ascii_whitespace c))
    (escape_client name) = true ∧
  (all_of (λ c, is_ascii_character c && negb (is_ascii_whitespace c)) name = true →
    escape_client name = name).
Proof.
  induction name as [|c name (IHl & IHs & IHi)]; [done|]. simpl.
  rewrite IHl, IHs. destruct (is_ascii_character c && negb (is_ascii_whitespace c)) eqn:Hc.
  - rewrite Hc. split_and!; [done..|]. intros. by rewrite IHi.
  - rewrite star_character, star_whitespace. done.
Qed.
