(* ===== verification/ElectrumRequest.v ===== *)
(** Normalization of electrum requests for the version of the channel
    (src/parsers/electrum_request.cpp), which the channel applies to each
    request before its dispatch. *)
From S2P Require Import Prelude Rpc ElectrumVersion.

Section Requests.
Context `{ConfigVersion} `{Characters}.

(** ** Operations *)

Definition server_version_name : string := "server.version".
Definition server_version_names : list string := ["client_name"; "protocol_version"].
Definition server_version_size : nat := 2.
Definition transaction_get_name : string := "blockchain.transaction.get".

Definition set_params (message : request_t) (p : params_t) : request_t :=
  Request (jsonrpc message) (id message) (method message) (Some p).

(** The branch of [server.version]. *)
Definition normalize_version (params : params_t) (minimum maximum : config_version) :
    params_t :=
  let lowest := string_t (print_version minimum) in
  match params with
  | params_value v => params_array [v; lowest]
  | params_array positional =>
      let positional := if (length positional =? 0)%nat then [string_t ""] else positional in
      let positional :=
        if (length positional =? 1)%nat then (positional ++ [lowest])%list else positional in
      match positional !! 1%nat with
      | None => params_array positional
      | Some requested =>
          if version_before (negotiate requested minimum maximum) v1_6
          then params_array positional
          else if (server_version_size <? length positional)%nat
          then params_array (take server_version_size positional)
          else params_array positional
      end
  | params_object named =>
      let named := try_emplace "protocol_version" lowest named in
      match find_field "protocol_version" named with
      | None => params_object named
      | Some requested =>
          if version_before (negotiate requested minimum maximum) v1_6
          then params_object named
          else params_object
            (List.filter (λ '(k, _), bool_decide (k ∈ server_version_names)) named)
      end
  end.

Definition electrum_request (message : request_t) (version : version)
    (minimum maximum : config_version) : request_t :=
  let is_version := method message == server_version_name in
  match params message with
  | None =>
      if negb is_version then message
      else set_params message (normalize_version (params_array []) minimum maximum)
  | Some params =>
      if is_version then set_params message (normalize_version params minimum maximum)
      else if method message == transaction_get_name then
        if version_before version v1_1 then
          match params with
          | params_array positional =>
              if (length positional =? 2)%nat
              then set_params message (params_array (take 1 positional)) else message
          | params_object named => set_params message (params_object (erase_field "height" named))
          | params_value _ => message
          end
        else message
      else message
  end.

(** ** Reference: the arguments that a handshake request denotes *)

Definition client_argument (message : request_t) : option value_t :=
  match params message with
  | None => None
  | Some (params_value v) => Some v
  | Some (params_array a) => a !! 0%nat
  | Some (params_object o) => find_field "client_name" o
  end.

Definition version_argument (message : request_t) : option value_t :=
  match params message with
  | Some (params_array a) => a !! 1%nat
  | Some (params_object o) => find_field "protocol_version" o
  | _ => None
  end.

(** The names or positions of a request are those that [server.version] takes. *)
Definition version_arguments_only (message : request_t) : Prop :=
  match params message with
  | Some (params_array a) => length a = server_version_size
  | Some (params_object o) => Forall (λ k, k ∈ server_version_names) (field_names o)
  | _ => False
  end.

(** ** Lemmas *)

Lemma find_field_filter (p : string → bool) o k :
  p k = true → find_field k (List.filter (λ '(k, _), p k) o) = find_field k o.
Proof.
  intros Hp. induction o as [|[k' w] o IH]; simpl; [done|].
  destruct (p k') eqn:Hk'; simpl.
  - by rewrite IH.
  - rewrite IH, eqb_neq_false; [done|]. congruence.
Qed.

Lemma filter_names (p : string → bool) o :
  Forall (λ k, p k = true) (field_names (List.filter (λ '(k, _), p k) o)).
Proof.
  induction o as [|[k w] o IH]; simpl; [constructor|].
  destruct (p k) eqn:Hk; [by constructor|done].
Qed.

(** The positional form: at least two arguments, the missing ones defaulted. *)
Lemma normalize_positional a minimum maximum :
  ∃ c v rest, normalize_version (params_array a) minimum maximum = params_array (c :: v :: rest) ∧
    c = default (string_t "") (a !! 0%nat) ∧
    v = default (string_t (print_version minimum)) (a !! 1%nat) ∧
    (version_before (negotiate v minimum maximum) v1_6 = false → rest = []).
Proof.
  unfold normalize_version.
  destruct a as [|c [|v rest]]; simpl; (destruct (version_before _ _) eqn:Hv);
    [..|destruct rest as [|w rest]; simpl]; do 3 eexists;
    (split_and!; [reflexivity..|]); congruence.
Qed.

End Requests.

(** ** Properties *)

(** Normalization of a [server.version] request supplies a protocol version,
    the configured minimum if the client named none, keeps the client's name and
    version otherwise, and leaves nothing but those two arguments once 1.6 or
    later is negotiated; it changes neither the method nor the identity. *)
Lemma request_version `{ConfigVersion} `{Characters} message version minimum maximum :
  let result := electrum_request message version minimum maximum in
  let requested :=
    default (string_t (print_version minimum)) (version_argument message) in
  method message = server_version_name →
  method result = server_version_name ∧ id result = id message ∧
  jsonrpc result = jsonrpc message ∧
  version_argument result = Some requested ∧
  (∀ c, client_argument message = Some c → client_argument result = Some c) ∧
  (version_before (negotiate requested minimum maximum) v1_6 = false →
    version_arguments_only result).
Proof.
  intros result requested Hm. subst result.
  unfold electrum_request. rewrite Hm, String.eqb_refl. cbn [negb].
  destruct (params message) as [[v|a|o]|] eqn:Hp; cbn [set_params method id jsonrpc];
    (split_and!; [done..| | |]); subst requested;
    unfold version_argument, client_argument, version_arguments_only;
    rewrite ?Hp; cbn [set_params params].
  (* A lone value. *)
  1-3: cbn [normalize_version]; naive_solver.
  (* Positional. *)
  1-3: destruct (normalize_positional a minimum maximum) as (c & v & rest & Heq & -> & -> & Hr);
    rewrite Heq; simpl;
    first [done|intros ? ->; done|by intros ->%Hr].
  (* Named. *)
  1-3: cbn [normalize_version]; rewrite find_try_emplace, String.eqb_refl; destruct (version_before _ _) eqn:Hv.
  - by rewrite find_try_emplace, String.eqb_refl.
  - rewrite find_field_filter by done. by rewrite find_try_emplace, String.eqb_refl.
  - by rewrite find_try_emplace.
  - rewrite find_field_filter by done. by rewrite find_try_emplace.
  - done.
  - intros _. eapply Forall_impl; [apply filter_names|]. intros k Hk.
    by apply bool_decide_eq_true in Hk.
  (* Absent. *)
  - by destruct (normalize_positional [] minimum maximum) as (c & v & rest & -> & -> & -> & _).
  - done.
  - destruct (normalize_positional [] minimum maximum) as (c & v & rest & -> & -> & -> & Hr).
    simpl. by intros ->%Hr.
Qed.

(** Every other request passes unchanged, but for [blockchain.transaction.get]
    below 1.1, which loses its height argument and keeps all others, so that the
    current method accepts the legacy form. *)
Lemma request_other `{ConfigVersion} `{Characters} message version minimum maximum :
  let result := electrum_request message version minimum maximum in
  method message ≠ server_version_name →
  result = message ∨
  (method message = transaction_get_name ∧ version_before version v1_1 = true ∧
   method result = method message ∧ id result = id message ∧
   match params message, params result with
   | Some (params_array [hash; _]), Some (params_array a) => a = [hash]
   | Some (params_object o), Some (params_object o') =>
       ∀ k, k ≠ "height" → find_field k o' = find_field k o
   | _, _ => False
   end).
Proof.
  intros result Hm. subst result. unfold electrum_request. rewrite eqb_neq_false by done.
  destruct (params message) as [p|] eqn:Hp; [|by left].
  destruct (String.eqb_spec (method message) transaction_get_name) as [Ht|]; [|by left].
  destruct (version_before version v1_1) eqn:Hv; [|by left].
  destruct p as [v|a|o]; [by left| |].
  - destruct a as [|hash [|height [|]]]; [by left..| |by left]. right. by split_and!.
  - right. split_and!; [done..|]. intros k Hk. by apply find_erase_ne.
Qed.

(** Normalization of a request changes neither its method nor its identity. A
    [server.version] request is supplied with a protocol version, the configured
    minimum if the client named none, keeps the client's name and version otherwise,
    and has nothing but those two arguments once 1.6 or later is negotiated; every
    other request passes unchanged, but for [blockchain.transaction.get] below 1.1,
    which loses its height argument and keeps all others. *)
Lemma electrum_request_correct `{ConfigVersion} `{Characters} message version minimum maximum :
  let result := electrum_request message version minimum maximum in
  let requested := default (string_t (print_version minimum)) (version_argument message) in
  method result = method message ∧ id result = id message ∧
  (method message = server_version_name →
    version_argument result = Some requested ∧
    (∀ c, client_argument message = Some c → client_argument result = Some c) ∧
    (version_before (negotiate requested minimum maximum) v1_6 = false →
      version_arguments_only result)) ∧
  (method message ≠ server_version_name → result ≠ message →
    method message = transaction_get_name ∧ version_before version v1_1 = true ∧
    match params message, params result with
    | Some (params_array [hash; _]), Some (params_array a) => a = [hash]
    | Some (params_object o), Some (params_object o') =>
        ∀ k, k ≠ "height" → find_field k o' = find_field k o
    | _, _ => False
    end).
Proof.
  intros result requested.
  destruct (decide (method message = server_version_name)) as [Hm|Hm].
  - destruct (request_version message version minimum maximum Hm) as (Hr & Hid & _ & Hrest).
    split_and!; [by rewrite Hm|done|done|done].
  - destruct (request_other message version minimum maximum Hm) as [Hsame|Hother];
      unfold result; [by rewrite Hsame|]. naive_solver.
Qed.
