(* ===== verification/ElectrumHandshake.v ===== *)
(** The electrum handshake (src/protocols/electrum/protocol_electrum_version.cpp)
    and the channel state that it sets
    (include/bitcoin/server/channels/channel_electrum.hpp).

    The handlers are functions of the protocol's state; sends complete later, so
    each leaves a pending completion. [step] interleaves the requests, the
    completions, the resumption of the channel and its stop. *)
From S2P Require Import Prelude Rpc Errors ElectrumVersion.

(** ** State *)

Record channel_electrum := Channel {
  version_ : version;
  name_ : string;
  restricted_ : bool;
  negotiated_ : bool;
}.

Definition channel_default : channel_electrum := Channel v0_0 "" false false.

(** What the protocol does to the outside: responses, the invocation of the
    handshake's completion handler, and the stop of the channel. *)
Inductive action :=
  | sent_result (result : value_t)
  | sent_code (ec : code)
  | shaken (ec : code)
  | channel_stop (ec : code).

(** [pending] holds, for each send, the handshake code of its completion. *)
Record protocol_electrum_version := Protocol {
  channel_ : channel_electrum;
  handler_ : bool;
  paused : bool;
  is_stopped : bool;
  pending : list code;
  actions : list action;
}.

Section Handshake.
Context `{ConfigVersion} `{Characters}.

(** The settings that the protocol reads. *)
Record handshake_options := Options {
  protocol_minimum : config_version;
  protocol_maximum : config_version;
  server_name : string;
}.

Context (options : handshake_options).

(** ** Channel properties *)

Definition set_channel_client (name : string) (c : channel_electrum) : channel_electrum :=
  Channel (version_ c) name (restricted_ c) (negotiated_ c).
Definition set_channel_version (v : version) (c : channel_electrum) : channel_electrum :=
  Channel v (name_ c) (restricted_ c) (negotiated_ c).
Definition set_restricted (c : channel_electrum) : channel_electrum :=
  Channel (version_ c) (name_ c) true (negotiated_ c).
Definition set_negotiated (c : channel_electrum) : channel_electrum :=
  Channel (version_ c) (name_ c) (restricted_ c) true.

Definition with_channel (c : channel_electrum) (p : protocol_electrum_version) :=
  Protocol c (handler_ p) (paused p) (is_stopped p) (pending p) (actions p).

(** [pause()]. *)
Definition pause (p : protocol_electrum_version) : protocol_electrum_version :=
  Protocol (channel_ p) (handler_ p) true (is_stopped p) (pending p) (actions p).

Definition act (a : action) (p : protocol_electrum_version) : protocol_electrum_version :=
  Protocol (channel_ p) (handler_ p) (paused p) (is_stopped p) (pending p)
    (actions p ++ [a])%list.

(** [stop(ec)]. *)
Definition stop (ec : code) (p : protocol_electrum_version) : protocol_electrum_version :=
  act (channel_stop ec)
    (Protocol (channel_ p) (handler_ p) (paused p) true (pending p) (actions p)).

(** A send with the completion [BIND(finished, _1, shake)]. *)
Definition send (a : action) (shake : code) (p : protocol_electrum_version) :
    protocol_electrum_version :=
  let p := act a p in
  Protocol (channel_ p) (handler_ p) (paused p) (is_stopped p) (pending p ++ [shake])%list
    (actions p).

(** [stopped(ec)]. *)
Definition stopped (ec : code) (p : protocol_electrum_version) : bool :=
  is_stopped p || is_error ec.

Definition success_code : code := Error.make Error.success.

(** ** Handlers *)

Definition finished (ec shake : code) (p : protocol_electrum_version) :
    protocol_electrum_version :=
  if stopped ec p then p
  else if handler_ p then
    let p := act (shaken shake) p in
    Protocol (channel_ p) false (paused p) (is_stopped p) (pending p) (actions p)
  else p.

Definition handle_unclaimed (p : protocol_electrum_version) : protocol_electrum_version :=
  if negb (handler_ p) then p
  else
    let p := pause p in
    let p := with_channel (set_restricted (channel_ p)) p in
    let p := with_channel
      (set_channel_version (version_floor (protocol_minimum options)) (channel_ p)) p in
    finished success_code success_code p.

(** Always succeeds; the name is truncated and escaped. *)
Definition set_client (name : string) (p : protocol_electrum_version) :
    bool * protocol_electrum_version :=
  (true, with_channel (set_channel_client
    (escape_client (String.substring 0 maximum_client_name name)) (channel_ p)) p).

Definition set_version (value : value_t) (p : protocol_electrum_version) :
    bool * protocol_electrum_version :=
  let c := channel_ p in
  let minimum := protocol_minimum options in
  let maximum :=
    if restricted_ c
    then version_min (protocol_maximum options) (version_to_number restricted_maximum)
    else protocol_maximum options in
  let floor := negotiate value minimum maximum in
  if bool_decide (floor = v0_0) || (negotiated_ c && negb (bool_decide (floor = version_ c)))
  then (false, p)
  else (true, with_channel (set_negotiated (set_channel_version floor c)) p).

Definition bad_request : code := ElectrumError.make ElectrumError.bad_request.

Definition handle_server_version (ec : code) (client_name : string)
    (protocol_version : value_t) (p : protocol_electrum_version) :
    protocol_electrum_version :=
  if stopped ec p then p
  else
    let p := if handler_ p then pause p else p in
    if negotiated_ (channel_ p) && negb (version_before (version_ (channel_ p)) v1_4)
    then send (sent_code bad_request) success_code p
    else
      let '(client, p) := set_client client_name p in
      let '(ok, p) := if client then set_version protocol_version p else (false, p) in
      if negb ok then
        if handler_ p then send (sent_code bad_request) bad_request p
        else stop bad_request p
      else
        send (sent_result (version_result (version_ (channel_ p)) (server_name options)))
          success_code p.

(** [started] is the protocol's own flag, [operation_failed] the code of the network
    library; a protocol that has started invokes the handler that it is given. *)
Definition shake (operation_failed : code) (started : bool) (p : protocol_electrum_version) :
    protocol_electrum_version :=
  if started then act (shaken operation_failed) p
  else Protocol (channel_ p) true (paused p) (is_stopped p) (pending p) (actions p).

(** A protocol that the session has constructed and started, when the session has
    resumed the channel. *)
Definition opened : protocol_electrum_version :=
  shake (Code network_category 1) false (Protocol channel_default false false false [] []).

(** A send has completed. *)
Definition completed (p : protocol_electrum_version) : protocol_electrum_version :=
  Protocol (channel_ p) (handler_ p) (paused p) (is_stopped p) (tail (pending p)) (actions p).

(** [resume()]. *)
Definition resume (p : protocol_electrum_version) : protocol_electrum_version :=
  Protocol (channel_ p) (handler_ p) false (is_stopped p) (pending p) (actions p).

(** ** Transitions *)

(** The handshake has completed without error. *)
Definition passed (p : protocol_electrum_version) : Prop := shaken success_code ∈ actions p.

Inductive step : protocol_electrum_version → protocol_electrum_version → Prop :=
  (* Requests are received unless the channel is paused or stopped. *)
  | step_server_version p client value :
      is_stopped p = false → paused p = false →
      step p (handle_server_version success_code client value p)
  | step_unclaimed p :
      is_stopped p = false → paused p = false → step p (handle_unclaimed p)
  (* The oldest send completes, with any code. *)
  | step_finished p ec s :
      head (pending p) = Some s → step p (finished ec s (completed p))
  (* The session resumes the channel of a completed handshake. *)
  | step_resume p :
      is_stopped p = false → handler_ p = false → passed p → step p (resume p)
  | step_stop p ec : step p (stop ec p).

Definition reachable (p : protocol_electrum_version) : Prop := rtc step opened p.

(** ** The invariant *)

Definition shakes (p : protocol_electrum_version) : nat :=
  length (List.filter (λ a, match a with shaken _ => true | _ => false end) (actions p)).

(** A version that may be negotiated. *)
Definition negotiable (c : channel_electrum) : Prop :=
  version_ c ≠ v0_0 ∧
  version_leb (protocol_minimum options) (version_to_number (version_ c)) = true ∧
  version_leb (version_to_number (version_ c)) (protocol_maximum options) = true ∧
  (restricted_ c = true → version_before v1_4_2 (version_ c) = false).

Record handshake_ok (p : protocol_electrum_version) : Prop := {
  (** The completion handler is invoked once, and then forgotten. *)
  ok_shakes : shakes p = if handler_ p then 0%nat else 1%nat;
  (** A channel that waits for an opener has none of the channel state. *)
  ok_waiting : handler_ p = true → paused p = false →
    negotiated_ (channel_ p) = false ∧ restricted_ (channel_ p) = false ∧ pending p = [];
  (** A negotiated version is valid. *)
  ok_negotiated : negotiated_ (channel_ p) = true → negotiable (channel_ p);
  (** A pending success, while waiting, is that of a negotiation. *)
  ok_pending : handler_ p = true →
    (success_code ∈ pending p → negotiated_ (channel_ p) = true) ∧
    restricted_ (channel_ p) = false;
  ok_passed : passed p →
    negotiated_ (channel_ p) = true ∨
    (restricted_ (channel_ p) = true ∧
      version_ (channel_ p) = version_floor (protocol_minimum options));
}.

(** ** Lemmas *)

Context `{!ConfigVersionLaws}.

Lemma shakes_snoc a l :
  length (List.filter (λ a, match a with shaken _ => true | _ => false end) (l ++ [a])%list) =
    (length (List.filter (λ a, match a with shaken _ => true | _ => false end) l) +
     match a with shaken _ => 1 | _ => 0 end)%nat.
Proof. rewrite List.filter_app, length_app. by destruct a. Qed.

(** What [set_version] leaves, when it succeeds and when it fails. *)
Lemma set_version_cases value p ok p' :
  set_version value p = (ok, p') →
  (ok = false ∧ p' = p) ∨
  (ok = true ∧ ∃ v,
    p' = with_channel (set_negotiated (set_channel_version v (channel_ p))) p ∧
    negotiable (channel_ p') ∧
    (negotiated_ (channel_ p) = true → v = version_ (channel_ p))).
Proof.
  unfold set_version. destruct (bool_decide _ || _) eqn:Hb; intros [= <- <-]; [by left|].
  right. split; [done|]. eexists. split; [done|].
  apply orb_false_iff in Hb as [Hz%bool_decide_eq_false Hn]. split.
  - apply negotiate_bounds in Hz as Hbounds. destruct Hbounds as [Hlow Hup].
    split_and!; simpl; [done|done| |].
    + destruct (restricted_ (channel_ p)); [|done]. by apply version_min_leb in Hup as [? _].
    + intros Hr. rewrite Hr in *. apply version_min_leb in Hup as [_ Hup].
      rewrite version_to_number_leb in Hup. apply Z.leb_le in Hup.
      apply Z.ltb_ge. exact Hup.
  - intros Hneg. rewrite Hneg in Hn. simpl in Hn.
    by apply negb_false_iff, bool_decide_eq_true in Hn.
Qed.

Lemma passed_snoc a p : a ≠ shaken success_code → passed (act a p) → passed p.
Proof.
  unfold passed, act. simpl. intros Ha [|Hin%list_elem_of_singleton]%elem_of_app; congruence.
Qed.

Lemma opened_ok : handshake_ok opened.
Proof.
  split; [done|done|done| |by intros ?%not_elem_of_nil].
  intros _. split; [by intros ?%not_elem_of_nil|done].
Qed.

(** A response that is not a completion leaves all but the pending sends. *)
Lemma send_ok a s p :
  (∀ ec, a ≠ shaken ec) → handshake_ok p → paused p = true ∨ handler_ p = false →
  (handler_ p = true → s = success_code → negotiated_ (channel_ p) = true) →
  handshake_ok (send a s p).
Proof.
  intros Ha Hp Hwait Hs. split; simpl.
  - unfold shakes. simpl. rewrite shakes_snoc. fold (shakes p). rewrite (ok_shakes p Hp).
    destruct a; [destruct (handler_ p); lia..|by destruct (Ha ec)|destruct (handler_ p); lia].
  - intros. destruct Hwait; congruence.
  - apply (ok_negotiated p Hp).
  - intros Hh. destruct (ok_pending p Hp Hh) as [Hpend Hr]. split; [|done].
    intros [Hin|<-%list_elem_of_singleton]%elem_of_app; auto.
  - intros Hpass. apply (ok_passed p Hp). eapply passed_snoc; [|exact Hpass]. apply Ha.
Qed.

Lemma stop_ok ec p : handshake_ok p → handshake_ok (stop ec p).
Proof.
  intros Hp. split; simpl; [|apply Hp..|].
  - unfold shakes. simpl. rewrite shakes_snoc. fold (shakes p). rewrite (ok_shakes p Hp). lia.
  - intros Hpass. apply (ok_passed p Hp). by eapply passed_snoc; [|exact Hpass].
Qed.

(** The completion of a handshake, and any later one. *)
Lemma finished_ok ec s p :
  handshake_ok p → paused p = true ∨ handler_ p = false →
  (s = success_code → handler_ p = true → negotiated_ (channel_ p) = true ∨
    (restricted_ (channel_ p) = true ∧
      version_ (channel_ p) = version_floor (protocol_minimum options))) →
  handshake_ok (finished ec s p).
Proof.
  intros Hp Hwait Hs. unfold finished. destruct (stopped ec p); [done|].
  destruct (handler_ p) eqn:Hh; [|done]. split; simpl; [| |apply Hp|done|].
  - unfold shakes. simpl. rewrite shakes_snoc. fold (shakes p). by rewrite (ok_shakes p Hp), Hh.
  - done.
  - intros [Hin|Heq%list_elem_of_singleton]%elem_of_app; [by apply (ok_passed p Hp)|].
    injection Heq as <-. by apply Hs.
Qed.

Lemma handle_unclaimed_ok p :
  handshake_ok p → is_stopped p = false → paused p = false →
  handshake_ok (handle_unclaimed p).
Proof.
  intros Hp Hs Hpause. unfold handle_unclaimed. destruct (handler_ p) eqn:Hh; [|done].
  destruct (ok_waiting p Hp Hh Hpause) as (Hneg & _ & _).
  unfold finished, stopped. simpl. rewrite Hs, Hh. simpl. split; simpl; [|done| |done|].
  - unfold shakes. simpl. rewrite shakes_snoc. fold (shakes p). by rewrite (ok_shakes p Hp), Hh.
  - congruence.
  - intros _. by right.
Qed.

(** Pausing a waiting channel matters to no other state. *)
Lemma pause_ok p : handshake_ok p → handshake_ok (if handler_ p then pause p else p).
Proof.
  intros Hp. destruct (handler_ p) eqn:Hh; [|done].
  split; simpl; [apply Hp|done|apply Hp..].
Qed.

(** A change of the client's name, or of the version by negotiation. *)
Lemma with_channel_ok c p :
  handshake_ok p → paused p = true ∨ handler_ p = false →
  restricted_ c = restricted_ (channel_ p) →
  (negotiated_ (channel_ p) = true → negotiated_ c = true) →
  (negotiated_ c = true → negotiable c) →
  (negotiated_ c = false → version_ c = version_ (channel_ p)) →
  handshake_ok (with_channel c p).
Proof.
  intros Hp Hwait Hr Hn Hv Hver. split; simpl.
  - apply Hp.
  - intros. destruct Hwait; congruence.
  - done.
  - intros Hh. destruct (ok_pending p Hp Hh). rewrite Hr. auto.
  - intros [|[? ?]]%(ok_passed p Hp); [auto|].
    destruct (negotiated_ c) eqn:Hc; [by left|]. right. rewrite Hr, Hver; auto.
Qed.

Lemma handle_server_version_ok client value p :
  handshake_ok p → handshake_ok (handle_server_version success_code client value p).
Proof.
  intros Hp0. pose proof (pause_ok p Hp0) as Hp.
  unfold handle_server_version. destruct (stopped _ p); [done|]. clear Hp0.
  set (p1 := if handler_ p then pause p else p) in *.
  assert (paused p1 = true ∨ handler_ p1 = false) as Hwait
    by (subst p1; destruct (handler_ p) eqn:?; auto).
  clearbody p1. destruct (negotiated_ (channel_ p1) && _) eqn:Hneg.
  { apply andb_prop in Hneg as [Hneg _]. by apply send_ok. }
  cbn [set_client]. set (p2 := with_channel _ p1).
  assert (handshake_ok p2) as Hp2.
  { apply with_channel_ok; [done|done|done|done| |done]. exact (ok_negotiated p1 Hp). }
  destruct (set_version value p2) as [ok p3] eqn:Hset.
  apply set_version_cases in Hset as [[-> ->]|(-> & v & -> & Hv & _)]; cbn [negb].
  - destruct (handler_ p2) eqn:Hh; [|by apply stop_ok]. apply send_ok; [done..|].
    intros _. unfold bad_request, success_code. done.
  - apply send_ok; [done| |done|done]. by apply with_channel_ok.
Qed.

Lemma step_ok p p' : handshake_ok p → step p p' → handshake_ok p'.
Proof.
  intros Hp. destruct 1 as [p client value|p|p ec s Hpend|p Hs Hh Hpass|p ec].
  - by apply handle_server_version_ok.
  - by apply handle_unclaimed_ok.
  - apply finished_ok; simpl.
    + split; simpl; [apply Hp| |apply Hp| |apply Hp].
      * intros Hh Hpause. destruct (ok_waiting p Hp Hh Hpause) as (_ & _ & Hnil). by rewrite Hnil in Hpend.
      * intros Hh. destruct (ok_pending p Hp Hh) as [Hin Hr]. split; [|done].
        intros Hrest. apply Hin. destruct (pending p); [done|]. by apply list_elem_of_further.
    + destruct (paused p) eqn:Hpause, (handler_ p) eqn:Hh; auto.
      destruct (ok_waiting p Hp Hh Hpause) as (_ & _ & Hnil). by rewrite Hnil in Hpend.
    + intros -> Hh. left. apply (ok_pending p Hp Hh).
      destruct (pending p); simplify_eq/=. apply list_elem_of_here.
  - split; simpl; [apply Hp|congruence|apply Hp|congruence|apply Hp].
  - by apply stop_ok.
Qed.

Lemma reachable_ok p : reachable p → handshake_ok p.
Proof.
  intros Hr. eapply rtc_preserves; [|exact Hr|apply opened_ok].
  intros x y. apply step_ok.
Qed.

(** The negotiated version is kept by every step. *)
Lemma step_version p p' :
  handshake_ok p → step p p' → negotiated_ (channel_ p) = true →
  negotiated_ (channel_ p') = true ∧ version_ (channel_ p') = version_ (channel_ p).
Proof.
  intros Hp Hstep Hneg. destruct Hstep as [p client value|p Hs Hpause|p ec s|p|p ec];
    [| | |done|done].
  - unfold handle_server_version. destruct (stopped _ p); [done|].
    set (p1 := if handler_ p then pause p else p).
    assert (channel_ p1 = channel_ p) as Hc by (subst p1; by destruct (handler_ p)).
    rewrite Hc. destruct (negotiated_ (channel_ p) && _); [by simpl; rewrite Hc|].
    cbn [set_client]. destruct (set_version _ _) as [ok p3] eqn:Hset.
    apply set_version_cases in Hset as [[-> ->]|(-> & v & -> & _ & Hv)]; cbn [negb].
    + simpl. destruct (handler_ p1); simpl; by rewrite Hc.
    + simpl in *. rewrite Hc in *. auto.
  - unfold handle_unclaimed. destruct (handler_ p) eqn:Hh; [|done].
    destruct (ok_waiting p Hp Hh Hpause); congruence.
  - unfold finished. repeat case_match; done.
Qed.

End Handshake.

(** ** Properties *)

(** C21: in every reachable state the completion handler of the handshake has been
    invoked at most once, and is held exactly until then; a handshake that has
    passed has either negotiated a version or admitted a pre-1.6 client at the
    floor of the configured minimum. *)
Theorem handshake_completes_once `{ConfigVersionLaws} `{Characters} options p :
  reachable options p →
  shakes p = (if handler_ p then 0%nat else 1%nat) ∧
  (passed p → negotiated_ (channel_ p) = true ∨
    (restricted_ (channel_ p) = true ∧
      version_ (channel_ p) = version_floor (protocol_minimum options))).
Proof. by intros [Hshakes _ _ _ Hpassed]%reachable_ok. Qed.

(** A version that a channel has negotiated is a valid one within the
    configured range, and at most 1.4.2 if the client opened with another
    request, whatever the client sent and in whatever order. *)
Lemma negotiated_version_valid `{ConfigVersionLaws} `{Characters} options p :
  reachable options p → negotiated_ (channel_ p) = true → negotiable options (channel_ p).
Proof. by intros [_ _ Hvalid _ _]%reachable_ok. Qed.

(** Once negotiated, a channel's version never changes. *)
Lemma negotiated_version_fixed `{ConfigVersionLaws} `{Characters} options p p' :
  reachable options p → rtc (step options) p p' → negotiated_ (channel_ p) = true →
  negotiated_ (channel_ p') = true ∧ version_ (channel_ p') = version_ (channel_ p).
Proof.
  intros Hr Hsteps Hneg. pose proof (reachable_ok options p Hr) as Hp. clear Hr.
  revert Hp Hneg.
  induction Hsteps as [p|p q r Hstep _ IH]; intros Hp Hneg; [done|].
  destruct (step_version options p q Hp Hstep Hneg) as [Hn <-].
  apply IH; [by eapply step_ok|done].
Qed.

(** C22: a client whose opening request is a server.version with an overlapping
    range is answered with the negotiated version; whatever happens next is the
    completion of that response or the stop of the channel; and when the response
    is sent the client has passed the handshake and its channel can resume. *)
Theorem handshake_progress `{ConfigVersionLaws} `{Characters} options (client : string) value :
  let v := negotiate value (protocol_minimum options) (protocol_maximum options) in
  let p := handle_server_version options success_code client value opened in
  v ≠ v0_0 →
  channel_ p = Channel v (escape_client (String.substring 0 maximum_client_name client))
    false true ∧
  actions p = [sent_result (version_result v (server_name options))] ∧
  (∀ p', step options p p' →
    is_stopped p' = true ∨ ∃ ec, p' = finished ec success_code (completed p)) ∧
  (∀ ec, is_error ec = false →
    let q := finished ec success_code (completed p) in
    step options p q ∧ actions q = (actions p ++ [shaken success_code])%list ∧
    channel_ q = channel_ p ∧ pending q = [] ∧ step options q (resume q) ∧
    paused (resume q) = false ∧ is_stopped (resume q) = false).
Proof.
  intros v p Hv.
  assert (p = Protocol (Channel v (escape_client (String.substring 0 maximum_client_name client))
    false true) true true false [success_code]
    [sent_result (version_result v (server_name options))]) as ->.
  { subst p. unfold handle_server_version, set_version. simpl. fold v.
    by rewrite bool_decide_eq_false_2. }
  split_and!; [done|done| |].
  - intros p' Hstep. inversion Hstep; simplify_eq/=; eauto.
  - intros ec Hec q. assert (q = Protocol (Channel v
      (escape_client (String.substring 0 maximum_client_name client)) false true)
      false true false [] [sent_result (version_result v (server_name options));
        shaken success_code]) as Hq.
    { subst q. unfold finished, stopped. simpl. by rewrite Hec. }
    split; [by apply step_finished|]. rewrite Hq. split_and!; [done..| |done|done].
    apply step_resume; [done..|]. unfold passed. simpl. set_solver.
Qed.

(** ** Witnesses *)

Definition example_options : handshake_options :=
  Options (make_version 1 0 0 0) (make_version 1 7 0 0) "/libbitcoin/".

(** A client that opens with [server.version("electrum", "1.4")]. *)
Definition example_state : protocol_electrum_version :=
  handle_server_version example_options success_code "electrum" (string_t "1.4") opened.

Lemma example_reachable : reachable example_options example_state.
Proof. apply rtc_once. by apply step_server_version. Qed.

Lemma handshake_completes_once_witness : shakes example_state = 0%nat.
Proof. apply (handshake_completes_once example_options), example_reachable. Defined.

Lemma negotiated_version_valid_witness :
  negotiable example_options (channel_ example_state) ∧ version_ (channel_ example_state) = v1_4.
Proof.
  split; [|vm_compute; reflexivity].
  apply negotiated_version_valid; [apply example_reachable|vm_compute; reflexivity].
Defined.

(** The response to that client is sent. *)
Lemma handshake_progress_witness :
  version_ (channel_ (handle_server_version example_options success_code "electrum"
    (array_t [string_t "1.4"; string_t "2.0"]) opened)) = v1_7.
Proof.
  destruct (handshake_progress example_options "electrum"
    (array_t [string_t "1.4"; string_t "2.0"])) as [Hc _].
  { vm_compute. discriminate. }
  rewrite Hc. vm_compute. reflexivity.
Defined.
