(* ===== verification/Merkle.v ===== *)
(** The bip37 partial merkle tree (src/utilities/merkle.cpp): construction of
    the flags and branch hashes that prove a set of transactions of a block, and
    extraction of the root and the proven transactions.

    Sizes are natural numbers; [merkle_arithmetic] bounds those that occur, so
    that none wraps for a block of at most 2^62 transactions. An access out of
    the bounds of a vector ([at]) is [None]. *)
From S2P Require Import Prelude Rpc.

(** The functions of the system library that the component uses. *)
Class MerkleMath := {
  ceilinged_divide : nat → nat → nat;
  power2 : nat → nat;
  to_floored_bytes : nat → nat;
  to_ceilinged_bytes : nat → nat;
  get_right : Z → nat → bool;
  set_right_into : Z → nat → bool → Z;
  merkle_root : list hash_digest → hash_digest;
}.

Definition byte_bits : nat := 8.

Class MerkleMathLaws `{MerkleMath} := {
  (** Division rounds up. *)
  ceilinged_divide_lt a b q :
    (0 < b)%nat → (q < ceilinged_divide a b ↔ q * b < a)%nat;
  power2_pow n : (n < 64)%nat → power2 n = (2 ^ n)%nat;
  to_floored_bytes_div bits : to_floored_bytes bits = (bits / 8)%nat;
  to_ceilinged_bytes_div bits : to_ceilinged_bytes bits = ((bits + 7) / 8)%nat;
  (** The bits of a byte, counted from the least significant. *)
  get_right_zero bit : get_right 0 bit = false;
  get_right_set byte bit b bit' :
    (bit < 8)%nat → (bit' < 8)%nat →
    get_right (set_right_into byte bit b) bit' =
      if (bit =? bit')%nat then b else get_right byte bit';
}.

Section Merkle.
Context `{MerkleMath}.

(** ** Operations *)

Definition tree_width (txs height : nat) : nat := ceilinged_divide txs (power2 height).

Definition node_hash (left right : hash_digest) : hash_digest := merkle_root [left; right].

Fixpoint calc_hash (height pos : nat) (txids : list hash_digest) : option hash_digest :=
  match height with
  | O => txids !! pos
  | S height =>
      left_ ← calc_hash height (pos * 2) txids;
      right_ ←
        (if (pos * 2 + 1 <? tree_width (length txids) height)%nat
         then calc_hash height (pos * 2 + 1) txids
         else Some left_);
      Some (node_hash left_ right_)
  end.

(** The loop over the leaves that a node covers. *)
Fixpoint any_match (match_ : list bool) (leaf count : nat) (parent_of_match : bool) :
    option bool :=
  match count with
  | O => Some parent_of_match
  | S count =>
      b ← match_ !! leaf;
      any_match match_ (S leaf) count (parent_of_match || b)
  end.

Fixpoint traverse_build (height pos : nat) (txids : list hash_digest)
    (match_ : list bool) (bits : list bool) (branch : list hash_digest) :
    option (list bool * list hash_digest) :=
  let width := power2 height in
  let first := (pos * width)%nat in
  let past := Nat.min ((pos + 1) * width) (length txids) in
  parent_of_match ← any_match match_ first (past - first) false;
  let bits := (bits ++ [parent_of_match])%list in
  match height with
  | O =>
      hash ← calc_hash height pos txids;
      Some (bits, branch ++ [hash])%list
  | S height' =>
      if negb parent_of_match then
        hash ← calc_hash height pos txids;
        Some (bits, branch ++ [hash])%list
      else
        '(bits, branch) ← traverse_build height' (pos * 2) txids match_ bits branch;
        if (pos * 2 + 1 <? tree_width (length txids) height')%nat
        then traverse_build height' (pos * 2 + 1) txids match_ bits branch
        else Some (bits, branch)
  end.

(** The variables that [traverse_extract] updates through references. *)
Record extraction := Extraction {
  bit : nat;
  used : nat;
  matched : list hash_digest;
  positions : list nat;
  bad : bool;
}.

Definition set_bad (e : extraction) : extraction :=
  Extraction (bit e) (used e) (matched e) (positions e) true.

(** [hash_digest{}]. *)
Definition null_hash : hash_digest := replicate 32 0.

Fixpoint traverse_extract (height pos txs : nat) (bits : list bool)
    (branch : list hash_digest) (e : extraction) : hash_digest * extraction :=
  match (bits !! bit e : option bool) with
  | None => (null_hash, set_bad e)
  | Some parent_of_match =>
      let e := Extraction (S (bit e)) (used e) (matched e) (positions e) (bad e) in
      match height with
      | O =>
          match (branch !! used e : option hash_digest) with
          | None => (null_hash, set_bad e)
          | Some hash =>
              if parent_of_match
              then (hash, Extraction (bit e) (S (used e)) (matched e ++ [hash])%list
                     (positions e ++ [pos])%list (bad e))
              else (hash, Extraction (bit e) (S (used e)) (matched e) (positions e) (bad e))
          end
      | S height' =>
          if negb parent_of_match then
            match (branch !! used e : option hash_digest) with
            | None => (null_hash, set_bad e)
            | Some hash =>
                (hash, Extraction (bit e) (S (used e)) (matched e) (positions e) (bad e))
            end
          else
            let '(left_, e) := traverse_extract height' (pos * 2) txs bits branch e in
            if (pos * 2 + 1 <? tree_width txs height')%nat then
              let '(right_, e) := traverse_extract height' (pos * 2 + 1) txs bits branch e in
              (node_hash left_ right_, if bool_decide (right_ = left_) then set_bad e else e)
            else (node_hash left_ left_, e)
      end
  end.

(** The loops over bits, with [at] in bounds. *)
Definition bytes_to_bits (bytes : data_chunk) : list bool :=
  (λ bit, get_right (default 0 (bytes !! to_floored_bytes bit)) (bit mod byte_bits)) <$>
    seq 0 (length bytes * byte_bits).

Fixpoint bits_to_bytes_loop (bits : list bool) (bit : nat) (bytes : data_chunk) : data_chunk :=
  match bits with
  | [] => bytes
  | b :: bits =>
      let index := to_floored_bytes bit in
      bits_to_bytes_loop bits (S bit)
        (<[index := set_right_into (default 0 (bytes !! index)) (bit mod byte_bits) b]> bytes)
  end.

Definition bits_to_bytes (bits : list bool) : data_chunk :=
  bits_to_bytes_loop bits 0 (replicate (to_ceilinged_bytes (length bits)) 0).

(** [None] if the loop has not ended within the fuel. *)
Fixpoint tree_height_loop (fuel txs height : nat) : option nat :=
  if (1 <? tree_width txs height)%nat then
    match fuel with
    | O => None
    | S fuel => tree_height_loop fuel txs (S height)
    end
  else Some height.

(** A size has 64 bits: the loop ends within 63 steps, see [tree_height_ok]. *)
Definition tree_height (txs : nat) : option nat := tree_height_loop 63 txs 0.

Definition build_partial_merkle (txids : list hash_digest) (match_ : list bool) :
    option (data_chunk * list hash_digest) :=
  height ← tree_height (length txids);
  '(bits, branch) ← traverse_build height 0 txids match_ [] [];
  Some (bits_to_bytes bits, branch).

(** [None] if the height does not exist, and otherwise the returned flag with
    the caller's variables: the root, which an early return leaves as it is, the
    matched transactions and their positions. *)
Definition extract_partial_merkle (root : hash_digest) (txs : nat) (flags : data_chunk)
    (branch : list hash_digest) :
    option (bool * hash_digest * list hash_digest * list nat) :=
  let bits := bytes_to_bits flags in
  if (txs =? 0)%nat || (txs <? length branch)%nat || (length bits <? length branch)%nat
  then Some (false, root, [], [])
  else
    height ← tree_height txs;
    let '(root, e) :=
      traverse_extract height 0 txs bits branch (Extraction 0 0 [] [] false) in
    Some (negb (bad e) && (used e =? length branch)%nat &&
        (to_ceilinged_bytes (bit e) =? to_ceilinged_bytes (length bits))%nat,
      root, matched e, positions e).

(** ** Arithmetic of the tree *)

Context `{!MerkleMathLaws}.

(** The key to the shape: a node exists if its first leaf does. *)
Lemma lt_tree_width txs height pos :
  (height < 64)%nat → (pos < tree_width txs height ↔ pos * 2 ^ height < txs)%nat.
Proof.
  intros Hh. unfold tree_width. rewrite power2_pow by done.
  apply ceilinged_divide_lt. pose proof (Nat.pow_nonzero 2 height). lia.
Qed.

Lemma tree_height_loop_ok fuel txs height :
  (txs <= 2 ^ (fuel + height) → fuel + height < 64 →
   (height = 0 ∨ 2 ^ (height - 1) < txs) →
   ∃ h, tree_height_loop fuel txs height = Some h ∧
     txs <= 2 ^ h ∧ h <= fuel + height ∧ (h = 0 ∨ 2 ^ (h - 1) < txs))%nat.
Proof.
  revert height. induction fuel as [|fuel IH]; intros height Htxs Hlt Hlow; simpl;
    destruct (Nat.ltb_spec 1 (tree_width txs height)) as [Hw|Hw].
  - apply lt_tree_width in Hw; simpl in *; lia.
  - exists height. split_and!; [done| |lia|done]. simpl in Htxs. lia.
  - apply lt_tree_width in Hw; [|lia].
    destruct (IH (S height)) as (h & Hh & Hle & Hb & Hl).
    + by rewrite Nat.add_succ_r.
    + lia.
    + right. replace (S height - 1)%nat with height by lia. lia.
    + exists h. split_and!; [done|done|lia|done].
  - exists height. split_and!; [done| |lia|done].
    destruct (Nat.le_gt_cases txs (2 ^ height)) as [|Hgt]; [done|].
    exfalso. apply (Nat.lt_irrefl 1), (Nat.lt_le_trans _ (tree_width txs height)); [|done].
    apply lt_tree_width; lia.
Qed.

Lemma size_bound n : Z.of_nat n <= 2 ^ 62 → (n <= 2 ^ 63)%nat.
Proof.
  intros Hn. apply Nat2Z.inj_le. rewrite Nat2Z.inj_pow. etransitivity; [exact Hn|].
  apply Z.pow_le_mono_r; lia.
Qed.

Lemma tree_height_ok txs :
  (txs <= 2 ^ 63 →
   ∃ h, tree_height txs = Some h ∧ h <= 63 ∧ txs <= 2 ^ h ∧ (h = 0 ∨ 2 ^ (h - 1) < txs))%nat.
Proof.
  intros Htxs. unfold tree_height.
  destruct (tree_height_loop_ok 63 txs 0) as (h & ? & ? & ? & ?); [|lia|by left|].
  - by rewrite Nat.add_0_r.
  - exists h. split_and!; [done|lia|done|done].
Qed.

(** ** The leaves of a node *)

Section Block.
Context (txids : list hash_digest) (match_ : list bool).
Abbreviation txs := (length txids).

Definition leaves (height pos : nat) : list nat :=
  seq (pos * 2 ^ height) (Nat.min ((pos + 1) * 2 ^ height) txs - pos * 2 ^ height).

Lemma leaves_leaf pos : (pos < txs)%nat → leaves 0 pos = [pos].
Proof.
  intros Hpos. unfold leaves. rewrite Nat.pow_0_r, !Nat.mul_1_r.
  by replace (Nat.min (pos + 1) txs - pos)%nat with 1%nat by lia.
Qed.

(** The leaves of a parent are those of its children. *)
Lemma leaves_both height pos :
  ((pos * 2 + 1) * 2 ^ height < txs)%nat →
  leaves (S height) pos = (leaves height (pos * 2) ++ leaves height (pos * 2 + 1))%list.
Proof.
  intros Hlt. unfold leaves. rewrite Nat.pow_succ_r'.
  set (w := (2 ^ height)%nat) in *. clearbody w.
  replace ((pos * 2 + 1) * w)%nat with
    (pos * 2 * w + (Nat.min ((pos * 2 + 1) * w) txs - pos * 2 * w))%nat at 2 by lia.
  rewrite <-seq_app. f_equal; lia.
Qed.

Lemma leaves_left height pos :
  (txs <= (pos * 2 + 1) * 2 ^ height)%nat → leaves (S height) pos = leaves height (pos * 2).
Proof.
  intros Hle. unfold leaves. rewrite Nat.pow_succ_r'.
  set (w := (2 ^ height)%nat) in *. clearbody w. f_equal; lia.
Qed.

(** The matched leaves of a node, in order. *)
Definition selected (height pos : nat) : list nat :=
  filter (λ i, match_ !! i = Some true) (leaves height pos).

Lemma any_match_spec leaf count b :
  (leaf + count <= length match_)%nat →
  any_match match_ leaf count b =
    Some (b || existsb (λ i, bool_decide (match_ !! i = Some true)) (seq leaf count)).
Proof.
  revert leaf b. induction count as [|count IH]; intros leaf b Hle; simpl.
  - by rewrite orb_false_r.
  - destruct (lookup_lt_is_Some_2 match_ leaf) as [m Hm]; [lia|]. rewrite Hm. simpl.
    rewrite IH by lia. rewrite orb_assoc. do 3 f_equal. by destruct m.
Qed.

Lemma existsb_filter_nil (P : nat → Prop) `{∀ i, Decision (P i)} l :
  existsb (λ i, bool_decide (P i)) l = false ↔ filter P l = [].
Proof.
  induction l as [|i l IH]; simpl; [done|]. rewrite filter_cons.
  destruct (decide (P i)) as [Hi|Hi].
  - rewrite bool_decide_eq_true_2 by done. done.
  - by rewrite bool_decide_eq_false_2.
Qed.

Lemma any_match_leaves height pos :
  (length match_ = txs → height < 64 → pos * 2 ^ height < txs →
   any_match match_ (pos * power2 height)
    (Nat.min ((pos + 1) * power2 height) txs - pos * power2 height) false =
   Some (negb (bool_decide (selected height pos = []))))%nat.
Proof.
  intros Hlen Hh Hpos. rewrite power2_pow by done. rewrite any_match_spec by lia.
  unfold selected. f_equal. fold (leaves height pos). simpl.
  destruct (existsb _ _) eqn:He.
  - rewrite bool_decide_eq_false_2; [done|]. intros Hn.
    apply existsb_filter_nil in Hn. congruence.
  - apply existsb_filter_nil in He. by rewrite bool_decide_eq_true_2.
Qed.

Lemma calc_hash_total height pos :
  (height < 64 → pos * 2 ^ height < txs →
   ∃ x, calc_hash height pos txids = Some x)%nat.
Proof.
  revert pos. induction height as [|height IH]; intros pos Hh Hpos.
  - apply lookup_lt_is_Some_2. simpl in Hpos. lia.
  - rewrite Nat.pow_succ_r' in Hpos. cbn [calc_hash].
    destruct (IH (pos * 2)%nat) as [l Hl]; [lia|lia|]. rewrite Hl. cbn [mbind option_bind].
    destruct (Nat.ltb_spec (pos * 2 + 1) (tree_width txs height)) as [Hw|Hw];
      [|eexists; reflexivity].
    apply lt_tree_width in Hw; [|lia].
    destruct (IH (pos * 2 + 1)%nat) as [r Hr]; [lia|done|]. rewrite Hr. eexists; reflexivity.
Qed.

(** ** Build and extract

    Sibling subtrees of the block have distinct hashes. *)
Definition siblings_distinct : Prop :=
  ∀ height pos l r,
    (height < 64)%nat → ((pos * 2 + 1) * 2 ^ height < txs)%nat →
    calc_hash height (pos * 2) txids = Some l →
    calc_hash height (pos * 2 + 1) txids = Some r → r ≠ l.

(** The extraction that a node's bits [B] and hashes [R] lead to. *)
Definition extracted (height pos : nat) (B : list bool) (R : list hash_digest)
    (e : extraction) : extraction :=
  Extraction (bit e + length B) (used e + length R)
    (matched e ++ omap (λ i, txids !! i) (selected height pos))
    (positions e ++ selected height pos) (bad e).

(** What the construction of a node appends, and how extraction reads it. *)
Record node_proof (height pos : nat) (B : list bool) (R : list hash_digest) : Prop := {
  proof_built bits branch :
    traverse_build height pos txids match_ bits branch = Some (bits ++ B, branch ++ R)%list;
  proof_leaves : (length R <= length (leaves height pos))%nat;
  proof_bits : (length R <= length B)%nat;
  proof_extracted x bits bits' branch branch' e :
    calc_hash height pos txids = Some x →
    bit e = length bits → used e = length branch →
    traverse_extract height pos txs (bits ++ B ++ bits') (branch ++ R ++ branch') e =
      (x, extracted height pos B R e);
}.

Lemma traverse_leaf pos x :
  length match_ = txs → (pos < txs)%nat → txids !! pos = Some x →
  node_proof 0 pos [negb (bool_decide (selected 0 pos = []))] [x].
Proof.
  intros Hlen Hpos Hx.
  assert (pos * 2 ^ 0 < txs)%nat as Hfirst by (simpl; lia).
  split.
  - intros bits branch. cbn [traverse_build calc_hash].
    rewrite any_match_leaves by (done || lia). cbn [mbind option_bind]. by rewrite Hx.
  - by rewrite leaves_leaf.
  - done.
  - intros y bits bits' branch branch' e [= <-]%(eq_trans (eq_sym Hx)) Hb Hu. cbn [traverse_extract].
    rewrite Hb. simpl. rewrite list_lookup_middle by done. cbn [used].
    rewrite Hu, list_lookup_middle by done. unfold extracted. rewrite Hb, Hu.
    unfold selected. rewrite leaves_leaf by done. rewrite filter_cons, filter_nil.
    destruct (decide (match_ !! pos = Some true)); simpl; rewrite ?Hx; simpl;
      rewrite ?app_nil_r, !Nat.add_1_r; done.
Qed.

(** A node with no match below it is its hash. *)
Lemma traverse_pruned height pos x :
  length match_ = txs → (S height < 64)%nat → (pos * 2 ^ S height < txs)%nat →
  calc_hash (S height) pos txids = Some x → selected (S height) pos = [] →
  node_proof (S height) pos [false] [x].
Proof.
  intros Hlen Hh Hpos Hx Hnone. split.
  - intros bits branch. unfold traverse_build. fold traverse_build.
    rewrite any_match_leaves by done. rewrite bool_decide_eq_true_2 by done.
    cbn [mbind option_bind negb]. by rewrite Hx.
  - unfold leaves. rewrite length_seq. set (w := (2 ^ S height)%nat) in *. simpl.
    assert (w ≠ 0)%nat by (subst w; apply Nat.pow_nonzero; lia). clearbody w. lia.
  - done.
  - intros y bits bits' branch branch' e [= <-]%(eq_trans (eq_sym Hx)) Hb Hu.
    cbn [traverse_extract]. rewrite Hb. simpl. rewrite list_lookup_middle by done.
    cbn [used negb]. rewrite Hu, list_lookup_middle by done.
    unfold extracted. rewrite Hb, Hu, Hnone. simpl. by rewrite !app_nil_r, !Nat.add_1_r.
Qed.

(** The first bit of a node with a match below it, both ways. *)
Lemma traverse_build_parent height pos bits branch :
  length match_ = txs → (S height < 64)%nat → (pos * 2 ^ S height < txs)%nat →
  selected (S height) pos ≠ [] →
  traverse_build (S height) pos txids match_ bits branch =
    ('(bits, branch) ← traverse_build height (pos * 2) txids match_ (bits ++ [true])%list branch;
     if (pos * 2 + 1 <? tree_width txs height)%nat
     then traverse_build height (pos * 2 + 1) txids match_ bits branch
     else Some (bits, branch)).
Proof.
  intros Hlen Hh Hpos Hsel. cbn [traverse_build].
  rewrite any_match_leaves by done. by rewrite bool_decide_eq_false_2.
Qed.

Lemma traverse_extract_parent height pos bits B branch e :
  bit e = length bits →
  traverse_extract (S height) pos txs (bits ++ true :: B) branch e =
    (let e := Extraction (S (bit e)) (used e) (matched e) (positions e) (bad e) in
     let '(left_, e) :=
       traverse_extract height (pos * 2) txs (bits ++ true :: B) branch e in
     if (pos * 2 + 1 <? tree_width txs height)%nat then
       let '(right_, e) :=
         traverse_extract height (pos * 2 + 1) txs (bits ++ true :: B) branch e in
       (node_hash left_ right_, if bool_decide (right_ = left_) then set_bad e else e)
     else (node_hash left_ left_, e)).
Proof. intros Hb. cbn [traverse_extract]. rewrite Hb. by rewrite list_lookup_middle. Qed.

Lemma traverse_both height pos B1 R1 B2 R2 :
  length match_ = txs → siblings_distinct →
  (S height < 64)%nat → ((pos * 2 + 1) * 2 ^ height < txs)%nat →
  selected (S height) pos ≠ [] →
  node_proof height (pos * 2) B1 R1 → node_proof height (pos * 2 + 1) B2 R2 →
  node_proof (S height) pos (true :: B1 ++ B2)%list (R1 ++ R2)%list.
Proof.
  intros Hlen Hdist Hh Hpos Hsel N1 N2.
  assert (Hw : (pos * 2 + 1 <? tree_width txs height)%nat = true)
    by (apply Nat.ltb_lt, lt_tree_width; [lia|done]).
  split.
  - intros bits branch. rewrite traverse_build_parent; [|done|done| |done].
    + rewrite (proof_built _ _ _ _ N1). cbn [mbind option_bind].
      rewrite Hw, (proof_built _ _ _ _ N2). by rewrite <-!(assoc_L (++)).
    + rewrite Nat.pow_succ_r'. lia.
  - rewrite leaves_both by done. rewrite !length_app.
    pose proof (proof_leaves _ _ _ _ N1). pose proof (proof_leaves _ _ _ _ N2). lia.
  - simpl. rewrite !length_app.
    pose proof (proof_bits _ _ _ _ N1). pose proof (proof_bits _ _ _ _ N2). lia.
  - intros x bits bits' branch branch' e Hx Hb Hu. cbn [app]. rewrite traverse_extract_parent by done.
    destruct (calc_hash_total height (pos * 2)) as [l Hl]; [lia|lia|].
    destruct (calc_hash_total height (pos * 2 + 1)) as [r Hr]; [lia|done|].
    assert (x = node_hash l r) as ->.
    { cbn [calc_hash] in Hx. rewrite Hl in Hx. cbn [mbind option_bind] in Hx.
      rewrite Hw, Hr in Hx. by injection Hx. }
    replace (bits ++ true :: (B1 ++ B2) ++ bits')%list
      with ((bits ++ [true]) ++ B1 ++ (B2 ++ bits'))%list by by rewrite <-!(assoc_L (++)).
    rewrite <-(assoc_L (++) R1). cbn zeta.
    rewrite (proof_extracted _ _ _ _ N1 l) by (done || (simpl; rewrite length_app; simpl; lia)).
    rewrite Hw. cbn beta iota.
    replace ((bits ++ [true]) ++ B1 ++ (B2 ++ bits'))%list
      with (((bits ++ [true]) ++ B1) ++ B2 ++ bits')%list by by rewrite <-!(assoc_L (++)).
    rewrite (assoc_L (++) branch R1).
    rewrite (proof_extracted _ _ _ _ N2 r)
      by (done || (simpl; rewrite !length_app; simpl; lia)).
    rewrite bool_decide_eq_false_2 by (apply (Hdist height pos l r); [lia|done..]).
    unfold extracted, selected. rewrite leaves_both by done.
    rewrite filter_app, omap_app. simpl. rewrite !length_app, !(assoc_L (++)).
    f_equal. f_equal; lia.
Qed.

Lemma traverse_left height pos B R :
  length match_ = txs → (S height < 64)%nat → (pos * 2 ^ S height < txs)%nat →
  (txs <= (pos * 2 + 1) * 2 ^ height)%nat →
  selected (S height) pos ≠ [] →
  node_proof height (pos * 2) B R → node_proof (S height) pos (true :: B)%list R.
Proof.
  intros Hlen Hh Hpos Hend Hsel N.
  assert (Hw : (pos * 2 + 1 <? tree_width txs height)%nat = false).
  { apply Nat.ltb_ge. apply Nat.nlt_ge. rewrite lt_tree_width by lia. lia. }
  split.
  - intros bits branch. rewrite traverse_build_parent by done.
    rewrite (proof_built _ _ _ _ N). cbn [mbind option_bind]. rewrite Hw.
    by rewrite <-!(assoc_L (++)).
  - rewrite leaves_left by done. apply N.
  - simpl. pose proof (proof_bits _ _ _ _ N). lia.
  - intros x bits bits' branch branch' e Hx Hb Hu. cbn [app]. rewrite traverse_extract_parent by done.
    destruct (calc_hash_total height (pos * 2)) as [l Hl]; [lia|rewrite Nat.pow_succ_r' in Hpos; lia|].
    assert (x = node_hash l l) as ->.
    { cbn [calc_hash] in Hx. rewrite Hl in Hx. cbn [mbind option_bind] in Hx.
      rewrite Hw in Hx. by injection Hx. }
    replace (bits ++ true :: B ++ bits')%list
      with ((bits ++ [true]) ++ B ++ bits')%list by by rewrite <-!(assoc_L (++)).
    cbn zeta.
    rewrite (proof_extracted _ _ _ _ N l) by (done || (simpl; rewrite length_app; simpl; lia)).
    rewrite Hw. unfold extracted, selected. rewrite leaves_left by done. simpl.
    f_equal. f_equal; lia.
Qed.

Lemma traverse_ok height pos :
  length match_ = txs → siblings_distinct →
  (height < 64)%nat → (pos * 2 ^ height < txs)%nat →
  ∃ B R, node_proof height pos B R.
Proof.
  intros Hlen Hdist. revert pos. induction height as [|height IH]; intros pos Hh Hpos.
  - simpl in Hpos. destruct (lookup_lt_is_Some_2 txids pos) as [x Hx]; [lia|].
    do 2 eexists. apply traverse_leaf; [done|lia|done].
  - destruct (decide (selected (S height) pos = [])) as [Hnone|Hsel].
    + destruct (calc_hash_total (S height) pos) as [x Hx]; [done|done|].
      do 2 eexists. by eapply traverse_pruned.
    + destruct (IH (pos * 2)%nat) as (B1 & R1 & N1); [lia|rewrite Nat.pow_succ_r' in Hpos; lia|].
      destruct (Nat.lt_ge_cases ((pos * 2 + 1) * 2 ^ height) txs) as [Hlt|Hge].
      * destruct (IH (pos * 2 + 1)%nat) as (B2 & R2 & N2); [lia|done|].
        do 2 eexists. by apply traverse_both.
      * do 2 eexists. by apply traverse_left.
Qed.

End Block.

(** ** Bits and bytes *)

Definition bit_at (bytes : data_chunk) (bit : nat) : bool :=
  get_right (default 0 (bytes !! (bit / 8)%nat)) (bit mod 8).

Lemma bit_at_insert bytes bit b bit' :
  (bit / 8 < length bytes)%nat →
  bit_at (<[(bit / 8)%nat := set_right_into (default 0 (bytes !! (bit / 8)%nat)) (bit mod 8) b]>
    bytes) bit' = if (bit =? bit')%nat then b else bit_at bytes bit'.
Proof.
  intros Hlen. unfold bit_at.
  pose proof (Nat.div_mod_eq bit 8). pose proof (Nat.div_mod_eq bit' 8).
  pose proof (Nat.mod_upper_bound bit 8). pose proof (Nat.mod_upper_bound bit' 8).
  destruct (Nat.eqb_spec bit bit') as [->|Hne].
  - rewrite list_lookup_insert_eq by done. cbn [from_option Datatypes.id].
    rewrite get_right_set, Nat.eqb_refl by lia. done.
  - destruct (decide (bit / 8 = bit' / 8)%nat) as [Heq|Hd].
    + rewrite <-Heq, list_lookup_insert_eq by done. cbn [from_option Datatypes.id].
      rewrite get_right_set by lia. by rewrite (proj2 (Nat.eqb_neq (bit mod 8) (bit' mod 8))) by congruence.
    + by rewrite list_lookup_insert_ne.
Qed.

Lemma bits_to_bytes_loop_ok bits bit bytes :
  (bit + length bits <= 8 * length bytes)%nat →
  length (bits_to_bytes_loop bits bit bytes) = length bytes ∧
  ∀ j, bit_at (bits_to_bytes_loop bits bit bytes) j =
    if (bit <=? j)%nat then default (bit_at bytes j) (bits !! (j - bit)%nat) else bit_at bytes j.
Proof.
  revert bit bytes. induction bits as [|b bits IH]; intros bit bytes Hle; simpl in *.
  - split; [done|]. intros j. by destruct (bit <=? j)%nat.
  - rewrite to_floored_bytes_div. unfold byte_bits.
    assert (bit / 8 < length bytes)%nat as Hin by (apply Nat.Div0.div_lt_upper_bound; lia).
    set (bytes' := <[_ := _]> bytes).
    assert (length bytes' = length bytes) as Hlen by apply length_insert.
    destruct (IH (S bit) bytes') as [Hl Hj]; [lia|]. split; [congruence|]. intros j.
    rewrite Hj. unfold bytes'. rewrite bit_at_insert by done.
    destruct (Nat.eqb_spec bit j) as [->|Hne].
    + rewrite (proj2 (Nat.leb_gt (S j) j)), Nat.leb_refl, Nat.sub_diag by lia. done.
    + destruct (Nat.leb_spec (S bit) j), (Nat.leb_spec bit j); try lia; [|done].
      by replace (j - bit)%nat with (S (j - S bit)) by lia.
Qed.

Lemma bytes_to_bits_at bytes :
  bytes_to_bits bytes = bit_at bytes <$> seq 0 (length bytes * 8).
Proof.
  unfold bytes_to_bits. apply list_fmap_ext. intros i bit _.
  by rewrite to_floored_bytes_div.
Qed.

Lemma bit_at_zeros n bit : bit_at (replicate n 0) bit = false.
Proof.
  unfold bit_at. destruct (replicate n 0 !! _) as [z|] eqn:Hz; [|apply get_right_zero].
  apply lookup_replicate in Hz as [-> _]. apply get_right_zero.
Qed.

Lemma bits_round_trip bits :
  ∃ padding, bytes_to_bits (bits_to_bytes bits) = (bits ++ padding)%list ∧
    (length bits + length padding = (length bits + 7) / 8 * 8)%nat.
Proof.
  set (n := ((length bits + 7) / 8)%nat).
  assert (length bits <= 8 * n)%nat as Hn.
  { pose proof (Nat.div_mod_eq (length bits + 7) 8).
    pose proof (Nat.mod_upper_bound (length bits + 7) 8). subst n. lia. }
  destruct (bits_to_bytes_loop_ok bits 0 (replicate n 0)) as [Hlen Hj];
    [rewrite length_replicate; lia|].
  exists (replicate (n * 8 - length bits) false). unfold bits_to_bytes.
  rewrite to_ceilinged_bytes_div. fold n. rewrite bytes_to_bits_at, Hlen, length_replicate.
  split; [|rewrite length_replicate; fold n; lia]. apply list_eq_same_length with (n := (n * 8)%nat);
    [rewrite length_app, length_replicate; lia|by rewrite length_fmap, length_seq|].
  intros i x y Hi. rewrite list_lookup_fmap, lookup_seq_lt by done.
  cbn [fmap option_fmap option_map]. rewrite Hj, Nat.add_0_l, Nat.sub_0_r. cbn [Nat.leb].
  destruct (decide (i < length bits)%nat) as [Hb|Hb].
  - rewrite lookup_app_l by done. destruct (lookup_lt_is_Some_2 bits i Hb) as [b ->]. simpl. congruence.
  - rewrite lookup_app_r, lookup_replicate_2, (lookup_ge_None_2 bits) by lia. cbn [from_option].
    intros [= <-] [= <-]. apply bit_at_zeros.
Qed.

(** ** Soundness of extraction *)

Section Sound.
Context (txids : list hash_digest).
Abbreviation txs := (length txids).

(** Once set, [bad] stays set. *)
Lemma traverse_extract_bad height pos bits branch e :
  bad e = true → bad (traverse_extract height pos txs bits branch e).2 = true.
Proof.
  revert pos e. induction height as [|height IH]; intros pos e Hbad; cbn [traverse_extract];
    (destruct (bits !! bit e) as [b|]; [|done]).
  - cbn [used]. destruct (branch !! used e); [|done]. by destruct b.
  - destruct b; cbn [negb used]; [|by destruct (branch !! used e)].
    set (e1 := Extraction _ _ _ _ _).
    pose proof (IH (pos * 2)%nat e1 Hbad) as H1.
    destruct (traverse_extract _ (pos * 2) _ _ _ e1) as [l e2]. simpl in H1.
    destruct (pos * 2 + 1 <? _)%nat; [|done].
    pose proof (IH (pos * 2 + 1)%nat e2 H1) as H2.
    destruct (traverse_extract _ (pos * 2 + 1) _ _ _ e2) as [r e3]. simpl in H2.
    simpl. by destruct (bool_decide _).
Qed.

(** A pair of hashes with the hash of a node of the block's tree that is not the
    pair of that node's children. *)
Definition second_preimage : Prop :=
  ∃ height pos l r l' r',
    calc_hash height (pos * 2) txids = Some l' ∧
    (calc_hash height (pos * 2 + 1) txids = Some r' ∨
      r' = l' ∧ (tree_width txs height <= pos * 2 + 1)%nat) ∧
    calc_hash (S height) pos txids = Some (node_hash l' r') ∧
    node_hash l r = node_hash l' r' ∧ (l, r) ≠ (l', r').

(** What a traversal has matched is in the block, at the positions it says. *)
Definition proven (height pos : nat) (e e' : extraction) : Prop :=
  ∃ m p, matched e' = (matched e ++ m)%list ∧ positions e' = (positions e ++ p)%list ∧
    Forall2 (λ x i, txids !! i = Some x) m p ∧ p `sublist_of` leaves txids height pos.

Lemma proven_none height pos b u bd e :
  proven height pos e (Extraction b u (matched e) (positions e) bd).
Proof. exists [], []. rewrite !app_nil_r. split_and!; [done..|constructor|apply sublist_nil_l]. Qed.

(** A pair with the hash of a node is the pair of its children, or a second
    preimage. *)
Lemma children_or_preimage height pos l r :
  (S height < 64)%nat → calc_hash (S height) pos txids = Some (node_hash l r) →
  second_preimage ∨
  calc_hash height (pos * 2) txids = Some l ∧
  (if decide (pos * 2 + 1 < tree_width txs height)%nat
   then calc_hash height (pos * 2 + 1) txids = Some r else r = l).
Proof.
  intros Hh Hx. pose proof Hx as Hx'. cbn [calc_hash] in Hx.
  destruct (calc_hash height (pos * 2) txids) as [l'|] eqn:Hl; [|done].
  cbn [mbind option_bind] in Hx.
  destruct (Nat.ltb_spec (pos * 2 + 1) (tree_width txs height)) as [Hw|Hw].
  - destruct (calc_hash height (pos * 2 + 1) txids) as [r'|] eqn:Hr; [|done].
    cbn [mbind option_bind] in Hx. injection Hx as Hn.
    destruct (decide ((l, r) = (l', r'))) as [[= -> ->]|Hne].
    + right. split; [done|]. by rewrite decide_True.
    + left. exists height, pos, l, r, l', r'. rewrite <-Hn in Hx'. by split_and!; [|left|..].
  - cbn [mbind option_bind] in Hx. injection Hx as Hn.
    destruct (decide ((l, r) = (l', l'))) as [[= -> ->]|Hne].
    + right. split; [done|]. by rewrite decide_False by lia.
    + left. exists height, pos, l, r, l', l'. rewrite <-Hn in Hx'. by split_and!; [|right|..].
Qed.

Lemma traverse_extract_proven height pos bits branch e x e' :
  (height < 64)%nat → (pos * 2 ^ height < txs)%nat →
  traverse_extract height pos txs bits branch e = (x, e') → bad e' = false →
  calc_hash height pos txids = Some x → second_preimage ∨ proven height pos e e'.
Proof.
  revert pos e x e'. induction height as [|height IH]; intros pos e x e' Hh Hpos;
    cbn [traverse_extract]; (destruct (bits !! bit e) as [b|]; [|by intros [= <- <-]]).
  - cbn [used]. destruct (branch !! used e) as [hash|]; [|by intros [= <- <-]].
    destruct b; intros [= <- <-] _ Hx; right; [|apply proven_none].
    simpl in Hpos. exists [hash], [pos]. rewrite leaves_leaf by lia.
    split_and!; [done|done|by repeat constructor|done].
  - destruct b; cbn [negb used]; [|destruct (branch !! used e); intros [= <- <-] ??;
      [right; apply proven_none|done]].
    set (e1 := Extraction _ _ _ _ _).
    destruct (traverse_extract _ (pos * 2) _ _ _ e1) as [l e2] eqn:H1.
    rewrite Nat.pow_succ_r' in Hpos.
    destruct (Nat.ltb_spec (pos * 2 + 1) (tree_width txs height)) as [Hw|Hw].
    + destruct (traverse_extract _ (pos * 2 + 1) _ _ _ e2) as [r e3] eqn:H2.
      intros [= <- <-] Hbad Hx.
      destruct (children_or_preimage height pos l r) as [|[Hl Hr]]; [lia|done|by left|].
      rewrite decide_True in Hr by done. apply lt_tree_width in Hw; [|lia].
      assert (bad e3 = false) as Hb3 by by destruct (bool_decide _).
      assert (bad e2 = false) as Hb2.
      { apply not_true_is_false. intros Hb.
        pose proof (traverse_extract_bad height (pos * 2 + 1) bits branch e2 Hb) as Hc.
        rewrite H2 in Hc. simpl in Hc. congruence. }
      destruct (IH (pos * 2)%nat _ _ _ ltac:(lia) ltac:(lia) H1 Hb2 Hl)
        as [|(m1 & p1 & Hm1 & Hp1 & Hf1 & Hs1)]; [by left|].
      destruct (IH (pos * 2 + 1)%nat _ _ _ ltac:(lia) Hw H2 Hb3 Hr)
        as [|(m2 & p2 & Hm2 & Hp2 & Hf2 & Hs2)]; [by left|].
      right. exists (m1 ++ m2)%list, (p1 ++ p2)%list. rewrite leaves_both by done.
      rewrite !(assoc_L (++)). change (matched e) with (matched e1).
      change (positions e) with (positions e1). rewrite <-Hm1, <-Hp1, <-Hm2, <-Hp2.
      split_and!; [by destruct (bool_decide _)..|by apply Forall2_app|by apply sublist_app].
    + intros [= <- <-] Hbad Hx.
      destruct (children_or_preimage height pos l l) as [|[Hl _]]; [lia|done|by left|].
      destruct (IH (pos * 2)%nat _ _ _ ltac:(lia) ltac:(lia) H1 Hbad Hl)
        as [|(m1 & p1 & Hm1 & Hp1 & Hf1 & Hs1)]; [by left|].
      right. exists m1, p1. rewrite leaves_left; [done|].
      apply Nat.nlt_ge. intros Hlt. apply lt_tree_width in Hlt; lia.
Qed.

End Sound.

(** ** Reference: the merkle root by levels *)

(** One level of the tree: the nodes of pairs, the last alone paired with itself. *)
Fixpoint pair_up (nodes : list hash_digest) : list hash_digest :=
  match nodes with
  | [] => []
  | [l] => [node_hash l l]
  | l :: r :: nodes => node_hash l r :: pair_up nodes
  end.

Definition level (height : nat) (txids : list hash_digest) : list hash_digest :=
  Nat.iter height pair_up txids.

Lemma pair_up_lookup nodes pos :
  pair_up nodes !! pos =
    (λ l, node_hash l (default l (nodes !! (pos * 2 + 1)%nat))) <$> nodes !! (pos * 2)%nat.
Proof.
  revert pos. induction nodes as [nodes IH] using (induction_ltof1 _ length).
  destruct nodes as [|l [|r nodes]]; intros [|pos]; try done.
  cbn [pair_up]. change ((node_hash l r :: pair_up nodes) !! S pos) with (pair_up nodes !! pos).
  rewrite IH by (unfold ltof; simpl; lia). done.
Qed.

Lemma pair_up_length nodes : length (pair_up nodes) = ((length nodes + 1) / 2)%nat.
Proof.
  induction nodes as [nodes IH] using (induction_ltof1 _ length).
  destruct nodes as [|l [|r nodes]]; [done..|]. cbn [pair_up length].
  rewrite IH by (unfold ltof; simpl; lia).
  replace (S (S (length nodes)) + 1)%nat with (length nodes + 1 + 1 * 2)%nat by lia.
  rewrite Nat.div_add by lia. lia.
Qed.

(** A level is as wide as the tree says. *)
Lemma level_length txids height :
  (height < 64)%nat → (length (level height txids) <= tree_width (length txids) height)%nat.
Proof.
  intros Hh. apply Nat.nlt_ge. intros Hlt. revert Hlt.
  set (pos := tree_width (length txids) height).
  assert (¬ (pos < tree_width (length txids) height))%nat as Hpos by (subst pos; lia).
  rewrite lt_tree_width in Hpos by done. clearbody pos. revert pos Hpos.
  induction height as [|height IH]; intros pos Hpos Hlt.
  - simpl in *. lia.
  - rewrite Nat.pow_succ_r' in Hpos. apply (IH ltac:(lia) (pos * 2)%nat); [lia|].
    change (level (S height) txids) with (pair_up (level height txids)) in Hlt.
    rewrite pair_up_length in Hlt.
    pose proof (Nat.div_mod_eq (length (level height txids) + 1) 2). lia.
Qed.

Lemma calc_hash_level_lookup txids height pos :
  (height < 64)%nat → (pos * 2 ^ height < length txids)%nat →
  calc_hash height pos txids = level height txids !! pos.
Proof.
  intros Hh. revert pos. induction height as [|height IH]; intros pos Hpos; [done|].
  rewrite Nat.pow_succ_r' in Hpos. cbn [calc_hash].
  change (level (S height) txids) with (pair_up (level height txids)).
  rewrite pair_up_lookup, <-(IH ltac:(lia) (pos * 2)%nat) by lia.
  destruct (calc_hash_total txids height (pos * 2)) as [l Hl]; [lia|lia|]. rewrite Hl.
  cbn [mbind option_bind fmap option_fmap option_map].
  destruct (Nat.ltb_spec (pos * 2 + 1) (tree_width (length txids) height)) as [Hw|Hw].
  - apply lt_tree_width in Hw; [|lia].
    destruct (calc_hash_total txids height (pos * 2 + 1)) as [r Hr]; [lia|done|].
    by rewrite <-(IH ltac:(lia) (pos * 2 + 1)%nat), Hr by done.
  - rewrite (lookup_ge_None_2 (level height txids)); [done|].
    etransitivity; [|exact Hw]. apply level_length. lia.
Qed.

End Merkle.

(** ** A reference instance, for examples *)

#[global] Instance reference_merkle : MerkleMath := {
  ceilinged_divide a b := ((a + b - 1) / b)%nat;
  power2 n := (2 ^ n)%nat;
  to_floored_bytes bits := (bits / 8)%nat;
  to_ceilinged_bytes bits := ((bits + 7) / 8)%nat;
  get_right byte bit := Z.testbit byte (Z.of_nat bit);
  set_right_into byte bit b :=
    if b then Z.setbit byte (Z.of_nat bit) else Z.clearbit byte (Z.of_nat bit);
  merkle_root hashes :=
    match hashes with
    | [l; r] => Z.of_nat (length l) :: (l ++ r)%list
    | _ => []
    end;
}.

#[global] Instance reference_merkle_laws : MerkleMathLaws.
Proof.
  split; [|done|done|done|intros; apply Z.testbit_0_l|].
  - intros a b q Hb. simpl. pose proof (Nat.div_mod_eq (a + b - 1) b).
    pose proof (Nat.mod_upper_bound (a + b - 1) b). split; intros; nia.
  - intros byte bit b bit' _ _. simpl. destruct (Nat.eqb_spec bit bit') as [->|Hne].
    + destruct b; [apply Z.setbit_eq; lia|apply Z.clearbit_eq].
    + destruct b; [apply Z.setbit_neq; lia|apply Z.clearbit_neq; lia].
Qed.

Lemma reference_node_hash_inj l r l' r' :
  node_hash l r = node_hash l' r' → l = l' ∧ r = r'.
Proof.
  unfold node_hash. simpl. intros [= Hlen%Nat2Z.inj Happ]. by apply app_inj_1.
Qed.

(** The construction is defined on every selection of a block. *)
Lemma traverse_build_total `{MerkleMathLaws} txids match_ height pos bits branch :
  length match_ = length txids → (height < 64)%nat → (pos * 2 ^ height < length txids)%nat →
  is_Some (traverse_build height pos txids match_ bits branch).
Proof.
  intros Hlen. revert pos bits branch. induction height as [|height IH]; intros pos bits branch Hh Hpos.
  - unfold traverse_build. rewrite any_match_leaves by done. cbn [mbind option_bind].
    destruct (calc_hash_total txids 0 pos) as [x ->]; done.
  - unfold traverse_build. fold traverse_build. rewrite any_match_leaves by done. cbn [mbind option_bind].
    destruct (calc_hash_total txids (S height) pos) as [x ->]; [done|done|].
    rewrite Nat.pow_succ_r' in Hpos. destruct (bool_decide _); cbn [negb mbind option_bind]; [done|].
    destruct (IH (pos * 2)%nat (bits ++ [true])%list branch) as [[bits' branch'] ->]; [lia|lia|].
    cbn [mbind option_bind].
    destruct (Nat.ltb_spec (pos * 2 + 1) (tree_width (length txids) height)) as [Hw|]; [|done].
    apply lt_tree_width in Hw; [|lia]. apply IH; lia.
Qed.

Lemma build_partial_merkle_total `{MerkleMathLaws} txids match_ :
  txids ≠ [] → Z.of_nat (length txids) <= 2 ^ 62 → length match_ = length txids →
  is_Some (build_partial_merkle txids match_).
Proof.
  intros Hne Hmax Hlen. unfold build_partial_merkle.
  destruct (tree_height_ok (length txids)) as (h & -> & Hh & _); [by apply size_bound|].
  cbn [mbind option_bind].
  destruct (traverse_build_total txids match_ h 0 [] []) as [[bits branch] ->]; [done|lia| |done].
  destruct txids; simpl; [done|lia].
Qed.

(** ** Properties *)

(** The positions that a selection matches. *)
Definition matches (match_ : list bool) : list nat :=
  filter (λ i, match_ !! i = Some true) (seq 0 (length match_)).

(** A partial merkle tree that the server builds for any selection of the
    transactions of a block extracts without fault to the block's merkle root
    and to exactly the selected transactions, in order, with their positions
    (given that no two sibling subtrees of the block hash alike). *)
Lemma merkle_round_trip `{MerkleMathLaws} txids match_ root0 :
  txids ≠ [] → Z.of_nat (length txids) <= 2 ^ 62 → length match_ = length txids →
  siblings_distinct txids →
  ∃ flags branch height root,
    build_partial_merkle txids match_ = Some (flags, branch) ∧
    tree_height (length txids) = Some height ∧
    level height txids = [root] ∧
    extract_partial_merkle root0 (length txids) flags branch =
      Some (true, root, omap (λ i, txids !! i) (matches match_), matches match_).
Proof.
  intros Hne Hmax Hlen Hdist.
  assert (0 < length txids)%nat as Hpos by (destruct txids; simpl; [done|lia]).
  destruct (tree_height_ok (length txids)) as (h & Hh & Hlt & Hle & _); [by apply size_bound|].
  clear Hmax.
  destruct (traverse_ok txids match_ h 0) as (B & R & N); [done|done|lia|lia|].
  destruct (calc_hash_total txids h 0) as [root Hroot]; [lia|lia|].
  destruct (bits_round_trip B) as (padding & Hbits & Hbytes).
  exists (bits_to_bytes B), R, h, root.
  assert (selected txids match_ h 0 = matches match_) as Hsel.
  { unfold selected, matches, leaves. do 2 f_equal. lia. }
  split_and!; [|done| |].
  - unfold build_partial_merkle. rewrite Hh. cbn [mbind option_bind].
    rewrite (proof_built _ _ _ _ _ _ N). done.
  - rewrite calc_hash_level_lookup in Hroot by lia.
    assert (length (level h txids) <= 1)%nat as Hl1.
    { etransitivity; [apply level_length; lia|]. apply Nat.nlt_ge.
      rewrite lt_tree_width by lia. lia. }
    destruct (level h txids) as [|x [|]]; simpl in *; [done|by simplify_eq|lia].
  - unfold extract_partial_merkle. rewrite Hbits.
    pose proof (proof_leaves _ _ _ _ _ _ N) as HR. unfold leaves in HR. rewrite length_seq in HR.
    pose proof (proof_bits _ _ _ _ _ _ N) as HB. rewrite length_app.
    rewrite (proj2 (Nat.eqb_neq _ 0)), !(proj2 (Nat.ltb_ge _ _)) by lia.
    cbn [orb]. rewrite Hh. cbn [mbind option_bind].
    pose proof (proof_extracted _ _ _ _ _ _ N root [] padding [] []
      (Extraction 0 0 [] [] false) Hroot eq_refl eq_refl) as Hx.
    cbn [app] in Hx. rewrite app_nil_r in Hx. rewrite Hx.
    unfold extracted. rewrite Hsel. cbn [bit used matched positions bad app negb andb].
    rewrite !Nat.add_0_l, Nat.eqb_refl. cbn [andb]. do 4 f_equal.
    apply Nat.eqb_eq. rewrite !to_ceilinged_bytes_div, Hbytes.
    rewrite Nat.div_add_l by lia. rewrite (Nat.div_small 7 8) by lia. lia.
Qed.

(** A partial merkle tree, however it was made, that extracts without fault to
    the merkle root of a block proves its transactions: each is in the block at
    the position that is returned with it, and the positions ascend; or else the
    tree holds a second preimage of the hash of one of the block's nodes. *)
Lemma extract_partial_merkle_sound `{MerkleMathLaws} txids root0 flags branch height root
    matched positions :
  Z.of_nat (length txids) <= 2 ^ 62 →
  tree_height (length txids) = Some height → level height txids = [root] →
  extract_partial_merkle root0 (length txids) flags branch =
    Some (true, root, matched, positions) →
  second_preimage txids ∨
  Forall2 (λ x i, txids !! i = Some x) matched positions ∧
  positions `sublist_of` seq 0 (length txids).
Proof.
  intros Hmax Hheight Hroot.
  destruct (tree_height_ok (length txids)) as (h & Hh & Hlt & Hle & _); [by apply size_bound|].
  clear Hmax. simplify_eq. unfold extract_partial_merkle.
  destruct (Nat.eqb_spec (length txids) 0) as [|Hpos]; cbn [orb]; [done|].
  destruct (_ || _); [done|]. rewrite Hheight. cbn [mbind option_bind].
  destruct (traverse_extract _ _ _ _ _ _) as [x e] eqn:Hx.
  intros [= Hok -> <- <-]. rewrite !andb_true_iff, negb_true_iff in Hok.
  destruct Hok as [[Hbad _] _].
  destruct (traverse_extract_proven txids height 0 _ _ _ _ _
    ltac:(lia) ltac:(lia) Hx Hbad) as [|(m & p & -> & -> & Hf & Hs)]; [|by left|].
  { rewrite calc_hash_level_lookup by lia. by rewrite Hroot. }
  right. split; [done|]. etransitivity; [exact Hs|]. unfold leaves.
  by replace (Nat.min ((0 + 1) * 2 ^ height) (length txids) - 0 * 2 ^ height)%nat
    with (length txids) by lia.
Qed.

(** The height loop ends, within 63 steps for any block of at most 2^62
    transactions, and no product that the traversals form at a node of the tree
    overflows 64 bits. *)
Lemma merkle_arithmetic `{MerkleMathLaws} txs :
  Z.of_nat txs <= 2 ^ 62 →
  ∃ height, tree_height txs = Some height ∧ (height <= 63)%nat ∧ (txs <= 2 ^ height)%nat ∧
    ∀ h pos, (h <= height)%nat → (pos < tree_width txs h)%nat →
      Z.of_nat (pos + 1) * Z.of_nat (power2 h) < 2 ^ 64 ∧ Z.of_nat (pos * 2 + 1) < 2 ^ 64.
Proof.
  intros Hmax.
  destruct (tree_height_ok txs) as (height & Hh & Hlt & Hle & Hlow); [by apply size_bound|].
  exists height. split_and!; [done..|]. intros h pos Hhh Hpos.
  apply lt_tree_width in Hpos; [|lia]. rewrite power2_pow by lia.
  assert (2 ^ h <= 2 * txs)%nat as Hw.
  { destruct Hlow as [->|Hlow].
    - replace h with 0%nat by lia. simpl. lia.
    - etransitivity; [apply (Nat.pow_le_mono_r 2 h height); lia|].
      replace height with (S (height - 1)) at 1 by (destruct height; simpl in *; lia).
      rewrite Nat.pow_succ_r'. lia. }
  set (w := (2 ^ h)%nat) in *. assert (w ≠ 0)%nat by (apply Nat.pow_nonzero; lia).
  clearbody w. split; nia.
Qed.
