(* ===== verification/ElectrumSubscribe.v ===== *)
(** Electrum address subscriptions
    (src/protocols/electrum/protocol_electrum_subscribe.cpp, with the subscribe
    and unsubscribe handlers of protocol_electrum_addresses.cpp and
    protocol_electrum_scriptpubkey.cpp, and [do_reorganized] of
    protocol_electrum.cpp).

    A request is checked on the channel's strand, and its work is posted to the
    notification strand, which owns the subscriptions and runs its jobs one at a
    time. Each job is a function of the subscriptions; [step] interleaves the
    jobs with the growth of the chain. *)
From stdpp Require Import pretty.
From S2P Require Import Prelude Rpc Errors System ElectrumVersion.

(** ** The store and the hash accumulator *)

(** [database::history]: a transaction of an address, with its height and its
    position in the block. *)
Record history := History {
  history_hash : hash_digest;
  history_height : Z;
  history_fee : Z;
  history_position : Z;
  history_confirmed : bool;
}.

(** The queries of the archive that subscriptions make, of the chain as it is
    when they are made; [cursor_t] marks how far an address has been read. *)
Class AddressStore := {
  chain : Type;
  cursor_t : Type;
  initial_cursor : cursor_t;
  address_enabled : chain → bool;
  (** A code, or the history from the cursor on and the advanced cursor; a
      query that fails leaves the cursor. *)
  get_history : chain → cursor_t → hash_digest → Z → code + (list history * cursor_t);
}.

(** [accumulator<sha256>]. *)
Class Midstate := {
  midstate : Type;
  initial_midstate : midstate;
  write_text : midstate → string → midstate;
  flush : midstate → hash_digest;
}.

(** [chain::script] and [wallet::payment_address]; a text that is not an address
    gives no payment address. *)
Class Scripts := {
  script : Type;
  to_script : data_chunk → script;
  script_valid : script → bool;
  script_hash : script → hash_digest;
  payment_address : Type;
  to_payment_address : string → option payment_address;
  output_script : payment_address → Z → Z → script;
  (** The address that an output script pays, if there is one. *)
  extract_output : script → Z → Z → option payment_address;
  encoded : payment_address → string;
}.

(** [std::to_string]. *)
Definition to_decimal (value : Z) : string := pretty value.

Definition null_hash : hash_digest := replicate 32 0.

Inductive notify_t := notify_address | notify_scripthash | notify_scriptpubkey.

#[global] Instance notify_t_eq_dec : EqDecision notify_t.
Proof. solve_decision. Defined.

(** ** Events

    [handle_chase] of src/protocols/electrum/protocol_electrum.cpp: what an event
    of the node posts, given the flags of the channel's subscriptions. *)

Inductive chase :=
  | chase_transaction (link : Z)
  | chase_organized (link : Z)
  | chase_reorganized (link : Z)
  | chase_other.

Inductive chase_post :=
  | post_height (link : Z)
  | post_header (link : Z)
  | post_outpoint (link : Z)
  | post_scripthash (link : Z)
  | post_reorganized (link : Z).

Record chase_flags := Flags {
  flag_height : bool;
  flag_header : bool;
  flag_outpoint : bool;
  flag_address : bool;
}.

(** Whether the channel remains subscribed, and what is posted. *)
Definition handle_chase (stopped duplex : bool) (event : chase) (flags : chase_flags) :
    bool * list chase_post :=
  if stopped then (false, [])
  else if negb duplex then (true, [])
  else
    (true,
     match event with
     | chase_transaction link =>
         (if flag_outpoint flags then [post_outpoint link] else []) ++
         (if flag_address flags then [post_scripthash link] else [])
     | chase_organized link =>
         (if flag_height flags then [post_height link] else []) ++
         (if flag_header flags then [post_header link] else []) ++
         (if flag_outpoint flags then [post_outpoint link] else []) ++
         (if flag_address flags then [post_scripthash link] else [])
     | chase_reorganized link => [post_reorganized link]
     | chase_other => []
     end)%list.

Section Subscriptions.
Context `{Text} `{StoreErrors} `{AddressStore} `{Midstate} `{Scripts}.

(** ** State *)

Record address_subscription := Subscription {
  type : notify_t;
  cursor : cursor_t;
  status : hash_digest;
  accumulator : midstate;
}.

(** [address_subscription{ type }]. *)
Definition new_subscription (t : notify_t) : address_subscription :=
  Subscription t initial_cursor null_hash initial_midstate.

(** What a job posts back to the channel's strand. *)
Inductive posted :=
  | posted_subscribe (ec : code) (status : hash_digest)
  | posted_unsubscribe (found : bool)
  | posted_notify (status key : hash_digest) (t : notify_t).

Record subscriptions := State {
  address_subscriptions : gmap hash_digest address_subscription;
  subscribed_address : bool;
}.

(** The settings that subscriptions read. *)
Record subscribe_options := SubscribeOptions {
  maximum_history : Z;
  maximum_subscriptions : Z;
}.

Context (options : subscribe_options).

(** ** The status of an address *)

(** [to_signed] of a 64-bit size. *)
Definition to_signed (size : Z) : Z := if size <? 2 ^ 63 then size else size - 2 ^ 64.

Definition write_status (a : midstate) (h : history) : midstate :=
  let a := write_text a (encode_hash (history_hash h)) in
  let a := write_text a ":" in
  let a := write_text a (to_decimal (to_signed (history_height h))) in
  write_text a ":".

(** The loop over the confirmed entries: the accumulator, and what is left. *)
Fixpoint write_confirmed (a : midstate) (h : list history) : midstate * list history :=
  match h with
  | [] => (a, [])
  | entry :: rest =>
      if history_confirmed entry then write_confirmed (write_status a entry) rest
      else (a, h)
  end.

Definition get_scripthash_history (c : chain) (sub : address_subscription)
    (hash : hash_digest) (limit : Z) : code * address_subscription :=
  match get_history c (cursor sub) hash limit with
  | inl ec => (ec, sub)
  | inr (history, cursor') =>
      if (length history =? 0)%nat
      then (Error.make Error.success,
        Subscription (type sub) cursor' (status sub) (accumulator sub))
      else
        let '(a, rest) := write_confirmed (accumulator sub) history in
        let copy := foldl write_status a rest in
        (Error.make Error.success, Subscription (type sub) cursor' (flush copy) a)
  end.

(** ** Jobs of the notification strand *)

Definition excessive_resource_usage : code :=
  ElectrumError.make ElectrumError.excessive_resource_usage.

Definition do_scripthash_subscribe (c : chain) (hash : hash_digest) (t : notify_t)
    (s : subscriptions) : subscriptions * list posted :=
  let subs := address_subscriptions s in
  if Z.of_nat (size subs) <? maximum_subscriptions options then
    let inserted := bool_decide (subs !! hash = None) in
    let sub := default (new_subscription t) (subs !! hash) in
    let limit := if inserted then maximum_history options else max_size_t in
    let '(ec, sub) := get_scripthash_history c sub hash limit in
    if is_error ec then
      let subs := if inserted then delete hash subs else <[hash := sub]> subs in
      (State subs (subscribed_address s), [posted_subscribe ec null_hash])
    else
      (State (<[hash := sub]> subs) true, [posted_subscribe ec (status sub)])
  else (s, [posted_subscribe excessive_resource_usage null_hash]).

Definition do_scripthash_unsubscribe (hash : hash_digest) (s : subscriptions) :
    subscriptions * list posted :=
  let found := bool_decide (is_Some (address_subscriptions s !! hash)) in
  let subs := delete hash (address_subscriptions s) in
  (State subs (if (size subs =? 0)%nat then false else subscribed_address s),
   [posted_unsubscribe found]).

Definition canceled : code := Code database_category query_canceled.

(** The loop over the subscriptions, in the order of [keys]. *)
Fixpoint do_scripthash_loop (c : chain) (keys : list hash_digest)
    (subs : gmap hash_digest address_subscription) :
    gmap hash_digest address_subscription * list posted :=
  match keys with
  | [] => (subs, [])
  | key :: keys =>
      match subs !! key with
      | None => do_scripthash_loop c keys subs
      | Some sub =>
          let '(ec, sub') := get_scripthash_history c sub key max_size_t in
          if is_error ec then
            if code_eqb ec canceled then (<[key := sub']> subs, [])
            else do_scripthash_loop c keys (<[key := sub']> subs)
          else
            let '(subs', rest) := do_scripthash_loop c keys (<[key := sub']> subs) in
            (subs', if bool_decide (status sub' = status sub) then rest
                    else posted_notify (status sub') key (type sub') :: rest)
      end
  end.

Definition do_scripthash (c : chain) (keys : list hash_digest) (s : subscriptions) :
    subscriptions * list posted :=
  let '(subs, sent) := do_scripthash_loop c keys (address_subscriptions s) in
  (State subs (subscribed_address s), sent).

Definition do_reorganized (s : subscriptions) : subscriptions :=
  State ((λ sub, Subscription (type sub) initial_cursor null_hash initial_midstate) <$>
    address_subscriptions s) (subscribed_address s).

(** ** Requests and responses on the channel's strand *)

(** What a request leads to at once. *)
Inductive reaction :=
  | ignored
  | respond_code (ec : code)
  | post_subscribe (hash : hash_digest) (t : notify_t)
  | post_unsubscribe (hash : hash_digest).

Definition at_least (v level : version) : bool := negb (version_before v level).
Definition bad_request : code := ElectrumError.make ElectrumError.bad_request.
Definition method_not_found : code := ElectrumError.make ElectrumError.method_not_found.

Definition scripthash_subscribe (c : chain) (hash : hash_digest) (t : notify_t) : reaction :=
  if negb (address_enabled c) then respond_code method_not_found
  else post_subscribe hash t.

Definition scripthash_unsubscribe (c : chain) (hash : hash_digest) : reaction :=
  if negb (address_enabled c) then respond_code method_not_found
  else post_unsubscribe hash.

Definition handle_blockchain_scripthash_subscribe (c : chain) (stopped : bool)
    (v : version) (scripthash : string) : reaction :=
  if stopped then ignored
  else if negb (at_least v v1_1) || at_least v v1_7 then respond_code bad_request
  else
    match decode_hash scripthash with
    | None => respond_code bad_request
    | Some hash => scripthash_subscribe c hash notify_scripthash
    end.

Definition handle_blockchain_scripthash_unsubscribe (c : chain) (stopped : bool)
    (v : version) (scripthash : string) : reaction :=
  if stopped then ignored
  else if negb (at_least v v1_4_2) || at_least v v1_7 then respond_code bad_request
  else
    match decode_hash scripthash with
    | None => respond_code bad_request
    | Some hash => scripthash_unsubscribe c hash
    end.

(** The handlers of scripts by their bytes share their checks. *)
Definition scriptpubkey_request (stopped : bool) (v : version) (scriptpubkey : string)
    (then_ : hash_digest → reaction) : reaction :=
  if stopped then ignored
  else if negb (at_least v v1_7) then respond_code bad_request
  else
    match decode_base16 scriptpubkey with
    | None => respond_code bad_request
    | Some bytes =>
        let script := to_script bytes in
        if negb (script_valid script) then respond_code bad_request
        else then_ (script_hash script)
    end.

Definition handle_blockchain_scriptpubkey_subscribe (c : chain) (stopped : bool)
    (v : version) (scriptpubkey : string) : reaction :=
  scriptpubkey_request stopped v scriptpubkey
    (λ hash, scripthash_subscribe c hash notify_scriptpubkey).

Definition handle_blockchain_scriptpubkey_unsubscribe (c : chain) (stopped : bool)
    (v : version) (scriptpubkey : string) : reaction :=
  scriptpubkey_request stopped v scriptpubkey (scripthash_unsubscribe c).

(** A failed parse returns the null hash; the prefixes are settings. *)
Definition extract_scripthash (p2kh p2sh : Z) (address : string) : hash_digest :=
  match to_payment_address address with
  | None => null_hash
  | Some payment =>
      let script := output_script payment p2kh p2sh in
      if negb (script_valid script) then null_hash else script_hash script
  end.

Definition handle_blockchain_address_subscribe (p2kh p2sh : Z) (c : chain) (stopped : bool)
    (v : version) (address : string) : reaction :=
  if stopped then ignored
  else if at_least v v1_3 then respond_code bad_request
  else
    let hash := extract_scripthash p2kh p2sh address in
    if bool_decide (hash = null_hash) then respond_code bad_request
    else scripthash_subscribe c hash notify_address.

Definition to_method_name (t : notify_t) : string :=
  match t with
  | notify_address => "blockchain.address.subscribe"
  | notify_scripthash => "blockchain.scripthash.subscribe"
  | notify_scriptpubkey => "blockchain.scriptpubkey.subscribe"
  end.

(** What is written to the client. *)
Inductive wire :=
  | wire_code (ec : code)
  | wire_result (v : value_t)
  | wire_notification (name : string) (params : params_t).

Definition status_value (status : hash_digest) : value_t :=
  if bool_decide (status = null_hash) then null_t else string_t (encode_base16 status).

(** ** Completions *)

Definition complete_scripthash_subscribe (stopped : bool) (ec : code) (status : hash_digest) :
    list wire :=
  if stopped then []
  else if is_error ec then
    [wire_code (ElectrumError.translate ec ElectrumError.daemon_error)]
  else [wire_result (status_value status)].

(** Does not test for stop. *)
Definition complete_scripthash_unsubscribe (found : bool) : list wire :=
  [wire_result (boolean_t found)].

Definition scripthash_notify (status hash : hash_digest) (t : notify_t) : list wire :=
  [wire_notification (to_method_name t)
    (params_array [string_t (encode_hash hash); status_value status])].

Definition complete (stopped : bool) (p : posted) : list wire :=
  match p with
  | posted_subscribe ec status => complete_scripthash_subscribe stopped ec status
  | posted_unsubscribe found => complete_scripthash_unsubscribe found
  | posted_notify status key t => scripthash_notify status key t
  end.

(** ** The strand's queue *)

Inductive job :=
  | job_subscribe (hash : hash_digest) (t : notify_t)
  | job_unsubscribe (hash : hash_digest)
  | job_scripthash
  | job_reorganized.

#[global] Instance job_eq_dec : EqDecision job.
Proof. solve_decision. Defined.

(** The jobs on address subscriptions that an event posts, whatever the flags of
    the other subscriptions. *)
Definition address_jobs (stopped duplex : bool) (event : chase) (height header outpoint : bool)
    (s : subscriptions) : list job :=
  omap (λ p, match p with
             | post_scripthash _ => Some job_scripthash
             | post_reorganized _ => Some job_reorganized
             | _ => None
             end)
    (handle_chase stopped duplex event
      (Flags height header outpoint (subscribed_address s))).2.

(** The jobs that the reaction to a request posts. *)
Definition reaction_jobs (r : reaction) : list job :=
  match r with
  | post_subscribe hash t => [job_subscribe hash t]
  | post_unsubscribe hash => [job_unsubscribe hash]
  | ignored | respond_code _ => []
  end.

End Subscriptions.

Arguments State {_ _}.
Arguments Subscription {_ _}.

(** ** What the store answers

    The history of an address in a chain is its confirmed entries, then its
    unconfirmed ones. A cursor of the chain has seen a number of the confirmed
    entries, and a query answers those it has not seen. While the chain is only
    extended, confirmed entries are only appended. *)
Class AddressHistory `{AddressStore} := {
  confirmed : chain → hash_digest → list history;
  unconfirmed : chain → hash_digest → list history;
  cursor_of : chain → cursor_t → Prop;
  seen : chain → hash_digest → cursor_t → nat;
  extends : chain → chain → Prop;
}.

Class AddressHistoryLaws `{AddressHistory} : Prop := {
  confirmed_true c h : Forall (λ e, history_confirmed e = true) (confirmed c h);
  unconfirmed_false c h : Forall (λ e, history_confirmed e = false) (unconfirmed c h);
  initial_cursor_of c : cursor_of c initial_cursor;
  seen_initial c h : seen c h initial_cursor = 0%nat;
  get_history_failure c cur h limit ec :
    get_history c cur h limit = inl ec → is_error ec = true;
  get_history_success c cur h limit entries cur' :
    cursor_of c cur → get_history c cur h limit = inr (entries, cur') →
    entries = (drop (seen c h cur) (confirmed c h) ++ unconfirmed c h)%list ∧
    cursor_of c cur' ∧ seen c h cur' = length (confirmed c h);
  extends_confirmed c c' h : extends c c' → confirmed c h `prefix_of` confirmed c' h;
  extends_cursor c c' cur h :
    extends c c' → cursor_of c cur → cursor_of c' cur ∧ seen c' h cur = seen c h cur;
}.

(** ** Specification *)

Section Specification.
Context `{Text} `{StoreErrors} `{AddressHistory} `{Midstate}.

(** The electrum status of an address: none if it has no history, and otherwise
    the hash over the text of its whole history. *)
Definition address_status (c : chain) (key : hash_digest) : hash_digest :=
  match (confirmed c key ++ unconfirmed c key)%list with
  | [] => null_hash
  | entries => flush (foldl write_status initial_midstate entries)
  end.

(** A subscription is in step with a chain: its accumulator holds the confirmed
    entries that its cursor has seen. *)
Definition synced (c : chain) (key : hash_digest) (sub : address_subscription) : Prop :=
  cursor_of c (cursor sub) ∧ (seen c key (cursor sub) <= length (confirmed c key))%nat ∧
  accumulator sub =
    foldl write_status initial_midstate (take (seen c key (cursor sub)) (confirmed c key)).

(** ** Transitions *)

Context (options : subscribe_options) (duplex : bool).

Record system := System {
  current : chain;
  jobs : list job;
  subs : subscriptions;
  outputs : list posted;
}.

(** One job, with the order in which the subscriptions are visited. *)
Definition run_job (c : chain) (keys : list hash_digest) (j : job) (s : subscriptions) :
    subscriptions * list posted :=
  match j with
  | job_subscribe hash t => do_scripthash_subscribe options c hash t s
  | job_unsubscribe hash => do_scripthash_unsubscribe hash s
  | job_scripthash => do_scripthash c keys s
  | job_reorganized => (do_reorganized s, [])
  end.

Inductive step : system → system → Prop :=
  | step_request x r :
      step x (System (current x) (jobs x ++ reaction_jobs r) (subs x) (outputs x))
  | step_extend x c' event height header outpoint :
      extends (current x) c' →
      step x (System c' (jobs x ++ address_jobs false duplex event height header outpoint (subs x))
        (subs x) (outputs x))
  | step_reorganize x c' link height header outpoint :
      step x (System c'
        (jobs x ++ address_jobs false duplex (chase_reorganized link) height header outpoint (subs x))
        (subs x) (outputs x))
  | step_run x j rest keys s' sent :
      jobs x = j :: rest →
      keys ≡ₚ elements (dom (address_subscriptions (subs x))) →
      run_job (current x) keys j (subs x) = (s', sent) →
      step x (System (current x) rest s' (outputs x ++ sent)).

Definition start (c : chain) : system := System c [] (State ∅ false) [].

Definition reachable (x : system) : Prop := ∃ c, rtc step (start c) x.

(** The invariant: the bound on subscriptions, the flag, and, unless a reset is
    due, that every subscription is in step with the chain. *)
Record subscriptions_ok (x : system) : Prop := {
  ok_size : Z.of_nat (size (address_subscriptions (subs x))) <= maximum_subscriptions options;
  ok_flag : subscribed_address (subs x) = true ↔ address_subscriptions (subs x) ≠ ∅;
  ok_synced : duplex = true → job_reorganized ∉ jobs x →
    map_Forall (synced (current x)) (address_subscriptions (subs x));
}.

(** ** Lemmas *)

Context `{!AddressHistoryLaws}.

Lemma write_confirmed_app a l1 l2 :
  Forall (λ e, history_confirmed e = true) l1 →
  Forall (λ e, history_confirmed e = false) l2 →
  write_confirmed a (l1 ++ l2)%list = (foldl write_status a l1, l2).
Proof.
  intros Hl1 Hl2. revert a. induction Hl1 as [|e l1 He _ IH]; intros a; simpl.
  - destruct Hl2 as [|e l2 He]; [done|]. simpl. by rewrite He.
  - by rewrite He.
Qed.

(** The state of a subscription after a query of its history. *)
Lemma get_scripthash_history_ok c sub key limit ec sub' :
  synced c key sub → get_scripthash_history c sub key limit = (ec, sub') →
  synced c key sub' ∧ type sub' = type sub ∧
  (is_error ec = true → sub' = sub) ∧
  (is_error ec = false →
    seen c key (cursor sub') = length (confirmed c key) ∧
    if bool_decide (seen c key (cursor sub) = length (confirmed c key) ∧ unconfirmed c key = [])
    then status sub' = status sub
    else status sub' = address_status c key).
Proof.
  intros (Hcur & Hseen & Hacc). unfold get_scripthash_history.
  destruct (get_history c (cursor sub) key limit) as [e|[entries cur']] eqn:Hget.
  { intros [= <- <-]. apply get_history_failure in Hget. split_and!; [by split_and!|done..|congruence]. }
  apply get_history_success in Hget as (-> & Hcur' & Hseen'); [|done].
  set (n := seen c key (cursor sub)) in *.
  destruct (Nat.eqb_spec (length (drop n (confirmed c key) ++ unconfirmed c key)%list) 0)
    as [Hnil|Hne]; rewrite length_app, length_drop in *.
  - intros [= <- <-]. simpl. assert (n = length (confirmed c key)) as Hn by lia.
    split_and!; [|done|done|].
    + split_and!; simpl; [done|lia|]. rewrite Hseen'. by rewrite <-Hn.
    + intros _. split; [done|]. rewrite bool_decide_eq_true_2; [done|].
      split; [done|]. apply nil_length_inv. lia.
  - rewrite write_confirmed_app by (apply Forall_drop, confirmed_true || apply unconfirmed_false).
    intros [= <- <-]. cbn [type cursor status accumulator]. rewrite Hacc, <-!foldl_app.
    fold n. rewrite (assoc_L (++)), take_drop. split_and!; [|done|done|].
    + split_and!; simpl; [done|lia|]. rewrite Hseen'. by rewrite firstn_all.
    + intros _. split; [done|]. rewrite bool_decide_eq_false_2.
      * unfold address_status.
        destruct (confirmed c key ++ unconfirmed c key)%list eqn:Hl; [|done].
        apply app_nil in Hl as [Hc Hu]. rewrite Hc, Hu in Hne. simpl in Hne. lia.
      * intros [Hn Hu]. rewrite Hn, Hu in Hne. simpl in Hne. lia.
Qed.

Lemma new_subscription_synced c key t : synced c key (new_subscription t).
Proof.
  unfold synced. simpl. rewrite seen_initial.
  split_and!; [apply initial_cursor_of|lia|done].
Qed.

Lemma synced_extends c c' key sub : extends c c' → synced c key sub → synced c' key sub.
Proof.
  intros Hext (Hcur & Hseen & Hacc).
  destruct (extends_cursor c c' (cursor sub) key Hext Hcur) as [Hcur' Hs].
  destruct (extends_confirmed c c' key Hext) as [more Hmore].
  unfold synced. rewrite Hs, Hmore, length_app. split_and!; [done|lia|].
  by rewrite take_app_le.
Qed.

Lemma get_scripthash_history_error c sub key limit ec sub' :
  get_scripthash_history c sub key limit = (ec, sub') → is_error ec = true → sub' = sub.
Proof.
  unfold get_scripthash_history. destruct (get_history _ _ _ _) as [e|[entries cur']].
  - by intros [= <- <-].
  - destruct (_ =? 0)%nat; [by intros [= <- <-]|].
    destruct (write_confirmed _ _) as [a rest]. by intros [= <- <-].
Qed.

(** The loop of notifications: other keys are left, and a key whose query fails. *)
Lemma do_scripthash_loop_cases c key keys smap smap' sent :
  do_scripthash_loop c (key :: keys) smap = (smap', sent) →
  (smap !! key = None ∧ do_scripthash_loop c keys smap = (smap', sent)) ∨
  ∃ sub ec sub', smap !! key = Some sub ∧
    get_scripthash_history c sub key max_size_t = (ec, sub') ∧
    ((is_error ec = true ∧ smap' = <[key := sub']> smap ∧ sent = []) ∨
     ∃ rest, do_scripthash_loop c keys (<[key := sub']> smap) = (smap', rest) ∧
       sent = if is_error ec || bool_decide (status sub' = status sub) then rest
              else posted_notify (status sub') key (type sub') :: rest).
Proof.
  simpl. destruct (smap !! key) as [sub|]; [|by left]. right.
  destruct (get_scripthash_history c sub key max_size_t) as [ec sub'] eqn:Hget.
  exists sub, ec, sub'. split_and!; [done..|]. destruct (is_error ec).
  - destruct (code_eqb ec canceled); [left|right]; naive_solver.
  - destruct (do_scripthash_loop c keys _) as [smap2 rest]. right. exists rest.
    simpl. naive_solver.
Qed.

Lemma do_scripthash_loop_frame c keys smap smap' sent :
  do_scripthash_loop c keys smap = (smap', sent) →
  dom smap' = dom smap ∧ ∀ k, k ∉ keys → smap' !! k = smap !! k.
Proof.
  revert smap sent. induction keys as [|key keys IH]; intros smap sent.
  { intros [= <- <-]. done. }
  intros [[Hnone Hl]|(sub & ec & sub' & Hsub & _ & [(_ & -> & _)|(rest & Hl & _)])]%do_scripthash_loop_cases.
  - destruct (IH _ _ Hl) as [Hdom Hk]. split; [done|]. set_solver.
  - split; [|intros k Hk; apply lookup_insert_ne; set_solver].
    apply elem_of_dom_2 in Hsub. rewrite dom_insert_L. set_solver.
  - destruct (IH _ _ Hl) as [Hdom Hk]. split.
    + apply elem_of_dom_2 in Hsub. rewrite Hdom, dom_insert_L. set_solver.
    + intros k Hin. rewrite Hk by set_solver. apply lookup_insert_ne. set_solver.
Qed.

Lemma do_scripthash_loop_synced c keys smap smap' sent :
  map_Forall (synced c) smap → do_scripthash_loop c keys smap = (smap', sent) →
  map_Forall (synced c) smap'.
Proof.
  revert smap sent. induction keys as [|key keys IH]; intros smap sent Hs.
  { by intros [= <- <-]. }
  intros [[Hnone Hl]|(sub & ec & sub' & Hsub & Hget & Hcase)]%do_scripthash_loop_cases.
  { by eapply IH. }
  apply get_scripthash_history_ok in Hget as [Hs' _]; [|by apply Hs].
  assert (map_Forall (synced c) (<[key := sub']> smap)) by by apply map_Forall_insert_2.
  destruct Hcase as [(_ & -> & _)|(rest & Hl & _)]; [done|by eapply IH].
Qed.

(** Exactly the subscriptions whose status has changed are notified. *)
Lemma do_scripthash_loop_notifies c keys smap smap' sent key st t :
  NoDup keys → do_scripthash_loop c keys smap = (smap', sent) →
  posted_notify st key t ∈ sent ↔
    ∃ sub sub', key ∈ keys ∧ smap !! key = Some sub ∧ smap' !! key = Some sub' ∧
      status sub' ≠ status sub ∧ st = status sub' ∧ t = type sub'.
Proof.
  intros Hnd. revert smap sent. induction Hnd as [|k keys Hk Hnd IH]; intros smap sent.
  { intros [= <- <-]. split; [by intros ?%not_elem_of_nil|]. set_solver. }
  intros [[Hnone Hl]|(sub & ec & sub' & Hsub & Hget & Hcase)]%do_scripthash_loop_cases.
  { rewrite (IH _ _ Hl). set_solver. }
  destruct (decide (key = k)) as [->|Hne].
  - assert (smap' !! k = Some sub') as Hsub'.
    { destruct Hcase as [(_ & -> & _)|(rest & Hl & _)]; [apply lookup_insert_eq|].
      apply do_scripthash_loop_frame in Hl as [_ ->]; [apply lookup_insert_eq|done]. }
    assert (is_error ec = true → sub' = sub) as Hsame by by eapply get_scripthash_history_error.
    destruct Hcase as [(He & _ & ->)|(rest & Hl & ->)].
    + rewrite (Hsame He) in Hsub'. split; [by intros ?%not_elem_of_nil|]. naive_solver.
    + assert (posted_notify st k t ∉ rest) as Hrest by (rewrite (IH _ _ Hl); naive_solver).
      destruct (is_error ec) eqn:He; simpl.
      { rewrite (Hsame eq_refl) in Hsub'. naive_solver. }
      case_bool_decide as Hst; [naive_solver|].
      rewrite elem_of_cons. split.
      * intros [[= -> ->]|?]; [|done]. exists sub, sub'. split_and!; [set_solver|done..].
      * intros (? & ? & _ & ? & ? & _ & -> & ->). left. by simplify_eq.
  - destruct Hcase as [(He & -> & ->)|(rest & Hl & ->)].
    + rewrite lookup_insert_ne by done. split; [by intros ?%not_elem_of_nil|]. naive_solver.
    + transitivity (posted_notify st key t ∈ rest).
      { destruct (_ || _); [done|]. rewrite elem_of_cons. naive_solver. }
      rewrite (IH _ _ Hl), lookup_insert_ne by done. setoid_rewrite elem_of_cons. naive_solver.
Qed.

(** ** The jobs preserve the invariant *)

Definition table_ok (smap : gmap hash_digest address_subscription) (flag : bool) : Prop :=
  Z.of_nat (size smap) <= maximum_subscriptions options ∧ (flag = true ↔ smap ≠ ∅).

Lemma size_dom_eq (m m' : gmap hash_digest address_subscription) :
  dom m' = dom m → size m' = size m ∧ (m' ≠ ∅ ↔ m ≠ ∅).
Proof.
  intros Hd. split; [by rewrite <-!size_dom, Hd|].
  by rewrite <-!dom_empty_iff_L, Hd.
Qed.

Lemma run_job_table c keys j s s' sent :
  table_ok (address_subscriptions s) (subscribed_address s) →
  run_job c keys j s = (s', sent) →
  table_ok (address_subscriptions s') (subscribed_address s').
Proof.
  intros [Hsize Hflag]. destruct s as [smap flag]. simpl in *. destruct j; simpl.
  - unfold do_scripthash_subscribe. simpl.
    destruct (Z.ltb_spec (Z.of_nat (size smap)) (maximum_subscriptions options)) as [Hlt|];
      [|by intros [= <- <-]].
    destruct (get_scripthash_history c _ _ _) as [ec sub'] eqn:Hget.
    destruct (is_error ec) eqn:He; intros [= <- <-]; simpl.
    + destruct (decide (smap !! hash = None)) as [Hn|Hs].
      * rewrite bool_decide_eq_true_2, delete_id by done. done.
      * rewrite bool_decide_eq_false_2 by done.
        destruct (smap !! hash) as [sub|] eqn:Hsub; [|done]. simpl in Hget.
        apply get_scripthash_history_error in Hget as ->; [|done].
        by rewrite insert_id.
    + split; [|split; [intros _; apply insert_non_empty|done]].
      pose proof (map_size_insert hash sub' smap) as Hins.
      destruct (smap !! hash); simpl in Hins; lia.
  - unfold do_scripthash_unsubscribe. simpl. intros [= <- <-]. simpl. split.
    + pose proof (map_size_delete hash smap) as Hdel. destruct (smap !! hash); simpl in Hdel; lia.
    + destruct (Nat.eqb_spec (size (delete hash smap)) 0) as [Hz|Hz].
      * apply map_size_empty_inv in Hz as ->. naive_solver.
      * rewrite map_size_non_empty_iff in Hz.
        split; [done|]. intros _. apply Hflag. intros ->. by rewrite delete_empty in Hz.
  - unfold do_scripthash. simpl. destruct (do_scripthash_loop c keys smap) as [smap' sent'] eqn:Hl.
    intros [= <- <-]. simpl. apply do_scripthash_loop_frame in Hl as [Hd _].
    apply size_dom_eq in Hd as [Hsz Hne]. unfold table_ok. by rewrite Hsz, Hne.
  - unfold do_reorganized. intros [= <- <-]. simpl. unfold table_ok. rewrite map_size_fmap.
    split; [done|]. by rewrite fmap_empty_iff.
Qed.

Lemma run_job_synced c keys j s s' sent :
  map_Forall (synced c) (address_subscriptions s) ∨ j = job_reorganized →
  run_job c keys j s = (s', sent) →
  map_Forall (synced c) (address_subscriptions s').
Proof.
  intros Hs. destruct s as [smap flag]. destruct j; simpl in *;
    (destruct Hs as [Hs|Hj]; [|try done]).
  - unfold do_scripthash_subscribe. simpl. destruct (_ <? _); [|by intros [= <- <-]].
    destruct (get_scripthash_history c _ _ _) as [ec sub'] eqn:Hget.
    apply get_scripthash_history_ok in Hget as [Hsub' _].
    + destruct (is_error ec); intros [= <- <-]; simpl; [|by apply map_Forall_insert_2].
      destruct (bool_decide _); [by apply map_Forall_delete|by apply map_Forall_insert_2].
    + destruct (smap !! hash) as [sub|] eqn:Hsub; [by apply Hs|apply new_subscription_synced].
  - intros [= <- <-]. simpl. by apply map_Forall_delete.
  - unfold do_scripthash. simpl. destruct (do_scripthash_loop c keys smap) as [smap' sent'] eqn:Hl.
    intros [= <- <-]. simpl. by eapply do_scripthash_loop_synced.
  - intros [= <- <-]. simpl. intros key sub (sub0 & <- & _)%lookup_fmap_Some.
    apply (new_subscription_synced c key (type sub0)).
  - intros [= <- <-]. simpl. intros key sub (sub0 & <- & _)%lookup_fmap_Some.
    apply (new_subscription_synced c key (type sub0)).
Qed.

Lemma subscribe_step_ok x x' : subscriptions_ok x → step x x' → subscriptions_ok x'.
Proof.
  intros [Hsize Hflag Hsync].
  destruct 1 as [x r|x c' event ? ? ? Hext|x c'|x j rest keys s' sent Hj Hkeys Hrun];
    [split; simpl; [done|done|]..|].
  - intros Hd Hin. apply Hsync; [done|]. set_solver.
  - intros Hd Hin. eapply map_Forall_impl; [apply Hsync; [done|set_solver]|].
    intros key sub. by apply synced_extends.
  - intros Hd Hin. destruct Hin. rewrite Hd. unfold address_jobs. simpl. set_solver.
  - destruct (run_job_table _ _ _ _ _ _ (conj Hsize Hflag) Hrun) as [Hsize' Hflag'].
    split; simpl; [done|done|]. intros Hd Hin.
    eapply run_job_synced; [|exact Hrun].
    destruct (decide (j = job_reorganized)) as [->|Hne]; [by right|left].
    apply Hsync; [done|]. rewrite Hj. set_solver.
Qed.

Lemma subscribe_reachable_ok x :
  0 <= maximum_subscriptions options → reachable x → subscriptions_ok x.
Proof.
  intros Hmax [c Hr]. eapply rtc_preserves; [intros ??; apply subscribe_step_ok|exact Hr|].
  split; simpl; [done|done|]. intros _ _. apply map_Forall_empty.
Qed.

(** A status that the loop changes is the address's. *)
Lemma do_scripthash_loop_status c keys smap smap' sent key sub sub' :
  map_Forall (synced c) smap → do_scripthash_loop c keys smap = (smap', sent) →
  smap !! key = Some sub → smap' !! key = Some sub' →
  status sub' = status sub ∨ status sub' = address_status c key.
Proof.
  revert smap sent sub. induction keys as [|k keys IH]; intros smap sent sub Hs.
  { intros [= <- <-] ??. simplify_eq. by left. }
  intros [[Hnone Hl]|(sub0 & ec & sub1 & Hsub & Hget & Hcase)]%do_scripthash_loop_cases Hk Hk'.
  { by eapply IH. }
  pose proof (Hs k sub0 Hsub) as Hs0.
  destruct (get_scripthash_history_ok _ _ _ _ _ _ Hs0 Hget) as (Hs1 & _ & Hfail & Hgood).
  assert (status sub1 = status sub0 ∨ status sub1 = address_status c k) as Hone.
  { destruct (is_error ec) eqn:He; [left; by rewrite Hfail|].
    destruct (Hgood eq_refl) as [_ Hst]. case_bool_decide; auto. }
  assert (map_Forall (synced c) (<[k := sub1]> smap)) as Hs' by by apply map_Forall_insert_2.
  destruct (decide (key = k)) as [->|Hne]; simplify_eq.
  - destruct Hcase as [(_ & -> & _)|(rest & Hl & _)].
    + rewrite lookup_insert_eq in Hk'. by simplify_eq.
    + destruct (IH _ _ sub1 Hs' Hl) as [->|]; [by rewrite lookup_insert_eq|done|done|by right].
  - destruct Hcase as [(_ & -> & _)|(rest & Hl & _)].
    + rewrite lookup_insert_ne in Hk' by done. simplify_eq. by left.
    + eapply IH; [exact Hs'|exact Hl|by rewrite lookup_insert_ne|done].
Qed.

End Specification.

(** ** A reference store, for examples

    All addresses have the same history; a cursor counts entries. *)

#[global] Instance reference_store : AddressStore := {
  chain := list (hash_digest * Z) * list hash_digest;
  cursor_t := nat;
  initial_cursor := 0%nat;
  address_enabled _ := true;
  get_history '(cf, uc) cur _ limit :=
    if limit <? Z.of_nat (length cf + length uc)%nat then inl (Code database_category 1)
    else inr (drop cur ((λ e, History e.1 e.2 0 0 true) <$> cf) ++
      ((λ e, History e 0 0 0 false) <$> uc), length cf)%list;
}.

#[global] Instance reference_history : AddressHistory := {
  confirmed '(cf, _) _ := (λ e, History e.1 e.2 0 0 true) <$> cf;
  unconfirmed '(_, uc) _ := (λ e, History e 0 0 0 false) <$> uc;
  cursor_of '(cf, _) cur := (cur <= length cf)%nat;
  seen _ _ cur := cur;
  extends c c' := c.1 `prefix_of` c'.1;
}.

#[global] Instance reference_history_laws : AddressHistoryLaws.
Proof.
  split.
  - intros [cf uc] h. apply Forall_fmap, Forall_true. done.
  - intros [cf uc] h. apply Forall_fmap, Forall_true. done.
  - intros [cf uc]. simpl. lia.
  - done.
  - intros [cf uc] cur h limit ec. simpl. case_match; [|done]. by intros [= <-].
  - intros [cf uc] cur h limit entries cur' Hcur. simpl. case_match; [done|].
    intros [= <- <-]. rewrite length_fmap. split_and!; [done|lia|done].
  - intros [cf uc] [cf' uc'] h [more Hm]. simpl in *. rewrite Hm, fmap_app. by eexists.
  - intros [cf uc] [cf' uc'] cur h [more Hm]. simpl in *. rewrite Hm, length_app.
    intros. split; [lia|done].
Qed.

#[global] Instance reference_midstate : Midstate := {
  midstate := string;
  initial_midstate := "";
  write_text a t := (a ++ t)%string;
  flush a := (λ c, Z.of_nat (nat_of_ascii c)) <$> String.list_ascii_of_string a;
}.

#[global] Instance reference_scripts : Scripts := {
  script := data_chunk;
  to_script bytes := bytes;
  script_valid bytes := negb (length bytes =? 0)%nat;
  script_hash bytes := bytes;
  payment_address := data_chunk;
  to_payment_address _ := None;
  output_script payment _ _ := payment;
  extract_output script _ _ := Some script;
  encoded payment := String.string_of_list_ascii (ascii_of_nat ∘ Z.to_nat <$> payment);
}.

#[global] Instance reference_store_errors : StoreErrors := {
  depth_limited := 1; query_canceled := 2; integrity := 3;
}.

Definition example_options : subscribe_options := SubscribeOptions 1000 10.
Definition example_key : hash_digest := [7].
Definition example_chain : chain := ([([1], 100)], [[2]]).

(** ** Properties *)

(** In every reachable state a channel holds at most the configured number of
    address subscriptions, and the flag that gates notifications is set exactly
    if there is one. So an event of a full duplex channel posts the notifier if
    and only if it has something to notify. *)
Lemma subscriptions_bounded `{Text} `{StoreErrors} `{AddressHistoryLaws} `{Midstate}
    options duplex x :
  0 <= maximum_subscriptions options → reachable options duplex x →
  Z.of_nat (size (address_subscriptions (subs x))) <= maximum_subscriptions options ∧
  (∀ link height header outpoint,
    job_scripthash ∈ address_jobs false true (chase_organized link) height header outpoint (subs x) ↔
    address_subscriptions (subs x) ≠ ∅).
Proof.
  intros Hmax Hr. destruct (subscribe_reachable_ok options duplex x Hmax Hr) as [Hsize Hflag _].
  split; [done|]. intros link height header outpoint. rewrite <-Hflag. unfold address_jobs. simpl.
  by destruct height, header, outpoint, (subscribed_address (subs x)); simpl; set_solver.
Qed.



(** ** Witnesses and counterexamples *)

(** A channel that has subscribed to one address. *)
Definition subscribed (c : chain) : system :=
  let '(s, sent) :=
    do_scripthash_subscribe example_options c example_key notify_scripthash (State ∅ false) in
  System c [] s sent.

Lemma subscribed_reachable duplex c : reachable example_options duplex (subscribed c).
Proof.
  exists c. eapply rtc_l.
  { apply (step_request example_options duplex (start c)
      (post_subscribe example_key notify_scripthash)). }
  unfold subscribed. destruct (do_scripthash_subscribe _ _ _ _ _) as [s sent] eqn:Hrun.
  apply rtc_once. refine (step_run example_options duplex
    (System c [job_subscribe example_key notify_scripthash] (State ∅ false) [])
    _ [] [] s sent eq_refl _ Hrun).
  cbn [subs address_subscriptions]. by rewrite dom_empty_L, elements_empty.
Qed.


(** The next block confirms the second transaction of the address. *)
Definition example_extended : system :=
  System ([([1], 100); ([2], 101)], [])
    (address_jobs false true (chase_organized 0) false false false
      (subs (subscribed example_chain)))
    (subs (subscribed example_chain)) (outputs (subscribed example_chain)).

Lemma example_extended_reachable : reachable example_options true example_extended.
Proof.
  destruct (subscribed_reachable true example_chain) as [c Hr]. exists c.
  eapply rtc_r; [exact Hr|].
  apply (step_extend _ _ (subscribed example_chain) _ (chase_organized 0)).
  by exists [([2], 101)].
Qed.

Definition example_run : subscriptions * list posted :=
  do_scripthash (current example_extended) [example_key] (subs example_extended).


(** An unconfirmed transaction that leaves the pool is not noticed: the address
    has a new status, and the notifier leaves the old one and posts nothing,
    because the query answers no entry after the cursor. *)
Example dropped_transaction_not_notified :
  let before : chain := ([([1], 100)], [[2]]) in
  let after : chain := ([([1], 100)], []) in
  let x := subscribed before in
  extends before after ∧
  address_status after example_key ≠ address_status before example_key ∧
  (do_scripthash after [example_key] (subs x)).2 = [] ∧
  (status <$> address_subscriptions (do_scripthash after [example_key] (subs x)).1 !! example_key) =
    Some (address_status before example_key).
Proof.
  cbn zeta. split; [by exists []|].
  split; [vm_compute; discriminate|]. split; vm_compute; reflexivity.
Qed.

(** A reorganization is not posted to a channel that is not full duplex (http
    post), so that a later subscription to the same address answers the status
    of the chain that was left. *)
Example http_reorganization_not_reset :
  let before : chain := ([([1], 100)], []) in
  let after : chain := ([([3], 100)], []) in
  let x := System after [] (subs (subscribed before)) (outputs (subscribed before)) in
  reachable example_options false x ∧
  (do_scripthash_subscribe example_options after example_key notify_scripthash (subs x)).2 =
    [posted_subscribe (Error.make Error.success)
      (address_status before example_key)] ∧
  address_status after example_key ≠ address_status before example_key.
Proof.
  cbn zeta. split.
  - destruct (subscribed_reachable false ([([1], 100)], [])) as [c Hr]. exists c.
    eapply rtc_r; [exact Hr|].
    apply (step_reorganize example_options false (subscribed ([([1], 100)], []))
      ([([3], 100)], []) 0 false false false).
  - split; [vm_compute; reflexivity|vm_compute; discriminate].
Qed.
