(* ===== verification/ElectrumAddresses.v ===== *)
(** Electrum queries of an address: balance, history, mempool and unspent outputs,
    by scripthash (src/protocols/electrum/protocol_electrum_scripthash.cpp), by
    address (protocol_electrum_addresses.cpp) and by script
    (protocol_electrum_scriptpubkey.cpp).

    A request is checked on the channel's strand, its query runs in parallel, and
    its completion returns to the channel's strand, which may have stopped by
    then. *)
From S2P Require Import Prelude Rpc Errors System ElectrumVersion ElectrumSubscribe.

(** [database::unspent]. *)
Record unspent := Unspent {
  unspent_hash : hash_digest;
  unspent_index : Z;
  unspent_height : Z;
  unspent_value : Z;
}.

(** The queries of the archive besides those of subscriptions. *)
Class AddressQueries `{AddressStore} := {
  (** The confirmed and the unconfirmed balance, as unsigned 64-bit integers. *)
  get_balance_of : chain → hash_digest → code + (Z * Z);
  get_unconfirmed_history : chain → hash_digest → Z → code + list history;
  get_unspent : chain → hash_digest → code + list unspent;
}.

Section Addresses.
Context `{Text} `{StoreErrors} `{AddressQueries} `{Scripts}.
Context (maximum_history : Z) (p2kh p2sh : Z).

(** ** Results *)

Definition wrapped (out : array) (key : string) (wrap : bool) : value_t :=
  if negb wrap then array_t out else object_t [(key, array_t out)].

Definition transform_history (ins : list history) : array :=
  (λ entry,
    let o := [("height", int64_t (to_signed (history_height entry)));
              ("tx_hash", string_t (encode_hash (history_hash entry)))] in
    object_t (if negb (history_confirmed entry)
      then set_field "fee" (uint64_t (history_fee entry)) o else o)) <$> ins.

Definition transform_unspent (ins : list unspent) : array :=
  (λ entry, object_t
    [("tx_hash", string_t (encode_hash (unspent_hash entry)));
     ("tx_pos", uint32_t (unspent_index entry));
     ("height", uint64_t (unspent_height entry));
     ("value", uint64_t (unspent_value entry))]) <$> ins.

(** ** Requests *)

(** What runs in parallel. *)
Inductive query :=
  | query_balance (hash : hash_digest)
  | query_history (hash : hash_digest) (wrap : bool)
  | query_mempool (hash : hash_digest) (wrap : bool)
  | query_unspent (hash : hash_digest) (wrap : bool).

Inductive query_reaction :=
  | query_ignored
  | query_code (ec : code)
  | parallel (q : query).

(** The common functions of the three families, which differ only in the query. *)
Definition enabled (c : chain) (q : query) : query_reaction :=
  if negb (address_enabled c) then query_code method_not_found else parallel q.

Definition get_balance (c : chain) (hash : hash_digest) : query_reaction :=
  enabled c (query_balance hash).
Definition get_history_ (c : chain) (hash : hash_digest) (wrap : bool) : query_reaction :=
  enabled c (query_history hash wrap).
Definition get_mempool (c : chain) (hash : hash_digest) (wrap : bool) : query_reaction :=
  enabled c (query_mempool hash wrap).
Definition list_unspent (c : chain) (hash : hash_digest) (wrap : bool) : query_reaction :=
  enabled c (query_unspent hash wrap).

(** The checks of a family's handlers. *)
Definition scripthash_query (stopped : bool) (v : version) (scripthash : string)
    (then_ : hash_digest → query_reaction) : query_reaction :=
  if stopped then query_ignored
  else if negb (at_least v v1_1) || at_least v v1_7 then query_code bad_request
  else
    match decode_hash scripthash with
    | None => query_code bad_request
    | Some hash => then_ hash
    end.

Definition address_query (stopped : bool) (v : version) (address : string)
    (then_ : hash_digest → query_reaction) : query_reaction :=
  if stopped then query_ignored
  else if at_least v v1_3 then query_code bad_request
  else
    let hash := extract_scripthash p2kh p2sh address in
    if bool_decide (hash = null_hash) then query_code bad_request else then_ hash.

Definition scriptpubkey_query (stopped : bool) (v : version) (scriptpubkey : string)
    (then_ : hash_digest → query_reaction) : query_reaction :=
  if stopped then query_ignored
  else if negb (at_least v v1_7) then query_code bad_request
  else
    match decode_base16 scriptpubkey with
    | None => query_code bad_request
    | Some bytes =>
        let script := to_script bytes in
        if negb (script_valid script) then query_code bad_request
        else then_ (script_hash script)
    end.

Definition handle_blockchain_scripthash_get_balance (c : chain) (stopped : bool)
    (v : version) (scripthash : string) : query_reaction :=
  scripthash_query stopped v scripthash (get_balance c).
Definition handle_blockchain_scripthash_get_history (c : chain) (stopped : bool)
    (v : version) (scripthash : string) : query_reaction :=
  scripthash_query stopped v scripthash (λ hash, get_history_ c hash false).
Definition handle_blockchain_scripthash_get_mempool (c : chain) (stopped : bool)
    (v : version) (scripthash : string) : query_reaction :=
  scripthash_query stopped v scripthash (λ hash, get_mempool c hash false).
Definition handle_blockchain_scripthash_list_unspent (c : chain) (stopped : bool)
    (v : version) (scripthash : string) : query_reaction :=
  scripthash_query stopped v scripthash (λ hash, list_unspent c hash false).

Definition handle_blockchain_address_get_balance (c : chain) (stopped : bool)
    (v : version) (address : string) : query_reaction :=
  address_query stopped v address (get_balance c).
Definition handle_blockchain_address_get_history (c : chain) (stopped : bool)
    (v : version) (address : string) : query_reaction :=
  address_query stopped v address (λ hash, get_history_ c hash false).
Definition handle_blockchain_address_get_mempool (c : chain) (stopped : bool)
    (v : version) (address : string) : query_reaction :=
  address_query stopped v address (λ hash, get_mempool c hash false).
Definition handle_blockchain_address_list_unspent (c : chain) (stopped : bool)
    (v : version) (address : string) : query_reaction :=
  address_query stopped v address (λ hash, list_unspent c hash false).

Definition handle_blockchain_scriptpubkey_get_balance (c : chain) (stopped : bool)
    (v : version) (scriptpubkey : string) : query_reaction :=
  scriptpubkey_query stopped v scriptpubkey (get_balance c).
Definition handle_blockchain_scriptpubkey_get_history (c : chain) (stopped : bool)
    (v : version) (scriptpubkey : string) : query_reaction :=
  scriptpubkey_query stopped v scriptpubkey (λ hash, get_history_ c hash true).
Definition handle_blockchain_scriptpubkey_get_mempool (c : chain) (stopped : bool)
    (v : version) (scriptpubkey : string) : query_reaction :=
  scriptpubkey_query stopped v scriptpubkey (λ hash, get_mempool c hash true).
Definition handle_blockchain_scriptpubkey_list_unspent (c : chain) (stopped : bool)
    (v : version) (scriptpubkey : string) : query_reaction :=
  scriptpubkey_query stopped v scriptpubkey (λ hash, list_unspent c hash true).

(** ** Queries and completions *)

(** What a query posts; a failed one posts its code, its values are not read. *)
Inductive query_posted :=
  | posted_balance (ec : code) (confirmed unconfirmed : Z)
  | posted_history (ec : code) (entries : list history) (wrap : bool)
  | posted_mempool (ec : code) (entries : list history) (wrap : bool)
  | posted_unspent (ec : code) (entries : list unspent) (wrap : bool).

Definition succeeded : code := Error.make Error.success.

Definition do_get_balance (c : chain) (hash : hash_digest) : query_posted :=
  match get_balance_of c hash with
  | inl ec => posted_balance ec 0 0
  | inr (confirmed, unconfirmed) => posted_balance succeeded confirmed unconfirmed
  end.

(** The cursor is that of a new query. *)
Definition do_get_history (c : chain) (hash : hash_digest) (wrap : bool) : query_posted :=
  match get_history c initial_cursor hash maximum_history with
  | inl ec => posted_history ec [] wrap
  | inr (entries, _) => posted_history succeeded entries wrap
  end.

Definition do_get_mempool (c : chain) (hash : hash_digest) (wrap : bool) : query_posted :=
  match get_unconfirmed_history c hash maximum_history with
  | inl ec => posted_mempool ec [] wrap
  | inr entries => posted_mempool succeeded entries wrap
  end.

Definition do_list_unspent (c : chain) (hash : hash_digest) (wrap : bool) : query_posted :=
  match get_unspent c hash with
  | inl ec => posted_unspent ec [] wrap
  | inr entries => posted_unspent succeeded entries wrap
  end.

Definition run_query (c : chain) (q : query) : query_posted :=
  match q with
  | query_balance hash => do_get_balance c hash
  | query_history hash wrap => do_get_history c hash wrap
  | query_mempool hash wrap => do_get_mempool c hash wrap
  | query_unspent hash wrap => do_list_unspent c hash wrap
  end.

Definition completed_with (stopped : bool) (ec : code) (v : value_t) : list wire :=
  if stopped then []
  else if is_error ec then
    [wire_code (ElectrumError.translate ec ElectrumError.daemon_error)]
  else [wire_result v].

(** The unconfirmed balance is passed as a signed integer. *)
Definition complete_get_balance (stopped : bool) (ec : code) (confirmed unconfirmed : Z) :
    list wire :=
  completed_with stopped ec (object_t
    [("confirmed", uint64_t confirmed); ("unconfirmed", int64_t (to_signed unconfirmed))]).

Definition complete_get_history (stopped : bool) (ec : code) (entries : list history)
    (wrap : bool) : list wire :=
  completed_with stopped ec (wrapped (transform_history entries) "history" wrap).

Definition complete_get_mempool (stopped : bool) (ec : code) (entries : list history)
    (wrap : bool) : list wire :=
  completed_with stopped ec (wrapped (transform_history entries) "history" wrap).

Definition complete_list_unspent (stopped : bool) (ec : code) (entries : list unspent)
    (wrap : bool) : list wire :=
  completed_with stopped ec (wrapped (transform_unspent entries) "utxos" wrap).

Definition complete_query (stopped : bool) (p : query_posted) : list wire :=
  match p with
  | posted_balance ec confirmed unconfirmed =>
      complete_get_balance stopped ec confirmed unconfirmed
  | posted_history ec entries wrap => complete_get_history stopped ec entries wrap
  | posted_mempool ec entries wrap => complete_get_mempool stopped ec entries wrap
  | posted_unspent ec entries wrap => complete_list_unspent stopped ec entries wrap
  end.

(** What the client gets for a request, when [c'] is the chain of the query and
    [stopped'] tells whether the channel has stopped by its completion. *)
Definition serve (c' : chain) (stopped' : bool) (r : query_reaction) : list wire :=
  match r with
  | query_ignored => []
  | query_code ec => [wire_code ec]
  | parallel q => complete_query stopped' (run_query c' q)
  end.

(** ** The methods as a table *)

Inductive family := by_address | by_scripthash | by_script.
Inductive method := balance | history_of | mempool_of | unspent_of.

Definition handler (f : family) (m : method) :
    chain → bool → version → string → query_reaction :=
  match f, m with
  | by_address, balance => handle_blockchain_address_get_balance
  | by_address, history_of => handle_blockchain_address_get_history
  | by_address, mempool_of => handle_blockchain_address_get_mempool
  | by_address, unspent_of => handle_blockchain_address_list_unspent
  | by_scripthash, balance => handle_blockchain_scripthash_get_balance
  | by_scripthash, history_of => handle_blockchain_scripthash_get_history
  | by_scripthash, mempool_of => handle_blockchain_scripthash_get_mempool
  | by_scripthash, unspent_of => handle_blockchain_scripthash_list_unspent
  | by_script, balance => handle_blockchain_scriptpubkey_get_balance
  | by_script, history_of => handle_blockchain_scriptpubkey_get_history
  | by_script, mempool_of => handle_blockchain_scriptpubkey_get_mempool
  | by_script, unspent_of => handle_blockchain_scriptpubkey_list_unspent
  end.

(** The versions that have a family of methods. *)
Definition offered (f : family) (v : version) : bool :=
  match f with
  | by_address => version_before v v1_3
  | by_scripthash => at_least v v1_1 && version_before v v1_7
  | by_script => at_least v v1_7
  end.

(** The script that the text of a request names, by its hash. *)
Definition target (f : family) (text : string) : option hash_digest :=
  match f with
  | by_address =>
      let hash := extract_scripthash p2kh p2sh text in
      if bool_decide (hash = null_hash) then None else Some hash
  | by_scripthash => decode_hash text
  | by_script =>
      bytes ← decode_base16 text;
      if script_valid (to_script bytes) then Some (script_hash (to_script bytes)) else None
  end.

Definition is_wrapped (f : family) : bool := match f with by_script => true | _ => false end.

Definition query_of (m : method) (hash : hash_digest) (wrap : bool) : query :=
  match m with
  | balance => query_balance hash
  | history_of => query_history hash wrap
  | mempool_of => query_mempool hash wrap
  | unspent_of => query_unspent hash wrap
  end.

(** ** Lemmas *)

(** Every handler is its line of the table. *)
Lemma handler_reaction f m c v text :
  handler f m c false v text =
    if offered f v then
      match target f text with
      | None => query_code bad_request
      | Some hash => enabled c (query_of m hash (is_wrapped f))
      end
    else query_code bad_request.
Proof.
  assert (∀ then_, scripthash_query false v text then_ =
    if offered by_scripthash v then
      match target by_scripthash text with Some hash => then_ hash | None => query_code bad_request end
    else query_code bad_request) as Hs.
  { intros then_. unfold scripthash_query, offered, at_least.
    by destruct (version_before v v1_1), (version_before v v1_7). }
  assert (∀ then_, address_query false v text then_ =
    if offered by_address v then
      match target by_address text with Some hash => then_ hash | None => query_code bad_request end
    else query_code bad_request) as Ha.
  { intros then_. unfold address_query, offered, at_least. simpl.
    destruct (version_before v v1_3); simpl; [|done]. by case_bool_decide. }
  assert (∀ then_, scriptpubkey_query false v text then_ =
    if offered by_script v then
      match target by_script text with Some hash => then_ hash | None => query_code bad_request end
    else query_code bad_request) as Hk.
  { intros then_. unfold scriptpubkey_query, offered. simpl.
    destruct (at_least v v1_7); simpl; [|done].
    destruct (decode_base16 text) as [bytes|]; simpl; [|done].
    by destruct (script_valid (to_script bytes)). }
  destruct f, m; first [apply Ha|apply Hs|apply Hk].
Qed.

(** The completion of a query is one message. *)
Lemma completed_with_one ec value :
  ∃ w, completed_with false ec value = [w] ∧
    match w with
    | wire_result result => is_error ec = false ∧ result = value
    | wire_code ec' => is_error ec = true ∧ is_error ec' = true ∧ category ec' = electrum_category
    | wire_notification _ _ => False
    end.
Proof.
  unfold completed_with. destruct electrum_translation_ok as [Hcat Hfail _].
  destruct (is_error ec) eqn:He; eexists; (split; [done|]); [|done].
  split_and!; [done| |apply Hcat]. rewrite Hfail by done. exact He.
Qed.

End Addresses.

(** ** The status that a client computes

    A client hashes the entries of a history response, and compares the result
    with the status of its subscription. *)

(** Text is written in pieces. *)
Class MidstateLaws `{Midstate} : Prop := {
  write_text_app a s t : write_text a (s ++ t) = write_text (write_text a s) t;
  write_text_nil a : write_text a "" = a;
}.

(** The mempool query answers the unconfirmed entries of the history; failures are
    errors and balances have 64 bits. *)
Class AddressQueriesLaws `{AddressHistory} `{!AddressQueries} : Prop := {
  get_unconfirmed_history_success c h limit entries :
    get_unconfirmed_history c h limit = inr entries → entries = unconfirmed c h;
  get_unconfirmed_history_failure c h limit ec :
    get_unconfirmed_history c h limit = inl ec → is_error ec = true;
  get_unspent_failure c h ec : get_unspent c h = inl ec → is_error ec = true;
  get_balance_failure c h ec : get_balance_of c h = inl ec → is_error ec = true;
  get_balance_range c h confirmed unconfirmed :
    get_balance_of c h = inr (confirmed, unconfirmed) → 0 <= unconfirmed < 2 ^ 64;
}.

Section Client.
Context `{Text} `{StoreErrors} `{AddressHistory} `{!AddressQueries} `{Midstate}.

Definition item_text (item : value_t) : string :=
  match item with
  | object_t o =>
      match find_field "tx_hash" o, find_field "height" o with
      | Some (string_t hash), Some (int64_t height) => hash ++ ":" ++ to_decimal height ++ ":"
      | _, _ => ""
      end
  | _ => ""
  end.

Definition client_status (items : array) : hash_digest :=
  match items with
  | [] => null_hash
  | _ => flush (write_text initial_midstate (String.concat "" (item_text <$> items)))
  end.

(** Whether an entry of a response has a fee. *)
Definition has_fee (item : value_t) : bool :=
  match item with object_t o => has_field "fee" o | _ => false end.

Lemma item_text_history entry :
  item_text (object_t (if negb (history_confirmed entry)
    then set_field "fee" (uint64_t (history_fee entry))
      [("height", int64_t (to_signed (history_height entry)));
       ("tx_hash", string_t (encode_hash (history_hash entry)))]
    else [("height", int64_t (to_signed (history_height entry)));
       ("tx_hash", string_t (encode_hash (history_hash entry)))])) =
  encode_hash (history_hash entry) ++ ":" ++ to_decimal (to_signed (history_height entry)) ++ ":".
Proof. by destruct (history_confirmed entry). Qed.

Lemma concat_cons s l : String.concat "" (s :: l) = s ++ String.concat "" l.
Proof. destruct l; simpl; [by rewrite string_app_nil|done]. Qed.

Lemma write_items `{!MidstateLaws} entries a :
  foldl write_status a entries =
    write_text a (String.concat "" (item_text <$> transform_history entries)).
Proof.
  revert a. induction entries as [|entry entries IH]; intros a; [by rewrite write_text_nil|].
  change (item_text <$> transform_history (entry :: entries)) with
    (item_text (object_t (if negb (history_confirmed entry)
      then set_field "fee" (uint64_t (history_fee entry))
        [("height", int64_t (to_signed (history_height entry)));
         ("tx_hash", string_t (encode_hash (history_hash entry)))]
      else [("height", int64_t (to_signed (history_height entry)));
         ("tx_hash", string_t (encode_hash (history_hash entry)))])) ::
      (item_text <$> transform_history entries)).
  cbn [foldl]. rewrite concat_cons, IH, write_text_app. f_equal.
  by rewrite item_text_history, !write_text_app.
Qed.

Lemma client_status_history `{!MidstateLaws} c hash :
  client_status (transform_history (confirmed c hash ++ unconfirmed c hash)) =
    address_status c hash.
Proof.
  unfold client_status, address_status.
  destruct (confirmed c hash ++ unconfirmed c hash)%list as [|entry entries] eqn:He; [done|].
  by rewrite write_items.
Qed.

End Client.

(** ** Reference queries, for examples *)

#[global] Instance reference_queries : AddressQueries := {
  get_balance_of _ _ := inr (50, 2 ^ 64 - 7);
  get_unconfirmed_history c h _ := inr (unconfirmed c h);
  get_unspent _ h := inr [Unspent h 0 100 50];
}.

#[global] Instance reference_queries_laws : AddressQueriesLaws.
Proof. split; simpl; [by intros ???? [= <-]|done..|by intros ???? [= <- <-]]. Qed.

#[global] Instance reference_midstate_laws : MidstateLaws.
Proof.
  split; simpl; [|apply string_app_nil].
  intros a t u. induction a as [|x a IH]; [done|]. exact (f_equal (String x) IH).
Qed.

(** ** Properties *)

(** The archive answers a query. *)
Definition answers `{AddressQueries} (maximum_history : Z) (c : chain) (m : method)
    (hash : hash_digest) : bool :=
  match m with
  | balance => if get_balance_of c hash is inr _ then true else false
  | history_of => if get_history c initial_cursor hash maximum_history is inr _ then true else false
  | mempool_of => if get_unconfirmed_history c hash maximum_history is inr _ then true else false
  | unspent_of => if get_unspent c hash is inr _ then true else false
  end.

(** A query completes with a code that is an error unless the archive answers. *)
Lemma complete_query_code `{Text} `{StoreErrors} `{AddressQueriesLaws} `{!AddressHistoryLaws}
    maximum c m hash wrap :
  ∃ ec value, complete_query false (run_query maximum c (query_of m hash wrap)) =
      completed_with false ec value ∧ is_error ec = negb (answers maximum c m hash).
Proof.
  destruct m; simpl.
  - unfold do_get_balance. destruct (get_balance_of c hash) as [ec|[]] eqn:Hq; do 2 eexists;
      (split; [done|]); [by eapply get_balance_failure|done].
  - unfold do_get_history. destruct (get_history _ _ _ _) as [ec|[]] eqn:Hq; do 2 eexists;
      (split; [done|]); [by eapply get_history_failure|done].
  - unfold do_get_mempool. destruct (get_unconfirmed_history _ _ _) as [ec|] eqn:Hq; do 2 eexists;
      (split; [done|]); [by eapply get_unconfirmed_history_failure|done].
  - unfold do_list_unspent. destruct (get_unspent c hash) as [ec|] eqn:Hq; do 2 eexists;
      (split; [done|]); [by eapply get_unspent_failure|done].
Qed.

(** Every request for the balance, history, mempool or unspent outputs of an
    address, on a channel that does not stop, is answered by exactly one message.
    It is a result exactly if the negotiated version has the method, the text names
    a script, the archive is indexed by address, and the archive answers; and
    otherwise an error of the electrum code space. *)
Lemma address_query_answered `{Text} `{StoreErrors} `{AddressQueriesLaws}
    `{!AddressHistoryLaws} `{Scripts} maximum p2kh p2sh f m c c' v text :
  ∃ w, serve maximum c' false (handler p2kh p2sh f m c false v text) = [w] ∧
    let ok := offered f v && address_enabled c &&
      from_option (answers maximum c' m) false (target p2kh p2sh f text) in
    match w with
    | wire_result _ => ok = true
    | wire_code ec => ok = false ∧ is_error ec = true ∧ category ec = electrum_category
    | wire_notification _ _ => False
    end.
Proof.
  rewrite handler_reaction. destruct (offered f v); [|by eexists].
  destruct (target p2kh p2sh f text) as [hash|]; [|rewrite andb_false_r; by eexists].
  unfold enabled. destruct (address_enabled c); [|by eexists]. cbn [negb serve andb from_option].
  destruct (complete_query_code maximum c' m hash (is_wrapped f)) as (ec & value & -> & Hec).
  destruct (completed_with_one ec value) as (w & -> & Hw). exists w. split; [done|].
  destruct w as [ec'|result|]; [|destruct Hw as [Hw _]|done];
    rewrite Hec in Hw; destruct (answers maximum c' m hash); naive_solver.
Qed.

(** The history response and the subscription agree: the status that a client
    computes from the entries of a history response is the status of the address,
    which [subscribe_status] shows its subscription to carry. The response has the
    confirmed entries first, and a fee for exactly the unconfirmed ones; the mempool
    response of the same chain is the unconfirmed part of it. *)
Lemma history_response_status `{Text} `{StoreErrors} `{AddressQueriesLaws}
    `{!AddressHistoryLaws} `{Scripts} `{MidstateLaws} maximum p2kh p2sh f c v text value :
  serve maximum c false (handler p2kh p2sh f history_of c false v text) = [wire_result value] →
  ∃ hash items mempool,
    target p2kh p2sh f text = Some hash ∧
    value = wrapped (items ++ mempool) "history" (is_wrapped f) ∧
    client_status (items ++ mempool) = address_status c hash ∧
    Forall (λ item, has_fee item = false) items ∧ Forall (λ item, has_fee item = true) mempool ∧
    (∀ value', serve maximum c false (handler p2kh p2sh f mempool_of c false v text) =
        [wire_result value'] → value' = wrapped mempool "history" (is_wrapped f)).
Proof.
  rewrite !handler_reaction. destruct (offered f v); [|done].
  destruct (target p2kh p2sh f text) as [hash|]; [|done].
  unfold enabled. destruct (address_enabled c); [|done]. cbn [negb serve].
  simpl. unfold do_get_history. destruct (get_history _ _ _ _) as [ec|[entries cur]] eqn:Hget.
  { apply get_history_failure in Hget. simpl. unfold complete_get_history, completed_with.
    by rewrite Hget. }
  apply get_history_success in Hget as (-> & _); [|apply initial_cursor_of].
  rewrite seen_initial, drop_0. intros [= <-].
  exists hash, (transform_history (confirmed c hash)), (transform_history (unconfirmed c hash)).
  assert (∀ b l, Forall (λ e, history_confirmed e = b) l →
    Forall (λ item, has_fee item = negb b) (transform_history l)) as Hfee.
  { intros b l Hl. unfold transform_history. apply Forall_fmap. eapply Forall_impl; [exact Hl|].
    simpl. intros e <-. by destruct (history_confirmed e). }
  assert (transform_history (confirmed c hash ++ unconfirmed c hash) =
    transform_history (confirmed c hash) ++ transform_history (unconfirmed c hash))%list
    as Happ by apply fmap_app.
  split_and!; [done|by rewrite <-Happ| | | |].
  - rewrite <-Happ. apply client_status_history.
  - apply (Hfee true), confirmed_true.
  - apply (Hfee false), unconfirmed_false.
  - intros value'. unfold do_get_mempool.
    destruct (get_unconfirmed_history _ _ _) as [ec|l] eqn:Hq.
    + apply get_unconfirmed_history_failure in Hq. simpl.
      unfold complete_get_mempool, completed_with. by rewrite Hq.
    + apply get_unconfirmed_history_success in Hq as ->. by intros [= <-].
Qed.

(** A request of a 1.7 client by the bytes of a script. *)
Lemma history_response_status_witness :
  ∃ items, serve 1000 example_chain false
      (handler 0 5 by_script history_of example_chain false v1_7 "0709") =
    [wire_result (object_t [("history", array_t items)])] ∧
    client_status items = address_status example_chain [7; 9].
Proof.
  assert (∃ value, serve 1000 example_chain false
    (handler 0 5 by_script history_of example_chain false v1_7 "0709") = [wire_result value])
    as [value Hv] by (eexists; vm_compute; reflexivity).
  destruct (history_response_status 1000 0 5 by_script example_chain v1_7 "0709" value Hv)
    as (hash & items & mempool & Ht & -> & Hs & _).
  exists (items ++ mempool)%list. split; [exact Hv|].
  vm_compute in Ht. injection Ht as <-. exact Hs.
Defined.
