(* ===== verification/FeeHistogram.v ===== *)
(** Fee histograms of the transaction pool (src/utilities/chain.cpp).

    [to_fee_histogram] bins by exact rate, [to_compact_fee_histogram] by tenths of a
    rate with bins that grow by a tenth. Floating point numbers are those of the
    machine, rounded to nearest. *)
From Corelib Require Import SpecFloat FloatOps.
From stdpp Require Import sorting.
From S2P Require Import Prelude Rpc System.

(** ** Data *)

(** [database::fee_rate]. *)
Record fee_rate := FeeRate { bytes : Z; fee : Z }.

(** Rates and sizes, by descending rate. *)
Abbreviation fee_histogram := (list (double * Z)).

(** [to_floating] of an unsigned integer: the nearest double. *)
Definition to_floating (n : Z) : double := SF2Prim (binary_normalize prec emax n 0 false).

(** The sum of a measure. *)
Definition sum_with {A} (f : A → Z) (l : list A) : Z := foldr (λ x total, f x + total) 0 l.

Section Histograms.
Context `{SizeMath}.

(** ** By exact rate *)

Definition rate (tx : fee_rate) : double :=
  if bytes tx =? 0 then PrimFloat.zero
  else PrimFloat.div (to_floating (fee tx)) (to_floating (bytes tx)).

(** [a] is not after [b]: not [rate(b) > rate(a)]. *)
Definition rate_before (a b : fee_rate) : Prop := PrimFloat.ltb (rate a) (rate b) = false.

#[global] Instance rate_before_dec a b : Decision (rate_before a b).
Proof. unfold rate_before. apply _. Defined.

Fixpoint histogram_loop (bin : Z) (rates : list fee_rate) (last : double) (size : Z)
    (out : fee_histogram) : fee_histogram :=
  match rates with
  | [] => if negb (size =? 0) then (out ++ [(last, size)])%list else out
  | tx :: rates =>
      let current := rate tx in
      let '(out, size) :=
        if (bin <? size) && negb (PrimFloat.eqb current last)
        then ((out ++ [(last, size)])%list, 0) else (out, size) in
      histogram_loop bin rates current (ceilinged_add size (bytes tx)) out
  end.

Definition to_fee_histogram (rates : list fee_rate) (bin : Z) : fee_histogram :=
  histogram_loop bin (merge_sort rate_before rates) PrimFloat.zero 0 [].

(** ** Compact *)

(** The double nearest to 1.1. *)
Definition growth : double := PrimFloat.div (to_floating 11) (to_floating 10).
Definition tenths : Z := 10.

Definition to_tenths (tx : fee_rate) : Z :=
  let fee := ceilinged_multiply (fee tx) tenths in
  if bytes tx =? 0 then 0 else fee / bytes tx.

Definition add_size (sizes : gmap Z Z) (tx : fee_rate) : gmap Z Z :=
  let rate := to_tenths tx in
  <[rate := ceilinged_add (default 0 (sizes !! rate)) (bytes tx)]> sizes.

(** [std::map] with [std::greater]: entries by descending key. *)
Definition key_before (a b : Z * Z) : Prop := b.1 <= a.1.

#[global] Instance key_before_dec a b : Decision (key_before a b).
Proof. unfold key_before. apply _. Defined.

Definition descending (sizes : gmap Z Z) : list (Z * Z) :=
  merge_sort key_before (map_to_list sizes).

Definition to_rate (rate : Z) : double := PrimFloat.div (to_floating rate) (to_floating tenths).

(** The variables of the loop. *)
Record compaction := Compaction {
  size_ : Z;
  last_ : Z;
  limit_ : double;
  out_ : fee_histogram;
}.

(** Close the bin at a rate: the limit grows and the size is reset. *)
Definition close_bin (rate : Z) (c : compaction) : compaction :=
  Compaction 0 (last_ c) (PrimFloat.mul (limit_ c) growth)
    (out_ c ++ [(to_rate rate, size_ c)])%list.

Definition compact_entry (c : compaction) (entry : Z * Z) : compaction :=
  let '(rate, bytes) := entry in
  let c :=
    if negb (size_ c =? 0) &&
       PrimFloat.ltb (PrimFloat.mul PrimFloat.two (limit_ c)) (to_floating bytes)
    then close_bin (last_ c) c else c in
  let c := Compaction (ceilinged_add (size_ c) bytes) (last_ c) (limit_ c) (out_ c) in
  let c := if PrimFloat.ltb (limit_ c) (to_floating (size_ c)) then close_bin rate c else c in
  Compaction (size_ c) rate (limit_ c) (out_ c).

Definition to_compact_fee_histogram (rates : list fee_rate) (bin : Z) : fee_histogram :=
  let sizes := foldl add_size ∅ rates in
  out_ (foldl compact_entry (Compaction 0 0 (to_floating bin) []) (descending sizes)).

(** ** Lemmas *)

Context `{!SizeMathLaws}.

Lemma sum_with_app {A} (f : A → Z) l k : sum_with f (l ++ k)%list = sum_with f l + sum_with f k.
Proof. induction l as [|x l IH]; simpl; [done|]. rewrite IH. lia. Qed.

Lemma sum_with_nonneg {A} (f : A → Z) l : Forall (λ x, 0 <= f x) l → 0 <= sum_with f l.
Proof. induction 1; simpl; lia. Qed.

#[global] Instance sum_with_perm {A} (f : A → Z) : Proper ((≡ₚ) ==> (=)) (sum_with f).
Proof. induction 1; simpl; lia. Qed.

Lemma sum_with_ext {A} (f g : A → Z) l :
  Forall (λ x, f x = g x) l → sum_with f l = sum_with g l.
Proof. induction 1 as [|x l Hx _ IH]; simpl; [done|]. by rewrite Hx, IH. Qed.

Lemma sum_with_zero {A} (f : A → Z) l : Forall (λ x, f x = 0) l → sum_with f l = 0.
Proof. induction 1 as [|x l Hx _ IH]; simpl; [done|]. by rewrite Hx, IH. Qed.

Lemma ceilinged_add_exact a b : a + b <= max_size_t → ceilinged_add a b = a + b.
Proof. intros. rewrite ceilinged_add_spec. lia. Qed.

(** The loop loses no bytes, and closes no bin that is not full. *)
Lemma histogram_loop_sum bin rates last size out :
  0 <= bin → 0 <= size → Forall (λ tx, 0 <= bytes tx) rates →
  size + sum_with bytes rates <= max_size_t →
  ∃ bins rest, histogram_loop bin rates last size out = (out ++ bins ++ rest)%list ∧
    Forall (λ b, bin < b.2) bins ∧ Forall (λ b, 0 < b.2) rest ∧ (length rest <= 1)%nat ∧
    sum_with snd (bins ++ rest)%list = size + sum_with bytes rates.
Proof.
  intros Hbin Hsize Hrates. revert last size out Hsize.
  induction Hrates as [|tx rates Htx Hrates IH]; intros last size out Hsize Hmax; simpl.
  { destruct (Z.eqb_spec size 0) as [->|Hne]; simpl.
    - exists [], []. rewrite app_nil_r. split_and!; [done|constructor|constructor|simpl; lia|done].
    - exists [], [(last, size)]. split_and!; [done|constructor|repeat constructor; simpl; lia|done|].
      simpl. lia. }
  simpl in Hmax. apply sum_with_nonneg in Hrates as Hsum.
  destruct ((bin <? size) && _) eqn:Hclose.
  - apply andb_prop in Hclose as [Hfull%Z.ltb_lt _].
    rewrite ceilinged_add_exact by lia.
    destruct (IH (rate tx) (0 + bytes tx) (out ++ [(last, size)])%list) as
      (bins & rest & -> & Hb & Hr & Hl & Hs); [lia|lia|].
    exists ((last, size) :: bins), rest. split_and!; [by rewrite <-app_assoc| |done|done|].
    + by constructor.
    + simpl. rewrite Hs. lia.
  - rewrite ceilinged_add_exact by lia.
    destruct (IH (rate tx) (size + bytes tx) out) as (bins & rest & -> & Hb & Hr & Hl & Hs); [lia|lia|].
    exists bins, rest. split_and!; [done..|]. rewrite Hs. lia.
Qed.

(** *** The sizes by rate *)

(** The bytes of the entries whose key qualifies. *)
Definition sizes_where (P : Z → bool) (entries : list (Z * Z)) : Z :=
  sum_with (λ e, if P e.1 then e.2 else 0) entries.

Lemma sizes_where_insert P (m : gmap Z Z) k v :
  sizes_where P (map_to_list (<[k := v]> m)) =
    sizes_where P (map_to_list m) + if P k then v - default 0 (m !! k) else 0.
Proof.
  unfold sizes_where. destruct (m !! k) as [old|] eqn:Hk; simpl.
  - replace (map_to_list (<[k := v]> m)) with (map_to_list (<[k := v]> (delete k m)))
      by by rewrite insert_delete_eq.
    replace (map_to_list m) with (map_to_list (<[k := old]> (delete k m)))
      by by rewrite insert_delete_id.
    rewrite !map_to_list_insert by apply lookup_delete_eq. simpl. destruct (P k); lia.
  - rewrite map_to_list_insert by done. simpl. destruct (P k); lia.
Qed.

Lemma sizes_where_single (m : gmap Z Z) k :
  sizes_where (λ k', k' =? k) (map_to_list m) = default 0 (m !! k).
Proof.
  induction m as [|i x m Hi IH] using map_ind; [by rewrite map_to_list_empty|].
  rewrite sizes_where_insert, IH, Hi. destruct (Z.eqb_spec i k) as [->|Hne].
  - rewrite lookup_insert_eq, Hi. simpl. lia.
  - rewrite lookup_insert_ne by done. lia.
Qed.

(** The map holds, for each rate, the bytes of the transactions at the rate. *)
Lemma add_size_where rates P :
  Forall (λ tx, 0 <= bytes tx) rates → sum_with bytes rates <= max_size_t →
  sizes_where P (map_to_list (foldl add_size ∅ rates)) =
    sum_with (λ tx, if P (to_tenths tx) then bytes tx else 0) rates.
Proof.
  revert P. induction rates as [|tx rates IH] using rev_ind; intros P Hb Hmax.
  { simpl. by rewrite map_to_list_empty. }
  apply Forall_app in Hb as [Hb [Htx _]%Forall_cons].
  rewrite sum_with_app in Hmax. simpl in Hmax, Htx.
  rewrite foldl_app. simpl. unfold add_size at 1.
  set (m := foldl add_size ∅ rates) in *. rewrite sizes_where_insert, IH by (done || lia).
  rewrite sum_with_app. simpl.
  assert (default 0 (m !! to_tenths tx) <= sum_with bytes rates) as Hle.
  { rewrite <-sizes_where_single, IH by (done || lia). clear -Hb.
    induction Hb as [|y l Hy _ IHl]; simpl; [lia|]. destruct (to_tenths y =? to_tenths tx); lia. }
  rewrite ceilinged_add_exact by lia. destruct (P (to_tenths tx)); lia.
Qed.

(** *** Bins as groups of entries *)

(** The lowest rate of a group, which is its last. *)
Definition group_key (g : list (Z * Z)) : Z := from_option fst 0 (last g).

Definition group_bin (g : list (Z * Z)) : double * Z := (to_rate (group_key g), sum_with snd g).

(** The loop has the entries of [g] in its open bin. *)
Definition open_bin (c : compaction) (g : list (Z * Z)) : Prop :=
  size_ c = sum_with snd g ∧ (g ≠ [] → group_key g = last_ c).

Lemma group_key_snoc g e : group_key (g ++ [e])%list = e.1.
Proof. unfold group_key. by rewrite last_snoc. Qed.

Lemma compact_entry_groups c g e :
  open_bin c g → 0 <= size_ c → 0 <= e.2 → size_ c + e.2 <= max_size_t →
  ∃ closed g', (g ++ [e] = concat closed ++ g')%list ∧ Forall (λ g, g ≠ []) closed ∧
    open_bin (compact_entry c e) g' ∧
    out_ (compact_entry c e) = (out_ c ++ (group_bin <$> closed))%list.
Proof.
  intros [Hsize Hkey] Hs He Hmax. destruct e as [k b]. unfold compact_entry. simpl in *.
  destruct (negb (size_ c =? 0) && _) eqn:Hfirst.
  - apply andb_prop in Hfirst as [Hne%negb_true_iff%Z.eqb_neq _].
    assert (g ≠ []) as Hg by (intros ->; done). specialize (Hkey Hg). cbn [close_bin size_ last_ limit_ out_].
    rewrite ceilinged_add_exact, Z.add_0_l by lia.
    assert ((to_rate (last_ c), size_ c) = group_bin g) as -> by (unfold group_bin; by rewrite Hkey, Hsize).
    destruct (PrimFloat.ltb _ (to_floating b)); cbn [close_bin size_ last_ limit_ out_].
    + exists [g; [(k, b)]], []. split_and!; [by rewrite !app_nil_r|by repeat constructor|done|].
      assert ((to_rate k, b) = group_bin [(k, b)]) as ->
        by (unfold group_bin, group_key; simpl; by rewrite Z.add_0_r).
      simpl. by rewrite <-app_assoc.
    + exists [g], [(k, b)]. split_and!; [simpl; by rewrite app_nil_r|by repeat constructor| |done].
      split; simpl; [lia|done].
  - rewrite ceilinged_add_exact by lia.
    assert (size_ c + b = sum_with snd (g ++ [(k, b)])%list) as Hsum
      by (rewrite sum_with_app; simpl; lia).
    cbn [size_ last_ limit_ out_].
    destruct (PrimFloat.ltb (limit_ c) (to_floating (size_ c + b)));
      cbn [close_bin size_ last_ limit_ out_].
    + exists [(g ++ [(k, b)])%list], []. split_and!; [simpl; by rewrite !app_nil_r| |done|].
      * repeat constructor. by destruct g.
      * simpl. unfold group_bin. by rewrite group_key_snoc, Hsum.
    + exists [], (g ++ [(k, b)])%list. split_and!; [done|constructor| |simpl; by rewrite app_nil_r].
      split; simpl; [done|]. intros _. by rewrite group_key_snoc.
Qed.

Lemma compact_groups entries c g :
  open_bin c g → 0 <= size_ c → Forall (λ e, 0 <= e.2) entries →
  size_ c + sum_with snd entries <= max_size_t → Forall (λ e, 0 <= e.2) g →
  ∃ groups rest, (g ++ entries = concat groups ++ rest)%list ∧ Forall (λ g, g ≠ []) groups ∧
    out_ (foldl compact_entry c entries) = (out_ c ++ (group_bin <$> groups))%list.
Proof.
  intros Hopen Hs Hentries. revert c g Hopen Hs.
  induction Hentries as [|e entries He Hentries IH]; intros c g Hopen Hs Hmax Hg.
  { exists [], g. simpl. rewrite !app_nil_r. by split_and!. }
  simpl in Hmax. apply sum_with_nonneg in Hentries as Hsum.
  destruct (compact_entry_groups c g e) as (closed & g' & Heq & Hne & Hopen' & Hout); [done|lia..|].
  assert (Forall (λ e, 0 <= e.2) (concat closed ++ g')%list) as Hall.
  { rewrite <-Heq. by apply Forall_app_2; [|repeat constructor]. }
  apply Forall_app in Hall as [Hcl Hg'].
  assert (sum_with snd (concat closed ++ g')%list = size_ c + e.2) as Htot.
  { rewrite <-Heq, sum_with_app. destruct Hopen as [-> _]. simpl. lia. }
  rewrite sum_with_app in Htot. apply sum_with_nonneg in Hcl as Hcl0.
  apply sum_with_nonneg in Hg' as Hg0. pose proof (proj1 Hopen') as Hsize'.
  destruct (IH (compact_entry c e) g') as (groups & rest & Heq' & Hne' & Hout'); [done|lia|lia|done|].
  exists (closed ++ groups)%list, rest. split_and!.
  - rewrite concat_app, <-app_assoc, <-Heq', app_assoc, <-Heq, <-app_assoc. done.
  - by apply Forall_app_2.
  - simpl. rewrite Hout', Hout, fmap_app. by rewrite app_assoc.
Qed.

(** *** The bytes of a window of rates *)

(** From [lo] on, and below [hi] if there is one. *)
Definition in_window (lo : Z) (hi : option Z) (k : Z) : bool :=
  (lo <=? k) && match hi with Some h => k <? h | None => true end.

Lemma window_sum a g b :
  StronglySorted (λ x y, y.1 < x.1) (a ++ g ++ b)%list → g ≠ [] →
  sizes_where (in_window (group_key g) (fst <$> last a)) (a ++ g ++ b)%list = sum_with snd g.
Proof.
  intros Hs Hg. unfold sizes_where. rewrite !sum_with_app.
  apply StronglySorted_app in Hs as (Hab & Ha & (Hgb & Hgs & _)%StronglySorted_app).
  destruct (last g) as [x|] eqn:Hlast; [|by apply last_None in Hlast].
  assert (group_key g = x.1) as -> by (unfold group_key; by rewrite Hlast).
  apply last_Some in Hlast as [g' ->].
  apply StronglySorted_app in Hgs as (Hg' & _ & _).
  rewrite (sum_with_zero _ a), (sum_with_zero _ b), (sum_with_ext _ snd (g' ++ [x])%list).
  - lia.
  - apply Forall_forall. intros y Hy. unfold in_window.
    assert (x.1 <= y.1) as Hle.
    { apply elem_of_app in Hy as [Hy| ->%list_elem_of_singleton]; [|lia].
      pose proof (Hg' y x Hy ltac:(by apply list_elem_of_singleton)) as Hlt. simpl in Hlt. lia. }
    rewrite (proj2 (Z.leb_le _ _) Hle). destruct (last a) as [z|] eqn:Hz; [|done]. simpl.
    apply last_Some in Hz as [a' ->].
    pose proof (Hab z y ltac:(set_solver) ltac:(set_solver)) as Hlt. simpl in Hlt.
    by rewrite (proj2 (Z.ltb_lt _ _) Hlt).
  - apply Forall_forall. intros y Hy. unfold in_window.
    pose proof (Hgb x y ltac:(set_solver) Hy) as Hlt. simpl in Hlt.
    by rewrite (proj2 (Z.leb_gt _ _) Hlt).
  - apply Forall_forall. intros y Hy. unfold in_window. destruct (last a) as [z|] eqn:Hz.
    + apply last_Some in Hz as [a' ->]. simpl.
      assert (z.1 <= y.1) as Hle.
      { apply elem_of_app in Hy as [Hy| ->%list_elem_of_singleton]; [|lia].
        apply StronglySorted_app in Ha as [Ha _].
        pose proof (Ha y z Hy ltac:(by apply list_elem_of_singleton)) as Hlt. simpl in Hlt. lia. }
      by rewrite (proj2 (Z.ltb_ge _ _) Hle), andb_false_r.
    + apply last_None in Hz as ->. by apply not_elem_of_nil in Hy.
Qed.

(** *** The keys of the bins *)

#[local] Instance key_before_trans : Transitive key_before.
Proof. intros [] [] []. unfold key_before. simpl. lia. Qed.

#[local] Instance key_before_total : Total key_before.
Proof. intros [] []. unfold key_before. simpl. lia. Qed.

(** The entries are by strictly descending rate. *)
Lemma descending_strict m : StronglySorted (λ x y, y.1 < x.1) (descending m).
Proof.
  assert (NoDup (descending m).*1) as Hnd.
  { unfold descending. rewrite merge_sort_Permutation. apply NoDup_fst_map_to_list. }
  pose proof (StronglySorted_merge_sort key_before (map_to_list m)) as Hs.
  fold (descending m) in Hs. revert Hnd.
  induction Hs as [|x l Hs IH Hx]; simpl; [constructor|]. intros [Hnot Hnd]%NoDup_cons.
  constructor; [by apply IH|]. apply Forall_forall. intros y Hy.
  rewrite Forall_forall in Hx. specialize (Hx y Hy). unfold key_before in Hx.
  assert (y.1 ≠ x.1) as Hne; [|lia]. intros Heq. apply Hnot. rewrite <-Heq.
  by apply list_elem_of_fmap_2.
Qed.

Lemma sizes_where_descending P m :
  sizes_where P (descending m) = sizes_where P (map_to_list m).
Proof. unfold sizes_where, descending. by rewrite merge_sort_Permutation. Qed.

Lemma group_key_elem g : g ≠ [] → ∃ b, (group_key g, b) ∈ g.
Proof.
  intros Hg. unfold group_key. destruct (last g) as [[k b]|] eqn:Hl; [|by apply last_None in Hl].
  exists b. simpl. apply last_Some in Hl as [g' ->]. set_solver.
Qed.

Lemma last_concat gs :
  Forall (λ g, g ≠ []) gs → fst <$> last (concat gs) = group_key <$> last gs.
Proof.
  destruct gs as [|g gs _] using rev_ind; [done|].
  intros [_ [Hg _]%Forall_cons]%Forall_app.
  rewrite concat_app, last_app, last_snoc. simpl. rewrite app_nil_r. unfold group_key.
  destruct (last g) as [x|] eqn:Hl; [done|]. by apply last_None in Hl.
Qed.

Lemma group_keys_descend gs rest :
  Forall (λ g, g ≠ []) gs → StronglySorted (λ x y, y.1 < x.1) (concat gs ++ rest)%list →
  StronglySorted (λ a b, b < a) (group_key <$> gs).
Proof.
  induction 1 as [|g gs Hg Hgs IH]; simpl; [constructor|].
  rewrite <-app_assoc. intros (Hlt & _ & Hs)%StronglySorted_app. constructor; [by apply IH|].
  apply Forall_forall. intros k (g' & -> & Hin)%list_elem_of_fmap.
  rewrite Forall_forall in Hgs. destruct (group_key_elem g Hg) as [b Hb].
  destruct (group_key_elem g' (Hgs g' Hin)) as [b' Hb'].
  apply (Hlt (group_key g, b) (group_key g', b') Hb). apply elem_of_app. left.
  apply list_elem_of_In, in_concat. exists g'. by rewrite <-!list_elem_of_In.
Qed.

(** The entries of a pool are not negative, and their sum is that of the pool. *)
Lemma entries_bounds rates :
  Forall (λ tx, 0 <= bytes tx) rates → sum_with bytes rates <= max_size_t →
  Forall (λ e, 0 <= e.2) (descending (foldl add_size ∅ rates)) ∧
  sum_with snd (descending (foldl add_size ∅ rates)) <= max_size_t.
Proof.
  intros Hb Hmax. set (m := foldl add_size ∅ rates). split.
  - apply Forall_forall. intros [k b]. unfold descending. rewrite merge_sort_Permutation.
    intros Hk%elem_of_map_to_list. simpl.
    assert (b = default 0 (m !! k)) as -> by by rewrite Hk.
    rewrite <-sizes_where_single. subst m. rewrite add_size_where by done.
    apply sum_with_nonneg. eapply Forall_impl; [exact Hb|]. simpl. intros tx. case_match; lia.
  - transitivity (sizes_where (λ _, true) (descending m)); [done|].
    subst m. by rewrite sizes_where_descending, add_size_where.
Qed.

(** The key before the one at an index. *)
Definition previous (keys : list Z) (i : nat) : option Z :=
  match i with O => None | S j => keys !! j end.

(** The bytes of the transactions in a window of rates. *)
Definition window_bytes (rates : list fee_rate) (lo : Z) (hi : option Z) : Z :=
  sum_with (λ tx, if in_window lo hi (to_tenths tx) then bytes tx else 0) rates.

(** A group of the entries of a pool is the transactions of its window. *)
Lemma group_bytes rates gs rest i g :
  Forall (λ tx, 0 <= bytes tx) rates → sum_with bytes rates <= max_size_t →
  descending (foldl add_size ∅ rates) = (concat gs ++ rest)%list →
  Forall (λ g, g ≠ []) gs → gs !! i = Some g →
  sum_with snd g = window_bytes rates (group_key g) (previous (group_key <$> gs) i).
Proof.
  intros Hb Hmax Heq Hne Hi. unfold window_bytes.
  rewrite <-(add_size_where rates (in_window _ _)), <-sizes_where_descending by done.
  pose proof (descending_strict (foldl add_size ∅ rates)) as Hs. rewrite Heq in Hs |- *.
  apply lookup_lt_Some in Hi as Hlt. pose proof (take_drop_middle gs i g Hi) as Hsplit.
  assert (concat gs ++ rest = concat (take i gs) ++ g ++ (concat (drop (S i) gs) ++ rest))%list
    as Hcat by (rewrite <-Hsplit at 1; rewrite concat_app; simpl; by rewrite <-!app_assoc).
  rewrite Hcat in Hs |- *. rewrite Forall_forall in Hne.
  assert (g ≠ []) as Hg by by apply Hne, (list_elem_of_lookup_2 _ i).
  rewrite <-(window_sum _ _ _ Hs Hg). unfold sizes_where. rewrite last_concat.
  - replace (group_key <$> last (take i gs)) with (previous (group_key <$> gs) i); [done|].
    destruct i as [|i]; [done|]. simpl previous.
    rewrite last_lookup, length_take_le, lookup_take by lia. simpl. by rewrite decide_True, list_lookup_fmap by lia.
  - apply Forall_take, Forall_forall. exact Hne.
Qed.

(** The bins are the windows of the groups: the compact histogram partitions the pool
    by rate, but for a partial bin at the end. *)
Lemma compact_histogram_windows rates bin :
  Forall (λ tx, 0 <= bytes tx) rates → sum_with bytes rates <= max_size_t →
  ∃ keys, StronglySorted (λ a b, b < a) keys ∧
    to_compact_fee_histogram rates bin =
      imap (λ i k, (to_rate k, window_bytes rates k (previous keys i))) keys.
Proof.
  intros Hb Hmax. unfold to_compact_fee_histogram.
  set (entries := descending (foldl add_size ∅ rates)).
  destruct (entries_bounds rates Hb Hmax) as [Hpos Htot]. fold entries in Hpos, Htot.
  destruct (compact_groups entries (Compaction 0 0 (to_floating bin) []) [])
    as (gs & rest & Heq & Hne & ->); [done|done|done|simpl; lia|constructor|].
  simpl in Heq |- *. exists (group_key <$> gs). split.
  - apply (group_keys_descend gs rest Hne). rewrite <-Heq. apply descending_strict.
  - apply list_eq. intros i. rewrite list_lookup_imap, !list_lookup_fmap.
    destruct (gs !! i) as [g|] eqn:Hi; simpl; [|done]. unfold group_bin.
    by rewrite (group_bytes rates gs rest i g).
Qed.

End Histograms.

(** Two transactions at 2.0 (50,000 bytes), one at 1.0 (10,000 bytes): the rest is
    omitted from the compact histogram. *)
Example compact_example :
  to_compact_fee_histogram [FeeRate 10000 10000; FeeRate 20000 40000; FeeRate 30000 60000] 30000 =
    [(to_floating 2, 50000)].
Proof. vm_compute. reflexivity. Qed.

Example exact_example :
  to_fee_histogram [FeeRate 10000 10000; FeeRate 20000 40000; FeeRate 30000 60000] 30000 =
    [(to_floating 2, 50000); (to_floating 1, 10000)].
Proof. vm_compute. reflexivity. Qed.

(** ** Properties *)

(** The bins of the exact fee histogram hold all the bytes of the pool, and none
    but the last is less than full. *)
Lemma fee_histogram_total `{SizeMathLaws} rates bin :
  0 <= bin → Forall (λ tx, 0 <= bytes tx) rates → sum_with bytes rates <= max_size_t →
  ∃ bins rest, to_fee_histogram rates bin = (bins ++ rest)%list ∧
    Forall (λ b, bin < b.2) bins ∧ Forall (λ b, 0 < b.2) rest ∧ (length rest <= 1)%nat ∧
    sum_with snd (to_fee_histogram rates bin) = sum_with bytes rates.
Proof.
  intros Hbin Hb Hmax. unfold to_fee_histogram.
  pose proof (merge_sort_Permutation rate_before rates) as Hp. rewrite <-Hp in Hb, Hmax.
  destruct (histogram_loop_sum bin (merge_sort rate_before rates) PrimFloat.zero 0 [])
    as (bins & rest & Heq & Hfull & Hrest & Hone & Hsum); [lia|done|done|lia|].
  exists bins, rest. rewrite Heq. simpl. rewrite Hsum, Hp. done.
Qed.

Definition example_rates : list fee_rate :=
  [FeeRate 10000 10000; FeeRate 20000 40000; FeeRate 30000 60000].
