(* ===== verification/ElectrumMempool.v ===== *)
(** Electrum mempool methods (src/protocols/electrum/protocol_electrum_mempool.cpp):
    the fee histogram, the recent transactions and the relay fees.

    A request is checked on the channel's strand, its query runs in parallel, and
    its completion returns to the channel's strand. *)
From stdpp Require Import sorting.
From S2P Require Import Prelude Rpc Errors System ElectrumVersion ElectrumSubscribe FeeHistogram.

(** The pool, as the archive answers it. *)
Class MempoolStore := {
  pool : Type;
  pool_link : Type;
  get_confirmable_fees : pool → option (list fee_rate);
  (** The transactions in their order of entry. *)
  get_confirmable_txs : pool → code + list pool_link;
  get_tx_fee : pool → pool_link → option Z;
  get_tx_virtual_size : pool → pool_link → option Z;
  get_tx_key : pool → pool_link → hash_digest;
}.

Section Mempool.
Context `{Text} `{StoreErrors} `{SizeMath} `{MempoolStore}.

Definition histogram_bin : Z := 30000.
Definition recent_count : nat := 10.

(** ** Requests *)

Inductive mempool_query := query_fee_histogram | query_recent.

Inductive mempool_reaction :=
  | mempool_ignored
  | mempool_code (ec : code)
  | mempool_result (v : value_t)
  | mempool_parallel (q : mempool_query).

Definition handle_mempool_get_fee_histogram (stopped : bool) (v : version) : mempool_reaction :=
  if stopped then mempool_ignored
  else if negb (at_least v v1_2) then mempool_code bad_request
  else mempool_parallel query_fee_histogram.

Definition handle_mempool_recent (stopped : bool) (v : version) : mempool_reaction :=
  if stopped then mempool_ignored
  else if negb (at_least v v1_7) then mempool_code bad_request
  else mempool_parallel query_recent.

(** The rates are settings of the node. *)
Definition handle_mempool_get_info (minimum_fee_rate minimum_bump_rate : double)
    (stopped : bool) (v : version) : mempool_reaction :=
  if stopped then mempool_ignored
  else if negb (at_least v v1_6) then mempool_code bad_request
  else
    mempool_result (object_t
      [("mempoolminfee", number_t minimum_fee_rate);
       ("minrelaytxfee", number_t minimum_fee_rate);
       ("incrementalrelayfee", number_t minimum_bump_rate)]).

(** ** Queries, with the code and the value that they post *)

Definition integrity_code : code := Code database_category integrity.

Definition do_get_fee_histogram (p : pool) : code * value_t :=
  match get_confirmable_fees p with
  | None => (integrity_code, null_t)
  | Some rates =>
      let bins := to_compact_fee_histogram rates histogram_bin in
      (Error.make Error.success,
       array_t ((λ b, array_t [number_t b.1; uint64_t b.2]) <$> bins))
  end.

(** The loop over the links, from the last: [None] if a query fails. *)
Fixpoint recent_loop (p : pool) (links : list pool_link) (recent : array) : option array :=
  match links with
  | [] => Some recent
  | link :: links =>
      match get_tx_fee p link with
      | None => None
      | Some fee =>
          match get_tx_virtual_size p link with
          | None => None
          | Some vsize =>
              recent_loop p links (recent ++ [object_t
                [("txid", string_t (encode_hash (get_tx_key p link)));
                 ("fee", uint64_t fee);
                 ("vsize", uint64_t vsize)]])%list
          end
      end
  end.

Definition do_mempool_recent (p : pool) : code * value_t :=
  match get_confirmable_txs p with
  | inl ec => (ec, null_t)
  | inr links =>
      let count := Nat.min recent_count (length links) in
      match recent_loop p (take count (reverse links)) [] with
      | None => (integrity_code, null_t)
      | Some recent => (Error.make Error.success, array_t recent)
      end
  end.

Definition run_mempool_query (p : pool) (q : mempool_query) : code * value_t :=
  match q with
  | query_fee_histogram => do_get_fee_histogram p
  | query_recent => do_mempool_recent p
  end.

Definition complete_mempool (stopped : bool) (ec : code) (result : value_t) : list wire :=
  if stopped then []
  else if is_error ec then
    [wire_code (ElectrumError.translate ec ElectrumError.daemon_error)]
  else [wire_result result].

(** What the client gets, when [stopped'] tells whether the channel has stopped by
    the completion of the query. *)
Definition serve_mempool (p : pool) (stopped' : bool) (r : mempool_reaction) : list wire :=
  match r with
  | mempool_ignored => []
  | mempool_code ec => [wire_code ec]
  | mempool_result v => [wire_result v]
  | mempool_parallel q =>
      let '(ec, result) := run_mempool_query p q in complete_mempool stopped' ec result
  end.

(** ** Lemmas *)

(** The entry of a transaction, if its fee and size are found. *)
Definition recent_entry (p : pool) (link : pool_link) : option value_t :=
  fee ← get_tx_fee p link;
  vsize ← get_tx_virtual_size p link;
  Some (object_t [("txid", string_t (encode_hash (get_tx_key p link)));
    ("fee", uint64_t fee); ("vsize", uint64_t vsize)]).

Lemma recent_loop_mapM p links recent :
  recent_loop p links recent = (λ entries, (recent ++ entries)%list) <$> mapM (recent_entry p) links.
Proof.
  revert recent. induction links as [|link links IH]; intros recent; cbn [recent_loop mapM].
  { simpl. by rewrite app_nil_r. }
  assert (recent_entry p link =
    match get_tx_fee p link, get_tx_virtual_size p link with
    | Some fee, Some vsize => Some (object_t [("txid", string_t (encode_hash (get_tx_key p link)));
        ("fee", uint64_t fee); ("vsize", uint64_t vsize)])
    | _, _ => None
    end) as ->.
  { unfold recent_entry. destruct (get_tx_fee p link); [|done]. simpl.
    by destruct (get_tx_virtual_size p link). }
  destruct (get_tx_fee p link) as [fee|]; [|done].
  destruct (get_tx_virtual_size p link) as [vsize|]; [|done]. simpl. rewrite IH.
  destruct (mapM (recent_entry p) links) as [entries|]; [|done]. simpl. by rewrite <-app_assoc.
Qed.

End Mempool.

(** ** A reference pool, for examples *)

#[global] Instance reference_pool : MempoolStore := {
  pool := list Z;
  pool_link := Z;
  get_confirmable_fees p := Some ((λ x, FeeRate (20000 * x) (20000 * x * x)) <$> p);
  get_confirmable_txs p := inr p;
  get_tx_fee _ link := Some (20000 * link * link);
  get_tx_virtual_size _ link := Some (20000 * link);
  get_tx_key _ link := [link];
}.

(** ** Properties *)

(** The recent transactions of the pool, for a client of 1.7 on a running channel:
    one message, which is a result exactly if the pool and the fee and size of each
    reported transaction can be read. The result has at most ten entries, for the last
    transactions that entered the pool, the last first. *)
Lemma mempool_recent_correct `{Text} `{StoreErrorsLaws} `{SizeMath} `{MempoolStore} p v :
  at_least v v1_7 = true → (∀ ec, get_confirmable_txs p = inl ec → is_error ec = true) →
  serve_mempool p false (handle_mempool_recent false v) =
    match get_confirmable_txs p with
    | inl ec => [wire_code (ElectrumError.translate ec ElectrumError.daemon_error)]
    | inr links =>
        match mapM (recent_entry p) (take 10 (reverse links)) with
        | Some entries => [wire_result (array_t entries)]
        | None => [wire_code (ElectrumError.translate integrity_code ElectrumError.daemon_error)]
        end
    end.
Proof.
  intros Hv Hfail. unfold handle_mempool_recent. rewrite Hv. cbn [negb serve_mempool run_mempool_query].
  unfold do_mempool_recent. destruct (get_confirmable_txs p) as [ec|links].
  { unfold complete_mempool. by rewrite (Hfail ec eq_refl). }
  replace (take (Nat.min recent_count (length links)) (reverse links))
    with (take 10 (reverse links)).
  - rewrite recent_loop_mapM. destruct (mapM _ _) as [entries|]; simpl; [done|].
    unfold complete_mempool, is_error. simpl.
    by rewrite (proj2 (Z.eqb_neq _ _) integrity_nonzero).
  - unfold recent_count. destruct (Nat.min_spec 10 (length links)) as [[_ ->]|[Hle ->]]; [done|].
    rewrite !take_ge; [done|rewrite length_reverse; lia..].
Qed.

#[global] Instance reference_store_errors_laws : StoreErrorsLaws.
Proof. split; simpl; lia. Qed.

(** Of twelve transactions the last ten are reported. *)
(** The fee histogram for a client of 1.2 on a running channel: one message, which is
    a result exactly if the fees of the pool can be read. The result has a rate and a
    size for each bin; the rates (in tenths) descend strictly, and each size is that of
    the transactions at or above its rate and below the rate before it. *)
Lemma mempool_histogram_correct `{Text} `{StoreErrorsLaws} `{SizeMathLaws} `{MempoolStore}
    p v rates :
  at_least v v1_2 = true → get_confirmable_fees p = Some rates →
  Forall (λ tx, 0 <= bytes tx) rates → sum_with bytes rates <= max_size_t →
  ∃ keys, StronglySorted (λ a b, b < a) keys ∧
    serve_mempool p false (handle_mempool_get_fee_histogram false v) =
      [wire_result (array_t (imap (λ i k, array_t [number_t (to_rate k);
        uint64_t (window_bytes rates k (previous keys i))]) keys))].
Proof.
  intros Hv Hfees Hb Hmax.
  destruct (compact_histogram_windows rates histogram_bin Hb Hmax) as (keys & Hs & Heq).
  exists keys. split; [exact Hs|]. unfold handle_mempool_get_fee_histogram. rewrite Hv.
  cbn [negb serve_mempool run_mempool_query]. unfold do_get_fee_histogram. rewrite Hfees, Heq.
  unfold complete_mempool. simpl. do 3 f_equal. apply list_eq. intros i.
  rewrite list_lookup_fmap, !list_lookup_imap. by destruct (keys !! i).
Qed.

Definition example_pool : pool := [1; 2; 3].
