(* ===== verification/ElectrumOutpoints.v ===== *)
(** Electrum outpoint status and subscriptions
    (src/protocols/electrum/protocol_electrum_outpoints.cpp).

    As for addresses, requests are checked on the channel's strand and their work
    runs as jobs of the notification strand. *)
From S2P Require Import Prelude Rpc Errors System ElectrumVersion ElectrumSubscribe.

#[global] Instance history_eq_dec : EqDecision history.
Proof. solve_decision. Defined.

(** [chain::point]. *)
Abbreviation point := (hash_digest * Z)%type.

(** The queries of the archive, on the chain as it is, and library functions. *)
Class OutpointStore `{Scripts} := {
  store : Type;
  tx_link : Type;
  to_tx : store → hash_digest → tx_link;
  is_terminal : tx_link → bool;
  output_link : Type;
  to_output : store → tx_link → Z → output_link;
  get_output_script : store → output_link → option script;
  get_tx_history : store → tx_link → history;
  (** [history::valid()]. *)
  history_valid : history → bool;
  get_spenders_history : store → point → list history;
  (** [difference] of vectors. *)
  difference_of : list history → list history → list history;
  (** [to_integer(uint32_t&, double)]. *)
  to_integer : double → option Z;
}.

Class OutpointStoreLaws `{OutpointStore} : Prop := {
  difference_of_spec a b x : x ∈ difference_of a b ↔ x ∈ a ∧ x ∉ b;
}.

Section Outpoints.
Context `{Text} `{StoreErrors} `{OutpointStore}.

(** ** State *)

Record outpoint_subscription := Outpoint {
  outpoint : history;
  spenders : list history;
}.

#[global] Instance outpoint_subscription_eq_dec : EqDecision outpoint_subscription.
Proof. solve_decision. Defined.

Record outpoint_table := OutpointTable {
  outpoint_subscriptions : gmap point outpoint_subscription;
  subscribed_outpoint : bool;
}.

(** What a job posts to the channel's strand. *)
Inductive outpoint_posted :=
  | posted_outpoint_subscribe (ec : code) (sub : option outpoint_subscription) (prevout : point)
  | posted_outpoint_unsubscribe (found : bool)
  | posted_outpoint_notify (status : object) (prevout : point).

Context (maximum_subscriptions : Z).

(** ** Status objects *)

Definition funder_status (output_height : Z) : object :=
  [("funder_height", int64_t (to_signed output_height))].

Definition spender_status (output_height : Z) (h : history) : object :=
  [("funder_height", int64_t (to_signed output_height));
   ("spender_txhash", string_t (encode_hash (history_hash h)));
   ("spender_height", int64_t (to_signed (history_height h)))].

(** Only the first spender; empty if the outpoint is not found. *)
Definition to_outpoint_status (sub : outpoint_subscription) : object :=
  if negb (history_valid (outpoint sub)) then []
  else
    match spenders sub with
    | [] => funder_status (history_height (outpoint sub))
    | spender :: _ => spender_status (history_height (outpoint sub)) spender
    end.

Definition get_outpoint_history (q : store) (prevout : point) : bool * outpoint_subscription :=
  let funder := get_tx_history q (to_tx q prevout.1) in
  if negb (history_valid funder) then (false, Outpoint funder [])
  else (true, Outpoint funder (get_spenders_history q prevout)).

(** ** Jobs *)

(** [sub] is only read by the completion if there is no error. *)
Definition do_outpoint_subscribe (q : store) (prevout : point) (s : outpoint_table) :
    outpoint_table * list outpoint_posted :=
  let subs := outpoint_subscriptions s in
  if Z.of_nat (size subs) <? maximum_subscriptions then
    let sub := (get_outpoint_history q prevout).2 in
    let subs := match subs !! prevout with
                | None => <[prevout := sub]> subs
                | Some _ => subs
                end in
    (OutpointTable subs true,
     [posted_outpoint_subscribe (Error.make Error.success) (Some sub) prevout])
  else
    (s, [posted_outpoint_subscribe
      (ElectrumError.make ElectrumError.excessive_resource_usage) None prevout]).

Definition do_outpoint_unsubscribe (prevout : point) (s : outpoint_table) :
    outpoint_table * list outpoint_posted :=
  let found := bool_decide (is_Some (outpoint_subscriptions s !! prevout)) in
  let subs := delete prevout (outpoint_subscriptions s) in
  (OutpointTable subs (if (size subs =? 0)%nat then false else subscribed_outpoint s),
   [posted_outpoint_unsubscribe found]).

(** The notifications of one subscription that is [sub] and becomes [out]. *)
Definition outpoint_changes (prevout : point) (sub out : outpoint_subscription) :
    list outpoint_posted :=
  let height := history_height (outpoint out) in
  if negb (history_valid (outpoint sub)) ||
     negb (height =? history_height (outpoint sub)) then
    match spenders out with
    | [] => [posted_outpoint_notify (funder_status height) prevout]
    | _ => (λ h, posted_outpoint_notify (spender_status height h) prevout) <$> spenders out
    end
  else
    (λ h, posted_outpoint_notify (spender_status height h) prevout) <$>
      difference_of (spenders out) (spenders sub).

(** The loop over the subscriptions in the order of [keys]; [stopping] is the
    value of the flag when each is visited. *)
Fixpoint do_outpoint_loop (q : store) (stopping : point → bool) (keys : list point)
    (subs : gmap point outpoint_subscription) :
    gmap point outpoint_subscription * list outpoint_posted :=
  match keys with
  | [] => (subs, [])
  | prevout :: keys =>
      if stopping prevout then (subs, [])
      else
        match subs !! prevout with
        | None => do_outpoint_loop q stopping keys subs
        | Some sub =>
            let '(found, out) := get_outpoint_history q prevout in
            if negb found then do_outpoint_loop q stopping keys subs
            else if bool_decide (sub = out) then do_outpoint_loop q stopping keys subs
            else
              let '(subs', rest) := do_outpoint_loop q stopping keys (<[prevout := out]> subs) in
              (subs', outpoint_changes prevout sub out ++ rest)%list
        end
  end.

Definition do_outpoint (q : store) (stopping : point → bool) (keys : list point)
    (s : outpoint_table) : outpoint_table * list outpoint_posted :=
  let '(subs, sent) := do_outpoint_loop q stopping keys (outpoint_subscriptions s) in
  (OutpointTable subs (subscribed_outpoint s), sent).

(** ** Requests and responses on the channel's strand *)

Inductive outpoint_reaction :=
  | outpoint_ignored
  | outpoint_code (ec : code)
  | outpoint_result (v : value_t)
  | post_outpoint_subscribe (prevout : point)
  | post_outpoint_unsubscribe (prevout : point).

Definition is_valid_hint (hint : string) : bool :=
  if negb (is_empty hint) then
    match decode_base16 hint with
    | None => false
    | Some bytes => script_valid (to_script bytes)
    end
  else true.

Definition extract_address (p2kh p2sh : Z) (s : script) : option payment_address :=
  extract_output s p2kh p2sh.

Definition bad_outpoint : outpoint_reaction :=
  outpoint_code (ElectrumError.make ElectrumError.bad_request).

Definition handle_blockchain_utxo_get_address (p2kh p2sh : Z) (q : store) (stopped : bool)
    (v : version) (tx_hash : string) (index : double) : outpoint_reaction :=
  if stopped then outpoint_ignored
  else if at_least v v1_1 then bad_outpoint
  else
    match to_integer index, decode_hash tx_hash with
    | Some offset, Some hash =>
        let tx := to_tx q hash in
        if is_terminal tx then outpoint_result null_t
        else
          match get_output_script q (to_output q tx offset) with
          | None => outpoint_code (ElectrumError.make ElectrumError.daemon_error)
          | Some script =>
              match extract_address p2kh p2sh script with
              | None => outpoint_result null_t
              | Some address => outpoint_result (string_t (encoded address))
              end
          end
    | _, _ => bad_outpoint
    end.

Definition handle_blockchain_outpoint_get_status (q : store) (stopped : bool) (v : version)
    (tx_hash : string) (txout_idx : double) (spk_hint : string) : outpoint_reaction :=
  if stopped then outpoint_ignored
  else if negb (at_least v v1_7) then bad_outpoint
  else
    match to_integer txout_idx, decode_hash tx_hash with
    | Some index, Some hash =>
        if negb (is_valid_hint spk_hint) then bad_outpoint
        else outpoint_result (object_t (to_outpoint_status (get_outpoint_history q (hash, index)).2))
    | _, _ => bad_outpoint
    end.

Definition handle_blockchain_outpoint_subscribe (stopped : bool) (v : version)
    (tx_hash : string) (txout_idx : double) (spk_hint : string) : outpoint_reaction :=
  if stopped then outpoint_ignored
  else if negb (at_least v v1_7) then bad_outpoint
  else
    match to_integer txout_idx, decode_hash tx_hash with
    | Some index, Some hash =>
        if negb (is_valid_hint spk_hint) then bad_outpoint
        else post_outpoint_subscribe (hash, index)
    | _, _ => bad_outpoint
    end.

Definition handle_blockchain_outpoint_unsubscribe (stopped : bool) (v : version)
    (tx_hash : string) (txout_idx : double) : outpoint_reaction :=
  if stopped then outpoint_ignored
  else if negb (at_least v v1_7) then bad_outpoint
  else
    match to_integer txout_idx, decode_hash tx_hash with
    | Some index, Some hash => post_outpoint_unsubscribe (hash, index)
    | _, _ => bad_outpoint
    end.

(** ** Completions *)

Definition outpoint_notify (status : object) (prevout : point) : list wire :=
  [wire_notification "blockchain.outpoint.subscribe"
    (params_array [string_t (encode_hash prevout.1); uint32_t prevout.2; object_t status])].

(** The first spender is the result, the others are notifications. *)
Definition complete_outpoint_subscribe (stopped : bool) (ec : code)
    (sub : option outpoint_subscription) (prevout : point) : list wire :=
  if stopped then []
  else if is_error ec then
    [wire_code (ElectrumError.translate ec ElectrumError.daemon_error)]
  else
    match sub with
    | None => []
    | Some sub =>
        (wire_result (object_t (to_outpoint_status sub)) ::
          (drop 1 (spenders sub) ≫= λ h,
            outpoint_notify (spender_status (history_height (outpoint sub)) h) prevout))%list
    end.

(** Does not test for stop. *)
Definition complete_outpoint_unsubscribe (found : bool) : list wire :=
  [wire_result (boolean_t found)].

Definition complete_outpoint (stopped : bool) (p : outpoint_posted) : list wire :=
  match p with
  | posted_outpoint_subscribe ec sub prevout =>
      complete_outpoint_subscribe stopped ec sub prevout
  | posted_outpoint_unsubscribe found => complete_outpoint_unsubscribe found
  | posted_outpoint_notify status prevout => outpoint_notify status prevout
  end.

(** ** Transitions *)

Inductive outpoint_job :=
  | job_outpoint_subscribe (prevout : point)
  | job_outpoint_unsubscribe (prevout : point)
  | job_outpoint.

Definition run_outpoint_job (q : store) (stopping : point → bool) (keys : list point)
    (j : outpoint_job) (s : outpoint_table) : outpoint_table * list outpoint_posted :=
  match j with
  | job_outpoint_subscribe prevout => do_outpoint_subscribe q prevout s
  | job_outpoint_unsubscribe prevout => do_outpoint_unsubscribe prevout s
  | job_outpoint => do_outpoint q stopping keys s
  end.

(** The strand runs any job, on any state of the store. *)
Inductive outpoint_step : outpoint_table → outpoint_table → Prop :=
  | outpoint_step_run q stopping keys j s s' sent :
      run_outpoint_job q stopping keys j s = (s', sent) → outpoint_step s s'.

Definition outpoint_reachable (s : outpoint_table) : Prop :=
  rtc outpoint_step (OutpointTable ∅ false) s.

Definition outpoints_ok (s : outpoint_table) : Prop :=
  Z.of_nat (size (outpoint_subscriptions s)) <= maximum_subscriptions ∧
  (subscribed_outpoint s = true ↔ outpoint_subscriptions s ≠ ∅).

(** ** Lemmas *)

(** One visit of the loop: the subscription as it becomes, and its notifications. *)
Definition refreshed (q : store) (prevout : point) (sub : outpoint_subscription) :
    outpoint_subscription :=
  if (get_outpoint_history q prevout).1 then (get_outpoint_history q prevout).2 else sub.

Definition refresh_changes (q : store) (prevout : point) (sub : outpoint_subscription) :
    list outpoint_posted :=
  let out := refreshed q prevout sub in
  if bool_decide (sub = out) then [] else outpoint_changes prevout sub out.

Lemma do_outpoint_loop_cons q stopping prevout keys subs sub :
  stopping prevout = false → subs !! prevout = Some sub →
  do_outpoint_loop q stopping (prevout :: keys) subs =
    let '(subs', rest) :=
      do_outpoint_loop q stopping keys (<[prevout := refreshed q prevout sub]> subs) in
    (subs', refresh_changes q prevout sub ++ rest)%list.
Proof.
  intros Hstop Hsub. simpl. rewrite Hstop, Hsub. unfold refresh_changes, refreshed.
  destruct (get_outpoint_history q prevout) as [found out]. simpl. destruct found; simpl.
  - case_bool_decide as Heq; [|done]. subst out. rewrite insert_id by done.
    by destruct (do_outpoint_loop _ _ _ _).
  - rewrite bool_decide_eq_true_2, insert_id by done. by destruct (do_outpoint_loop _ _ _ _).
Qed.

Lemma do_outpoint_loop_dom q stopping keys subs subs' sent :
  do_outpoint_loop q stopping keys subs = (subs', sent) → dom subs' = dom subs.
Proof.
  revert subs sent. induction keys as [|prevout keys IH]; intros subs sent.
  { by intros [= <- <-]. }
  destruct (stopping prevout) eqn:Hstop; [simpl; rewrite Hstop; by intros [= <- <-]|].
  destruct (subs !! prevout) as [sub|] eqn:Hsub.
  - rewrite (do_outpoint_loop_cons q stopping prevout keys subs sub) by done.
    destruct (do_outpoint_loop _ _ _ _) as [subs2 rest] eqn:Hl. intros [= <- <-].
    rewrite (IH _ _ Hl). apply elem_of_dom_2 in Hsub. rewrite dom_insert_L. set_solver.
  - simpl. rewrite Hstop, Hsub. apply IH.
Qed.

(** A whole run refreshes the visited subscriptions, and posts their changes. *)
Lemma do_outpoint_loop_whole q keys subs :
  NoDup keys → (∀ k, k ∈ keys → is_Some (subs !! k)) →
  ∃ subs', do_outpoint_loop q (λ _, false) keys subs =
      (subs', keys ≫= λ k, default [] (refresh_changes q k <$> subs !! k)) ∧
    ∀ k, subs' !! k = if bool_decide (k ∈ keys) then refreshed q k <$> subs !! k else subs !! k.
Proof.
  intros Hnd. revert subs. induction Hnd as [|k keys Hk Hnd IH]; intros subs Hin.
  { exists subs. split; [done|]. intros k. by rewrite bool_decide_eq_false_2 by apply not_elem_of_nil. }
  destruct (Hin k) as [sub Hsub]; [apply list_elem_of_here|].
  rewrite (do_outpoint_loop_cons q _ k keys subs sub) by done.
  destruct (IH (<[k := refreshed q k sub]> subs)) as (subs' & -> & Hlook).
  { intros k' Hk'. rewrite lookup_insert_is_Some. destruct (decide (k = k')); [by left|].
    right. split; [done|]. apply Hin. by apply list_elem_of_further. }
  exists subs'. split.
  - simpl. rewrite Hsub. simpl. do 2 f_equal.
    apply Forall_bind_ext, Forall_forall. intros k' Hk'. rewrite lookup_insert_ne; [done|]. set_solver.
  - intros k'. rewrite Hlook. destruct (decide (k' = k)) as [->|Hne].
    + rewrite bool_decide_eq_false_2 by done. rewrite bool_decide_eq_true_2 by set_solver.
      by rewrite lookup_insert_eq, Hsub.
    + rewrite lookup_insert_ne by done.
      rewrite (bool_decide_ext (k' ∈ k :: keys) (k' ∈ keys)); [done|]. set_solver.
Qed.

Lemma refreshed_idempotent q k sub : refreshed q k (refreshed q k sub) = refreshed q k sub.
Proof. unfold refreshed. by destruct (get_outpoint_history q k).1. Qed.

(** What is posted for a subscription is of its present state. *)
Lemma refresh_changes_sound `{!OutpointStoreLaws} q k sub status k' :
  posted_outpoint_notify status k' ∈ refresh_changes q k sub →
  let out := refreshed q k sub in
  let height := history_height (outpoint out) in
  k' = k ∧ sub ≠ out ∧
  ((status = funder_status height ∧ spenders out = []) ∨
   ∃ spender, spender ∈ spenders out ∧ status = spender_status height spender).
Proof.
  unfold refresh_changes, outpoint_changes. set (out := refreshed q k sub).
  case_bool_decide as Hne; [by intros ?%not_elem_of_nil|]. cbn zeta.
  destruct (_ || _).
  - destruct (spenders out) as [|h t] eqn:Hsp.
    + intros [= -> ->]%list_elem_of_singleton. auto.
    + intros (spender & [= -> ->] & Hin)%list_elem_of_fmap. eauto 6.
  - intros (spender & [= -> ->] & [Hin _]%difference_of_spec)%list_elem_of_fmap. eauto 6.
Qed.

Lemma run_outpoint_job_ok q stopping keys j s s' sent :
  outpoints_ok s → run_outpoint_job q stopping keys j s = (s', sent) → outpoints_ok s'.
Proof.
  intros [Hsize Hflag]. destruct s as [subs flag]. simpl in *. destruct j; simpl.
  - unfold do_outpoint_subscribe. simpl.
    destruct (Z.ltb_spec (Z.of_nat (size subs)) maximum_subscriptions) as [Hlt|];
      [|by intros [= <- <-]].
    destruct (subs !! prevout) as [sub|] eqn:Hsub; intros [= <- <-]; simpl; split; simpl.
    + done.
    + split; [|done]. intros _ ->. by rewrite lookup_empty in Hsub.
    + rewrite map_size_insert_None by done. lia.
    + split; [intros _; apply insert_non_empty|done].
  - unfold do_outpoint_unsubscribe. simpl. intros [= <- <-]. split; simpl.
    + pose proof (map_size_delete prevout subs) as Hdel.
      destruct (subs !! prevout); simpl in Hdel; lia.
    + destruct (Nat.eqb_spec (size (delete prevout subs)) 0) as [Hz|Hz].
      * apply map_size_empty_inv in Hz as ->. naive_solver.
      * rewrite map_size_non_empty_iff in Hz.
        split; [done|]. intros _. apply Hflag. intros ->. by rewrite delete_empty in Hz.
  - unfold do_outpoint. simpl.
    destruct (do_outpoint_loop q stopping keys subs) as [subs' sent'] eqn:Hl.
    intros [= <- <-]. apply do_outpoint_loop_dom in Hl. split; simpl.
    + by rewrite <-size_dom, Hl, size_dom.
    + rewrite Hflag. by rewrite <-!dom_empty_iff_L, Hl.
Qed.

End Outpoints.

(** ** A reference store, for examples *)

(** One funding transaction and the spenders of its outputs. *)
#[global] Instance reference_outpoints : OutpointStore := {
  store := Z * list history;
  tx_link := hash_digest;
  to_tx _ hash := hash;
  is_terminal hash := bool_decide (hash = []);
  output_link := hash_digest * Z;
  to_output _ tx index := (tx, index);
  get_output_script _ output := Some output.1;
  get_tx_history q tx := History tx q.1 0 0 (0 <? q.1);
  history_valid h := negb (history_height h =? -1);
  get_spenders_history q _ := q.2;
  difference_of a b := filter (λ x, x ∉ b) a;
  to_integer _ := Some 0;
}.

#[global] Instance reference_outpoints_laws : OutpointStoreLaws.
Proof. split. intros a b x. simpl. rewrite list_elem_of_filter. naive_solver. Qed.

Definition example_store (height : Z) (spenders : list history) : store := (height, spenders).

(** ** Properties *)

(** Whatever jobs run and in whatever order, a channel holds at most the
    configured number of outpoint subscriptions, and the flag that gates outpoint
    notifications is set exactly if there is one. *)
Lemma outpoints_bounded `{Text} `{StoreErrors} `{OutpointStore} maximum s :
  0 <= maximum → outpoint_reachable maximum s →
  Z.of_nat (size (outpoint_subscriptions s)) <= maximum ∧
  (subscribed_outpoint s = true ↔ outpoint_subscriptions s ≠ ∅).
Proof.
  intros Hmax Hr. eapply (rtc_preserves _ (outpoints_ok maximum)); [|exact Hr|by split].
  intros x y Hx Hstep. inversion Hstep as [q stopping keys j s0 s' sent Hrun]; subst.
  exact (run_outpoint_job_ok maximum q stopping keys j x y sent Hx Hrun).
Qed.

(** C23: a run of the outpoint notifier that is not interrupted brings every
    subscription to the present state of its outpoint (or leaves it, if the
    outpoint is not found), and notifies every spender that has appeared, with
    its height and that of the funder. It notifies of nothing else: a notification
    is of a subscription that has changed, and has the present funder and a present
    spender, or no spender if there is none. A run that follows on the same chain posts
    nothing. *)
Theorem outpoint_notifier_correct `{Text} `{StoreErrors} `{OutpointStoreLaws} q keys s :
  keys ≡ₚ elements (dom (outpoint_subscriptions s)) →
  ∃ s' sent, do_outpoint q (λ _, false) keys s = (s', sent) ∧
    (∀ k, outpoint_subscriptions s' !! k = refreshed q k <$> outpoint_subscriptions s !! k) ∧
    (∀ k sub spender, outpoint_subscriptions s !! k = Some sub →
      let out := refreshed q k sub in
      spender ∈ spenders out → spender ∉ spenders sub →
      posted_outpoint_notify (spender_status (history_height (outpoint out)) spender) k ∈ sent) ∧
    (∀ status k, posted_outpoint_notify status k ∈ sent →
      ∃ sub, outpoint_subscriptions s !! k = Some sub ∧
        let out := refreshed q k sub in
        let height := history_height (outpoint out) in
        sub ≠ out ∧
        ((status = funder_status height ∧ spenders out = []) ∨
         ∃ spender, spender ∈ spenders out ∧ status = spender_status height spender)) ∧
    (do_outpoint q (λ _, false) keys s').2 = [].
Proof.
  intros Hkeys. destruct s as [subs flag]. simpl in *.
  assert (NoDup keys) as Hnd by (rewrite Hkeys; apply NoDup_elements).
  assert (∀ k, k ∈ keys ↔ is_Some (subs !! k)) as Hin.
  { intros k. by rewrite Hkeys, elem_of_elements, elem_of_dom. }
  destruct (do_outpoint_loop_whole q keys subs Hnd) as (subs' & Hloop & Hlook).
  { intros k. apply Hin. }
  assert (∀ k, subs' !! k = refreshed q k <$> subs !! k) as Hnew.
  { intros k. rewrite Hlook. case_bool_decide as Hk; [done|].
    destruct (subs !! k) eqn:Hs; [|done]. destruct Hk. apply Hin. by rewrite Hs. }
  eexists _, _. unfold do_outpoint at 1. simpl. rewrite Hloop. split_and!; [done|done| | |].
  - intros k sub spender Hsub Hout Hold. set (out := refreshed q k sub) in *.
    apply list_elem_of_bind. exists k.
    split; [|by apply Hin; rewrite Hsub]. rewrite Hsub. simpl. unfold refresh_changes. fold out.
    rewrite bool_decide_eq_false_2 by congruence. unfold outpoint_changes.
    destruct (_ || _).
    + destruct (spenders out) as [|h t] eqn:Hsp; [by apply not_elem_of_nil in Hout|].
      apply list_elem_of_fmap. by exists spender.
    + apply list_elem_of_fmap. exists spender. split; [done|]. by apply difference_of_spec.
  - intros status k (k' & Hp & Hk')%list_elem_of_bind.
    destruct (subs !! k') as [sub|] eqn:Hsub; [|by apply not_elem_of_nil in Hp]. simpl in Hp.
    apply refresh_changes_sound in Hp as (-> & Hne & Hst). by exists sub.
  - unfold do_outpoint. simpl.
    destruct (do_outpoint_loop_whole q keys subs' Hnd) as (subs2 & -> & _).
    { intros k. rewrite Hnew, fmap_is_Some. apply Hin. }
    cbn [snd]. clear -Hnew. induction keys as [|k keys IH]; [done|].
    rewrite bind_cons, IH, app_nil_r, Hnew. destruct (subs !! k) as [sub|]; [|done]. simpl. unfold refresh_changes.
    by rewrite refreshed_idempotent, bool_decide_eq_true_2.
Qed.

Lemma outpoint_notifier_correct_witness :
  let k := ([1], 0) in
  let s := (do_outpoint_subscribe 10 (example_store 5 []) k (OutpointTable ∅ false)).1 in
  let spender := History [2] 6 0 0 true in
  ∃ s' sent, do_outpoint (example_store 5 [spender]) (λ _, false) [k] s = (s', sent) ∧
    posted_outpoint_notify (spender_status 5 spender) k ∈ sent.
Proof.
  cbn zeta.
  destruct (outpoint_notifier_correct (example_store 5 [History [2] 6 0 0 true]) [([1], 0)]
    (do_outpoint_subscribe 10 (example_store 5 []) ([1], 0) (OutpointTable ∅ false)).1)
    as (s' & sent & Hrun & _ & Hsent & _ & _); [done|].
  exists s', sent. split; [exact Hrun|].
  apply (Hsent ([1], 0) (Outpoint (History [1] 5 0 0 true) []) (History [2] 6 0 0 true));
    [reflexivity|apply list_elem_of_here|apply not_elem_of_nil].
Defined.
