(* ===== verification/ElectrumHeaders.v ===== *)
(** Electrum header methods and notifications
    (src/protocols/electrum/protocol_electrum_headers.cpp).

    A handler is a function of the archive, the negotiated version and the
    arguments to what is sent; [None] is undefined behaviour (the front of an
    empty vector). *)
From S2P Require Import Prelude Rpc Errors System ElectrumVersion ElectrumSubscribe.

(** The archive, as far as headers are concerned. Links are opaque. *)
Class HeaderStore := {
  archive : Type;
  header_link : Type;
  get_top_confirmed : archive → Z;
  to_top_confirmed : archive → header_link;
  to_confirmed : archive → Z → option header_link;
  get_confirmed_headers : archive → Z → Z → list header_link;
  get_height : archive → header_link → option Z;
  (** Empty if not found. *)
  get_wire_header : archive → header_link → data_chunk;
  (** [get_wire_header(writer, link)] of a base16 writer: the text written. *)
  write_wire_header : archive → header_link → option string;
  (** The electrumx serialization of [get_header(link)], an object. *)
  electrumx_header : archive → header_link → option object;
  get_merkle_root_and_proof : archive → Z → Z → code + (hash_digest * list hash_digest);
}.

(** Confirmed headers are those of consecutive heights, from the first to the
    top, and there is a header at each height to the top. *)
Class HeaderStoreLaws `{HeaderStore} : Prop := {
  get_top_confirmed_range q : 0 <= get_top_confirmed q < max_size_t;
  get_confirmed_headers_length q height count :
    Z.of_nat (length (get_confirmed_headers q height count)) =
      Z.max 0 (Z.min count (get_top_confirmed q + 1 - height));
  get_confirmed_headers_lookup q height count i link :
    get_confirmed_headers q height count !! i = Some link →
    to_confirmed q (height + Z.of_nat i) = Some link;
}.

(** The base16 writer writes two characters for each byte of a header. *)
Class HeaderSizeLaws `{HeaderStore} `{SizeMath} : Prop := {
  header_size_range : 0 <= header_size;
  write_wire_header_length q link text :
    write_wire_header q link = Some text → Z.of_nat (String.length text) = 2 * header_size;
}.

Section Headers.
Context `{Text} `{StoreErrors} `{HeaderStore} `{SizeMath}.

(** ** Handlers *)

Inductive sent :=
  | nothing
  | send_code (ec : code)
  | send_result (v : value_t).

Definition bad : option sent :=
  Some (send_code (ElectrumError.make ElectrumError.bad_request)).
Definition daemon : option sent :=
  Some (send_code (ElectrumError.make ElectrumError.daemon_error)).

(** The result, and the flag of height notifications. *)
Definition handle_blockchain_number_of_blocks_subscribe (q : archive) (stopped : bool)
    (v : version) (subscribed_height : bool) : option sent * bool :=
  if stopped then (Some nothing, subscribed_height)
  else if at_least v v1_1 then (bad, subscribed_height)
  else (Some (send_result (uint64_t (get_top_confirmed q))), true).

(** A string of the size, overwritten from the front. *)
Definition overwrite (size : Z) (text : string) : string :=
  text ++ String.concat "" (replicate (Z.to_nat size - String.length text)
    (String (ascii_of_nat 0) "")).

(** The loop that writes headers: [None] if one fails. *)
Fixpoint write_headers (q : archive) (links : list header_link) : option string :=
  match links with
  | [] => Some ""
  | link :: links =>
      match write_wire_header q link with
      | None => None
      | Some text =>
          match write_headers q links with
          | None => None
          | Some rest => Some (text ++ rest)
          end
      end
  end.

Definition chunk : Z := 2016.

Definition handle_blockchain_block_get_chunk (q : archive) (stopped : bool) (v : version)
    (index : double) : option sent :=
  if stopped then Some nothing
  else if at_least v v1_4 then bad
  else
    match to_size index with
    | None => bad
    | Some position =>
        let top := get_top_confirmed q in
        let height := ceilinged_multiply position chunk in
        let stop := limit (ceilinged_add height chunk) (top + 1) in
        let count := floored_subtract stop height in
        let size := count * 2 * header_size in
        let links := get_confirmed_headers q height count in
        match write_headers q links with
        | None => daemon
        | Some text => Some (send_result (string_t (overwrite size text)))
        end
    end.

Definition handle_blockchain_block_get_header (q : archive) (stopped : bool) (v : version)
    (height : double) : option sent :=
  if stopped then Some nothing
  else if at_least v v1_4 then bad
  else
    match to_size height with
    | None => bad
    | Some target =>
        match to_confirmed q target with
        | None => Some (send_result null_t)
        | Some link =>
            match write_wire_header q link with
            | None => daemon
            | Some text => Some (send_result (string_t (overwrite (2 * header_size) text)))
            end
        end
    end.

(** The loop that collects headers: [None] if one is not found. *)
Fixpoint collect_headers (q : archive) (links : list header_link) : option array :=
  match links with
  | [] => Some []
  | link :: links =>
      let header := get_wire_header q link in
      if (length header =? 0)%nat then None
      else
        match collect_headers q links with
        | None => None
        | Some rest => Some (string_t (encode_base16 header) :: rest)
        end
  end.

(** The fields of the headers, or nothing if a header is not found. *)
Definition header_fields (q : archive) (v : version) (maximum_headers : Z)
    (links : list header_link) (single : bool) : option (option object) :=
  let shape (name : string) (headers : value_t) : object :=
    [("max", uint32_t maximum_headers);
     ("count", uint64_t (Z.of_nat (length links)));
     (name, headers)] in
  if at_least v v1_6 then
    match collect_headers q links with
    | None => Some None
    | Some headers =>
        if single then
          match headers with
          | [] => None
          | header :: _ => Some (Some [("header", header)])
          end
        else Some (Some (shape "headers" (array_t headers)))
    end
  else
    match write_headers q links with
    | None => Some None
    | Some text =>
        let headers := string_t (overwrite (2 * header_size * Z.of_nat (length links)) text) in
        if single then Some (Some [("header", headers)])
        else Some (Some (shape "hex" headers))
    end.

Definition blockchain_block_headers (q : archive) (v : version) (maximum_headers : Z)
    (starting quantity waypoint : Z) (single : bool) : option sent :=
  let prove := negb (quantity =? 0) && negb (waypoint =? 0) in
  let top := get_top_confirmed q in
  if is_add_overflow starting quantity then bad
  else if (top <? starting) || (prove && (top <? waypoint)) then bad
  else
    let count := limit quantity maximum_headers in
    let links := get_confirmed_headers q starting count in
    if single && negb (length links =? 1)%nat then daemon
    else
      let proving := prove && negb (length links =? 0)%nat in
      let proof_height := if proving then starting + (Z.of_nat (length links) - 1) else 0 in
      if proving && (waypoint <? proof_height) then bad
      else if single && negb prove then
        match links with
        | [] => None
        | link :: _ =>
            let header := get_wire_header q link in
            if (length header =? 0)%nat then daemon
            else Some (send_result (string_t (encode_base16 header)))
        end
      else
        match header_fields q v maximum_headers links single with
        | None => None
        | Some None => daemon
        | Some (Some result) =>
            if proving then
              match get_merkle_root_and_proof q proof_height waypoint with
              | inl ec =>
                  Some (send_code (ElectrumError.translate ec ElectrumError.daemon_error))
              | inr (root, proof) =>
                  let result := set_field "branch"
                    (array_t ((λ hash, string_t (encode_hash hash)) <$> proof)) result in
                  Some (send_result (object_t
                    (set_field "root" (string_t (encode_hash root)) result)))
              end
            else Some (send_result (object_t result))
        end.

Definition handle_blockchain_block_header (q : archive) (stopped : bool) (v : version)
    (maximum_headers : Z) (height cp_height : double) : option sent :=
  if stopped then Some nothing
  else if negb (at_least v v1_3) then bad
  else
    match to_size height, to_size cp_height with
    | Some starting, Some waypoint =>
        blockchain_block_headers q v maximum_headers starting 1 waypoint true
    | _, _ => bad
    end.

Definition handle_blockchain_block_headers (q : archive) (stopped : bool) (v : version)
    (maximum_headers : Z) (start_height count cp_height : double) : option sent :=
  if stopped then Some nothing
  else if negb (at_least v v1_2) then bad
  else
    match to_size count, to_size cp_height, to_size start_height with
    | Some quantity, Some waypoint, Some starting =>
        if negb (is_double_zero cp_height) && negb (at_least v v1_4) then bad
        else blockchain_block_headers q v maximum_headers starting quantity waypoint false
    | _, _, _ => bad
    end.

(** The result, and the flag of header notifications. *)
Definition handle_blockchain_headers_subscribe (q : archive) (stopped : bool) (v : version)
    (raw : bool) (subscribed_header : bool) : option sent * bool :=
  if stopped then (Some nothing, subscribed_header)
  else
    let raw_defined := raw in
    let raw := if at_least v v1_3 then true else raw in
    if negb (at_least v v1_0) || (negb (at_least v v1_2) && raw_defined) ||
       (at_least v v1_4 && raw_defined)
    then (bad, subscribed_header)
    else
      let link := to_top_confirmed q in
      match get_height q link with
      | None => (daemon, subscribed_header)
      | Some top =>
          if raw then
            let header := get_wire_header q link in
            if (length header =? 0)%nat then (daemon, subscribed_header)
            else
              (Some (send_result (object_t
                [("height", uint64_t top); ("hex", string_t (encode_base16 header))])), true)
          else
            match electrumx_header q link with
            | None => (daemon, subscribed_header)
            | Some value =>
                (Some (send_result (object_t (set_field "block_height" (uint64_t top) value))), true)
            end
      end.

(** ** Notifications *)

Definition do_height (q : archive) (link : header_link) : list wire :=
  match get_height q link with
  | None => []
  | Some height => [wire_notification "blockchain.numblocks.subscribe" (params_value (uint64_t height))]
  end.

Definition do_header (q : archive) (link : header_link) : list wire :=
  match get_height q link with
  | None => []
  | Some height =>
      [wire_notification "blockchain.headers.subscribe"
        (params_array [object_t [("height", uint64_t height);
          ("hex", string_t (encode_base16 (get_wire_header q link)))]])]
  end.

(** ** Lemmas *)

Lemma collect_headers_spec q links headers :
  collect_headers q links = Some headers →
  headers = (λ link, string_t (encode_base16 (get_wire_header q link))) <$> links.
Proof.
  revert headers. induction links as [|link links IH]; intros headers; simpl.
  - by intros [= <-].
  - destruct (_ =? 0)%nat; [done|]. destruct (collect_headers q links) as [rest|]; [|done].
    intros [= <-]. by rewrite (IH rest).
Qed.

(** A single header is one link's, so that there is a front. *)
Lemma header_fields_defined q v maximum links single :
  (single = true → length links = 1%nat) → header_fields q v maximum links single ≠ None.
Proof.
  intros Hone. unfold header_fields. destruct (at_least v v1_6).
  - destruct (collect_headers q links) as [headers|] eqn:Hc; [|done].
    destruct single; [|done]. apply collect_headers_spec in Hc as ->.
    by destruct links; [specialize (Hone eq_refl)|].
  - destruct (write_headers q links); [|done]. by destruct single.
Qed.

(** The result of a request for several headers. *)
Definition headers_result (q : archive) (v : version) (maximum : Z)
    (links : list header_link) (o : object) : Prop :=
  find_field "max" o = Some (uint32_t maximum) ∧
  find_field "count" o = Some (uint64_t (Z.of_nat (length links))) ∧
  if at_least v v1_6
  then find_field "headers" o =
    Some (array_t ((λ link, string_t (encode_base16 (get_wire_header q link))) <$> links))
  else ∃ text, write_headers q links = Some text ∧
    find_field "hex" o =
      Some (string_t (overwrite (2 * header_size * Z.of_nat (length links)) text)).

Lemma header_fields_result q v maximum links o :
  header_fields q v maximum links false = Some (Some o) → headers_result q v maximum links o.
Proof.
  unfold header_fields, headers_result. destruct (at_least v v1_6).
  - destruct (collect_headers q links) as [headers|] eqn:Hc; [|done].
    apply collect_headers_spec in Hc as ->. by intros [= <-].
  - destruct (write_headers q links) as [text|]; [|done]. intros [= <-]. eauto.
Qed.

(** The proof's fields are beside those of the headers. *)
Lemma headers_result_proof q v maximum links o branch root :
  headers_result q v maximum links o →
  headers_result q v maximum links (set_field "root" root (set_field "branch" branch o)).
Proof.
  unfold headers_result. by rewrite !find_set_ne by done.
Qed.

(** A header's proof that the result carries. *)
Definition proof_result (q : archive) (height waypoint : Z) (o : object) : Prop :=
  ∃ root proof, get_merkle_root_and_proof q height waypoint = inr (root, proof) ∧
    find_field "root" o = Some (string_t (encode_hash root)) ∧
    find_field "branch" o =
      Some (array_t ((λ hash, string_t (encode_hash hash)) <$> proof)).

Lemma write_headers_length `{!HeaderSizeLaws} q links text :
  write_headers q links = Some text →
  Z.of_nat (String.length text) = 2 * header_size * Z.of_nat (length links).
Proof.
  revert text. induction links as [|link links IH]; intros text; simpl.
  - intros [= <-]. simpl. lia.
  - destruct (write_wire_header q link) as [t|] eqn:Ht; [|done].
    destruct (write_headers q links) as [rest|]; [|done]. intros [= <-].
    apply write_wire_header_length in Ht. specialize (IH rest eq_refl).
    rewrite string_length_app. lia.
Qed.

Lemma overwrite_whole size text : Z.of_nat (String.length text) = size → overwrite size text = text.
Proof.
  intros <-. unfold overwrite. rewrite Nat2Z.id, Nat.sub_diag. simpl. apply string_app_nil.
Qed.

(** The confirmed headers from a height on that is at most the top's. *)
Lemma confirmed_window `{!HeaderStoreLaws} q starting count :
  0 <= count → starting <= get_top_confirmed q →
  let links := get_confirmed_headers q starting count in
  Z.of_nat (length links) = Z.min count (get_top_confirmed q + 1 - starting) ∧
  ∀ i link, links !! i = Some link → to_confirmed q (starting + Z.of_nat i) = Some link.
Proof.
  intros Hc Hs. cbn zeta. split; [|apply get_confirmed_headers_lookup].
  rewrite get_confirmed_headers_length. lia.
Qed.

End Headers.

(** ** A reference archive, for examples *)

(** Headers are their heights; the archive is its top. *)
#[global] Instance reference_headers : HeaderStore := {
  archive := nat;
  header_link := Z;
  get_top_confirmed q := Z.of_nat (Nat.min q 1000);
  to_top_confirmed q := Z.of_nat (Nat.min q 1000);
  to_confirmed q height := if height <=? Z.of_nat (Nat.min q 1000) then Some height else None;
  get_confirmed_headers q height count :=
    (λ i, height + Z.of_nat i) <$>
      seq 0 (Z.to_nat (Z.min count (Z.of_nat (Nat.min q 1000) + 1 - height)));
  get_height _ link := Some link;
  get_wire_header _ link := [link];
  write_wire_header _ link := Some "0a";
  electrumx_header _ link := Some [];
  get_merkle_root_and_proof _ height waypoint := inr ([height], [[waypoint]]);
}.

#[global] Instance reference_headers_laws : HeaderStoreLaws.
Proof.
  split.
  - intros q. simpl. unfold max_size_t. lia.
  - intros q height count. simpl. rewrite length_fmap, length_seq. lia.
  - intros q height count i link. simpl. rewrite list_lookup_fmap, fmap_Some.
    intros (j & [-> Hi]%lookup_seq & ->). simpl.
    by rewrite (proj2 (Z.leb_le _ _)) by lia.
Qed.

#[global] Instance reference_header_size_laws : HeaderSizeLaws.
Proof. split; simpl; [lia|]. by intros q link text [= <-]. Qed.

Definition example_archive : archive := 100%nat.

(** ** Properties *)

(** The header methods are defined for all arguments, and a result holds the
    confirmed headers of consecutive heights from the first requested on, as many
    as were requested but no more than the configured maximum and than there are.
    A proof is given exactly if a waypoint is requested and a header is returned;
    it is for the last header of the result, which the waypoint covers. *)
Lemma block_headers_correct `{Text} `{StoreErrors} `{HeaderStoreLaws} `{SizeMathLaws}
    q v maximum starting quantity waypoint single :
  is_size starting → is_size quantity → is_size waypoint → 0 <= maximum →
  ∃ r, blockchain_block_headers q v maximum starting quantity waypoint single = Some r ∧
  ∀ value, r = send_result value →
    let top := get_top_confirmed q in
    let n := Z.min (Z.min quantity maximum) (top + 1 - starting) in
    let links := get_confirmed_headers q starting (Z.min quantity maximum) in
    let proving := negb (waypoint =? 0) && negb (n =? 0) in
    Z.of_nat (length links) = n ∧ starting + n <= top + 1 ∧
    (∀ i link, links !! i = Some link → to_confirmed q (starting + Z.of_nat i) = Some link) ∧
    (single = true → n = 1) ∧
    (single = false → ∃ o, value = object_t o ∧ headers_result q v maximum links o) ∧
    (proving = true → starting + n - 1 <= waypoint <= top ∧
      ∃ o, value = object_t o ∧ proof_result q (starting + n - 1) waypoint o) ∧
    (single = true → proving = false →
      ∃ link, links = [link] ∧ value = string_t (encode_base16 (get_wire_header q link))).
Proof.
  intros Hstart Hquant Hway Hmax. unfold blockchain_block_headers, is_size in *.
  rewrite is_add_overflow_spec, limit_spec.
  set (top := get_top_confirmed q) in *.
  destruct (Z.ltb_spec max_size_t (starting + quantity)) as [|Hadd]; [by eexists|].
  destruct (Z.ltb_spec top starting) as [|Hst]; [by eexists|]. cbn [orb].
  destruct (confirmed_window q starting (Z.min quantity maximum)) as [Hn Hlook]; [lia..|].
  set (links := get_confirmed_headers q starting (Z.min quantity maximum)) in *. fold top in Hn.
  set (n := Z.min (Z.min quantity maximum) (top + 1 - starting)) in *.
  assert (0 <= n <= quantity) as Hn0 by lia. clearbody links.
  rewrite !(eqb_of_nat _ n _ Hn), Hn. change (Z.of_nat 0) with 0. change (Z.of_nat 1) with 1.
  set (prove := negb (quantity =? 0) && negb (waypoint =? 0)).
  set (proving := negb (waypoint =? 0) && negb (n =? 0)).
  assert (prove && negb (n =? 0) = proving) as ->.
  { subst prove proving. destruct (Z.eqb_spec n 0), (Z.eqb_spec quantity 0); simpl;
      rewrite ?andb_false_r, ?andb_true_r; done || lia. }
  destruct (prove && (top <? waypoint)) eqn:Hguard; [by eexists|].
  destruct (single && negb (n =? 1)) eqn:Hsingle; [by eexists|].
  assert (single = true → n = 1) as Hone.
  { intros ->. by apply negb_false_iff, Z.eqb_eq in Hsingle. }
  assert (single = true → length links = 1%nat) as Hlen by (intros ?%Hone; lia).
  pose proof (header_fields_defined q v maximum links single Hlen) as Hdef.
  destruct proving eqn:Hproving; cbn [andb].
  - assert (prove = true ∧ waypoint <= top) as [-> Hwt].
    { subst prove proving. apply andb_prop in Hproving as [Hw Hz]. rewrite Hw in *.
      apply negb_true_iff, Z.eqb_neq in Hz. rewrite (proj2 (Z.eqb_neq quantity 0)) in * by lia.
      split; [done|]. simpl in Hguard. lia. }
    rewrite andb_false_r. destruct (Z.ltb_spec waypoint (starting + (n - 1))); [by eexists|].
    destruct (header_fields _ _ _ _ _) as [[o|]|] eqn:Hf; [|by eexists|done].
    replace (starting + (n - 1)) with (starting + n - 1) in * by lia.
    destruct (get_merkle_root_and_proof _ _ _) as [ec|[root proof]] eqn:Hroot; [by eexists|].
    eexists. split; [done|]. intros value [= <-]. split_and!; [done|lia|done|done| | |done].
    + intros ->. eexists. split; [done|]. by apply headers_result_proof, header_fields_result.
    + intros _. split; [lia|]. eexists. split; [done|]. exists root, proof.
      split; [done|]. rewrite find_set_eq. split; [done|].
      by rewrite find_set_ne, find_set_eq by done.
  - destruct single; cbn [andb].
    + assert (prove = false) as ->.
      { subst prove proving. rewrite (Hone eq_refl) in Hproving. simpl in Hproving.
        rewrite andb_true_r in Hproving. rewrite Hproving. apply andb_false_r. }
      cbn [negb]. destruct links as [|link [|]]; simpl in Hlen; [by specialize (Hlen eq_refl)| |by specialize (Hlen eq_refl)].
      destruct (length (get_wire_header q link) =? 0)%nat; [by eexists|].
      eexists. split; [done|]. intros value [= <-]. split_and!; try done; [lia|eauto].
    + destruct (header_fields _ _ _ _ _) as [[o|]|] eqn:Hf; [|by eexists|done].
      eexists. split; [done|]. intros value [= <-]. split_and!; [done|lia|done|done| |done|done].
      intros _. eexists. split; [done|]. by apply header_fields_result.
Qed.

(** A chunk of headers is defined for every index: it holds the headers of the
    chunk's heights that are confirmed, none past the top (however large the
    index), and the text has no character besides them. The answer is an error
    only if one of these headers cannot be read. *)
Lemma block_get_chunk_correct `{Text} `{StoreErrors} `{HeaderStoreLaws} `{SizeMathLaws}
    `{!HeaderSizeLaws} q v index position :
  at_least v v1_4 = false → to_size index = Some position →
  ∃ links,
    handle_blockchain_block_get_chunk q false v index =
      match write_headers q links with
      | None => Some (send_code (ElectrumError.make ElectrumError.daemon_error))
      | Some text => Some (send_result (string_t text))
      end ∧
    Z.of_nat (length links) =
      Z.max 0 (Z.min chunk (get_top_confirmed q + 1 - position * chunk)) ∧
    ∀ i link, links !! i = Some link →
      to_confirmed q (position * chunk + Z.of_nat i) = Some link.
Proof.
  intros Hv Hpos. unfold handle_blockchain_block_get_chunk. rewrite Hv, Hpos.
  rewrite ceilinged_add_spec, ceilinged_multiply_spec, limit_spec, floored_subtract_spec.
  pose proof (to_size_range index position Hpos) as Hsize.
  pose proof (get_top_confirmed_range q) as Htop. unfold is_size in Hsize.
  set (height := Z.min (position * chunk) max_size_t).
  set (count := Z.max _ 0). set (links := get_confirmed_headers q height count).
  assert (Z.of_nat (length links) = count) as Hlen.
  { subst links. rewrite get_confirmed_headers_length. subst count height.
    unfold chunk in *. lia. }
  exists links. split_and!.
  - destruct (write_headers q links) as [written|] eqn:Hw; [|done].
    rewrite overwrite_whole; [done|]. rewrite (write_headers_length q links written Hw), Hlen. lia.
  - rewrite Hlen. subst count height. unfold chunk in *. lia.
  - intros i link Hi. apply lookup_lt_Some in Hi as Hlt.
    apply get_confirmed_headers_lookup in Hi.
    replace (position * chunk) with height; [done|]. subst count height. unfold chunk in *. lia.
Qed.

(** The first chunk of a chain of 101 headers. *)
(** The flag of header notifications is set exactly by a subscription that is
    answered with a result, and every subscription is answered. *)
Lemma headers_subscribe_flag `{Text} `{StoreErrors} `{HeaderStore} q v raw flag r flag' :
  handle_blockchain_headers_subscribe q false v raw flag = (r, flag') →
  (∃ value, r = Some (send_result value) ∧ flag' = true) ∨
  (∃ ec, r = Some (send_code ec) ∧ is_error ec = true ∧ flag' = flag).
Proof.
  unfold handle_blockchain_headers_subscribe.
  destruct (_ || _); [intros [= <- <-]; by right; eexists|].
  destruct (get_height _ _); [|intros [= <- <-]; by right; eexists].
  destruct (if at_least v v1_3 then true else raw).
  - destruct (_ =? 0)%nat; intros [= <- <-]; [by right; eexists|by left; eexists].
  - destruct (electrumx_header _ _); intros [= <- <-]; [by left; eexists|by right; eexists].
Qed.
