(* ===== verification/BtcdFilter.v ===== *)
(** The btcd watch lists (src/parsers/btcd_filter.cpp,
    src/utilities/address.cpp, src/protocols/btcd/protocol_btcd_filter.cpp, and
    [handle_chase] of src/protocols/btcd/protocol_btcd.cpp).

    A request is checked on the channel's strand; its work is a job of the
    notification strand, which owns the four watch lists, or runs in parallel on
    a copy of them. Jobs are functions of the watch lists and of the store as it
    is when they run, to the watch lists and to what they post. *)
From Stdlib Require Import Sorted.
From S2P Require Import Prelude Rpc Errors System ElectrumSubscribe ElectrumOutpoints.

(** ** The store and the libraries *)

(** [wallet::payment_address] and [wallet::witness_address], which parse a text
    of any prefix, and public keys. *)
Class Wallet `{Scripts} := {
  payment_prefix : payment_address → Z;
  witness_address : Type;
  to_witness_address : string → option witness_address;
  witness_prefix : witness_address → string;
  witness_script : witness_address → script;
  is_public_key : data_chunk → bool;
  (** The scripts of [to_pay_public_key_pattern] and, with the short hash of the
      key, [to_pay_key_hash_pattern]. *)
  pay_public_key : data_chunk → script;
  pay_key_hash : data_chunk → script;
}.

(** Queries of the archive: [addresses] is its address index; the iteration
    orders are those of [std::map]. *)
Class BtcdStore `{AddressStore} `{OutpointStore} := {
  addresses : store → chain;
  get_confirmed_history : store → hash_digest → Z → code + list history;
  filter_sort_and_dedup : list history → list history;
  btcd_transaction : Type;
  get_transaction : store → tx_link → option btcd_transaction;
  outputs : btcd_transaction → list script;
  (** [to_text(tx, tx.serialized_size(true), true)]. *)
  transaction_text : btcd_transaction → string;
  transaction_hash : btcd_transaction → hash_digest;
  (** [tx.spend() / to_floating(satoshi_per_bitcoin)]. *)
  transaction_amount : btcd_transaction → double;
  block_link : Type;
  to_header : store → hash_digest → block_link;
  get_block_height : store → block_link → option Z;
  block_header : Type;
  get_block_header : store → block_link → option block_header;
  block_hash : block_header → hash_digest;
  timestamp : block_header → Z;
  (** [to_text(header, header::serialized_size())]. *)
  header_text : block_header → string;
  (** [to_integer(int64_t&, double)]. *)
  to_int64 : double → option Z;
  order_hashes : list hash_digest → list hash_digest;
  order_points : list point → list point;
}.

Class BtcdStoreLaws `{BtcdStore} : Prop := {
  order_hashes_permutation keys : order_hashes keys ≡ₚ keys;
  order_points_permutation points : order_points points ≡ₚ points;
}.

(** Transactions of a block by position, of blocks by height. *)
Abbreviation matched_txs := (list (Z * hash_digest)).
Abbreviation matches := (gmap Z matched_txs).

Section Watches.
Context `{Text} `{StoreErrors} `{SizeMath} `{BtcdStore} `{!Wallet}.

(** ** Parsers *)

Definition output_script_of (text : string) (p2kh p2sh : Z) (witness : string) : code + script :=
  let witness_part :=
    match to_witness_address text with
    | Some payment =>
        if witness_prefix payment == witness then inr (witness_script payment)
        else inl (Error.make Error.invalid_argument)
    | None => inl (Error.make Error.invalid_argument)
    end in
  match to_payment_address text with
  | Some payment =>
      if (payment_prefix payment =? p2kh) || (payment_prefix payment =? p2sh)
      then inr (output_script payment p2kh p2sh)
      else witness_part
  | None => witness_part
  end.

(** The loop over the items, which extends [out]. *)
Fixpoint filter_keys_loop (out : list hash_digest) (items : array) (p2kh p2sh : Z)
    (witness : string) : code * list hash_digest :=
  match items with
  | [] => (Error.make Error.success, out)
  | string_t value :: items =>
      match output_script_of value p2kh p2sh witness with
      | inl ec => (ec, out)
      | inr s => filter_keys_loop (out ++ [script_hash s])%list items p2kh p2sh witness
      end
  | _ :: _ => (Error.make Error.invalid_argument, out)
  end.

Definition filter_keys (addresses : value_t) (p2kh p2sh : Z) (witness : string) :
    code * list hash_digest :=
  match addresses with
  | array_t items => filter_keys_loop [] items p2kh p2sh witness
  | _ => (Error.make Error.invalid_argument, [])
  end.

Definition filter_point (item : value_t) : option point :=
  match item with
  | object_t fields =>
      match find_field "hash" fields, find_field "index" fields with
      | Some (string_t text), Some (number_t number) =>
          match decode_hash text, to_integer number with
          | Some hash, Some index => Some (hash, index)
          | _, _ => None
          end
      | _, _ => None
      end
  | _ => None
  end.

Fixpoint filter_points_loop (out : list point) (items : array) : code * list point :=
  match items with
  | [] => (Error.make Error.success, out)
  | item :: items =>
      match filter_point item with
      | None => (Error.make Error.invalid_argument, out)
      | Some p => filter_points_loop (out ++ [p])%list items
      end
  end.

Definition filter_points (outpoints : value_t) : code * list point :=
  match outpoints with
  | array_t items => filter_points_loop [] items
  | _ => (Error.make Error.invalid_argument, [])
  end.

Definition search_keys (address : string) (p2kh p2sh : Z) (witness : string) :
    code + list hash_digest :=
  let parsed :=
    match output_script_of address p2kh p2sh witness with
    | inl ec => inl ec
    | inr s => inr [script_hash s]
    end in
  match decode_base16 address with
  | Some key =>
      if is_public_key key
      then inr [script_hash (pay_public_key key); script_hash (pay_key_hash key)]
      else parsed
  | None => parsed
  end.

(** ** State *)

(** An address watch is its cursor, an outpoint watch its known spenders. *)
Record watches := Watches {
  address_watches : gmap hash_digest cursor_t;
  outpoint_watches : gmap point (list history);
  receive_watches : gmap hash_digest cursor_t;
  spent_watches : gmap point (list history);
  watching_legacy : bool;
}.

Definition no_watches : watches := Watches ∅ ∅ ∅ ∅ false.

(** The settings that the protocol reads. *)
Record btcd_options := BtcdOptions {
  maximum_filters : Z;
  maximum_search : Z;
}.

Context (options : btcd_options).

Definition watch_count (w : watches) : Z :=
  ceilinged_add (ceilinged_add (ceilinged_add
    (Z.of_nat (size (address_watches w))) (Z.of_nat (size (outpoint_watches w))))
    (Z.of_nat (size (receive_watches w)))) (Z.of_nat (size (spent_watches w))).

(** The places at which a job reads [stopping_], which may be set at any time. *)
Inductive poll :=
  | poll_key (key : hash_digest)
  | poll_point (prevout : point)
  | poll_receive (key : hash_digest)
  | poll_spend (prevout : point)
  | poll_block (index : nat)
  | poll_named (index : nat)
  | poll_entry (index : nat)
  | poll_match (position : Z).

(** What jobs post: to the channel's strand, or to run in parallel. *)
Inductive btcd_posted :=
  | posted_load_tx_filter (ec : code)
  | posted_notify_received (ec : code)
  | posted_notify_spent (ec : code)
  | parallel_rescan_watches (blocks keys : list hash_digest) (points : list point)
  | posted_rescan_blocks (ec : code) (discovered : array)
  | posted_search (ec : code) (found : array)
  | posted_overflow (ec : code)
  | posted_connected (header : block_header) (height : Z) (txs : array)
      (received redeemed : list array)
  | posted_disconnected (header : block_header) (height : Z)
  | posted_transaction (verbose : bool) (params : array).

Definition btcd_success : code := Error.make Error.success.
Definition btcd_canceled : code := Code database_category query_canceled.
Definition too_many : code := BtcdError.make BtcdError.misc_error.

(** ** Jobs that edit the watch lists *)

(** A new cursor, primed to the present, and whether the query was canceled. *)
Definition prime_cursor (q : store) (key : hash_digest) : cursor_t * bool :=
  match get_history (addresses q) initial_cursor key (maximum_search options) with
  | inl fault => (initial_cursor, code_eqb fault btcd_canceled)
  | inr (_, cursor) => (cursor, false)
  end.

(** The bodies of the loops: the watch of one item, unless there is one. *)
Definition add_address (q : store) (key : hash_digest) (w : watches) : watches * bool :=
  match address_watches w !! key with
  | Some _ => (w, false)
  | None =>
      let '(cursor, canceled) := prime_cursor q key in
      (Watches (<[key := cursor]> (address_watches w)) (outpoint_watches w)
        (receive_watches w) (spent_watches w) (watching_legacy w), canceled)
  end.

Definition add_outpoint (q : store) (prevout : point) (w : watches) : watches * bool :=
  match outpoint_watches w !! prevout with
  | Some _ => (w, false)
  | None =>
      (Watches (address_watches w)
        (<[prevout := get_spenders_history q prevout]> (outpoint_watches w))
        (receive_watches w) (spent_watches w) (watching_legacy w), false)
  end.

Definition add_receive (q : store) (key : hash_digest) (w : watches) : watches * bool :=
  match receive_watches w !! key with
  | Some _ => (w, false)
  | None =>
      let '(cursor, canceled) := prime_cursor q key in
      (Watches (address_watches w) (outpoint_watches w)
        (<[key := cursor]> (receive_watches w)) (spent_watches w) true, canceled)
  end.

Definition add_spent (prevout : point) (w : watches) : watches * bool :=
  match spent_watches w !! prevout with
  | Some _ => (w, false)
  | None =>
      (Watches (address_watches w) (outpoint_watches w) (receive_watches w)
        (<[prevout := []]> (spent_watches w)) true, false)
  end.

(** The loop over the items: no code if the job returns without completing. *)
Fixpoint watch_loop {A} (stopping : A → bool) (add : A → watches → watches * bool)
    (items : list A) (w : watches) : watches * option code :=
  match items with
  | [] => (w, Some btcd_success)
  | item :: items =>
      if stopping item then (w, None)
      else if maximum_filters options <=? watch_count w then (w, Some too_many)
      else
        let '(w, canceled) := add item w in
        if canceled then (w, None) else watch_loop stopping add items w
  end.

Definition do_load_tx_filter (q : store) (stopping : poll → bool) (reload : bool)
    (keys : list hash_digest) (points : list point) (w : watches) :
    watches * list btcd_posted :=
  let w := if reload
           then Watches ∅ ∅ (receive_watches w) (spent_watches w) (watching_legacy w)
           else w in
  match watch_loop (stopping ∘ poll_key) (add_address q) keys w with
  | (w, None) => (w, [])
  | (w, Some ec) =>
      if is_error ec then
        if match points with
           | [] => false
           | prevout :: _ => stopping (poll_point prevout)
           end
        then (w, []) else (w, [posted_load_tx_filter ec])
      else
        match watch_loop (stopping ∘ poll_point) (add_outpoint q) points w with
        | (w, None) => (w, [])
        | (w, Some ec) => (w, [posted_load_tx_filter ec])
        end
  end.

Definition do_notify_received (q : store) (stopping : poll → bool)
    (keys : list hash_digest) (w : watches) : watches * list btcd_posted :=
  match watch_loop (stopping ∘ poll_receive) (add_receive q) keys w with
  | (w, None) => (w, [])
  | (w, Some ec) => (w, [posted_notify_received ec])
  end.

Definition do_notify_spent (stopping : poll → bool) (points : list point) (w : watches) :
    watches * list btcd_posted :=
  match watch_loop (stopping ∘ poll_spend) add_spent points w with
  | (w, None) => (w, [])
  | (w, Some ec) => (w, [posted_notify_spent ec])
  end.

(** [watching_legacy_.store(false)] if no legacy watch is left. *)
Definition settle_legacy (w : watches) : watches :=
  if (size (receive_watches w) =? 0)%nat && (size (spent_watches w) =? 0)%nat
  then Watches (address_watches w) (outpoint_watches w) (receive_watches w)
         (spent_watches w) false
  else w.

Definition do_stop_notify_received (keys : list hash_digest) (w : watches) : watches :=
  settle_legacy (Watches (address_watches w) (outpoint_watches w)
    (foldl (λ subs key, delete key subs) (receive_watches w) keys)
    (spent_watches w) (watching_legacy w)).

Definition do_stop_notify_spent (points : list point) (w : watches) : watches :=
  settle_legacy (Watches (address_watches w) (outpoint_watches w) (receive_watches w)
    (foldl (λ subs prevout, delete prevout subs) (spent_watches w) points)
    (watching_legacy w)).
(** ** Matching *)

(** [std::map::emplace]: keeps the entry of a position that is there. *)
Fixpoint emplace (position : Z) (hash : hash_digest) (txs : matched_txs) : matched_txs :=
  match txs with
  | [] => [(position, hash)]
  | (p, h) :: rest =>
      if position <? p then (position, hash) :: txs
      else if position =? p then txs
      else (p, h) :: emplace position hash rest
  end.

(** The loop over history entries. *)
Definition record_match (heights : gset Z) (out : matches) (e : history) : matches :=
  if history_confirmed e && bool_decide (history_height e ∈ heights)
  then <[history_height e :=
    emplace (history_position e) (history_hash e) (default [] (out !! history_height e))]> out
  else out.

Definition record_matches (heights : gset Z) (entries : list history) (out : matches) : matches :=
  foldl (record_match heights) out entries.

(** The code, the advanced cursor and the extended matches. *)
Definition match_addresses (q : store) (heights : gset Z) (key : hash_digest)
    (sub : cursor_t) (out : matches) : code * cursor_t * matches :=
  match get_history (addresses q) sub key (maximum_search options) with
  | inl ec => (ec, sub, out)
  | inr (delta, cursor) => (btcd_success, cursor, record_matches heights delta out)
  end.

Definition match_outpoints (q : store) (heights : gset Z) (prevout : point)
    (sub : list history) (out : matches) : list history * matches :=
  let next := get_spenders_history q prevout in
  (next, record_matches heights (difference_of next sub) out).

Fixpoint serialize_matches (q : store) (stopping : poll → bool) (txs : matched_txs) : array :=
  match txs with
  | [] => []
  | (position, hash) :: txs =>
      if stopping (poll_match position) then []
      else
        match get_transaction q (to_tx q hash) with
        | Some tx => string_t (transaction_text tx) :: serialize_matches q stopping txs
        | None => serialize_matches q stopping txs
        end
  end.

Definition serialize_legacy (tx : btcd_transaction) (header : block_header)
    (height position : Z) : array :=
  [string_t (transaction_text tx);
   object_t
     [("height", uint64_t height);
      ("hash", string_t (encode_hash (block_hash header)));
      ("index", uint64_t position);
      ("time", uint32_t (timestamp header))]].

(** The loop over address watches, in the order of [keys]: whether the query was
    canceled, the watches and the matches. *)
Fixpoint match_keys (q : store) (stopping : hash_digest → bool) (heights : gset Z)
    (keys : list hash_digest) (subs : gmap hash_digest cursor_t) (out : matches) :
    bool * gmap hash_digest cursor_t * matches :=
  match keys with
  | [] => (false, subs, out)
  | key :: keys =>
      match subs !! key with
      | None => match_keys q stopping heights keys subs out
      | Some sub =>
          if stopping key then (true, subs, out)
          else
            let '(fault, sub, out) := match_addresses q heights key sub out in
            let subs := <[key := sub]> subs in
            if code_eqb fault btcd_canceled then (true, subs, out)
            else match_keys q stopping heights keys subs out
      end
  end.

Fixpoint match_points (q : store) (stopping : point → bool) (heights : gset Z)
    (points : list point) (subs : gmap point (list history)) (out : matches) :
    bool * gmap point (list history) * matches :=
  match points with
  | [] => (false, subs, out)
  | prevout :: points =>
      match subs !! prevout with
      | None => match_points q stopping heights points subs out
      | Some sub =>
          if stopping prevout then (true, subs, out)
          else
            let '(sub, out) := match_outpoints q heights prevout sub out in
            match_points q stopping heights points (<[prevout := sub]> subs) out
      end
  end.

Definition keys_of {A} (subs : gmap hash_digest A) : list hash_digest :=
  order_hashes (map_to_list subs).*1.

Definition points_of {A} (subs : gmap point A) : list point :=
  order_points (map_to_list subs).*1.

(** Whether it was canceled, the watch lists, and the transactions of the block. *)
Definition match_filters (q : store) (stopping : poll → bool) (height : Z) (heights : gset Z)
    (w : watches) : bool * watches * array :=
  let '(canceled, subs, out) :=
    match_keys q (stopping ∘ poll_key) heights (keys_of (address_watches w))
      (address_watches w) ∅ in
  let w := Watches subs (outpoint_watches w) (receive_watches w) (spent_watches w)
             (watching_legacy w) in
  if canceled then (true, w, [])
  else
    let '(canceled, subs, out) :=
      match_points q (stopping ∘ poll_point) heights (points_of (outpoint_watches w))
        (outpoint_watches w) out in
    let w := Watches (address_watches w) subs (receive_watches w) (spent_watches w)
               (watching_legacy w) in
    if canceled then (true, w, [])
    else
      (false, w,
       match out !! height with
       | Some txs => serialize_matches q stopping txs
       | None => []
       end).

(** The loop over the outputs: a code, the watch lists and whether one is paid.
    Does not set [watching_legacy]. *)
Fixpoint arm_outputs (hash : hash_digest) (index : Z) (outs : list script) (paid : bool)
    (w : watches) : code * watches * bool :=
  match outs with
  | [] => (btcd_success, w, paid)
  | out :: outs =>
      match receive_watches w !! script_hash out with
      | None => arm_outputs hash ((index + 1) mod 2 ^ 32) outs paid w
      | Some _ =>
          if maximum_filters options <=? watch_count w then (too_many, w, true)
          else
            let spent := match spent_watches w !! (hash, index) with
                         | Some _ => spent_watches w
                         | None => <[(hash, index) := []]> (spent_watches w)
                         end in
            arm_outputs hash ((index + 1) mod 2 ^ 32) outs true
              (Watches (address_watches w) (outpoint_watches w) (receive_watches w) spent
                (watching_legacy w))
      end
  end.

Definition arm_spent_watches (tx : btcd_transaction) (hash : hash_digest) (w : watches) :
    code * watches * bool :=
  arm_outputs hash 0 (outputs tx) false w.

(** The loop of [match_receives] over the matched transactions. *)
Fixpoint receive_txs (q : store) (header : block_header) (height : Z) (txs : matched_txs)
    (w : watches) : code * watches * list array :=
  match txs with
  | [] => (btcd_success, w, [])
  | (position, hash) :: txs =>
      match get_transaction q (to_tx q hash) with
      | None => receive_txs q header height txs w
      | Some tx =>
          let '(fault, w, paid) := arm_spent_watches tx hash w in
          if is_error fault then (fault, w, [])
          else
            let '(fault, w, rest) := receive_txs q header height txs w in
            (fault, w,
             if paid then serialize_legacy tx header height position :: rest else rest)
      end
  end.

Definition match_receives (q : store) (stopping : poll → bool) (header : block_header)
    (height : Z) (heights : gset Z) (w : watches) : code * watches * list array :=
  let '(canceled, subs, received) :=
    match_keys q (stopping ∘ poll_receive) heights (keys_of (receive_watches w))
      (receive_watches w) ∅ in
  let w := Watches (address_watches w) (outpoint_watches w) subs (spent_watches w)
             (watching_legacy w) in
  if canceled then (btcd_canceled, w, [])
  else
    match received !! height with
    | None => (btcd_success, w, [])
    | Some txs => receive_txs q header height txs w
    end.

(** The notifications of the transactions that spend one watched point. *)
Fixpoint spend_txs (q : store) (header : block_header) (height : Z) (txs : matched_txs) :
    list array :=
  match txs with
  | [] => []
  | (position, hash) :: txs =>
      match get_transaction q (to_tx q hash) with
      | Some tx => serialize_legacy tx header height position :: spend_txs q header height txs
      | None => spend_txs q header height txs
      end
  end.

(** The loop over the spent watches, which erases those that match: whether it
    was canceled, the watches and the notifications. *)
Fixpoint spend_points (q : store) (stopping : point → bool) (header : block_header)
    (height : Z) (heights : gset Z) (points : list point) (subs : gmap point (list history)) :
    bool * gmap point (list history) * list array :=
  match points with
  | [] => (false, subs, [])
  | prevout :: points =>
      match subs !! prevout with
      | None => spend_points q stopping header height heights points subs
      | Some sub =>
          if stopping prevout then (true, subs, [])
          else
            let '(sub, spent) := match_outpoints q heights prevout sub ∅ in
            match default [] (spent !! height) with
            | [] => spend_points q stopping header height heights points
                      (<[prevout := sub]> subs)
            | txs =>
                let '(canceled, subs, rest) :=
                  spend_points q stopping header height heights points
                    (delete prevout subs) in
                (canceled, subs, spend_txs q header height txs ++ rest)%list
            end
      end
  end.

Definition match_spends (q : store) (stopping : poll → bool) (header : block_header)
    (height : Z) (heights : gset Z) (w : watches) : bool * watches * list array :=
  let '(canceled, subs, out) :=
    spend_points q (stopping ∘ poll_spend) header height heights
      (points_of (spent_watches w)) (spent_watches w) in
  (canceled, Watches (address_watches w) (outpoint_watches w) (receive_watches w) subs
    (watching_legacy w), out).

(** ** Jobs of events *)

Definition do_connected (q : store) (stopping : poll → bool) (link : block_link)
    (w : watches) : watches * list btcd_posted :=
  match get_block_height q link with
  | None => (w, [])
  | Some height =>
      match get_block_header q link with
      | None => (w, [])
      | Some header =>
          let heights := {[ height ]} : gset Z in
          let '(canceled, w, txs) := match_filters q stopping height heights w in
          if canceled then (w, [])
          else
            let '(fault, w, received) := match_receives q stopping header height heights w in
            if is_error fault then
              (w, if code_eqb fault btcd_canceled then [] else [posted_overflow fault])
            else
              let '(canceled, w, redeemed) := match_spends q stopping header height heights w in
              if canceled then (w, [])
              else (w, [posted_connected header height txs received redeemed])
      end
  end.

Definition do_disconnected (q : store) (link : block_link) (w : watches) :
    watches * list btcd_posted :=
  let w := Watches ((λ _, initial_cursor) <$> address_watches w) (outpoint_watches w)
             ((λ _, initial_cursor) <$> receive_watches w) (spent_watches w)
             (watching_legacy w) in
  match get_block_height q link with
  | None => (w, [])
  | Some height =>
      match get_block_header q link with
      | None => (w, [])
      | Some header => (w, [posted_disconnected header height])
      end
  end.

(** [model] is the verbose json of a transaction. *)
Definition do_transaction (q : store) (model : btcd_transaction → value_t)
    (verbose_transactions : bool) (link : tx_link) : list btcd_posted :=
  match get_transaction q link with
  | None => []
  | Some tx =>
      if negb verbose_transactions
      then [posted_transaction false
        [string_t (encode_hash (transaction_hash tx)); number_t (transaction_amount tx)]]
      else [posted_transaction true [model tx]]
  end.

(** ** Queries *)

Definition do_rescan_blocks (blocks : list hash_digest) (w : watches) :
    watches * list btcd_posted :=
  (w, [parallel_rescan_watches blocks (keys_of (address_watches w))
         (points_of (outpoint_watches w))]).

(** The named blocks with their heights; [inl true] if stopping, [inl false] if
    one is not found. *)
Fixpoint name_blocks (q : store) (stopping : poll → bool) (index : nat)
    (blocks : list hash_digest) : bool + list (hash_digest * Z) :=
  match blocks with
  | [] => inr []
  | hash :: blocks =>
      if stopping (poll_block index) then inl true
      else
        match get_block_height q (to_header q hash) with
        | None => inl false
        | Some height =>
            match name_blocks q stopping (S index) blocks with
            | inl fault => inl fault
            | inr named => inr ((hash, height) :: named)
            end
        end
  end.

(** Each watch of the copy is matched from its start; no matches if canceled. *)
Fixpoint replay_keys (q : store) (stopping : hash_digest → bool) (heights : gset Z)
    (keys : list hash_digest) (out : matches) : option matches :=
  match keys with
  | [] => Some out
  | key :: keys =>
      if stopping key then None
      else
        let '(fault, _, out) := match_addresses q heights key initial_cursor out in
        if code_eqb fault btcd_canceled then None
        else replay_keys q stopping heights keys out
  end.

Fixpoint replay_points (q : store) (stopping : point → bool) (heights : gset Z)
    (points : list point) (out : matches) : option matches :=
  match points with
  | [] => Some out
  | prevout :: points =>
      if stopping prevout then None
      else replay_points q stopping heights points
             (match_outpoints q heights prevout [] out).2
  end.

(** The blocks that have a match, in the order of the request. *)
Fixpoint discover (q : store) (stopping : poll → bool) (index : nat) (matched : matches)
    (named : list (hash_digest * Z)) : option array :=
  match named with
  | [] => Some []
  | (hash, height) :: named =>
      if stopping (poll_named index) then None
      else
        match discover q stopping (S index) matched named with
        | None => None
        | Some rest =>
            match default [] (matched !! height) with
            | [] => Some rest
            | txs =>
                Some (object_t
                  [("hash", string_t (encode_hash hash));
                   ("transactions", array_t (serialize_matches q stopping txs))] :: rest)
            end
        end
  end.

Definition do_rescan_watches (q : store) (stopping : poll → bool)
    (blocks keys : list hash_digest) (points : list point) : list btcd_posted :=
  match name_blocks q stopping 0 blocks with
  | inl true => []
  | inl false =>
      [posted_rescan_blocks (BtcdError.make BtcdError.invalid_address_or_key) []]
  | inr named =>
      let heights := list_to_set named.*2 : gset Z in
      match replay_keys q (stopping ∘ poll_key) heights keys ∅ with
      | None => []
      | Some matched =>
          match replay_points q (stopping ∘ poll_point) heights points matched with
          | None => []
          | Some matched =>
              match discover q stopping 0 matched named with
              | None => []
              | Some discovered => [posted_rescan_blocks btcd_success discovered]
              end
          end
      end
  end.

(** The concatenated confirmed history of the keys. *)
Fixpoint search_history (q : store) (keys : list hash_digest) : code + list history :=
  match keys with
  | [] => inr []
  | key :: keys =>
      match get_confirmed_history q key (maximum_search options) with
      | inl fault => inl fault
      | inr part =>
          match search_history q keys with
          | inl fault => inl fault
          | inr rest => inr (part ++ rest)%list
          end
      end
  end.

(** The loop over the history; [found] is the number found so far. No result if
    stopping, a code if a transaction is missing. *)
Fixpoint search_loop (q : store) (stopping : nat → bool) (index : nat)
    (render : tx_link → btcd_transaction → value_t) (skip count found : Z)
    (entries : list history) : option (code + array) :=
  match entries with
  | [] => Some (inr [])
  | entry :: entries =>
      if stopping index then None
      else if negb (skip =? 0)
      then search_loop q stopping (S index) render (skip - 1) count found entries
      else if found =? count then Some (inr [])
      else
        let link := to_tx q (history_hash entry) in
        match get_transaction q link with
        | None => Some (inl (BtcdError.make BtcdError.internal_error))
        | Some tx =>
            match search_loop q stopping (S index) render skip count (found + 1) entries with
            | Some (inr rest) => Some (inr (render link tx :: rest))
            | fault => fault
            end
        end
  end.

(** [model] is the verbose json of a transaction, of the filter and [prevouts]. *)
Definition do_search_raw_transactions (q : store) (stopping : poll → bool)
    (model : tx_link → btcd_transaction → gset string → bool → value_t)
    (keys : list hash_digest) (verbose : bool) (skip count : Z) (prevouts reverse : bool)
    (filter : gset string) : list btcd_posted :=
  match search_history q keys with
  | inl fault => if code_eqb fault btcd_canceled then [] else [posted_search fault []]
  | inr history =>
      let history := if (1 <? length keys)%nat then filter_sort_and_dedup history else history in
      let history := if reverse then List.rev history else history in
      let render := λ link tx, if negb verbose then string_t (transaction_text tx)
                               else model link tx filter prevouts in
      match search_loop q (stopping ∘ poll_entry) 0 render skip count 0 history with
      | None => []
      | Some (inl fault) => [posted_search fault []]
      | Some (inr found) => [posted_search btcd_success found]
      end
  end.

(** ** Requests on the channel's strand *)

Inductive btcd_job :=
  | job_load_tx_filter (reload : bool) (keys : list hash_digest) (points : list point)
  | job_notify_received (keys : list hash_digest)
  | job_stop_notify_received (keys : list hash_digest)
  | job_notify_spent (points : list point)
  | job_stop_notify_spent (points : list point)
  | job_rescan_blocks (blocks : list hash_digest)
  | job_connected (link : block_link)
  | job_disconnected (link : block_link)
  | job_transaction (link : tx_link).

(** What a request leads to at once: what is sent, what is posted to the
    notification strand, and the query that runs in parallel. *)
Inductive btcd_reaction :=
  | btcd_ignored
  | btcd_error (e : BtcdError.error_t)
  | btcd_result (v : option value_t)
  | btcd_post (j : btcd_job)
  | btcd_post_result (j : btcd_job) (v : option value_t)
  | btcd_search (keys : list hash_digest) (verbose : bool) (skip count : Z)
      (prevouts reverse : bool) (filter : gset string).

Context (p2kh p2sh : Z) (witness : string).

Definition handle_load_tx_filter (q : store) (stopped : bool) (reload : bool)
    (addrs outpoints : value_t) : btcd_reaction :=
  if stopped then btcd_ignored
  else
    let '(ec, keys) := filter_keys addrs p2kh p2sh witness in
    if is_error ec then btcd_error BtcdError.invalid_parameter
    else
      let '(ec, points) := filter_points outpoints in
      if is_error ec then btcd_error BtcdError.invalid_parameter
      else if negb (length keys =? 0)%nat && negb (address_enabled (addresses q))
      then btcd_error BtcdError.unimplemented
      else btcd_post (job_load_tx_filter reload keys points).

Definition handle_notify_received (q : store) (stopped : bool) (addrs : value_t) :
    btcd_reaction :=
  if stopped then btcd_ignored
  else
    let '(ec, keys) := filter_keys addrs p2kh p2sh witness in
    if is_error ec then btcd_error BtcdError.invalid_parameter
    else if negb (length keys =? 0)%nat && negb (address_enabled (addresses q))
    then btcd_error BtcdError.unimplemented
    else btcd_post (job_notify_received keys).

Definition handle_stop_notify_received (stopped : bool) (addrs : value_t) : btcd_reaction :=
  if stopped then btcd_ignored
  else
    let '(ec, keys) := filter_keys addrs p2kh p2sh witness in
    if is_error ec then btcd_error BtcdError.invalid_parameter
    else btcd_post_result (job_stop_notify_received keys) None.

Definition handle_notify_spent (stopped : bool) (outpoints : value_t) : btcd_reaction :=
  if stopped then btcd_ignored
  else
    let '(ec, points) := filter_points outpoints in
    if is_error ec then btcd_error BtcdError.invalid_parameter
    else btcd_post (job_notify_spent points).

Definition handle_stop_notify_spent (stopped : bool) (outpoints : value_t) : btcd_reaction :=
  if stopped then btcd_ignored
  else
    let '(ec, points) := filter_points outpoints in
    if is_error ec then btcd_error BtcdError.invalid_parameter
    else btcd_post_result (job_stop_notify_spent points) None.

Fixpoint block_hashes (items : array) : option (list hash_digest) :=
  match items with
  | [] => Some []
  | string_t text :: items =>
      match decode_hash text with
      | Some hash => (hash ::.) <$> block_hashes items
      | None => None
      end
  | _ :: _ => None
  end.

Definition handle_rescan_blocks (q : store) (stopped : bool) (blockhashes : value_t) :
    btcd_reaction :=
  if stopped then btcd_ignored
  else
    match blockhashes with
    | array_t items =>
        match block_hashes items with
        | None => btcd_error BtcdError.internal_error
        | Some blocks =>
            if negb (address_enabled (addresses q)) then btcd_error BtcdError.unimplemented
            else btcd_post (job_rescan_blocks blocks)
        end
    | _ => btcd_error BtcdError.invalid_params
    end.

(** The strings of the filter. *)
Fixpoint filter_strings (items : array) : option (gset string) :=
  match items with
  | [] => Some ∅
  | string_t text :: items => (union {[ text ]}) <$> filter_strings items
  | _ :: _ => None
  end.

(** [limit<size_t>(value, minimum, max_size_t)] of a signed value. *)
Definition limit_size (value minimum : Z) : Z := Z.min (Z.max value minimum) max_size_t.

Definition handle_search_raw_transactions (q : store) (stopped : bool) (address : string)
    (verbose skip count prevouts : double) (reverse : bool) (filteraddrs : array) :
    btcd_reaction :=
  if stopped then btcd_ignored
  else if negb (address_enabled (addresses q)) then btcd_error BtcdError.misc_error
  else
    match search_keys address p2kh p2sh witness with
    | inl _ => btcd_error BtcdError.invalid_address_or_key
    | inr keys =>
        match to_int64 verbose, to_int64 skip, to_int64 count, to_int64 prevouts with
        | Some level, Some first, Some requested, Some extra =>
            if requested =? 0 then btcd_result (Some null_t)
            else
              match filter_strings filteraddrs with
              | None => btcd_error BtcdError.invalid_params
              | Some filter =>
                  btcd_search keys (negb (level =? 0)) (limit_size first 0)
                    (limit_size requested 1) (negb (extra =? 0)) reverse filter
              end
        | _, _, _, _ => btcd_error BtcdError.invalid_params
        end
    end.

(** ** Completions on the channel's strand *)

(** What a completion does: a message to the client (a result may be absent), or
    stop the channel. *)
Inductive btcd_effect :=
  | effect_error (ec : code)
  | effect_result (v : option value_t)
  | effect_notification (name : string) (params : params_t)
  | effect_stop (ec : code).

Definition send_error (ec : code) : list btcd_effect := [effect_error ec].
Definition send_value (v : option value_t) : list btcd_effect := [effect_result v].
Definition send_notification (name : string) (params : array) : btcd_effect :=
  effect_notification name (params_array params).

Definition complete_load_tx_filter (stopped : bool) (ec : code) : list btcd_effect :=
  if stopped then []
  else if is_error ec then send_error (BtcdError.translate ec BtcdError.internal_error)
  else send_value None.

Definition complete_notify_received := complete_load_tx_filter.
Definition complete_notify_spent := complete_load_tx_filter.

Definition complete_rescan_blocks (stopped : bool) (ec : code) (discovered : array) :
    list btcd_effect :=
  if stopped then []
  else if is_error ec then send_error (BtcdError.translate ec BtcdError.internal_error)
  else send_value (Some (array_t discovered)).

Definition complete_search_raw_transactions (stopped : bool) (ec : code) (found : array) :
    list btcd_effect :=
  if stopped then []
  else if is_error ec then send_error (BtcdError.translate ec BtcdError.internal_error)
  else if (length found =? 0)%nat
  then send_error (BtcdError.make BtcdError.invalid_address_or_key)
  else send_value (Some (array_t found)).

Definition complete_overflow (ec : code) : list btcd_effect := [effect_stop ec].

Definition notify_connected (stopped subscribed_blocks : bool) (header : block_header)
    (height : Z) (txs : array) (received redeemed : list array) : list btcd_effect :=
  if stopped then []
  else
    ((if subscribed_blocks then
        [send_notification "blockconnected"
           [string_t (encode_hash (block_hash header)); uint64_t height;
            uint32_t (timestamp header)];
         send_notification "filteredblockconnected"
           [uint64_t height; string_t (header_text header); array_t txs]]
      else []) ++
     (send_notification "recvtx" <$> received) ++
     (send_notification "redeemingtx" <$> redeemed))%list.

Definition notify_disconnected (stopped subscribed_blocks : bool) (header : block_header)
    (height : Z) : list btcd_effect :=
  if stopped || negb subscribed_blocks then []
  else
    [send_notification "blockdisconnected"
       [string_t (encode_hash (block_hash header)); uint64_t height;
        uint32_t (timestamp header)];
     send_notification "filteredblockdisconnected"
       [uint64_t height; string_t (header_text header)]].

Definition notify_transaction (stopped subscribed_transactions verbose : bool)
    (params : array) : list btcd_effect :=
  if stopped || negb subscribed_transactions then []
  else [send_notification (if verbose then "txacceptedverbose" else "txaccepted") params].

(** ** Events of the node *)

Inductive btcd_event :=
  | event_organized (link : block_link)
  | event_reorganized (link : block_link)
  | event_transaction (link : tx_link)
  | event_other.

Definition handle_btcd_chase (stopped : bool)
    (subscribed_blocks subscribed_transactions legacy : bool) (event : btcd_event) :
    bool * list btcd_job :=
  if stopped then (false, [])
  else
    (true,
     match event with
     | event_organized link =>
         if subscribed_blocks || legacy then [job_connected link] else []
     | event_reorganized link =>
         if subscribed_blocks || legacy then [job_disconnected link] else []
     | event_transaction link => if subscribed_transactions then [job_transaction link] else []
     | event_other => []
     end).

(** ** Transitions *)

Definition run_btcd_job (q : store) (stopping : poll → bool)
    (model : btcd_transaction → value_t) (verbose : bool) (j : btcd_job) (w : watches) :
    watches * list btcd_posted :=
  match j with
  | job_load_tx_filter reload keys points => do_load_tx_filter q stopping reload keys points w
  | job_notify_received keys => do_notify_received q stopping keys w
  | job_stop_notify_received keys => (do_stop_notify_received keys w, [])
  | job_notify_spent points => do_notify_spent stopping points w
  | job_stop_notify_spent points => (do_stop_notify_spent points w, [])
  | job_rescan_blocks blocks => do_rescan_blocks blocks w
  | job_connected link => do_connected q stopping link w
  | job_disconnected link => do_disconnected q link w
  | job_transaction link => (w, do_transaction q model verbose link)
  end.

(** The notification strand runs any job, on any state of the store. *)
Inductive watch_step : watches → watches → Prop :=
  | watch_step_run q stopping model verbose j w w' sent :
      run_btcd_job q stopping model verbose j w = (w', sent) → watch_step w w'.

Definition watches_reachable (w : watches) : Prop := rtc watch_step no_watches w.

(** The number of watches. *)
Definition total (w : watches) : Z :=
  Z.of_nat (size (address_watches w)) + Z.of_nat (size (outpoint_watches w)) +
  Z.of_nat (size (receive_watches w)) + Z.of_nat (size (spent_watches w)).

(** The flag is set while there is a legacy watch. It may stay set after the
    last one, as [match_spends] erases without clearing it. *)
Definition legacy_ok (w : watches) : Prop :=
  receive_watches w ≠ ∅ ∨ spent_watches w ≠ ∅ → watching_legacy w = true.

Definition watches_ok (w : watches) : Prop := total w <= maximum_filters options ∧ legacy_ok w.

End Watches.

(** ** Invariants of the watch lists *)

Section WatchKeys.
Context `{Text} `{StoreErrors} `{BtcdStore} (options : btcd_options).

(** Matching keeps the keys of the watch lists. *)
Lemma match_keys_dom q stopping heights keys subs out :
  dom (match_keys options q stopping heights keys subs out).1.2 = dom subs.
Proof.
  revert subs out. induction keys as [|key keys IH]; intros subs out; [done|]. simpl.
  destruct (subs !! key) as [sub|] eqn:Hsub; [|apply IH].
  destruct (stopping key); [done|].
  destruct (match_addresses _ _ _ _ _ _) as [[fault sub'] out'].
  assert (dom (<[key := sub']> subs) = dom subs).
  { rewrite dom_insert_L. apply elem_of_dom_2 in Hsub. set_solver. }
  destruct (code_eqb _ _); [done|]. by rewrite IH.
Qed.

Lemma match_points_dom q stopping heights points subs out :
  dom (match_points q stopping heights points subs out).1.2 = dom subs.
Proof.
  revert subs out. induction points as [|prevout points IH]; intros subs out; [done|]. simpl.
  destruct (subs !! prevout) as [sub|] eqn:Hsub; [|apply IH].
  destruct (stopping prevout); [done|]. rewrite IH, dom_insert_L.
  apply elem_of_dom_2 in Hsub. set_solver.
Qed.

Lemma spend_points_dom q stopping header height heights points subs :
  dom (spend_points q stopping header height heights points subs).1.2 ⊆ dom subs.
Proof.
  revert subs. induction points as [|prevout points IH]; intros subs; [done|]. simpl.
  destruct (subs !! prevout) as [sub|] eqn:Hsub; [|apply IH].
  destruct (stopping prevout); [done|].
  apply elem_of_dom_2 in Hsub. case_match.
  - etrans; [apply IH|]. set_solver.
  - specialize (IH (delete prevout subs)).
    destruct (spend_points _ _ _ _ _ _ (delete _ _)) as [[canceled subs'] rest]. simpl in *. set_solver.
Qed.

End WatchKeys.

Section WatchInvariants.
Context `{Text} `{StoreErrors} `{SizeMathLaws} `{BtcdStore} `{!Wallet}.
Context (options : btcd_options).
Context (maximum_range : 0 <= maximum_filters options <= max_size_t).

Lemma watch_count_total w : watch_count w = Z.min (total w) max_size_t.
Proof. unfold watch_count, total. rewrite !ceilinged_add_spec. unfold max_size_t. lia. Qed.

Lemma below_maximum w :
  (maximum_filters options <=? watch_count w) = false → total w < maximum_filters options.
Proof. rewrite watch_count_total. lia. Qed.

(** An edit that adds at most one watch, and keeps the flag in order. *)
Definition adds_one {A} (add : A → watches → watches * bool) : Prop :=
  ∀ item w, total (add item w).1 <= total w + 1 ∧ (legacy_ok w → legacy_ok (add item w).1).

Lemma size_insert_new `{Countable K} {A} (m : gmap K A) k v :
  m !! k = None → size (<[k := v]> m) = S (size m).
Proof. apply map_size_insert_None. Qed.

Ltac solve_adds :=
  case_match eqn:Hitem; [split; [simpl; lia|done]|];
  try destruct (prime_cursor _ _ _); unfold total, legacy_ok; simpl;
  rewrite size_insert_new by done; split; [lia|naive_solver].

Lemma add_address_one q : adds_one (add_address options q).
Proof. intros item w. unfold add_address. solve_adds. Qed.

Lemma add_outpoint_one q : adds_one (add_outpoint q).
Proof. intros item w. unfold add_outpoint. solve_adds. Qed.

Lemma add_receive_one q : adds_one (add_receive options q).
Proof. intros item w. unfold add_receive. solve_adds. Qed.

Lemma add_spent_one : adds_one add_spent.
Proof. intros item w. unfold add_spent. solve_adds. Qed.

Lemma watch_loop_ok {A} stopping add (items : list A) w :
  adds_one add → watches_ok options w → watches_ok options (watch_loop options stopping add items w).1.
Proof.
  intros Hadd. revert w. induction items as [|item items IH]; intros w Hw; [done|].
  simpl. destruct (stopping item); [done|].
  destruct (_ <=? _) eqn:Hcount; [done|]. apply below_maximum in Hcount.
  assert (watches_ok options (add item w).1).
  { destruct (Hadd item w) as [Htotal Hflag], Hw as [_ Hw]. split; [lia|auto]. }
  destruct (add item w) as [w' canceled]; simpl in *. destruct canceled; [done|by apply IH].
Qed.

Lemma size_by_dom `{Countable K} {A} (m m' : gmap K A) :
  dom m' ⊆ dom m → (size m' <= size m)%nat.
Proof. intros Hdom. rewrite <-!size_dom. by apply subseteq_size. Qed.

Lemma empty_by_dom `{Countable K} {A} (m m' : gmap K A) : dom m' ⊆ dom m → m' ≠ ∅ → m ≠ ∅.
Proof.
  intros Hdom Hne ->. apply Hne, dom_empty_inv_L. rewrite dom_empty_L in Hdom. set_solver.
Qed.

(** Watch lists whose keys are among those of others are in order if they are. *)
Lemma watches_ok_by_dom w w' :
  dom (address_watches w') ⊆ dom (address_watches w) →
  dom (outpoint_watches w') ⊆ dom (outpoint_watches w) →
  dom (receive_watches w') ⊆ dom (receive_watches w) →
  dom (spent_watches w') ⊆ dom (spent_watches w) →
  watching_legacy w' = watching_legacy w →
  watches_ok options w → watches_ok options w'.
Proof.
  intros Ha Ho Hr Hs Hflag [Htotal Hlegacy].
  pose proof (size_by_dom _ _ Ha). pose proof (size_by_dom _ _ Ho).
  pose proof (size_by_dom _ _ Hr). pose proof (size_by_dom _ _ Hs).
  split; [unfold total in *; lia|]. unfold legacy_ok. rewrite Hflag. intros [Hne|Hne]; apply Hlegacy.
  - left. by eapply empty_by_dom.
  - right. by eapply empty_by_dom.
Qed.

Lemma arm_outputs_ok hash index outs paid w :
  watches_ok options w → watches_ok options (arm_outputs options hash index outs paid w).1.2.
Proof.
  revert index paid w. induction outs as [|out outs IH]; intros index paid w Hw; [done|]. simpl.
  destruct (receive_watches w !! script_hash out) as [cursor|] eqn:Hpaid; [|by apply IH].
  destruct (_ <=? _) eqn:Hcount; [done|]. apply below_maximum in Hcount. apply IH.
  destruct Hw as [Htotal Hlegacy].
  assert (watching_legacy w = true) as Hflag.
  { apply Hlegacy. left. intros Hempty. by rewrite Hempty, lookup_empty in Hpaid. }
  split; [|by unfold legacy_ok]. unfold total in *. simpl.
  destruct (spent_watches w !! _) eqn:Hspent; [lia|]. rewrite size_insert_new by done. lia.
Qed.

Lemma receive_txs_ok q header height txs w :
  watches_ok options w → watches_ok options (receive_txs options q header height txs w).1.2.
Proof.
  revert w. induction txs as [|[position hash] txs IH]; intros w Hw; [done|]. simpl.
  destruct (get_transaction _ _) as [tx|]; [|by apply IH].
  pose proof (arm_outputs_ok hash 0 (outputs tx) false w Hw) as Harm.
  unfold arm_spent_watches. destruct (arm_outputs _ _ _ _ _ _) as [[fault w'] paid]. simpl in Harm.
  destruct (is_error fault); [done|]. specialize (IH w' Harm).
  by destruct (receive_txs _ _ _ _ _ _) as [[fault' w''] rest].
Qed.

Lemma match_filters_ok q stopping height heights w :
  watches_ok options w → watches_ok options (match_filters options q stopping height heights w).1.2.
Proof.
  intros Hw. unfold match_filters.
  pose proof (match_keys_dom options q (stopping ∘ poll_key) heights (keys_of (address_watches w))
    (address_watches w) ∅) as Ha.
  destruct (match_keys _ _ _ _ _ _ _) as [[canceled subs] out]. simpl in Ha.
  destruct canceled; [apply (watches_ok_by_dom w); simpl; set_solver|]. simpl.
  pose proof (match_points_dom q (stopping ∘ poll_point) heights (points_of (outpoint_watches w))
    (outpoint_watches w) out) as Ho.
  destruct (match_points _ _ _ _ _ _) as [[canceled subs'] out']. simpl in Ho.
  destruct canceled; apply (watches_ok_by_dom w); simpl; set_solver.
Qed.

Lemma match_receives_ok q stopping header height heights w :
  watches_ok options w →
  watches_ok options (match_receives options q stopping header height heights w).1.2.
Proof.
  intros Hw. unfold match_receives.
  pose proof (match_keys_dom options q (stopping ∘ poll_receive) heights (keys_of (receive_watches w))
    (receive_watches w) ∅) as Hr.
  destruct (match_keys _ _ _ _ _ _ _) as [[canceled subs] out]. simpl in Hr.
  set (w' := Watches _ _ subs _ _).
  assert (watches_ok options w') by (apply (watches_ok_by_dom w); simpl; set_solver).
  destruct canceled; [done|]. case_match; [by apply receive_txs_ok|done].
Qed.

Lemma match_spends_ok q stopping header height heights w :
  watches_ok options w → watches_ok options (match_spends q stopping header height heights w).1.2.
Proof.
  intros Hw. unfold match_spends.
  pose proof (spend_points_dom q (stopping ∘ poll_spend) header height heights
    (points_of (spent_watches w)) (spent_watches w)) as Hs.
  destruct (spend_points _ _ _ _ _ _ _) as [[canceled subs] out]. simpl in *.
  apply (watches_ok_by_dom w); simpl; set_solver.
Qed.

Lemma do_connected_ok q stopping link w :
  watches_ok options w → watches_ok options (do_connected options q stopping link w).1.
Proof.
  intros Hw. unfold do_connected.
  destruct (get_block_height q link) as [height|]; [|done].
  destruct (get_block_header q link) as [header|]; [|done]. simpl.
  pose proof (match_filters_ok q stopping height {[height]} w Hw) as Hf.
  destruct (match_filters _ _ _ _ _ _) as [[canceled w1] txs]. simpl in Hf.
  destruct canceled; [done|].
  pose proof (match_receives_ok q stopping header height {[height]} w1 Hf) as Hr.
  destruct (match_receives _ _ _ _ _ _ _) as [[fault w2] received]. simpl in Hr.
  destruct (is_error fault); [done|].
  pose proof (match_spends_ok q stopping header height {[height]} w2 Hr) as Hs.
  destruct (match_spends _ _ _ _ _ _) as [[canceled w3] redeemed]. simpl in Hs.
  by destruct canceled.
Qed.

Lemma foldl_delete_dom `{Countable K} {A} (keys : list K) (m : gmap K A) :
  dom (foldl (λ subs key, delete key subs) m keys) = dom m ∖ list_to_set keys.
Proof.
  revert m. induction keys as [|key keys IH]; intros m; simpl; [set_solver|].
  rewrite IH, dom_delete_L. set_solver.
Qed.

Lemma settle_legacy_ok w : watches_ok options w → watches_ok options (settle_legacy w).
Proof.
  intros [Htotal Hlegacy]. unfold settle_legacy. destruct (_ && _) eqn:Hempty; [|done].
  apply andb_true_iff in Hempty as [Hr%Nat.eqb_eq%map_size_empty_inv Hs%Nat.eqb_eq%map_size_empty_inv].
  split; [done|]. unfold legacy_ok. simpl. naive_solver.
Qed.

Lemma do_load_tx_filter_ok q stopping reload keys points w :
  watches_ok options w → watches_ok options (do_load_tx_filter options q stopping reload keys points w).1.
Proof.
  intros Hw. unfold do_load_tx_filter. set (w0 := if reload then _ else _).
  assert (watches_ok options w0).
  { subst w0. destruct reload; [|done]. apply (watches_ok_by_dom w); simpl; set_solver. }
  pose proof (watch_loop_ok (stopping ∘ poll_key) _ keys w0 (add_address_one q)) as Hkeys.
  destruct (watch_loop _ _ _ keys _) as [w1 [ec|]]; [|auto]. simpl in Hkeys.
  destruct (is_error ec); [destruct (match points with [] => _ | _ => _ end); auto|].
  pose proof (watch_loop_ok (stopping ∘ poll_point) _ points w1 (add_outpoint_one q)) as Hpoints.
  destruct (watch_loop _ _ _ points _) as [w2 [ec'|]]; auto.
Qed.

Lemma run_btcd_job_ok q stopping model verbose j w :
  watches_ok options w → watches_ok options (run_btcd_job options q stopping model verbose j w).1.
Proof.
  intros Hw. destruct j; simpl; [by apply do_load_tx_filter_ok| | | | |done|by apply do_connected_ok| |done].
  - unfold do_notify_received.
    pose proof (watch_loop_ok (stopping ∘ poll_receive) _ keys w (add_receive_one q) Hw) as Hl.
    by destruct (watch_loop _ _ _ _ _) as [w' [ec|]].
  - apply settle_legacy_ok, (watches_ok_by_dom w); simpl; [done..| | |done|done];
      rewrite ?foldl_delete_dom; set_solver.
  - unfold do_notify_spent.
    pose proof (watch_loop_ok (stopping ∘ poll_spend) _ points w add_spent_one Hw) as Hl.
    by destruct (watch_loop _ _ _ _ _) as [w' [ec|]].
  - apply settle_legacy_ok, (watches_ok_by_dom w); simpl; [done..| |done|done];
      rewrite ?foldl_delete_dom; set_solver.
  - unfold do_disconnected.
    assert (∀ sent : list btcd_posted, watches_ok options
      (Watches ((λ _, initial_cursor) <$> address_watches w) (outpoint_watches w)
         ((λ _, initial_cursor) <$> receive_watches w) (spent_watches w) (watching_legacy w), sent).1)
      as Hreset.
    { intros sent. apply (watches_ok_by_dom w); simpl; rewrite ?dom_fmap_L; done. }
    destruct (get_block_height q link); [|by apply Hreset].
    destruct (get_block_header q link); by apply Hreset.
Qed.

Lemma watches_reachable_ok w : watches_reachable options w → watches_ok options w.
Proof.
  intros Hr. eapply (rtc_preserves _ (watches_ok options)); [|exact Hr|].
  - intros x y Hx Hstep. inversion Hstep as [q stopping model verbose j w0 w' sent Hrun]; subst.
    pose proof (run_btcd_job_ok q stopping model verbose j x Hx) as Hok. by rewrite Hrun in Hok.
  - unfold watches_ok, total, legacy_ok, no_watches. simpl. rewrite !map_size_empty.
    split; [simpl; lia|naive_solver].
Qed.

End WatchInvariants.

(** ** What is matched *)

(** The transaction at a position of a block, of which a confirmed history entry
    and a confirmed spender are. *)
Class BlockPositions `{BtcdStore} := {
  block_tx : store → Z → Z → hash_digest;
}.

Class BlockPositionsLaws `{BlockPositions} : Prop := {
  history_block_tx q cur key limit delta cur' e :
    get_history (addresses q) cur key limit = inr (delta, cur') →
    e ∈ delta → history_confirmed e = true →
    history_hash e = block_tx q (history_height e) (history_position e);
  spenders_block_tx q prevout e :
    e ∈ get_spenders_history q prevout → history_confirmed e = true →
    history_hash e = block_tx q (history_height e) (history_position e);
  outputs_bounded tx : Z.of_nat (length (outputs tx)) <= 2 ^ 32;
}.

Section Matching.
Context `{Text} `{StoreErrors} `{SizeMath} `{BlockPositionsLaws}.
Context `{!OutpointStoreLaws} `{!BtcdStoreLaws}.
Context (options : btcd_options) (q : store).

(** The transactions recorded for a height. *)
Definition at_height (out : matches) (height : Z) : matched_txs := default [] (out !! height).

(** Matches of the blocks of the store, each list by ascending position. *)
Definition matches_ok (out : matches) : Prop :=
  ∀ height, Sorted Z.lt (at_height out height).*1 ∧
    ∀ position hash, (position, hash) ∈ at_height out height → hash = block_tx q height position.

Definition is_match (heights : gset Z) (e : history) (height position : Z) (hash : hash_digest) : Prop :=
  history_confirmed e = true ∧ height ∈ heights ∧ history_height e = height ∧
  history_position e = position ∧ history_hash e = hash.

Definition of_block (e : history) : Prop :=
  history_confirmed e = true →
  history_hash e = block_tx q (history_height e) (history_position e).

Lemma emplace_elem f position hash txs p h :
  (∀ p h, (p, h) ∈ txs → h = f p) → hash = f position →
  (p, h) ∈ emplace position hash txs ↔ (p, h) = (position, hash) ∨ (p, h) ∈ txs.
Proof.
  intros Hf ->. induction txs as [|[p' h'] txs IH]; simpl; [set_solver|].
  destruct (Z.ltb_spec position p'); [set_solver|].
  destruct (Z.eqb_spec position p') as [->|Hne].
  - assert (h' = f p') as -> by (apply Hf; set_solver). set_solver.
  - rewrite !elem_of_cons, IH by set_solver. naive_solver.
Qed.

Lemma emplace_sorted position hash txs :
  Sorted Z.lt txs.*1 → Sorted Z.lt (emplace position hash txs).*1.
Proof.
  induction txs as [|[p h] txs IH]; simpl; intros Hs; [by repeat constructor|].
  apply Sorted_inv in Hs as [Hs Hd].
  destruct (Z.ltb_spec position p); [by repeat constructor|].
  destruct (Z.eqb_spec position p) as [->|Hne]; [by constructor|].
  simpl. constructor; [by apply IH|]. clear IH Hs.
  destruct txs as [|[p' h'] txs]; simpl; [constructor; lia|].
  inversion Hd; subst. repeat case_match; simpl; constructor; lia.
Qed.

Lemma at_height_insert out height txs h :
  at_height (<[height := txs]> out) h = if decide (height = h) then txs else at_height out h.
Proof.
  unfold at_height. case_decide as Heq; [subst; by rewrite lookup_insert_eq|by rewrite lookup_insert_ne].
Qed.

Lemma record_match_spec heights out e :
  matches_ok out → of_block e →
  matches_ok (record_match heights out e) ∧
  ∀ height position hash,
    (position, hash) ∈ at_height (record_match heights out e) height ↔
    (position, hash) ∈ at_height out height ∨ is_match heights e height position hash.
Proof.
  intros Hout He. unfold record_match, is_match.
  destruct (history_confirmed e) eqn:Hc; simpl; [|naive_solver].
  case_bool_decide as Hin; [|naive_solver].
  fold (at_height out (history_height e)).
  pose proof (He Hc) as Hhash. destruct (Hout (history_height e)) as [Hsorted Hf].
  pose proof (λ p h, emplace_elem (block_tx q (history_height e)) (history_position e)
    (history_hash e) _ p h Hf Hhash) as Hel.
  split.
  - intros height. rewrite at_height_insert. case_decide as Heq; [subst height|by apply Hout].
    split; [by apply emplace_sorted|]. intros p h [Heq|Hp]%Hel; [|by apply Hf]. by simplify_eq.
  - intros height p h. rewrite at_height_insert. case_decide as Heq; [|naive_solver].
    subst height. rewrite Hel. naive_solver.
Qed.

Lemma record_matches_spec heights entries out :
  matches_ok out → (∀ e, e ∈ entries → of_block e) →
  matches_ok (record_matches heights entries out) ∧
  ∀ height position hash,
    (position, hash) ∈ at_height (record_matches heights entries out) height ↔
    (position, hash) ∈ at_height out height ∨
    ∃ e, e ∈ entries ∧ is_match heights e height position hash.
Proof.
  unfold record_matches. revert out. induction entries as [|e entries IH]; simpl; intros out Hout Hall.
  { set_solver. }
  destruct (record_match_spec heights out e Hout) as [Hok Hiff]; [apply Hall; set_solver|].
  destruct (IH _ Hok) as [Hok' Hiff']; [set_solver|]. split; [done|].
  intros height position hash. rewrite Hiff', Hiff. set_solver.
Qed.

Lemma no_matches_ok : matches_ok ∅.
Proof.
  intros height. unfold at_height. rewrite lookup_empty. simpl. split; [constructor|set_solver].
Qed.

(** What the watch of an address matches: the entries that the store returns
    beyond its cursor. *)
Definition address_match (heights : gset Z) (key : hash_digest) (sub : cursor_t)
    (height position : Z) (hash : hash_digest) : Prop :=
  ∃ delta cursor e, get_history (addresses q) sub key (maximum_search options) = inr (delta, cursor) ∧
    e ∈ delta ∧ is_match heights e height position hash.

(** What the watch of an outpoint matches: the spenders that it does not know. *)
Definition outpoint_match (heights : gset Z) (prevout : point) (sub : list history)
    (height position : Z) (hash : hash_digest) : Prop :=
  ∃ e, e ∈ get_spenders_history q prevout ∧ (e ∉ sub) ∧ is_match heights e height position hash.

Lemma match_addresses_spec heights key sub out :
  matches_ok out →
  matches_ok (match_addresses options q heights key sub out).2 ∧
  ∀ height position hash,
    (position, hash) ∈ at_height (match_addresses options q heights key sub out).2 height ↔
    (position, hash) ∈ at_height out height ∨ address_match heights key sub height position hash.
Proof.
  intros Hout. unfold match_addresses, address_match.
  destruct (get_history _ _ _ _) as [ec|[delta cursor]] eqn:Hget; simpl.
  - split; [done|]. naive_solver.
  - destruct (record_matches_spec heights delta out Hout) as [Hok Hiff].
    { intros e He Hc. by eapply history_block_tx. }
    split; [done|]. intros. rewrite Hiff. naive_solver.
Qed.

Lemma match_outpoints_spec heights prevout sub out :
  matches_ok out →
  matches_ok (match_outpoints q heights prevout sub out).2 ∧
  ∀ height position hash,
    (position, hash) ∈ at_height (match_outpoints q heights prevout sub out).2 height ↔
    (position, hash) ∈ at_height out height ∨ outpoint_match heights prevout sub height position hash.
Proof.
  intros Hout. unfold match_outpoints, outpoint_match. simpl.
  destruct (record_matches_spec heights
    (difference_of (get_spenders_history q prevout) sub) out Hout) as [Hok Hiff].
  { intros e He%difference_of_spec Hc. destruct He as [He _]. by eapply spenders_block_tx. }
  split; [done|]. intros. rewrite Hiff. setoid_rewrite difference_of_spec. naive_solver.
Qed.

(** The watches that a loop has visited, in whatever order, all match. *)
Lemma match_keys_spec stopping heights keys subs out subs' out' :
  NoDup keys → matches_ok out →
  match_keys options q stopping heights keys subs out = (false, subs', out') →
  matches_ok out' ∧
  ∀ height position hash,
    (position, hash) ∈ at_height out' height ↔
    (position, hash) ∈ at_height out height ∨
    ∃ key sub, key ∈ keys ∧ subs !! key = Some sub ∧
      address_match heights key sub height position hash.
Proof.
  revert subs out. induction keys as [|key keys IH]; intros subs out.
  { intros _ Hout [= <- <-]. set_solver. }
  intros [Hkey Hnd]%NoDup_cons Hout. simpl.
  destruct (subs !! key) as [sub|] eqn:Hsub.
  - destruct (stopping key); [done|].
    destruct (match_addresses_spec heights key sub out Hout) as [Hok Hiff].
    destruct (match_addresses _ _ _ _ _ _) as [[fault sub'] out1]. simpl in Hok, Hiff.
    destruct (code_eqb _ _); [done|]. intros Hrun.
    destruct (IH _ _ Hnd Hok Hrun) as [Hok' Hiff']. split; [done|].
    intros height position hash. rewrite Hiff', Hiff. split.
    + intros [[Hin|Hm]|(k & s & Hk & Hs & Hm)]; [by left| |]; right.
      * exists key, sub. set_solver.
      * exists k, s. rewrite lookup_insert_ne in Hs by set_solver. set_solver.
    + intros [Hin|(k & s & [->|Hk]%elem_of_cons & Hs & Hm)]; [by left; left| |].
      * left. right. by simplify_eq.
      * right. exists k, s. rewrite lookup_insert_ne by set_solver. done.
  - intros Hrun. destruct (IH _ _ Hnd Hout Hrun) as [Hok Hiff]. split; [done|].
    intros height position hash. rewrite Hiff. set_solver.
Qed.

(** Whether a watched outpoint is spent in the block at a height. *)
Definition newly_spent (heights : gset Z) (height : Z) (prevout : point) (sub : list history) : Prop :=
  ∃ position hash, outpoint_match heights prevout sub height position hash.

Lemma spend_txs_elem header height txs params :
  params ∈ spend_txs q header height txs ↔
  ∃ position hash tx, (position, hash) ∈ txs ∧ get_transaction q (to_tx q hash) = Some tx ∧
    params = serialize_legacy tx header height position.
Proof.
  induction txs as [|[position hash] txs IH]; simpl; [set_solver|].
  destruct (get_transaction q (to_tx q hash)) as [tx|] eqn:Htx; rewrite ?elem_of_cons, IH; split.
  - intros [->|(p & h & t & Hin & Ht & ->)]; [exists position, hash, tx|exists p, h, t]; set_solver.
  - intros (p & h & t & [Heq|Hin]%elem_of_cons & Ht & ->); [left; by simplify_eq|right; eauto 8].
  - intros (p & h & t & Hin & Ht & ->). exists p, h, t. set_solver.
  - intros (p & h & t & [Heq|Hin]%elem_of_cons & Ht & ->); [by simplify_eq|eauto 8].
Qed.

(** One spent watch: it is not spent in the block, or its matches are those of
    the store. *)
Lemma spent_watch_matches heights height prevout sub :
  let txs := at_height (match_outpoints q heights prevout sub ∅).2 height in
  (txs = [] ↔ ¬ newly_spent heights height prevout sub) ∧
  ∀ position hash, (position, hash) ∈ txs ↔
    outpoint_match heights prevout sub height position hash.
Proof.
  destruct (match_outpoints_spec heights prevout sub ∅ no_matches_ok) as [_ Hiff].
  assert (∀ position hash, (position, hash) ∈
    at_height (match_outpoints q heights prevout sub ∅).2 height ↔
    outpoint_match heights prevout sub height position hash) as Htxs.
  { intros. rewrite Hiff. unfold at_height at 1. rewrite lookup_empty. set_solver. }
  split; [|done]. unfold newly_spent. setoid_rewrite <-Htxs.
  destruct (at_height _ _) as [|[p h] txs]; [set_solver|]. split; [done|].
  intros Hnone. destruct Hnone. exists p, h. set_solver.
Qed.

(** One visit of the loop over the spent watches: the watch if it is kept, and
    its notifications. *)
Definition visit_spent (header : block_header) (height : Z) (heights : gset Z)
    (prevout : point) (sub : list history) : option (list history) * list array :=
  match at_height (match_outpoints q heights prevout sub ∅).2 height with
  | [] => (Some (get_spenders_history q prevout), [])
  | txs => (None, spend_txs q header height txs)
  end.

(** A whole run visits each watch as it was. *)
Lemma spend_points_run stopping header height heights points subs subs' out :
  NoDup points → spend_points q stopping header height heights points subs = (false, subs', out) →
  (∀ prevout, subs' !! prevout =
    if bool_decide (prevout ∈ points)
    then subs !! prevout ≫= λ sub, (visit_spent header height heights prevout sub).1
    else subs !! prevout) ∧
  out = (points ≫= λ prevout,
    match subs !! prevout with
    | Some sub => (visit_spent header height heights prevout sub).2
    | None => []
    end).
Proof.
  revert subs out. induction points as [|prevout points IH]; intros subs out.
  { by intros _ [= <- <-]. }
  intros [Hp Hnd]%NoDup_cons Hrun.
  assert (∃ subs1 out1 : _, (∀ p, subs1 !! p = if decide (p = prevout)
      then subs !! prevout ≫= λ sub, (visit_spent header height heights prevout sub).1
      else subs !! p) ∧
    spend_points q stopping header height heights points subs1 = (false, subs', out1) ∧
    out = (match subs !! prevout with
           | Some sub => (visit_spent header height heights prevout sub).2
           | None => []
           end ++ out1)%list) as (subs1 & out1 & Hsubs1 & Hrun1 & ->).
  { simpl in Hrun. unfold visit_spent, at_height.
    destruct (subs !! prevout) as [sub|] eqn:Hsub; simpl.
    - destruct (stopping prevout); [done|]. unfold match_outpoints in *. simpl in *.
      destruct (default [] _) as [|tx0 txs]; simpl.
      + eexists _, _. split; [|done]. intros p. case_decide; subst; by simplify_map_eq.
      + destruct (spend_points _ _ _ _ _ _ (delete _ _)) as [[canceled subs1] rest] eqn:Hrest.
        simplify_eq. exists (delete prevout subs), rest.
        split; [intros p; case_decide; subst; by simplify_map_eq|done].
    - exists subs, out. split; [|done]. intros p. case_decide; by subst. }
  destruct (IH _ _ Hnd Hrun1) as [Hlook ->]. split.
  - intros p. rewrite Hlook, !Hsubs1. destruct (decide (p = prevout)) as [->|Hne].
    + rewrite bool_decide_eq_false_2, bool_decide_eq_true_2 by set_solver. done.
    + rewrite (bool_decide_ext (p ∈ points) (p ∈ prevout :: points)) by set_solver. done.
  - simpl. f_equal. apply Forall_bind_ext, Forall_forall. intros p Hin. rewrite Hsubs1.
    rewrite decide_False by set_solver. done.
Qed.

(** ** Payments and the spent watches that they arm *)

(** A script that a receive watch matches. *)
Definition watched_script (w : watches) (s : script) : bool :=
  bool_decide (is_Some (receive_watches w !! script_hash s)).

Definition pays (w : watches) (tx : btcd_transaction) : bool :=
  existsb (watched_script w) (outputs tx).

(** The points of a transaction's watched outputs, from an index on. *)
Definition armed (w : watches) (hash : hash_digest) (index : Z) (outs : list script)
    (prevout : point) : Prop :=
  ∃ i out, outs !! i = Some out ∧ watched_script w out = true ∧
    prevout = (hash, index + Z.of_nat i).

Lemma armed_cons w hash index out outs prevout :
  armed w hash index (out :: outs) prevout ↔
  (watched_script w out = true ∧ prevout = (hash, index)) ∨
  armed w hash (index + 1) outs prevout.
Proof.
  unfold armed. split.
  - intros ([|i] & s & Hs & Hw & ->); simpl in Hs.
    + left. simplify_eq. by rewrite Z.add_0_r.
    + right. exists i, s. split_and!; [done..|]. f_equal. lia.
  - intros [[Hw ->]|(i & s & Hs & Hw & ->)].
    + exists 0%nat, out. by rewrite Z.add_0_r.
    + exists (S i), s. split_and!; [done..|]. f_equal. lia.
Qed.

(** Two watch lists that differ at most in the spent watches. *)
Definition same_but_spent (w w' : watches) : Prop :=
  address_watches w' = address_watches w ∧ outpoint_watches w' = outpoint_watches w ∧
  receive_watches w' = receive_watches w ∧ watching_legacy w' = watching_legacy w.

(** The spent watches [m'] are [m] and new watches of the points of [P]. *)
Definition extended (m m' : gmap point (list history)) (P : point → Prop) : Prop :=
  ∀ prevout sub, m' !! prevout = Some sub ↔
    m !! prevout = Some sub ∨ (m !! prevout = None ∧ sub = [] ∧ P prevout).

Lemma extended_none m P : (∀ p, ¬ P p) → extended m m P.
Proof. unfold extended. naive_solver. Qed.

Lemma extended_trans m1 m2 m3 P1 P2 P3 :
  extended m1 m2 P1 → extended m2 m3 P2 → (∀ p, P3 p ↔ P1 p ∨ P2 p) → extended m1 m3 P3.
Proof.
  unfold extended. intros H12 H23 HP prevout sub. rewrite (H23 prevout sub), (HP prevout).
  pose proof (H12 prevout) as Hp.
  destruct (m1 !! prevout) as [s1|] eqn:Hm1.
  - assert (m2 !! prevout = Some s1) as -> by (apply Hp; by left). naive_solver.
  - destruct (m2 !! prevout) as [s2|] eqn:Hm2.
    + destruct (proj1 (Hp s2) eq_refl) as [?|(_ & -> & HP1)]; naive_solver.
    + assert (¬ P1 prevout) by (intros HP1; specialize (Hp []); naive_solver). naive_solver.
Qed.

Lemma extended_insert (m : gmap point (list history)) p :
  extended m (match m !! p with Some _ => m | None => <[p := []]> m end) (eq p).
Proof.
  intros prevout sub. destruct (m !! p) as [s|] eqn:Hp; [naive_solver|].
  destruct (decide (p = prevout)) as [->|Hne]; simplify_map_eq; naive_solver.
Qed.

Lemma arm_outputs_spec hash index outs paid w fault w' paid' :
  0 <= index → index + Z.of_nat (length outs) <= 2 ^ 32 →
  arm_outputs options hash index outs paid w = (fault, w', paid') → is_error fault = false →
  same_but_spent w w' ∧ paid' = paid || existsb (watched_script w) outs ∧
  extended (spent_watches w) (spent_watches w') (armed w hash index outs).
Proof.
  revert index paid w. induction outs as [|out outs IH]; intros index paid w Hpos Hlen.
  { intros [= <- <- <-] _. rewrite orb_false_r. split_and!; [done..|].
    apply extended_none. intros p (i & s & Hs & _). by rewrite lookup_nil in Hs. }
  rewrite length_cons in Hlen. simpl.
  assert (outs = [] ∨ (index + 1) mod 2 ^ 32 = index + 1) as Hmod.
  { destruct outs; [by left|]. right. apply Z.mod_small. simpl in Hlen. lia. }
  assert (∀ paid w, arm_outputs options hash ((index + 1) mod 2 ^ 32) outs paid w =
    arm_outputs options hash (index + 1) outs paid w) as Hnext.
  { intros. destruct Hmod as [Hm|Hm]; by rewrite Hm. }
  destruct (receive_watches w !! script_hash out) as [cursor|] eqn:Hw.
  - assert (watched_script w out = true) as Hwatched.
    { unfold watched_script. rewrite Hw. by apply bool_decide_eq_true_2. }
    destruct (_ <=? _); [by intros [= <- <- <-]|]. rewrite Hnext. intros Hrun Hfault.
    destruct (IH (index + 1) true _ ltac:(lia) ltac:(lia) Hrun Hfault) as (Hsame & Hpaid & Hext).
    split_and!; [done|by rewrite Hpaid, Hwatched, orb_true_r|].
    eapply extended_trans; [apply extended_insert|exact Hext|].
    intros p. rewrite armed_cons, Hwatched. naive_solver.
  - assert (watched_script w out = false) as Hwatched.
    { unfold watched_script. rewrite Hw. apply bool_decide_eq_false_2. by intros [? ?]. }
    rewrite Hnext. intros Hrun Hfault.
    destruct (IH (index + 1) paid _ ltac:(lia) ltac:(lia) Hrun Hfault) as (Hsame & Hpaid & Hext).
    split_and!; [done|by rewrite Hpaid, Hwatched|].
    intros p s. rewrite (Hext p s), armed_cons, Hwatched. naive_solver.
Qed.

(** The points that the matched transactions of a block arm. *)
Definition arms (w : watches) (txs : matched_txs) (prevout : point) : Prop :=
  ∃ position hash tx, (position, hash) ∈ txs ∧ get_transaction q (to_tx q hash) = Some tx ∧
    armed w hash 0 (outputs tx) prevout.

Definition payments (w : watches) (header : block_header) (height : Z) (txs : matched_txs) :
    list array :=
  txs ≫= λ '(position, hash),
    match get_transaction q (to_tx q hash) with
    | Some tx => if pays w tx then [serialize_legacy tx header height position] else []
    | None => []
    end.

Lemma receive_txs_spec header height txs w fault w' received :
  receive_txs options q header height txs w = (fault, w', received) → is_error fault = false →
  same_but_spent w w' ∧ received = payments w header height txs ∧
  extended (spent_watches w) (spent_watches w') (arms w txs).
Proof.
  revert w received. induction txs as [|[position hash] txs IH]; intros w received.
  { intros [= <- <- <-] _. split_and!; [done..|]. apply extended_none. unfold arms. set_solver. }
  simpl. destruct (get_transaction q (to_tx q hash)) as [tx|] eqn:Htx.
  - unfold arm_spent_watches.
    destruct (arm_outputs _ _ _ _ _ _) as [[fault1 w1] paid] eqn:Harm.
    destruct (is_error fault1) eqn:Hfault1; [by intros [= <- <- <-]; rewrite Hfault1|].
    destruct (arm_outputs_spec hash 0 (outputs tx) false w fault1 w1 paid) as (Hsame & Hpaid & Hext);
      [done|apply outputs_bounded|done..|].
    destruct (receive_txs _ _ _ _ _ _) as [[fault2 w2] rest] eqn:Hrest.
    intros [= <- <- <-] Hfault. destruct (IH _ _ Hrest Hfault) as (Hsame2 & -> & Hext2).
    destruct Hsame as (Ha & Ho & Hr & Hf), Hsame2 as (Ha2 & Ho2 & Hr2 & Hf2).
    assert (∀ s, watched_script w1 s = watched_script w s) as Hscripts.
    { intros s. unfold watched_script. by rewrite Hr. }
    assert (payments w1 header height txs = payments w header height txs) as Hpay.
    { unfold payments. apply list_bind_ext; [|done]. intros [p h].
      destruct (get_transaction q (to_tx q h)) as [t|]; [|done].
      replace (pays w1 t) with (pays w t); [done|]. unfold pays.
      induction (outputs t) as [|o os IHo]; simpl; [done|]. by rewrite Hscripts, IHo. }
    split_and!; [by split_and!; congruence| |].
    + rewrite Hpay, Hpaid. simpl. fold (pays w tx). by destruct (pays w tx).
    + eapply extended_trans; [exact Hext|exact Hext2|]. intros p. unfold arms, armed.
      setoid_rewrite Hscripts. split.
      * intros (pos & h & t & [Heq|Hin]%elem_of_cons & Ht & Hi); [left|right].
        -- simplify_eq. done.
        -- by exists pos, h, t.
      * intros [Hi|(pos & h & t & Hin & Ht & Hi)].
        -- exists position, hash, tx. split_and!; [set_solver|done..].
        -- exists pos, h, t. split_and!; [set_solver|done..].
  - intros Hrun Hfault. destruct (IH _ _ Hrun Hfault) as (Hsame & -> & Hext).
    split_and!; [done..|]. intros p s. rewrite (Hext p s).
    assert (arms w txs p ↔ arms w ((position, hash) :: txs) p) as ->; [|done].
    unfold arms. split.
    + intros (pos & h & t & Hin & Hrest). exists pos, h, t. set_solver.
    + intros (pos & h & t & [Heq|Hin]%elem_of_cons & Ht & Hi); [|by exists pos, h, t].
      simplify_eq.
Qed.

(** ** A connected block *)

Lemma keys_of_spec {A} (subs : gmap hash_digest A) :
  NoDup (keys_of subs) ∧ ∀ key, key ∈ keys_of subs ↔ is_Some (subs !! key).
Proof.
  unfold keys_of. rewrite order_hashes_permutation. split; [apply NoDup_fst_map_to_list|].
  intros key. rewrite order_hashes_permutation, list_elem_of_fmap. split.
  - intros ([k v] & -> & Hin%elem_of_map_to_list). by exists v.
  - intros [v Hv]. exists (key, v). by rewrite elem_of_map_to_list.
Qed.

Lemma points_of_spec {A} (subs : gmap point A) :
  NoDup (points_of subs) ∧ ∀ prevout, prevout ∈ points_of subs ↔ is_Some (subs !! prevout).
Proof.
  unfold points_of. rewrite order_points_permutation. split; [apply NoDup_fst_map_to_list|].
  intros prevout. rewrite order_points_permutation, list_elem_of_fmap. split.
  - intros ([k v] & -> & Hin%elem_of_map_to_list). by exists v.
  - intros [v Hv]. exists (prevout, v). by rewrite elem_of_map_to_list.
Qed.

(** A matched transaction that pays a watched script. *)
Definition payment (w : watches) (height position : Z) (hash : hash_digest)
    (tx : btcd_transaction) : Prop :=
  (∃ key sub, receive_watches w !! key = Some sub ∧
    address_match {[height]} key sub height position hash) ∧
  get_transaction q (to_tx q hash) = Some tx ∧ pays w tx = true.

(** A spent watch of a block: one that was there, or a new one of an output of a
    payment of that block. *)
Definition spent_watch (w : watches) (height : Z) (prevout : point) (sub : list history) : Prop :=
  spent_watches w !! prevout = Some sub ∨
  (spent_watches w !! prevout = None ∧ sub = [] ∧
   ∃ position hash tx, payment w height position hash tx ∧ armed w hash 0 (outputs tx) prevout).

(** What the watches of a block match. *)
Definition redemption (w : watches) (height position : Z) (tx : btcd_transaction) : Prop :=
  ∃ prevout sub hash, spent_watch w height prevout sub ∧
    outpoint_match {[height]} prevout sub height position hash ∧
    get_transaction q (to_tx q hash) = Some tx.

Lemma armed_pays w hash tx prevout :
  armed w hash 0 (outputs tx) prevout → pays w tx = true.
Proof.
  intros (i & out & Hout & Hw & _). unfold pays. apply existsb_exists. exists out.
  split; [|done]. apply list_elem_of_In. by eapply list_elem_of_lookup_2.
Qed.

Lemma payments_elem w header height txs params :
  params ∈ payments w header height txs ↔
  ∃ position hash tx, (position, hash) ∈ txs ∧ get_transaction q (to_tx q hash) = Some tx ∧
    pays w tx = true ∧ params = serialize_legacy tx header height position.
Proof.
  unfold payments. rewrite list_elem_of_bind. split.
  - intros ([position hash] & Hp & Hin). destruct (get_transaction _ _) as [tx|] eqn:Htx; [|set_solver].
    destruct (pays w tx) eqn:Hpay; [|set_solver]. apply list_elem_of_singleton in Hp. eauto 10.
  - intros (position & hash & tx & Hin & Htx & Hpay & ->). exists (position, hash).
    rewrite Htx, Hpay. set_solver.
Qed.

(** The receive watches are matched as they were, and arm the spent watches. *)
Lemma match_receives_spec stopping header height w fault w' received :
  match_receives options q stopping header height {[height]} w = (fault, w', received) →
  is_error fault = false → is_error btcd_canceled = true →
  (∀ params, params ∈ received ↔ ∃ position hash tx, payment w height position hash tx ∧
    params = serialize_legacy tx header height position) ∧
  ∀ prevout sub, spent_watches w' !! prevout = Some sub ↔ spent_watch w height prevout sub.
Proof.
  unfold match_receives. intros Hrun Hfault Hcanceled.
  destruct (keys_of_spec (receive_watches w)) as [Hnd Hkeys].
  pose proof (match_keys_dom options q (stopping ∘ poll_receive) {[height]} (keys_of (receive_watches w))
    (receive_watches w) ∅) as Hdom.
  destruct (match_keys _ _ _ _ _ _ _) as [[canceled subs] out] eqn:Hmatch. simpl in Hdom.
  destruct canceled; [simplify_eq; by rewrite Hfault in Hcanceled|].
  destruct (match_keys_spec _ _ _ _ _ _ _ Hnd no_matches_ok Hmatch) as [_ Hiff].
  set (w1 := Watches _ _ subs _ _) in Hrun.
  assert (∀ s, watched_script w1 s = watched_script w s) as Hscripts.
  { intros s. unfold watched_script. simpl. apply bool_decide_ext.
    by rewrite <-!elem_of_dom, Hdom. }
  assert (∀ tx, pays w1 tx = pays w tx) as Hpays.
  { intros tx. unfold pays. induction (outputs tx) as [|o os IH]; simpl; [done|].
    by rewrite Hscripts, IH. }
  assert (receive_txs options q header height (at_height out height) w1 = (fault, w', received)) as Htxs.
  { unfold at_height. by destruct (out !! height). }
  assert (∀ position hash, (position, hash) ∈ at_height out height ↔
    ∃ key sub, receive_watches w !! key = Some sub ∧
      address_match {[height]} key sub height position hash) as Hat.
  { intros position hash. rewrite Hiff. unfold at_height at 1. rewrite lookup_empty. simpl. split.
    - intros [Hin|(key & sub & _ & Hk)]; [set_solver|by exists key, sub].
    - intros (key & sub & Hsub & Hm). right. exists key, sub. rewrite Hkeys. by rewrite Hsub. }
  destruct (receive_txs_spec _ _ _ _ _ _ _ Htxs Hfault) as (_ & -> & Hext). split.
  - intros params. rewrite payments_elem. unfold payment. setoid_rewrite Hat.
    setoid_rewrite Hpays. naive_solver.
  - intros prevout sub. rewrite (Hext prevout sub). simpl. unfold spent_watch, arms, payment.
    setoid_rewrite Hat. unfold armed. setoid_rewrite Hscripts. fold (armed w).
    split; (intros [Hs|(Hs & -> & position & hash & tx & Hrest)]; [by left|right]);
      (split_and!; [done..|]); exists position, hash, tx; [|naive_solver].
    destruct Hrest as (Hk & Htx & Ha). split_and!; [done..| |done]. by eapply armed_pays.
Qed.

Lemma match_filters_legacy stopping height heights w canceled w' txs :
  match_filters options q stopping height heights w = (canceled, w', txs) →
  receive_watches w' = receive_watches w ∧ spent_watches w' = spent_watches w.
Proof.
  unfold match_filters. destruct (match_keys _ _ _ _ _ _ _) as [[[] subs] out]; [by intros; simplify_eq|].
  simpl. destruct (match_points _ _ _ _ _ _) as [[[] subs'] out']; by intros; simplify_eq.
Qed.

(** A run that reports a block has run each matcher. *)
Lemma do_connected_inv stopping link w w' header height txs received redeemed :
  do_connected options q stopping link w =
    (w', [posted_connected header height txs received redeemed]) →
  ∃ w1 w2 fault, receive_watches w1 = receive_watches w ∧ spent_watches w1 = spent_watches w ∧
    match_receives options q stopping header height {[height]} w1 = (fault, w2, received) ∧
    is_error fault = false ∧
    match_spends q stopping header height {[height]} w2 = (false, w', redeemed).
Proof.
  unfold do_connected. intros Hrun.
  destruct (get_block_height q link) as [height'|]; [|by simplify_eq].
  destruct (get_block_header q link) as [header'|]; [|by simplify_eq]. simpl in Hrun.
  destruct (match_filters _ _ _ _ _ _) as [[[] w1] txs'] eqn:Hf; [by simplify_eq|].
  destruct (match_receives _ _ _ _ _ _ _) as [[fault w2] received'] eqn:Hr.
  destruct (is_error fault) eqn:Hfault; [by destruct (code_eqb _ _); simplify_eq|].
  destruct (match_spends _ _ _ _ _ _) as [[[] w3] redeemed'] eqn:Hs; simplify_eq.
  destruct (match_filters_legacy _ _ _ _ _ _ _ Hf) as [Heq1 Heq2]. by exists w1, w2, fault.
Qed.

Lemma visit_spent_spec header height prevout sub :
  (newly_spent {[height]} height prevout sub →
    (visit_spent header height {[height]} prevout sub).1 = None) ∧
  (¬ newly_spent {[height]} height prevout sub →
    (visit_spent header height {[height]} prevout sub).1 = Some (get_spenders_history q prevout)) ∧
  ∀ params, params ∈ (visit_spent header height {[height]} prevout sub).2 ↔
    ∃ position hash tx, outpoint_match {[height]} prevout sub height position hash ∧
      get_transaction q (to_tx q hash) = Some tx ∧
      params = serialize_legacy tx header height position.
Proof.
  destruct (spent_watch_matches {[height]} height prevout sub) as [Hnil Hel].
  unfold visit_spent. setoid_rewrite <-Hel.
  destruct (at_height _ _) as [|tx txs] eqn:Htxs.
  - simpl. pose proof (proj1 Hnil eq_refl). set_solver.
  - split_and!; [done|intros Hn; by apply Hnil in Hn|]. intros params.
    rewrite <-spend_txs_elem. done.
Qed.

Lemma match_spends_spec stopping header height w w' redeemed :
  match_spends q stopping header height {[height]} w = (false, w', redeemed) →
  (∀ params, params ∈ redeemed ↔
    ∃ prevout sub position hash tx, spent_watches w !! prevout = Some sub ∧
      outpoint_match {[height]} prevout sub height position hash ∧
      get_transaction q (to_tx q hash) = Some tx ∧
      params = serialize_legacy tx header height position) ∧
  ∀ prevout sub, spent_watches w !! prevout = Some sub →
    (newly_spent {[height]} height prevout sub → spent_watches w' !! prevout = None) ∧
    (¬ newly_spent {[height]} height prevout sub →
      spent_watches w' !! prevout = Some (get_spenders_history q prevout)).
Proof.
  unfold match_spends. destruct (points_of_spec (spent_watches w)) as [Hnd Hpoints].
  destruct (spend_points _ _ _ _ _ _ _) as [[canceled subs] out] eqn:Hrun.
  intros [= -> <- <-]. destruct (spend_points_run _ _ _ _ _ _ _ _ Hnd Hrun) as [Hlook ->]. split.
  - intros params. rewrite list_elem_of_bind. split.
    + intros (prevout & Hp & _). destruct (spent_watches w !! prevout) as [sub|] eqn:Hsub; [|set_solver].
      apply visit_spent_spec in Hp as (position & hash & tx & Hrest).
      by exists prevout, sub, position, hash, tx.
    + intros (prevout & sub & position & hash & tx & Hsub & Hrest). exists prevout.
      rewrite Hpoints, Hsub. split; [|done].
      apply visit_spent_spec. by exists position, hash, tx.
  - intros prevout sub Hsub. simpl. rewrite Hlook, bool_decide_eq_true_2, Hsub by (by rewrite Hpoints, Hsub).
    simpl. destruct (visit_spent_spec header height prevout sub) as (Hs & Hn & _). done.
Qed.

End Matching.

(** ** Queries *)

Section Search.
Context `{Text} `{StoreErrors} `{SizeMath} `{BtcdStore}.
Context (options : btcd_options) (q : store).

(** The transactions of history entries, if the store has them all. *)
Definition resolve (render : tx_link → btcd_transaction → value_t) (entries : list history) :
    option array :=
  mapM (λ e, render (to_tx q (history_hash e)) <$> get_transaction q (to_tx q (history_hash e))) entries.

(** The loop visits a window of the history. *)
Lemma search_loop_window index render skip count found entries :
  0 <= skip → 0 <= found <= count →
  search_loop q (λ _, false) index render skip count found entries =
    Some (match resolve render (take (Z.to_nat (count - found)) (drop (Z.to_nat skip) entries)) with
          | Some rows => inr rows
          | None => inl (BtcdError.make BtcdError.internal_error)
          end).
Proof.
  revert index skip found. induction entries as [|e entries IH]; intros index skip found Hskip Hfound.
  { simpl. by rewrite drop_nil, take_nil. }
  simpl. destruct (Z.eqb_spec skip 0) as [->|Hne]; simpl.
  - destruct (Z.eqb_spec found count) as [->|Hlt].
    { by rewrite Z.sub_diag. }
    replace (Z.to_nat (count - found)) with (S (Z.to_nat (count - (found + 1)))) by lia.
    simpl. unfold resolve. simpl.
    destruct (get_transaction q (to_tx q (history_hash e))) as [tx|]; simpl; [|done].
    rewrite IH by lia. unfold resolve. by destruct (mapM _ _).
  - rewrite IH by lia. replace (Z.to_nat skip) with (S (Z.to_nat (skip - 1))) by lia. done.
Qed.

End Search.

Section Rescan.
Context `{Text} `{StoreErrors} `{SizeMath} `{BlockPositionsLaws}.
Context `{!OutpointStoreLaws} `{!BtcdStoreLaws} `{!AddressHistory} `{!AddressHistoryLaws}.
Context (options : btcd_options) (q : store).

(** The history of each key is within the limit of a query. *)
Definition readable (keys : list hash_digest) : Prop :=
  ∀ key, key ∈ keys → ∃ delta cursor,
    get_history (addresses q) initial_cursor key (maximum_search options) = inr (delta, cursor).

(** The transactions of a block that pay or spend from a watched address, or
    spend a watched outpoint. *)
Definition rescan_match (keys : list hash_digest) (points : list point) (height position : Z)
    (hash : hash_digest) : Prop :=
  (∃ key e, key ∈ keys ∧ e ∈ confirmed (addresses q) key ∧ history_height e = height ∧
    history_position e = position ∧ history_hash e = hash) ∨
  (∃ prevout e, prevout ∈ points ∧ e ∈ get_spenders_history q prevout ∧
    history_confirmed e = true ∧ history_height e = height ∧
    history_position e = position ∧ history_hash e = hash).

Lemma address_match_initial heights key height position hash :
  (∃ delta cursor, get_history (addresses q) initial_cursor key (maximum_search options) =
    inr (delta, cursor)) →
  address_match options q heights key initial_cursor height position hash ↔
  height ∈ heights ∧ ∃ e, e ∈ confirmed (addresses q) key ∧ history_height e = height ∧
    history_position e = position ∧ history_hash e = hash.
Proof.
  intros (delta & cursor & Hget). unfold address_match. rewrite Hget.
  destruct (get_history_success _ _ _ _ _ _ (initial_cursor_of _) Hget) as [-> _].
  rewrite seen_initial, drop_0. unfold is_match.
  pose proof (confirmed_true (addresses q) key) as Hconf. rewrite Forall_forall in Hconf.
  pose proof (unconfirmed_false (addresses q) key) as Hunconf. rewrite Forall_forall in Hunconf.
  split.
  - intros (? & ? & e & [= <- <-] & [He|He]%elem_of_app & Hc & Hh & Hrest); [by eauto|].
    rewrite Hunconf in Hc by done. done.
  - intros (Hh & e & He & Hrest). eexists _, _, e. split; [done|]. rewrite elem_of_app.
    split; [by left|]. split; [by apply Hconf|]. split_and!; naive_solver.
Qed.

Lemma replay_keys_spec heights keys out :
  readable keys → matches_ok q out →
  ∃ out', replay_keys options q (λ _, false) heights keys out = Some out' ∧ matches_ok q out' ∧
    ∀ height position hash, (position, hash) ∈ at_height out' height ↔
      (position, hash) ∈ at_height out height ∨
      ∃ key, key ∈ keys ∧ address_match options q heights key initial_cursor height position hash.
Proof.
  revert out. induction keys as [|key keys IH]; intros out Hread Hout.
  { exists out. split_and!; [done..|set_solver]. }
  destruct (match_addresses_spec options q heights key initial_cursor out Hout) as [Hok Hiff].
  simpl. unfold match_addresses in *.
  destruct (Hread key) as (delta & cursor & Hget); [set_solver|]. rewrite Hget in *. simpl in *.
  destruct (IH _ ltac:(intros k Hk; apply Hread; set_solver) Hok) as (out' & Hrun & Hok' & Hiff').
  exists out'. split_and!; [done..|]. intros. rewrite Hiff', Hiff. set_solver.
Qed.

Lemma replay_points_spec heights points out :
  matches_ok q out →
  ∃ out', replay_points q (λ _, false) heights points out = Some out' ∧ matches_ok q out' ∧
    ∀ height position hash, (position, hash) ∈ at_height out' height ↔
      (position, hash) ∈ at_height out height ∨
      ∃ prevout, prevout ∈ points ∧ outpoint_match q heights prevout [] height position hash.
Proof.
  revert out. induction points as [|prevout points IH]; intros out Hout.
  { exists out. split_and!; [done..|set_solver]. }
  destruct (match_outpoints_spec q heights prevout [] out Hout) as [Hok Hiff].
  destruct (IH _ Hok) as (out' & Hrun & Hok' & Hiff').
  exists out'. split_and!; [done..|]. intros. rewrite Hiff', Hiff. set_solver.
Qed.

(** What the result says of one block. *)
Definition discovered_block (txs : matched_txs) (hash : hash_digest) : array :=
  match txs with
  | [] => []
  | _ => [object_t [("hash", string_t (encode_hash hash));
                    ("transactions", array_t (serialize_matches q (λ _, false) txs))]]
  end.

Lemma discover_spec index matched named :
  discover q (λ _, false) index matched named =
    Some (named ≫= λ '(hash, height), discovered_block (at_height matched height) hash).
Proof.
  revert index. induction named as [|[hash height] named IH]; intros index; [done|].
  simpl. rewrite IH. unfold at_height. by destruct (default [] _).
Qed.

Lemma name_blocks_spec index blocks heights :
  Forall2 (λ hash height, get_block_height q (to_header q hash) = Some height) blocks heights →
  name_blocks q (λ _, false) index blocks = inr (zip blocks heights).
Proof.
  intros Hall. revert index. induction Hall as [|hash height blocks heights Hh _ IH]; intros index; [done|].
  simpl. by rewrite Hh, IH.
Qed.

Lemma name_blocks_missing index blocks hash :
  hash ∈ blocks → get_block_height q (to_header q hash) = None →
  name_blocks q (λ _, false) index blocks = inl false.
Proof.
  intros Hin Hnone. revert index. induction blocks as [|b blocks IH]; intros index; [set_solver|].
  simpl. destruct (get_block_height q (to_header q b)) eqn:Hb; [|done].
  apply elem_of_cons in Hin as [->|Hin]; [congruence|]. by rewrite IH.
Qed.

End Rescan.

(** ** Loading the watch lists *)

Section Load.
Context `{Text} `{StoreErrors} `{SizeMathLaws} `{BtcdStore}.
Context (options : btcd_options).

Lemma foldl_add_address q keys w :
  let w' := foldl (λ w key, (add_address options q key w).1) w keys in
  dom (address_watches w') = dom (address_watches w) ∪ list_to_set keys ∧
  (∀ key cursor, address_watches w !! key = Some cursor → address_watches w' !! key = Some cursor) ∧
  outpoint_watches w' = outpoint_watches w ∧ receive_watches w' = receive_watches w ∧
  spent_watches w' = spent_watches w.
Proof.
  revert w. induction keys as [|key keys IH]; intros w; simpl.
  { split_and!; [set_solver|done..]. }
  destruct (IH (add_address options q key w).1) as (Hdom & Hkeep & Hrest). clear IH. simpl in *.
  unfold add_address in *. destruct (address_watches w !! key) as [c|] eqn:Hkey.
  - split_and!; [|done|apply Hrest..]. rewrite Hdom. apply elem_of_dom_2 in Hkey. set_solver.
  - destruct (prime_cursor options q key) as [cursor canceled]. simpl in *.
    split_and!; [|by intros k c Hk; apply Hkeep; rewrite lookup_insert_ne by congruence|apply Hrest..].
    rewrite Hdom, dom_insert_L. set_solver.
Qed.

Lemma foldl_add_outpoint q points w :
  let w' := foldl (λ w prevout, (add_outpoint q prevout w).1) w points in
  dom (outpoint_watches w') = dom (outpoint_watches w) ∪ list_to_set points ∧
  address_watches w' = address_watches w ∧ receive_watches w' = receive_watches w ∧
  spent_watches w' = spent_watches w.
Proof.
  revert w. induction points as [|prevout points IH]; intros w; simpl.
  { split_and!; [set_solver|done..]. }
  destruct (IH (add_outpoint q prevout w).1) as (Hdom & Hrest). clear IH. simpl in *.
  unfold add_outpoint in *. destruct (outpoint_watches w !! prevout) as [c|] eqn:Hkey; simpl in *.
  - split_and!; [|apply Hrest..]. rewrite Hdom. apply elem_of_dom_2 in Hkey. set_solver.
  - split_and!; [|apply Hrest..]. rewrite Hdom, dom_insert_L. set_solver.
Qed.

Context (maximum_range : 0 <= maximum_filters options <= max_size_t).

(** A loop that is not canceled adds every item, or stops at the maximum. *)
Lemma watch_loop_spec {A} add (items : list A) w :
  (∀ item w, item ∈ items → (add item w).2 = false) →
  watch_loop options (λ _, false) add items w =
    (foldl (λ w item, (add item w).1) w items, Some btcd_success) ∨
  ∃ w', watch_loop options (λ _, false) add items w = (w', Some too_many) ∧
    maximum_filters options <= total w'.
Proof.
  revert w. induction items as [|item items IH]; intros w Hadd; [by left|]. simpl.
  destruct (_ <=? _) eqn:Hcount.
  { right. exists w. split; [done|]. rewrite watch_count_total in Hcount. lia. }
  pose proof (Hadd item w ltac:(set_solver)) as Hc.
  destruct (add item w) as [w1 canceled]; simpl in *. subst canceled.
  apply IH. set_solver.
Qed.

End Load.

(** ** A reference store, for examples

    One block, at height 5; each transaction has a hash, the point that it spends
    and the scripts that it pays. A cursor is the number of entries seen. *)
Section Reference.

Record example_tx := ExampleTx {
  example_hash : hash_digest;
  example_spends : option point;
  example_pays : list (list Z);
}.

Definition example_entry (position : nat) (tx : example_tx) : history :=
  History (example_hash tx) 5 0 (Z.of_nat position) true.

Definition example_select (P : example_tx → bool) (block : list example_tx) : list history :=
  imap (λ i tx, if P tx then [example_entry i tx] else []) block ≫= λ l, l.

Lemma example_select_elem P block e :
  e ∈ example_select P block → ∃ i tx, block !! i = Some tx ∧ e = example_entry i tx.
Proof.
  unfold example_select. rewrite list_elem_of_bind. intros (l & He & Hl).
  apply list_elem_of_lookup_1 in Hl as [i Hi]. rewrite list_lookup_imap in Hi.
  destruct (block !! i) as [tx|] eqn:Htx; simplify_eq/=. exists i, tx. split; [done|].
  destruct (P tx); [by apply list_elem_of_singleton in He|set_solver].
Qed.

Definition example_history (block : list example_tx) (key : hash_digest) : list history :=
  example_select (λ tx, bool_decide (key ∈ example_pays tx)) block.

End Reference.

#[local] Instance example_addresses : AddressStore := {
  chain := list example_tx;
  cursor_t := nat;
  initial_cursor := 0%nat;
  address_enabled _ := true;
  get_history block cur key _ :=
    inr (drop cur (example_history block key), length (example_history block key));
}.

#[local] Instance example_address_history : AddressHistory := {
  confirmed := example_history;
  unconfirmed _ _ := [];
  cursor_of _ _ := True;
  seen _ _ cur := cur;
  extends := eq;
}.

#[local] Instance example_address_laws : AddressHistoryLaws.
Proof.
  split; simpl; try done.
  - intros block key. apply Forall_forall. intros e He.
    by apply example_select_elem in He as (i & tx & _ & ->).
  - intros block cur key _ entries cur' _ [= <- <-]. by rewrite app_nil_r.
  - intros c c' h ->. done.
Qed.

#[local] Instance example_outpoints : OutpointStore := {
  store := list example_tx;
  tx_link := hash_digest;
  to_tx _ hash := hash;
  is_terminal _ := false;
  output_link := unit;
  to_output _ _ _ := tt;
  get_output_script _ _ := None;
  get_tx_history _ tx := History tx 0 0 0 false;
  history_valid _ := true;
  get_spenders_history block prevout :=
    example_select (λ tx, bool_decide (example_spends tx = Some prevout)) block;
  difference_of a b := filter (λ x, x ∉ b) a;
  to_integer _ := Some 0;
}.

#[local] Instance example_outpoints_laws : OutpointStoreLaws.
Proof. split. intros a b x. simpl. rewrite list_elem_of_filter. naive_solver. Qed.

#[local] Instance example_btcd : BtcdStore := {
  addresses block := block;
  get_confirmed_history block key _ := inr (example_history block key);
  filter_sort_and_dedup h := h;
  btcd_transaction := example_tx;
  get_transaction block hash := List.find (λ tx, bool_decide (example_hash tx = hash)) block;
  outputs tx := take 3 (example_pays tx);
  transaction_text tx := String.string_of_list_ascii (ascii_of_nat ∘ Z.to_nat <$> example_hash tx);
  transaction_hash := example_hash;
  transaction_amount _ := PrimFloat.zero;
  block_link := hash_digest;
  to_header _ hash := hash;
  get_block_height _ hash := if bool_decide (hash = [5]) then Some 5 else None;
  block_header := unit;
  get_block_header _ _ := Some tt;
  block_hash _ := [5];
  timestamp _ := 0;
  header_text _ := "";
  to_int64 d := if PrimFloat.eqb d PrimFloat.one then Some 1 else Some 0;
  order_hashes keys := keys;
  order_points points := points;
}.

#[local] Instance example_btcd_laws : BtcdStoreLaws.
Proof. by split. Qed.

#[local] Instance example_positions : BlockPositions := {
  block_tx block _ position := default [] (example_hash <$> block !! Z.to_nat position);
}.

Lemma example_block_tx P block e :
  e ∈ example_select P block →
  history_hash e = default [] (example_hash <$> block !! Z.to_nat (history_position e)).
Proof. intros (i & tx & Htx & ->)%example_select_elem. simpl. by rewrite Nat2Z.id, Htx. Qed.

#[local] Instance example_positions_laws : BlockPositionsLaws.
Proof.
  split; simpl.
  - intros block cur key _ delta cur' e [= <- <-] He _. eapply example_block_tx.
    eapply subseteq_drop; exact He.
  - intros block prevout e He _. by eapply example_block_tx.
  - intros tx. rewrite length_take. lia.
Qed.

#[local] Instance example_errors_laws : StoreErrorsLaws.
Proof. by split. Qed.

#[local] Instance example_wallet : Wallet := {
  payment_prefix _ := 0;
  witness_address := hash_digest;
  to_witness_address _ := None;
  witness_prefix _ := "";
  witness_script hash := hash;
  is_public_key _ := true;
  pay_public_key key := key;
  pay_key_hash key := 0 :: key;
}.

Definition example_btcd_options : btcd_options := BtcdOptions 4 1000.

(** The first transaction pays the watched script [7], the second spends that
    output. *)
Definition example_empty : store := [] : list example_tx.
Definition example_funding : store := [ExampleTx [1] None [[8]; [7]]].
Definition example_block : store :=
  [ExampleTx [1] None [[8]; [7]]; ExampleTx [2] (Some ([1], 1)) [[9]]].
Definition example_link : block_link := [5].

Definition example_watches : watches :=
  (do_notify_received example_btcd_options example_empty (λ _, false) [[7]] no_watches).1.

(** ** Properties *)

(** C17: whatever jobs run and in whatever order, a channel holds at most the
    configured number of watches over its four watch lists, also when payments arm
    spent watches. While it has a legacy watch the flag is set, so that a new block
    is matched even if the client has not subscribed to blocks. *)
Theorem watches_bounded `{Text} `{StoreErrors} `{SizeMathLaws} `{BtcdStore} options w :
  0 <= maximum_filters options <= max_size_t → watches_reachable options w →
  total w <= maximum_filters options ∧
  (receive_watches w ≠ ∅ ∨ spent_watches w ≠ ∅ →
   ∀ blocks transactions link,
     handle_btcd_chase false blocks transactions (watching_legacy w) (event_organized link) =
       (true, [job_connected link])).
Proof.
  intros Hmax Hr. destruct (watches_reachable_ok options Hmax w Hr) as [Htotal Hlegacy].
  split; [done|]. intros Hne blocks transactions link. simpl. rewrite (Hlegacy Hne).
  by rewrite orb_true_r.
Qed.

Lemma watches_bounded_witness :
  spent_watches (do_connected example_btcd_options example_funding (λ _, false)
    example_link example_watches).1 = {[ ([1], 1) := [] ]} ∧
  total (do_connected example_btcd_options example_funding (λ _, false)
    example_link example_watches).1 <= 4.
Proof.
  split; [vm_compute; reflexivity|]. refine (proj1 (watches_bounded example_btcd_options _ _ _)).
  - vm_compute. split; discriminate.
  - eapply rtc_l; [|eapply rtc_once].
    + eapply (watch_step_run _ example_empty (λ _, false) (λ _, null_t) false (job_notify_received [[7]])).
      reflexivity.
    + eapply (watch_step_run _ example_funding (λ _, false) (λ _, null_t) false
        (job_connected example_link)). reflexivity.
Defined.

(** C16: when a block has been matched, the client is told of exactly the
    transactions of the block that pay a watched address, and of exactly those that
    spend a watched outpoint, of which the outputs of these payments (also when
    they are spent in the same block). A spent watch is one-shot: it is gone after
    its spend, and otherwise it remains. *)
Theorem connected_block_correct `{Text} `{StoreErrorsLaws} `{BlockPositionsLaws}
    `{!OutpointStoreLaws} `{!BtcdStoreLaws} `{SizeMath}
    options q stopping link w w' header height txs received redeemed :
  do_connected options q stopping link w =
    (w', [posted_connected header height txs received redeemed]) →
  (∀ params, params ∈ received ↔
    ∃ position hash tx, payment options q w height position hash tx ∧
      params = serialize_legacy tx header height position) ∧
  (∀ params, params ∈ redeemed ↔
    ∃ position tx, redemption options q w height position tx ∧
      params = serialize_legacy tx header height position) ∧
  (∀ prevout sub, spent_watch options q w height prevout sub →
    (newly_spent q {[height]} height prevout sub → spent_watches w' !! prevout = None) ∧
    (¬ newly_spent q {[height]} height prevout sub →
      spent_watches w' !! prevout = Some (get_spenders_history q prevout))).
Proof.
  intros (w1 & w2 & fault & Hr & Hs & Hrec & Hfault & Hspend)%do_connected_inv.
  assert (is_error btcd_canceled = true) as Hcanceled.
  { unfold is_error. simpl. apply negb_true_iff, Z.eqb_neq, query_canceled_nonzero. }
  destruct (match_receives_spec _ _ _ _ _ _ _ _ _ Hrec Hfault Hcanceled) as [Hreceived Hwatch].
  destruct (match_spends_spec _ _ _ _ _ _ _ Hspend) as [Hredeemed Hafter].
  assert (∀ position hash tx, payment options q w1 height position hash tx ↔
    payment options q w height position hash tx) as Hpay.
  { intros. unfold payment, pays, watched_script. by rewrite Hr. }
  assert (∀ prevout sub, spent_watches w2 !! prevout = Some sub ↔
    spent_watch options q w height prevout sub) as Hw2.
  { intros prevout sub. rewrite Hwatch. unfold spent_watch. setoid_rewrite Hpay. rewrite Hs.
    unfold armed, watched_script. by rewrite Hr. }
  split_and!.
  - intros params. rewrite Hreceived. by setoid_rewrite Hpay.
  - intros params. rewrite Hredeemed. setoid_rewrite Hw2. unfold redemption. naive_solver.
  - intros prevout sub Hsub%Hw2. by apply Hafter.
Qed.

Lemma connected_block_correct_witness :
  ∃ w' received redeemed,
    do_connected example_btcd_options example_block (λ _, false) example_link example_watches =
      (w', [posted_connected tt 5 [] received redeemed]) ∧
    serialize_legacy (ExampleTx [2] (Some ([1], 1)) [[9]]) tt 5 1 ∈ redeemed ∧
    spent_watches w' !! (([1], 1) : point) = None.
Proof.
  assert (∃ w' received redeemed,
    do_connected example_btcd_options example_block (λ _, false) example_link example_watches =
      (w', [posted_connected tt 5 [] received redeemed])) as (w' & received & redeemed & Hrun)
    by (eexists _, _, _; vm_compute; reflexivity).
  exists w', received, redeemed. split; [exact Hrun|].
  destruct (connected_block_correct example_btcd_options example_block (λ _, false) example_link
    example_watches _ tt 5 [] _ _ Hrun) as (_ & Hredeemed & Hspent).
  assert (payment example_btcd_options example_block example_watches 5 0 [1]
    (ExampleTx [1] None [[8]; [7]])) as Hpay.
  { split; [|by split]. exists [7], 0%nat. split; [reflexivity|].
    eexists _, _, (example_entry 0 (ExampleTx [1] None [[8]; [7]])).
    split; [reflexivity|]. split; [set_solver|]. by split_and!. }
  assert (spent_watch example_btcd_options example_block example_watches 5 ([1], 1) []) as Hwatch.
  { right. split_and!; [reflexivity|done|]. eexists _, _, _. split; [exact Hpay|].
    exists 1%nat, [7]. by split_and!. }
  assert (outpoint_match example_block {[5]} ([1], 1) [] 5 1 [2]) as Hmatch.
  { exists (example_entry 1 (ExampleTx [2] (Some ([1], 1)) [[9]])). split_and!; [|set_solver|by split_and!].
    apply list_elem_of_here. }
  split.
  - apply Hredeemed. exists 1, (ExampleTx [2] (Some ([1], 1)) [[9]]). split; [|done].
    exists ([1], 1), [], [2]. by split_and!.
  - apply (Hspent _ [] Hwatch). by exists 1, [2].
Defined.

(** A filter that is loaded without interruption either is complete - it watches
    the new keys and points and, unless reloaded, those it had - or the client is
    told that it is not, and the watch lists are full. Legacy watches are kept. *)
Lemma load_tx_filter_correct `{Text} `{StoreErrors} `{SizeMathLaws} `{BtcdStore}
    options q reload keys points w :
  0 <= maximum_filters options <= max_size_t →
  (∀ key, key ∈ keys → (prime_cursor options q key).2 = false) →
  ∃ w' ec, do_load_tx_filter options q (λ _, false) reload keys points w =
      (w', [posted_load_tx_filter ec]) ∧
    if is_error ec
    then ec = BtcdError.make BtcdError.misc_error ∧ maximum_filters options <= total w'
    else
      dom (address_watches w') =
        (if reload then ∅ else dom (address_watches w)) ∪ list_to_set keys ∧
      dom (outpoint_watches w') =
        (if reload then ∅ else dom (outpoint_watches w)) ∪ list_to_set points ∧
      (∀ key cursor, reload = false → address_watches w !! key = Some cursor →
        address_watches w' !! key = Some cursor) ∧
      receive_watches w' = receive_watches w ∧ spent_watches w' = spent_watches w.
Proof.
  intros Hmax Hkeys. unfold do_load_tx_filter. set (w0 := if reload then _ else _).
  assert (∀ key w, key ∈ keys → (add_address options q key w).2 = false) as Hadd.
  { intros key w1 Hin. unfold add_address. case_match; [done|].
    specialize (Hkeys key Hin). by destruct (prime_cursor options q key). }
  assert (∀ prevout w, prevout ∈ points → (add_outpoint q prevout w).2 = false) as Hadd'.
  { intros prevout w1 _. unfold add_outpoint. by case_match. }
  destruct (watch_loop_spec options Hmax (add_address options q) keys w0 Hadd) as [Hrun|(w' & Hrun & Hfull)];
    unfold compose; rewrite Hrun; simpl.
  - set (w1 := foldl _ w0 keys). pose proof (foldl_add_address options q keys w0) as Ha.
    fold w1 in Ha. destruct Ha as (Hdom & Hkeep & Ho & Hr & Hs).
    destruct (watch_loop_spec options Hmax (add_outpoint q) points w1 Hadd') as [Hrun'|(w' & Hrun' & Hfull)];
      rewrite Hrun'; eexists _, _; (split; [reflexivity|]); simpl; [|by split].
    destruct (foldl_add_outpoint q points w1) as (Hdom' & Ha' & Hr' & Hs').
    rewrite Hdom', Ha', Hdom, Ho, Hr', Hs', Hr, Hs. subst w0.
    destruct reload; simpl; rewrite ?dom_empty_L; split_and!; try done.
    intros key cursor _. apply Hkeep.
  - exists w', too_many. split; [by destruct points|]. done.
Qed.

(** A rescan of known blocks reports, in the order of the request, exactly the
    blocks in which a watched address has a confirmed transaction or a watched
    outpoint a confirmed spender, each with those transactions by ascending
    position; if a block is not known, the rescan fails. *)
Lemma rescan_blocks_correct `{Text} `{StoreErrors} `{BlockPositionsLaws} `{!OutpointStoreLaws}
    `{!BtcdStoreLaws} `{!AddressHistory} `{!AddressHistoryLaws} `{SizeMath}
    options q blocks heights keys points :
  Forall2 (λ hash height, get_block_height q (to_header q hash) = Some height) blocks heights →
  readable options q keys →
  (∃ matched : Z → matched_txs,
    (∀ height, Sorted Z.lt (matched height).*1 ∧
      ∀ position hash, (position, hash) ∈ matched height ↔
        height ∈ heights ∧ rescan_match q keys points height position hash) ∧
    do_rescan_watches options q (λ _, false) blocks keys points =
      [posted_rescan_blocks btcd_success
        (zip blocks heights ≫= λ '(hash, height), discovered_block q (matched height) hash)]) ∧
  ∀ unknown, get_block_height q (to_header q unknown) = None →
    do_rescan_watches options q (λ _, false) (blocks ++ [unknown])%list keys points =
      [posted_rescan_blocks (BtcdError.make BtcdError.invalid_address_or_key) []].
Proof.
  intros Hblocks Hread. split; cycle 1.
  { intros unknown Hnone. unfold do_rescan_watches.
    rewrite (name_blocks_missing q 0 _ unknown); [done|set_solver|done]. }
  unfold do_rescan_watches. rewrite (name_blocks_spec q 0 blocks heights Hblocks).
  rewrite snd_zip by (by rewrite (Forall2_length _ _ _ Hblocks)).
  destruct (replay_keys_spec options q (list_to_set heights) keys ∅ Hread (no_matches_ok q))
    as (out & Hrun & Hok & Hiff).
  destruct (replay_points_spec q (list_to_set heights) points out Hok) as (out' & Hrun' & Hok' & Hiff').
  unfold compose. rewrite Hrun, Hrun', discover_spec. exists (at_height out'). split; [|done].
  intros height. destruct (Hok' height) as [Hsorted _]. split; [done|]. intros position hash.
  rewrite Hiff', Hiff. unfold at_height at 1. rewrite lookup_empty. simpl.
  unfold rescan_match, outpoint_match, is_match. setoid_rewrite elem_of_list_to_set. split.
  - intros [[Hnil|(key & Hkey & Hm)]|(prevout & Hp & e & He & _ & Hm)]; [set_solver| |naive_solver].
    apply address_match_initial in Hm as [Hh Hm]; [|by apply Hread].
    rewrite elem_of_list_to_set in Hh. naive_solver.
  - intros [Hh [(key & e & Hkey & Hm)|(prevout & e & Hp & He & Hm)]].
    + left. right. exists key. split; [done|]. apply address_match_initial; [by apply Hread|].
      rewrite elem_of_list_to_set. naive_solver.
    + right. exists prevout. split; [done|]. exists e. set_solver.
Qed.

Lemma rescan_blocks_correct_witness :
  ∃ matched : Z → matched_txs,
    do_rescan_watches example_btcd_options example_block (λ _, false) [[5]] [[7]] [([1], 1)] =
      [posted_rescan_blocks btcd_success
        ([([5], 5)] ≫= λ '(hash, height), discovered_block example_block (matched height) hash)] ∧
    (1, [2]) ∈ matched 5.
Proof.
  destruct (rescan_blocks_correct example_btcd_options example_block [[5]] [5] [[7]] [([1], 1)])
    as [(matched & Hmatched & Hrun) _].
  - by repeat constructor.
  - intros key _. by eexists _, _.
  - exists matched. split; [exact Hrun|]. apply Hmatched. split; [set_solver|]. right.
    exists ([1], 1), (example_entry 1 (ExampleTx [2] (Some ([1], 1)) [[9]])).
    split_and!; try done; [set_solver|]. apply list_elem_of_here.
Defined.

(** A search answers the requested page of the address's confirmed history, in
    the requested order: [count] transactions after the first [skip], or an error if
    the store lacks one of them. *)
Lemma search_transactions_correct `{Text} `{StoreErrors} `{BtcdStore} `{!Wallet} `{SizeMath}
    options q p2kh p2sh witness model address v s c p reverse addrs
    keys verbose skip count prevouts rev filter entries :
  handle_search_raw_transactions p2kh p2sh witness q false address v s c p reverse addrs =
    btcd_search keys verbose skip count prevouts rev filter →
  search_history options q keys = inr entries →
  let entries := if (1 <? length keys)%nat then filter_sort_and_dedup entries else entries in
  let ordered := if rev then List.rev entries else entries in
  let render := λ link tx, if verbose then model link tx filter prevouts
                           else string_t (transaction_text tx) in
  do_search_raw_transactions options q (λ _, false) model keys verbose skip count prevouts rev filter =
    [match resolve q render (take (Z.to_nat count) (drop (Z.to_nat skip) ordered)) with
     | Some rows => posted_search btcd_success rows
     | None => posted_search (BtcdError.make BtcdError.internal_error) []
     end].
Proof.
  intros Hhandle Hhistory.
  assert (0 <= skip ∧ 1 <= count) as [Hskip Hcount].
  { unfold handle_search_raw_transactions in Hhandle.
    repeat (case_match; try done). injection Hhandle as _ _ Hs Hc _ _ _. subst skip count.
    unfold limit_size, max_size_t. lia. }
  unfold do_search_raw_transactions. rewrite Hhistory. unfold compose. simpl.
  rewrite search_loop_window by lia. rewrite Z.sub_0_r.
  destruct verbose; simpl; by destruct (resolve q _ _).
Qed.
