(* ===== verification/BtcdSession.v ===== *)
(** A client of the btcd service: its subscriptions
    (src/protocols/btcd/protocol_btcd.cpp) with the watch lists of BtcdFilter.v, as a
    machine of the channel's strand, the notification strand and the parallel queries. *)
From S2P Require Import Prelude Rpc Errors System ElectrumSubscribe ElectrumOutpoints BtcdFilter.

(** ** Sessions *)

(** The confirmed top of the store, to which a rescan leads. *)
Class BtcdTop `{BtcdStore} := {
  is_link_terminal : block_link → bool;
  to_top_confirmed : store → block_link;
}.

Section Sessions.
Context `{Text} `{StoreErrors} `{SizeMath} `{BtcdStore} `{!Wallet} `{!BtcdTop}.
Context (options : btcd_options) (p2kh p2sh : Z) (witness : string).

(** The identifier of the channel, and the verbose json of a transaction: of the pool,
    and as a search answers it. *)
Context (identifier : Z) (model : btcd_transaction → value_t)
  (search_model : tx_link → btcd_transaction → gset string → bool → value_t).

(** The requests that read or write the session. *)
Inductive session_request :=
  | request_session
  | request_notify_blocks
  | request_stop_notify_blocks
  | request_notify_new_transactions (verbose : bool)
  | request_stop_notify_new_transactions
  | request_load_tx_filter (reload : bool) (addresses outpoints : value_t)
  | request_notify_received (addresses : value_t)
  | request_stop_notify_received (addresses : value_t)
  | request_notify_spent (outpoints : value_t)
  | request_stop_notify_spent (outpoints : value_t)
  | request_rescan (beginblock : string) (addresses outpoints : value_t) (endblock : string)
  | request_rescan_blocks (blockhashes : value_t)
  | request_search (address : string) (verbose skip count prevouts : double) (reverse : bool)
      (filteraddrs : array).

(** The queries that run in parallel. *)
Inductive session_query :=
  | query_rescan (blocks keys : list hash_digest) (points : list point)
  | query_search (keys : list hash_digest) (verbose : bool) (skip count : Z)
      (prevouts reverse : bool) (filter : gset string).

(** The atomic flags of the protocol, the watch lists, and the work that waits: jobs of
    the notification strand, queries, and completions of the channel's strand. *)
Record session_state := Session {
  stopped : bool;
  subscribed_blocks : bool;
  subscribed_transactions : bool;
  verbose_transactions : bool;
  filters : watches;
  jobs : list btcd_job;
  queries : list session_query;
  posts : list btcd_posted;
}.

Definition new_session : session_state := Session false false false false no_watches [] [] [].

Definition set_stopped (s : session_state) : session_state :=
  Session true (subscribed_blocks s) (subscribed_transactions s) (verbose_transactions s)
    (filters s) (jobs s) (queries s) (posts s).
Definition set_blocks (value : bool) (s : session_state) : session_state :=
  Session (stopped s) value (subscribed_transactions s) (verbose_transactions s)
    (filters s) (jobs s) (queries s) (posts s).
Definition set_transactions (value verbose : bool) (s : session_state) : session_state :=
  Session (stopped s) (subscribed_blocks s) value verbose
    (filters s) (jobs s) (queries s) (posts s).
Definition add_jobs (more : list btcd_job) (s : session_state) : session_state :=
  Session (stopped s) (subscribed_blocks s) (subscribed_transactions s) (verbose_transactions s)
    (filters s) (jobs s ++ more) (queries s) (posts s).
Definition add_query (query : session_query) (s : session_state) : session_state :=
  Session (stopped s) (subscribed_blocks s) (subscribed_transactions s) (verbose_transactions s)
    (filters s) (jobs s) (queries s ++ [query]) (posts s).
Definition add_posts (more : list btcd_posted) (s : session_state) : session_state :=
  Session (stopped s) (subscribed_blocks s) (subscribed_transactions s) (verbose_transactions s)
    (filters s) (jobs s) (queries s) (posts s ++ more).

(** ** Handlers *)

(** Each returns whether its subscription is kept, the session and what is sent. *)
Abbreviation session_outcome := (bool * session_state * list btcd_effect)%type.

Definition handle_session (s : session_state) : session_outcome :=
  if stopped s then (false, s, [])
  else (true, s, send_value (Some (object_t [("id", uint64_t identifier)]))).

Definition handle_notify_blocks (s : session_state) : session_outcome :=
  if stopped s then (false, s, []) else (true, set_blocks true s, send_value None).

Definition handle_stop_notify_blocks (s : session_state) : session_outcome :=
  if stopped s then (false, s, []) else (true, set_blocks false s, send_value None).

Definition handle_notify_new_transactions (verbose : bool) (s : session_state) : session_outcome :=
  if stopped s then (false, s, []) else (true, set_transactions true verbose s, send_value None).

Definition handle_stop_notify_new_transactions (s : session_state) : session_outcome :=
  if stopped s then (false, s, [])
  else (true, set_transactions false (verbose_transactions s) s, send_value None).

(** [holds_alternative<array_t>] of an array that is not empty. *)
Definition has_items (v : value_t) : bool :=
  match v with
  | array_t (_ :: _) => true
  | _ => false
  end.

Definition session_error (e : BtcdError.error_t) : list btcd_effect := send_error (BtcdError.make e).

Definition handle_rescan (q : store) (beginblock : string) (addresses outpoints : value_t)
    (s : session_state) : session_outcome :=
  if stopped s then (false, s, [])
  else
    match decode_hash beginblock with
    | None => (true, s, session_error BtcdError.invalid_address_or_key)
    | Some begin_hash =>
        if is_link_terminal (to_header q begin_hash)
        then (true, s, session_error BtcdError.invalid_address_or_key)
        else if has_items addresses || has_items outpoints
        then (true, s, session_error BtcdError.unimplemented)
        else
          let confirmed := to_top_confirmed q in
          match get_block_header q confirmed, get_block_height q confirmed with
          | Some header, Some top =>
              (true, s, (send_value None ++
                [send_notification "rescanfinished"
                   [string_t (encode_hash (block_hash header)); uint64_t top;
                    uint32_t (timestamp header)]])%list)
          | _, _ => (true, s, session_error BtcdError.internal_error)
          end
    end.

(** What the requests of BtcdFilter.v lead to. *)
Definition react (s : session_state) (r : btcd_reaction) : session_outcome :=
  match r with
  | btcd_ignored => (false, s, [])
  | btcd_error e => (true, s, session_error e)
  | btcd_result v => (true, s, send_value v)
  | btcd_post j => (true, add_jobs [j] s, [])
  | btcd_post_result j v => (true, add_jobs [j] s, send_value v)
  | btcd_search keys verbose skip count prevouts reverse filter =>
      (true, add_query (query_search keys verbose skip count prevouts reverse filter) s, [])
  end.

Definition handle_request (q : store) (s : session_state) (r : session_request) : session_outcome :=
  match r with
  | request_session => handle_session s
  | request_notify_blocks => handle_notify_blocks s
  | request_stop_notify_blocks => handle_stop_notify_blocks s
  | request_notify_new_transactions verbose => handle_notify_new_transactions verbose s
  | request_stop_notify_new_transactions => handle_stop_notify_new_transactions s
  | request_load_tx_filter reload addrs outpoints =>
      react s (handle_load_tx_filter p2kh p2sh witness q (stopped s) reload addrs outpoints)
  | request_notify_received addrs =>
      react s (handle_notify_received p2kh p2sh witness q (stopped s) addrs)
  | request_stop_notify_received addrs =>
      react s (handle_stop_notify_received p2kh p2sh witness (stopped s) addrs)
  | request_notify_spent outpoints => react s (handle_notify_spent (stopped s) outpoints)
  | request_stop_notify_spent outpoints => react s (handle_stop_notify_spent (stopped s) outpoints)
  | request_rescan beginblock addrs outpoints _ => handle_rescan q beginblock addrs outpoints s
  | request_rescan_blocks blockhashes => react s (handle_rescan_blocks q (stopped s) blockhashes)
  | request_search address verbose skip count prevouts reverse filteraddrs =>
      react s (handle_search_raw_transactions p2kh p2sh witness q (stopped s) address verbose skip
        count prevouts reverse filteraddrs)
  end.

Definition handle_chase (s : session_state) (event : btcd_event) : session_state :=
  add_jobs (handle_btcd_chase (stopped s) (subscribed_blocks s) (subscribed_transactions s)
    (watching_legacy (filters s)) event).2 s.

(** ** Strands *)

(** A job of the notification strand posts to the channel's strand, or in parallel. *)
Definition post_one (s : session_state) (p : btcd_posted) : session_state :=
  match p with
  | parallel_rescan_watches blocks keys points => add_query (query_rescan blocks keys points) s
  | _ => add_posts [p] s
  end.

Definition run_job (q : store) (stopping : poll → bool) (s : session_state) : session_state :=
  match jobs s with
  | [] => s
  | j :: rest =>
      let '(w, sent) := run_btcd_job options q stopping model (verbose_transactions s) j (filters s) in
      foldl post_one (Session (stopped s) (subscribed_blocks s) (subscribed_transactions s)
        (verbose_transactions s) w rest (queries s) (posts s)) sent
  end.

(** A query, of any that wait. *)
Definition run_query (q : store) (stopping : poll → bool) (n : nat) (s : session_state) :
    session_state :=
  match queries s !! n with
  | None => s
  | Some query =>
      add_posts
        (match query with
         | query_rescan blocks keys points => do_rescan_watches options q stopping blocks keys points
         | query_search keys verbose skip count prevouts reverse filter =>
             do_search_raw_transactions options q stopping search_model keys verbose skip count
               prevouts reverse filter
         end)
        (Session (stopped s) (subscribed_blocks s) (subscribed_transactions s)
          (verbose_transactions s) (filters s) (jobs s) (delete n (queries s)) (posts s))
  end.

(** A completion on the channel's strand. *)
Definition complete (s : session_state) (p : btcd_posted) : list btcd_effect :=
  match p with
  | posted_load_tx_filter ec => complete_load_tx_filter (stopped s) ec
  | posted_notify_received ec => complete_notify_received (stopped s) ec
  | posted_notify_spent ec => complete_notify_spent (stopped s) ec
  | parallel_rescan_watches _ _ _ => []
  | posted_rescan_blocks ec discovered => complete_rescan_blocks (stopped s) ec discovered
  | posted_search ec found => complete_search_raw_transactions (stopped s) ec found
  | posted_overflow ec => complete_overflow ec
  | posted_connected header height txs received redeemed =>
      notify_connected (stopped s) (subscribed_blocks s) header height txs received redeemed
  | posted_disconnected header height =>
      notify_disconnected (stopped s) (subscribed_blocks s) header height
  | posted_transaction verbose params =>
      notify_transaction (stopped s) (subscribed_transactions s) verbose params
  end.

Definition is_stop (e : btcd_effect) : bool :=
  match e with
  | effect_stop _ => true
  | _ => false
  end.

Definition run_post (s : session_state) : session_state * list btcd_effect :=
  match posts s with
  | [] => (s, [])
  | p :: rest =>
      let effects := complete s p in
      let s := Session (stopped s) (subscribed_blocks s) (subscribed_transactions s)
                 (verbose_transactions s) (filters s) (jobs s) (queries s) rest in
      (if existsb is_stop effects then set_stopped s else s, effects)
  end.

(** What happens next: a request, an event of the node, the next job, query or
    completion, or the stop of the channel. The store may change between any two. *)
Inductive session_input :=
  | input_request (q : store) (r : session_request)
  | input_event (event : btcd_event)
  | input_job (q : store) (stopping : poll → bool)
  | input_query (q : store) (stopping : poll → bool) (n : nat)
  | input_post
  | input_stop.

Definition session_step (s : session_state) (i : session_input) : session_state * list btcd_effect :=
  match i with
  | input_request q r => let '(_, s, effects) := handle_request q s r in (s, effects)
  | input_event event => (handle_chase s event, [])
  | input_job q stopping => (run_job q stopping s, [])
  | input_query q stopping n => (run_query q stopping n s, [])
  | input_post => run_post s
  | input_stop => (set_stopped s, [])
  end.

(** The states of a run, and what it sends. *)
Fixpoint run_session (s : session_state) (inputs : list session_input) :
    session_state * list btcd_effect :=
  match inputs with
  | [] => (s, [])
  | i :: inputs =>
      let '(s, sent) := session_step s i in
      let '(s, rest) := run_session s inputs in
      (s, (sent ++ rest)%list)
  end.

(** ** Accounts *)

Definition count {A} (P : A → bool) (xs : list A) : nat := length (List.filter P xs).

Definition is_response (e : btcd_effect) : bool :=
  match e with
  | effect_error _ | effect_result _ => true
  | _ => false
  end.

Definition is_request (i : session_input) : bool :=
  match i with
  | input_request _ _ => true
  | _ => false
  end.

(** Jobs and completions that owe a response. *)
Definition job_owes (j : btcd_job) : bool :=
  match j with
  | job_load_tx_filter _ _ _ | job_notify_received _ | job_notify_spent _ | job_rescan_blocks _ => true
  | _ => false
  end.

Definition post_owes (p : btcd_posted) : bool :=
  match p with
  | posted_load_tx_filter _ | posted_notify_received _ | posted_notify_spent _
  | posted_rescan_blocks _ _ | posted_search _ _ => true
  | _ => false
  end.

Definition owed (s : session_state) : nat :=
  count job_owes (jobs s) + length (queries s) + count post_owes (posts s).

(** Addresses of which no query is canceled. *)
Definition steady (q : store) : Prop :=
  (∀ cursor key, get_history (addresses q) cursor key (maximum_search options) ≠ inl btcd_canceled) ∧
  (∀ key, get_confirmed_history q key (maximum_search options) ≠ inl btcd_canceled).

(** An input that does not stop the channel or interrupt a job or a query. *)
Definition calm (i : session_input) : Prop :=
  match i with
  | input_job q stopping | input_query q stopping _ => steady q ∧ ∀ p, stopping p = false
  | input_stop => False
  | _ => True
  end.

End Sessions.

(** ** Every request is answered once *)

Section Answers.
Context `{Text} `{StoreErrorsLaws} `{SizeMath} `{BtcdStore} `{!Wallet} `{!BtcdTop}.
Context (options : btcd_options) (p2kh p2sh : Z) (witness : string).
Context (identifier : Z) (model : btcd_transaction → value_t)
  (search_model : tx_link → btcd_transaction → gset string → bool → value_t).

Lemma count_app {A} (P : A → bool) xs ys : count P (xs ++ ys)%list = (count P xs + count P ys)%nat.
Proof. unfold count. by rewrite List.filter_app, length_app. Qed.

Lemma count_map_false {A B} (P : B → bool) (f : A → B) xs :
  (∀ x, P (f x) = false) → count P (f <$> xs) = 0%nat.
Proof. intros Hf. induction xs as [|x xs IH]; [done|]. unfold count in *. simpl. by rewrite Hf. Qed.

(** What a reaction answers or leaves to be answered. *)
Definition weight (r : btcd_reaction) : nat :=
  match r with
  | btcd_ignored => 0
  | btcd_error _ | btcd_result _ | btcd_search _ _ _ _ _ _ _ => 1
  | btcd_post j => if job_owes j then 1 else 0
  | btcd_post_result j _ => if job_owes j then 2 else 1
  end.

Lemma react_accounted s r kept s' effects :
  react s r = (kept, s', effects) →
  (owed s' + count is_response effects = owed s + weight r)%nat ∧ stopped s' = stopped s.
Proof.
  destruct r; simpl; intros [= <- <- <-]; (split; [|done]); unfold owed; simpl;
    rewrite ?count_app, ?length_app; unfold count; simpl; try (destruct (job_owes _)); simpl; lia.
Qed.

(** A request is answered at once, or leaves one job or query that owes the answer. *)
Lemma request_accounted q s r kept s' effects :
  handle_request p2kh p2sh witness identifier q s r = (kept, s', effects) →
  (owed s' + count is_response effects =
    owed s + if stopped s then 0 else 1)%nat ∧ stopped s' = stopped s.
Proof.
  destruct r; simpl;
    try (intros Hr; apply react_accounted in Hr as [-> ->]; split; [|done]; f_equal;
         unfold handle_load_tx_filter, handle_notify_received, handle_stop_notify_received,
           handle_notify_spent, handle_stop_notify_spent, handle_rescan_blocks,
           handle_search_raw_transactions;
         repeat case_match; done);
    unfold handle_session, handle_notify_blocks, handle_stop_notify_blocks,
      handle_notify_new_transactions, handle_stop_notify_new_transactions, handle_rescan;
    repeat case_match; intros [= <- <- <-]; (split; [|done]); unfold owed, count; simpl; lia.
Qed.

Lemma is_canceled fault : code_eqb fault btcd_canceled = true → fault = btcd_canceled.
Proof. unfold code_eqb. intros Heq. by apply bool_decide_eq_true in Heq. Qed.

Lemma prime_cursor_steady q key : steady options q → (prime_cursor options q key).2 = false.
Proof.
  intros [Hq _]. unfold prime_cursor. specialize (Hq initial_cursor key).
  destruct (get_history _ _ _ _) as [fault|[delta cursor]]; [|done]. simpl.
  destruct (code_eqb fault btcd_canceled) eqn:E; [|done]. by apply is_canceled in E as ->.
Qed.

(** A loop that nothing interrupts completes. *)
Lemma watch_loop_steady {A} stopping add (items : list A) w :
  (∀ item, stopping item = false) → (∀ item w, (add item w).2 = false) →
  is_Some (watch_loop options stopping add items w).2.
Proof.
  intros Hpoll Hadd. revert w. induction items as [|item items IH]; intros w; simpl; [by eexists|].
  rewrite Hpoll. case_match; [by eexists|]. specialize (Hadd item w).
  destruct (add item w) as [w' canceled]. simpl in Hadd. subst. apply IH.
Qed.

Lemma add_address_steady q key w : steady options q → (add_address options q key w).2 = false.
Proof.
  intros Hq. unfold add_address. case_match; [done|].
  pose proof (prime_cursor_steady q key Hq). by destruct (prime_cursor options q key).
Qed.

Lemma add_receive_steady q key w : steady options q → (add_receive options q key w).2 = false.
Proof.
  intros Hq. unfold add_receive. case_match; [done|].
  pose proof (prime_cursor_steady q key Hq). by destruct (prime_cursor options q key).
Qed.

Lemma add_outpoint_steady q prevout w : (add_outpoint q prevout w).2 = false.
Proof. unfold add_outpoint. by case_match. Qed.

Lemma add_spent_steady prevout w : (add_spent prevout w).2 = false.
Proof. unfold add_spent. by case_match. Qed.

Hint Resolve add_address_steady add_receive_steady add_outpoint_steady add_spent_steady : core.

(** What a job posts that owes a response, in parallel or to the channel's strand. *)
Definition sent_owes (p : btcd_posted) : bool :=
  match p with
  | parallel_rescan_watches _ _ _ => true
  | _ => post_owes p
  end.

Lemma post_all_accounted sent s :
  let s' := foldl post_one s sent in
  owed s' = (owed s + count sent_owes sent)%nat ∧ stopped s' = stopped s.
Proof.
  revert s. induction sent as [|p sent IH]; intros s; simpl; [split; [unfold count; simpl; lia|done]|].
  destruct (IH (post_one s p)) as [-> ->]. split; [|by destruct p].
  unfold count. destruct p; unfold owed, count; simpl;
    rewrite ?List.filter_app, ?length_app; simpl; lia.
Qed.

Definition at_most_one (n : nat) (P : Prop) : Prop := (n <= 1)%nat ∧ (P → n = 1%nat).

(** A completed loop posts its completion, an interrupted one nothing. *)
Lemma loop_accounted {A} stopping add (items : list A) w make (P : Prop) :
  (∀ ec, post_owes (make ec) = true) →
  (P → (∀ item, stopping item = false) ∧ ∀ item w, (add item w).2 = false) →
  at_most_one (count sent_owes (match watch_loop options stopping add items w with
    | (w, None) => (w, [])
    | (w, Some ec) => (w, [make ec])
    end).2) P.
Proof.
  intros Hmake Hadd. destruct (watch_loop options stopping add items w) as [w' [ec|]] eqn:E; simpl.
  - unfold count. simpl. assert (sent_owes (make ec) = true) as ->; [|by split].
    specialize (Hmake ec). by destruct (make ec).
  - split; [unfold count; simpl; lia|]. intros [Hpoll Hsteady]%Hadd.
    destruct (watch_loop_steady stopping add items w) as [x Hx]; [done..|]. by rewrite E in Hx.
Qed.

Lemma load_accounted q stopping reload keys points w :
  at_most_one (count sent_owes (do_load_tx_filter options q stopping reload keys points w).2)
    (steady options q ∧ ∀ p, stopping p = false).
Proof.
  unfold do_load_tx_filter. set (start := if reload then _ else w). clearbody start.
  destruct (watch_loop options (stopping ∘ poll_key) (add_address options q) keys start)
    as [w' [ec|]] eqn:E.
  - destruct (is_error ec).
    + split; [case_match; unfold count; simpl; lia|]. intros [_ Hpoll].
      destruct points; by rewrite ?Hpoll.
    + apply (loop_accounted (stopping ∘ poll_point)); [done|]. intros [_ Hpoll]. split; [|by intros].
      intros item. apply Hpoll.
  - split; [unfold count; simpl; lia|]. intros [Hq Hpoll].
    destruct (watch_loop_steady (stopping ∘ poll_key) (add_address options q) keys start)
      as [x Hx]; [intros; apply Hpoll|by auto|]. by rewrite E in Hx.
Qed.

Lemma do_connected_owes q stopping link w :
  count sent_owes (do_connected options q stopping link w).2 = 0%nat.
Proof. unfold do_connected. repeat case_match; done. Qed.

Lemma job_accounted q stopping verbose j w :
  let n := count sent_owes (run_btcd_job options q stopping model verbose j w).2 in
  if job_owes j then at_most_one n (steady options q ∧ ∀ p, stopping p = false) else n = 0%nat.
Proof.
  destruct j; simpl; try done.
  - apply load_accounted.
  - apply (loop_accounted (stopping ∘ poll_receive)); [done|]. intros [Hq Hpoll].
    split; [intros; apply Hpoll|by auto].
  - apply (loop_accounted (stopping ∘ poll_spend)); [done|]. intros [_ Hpoll].
    split; [intros; apply Hpoll|by auto].
  - apply do_connected_owes.
  - unfold do_disconnected. repeat case_match; done.
  - unfold do_transaction. repeat case_match; done.
Qed.

Lemma match_addresses_steady q heights key out :
  steady options q →
  code_eqb (match_addresses options q heights key initial_cursor out).1.1 btcd_canceled = false.
Proof.
  intros [Hq _]. unfold match_addresses. specialize (Hq initial_cursor key).
  destruct (get_history _ _ _ _) as [fault|[delta cursor]]; simpl.
  - destruct (code_eqb fault btcd_canceled) eqn:E; [|done]. by apply is_canceled in E as ->.
  - destruct (code_eqb btcd_success btcd_canceled) eqn:E; [|done]. by apply is_canceled in E.
Qed.

Lemma replay_keys_steady q stopping heights keys out :
  steady options q → (∀ key, stopping key = false) →
  is_Some (replay_keys options q stopping heights keys out).
Proof.
  intros Hq Hpoll. revert out. induction keys as [|key keys IH]; intros out; simpl; [by eexists|].
  rewrite Hpoll. pose proof (match_addresses_steady q heights key out Hq) as Hmatch.
  destruct (match_addresses options q heights key initial_cursor out) as [[fault sub] out'].
  simpl in Hmatch. rewrite Hmatch. apply IH.
Qed.

Lemma replay_points_steady q stopping heights points out :
  (∀ prevout, stopping prevout = false) → is_Some (replay_points q stopping heights points out).
Proof.
  intros Hpoll. revert out. induction points as [|prevout points IH]; intros out; simpl; [by eexists|].
  by rewrite Hpoll.
Qed.

Lemma discover_steady q stopping index matched named :
  (∀ p, stopping p = false) → is_Some (discover q stopping index matched named).
Proof.
  intros Hpoll. revert index. induction named as [|[hash height] named IH]; intros index; simpl;
    [by eexists|].
  rewrite Hpoll. destruct (IH (S index)) as [rest ->]. case_match; by eexists.
Qed.

Lemma name_blocks_steady q stopping index blocks :
  (∀ p, stopping p = false) → name_blocks q stopping index blocks ≠ inl true.
Proof.
  intros Hpoll. revert index. induction blocks as [|hash blocks IH]; intros index; simpl; [done|].
  rewrite Hpoll. specialize (IH (S index)). repeat case_match; congruence.
Qed.

Lemma rescan_accounted q stopping blocks keys points :
  at_most_one (count post_owes (do_rescan_watches options q stopping blocks keys points))
    (steady options q ∧ ∀ p, stopping p = false).
Proof.
  unfold do_rescan_watches. pose proof (name_blocks_steady q stopping 0 blocks) as Hname.
  destruct (name_blocks q stopping 0 blocks) as [[]|named].
  - split; [unfold count; simpl; lia|]. by intros [_ Hpoll%Hname].
  - done.
  - split; [repeat case_match; unfold count; simpl; lia|]. intros [Hq Hpoll].
    destruct (replay_keys_steady q (stopping ∘ poll_key) (list_to_set named.*2) keys ∅ Hq)
      as [out ->]; [intros; apply Hpoll|].
    destruct (replay_points_steady q (stopping ∘ poll_point) (list_to_set named.*2) points out)
      as [out' ->]; [intros; apply Hpoll|].
    by destruct (discover_steady q stopping 0 out' named Hpoll) as [found ->].
Qed.

Lemma search_history_steady q keys :
  steady options q → search_history options q keys ≠ inl btcd_canceled.
Proof.
  intros [_ Hq]. induction keys as [|key keys IH]; simpl; [done|]. specialize (Hq key).
  destruct (get_confirmed_history _ _ _), (search_history _ _ _); congruence.
Qed.

Lemma search_loop_steady q stopping index render skip number found entries :
  (∀ n, stopping n = false) →
  is_Some (search_loop q stopping index render skip number found entries).
Proof.
  intros Hpoll. revert index skip found.
  induction entries as [|entry entries IH]; intros index skip found; simpl; [by eexists|].
  rewrite Hpoll. case_match; [apply IH|]. case_match; [by eexists|]. case_match; [|by eexists].
  destruct (IH (S index) skip (found + 1)) as [[ec|rest] ->]; by eexists.
Qed.

Lemma search_accounted q stopping keys verbose skip number prevouts reverse filter :
  at_most_one (count post_owes (do_search_raw_transactions options q stopping search_model keys
    verbose skip number prevouts reverse filter)) (steady options q ∧ ∀ p, stopping p = false).
Proof.
  unfold do_search_raw_transactions. pose proof (search_history_steady q keys) as Hhistory.
  destruct (search_history options q keys) as [fault|entries].
  - split; [case_match; unfold count; simpl; lia|]. intros [Hq%Hhistory _].
    destruct (code_eqb fault btcd_canceled) eqn:E; [|done]. by apply is_canceled in E as ->.
  - split; [repeat case_match; unfold count; simpl; lia|]. intros [_ Hpoll].
    match goal with |- context [search_loop ?q ?p ?i ?r ?a ?b ?c ?e] =>
      destruct (search_loop_steady q p i r a b c e) as [[ec|found] ->] end; [|done..].
    intros n. apply Hpoll.
Qed.

(** Completions respond if the channel is not stopped; notifications are not responses. *)
Lemma complete_accounted s p :
  let n := count is_response (complete s p) in
  if post_owes p then at_most_one n (stopped s = false) else n = 0%nat.
Proof.
  destruct p; simpl; try done;
    try (unfold complete_notify_received, complete_notify_spent, complete_load_tx_filter,
           complete_rescan_blocks, complete_search_raw_transactions;
         split; [|intros ->]; repeat case_match; simpl; unfold count; simpl; lia);
    unfold notify_connected, notify_disconnected, notify_transaction; case_match; try done.
  rewrite !count_app, !count_map_false by done. by case_match.
Qed.

Local Abbreviation step := (session_step options p2kh p2sh witness identifier model search_model).
Local Abbreviation run := (run_session options p2kh p2sh witness identifier model search_model).

Lemma count_nil {A} (P : A → bool) : count P [] = 0%nat.
Proof. done. Qed.

Lemma count_cons {A} (P : A → bool) x xs : count P (x :: xs) = ((if P x then 1 else 0) + count P xs)%nat.
Proof. unfold count. simpl. by case_match. Qed.

(** What a step leaves owed with what it responds is what was owed with its request. *)
Lemma step_accounted s i s' effects :
  step s i = (s', effects) →
  let after := (owed s' + count is_response effects)%nat in
  let before := (owed s + if is_request i then 1 else 0)%nat in
  (after <= before)%nat ∧
  (calm options i → stopped s' = false → stopped s = false ∧ after = before).
Proof.
  destruct i as [q r|event|q stopping|q stopping n| |]; simpl.
  - destruct (handle_request _ _ _ _ _ _ _) as [[kept s''] out] eqn:Hr. intros [= <- <-].
    apply request_accounted in Hr as [-> Hstopped]. rewrite Hstopped.
    split; [case_match; lia|]. by intros _ ->.
  - intros [= <- <-]. unfold handle_chase, owed. simpl. rewrite count_app.
    assert (count job_owes (handle_btcd_chase (stopped s) (subscribed_blocks s)
      (subscribed_transactions s) (watching_legacy (filters s)) event).2 = 0%nat) as ->.
    { unfold handle_btcd_chase. by repeat case_match. }
    rewrite ?count_nil. split; [lia|]. intros _ ->. split; [done|lia].
  - intros [= <- <-]. unfold run_job. destruct (jobs s) as [|j rest] eqn:Hjobs.
    { rewrite ?count_nil. split; [lia|]. intros _ ->. split; [done|lia]. }
    pose proof (job_accounted q stopping (verbose_transactions s) j (filters s)) as Hjob. simpl in Hjob.
    destruct (run_btcd_job _ _ _ _ _ _ _) as [w sent]. simpl in Hjob.
    match goal with |- context [foldl post_one ?x _] =>
      pose proof (post_all_accounted sent x) as [Howed Hstopped] end.
    rewrite Howed, Hstopped. unfold owed. simpl. rewrite Hjobs, count_cons.
    rewrite ?count_nil. destruct (job_owes j).
    + destruct Hjob as [Hle Heq]. split; [lia|]. intros Hcalm ->. specialize (Heq Hcalm).
      split; [done|lia].
    + split; [lia|]. intros _ ->. split; [done|lia].
  - intros [= <- <-]. unfold run_query. destruct (queries s !! n) as [query|] eqn:Hn.
    2:{ rewrite ?count_nil. split; [lia|]. intros _ ->. split; [done|lia]. }
    assert (length (queries s) = S (length (delete n (queries s)))) as Hlength.
    { rewrite length_delete by by eexists. apply lookup_lt_Some in Hn. lia. }
    set (out := match query with query_rescan _ _ _ => _ | _ => _ end).
    assert (at_most_one (count post_owes out) (steady options q ∧ ∀ p, stopping p = false)) as [Hle Heq].
    { subst out. destruct query; [apply rescan_accounted|apply search_accounted]. }
    clearbody out. unfold owed. simpl. rewrite count_app, Hlength, ?count_nil.
    split; [lia|]. intros Hcalm ->. specialize (Heq Hcalm). split; [done|lia].
  - unfold run_post. destruct (posts s) as [|p rest] eqn:Hposts; intros [= <- <-].
    { rewrite ?count_nil. split; [lia|]. intros _ ->. split; [done|lia]. }
    pose proof (complete_accounted s p) as Hp.
    set (effects := complete s p) in *. set (s' := if existsb _ _ then _ else _).
    assert (owed s' = count job_owes (jobs s) + length (queries s) + count post_owes rest)%nat as ->.
    { subst s'. by destruct (existsb is_stop effects). }
    assert (stopped s' = false → stopped s = false) as Hs'
      by (subst s'; by destruct (existsb is_stop effects)).
    unfold owed. rewrite Hposts, count_cons.
    destruct (post_owes p) eqn:Howes; simpl in Hp; [destruct Hp as [Hle Heq]|].
    + split; [lia|]. intros _ Hstopped%Hs'. split; [done|]. specialize (Heq Hstopped). lia.
    + split; [lia|]. intros _ Hstopped%Hs'. split; [done|lia].
  - intros [= <- <-]. split; [unfold owed, count; simpl; lia|done].
Qed.

Lemma run_accounted inputs s s' sent :
  run s inputs = (s', sent) →
  let after := (owed s' + count is_response sent)%nat in
  let before := (owed s + count is_request inputs)%nat in
  (after <= before)%nat ∧
  (Forall (calm options) inputs → stopped s' = false → stopped s = false ∧ after = before).
Proof.
  revert s sent. induction inputs as [|i inputs IH]; intros s sent; simpl.
  { intros [= <- <-]. unfold count. simpl. split; [lia|]. intros _ ->. split; [done|lia]. }
  destruct (step s i) as [s1 effects] eqn:Hstep. destruct (run s1 inputs) as [s2 rest] eqn:Hrun.
  intros [= <- <-]. destruct (step_accounted s i s1 effects Hstep) as [Hle Heq].
  destruct (IH s1 rest Hrun) as [Hle' Heq']. rewrite count_app, count_cons. split; [lia|].
  intros [Hi Hinputs]%Forall_cons Hstopped. destruct (Heq' Hinputs Hstopped) as [Hs1 Heq1].
  destruct (Heq Hi Hs1) as [-> Heq0]. split; [done|lia].
Qed.

(** ** Notifications follow the subscriptions *)

Definition block_notifications : list string :=
  ["blockconnected"; "filteredblockconnected"; "blockdisconnected"; "filteredblockdisconnected"].

(** What may be notified in a state. *)
Definition allowed (s : session_state) (e : btcd_effect) : Prop :=
  match e with
  | effect_notification name params =>
      stopped s = false ∧
      (name ∈ block_notifications ∧ subscribed_blocks s = true ∨
       subscribed_transactions s = true ∧
         (∃ tx, (name, params) = ("txaccepted", params_array
            [string_t (encode_hash (transaction_hash tx)); number_t (transaction_amount tx)]) ∨
          (name, params) = ("txacceptedverbose", params_array [model tx])) ∨
       name ∈ ["recvtx"; "redeemingtx"; "rescanfinished"])
  | _ => True
  end.

(** A posted transaction has the parameters of its name. *)
Definition post_ok (p : btcd_posted) : Prop :=
  match p with
  | posted_transaction verbose params =>
      ∃ tx, params = if verbose then [model tx]
        else [string_t (encode_hash (transaction_hash tx)); number_t (transaction_amount tx)]
  | _ => True
  end.

Lemma rescan_posts_ok q stopping blocks keys points :
  Forall post_ok (do_rescan_watches options q stopping blocks keys points).
Proof. unfold do_rescan_watches. repeat case_match; repeat constructor. Qed.

Lemma search_posts_ok q stopping keys verbose skip number prevouts reverse filter :
  Forall post_ok (do_search_raw_transactions options q stopping search_model keys verbose skip number
    prevouts reverse filter).
Proof. unfold do_search_raw_transactions. repeat case_match; repeat constructor. Qed.

Lemma job_posts_ok q stopping verbose j w :
  Forall post_ok (run_btcd_job options q stopping model verbose j w).2.
Proof.
  destruct j; simpl; unfold do_load_tx_filter, do_notify_received, do_notify_spent, do_rescan_blocks,
    do_connected, do_disconnected, do_transaction;
    repeat case_match; simpl; repeat constructor; by eexists.
Qed.

Lemma post_all_ok sent s :
  Forall post_ok sent → Forall post_ok (posts s) → Forall post_ok (posts (foldl post_one s sent)).
Proof.
  revert s. induction sent as [|p sent IH]; intros s; simpl; [done|].
  intros [Hp Hsent]%Forall_cons Hs. apply IH; [done|].
  destruct p; simpl; try done; apply Forall_app; split; auto.
Qed.

Lemma post_all_filters sent s : filters (foldl post_one s sent) = filters s.
Proof. revert s. induction sent as [|p sent IH]; intros s; simpl; [done|]. rewrite IH. by destruct p. Qed.

Definition session_ok (s : session_state) : Prop :=
  watches_reachable options (filters s) ∧ Forall post_ok (posts s).

Lemma react_keeps s r : session_ok s → session_ok (react s r).1.2.
Proof. by destruct r. Qed.

Lemma request_keeps q s r :
  session_ok s → session_ok (handle_request p2kh p2sh witness identifier q s r).1.2.
Proof.
  destruct r; simpl; try apply react_keeps;
    unfold handle_session, handle_notify_blocks, handle_stop_notify_blocks,
      handle_notify_new_transactions, handle_stop_notify_new_transactions, handle_rescan;
    by repeat case_match.
Qed.

Lemma step_keeps s i : session_ok s → session_ok (step s i).1.
Proof.
  intros Hs. destruct i as [q r|event|q stopping|q stopping n| |]; simpl; [| | | | |done].
  - pose proof (request_keeps q s r Hs).
    by destruct (handle_request _ _ _ _ _ _ _) as [[kept s'] effects].
  - done.
  - destruct Hs as [Hfilters Hposts]. unfold run_job. destruct (jobs s) as [|j rest]; [done|].
    pose proof (job_posts_ok q stopping (verbose_transactions s) j (filters s)) as Hj.
    destruct (run_btcd_job _ _ _ _ _ _ _) as [w sent] eqn:E. simpl in Hj. split.
    + rewrite post_all_filters. simpl. eapply rtc_r; [exact Hfilters|]. by econstructor.
    + by apply post_all_ok.
  - destruct Hs as [Hfilters Hposts]. unfold run_query. destruct (queries s !! n) as [query|]; [|done].
    split; [done|]. simpl. apply Forall_app. split; [done|].
    destruct query; [apply rescan_posts_ok|apply search_posts_ok].
  - destruct Hs as [Hfilters Hposts]. unfold run_post. destruct (posts s) as [|p rest] eqn:E; [by split; simpl; rewrite ?E|].
    apply Forall_cons in Hposts as [_ Hrest]. simpl. by destruct (existsb is_stop _).
Qed.

Lemma run_keeps inputs s : session_ok s → session_ok (run s inputs).1.
Proof.
  revert s. induction inputs as [|i inputs IH]; intros s Hs; simpl; [done|].
  pose proof (step_keeps s i Hs) as Hstep. destruct (step s i) as [s1 effects]. simpl in Hstep.
  specialize (IH s1 Hstep). by destruct (run s1 inputs).
Qed.

Lemma new_session_ok : session_ok new_session.
Proof. split; [apply rtc_refl|constructor]. Qed.

Lemma allowed_map s name (xs : list array) :
  stopped s = false → name ∈ ["recvtx"; "redeemingtx"; "rescanfinished"] →
  Forall (allowed s) (send_notification name <$> xs).
Proof. intros Hs Hname. apply Forall_map, Forall_true. intros x. simpl. auto. Qed.

Lemma allowed_block s name params :
  stopped s = false → subscribed_blocks s = true → name ∈ block_notifications →
  allowed s (send_notification name params).
Proof. intros. split; auto. Qed.

Lemma complete_allowed s p : post_ok p → Forall (allowed s) (complete s p).
Proof.
  destruct p; simpl; intros Hp;
    try (unfold complete_notify_received, complete_notify_spent, complete_load_tx_filter,
           complete_rescan_blocks, complete_search_raw_transactions;
         repeat case_match; by repeat constructor); [repeat constructor|..].
  - unfold notify_connected. destruct (stopped s) eqn:Hs; [constructor|]. rewrite !Forall_app. split_and!.
    + destruct (subscribed_blocks s) eqn:Hb; [|constructor].
      apply Forall_cons; split; [|apply Forall_singleton]; apply allowed_block; auto;
        unfold block_notifications; set_solver.
    + apply allowed_map; [done|set_solver].
    + apply allowed_map; [done|set_solver].
  - unfold notify_disconnected. destruct (stopped s) eqn:Hs; [constructor|].
    destruct (subscribed_blocks s) eqn:Hb; [|constructor].
    apply Forall_cons; split; [|apply Forall_singleton]; apply allowed_block; auto;
      unfold block_notifications; set_solver.
  - unfold notify_transaction. destruct (stopped s) eqn:Hs; [constructor|].
    destruct (subscribed_transactions s) eqn:Ht; [|constructor]. destruct Hp as [tx ->].
    apply Forall_singleton. split; [done|]. right; left. split; [done|]. exists tx. destruct verbose; auto.
Qed.

Lemma request_allowed q s r kept s' effects :
  handle_request p2kh p2sh witness identifier q s r = (kept, s', effects) →
  Forall (allowed s) effects.
Proof.
  destruct r; simpl; unfold react, handle_session, handle_notify_blocks, handle_stop_notify_blocks,
      handle_notify_new_transactions, handle_stop_notify_new_transactions, handle_rescan;
    repeat case_match; intros [= <- <- <-]; by repeat constructor.
Qed.

Lemma step_allowed s i : session_ok s → Forall (allowed s) (step s i).2.
Proof.
  intros [_ Hposts]. destruct i as [q r|event|q stopping|q stopping n| |]; simpl; try constructor.
  - destruct (handle_request _ _ _ _ _ _ _) as [[kept s'] effects] eqn:Hr. by eapply request_allowed.
  - unfold run_post. destruct (posts s) as [|p rest]; [constructor|].
    apply Forall_cons in Hposts as [Hp _]. by apply complete_allowed.
Qed.

End Answers.

(** C18: A session of a btcd client. However its requests, the events of the node, the jobs,
    the queries and the completions interleave, over a store that changes between any
    two of them, no request is answered twice: the responses with those that jobs,
    queries and completions owe are at most the requests, and exactly the requests as
    long as the channel is not stopped and nothing interrupts a query. The watch lists
    are always some that the jobs reach, so within the limits. A block is notified only
    while the client is subscribed to blocks, and a transaction only while it is
    subscribed to transactions, with the parameters of its name even if the client has
    changed the verbosity since. *)
Theorem btcd_session_correct `{Text} `{StoreErrorsLaws} `{SizeMath} `{BtcdStore} `{!Wallet} `{!BtcdTop}
    options p2kh p2sh witness identifier model search_model inputs s sent :
  run_session options p2kh p2sh witness identifier model search_model new_session inputs = (s, sent) →
  ((count is_response sent + owed s <= count is_request inputs)%nat ∧
   (Forall (calm options) inputs → stopped s = false →
    (count is_response sent + owed s)%nat = count is_request inputs)) ∧
  watches_reachable options (filters s) ∧
  ∀ i, Forall (allowed model s)
    (session_step options p2kh p2sh witness identifier model search_model s i).2.
Proof.
  intros Hrun. pose proof (run_keeps options p2kh p2sh witness identifier model search_model inputs
    new_session (new_session_ok options model)) as Hok.
  rewrite Hrun in Hok. simpl in Hok.
  destruct (run_accounted options p2kh p2sh witness identifier model search_model inputs new_session
    s sent Hrun) as [Hle Heq]. change (owed new_session) with 0%nat in Hle, Heq.
  split_and!; [lia| |apply Hok|].
  - intros Hcalm Hstopped. destruct (Heq Hcalm Hstopped) as [_ Hs]. lia.
  - intros i. by apply step_allowed.
Qed.

(** ** Examples *)

#[local] Existing Instance reference_text.
#[local] Existing Instance example_addresses.
#[local] Existing Instance example_outpoints.
#[local] Existing Instance example_btcd.
#[local] Existing Instance example_errors_laws.
#[local] Existing Instance example_wallet.
#[local] Instance example_top : BtcdTop := {
  is_link_terminal _ := false;
  to_top_confirmed _ := example_link;
}.

Definition example_model : btcd_transaction → value_t := λ tx, string_t (transaction_text tx).

(** A client subscribes to blocks and to transactions and loads a filter; a block and a
    transaction arrive, and the client turns verbosity on while the notification of the
    transaction waits. *)
Definition example_inputs : list session_input :=
  [input_request example_empty request_notify_blocks;
   input_request example_empty (request_notify_new_transactions false);
   input_request example_empty (request_load_tx_filter false (array_t []) (array_t []));
   input_event (event_organized example_link);
   input_event (event_transaction [1]);
   input_job example_empty (λ _, false); input_job example_block (λ _, false);
   input_job example_block (λ _, false);
   input_request example_block (request_notify_new_transactions true);
   input_post; input_post; input_post].

Definition example_run : session_state * list btcd_effect :=
  run_session example_btcd_options 0 5 "bc" 7 example_model (λ _ tx _ _, example_model tx)
    new_session example_inputs.

Example session_example :
  (λ e, match e with
        | effect_notification name _ => name
        | effect_result _ => "result"
        | effect_error _ => "error"
        | effect_stop _ => "stop"
        end) <$> example_run.2 =
  ["result"; "result"; "result"; "result"; "blockconnected"; "filteredblockconnected"; "txaccepted"].
Proof. vm_compute. reflexivity. Qed.

Lemma btcd_session_correct_witness :
  (count is_response example_run.2 + owed example_run.1)%nat = 4%nat.
Proof.
  refine (proj2 (proj1 (btcd_session_correct example_btcd_options 0 5 "bc" 7 example_model
    (λ _ tx _ _, example_model tx) example_inputs example_run.1 example_run.2 _)) _ _).
  - vm_compute. reflexivity.
  - repeat constructor; intros; discriminate.
  - vm_compute. reflexivity.
Defined.
