(* ===== verification/Descriptor.v ===== *)
(** Output descriptors (src/utilities/bitcoind_descriptor.cpp, and [to_address] of
    src/utilities/address.cpp).

    The checksum is modelled over machine words. It is a BCH code, so a change of
    up to four consecutive characters of a descriptor of any length is detected. *)
From stdpp Require Import pretty.
From S2P Require Import Prelude Rpc Errors System Numbers ElectrumSubscribe ElectrumOutpoints BtcdFilter.

(** ** The checksum *)

(** [out] if the bit is set. *)
Definition selected (bit : bool) (out : Z) : Z := if bit then out else 0.

Definition poly_mod (check value : Z) : Z :=
  let out := Z.lxor (Z.shiftl (Z.land check 0x00000007ffffffff) 5) value in
  let out := Z.lxor out (selected (Z.testbit check 35) 0xf5dee51989) in
  let out := Z.lxor out (selected (Z.testbit check 36) 0xa9fdca3312) in
  let out := Z.lxor out (selected (Z.testbit check 37) 0x1bab10e32d) in
  let out := Z.lxor out (selected (Z.testbit check 38) 0x3706b1677a) in
  Z.lxor out (selected (Z.testbit check 39) 0x644d626ffd).

Definition input_charset : string :=
  "0123456789()[],'/*abcdefgh@:$%{}" ++
  "IJKLMNOPQRSTUVWXYZ&+-.;<=>?!^_|~" ++
  "ijklmnopqrstuvwxyzABCDEFGH`#" ++ String (ascii_of_nat 34) "\ ".

Definition checksum_charset : string := "qpzry9x8gf2tvdw0s3jn54khce6mua7l".

(** [std::string::find] of a character. *)
Fixpoint find_char (charset : string) (c : ascii) : option Z :=
  match charset with
  | EmptyString => None
  | String a rest => if Ascii.eqb a c then Some 0 else Z.succ <$> find_char rest c
  end.

(** The loop over the characters. *)
Fixpoint checksum_loop (check group grouped : Z) (descriptor : string) : option Z :=
  match descriptor with
  | EmptyString => Some (if grouped =? 0 then check else poly_mod check group)
  | String character rest =>
      match find_char input_charset character with
      | None => None
      | Some position =>
          let check := poly_mod check (Z.land position 31) in
          let group := 3 * group + Z.shiftr position 5 in
          let grouped := grouped + 1 in
          if grouped =? 3 then checksum_loop (poly_mod check group) 0 0 rest
          else checksum_loop check group grouped rest
      end
  end.

Fixpoint checksum_pad (pad : nat) (check : Z) : Z :=
  match pad with
  | O => check
  | S pad => checksum_pad pad (poly_mod check 0)
  end.

(** The character of the checksum at an index. *)
Definition checksum_at (check : Z) (index : nat) : ascii :=
  default " "%char (String.get
    (Z.to_nat (Z.land (Z.shiftr check (5 * (7 - Z.of_nat index))) 31)) checksum_charset).

Definition checksum_text (check : Z) : string :=
  String.string_of_list_ascii (checksum_at check <$> seq 0 8).

Definition descriptor_checksum (descriptor : string) : string :=
  match checksum_loop 1 0 0 descriptor with
  | None => ""
  | Some check => checksum_text (Z.lxor (checksum_pad 8 check) 1)
  end.

Example checksum_raw : descriptor_checksum "raw(deadbeef)" = "89f8spxm".
Proof. vm_compute. reflexivity. Qed.

(** ** The code is linear and its shift is injective *)

(** One shift of the register. *)
Definition shift (check : Z) : Z := poly_mod check 0.

Lemma poly_mod_shift check value : poly_mod check value = Z.lxor (shift check) value.
Proof.
  unfold shift, poly_mod. rewrite Z.lxor_0_r.
  apply Z.bits_inj'. intros n _. rewrite !Z.lxor_spec. by repeat destruct (Z.testbit _ n).
Qed.

Lemma selected_xor a b g : selected (xorb a b) g = Z.lxor (selected a g) (selected b g).
Proof. destruct a, b; simpl; by rewrite ?Z.lxor_nilpotent, ?Z.lxor_0_r, ?Z.lxor_0_l. Qed.

Lemma land_lxor a b m : Z.land (Z.lxor a b) m = Z.lxor (Z.land a m) (Z.land b m).
Proof.
  apply Z.bits_inj'. intros n _. rewrite !Z.lxor_spec, !Z.land_spec, Z.lxor_spec.
  by destruct (Z.testbit a n), (Z.testbit b n), (Z.testbit m n).
Qed.

Lemma shift_lxor a b : shift (Z.lxor a b) = Z.lxor (shift a) (shift b).
Proof.
  unfold shift, poly_mod. rewrite !Z.lxor_0_r, !Z.lxor_spec, !selected_xor, land_lxor, Z.shiftl_lxor.
  apply Z.bits_inj'. intros n _. rewrite !Z.lxor_spec.
  repeat match goal with
         | |- context [Z.testbit (selected ?b ?g) n] => generalize (Z.testbit (selected b g) n); intros ?
         | |- context [Z.testbit (Z.shiftl ?x 5) n] => generalize (Z.testbit (Z.shiftl x 5) n); intros ?
         end.
  repeat match goal with b : bool |- _ => destruct b end; done.
Qed.

(** The generators that the bits above 35 select. *)
Definition feedback (b0 b1 b2 b3 b4 : bool) : Z :=
  Z.lxor (Z.lxor (Z.lxor (Z.lxor (selected b0 0xf5dee51989) (selected b1 0xa9fdca3312))
    (selected b2 0x1bab10e32d)) (selected b3 0x3706b1677a)) (selected b4 0x644d626ffd).

Lemma shift_feedback check :
  shift check = Z.lxor (Z.shiftl (Z.land check (Z.ones 35)) 5)
    (feedback (Z.testbit check 35) (Z.testbit check 36) (Z.testbit check 37)
       (Z.testbit check 38) (Z.testbit check 39)).
Proof.
  unfold shift, poly_mod, feedback. change 0x00000007ffffffff with (Z.ones 35).
  by rewrite Z.lxor_0_r, !Z.lxor_assoc.
Qed.

(** The low symbols of the generators are independent. *)
Lemma feedback_low b0 b1 b2 b3 b4 :
  Z.land (feedback b0 b1 b2 b3 b4) 31 = 0 → b0 || b1 || b2 || b3 || b4 = false.
Proof. by destruct b0, b1, b2, b3, b4; vm_compute. Qed.

Lemma testbit_above check n : 0 <= check < 2 ^ 40 → 40 <= n → Z.testbit check n = false.
Proof.
  intros Hc Hn. rewrite <-(Z.mod_small check (2 ^ 40)) by done. apply Z.mod_pow2_bits_high. lia.
Qed.

Lemma shift_zero check : 0 <= check < 2 ^ 40 → shift check = 0 → check = 0.
Proof.
  rewrite shift_feedback. intros Hc Hz.
  assert (Z.land (feedback (Z.testbit check 35) (Z.testbit check 36) (Z.testbit check 37)
       (Z.testbit check 38) (Z.testbit check 39)) 31 = 0) as Hlow.
  { apply (f_equal (λ x, Z.land x 31)) in Hz. rewrite land_lxor in Hz.
    rewrite (Z.land_comm (Z.shiftl _ _)), Z.land_0_l in Hz.
    change 31 with (Z.ones 5) in Hz at 1. rewrite Z.land_comm, Z.land_ones in Hz by lia.
    rewrite Z.shiftl_mul_pow2, Z.mod_mul, Z.lxor_0_l in Hz by lia. done. }
  apply feedback_low in Hlow. repeat rewrite orb_false_iff in Hlow.
  destruct Hlow as [[[[H35 H36] H37] H38] H39]. rewrite H35, H36, H37, H38, H39 in Hz.
  change (feedback false false false false false) with 0 in Hz. rewrite Z.lxor_0_r in Hz.
  apply Z.shiftl_eq_0_iff in Hz; [|lia]. apply Z.bits_inj'. intros n Hn. rewrite Z.bits_0.
  destruct (Z.lt_ge_cases n 35) as [Hlt|Hge].
  - apply (f_equal (λ x, Z.testbit x n)) in Hz.
    rewrite Z.land_spec, Z.ones_spec_low, Z.bits_0, andb_true_r in Hz by lia. done.
  - destruct (Z.lt_ge_cases n 40) as [Hlt|Hge']; [|by apply testbit_above].
    assert (n = 35 ∨ n = 36 ∨ n = 37 ∨ n = 38 ∨ n = 39) as Hn' by lia.
    by destruct Hn' as [->|[->|[->|[->| ->]]]].
Qed.

Lemma lxor_range n a b : 0 <= n → 0 <= a < 2 ^ n → 0 <= b < 2 ^ n → 0 <= Z.lxor a b < 2 ^ n.
Proof.
  intros Hn Ha Hb. assert (0 <= Z.lxor a b) as Hpos by (apply Z.lxor_nonneg; lia).
  split; [done|]. rewrite <-(Z.mod_small a (2 ^ n)), <-(Z.mod_small b (2 ^ n)) by done.
  rewrite <-!Z.land_ones, <-land_lxor, Z.land_ones by lia. apply Z.mod_pos_bound. lia.
Qed.

Lemma shift_range check : 0 <= shift check < 2 ^ 40.
Proof.
  rewrite shift_feedback. apply lxor_range; [lia| |].
  - rewrite Z.land_ones, Z.shiftl_mul_pow2 by lia.
    pose proof (Z.mod_pos_bound check (2 ^ 35)). lia.
  - by destruct (Z.testbit check 35), (Z.testbit check 36), (Z.testbit check 37),
      (Z.testbit check 38), (Z.testbit check 39); vm_compute.
Qed.

Lemma shift_inj a b : 0 <= a < 2 ^ 40 → 0 <= b < 2 ^ 40 → shift a = shift b → a = b.
Proof.
  intros Ha Hb Heq. apply Z.lxor_eq, shift_zero; [by apply lxor_range|].
  by rewrite shift_lxor, Heq, Z.lxor_nilpotent.
Qed.

(** A register, and a symbol of the code. *)
Definition register (check : Z) : Prop := 0 <= check < 2 ^ 40.
Definition symbol (value : Z) : Prop := 0 <= value < 32.

Lemma poly_mod_register check value : symbol value → register (poly_mod check value).
Proof.
  intros Hv. rewrite poly_mod_shift. apply lxor_range; [lia|apply shift_range|].
  unfold symbol in Hv. lia.
Qed.

Lemma poly_mod_inj a b value : register a → register b → poly_mod a value = poly_mod b value → a = b.
Proof.
  intros Ha Hb. rewrite !poly_mod_shift. intros Heq. apply shift_inj; [done..|].
  apply (f_equal (λ x, Z.lxor x value)) in Heq.
  by rewrite !Z.lxor_assoc, Z.lxor_nilpotent, !Z.lxor_0_r in Heq.
Qed.

Lemma foldl_register check s : register check → Forall symbol s → register (foldl poly_mod check s).
Proof.
  intros Hc Hs. revert check Hc. induction Hs as [|v s Hv _ IH]; intros check Hc; [done|].
  by apply IH, poly_mod_register.
Qed.

(** Distinct registers stay distinct under equal symbols. *)
Lemma foldl_poly_mod_inj a b s :
  register a → register b → Forall symbol s → foldl poly_mod a s = foldl poly_mod b s → a = b.
Proof.
  intros Ha Hb Hs. revert a b Ha Hb. induction Hs as [|v s Hv _ IH]; intros a b Ha Hb; [done|].
  simpl. intros Heq%IH; [|by apply poly_mod_register..]. by eapply poly_mod_inj.
Qed.

(** The symbols of a burst in an empty register: their number in base 32. *)
Definition digits (s : list Z) : Z := foldl (λ acc v, acc * 32 + v) 0 s.

Lemma digits_app s v : digits (s ++ [v]) = digits s * 32 + v.
Proof. unfold digits. by rewrite foldl_app. Qed.

Lemma digits_range s : Forall symbol s → 0 <= digits s < 2 ^ (5 * Z.of_nat (length s)).
Proof.
  induction s as [|v s IH] using rev_ind; [done|]. intros [Hs [Hv _]%Forall_cons]%Forall_app.
  rewrite digits_app, length_app, Nat.add_1_r, Nat2Z.inj_succ. specialize (IH Hs).
  unfold symbol in Hv. replace (5 * Z.succ (Z.of_nat (length s))) with (5 + 5 * Z.of_nat (length s)) by lia.
  rewrite Z.pow_add_r by lia. change (2 ^ 5) with 32. lia.
Qed.

Lemma digits_inj s s' :
  Forall symbol s → Forall symbol s' → length s = length s' → digits s = digits s' → s = s'.
Proof.
  revert s'. induction s as [|v s IH] using rev_ind; intros s' Hs Hs' Hlen.
  { by destruct s'. }
  destruct s' as [|v' s' _] using rev_ind; [rewrite length_app in Hlen; simpl in Hlen; lia|].
  apply Forall_app in Hs as [Hs [Hv _]%Forall_cons], Hs' as [Hs' [Hv' _]%Forall_cons].
  rewrite !digits_app. rewrite !length_app in Hlen. simpl in Hlen. unfold symbol in Hv, Hv'.
  intros Heq. assert (v = v') as -> by lia. f_equal. apply IH; [done..|lia|lia].
Qed.

Lemma shift_small check : 0 <= check < 2 ^ 35 → shift check = check * 32.
Proof.
  intros Hc. rewrite shift_feedback, Z.land_ones, Z.mod_small by lia.
  assert (∀ n, 35 <= n → Z.testbit check n = false) as Hb.
  { intros n Hn. rewrite <-(Z.mod_small check (2 ^ 35)) by done. apply Z.mod_pow2_bits_high. lia. }
  rewrite !Hb by lia. change (feedback false false false false false) with 0.
  by rewrite Z.lxor_0_r, Z.shiftl_mul_pow2.
Qed.

Lemma lxor_low check v : symbol v → Z.lxor (check * 32) v = check * 32 + v.
Proof.
  intros Hv. symmetry. apply Z.add_nocarry_lxor. apply Z.bits_inj'. intros n Hn.
  rewrite Z.land_spec, Z.bits_0. change 32 with (2 ^ 5).
  destruct (Z.lt_ge_cases n 5) as [Hlt|Hge].
  - by rewrite Z.mul_pow2_bits_low.
  - unfold symbol in Hv. rewrite <-(Z.mod_small v (2 ^ 5)) by done.
    rewrite Z.mod_pow2_bits_high by lia. apply andb_false_r.
Qed.

Lemma foldl_burst s :
  Forall symbol s → (length s <= 8)%nat → foldl poly_mod 0 s = digits s.
Proof.
  induction s as [|v s IH] using rev_ind; [done|]. intros [Hs [Hv _]%Forall_cons]%Forall_app Hlen.
  rewrite length_app in Hlen. simpl in Hlen. rewrite foldl_app, digits_app. simpl.
  rewrite IH by (done || lia). pose proof (digits_range s Hs) as Hr.
  rewrite poly_mod_shift, shift_small, lxor_low; [done..|].
  split; [lia|]. eapply Z.lt_le_trans; [apply Hr|]. apply Z.pow_le_mono_r; lia.
Qed.

(** The code is linear: a run is the shifted register and the run from zero. *)
Lemma foldl_linear check s :
  foldl poly_mod check s = Z.lxor (foldl poly_mod check (replicate (length s) 0)) (foldl poly_mod 0 s).
Proof.
  induction s as [|v s IH] using rev_ind; [by rewrite Z.lxor_0_r|].
  rewrite length_app, Nat.add_comm, !foldl_app, IH. simpl.
  assert (∀ n x, foldl poly_mod x (0 :: replicate n 0) = poly_mod (foldl poly_mod x (replicate n 0)) 0) as Hswap.
  { intros n x. revert x. induction n as [|n IHn]; intros x; [done|]. simpl in *. by rewrite IHn. }
  simpl in Hswap. rewrite Hswap, !poly_mod_shift, shift_lxor, !Z.lxor_assoc, Z.lxor_0_l. done.
Qed.

(** A burst of at most eight symbols is detected, whatever follows. *)
Lemma burst_detected check s s' rest :
  register check → Forall symbol s → Forall symbol s' → Forall symbol rest →
  length s = length s' → (length s <= 8)%nat → s ≠ s' →
  foldl poly_mod check (s ++ rest) ≠ foldl poly_mod check (s' ++ rest).
Proof.
  intros Hc Hs Hs' Hrest Hlen Hmax Hne. rewrite !foldl_app.
  intros Heq%foldl_poly_mod_inj; [|by apply foldl_register..|done].
  apply Hne, digits_inj; [done..|]. rewrite (foldl_linear _ s), (foldl_linear _ s'), Hlen in Heq.
  rewrite !foldl_burst in Heq by (done || lia).
  apply (f_equal (Z.lxor (foldl poly_mod check (replicate (length s') 0)))) in Heq.
  by rewrite <-!Z.lxor_assoc, Z.lxor_nilpotent, !Z.lxor_0_l in Heq.
Qed.

(** ** The symbols of a descriptor *)

#[local] Opaque input_charset poly_mod Z.mul Z.land Z.shiftr.

Fixpoint positions (descriptor : string) : option (list Z) :=
  match descriptor with
  | EmptyString => Some []
  | String c rest =>
      match find_char input_charset c with
      | None => None
      | Some p => (p ::.) <$> positions rest
      end
  end.

(** A symbol of each character, and one of each three (or the last) characters. *)
Fixpoint symbols (ps : list Z) : list Z :=
  match ps with
  | a :: b :: c :: rest =>
      Z.land a 31 :: Z.land b 31 :: Z.land c 31 ::
        (3 * (3 * Z.shiftr a 5 + Z.shiftr b 5) + Z.shiftr c 5) :: symbols rest
  | [a; b] => [Z.land a 31; Z.land b 31; 3 * Z.shiftr a 5 + Z.shiftr b 5]
  | [a] => [Z.land a 31; Z.shiftr a 5]
  | [] => []
  end.

(** Induction over a list by three elements. *)
Lemma list_three_ind {A} (P : list A → Prop) :
  P [] → (∀ a, P [a]) → (∀ a b, P [a; b]) → (∀ a b c l, P l → P (a :: b :: c :: l)) → ∀ l, P l.
Proof.
  intros H0 H1 H2 H3. fix IH 1. intros [|a [|b [|c l]]]; [apply H0|apply H1|apply H2|].
  apply H3, IH.
Qed.

(** The loop of the code runs the code over the symbols. *)
Lemma checksum_loop_symbols check descriptor :
  checksum_loop check 0 0 descriptor =
    (λ ps, foldl poly_mod check (symbols ps)) <$> positions descriptor.
Proof.
  rewrite <-(String.string_of_list_ascii_of_string descriptor).
  generalize (String.list_ascii_of_string descriptor). clear descriptor. intros l. revert check.
  induction l as [|a|a b|a b c l IH] using list_three_ind; intros check.
  - done.
  - simpl. by destruct (find_char input_charset a).
  - simpl. destruct (find_char input_charset a); [|done]. simpl. by destruct (find_char input_charset b).
  - simpl. destruct (find_char input_charset a); [|done]. simpl.
    destruct (find_char input_charset b); [|done]. simpl.
    destruct (find_char input_charset c); [|done]. simpl. rewrite IH.
    by destruct (positions (String.string_of_list_ascii l)).
Qed.

Definition position_ok (p : Z) : Prop := 0 <= p < 96.

Lemma find_char_range charset c p :
  find_char charset c = Some p → 0 <= p < Z.of_nat (String.length charset).
Proof.
  revert p. induction charset as [|a charset IH]; intros p; simpl; [done|].
  destruct (Ascii.eqb a c); [intros [= <-]; lia|].
  destruct (find_char charset c) as [p'|]; [|done]. intros [= <-]. specialize (IH p' eq_refl). lia.
Qed.

Lemma find_char_inj charset c c' p :
  find_char charset c = Some p → find_char charset c' = Some p → c = c'.
Proof.
  revert p. induction charset as [|a charset IH]; intros p; simpl; [done|].
  destruct (Ascii.eqb_spec a c) as [<-|Hc], (Ascii.eqb_spec a c') as [<-|Hc']; [done|..].
  - intros [= <-]. destruct (find_char charset c') as [p'|] eqn:Hp'; [|done].
    apply find_char_range in Hp'. intros [= Hp]. lia.
  - intros Hp [= <-]. destruct (find_char charset c) as [p'|] eqn:Hp'; [|done].
    apply find_char_range in Hp'. injection Hp as Hp. lia.
  - destruct (find_char charset c) as [p1|]; [|done]. destruct (find_char charset c') as [p2|]; [|done].
    intros [= H1] [= H2]. assert (p1 = p2) as -> by lia. by apply (IH p2).
Qed.

Lemma positions_ok descriptor ps :
  positions descriptor = Some ps → Forall position_ok ps ∧ length ps = String.length descriptor.
Proof.
  revert ps. induction descriptor as [|c rest IH]; intros ps; simpl; [by intros [= <-]|].
  destruct (find_char input_charset c) as [p|] eqn:Hp; [|done].
  destruct (positions rest) as [ps'|]; [|done]. intros [= <-].
  destruct (IH ps' eq_refl) as [Hok Hlen]. split; [|by f_equal/=]. constructor; [|done].
  apply find_char_range in Hp. unfold position_ok. change (String.length input_charset) with 95%nat in Hp. lia.
Qed.

Lemma positions_app a b :
  positions (a ++ b) =
    match positions a, positions b with
    | Some pa, Some pb => Some (pa ++ pb)%list
    | _, _ => None
    end.
Proof.
  induction a as [|c a IH].
  { change ("" +:+ b) with b. simpl. by destruct (positions b). }
  change (String c a +:+ b) with (String c (a +:+ b)). simpl. destruct (find_char input_charset c) as [p|]; [|done]. rewrite IH.
  destruct (positions a) as [pa|], (positions b) as [pb|]; done.
Qed.

Lemma positions_inj a b ps : positions a = Some ps → positions b = Some ps → a = b.
Proof.
  revert b ps. induction a as [|c a IH]; intros [|c' b] ps; simpl.
  - done.
  - intros [= <-]. destruct (find_char input_charset c'); [|done]. by destruct (positions b).
  - destruct (find_char input_charset c); [|done]. destruct (positions a); [|done]. by intros [= <-].
  - destruct (find_char input_charset c) as [p|] eqn:Hp; [|done].
    destruct (positions a) as [pa|] eqn:Ha; [|done]. intros [= <-].
    destruct (find_char input_charset c') as [p'|] eqn:Hp'; [|done].
    destruct (positions b) as [pb|] eqn:Hb; [|done]. intros [= -> ->].
    f_equal; [exact (find_char_inj _ _ _ _ Hp Hp')|exact (IH _ _ eq_refl Hb)].
Qed.

Lemma split_position p : p = 32 * Z.shiftr p 5 + Z.land p 31.
Proof.
  change 31 with (Z.ones 5). rewrite Z.land_ones, Z.shiftr_div_pow2 by lia. change (2 ^ 5) with 32.
  apply Z.div_mod. lia.
Qed.

Lemma position_parts p : position_ok p → symbol (Z.land p 31) ∧ 0 <= Z.shiftr p 5 <= 2.
Proof.
  intros Hp. unfold symbol. change 31 with (Z.ones 5).
  rewrite Z.land_ones, Z.shiftr_div_pow2 by lia. change (2 ^ 5) with 32. unfold position_ok in Hp.
  split; [apply Z.mod_pos_bound; lia|].
  split; [apply Z.div_pos; lia|]. apply Z.lt_succ_r, Z.div_lt_upper_bound; lia.
Qed.

Lemma symbols_symbol ps : Forall position_ok ps → Forall symbol (symbols ps).
Proof.
  induction ps as [|a|a b|a b c ps IH] using list_three_ind; simpl; [done|..];
    repeat setoid_rewrite Forall_cons; unfold symbol; intros Hps;
    repeat match goal with H : position_ok _ ∧ _ |- _ => destruct H end;
    repeat match goal with H : position_ok _ |- _ => apply position_parts in H as [? ?] end;
    unfold symbol in *; split_and!; try done; try lia; auto.
Qed.

Lemma symbols_app ps qs :
  (length ps mod 3 = 0)%nat → symbols (ps ++ qs) = (symbols ps ++ symbols qs)%list.
Proof.
  induction ps as [|a|a b|a b c ps IH] using list_three_ind; intros Hlen; [done..|].
  simpl. rewrite IH; [done|]. cbn [length] in Hlen.
  replace (S (S (S (length ps)))) with (length ps + 1 * 3)%nat in Hlen by lia.
  by rewrite Nat.Div0.mod_add in Hlen.
Qed.

(** The symbols determine the positions. *)
Lemma symbols_inj ps qs :
  Forall position_ok ps → Forall position_ok qs → length ps = length qs → symbols ps = symbols qs →
  ps = qs.
Proof.
  revert qs. induction ps as [|a|a b|a b c ps IH] using list_three_ind;
    intros [|a' [|b' [|c' qs]]] Hp Hq Hlen; simplify_eq/=; intros Hs; try done;
    repeat setoid_rewrite Forall_cons in Hp; repeat setoid_rewrite Forall_cons in Hq;
    repeat match goal with H : position_ok _ ∧ _ |- _ => destruct H end;
    repeat match goal with H : position_ok ?p |- _ =>
      pose proof (split_position p); apply position_parts in H as [? ?] end;
    simplify_eq.
  - f_equal. lia.
  - f_equal; [lia|]. f_equal. lia.
  - assert (Z.shiftr c 5 = Z.shiftr c' 5 ∧ Z.shiftr b 5 = Z.shiftr b' 5 ∧ Z.shiftr a 5 = Z.shiftr a' 5)
      as (? & ? & ?) by lia.
    f_equal; [lia|]. f_equal; [lia|]. f_equal; [lia|]. apply IH; auto.
Qed.

(** ** The text of a checksum *)

Lemma checksum_charset_inj i j :
  (i < 32)%nat → (j < 32)%nat →
  default " "%char (String.get i checksum_charset) = default " "%char (String.get j checksum_charset) →
  i = j.
Proof.
  intros Hi Hj Heq.
  assert (Forall (λ i, Forall (λ j, default " "%char (String.get i checksum_charset) =
    default " "%char (String.get j checksum_charset) → i = j) (seq 0 32)) (seq 0 32)) as Hall.
  { apply (bool_decide_unpack _). vm_compute. done. }
  rewrite Forall_forall in Hall. specialize (Hall i ltac:(apply elem_of_seq; lia)).
  rewrite Forall_forall in Hall. by apply (Hall j); [apply elem_of_seq; lia|].
Qed.

Lemma checksum_symbol check k : 0 <= Z.land (Z.shiftr check k) 31 < 32.
Proof.
  change 31 with (Z.ones 5). rewrite Z.land_ones by lia. change 32 with (2 ^ 5).
  apply Z.mod_pos_bound. lia.
Qed.

Lemma checksum_text_length check : String.length (checksum_text check) = 8%nat.
Proof. done. Qed.

Lemma checksum_text_inj a b :
  register a → register b → checksum_text a = checksum_text b → a = b.
Proof.
  intros Ha Hb Htext. apply (f_equal String.list_ascii_of_string) in Htext.
  unfold checksum_text in Htext. rewrite !String.list_ascii_of_string_of_list_ascii in Htext.
  assert (∀ i, 0 <= i < 8 → Z.land (Z.shiftr a (5 * (7 - i))) 31 = Z.land (Z.shiftr b (5 * (7 - i))) 31)
    as Hsym.
  { intros i Hi. apply (f_equal (lookup (Z.to_nat i))) in Htext.
    rewrite !list_lookup_fmap, lookup_seq_lt in Htext by lia. injection Htext as Htext.
    unfold checksum_at in Htext. rewrite Z2Nat.id in Htext by lia.
    pose proof (checksum_symbol a (5 * (7 - i))). pose proof (checksum_symbol b (5 * (7 - i))).
    apply checksum_charset_inj in Htext; lia. }
  apply Z.bits_inj'. intros n Hn.
  destruct (Z.lt_ge_cases n 40) as [Hlt|Hge]; [|by rewrite !testbit_above].
  specialize (Hsym (7 - n / 5)). replace (7 - (7 - n / 5)) with (n / 5) in Hsym by lia.
  assert (0 <= n / 5 < 8).
  { split; [apply Z.div_pos; lia|apply Z.div_lt_upper_bound; lia]. }
  pose proof (Z.mod_pos_bound n 5 ltac:(lia)). pose proof (Z.div_mod n 5 ltac:(lia)) as Hdiv.
  apply (f_equal (λ x, Z.testbit x (n mod 5))) in Hsym; [|lia].
  rewrite !Z.land_spec, !Z.shiftr_spec in Hsym by lia.
  change 31 with (Z.ones 5) in Hsym. rewrite Z.ones_spec_low, !andb_true_r in Hsym by lia.
  by replace (n mod 5 + 5 * (n / 5)) with n in Hsym by lia.
Qed.

Lemma checksum_pad_foldl n check : checksum_pad n check = foldl poly_mod check (replicate n 0).
Proof. revert check. induction n as [|n IH]; intros check; [done|]. simpl. apply IH. Qed.

(** The checksum of valid characters is the code of their symbols. *)
Lemma descriptor_checksum_code descriptor ps :
  positions descriptor = Some ps →
  descriptor_checksum descriptor =
    checksum_text (Z.lxor (foldl poly_mod 1 (symbols ps ++ replicate 8 0)) 1).
Proof.
  intros Hps. unfold descriptor_checksum. rewrite checksum_loop_symbols, Hps.
  cbn [fmap option_fmap option_map]. by rewrite checksum_pad_foldl, foldl_app.
Qed.

Lemma symbols_length ps qs : length ps = length qs → length (symbols ps) = length (symbols qs).
Proof.
  revert qs. induction ps as [|a|a b|a b c ps IH] using list_three_ind;
    intros [|a' [|b' [|c' qs]]] Hlen; simplify_eq/=; try done. by rewrite (IH qs).
Qed.

Lemma symbols_length_group ps : (length ps <= 6)%nat → (length (symbols ps) <= 8)%nat.
Proof. destruct ps as [|a [|b [|c [|d [|e [|f [|g ps]]]]]]]; simpl; lia. Qed.

(** A change within two adjacent groups of three characters is detected. *)
Lemma groups_detected x y p mx my s :
  positions x = Some (p ++ mx ++ s)%list → positions y = Some (p ++ my ++ s)%list →
  (length p mod 3 = 0)%nat → length mx = length my →
  (length mx = 6 ∨ (length mx < 6 ∧ s = []))%nat → mx ≠ my →
  descriptor_checksum x ≠ descriptor_checksum y.
Proof.
  intros Hx Hy Hp Hlen Hmax Hne.
  destruct (positions_ok _ _ Hx) as [Hokx _], (positions_ok _ _ Hy) as [Hoky _].
  rewrite !Forall_app in Hokx, Hoky. destruct Hokx as (Hokp & Hokmx & Hoks), Hoky as (_ & Hokmy & _).
  assert (∀ m, length m = length mx → symbols (m ++ s) = (symbols m ++ symbols s)%list) as Hsplit.
  { intros m Hm. destruct Hmax as [H6|[_ ->]]; [apply symbols_app; by rewrite Hm, H6|].
    by rewrite !app_nil_r. }
  rewrite (descriptor_checksum_code x _ Hx), (descriptor_checksum_code y _ Hy).
  rewrite !(symbols_app p), (Hsplit mx), (Hsplit my) by done. rewrite <-!app_assoc, !(foldl_app _ (symbols p)).
  assert (register (foldl poly_mod 1 (symbols p))) as Hreg
    by (apply foldl_register; [by vm_compute|by apply symbols_symbol]).
  assert (Forall symbol (symbols s ++ replicate 8 0)) as Hrest.
  { apply Forall_app. split; [by apply symbols_symbol|].
    apply Forall_replicate. by vm_compute. }
  assert (∀ m, Forall position_ok m →
    register (Z.lxor (foldl poly_mod (foldl poly_mod 1 (symbols p))
      (symbols m ++ symbols s ++ replicate 8 0)) 1)) as Hregs.
  { intros m Hm. apply lxor_range; [lia| |by vm_compute]. apply foldl_register; [done|].
    rewrite Forall_app. split; [by apply symbols_symbol|done]. }
  intros Heq%checksum_text_inj; [|by apply Hregs..].
  apply (f_equal (λ z, Z.lxor z 1)) in Heq.
  rewrite !Z.lxor_assoc, Z.lxor_nilpotent, !Z.lxor_0_r in Heq. revert Heq.
  apply burst_detected; [done|by apply symbols_symbol..|done|by apply symbols_length| |].
  - apply symbols_length_group. lia.
  - intros Hs%symbols_inj; [done..|]. done.
Qed.

(** Two descriptors that differ within four consecutive characters. *)
Lemma window_detected a u v b pa pu pv pb :
  positions a = Some pa → positions u = Some pu → positions v = Some pv → positions b = Some pb →
  String.length u = String.length v → (String.length u <= 4)%nat → u ≠ v →
  descriptor_checksum (a ++ u ++ b) ≠ descriptor_checksum (a ++ v ++ b).
Proof.
  intros Ha Hu Hv Hb Hlen Hmax Hne.
  destruct (positions_ok _ _ Hu) as [_ Hlu], (positions_ok _ _ Hv) as [_ Hlv].
  set (i := (3 * (length pa / 3))%nat).
  assert (i <= length pa < i + 3)%nat as Hi.
  { subst i. pose proof (Nat.div_mod_eq (length pa) 3).
    pose proof (Nat.mod_upper_bound (length pa) 3 ltac:(lia)). lia. }
  set (k := (6 - (length pa - i) - length pu)%nat).
  assert (∀ pw, (pa ++ pw ++ pb)%list =
    (take i pa ++ (drop i pa ++ pw ++ take k pb) ++ drop k pb)%list) as Hparts.
  { intros pw. rewrite <-(take_drop i pa) at 1. rewrite <-(take_drop k pb) at 1.
    by rewrite <-!app_assoc. }
  apply (groups_detected _ _ (take i pa) (drop i pa ++ pu ++ take k pb) (drop i pa ++ pv ++ take k pb)
    (drop k pb)).
  - by rewrite !positions_app, Ha, Hu, Hb, <-Hparts.
  - by rewrite !positions_app, Ha, Hv, Hb, <-Hparts.
  - rewrite length_take, Nat.min_l by lia. subst i. rewrite Nat.mul_comm. apply Nat.Div0.mod_mul.
  - rewrite !length_app. lia.
  - rewrite !length_app, length_drop, length_take.
    destruct (Nat.le_gt_cases k (length pb)) as [Hk|Hk]; [left; lia|right].
    split; [lia|]. apply drop_ge. lia.
  - intros Heq. apply app_inj_1 in Heq as [_ Heq]; [|done].
    apply app_inj_1 in Heq as [Heq _]; [|lia]. subst pv. apply Hne. by eapply positions_inj.
Qed.

(** ** Descriptors of scripts *)

(** Operations of [chain::script], [wallet::payment_address] and
    [wallet::witness_address]. *)
Class DescriptorScripts `{Wallet} := {
  (** The key of a pay-to-key script, otherwise empty. *)
  public_key : script → data_chunk;
  (** The threshold and the keys of a multisig script, zero if it is not one. *)
  multisig_required : script → Z;
  multisig_keys : script → list data_chunk;
  (** [to_data(false)]. *)
  script_data : script → data_chunk;
  (** The witness version, [None] for an unversioned script, with its program. *)
  witness_version : script → option (Z * data_chunk);
  witness_encoded : data_chunk → Z → string → string;
  is_compressed_key : data_chunk → bool;
  to_pay_multisig : Z → list data_chunk → script;
  (** The script of [to_pay_witness_pattern(0, hash)]. *)
  to_pay_witness : hash_digest → script;
  sha256_hash : data_chunk → hash_digest;
  (** The encoded addresses of [payment_address{ script, p2sh }] and
      [witness_address{ script, witness }]. *)
  script_payment : script → Z → string;
  script_witness : script → string → string;
  max_push_data_size : Z;
}.

Section Descriptors.
Context `{Text} `{DescriptorScripts}.

Definition to_address (s : script) (p2kh p2sh : Z) (witness : string) : string :=
  match witness_version s with
  | Some (version, program) => witness_encoded program version witness
  | None =>
      match extract_output s p2kh p2sh with
      | Some pay => encoded pay
      | None => ""
      end
  end.

(** The keys of a multisig, each after a comma. *)
Definition key_list (keys : list data_chunk) : string :=
  foldl (λ body point, body +:+ ("," +:+ encode_base16 point)) "" keys.

Definition descriptor_body (s : script) (p2kh p2sh : Z) (witness : string) : string :=
  let key := public_key s in
  let required := multisig_required s in
  if negb (length key =? 0)%nat then "pk(" +:+ encode_base16 key +:+ ")"
  else if negb (required =? 0) then
    "multi(" +:+ to_decimal required +:+ key_list (multisig_keys s) +:+ ")"
  else
    let address := to_address s p2kh p2sh witness in
    if is_empty address then "raw(" +:+ encode_base16 (script_data s) +:+ ")"
    else "addr(" +:+ address +:+ ")".

Definition with_checksum (body : string) : string := body +:+ "#" +:+ descriptor_checksum body.

Definition infer_descriptor (s : script) (p2kh p2sh : Z) (witness : string) : string :=
  with_checksum (descriptor_body s p2kh p2sh witness).

(** The loop over the keys: the points and whether all are compressed. *)
Fixpoint multisig_points (keys : array) : option (list data_chunk * bool) :=
  match keys with
  | [] => Some ([], true)
  | string_t text :: keys =>
      match decode_base16 text with
      | Some point =>
          if is_public_key point then
            match multisig_points keys with
            | Some (points, compressed) =>
                Some (point :: points, is_compressed_key point && compressed)
            | None => None
            end
          else None
      | None => None
      end
  | _ :: _ => None
  end.

Definition multisig_warning : value_t :=
  array_t [string_t ("Unable to make chosen address type, please ensure no uncompressed " ++
    "public keys are present.")].

Definition create_multisig (required : Z) (keys : array) (address_type : string) (p2sh : Z)
    (witness : string) : object :=
  match multisig_points keys with
  | None => []
  | Some (points, compressed) =>
      let multisig := to_pay_multisig required points in
      let embedded := script_data multisig in
      let type := if compressed then address_type else "legacy" in
      if negb (type == "bech32") && (max_push_data_size <? Z.of_nat (length embedded)) then []
      else
        let body := "multi(" +:+ to_decimal required +:+ key_list points +:+ ")" in
        let '(address, body) :=
          if type == "legacy" then (script_payment multisig p2sh, "sh(" +:+ body +:+ ")")
          else if type == "bech32" then (script_witness multisig witness, "wsh(" +:+ body +:+ ")")
          else (script_payment (to_pay_witness (sha256_hash embedded)) p2sh,
                "sh(wsh(" +:+ body +:+ "))") in
        ([("address", string_t address);
          ("redeemScript", string_t (encode_base16 embedded));
          ("descriptor", string_t (with_checksum body))] ++
         if negb (type == address_type) then [("warnings", multisig_warning)] else [])%list
  end.

(** ** Descriptors have valid characters *)

Definition valid (s : string) : Prop := is_Some (positions s).

Definition is_alphanumeric (c : ascii) : bool :=
  let n := Z.of_N (N_of_ascii c) in
  ((48 <=? n) && (n <=? 57)) || ((65 <=? n) && (n <=? 90)) || ((97 <=? n) && (n <=? 122)).

Lemma alphanumeric_found c : is_alphanumeric c = true → is_Some (find_char input_charset c).
Proof. destruct c as [[] [] [] [] [] [] [] []]; vm_compute; try done; by eexists. Qed.

Lemma alphanumeric_valid s : all_chars is_alphanumeric s = true → valid s.
Proof.
  unfold valid. induction s as [|c s IH]; simpl; [by eexists|].
  intros [[p Hp]%alphanumeric_found Hs]%andb_prop. rewrite Hp. destruct (IH Hs) as [ps Hps].
  rewrite Hps. by eexists.
Qed.

Lemma valid_app a b : valid a → valid b → valid (a +:+ b).
Proof. unfold valid. intros [pa Ha] [pb Hb]. rewrite positions_app, Ha, Hb. by eexists. Qed.

Lemma digit_alphanumeric s : all_chars is_digit s = true → all_chars is_alphanumeric s = true.
Proof.
  induction s as [|c s IH]; simpl; [done|]. intros [Hc Hs]%andb_prop. rewrite IH by done.
  rewrite andb_true_r. revert Hc. by destruct c as [[] [] [] [] [] [] [] []].
Qed.

Lemma to_decimal_valid n : 0 <= n → valid (to_decimal n).
Proof.
  intros Hn. apply alphanumeric_valid, digit_alphanumeric. unfold to_decimal.
  destruct n as [|n|n]; [done| |lia].
  change (all_chars is_digit (pretty_N_go (N.pos n) "") = true). by rewrite pretty_go_digits.
Qed.

Lemma descriptor_checksum_length s :
  valid s → String.length (descriptor_checksum s) = 8%nat.
Proof. intros [ps Hps]. by rewrite (descriptor_checksum_code _ _ Hps). Qed.

End Descriptors.

(** Encodings have letters and digits, and a threshold is a byte. *)
Class DescriptorScriptsLaws `{Text} `{DescriptorScripts} : Prop := {
  encode_base16_alphanumeric x : all_chars is_alphanumeric (encode_base16 x) = true;
  encoded_alphanumeric payment : all_chars is_alphanumeric (encoded payment) = true;
  witness_encoded_alphanumeric program version prefix :
    all_chars is_alphanumeric (witness_encoded program version prefix) = true;
  multisig_required_range s : 0 <= multisig_required s;
}.

Section DescriptorValidity.
Context `{DescriptorScriptsLaws}.

Lemma literal_valid s : positions s ≠ None → valid s.
Proof. unfold valid. destruct (positions s); [by eexists|done]. Qed.

Lemma base16_valid x : valid (encode_base16 x).
Proof. apply alphanumeric_valid, encode_base16_alphanumeric. Qed.

Lemma key_list_valid keys : valid (key_list keys).
Proof.
  unfold key_list. enough (∀ body, valid body →
    valid (foldl (λ body point, body +:+ ("," +:+ encode_base16 point)) body keys)) as Hall
    by (apply Hall; by eexists).
  induction keys as [|key keys IH]; intros body Hbody; [done|]. simpl. apply IH.
  apply valid_app; [done|]. apply valid_app; [by apply literal_valid|apply base16_valid].
Qed.

Lemma multi_valid required keys :
  0 <= required → valid ("multi(" +:+ to_decimal required +:+ key_list keys +:+ ")").
Proof.
  intros Hr. apply valid_app; [by apply literal_valid|]. apply valid_app; [by apply to_decimal_valid|].
  apply valid_app; [apply key_list_valid|by apply literal_valid].
Qed.

Lemma enclosed_valid prefix body suffix :
  positions prefix ≠ None → positions suffix ≠ None → valid body → valid (prefix +:+ body +:+ suffix).
Proof. intros Hp Hs Hb. by apply valid_app, valid_app; [apply literal_valid| |apply literal_valid]. Qed.

Lemma descriptor_body_valid s p2kh p2sh witness : valid (descriptor_body s p2kh p2sh witness).
Proof.
  unfold descriptor_body. destruct (negb _).
  { apply enclosed_valid; [done..|apply base16_valid]. }
  destruct (negb _); [apply multi_valid, multisig_required_range|].
  destruct (is_empty _); [apply enclosed_valid; [done..|apply base16_valid]|].
  apply enclosed_valid; [done..|]. unfold to_address. apply alphanumeric_valid.
  destruct (witness_version s) as [[version program]|]; [apply witness_encoded_alphanumeric|].
  destruct (extract_output s p2kh p2sh); [apply encoded_alphanumeric|done].
Qed.

End DescriptorValidity.

(** ** Properties *)

(** C30: the checksum of a descriptor of any length is of eight characters, or empty
    if a character is not of the charset, and detects every change of up to four
    consecutive characters (a mistyped or a transposed pair, for example). *)
Theorem descriptor_checksum_detects a u v b :
  String.length u = String.length v → (String.length u <= 4)%nat → u ≠ v →
  descriptor_checksum (a ++ u ++ b) ≠ "" → descriptor_checksum (a ++ v ++ b) ≠ "" →
  String.length (descriptor_checksum (a ++ u ++ b)) = 8%nat ∧
  descriptor_checksum (a ++ u ++ b) ≠ descriptor_checksum (a ++ v ++ b).
Proof.
  intros Hlen Hmax Hne.
  assert (∀ s, descriptor_checksum s ≠ "" → ∃ ps, positions s = Some ps) as Hsome.
  { intros s Hs. destruct (positions s) as [ps|] eqn:Hps; [by exists ps|]. destruct Hs.
    unfold descriptor_checksum. by rewrite checksum_loop_symbols, Hps. }
  intros [pu Hu]%Hsome [pv Hv]%Hsome. split; [apply descriptor_checksum_length; by eexists|].
  rewrite !positions_app in Hu, Hv.
  destruct (positions a) eqn:Ha, (positions u) eqn:Hu', (positions v) eqn:Hv', (positions b) eqn:Hb;
    try done.
  by eapply window_detected.
Qed.

Lemma descriptor_checksum_detects_witness :
  descriptor_checksum ("pkh(" ++ "02" ++ "ab)") ≠ descriptor_checksum ("pkh(" ++ "20" ++ "ab)").
Proof.
  refine (proj2 (descriptor_checksum_detects "pkh(" "02" "20" "ab)" _ _ _ _ _));
    [reflexivity|vm_compute; lia|discriminate|..]; vm_compute; discriminate.
Defined.

(** Every descriptor that the server infers from a script, or makes of multisig
    keys, carries the eight-character checksum of its body. *)
Lemma descriptors_checksummed `{DescriptorScriptsLaws} :
  (∀ s p2kh p2sh witness, ∃ body,
    infer_descriptor s p2kh p2sh witness = (body ++ "#" ++ descriptor_checksum body)%string ∧
    String.length (descriptor_checksum body) = 8%nat) ∧
  (∀ required keys type p2sh witness, 0 <= required →
    create_multisig required keys type p2sh witness = [] ∨
    ∃ body, find_field "descriptor" (create_multisig required keys type p2sh witness) =
        Some (string_t (body ++ "#" ++ descriptor_checksum body)) ∧
      String.length (descriptor_checksum body) = 8%nat).
Proof.
  split.
  - intros s p2kh p2sh witness. exists (descriptor_body s p2kh p2sh witness).
    split; [done|]. apply descriptor_checksum_length, descriptor_body_valid.
  - intros required keys type p2sh witness Hr. unfold create_multisig.
    destruct (multisig_points keys) as [[points compressed]|]; [|by left].
    destruct (_ && _); [by left|right]. pose proof (multi_valid required points Hr) as Hm.
    destruct (String.eqb _ "legacy"); [|destruct (String.eqb _ "bech32")]; simpl; eexists; (split; [reflexivity|]);
      by apply descriptor_checksum_length, enclosed_valid.
Qed.

(** Scripts that are their bytes, for an example. *)
#[local] Instance example_script : Scripts := {
  script := data_chunk;
  to_script bytes := bytes;
  script_valid _ := true;
  script_hash bytes := bytes;
  payment_address := unit;
  to_payment_address _ := None;
  output_script _ _ _ := [];
  extract_output _ _ _ := None;
  encoded _ := "";
}.

#[local] Instance example_keys : Wallet := {
  payment_prefix _ := 0;
  witness_address := unit;
  to_witness_address _ := None;
  witness_prefix _ := "";
  witness_script _ := [];
  is_public_key _ := true;
  pay_public_key key := key;
  pay_key_hash key := key;
}.

#[local] Instance example_descriptors : DescriptorScripts := {
  public_key _ := [];
  multisig_required _ := 0;
  multisig_keys _ := [];
  script_data bytes := bytes;
  witness_version _ := None;
  witness_encoded _ _ _ := "";
  is_compressed_key _ := false;
  to_pay_multisig _ points := concat points;
  to_pay_witness hash := hash;
  sha256_hash bytes := bytes;
  script_payment _ _ := "";
  script_witness _ _ := "";
  max_push_data_size := 520;
}.

Lemma hex_digit_alphanumeric n : is_alphanumeric (hex_digit n) = true.
Proof. unfold hex_digit. generalize (Z.to_nat n). intros k. do 16 (destruct k as [|k]; [done|]). done. Qed.

#[local] Instance example_descriptors_laws : DescriptorScriptsLaws.
Proof.
  split; [|done..]. intros bytes. simpl. induction bytes as [|b bytes IH]; [done|].
  simpl. by rewrite !hex_digit_alphanumeric, IH.
Qed.

Lemma descriptors_checksummed_witness :
  create_multisig 1 [string_t "02ab"] "bech32" 5 "bc" ≠ [] ∧
  ∃ body, find_field "descriptor" (create_multisig 1 [string_t "02ab"] "bech32" 5 "bc") =
      Some (string_t (body ++ "#" ++ descriptor_checksum body)) ∧
    String.length (descriptor_checksum body) = 8%nat.
Proof.
  assert (create_multisig 1 [string_t "02ab"] "bech32" 5 "bc" ≠ []) as Hne
    by (vm_compute; discriminate).
  split; [exact Hne|].
  destruct (proj2 descriptors_checksummed 1 [string_t "02ab"] "bech32" 5 "bc" ltac:(lia))
    as [Hnil|Hbody]; [destruct (Hne Hnil)|exact Hbody].
Defined.
