(* ===== verification/BitcoindParsers.v ===== *)
(** Parsers of bitcoind parameters: scan objects (src/parsers/bitcoind_scan.cpp)
    and raw transactions (src/parsers/bitcoind_transaction.cpp). *)
From stdpp Require Import list_numbers.
From S2P Require Import Prelude Rpc Errors System ElectrumSubscribe ElectrumOutpoints BtcdFilter.

(** Conversions of json numbers. *)
Class Integers := {
  (** [to_integer(uint32_t&, double)]. *)
  to_uint32 : double → option Z;
  (** [to_integer(uint64_t&, bitcoins * satoshi_per_bitcoin, true)]. *)
  to_satoshis : double → option Z;
}.

Class IntegersLaws `{Integers} : Prop := {
  to_uint32_range d n : to_uint32 d = Some n → 0 <= n < 2 ^ 32;
  to_satoshis_range d n : to_satoshis d = Some n → 0 <= n < 2 ^ 64;
}.

(** ** Scan objects *)

(** [wallet::descriptor], parsed from an expression (in the context of the
    network), and its scripts at an index. *)
Class ScanDescriptors `{Scripts} := {
  wallet_descriptor : Type;
  to_descriptor : string → option wallet_descriptor;
  ranged : wallet_descriptor → bool;
  signing : Type;
  signings : wallet_descriptor → Z → list signing;
  signing_script : signing → script;
}.

Section Scan.
Context `{SizeMath} `{Integers} `{ScanDescriptors}.

Definition default_range : Z := 1000.
Definition maximum_range : Z := 1000000.

(** The range, with its begin as it was if it is one number. *)
Definition parse_scan_range (begin : Z) (range : value_t) : option (Z * Z) :=
  match range with
  | number_t d => (λ end_, (begin, end_)) <$> to_uint32 d
  | array_t [number_t first; number_t second] =>
      match to_uint32 first, to_uint32 second with
      | Some begin, Some end_ => if begin <=? end_ then Some (begin, end_) else None
      | _, _ => None
      end
  | _ => None
  end.

(** The expression and the range of an item. *)
Definition scan_item (item : value_t) : option (string * Z * Z) :=
  match item with
  | string_t expression => Some (expression, 0, default_range)
  | object_t fields =>
      match find_field "desc" fields with
      | Some (string_t expression) =>
          match find_field "range" fields with
          | None => Some (expression, 0, default_range)
          | Some range =>
              match parse_scan_range 0 range with
              | Some (begin, end_) => Some (expression, begin, end_)
              | None => None
              end
          end
      | _ => None
      end
  | _ => None
  end.

(** The loop over the indexes, of 32 bits; no result if the fuel is spent. *)
Fixpoint scan_loop (fuel : nat) (parsed : wallet_descriptor) (index end_ : Z)
    (out : list signing) : option (bool * list signing) :=
  if index <=? end_ then
    match fuel with
    | O => None
    | S fuel =>
        match signings parsed index with
        | [] => Some (false, out)
        | derived => scan_loop fuel parsed ((index + 1) mod 2 ^ 32) end_ (out ++ derived)%list
        end
    end
  else Some (true, out).

Definition expand_scan_signings (fuel : nat) (out : list signing) (item : value_t) :
    option (bool * list signing) :=
  match scan_item item with
  | None => Some (false, out)
  | Some (expression, begin, end_) =>
      match to_descriptor expression with
      | None => Some (false, out)
      | Some parsed =>
          if negb (Z.shiftr end_ 31 =? 0) || (maximum_range <=? floored_subtract end_ begin)
          then Some (false, out)
          else scan_loop fuel parsed begin (if ranged parsed then end_ else begin) out
      end
  end.

Definition expand_scan_object (fuel : nat) (out : list script) (item : value_t) :
    option (bool * list script) :=
  match expand_scan_signings fuel [] item with
  | Some (true, derived) => Some (true, out ++ (signing_script <$> derived))%list
  | Some (false, _) => Some (false, out)
  | None => None
  end.

(** The indexes of a range. *)
Definition indexes (begin end_ : Z) : list Z := seqZ begin (end_ - begin + 1).

Definition derivable (parsed : wallet_descriptor) (i : Z) : bool :=
  negb (length (signings parsed i) =? 0)%nat.

(** The loop visits the range, and its index does not wrap. *)
Lemma scan_loop_spec fuel parsed index end_ out :
  0 <= index → end_ < 2 ^ 31 → end_ - index < Z.of_nat fuel →
  ∃ out', scan_loop fuel parsed index end_ out =
      Some (forallb (derivable parsed) (indexes index end_), out') ∧
    (forallb (derivable parsed) (indexes index end_) = true →
     out' = (out ++ (indexes index end_ ≫= signings parsed))%list).
Proof.
  revert index out. induction fuel as [|fuel IH]; intros index out Hindex Hend Hfuel; unfold indexes.
  - simpl. destruct (Z.leb_spec index end_); [lia|]. rewrite seqZ_nil by lia. simpl.
    exists out. by rewrite app_nil_r.
  - simpl. destruct (Z.leb_spec index end_) as [Hle|Hgt]; cycle 1.
    { rewrite seqZ_nil by lia. simpl. exists out. by rewrite app_nil_r. }
    rewrite seqZ_cons by lia. simpl. unfold derivable at 1 3.
    destruct (signings parsed index) as [|s rest] eqn:Hs; simpl; [by exists out|].
    rewrite Z.mod_small by lia.
    destruct (IH (index + 1) (out ++ s :: rest)%list) as (out' & Hrun & Hout'); [lia..|].
    unfold indexes in Hrun, Hout'. exists out'.
    replace (Z.pred (end_ - index + 1)) with (end_ - (index + 1) + 1) by lia.
    change (Z.succ index) with (index + 1). split; [done|].
    intros Hall. rewrite Hout' by done. by rewrite <-app_assoc.
Qed.

(** An accepted range. *)
Definition scan_range_ok (begin end_ : Z) : Prop :=
  0 <= begin ∧ begin <= end_ ∧ end_ < 2 ^ 31 ∧ end_ - begin < maximum_range.

(** The descriptor and the range of an item that passes the checks. *)
Definition scan_request (item : value_t) : option (wallet_descriptor * Z * Z) :=
  match scan_item item with
  | None => None
  | Some (expression, begin, end_) =>
      match to_descriptor expression with
      | None => None
      | Some parsed =>
          if (end_ <? 2 ^ 31) && (end_ - begin <? maximum_range)
          then Some (parsed, begin, if ranged parsed then end_ else begin)
          else None
      end
  end.

End Scan.

Section ScanProofs.
Context `{SizeMathLaws} `{IntegersLaws} `{ScanDescriptors}.

Lemma scan_item_range item expression begin end_ :
  scan_item item = Some (expression, begin, end_) → 0 <= begin <= end_ ∧ end_ < 2 ^ 32.
Proof.
  assert (∀ range, parse_scan_range 0 range = Some (begin, end_) → 0 <= begin <= end_ ∧ end_ < 2 ^ 32)
    as Hrange.
  { unfold parse_scan_range. intros range Hr. repeat (case_match; try done); simplify_eq/=;
      repeat match goal with
             | H : to_uint32 _ = Some _ |- _ => apply to_uint32_range in H
             | H : (_ <=? _) = true |- _ => apply Z.leb_le in H
             end; try lia.
    destruct (to_uint32 d) as [n|] eqn:Hd; simplify_eq/=. apply to_uint32_range in Hd. lia. }
  unfold scan_item, default_range. intros Hi. repeat (case_match; try done); simplify_eq; first [by eapply Hrange|lia].
Qed.

(** Enough fuel for the longest range gives the result. *)
Lemma expand_scan_signings_spec fuel out item :
  (Z.to_nat maximum_range <= fuel)%nat →
  match scan_request item with
  | None => expand_scan_signings fuel out item = Some (false, out)
  | Some (parsed, begin, end_) =>
      scan_range_ok begin end_ ∧
      ∃ out', expand_scan_signings fuel out item =
          Some (forallb (derivable parsed) (indexes begin end_), out') ∧
        (forallb (derivable parsed) (indexes begin end_) = true →
         out' = (out ++ (indexes begin end_ ≫= signings parsed))%list)
  end.
Proof.
  intros Hfuel. unfold scan_request, expand_scan_signings.
  destruct (scan_item item) as [[[expression begin] end_]|] eqn:Hitem; [|done].
  destruct (to_descriptor expression) as [parsed|]; [|done].
  apply scan_item_range in Hitem as [Hrange Hend]. rewrite floored_subtract_spec.
  assert (negb (Z.shiftr end_ 31 =? 0) = negb (end_ <? 2 ^ 31)) as ->.
  { f_equal. rewrite Z.shiftr_div_pow2 by lia.
    destruct (Z.ltb_spec end_ (2 ^ 31)); [apply Z.eqb_eq, Z.div_small; lia|].
    apply Z.eqb_neq. pose proof (Z.div_le_lower_bound end_ (2 ^ 31) 1). lia. }
  assert ((maximum_range <=? Z.max (end_ - begin) 0) = negb (end_ - begin <? maximum_range)) as ->.
  { unfold maximum_range. rewrite Z.max_l by lia. destruct (Z.ltb_spec (end_ - begin) 1000000); simpl; lia. }
  rewrite <-negb_andb. destruct (_ && _) eqn:Hchecks; simpl; [|done].
  apply andb_true_iff in Hchecks as [Hlt%Z.ltb_lt Hlen%Z.ltb_lt].
  unfold scan_range_ok, maximum_range in *.
  destruct (ranged parsed).
  - split; [lia|]. apply scan_loop_spec; lia.
  - split; [lia|]. apply scan_loop_spec; lia.
Qed.

End ScanProofs.

(** ** Raw transactions *)

Class TransactionScripts `{Scripts} := {
  (** The script of [to_pay_null_data_pattern(data)], and the limit of its data. *)
  pay_null_data : data_chunk → script;
  max_null_data_size : Z;
  (** [messages::peer::bip125_sequence], [max_input_sequence]. *)
  bip125_sequence : Z;
  max_input_sequence : Z;
}.

Section Transaction.
Context `{Text} `{Integers} `{Wallet} `{!TransactionScripts}.

(** [chain::transaction], of inputs with empty scripts. *)
Record raw_transaction := RawTransaction {
  tx_version : Z;
  tx_inputs : list (point * Z);
  tx_outputs : list (Z * script);
  tx_lock_time : Z;
}.

Context (p2kh p2sh : Z) (witness : string) (maximum : Z).

Definition fault (e : BitcoindError.error_t) {A} : code + A := inl (BitcoindError.make e).

(** The default sequence. *)
Definition input_sequence (replaceable : bool) (lock_time : Z) : Z :=
  if replaceable then bip125_sequence
  else if lock_time =? 0 then max_input_sequence else max_input_sequence - 1.

(** The body of the loop over the inputs. *)
Definition parse_input (sequence : Z) (item : value_t) : code + (point * Z) :=
  match item with
  | object_t fields =>
      match find_field "txid" fields, find_field "vout" fields with
      | Some (string_t txid), Some (number_t vout) =>
          match decode_hash txid, to_uint32 vout with
          | Some hash, Some vout =>
              match find_field "sequence" fields with
              | None => inr ((hash, vout), sequence)
              | Some (number_t d) =>
                  match to_uint32 d with
                  | Some sequenced => inr ((hash, vout), sequenced)
                  | None => fault BitcoindError.invalid_parameter
                  end
              | Some _ => fault BitcoindError.invalid_parameter
              end
          | _, _ => fault BitcoindError.invalid_parameter
          end
      | _, _ => fault BitcoindError.invalid_parameter
      end
  | _ => fault BitcoindError.type_error
  end.

(** The loop, to the first fault. *)
Fixpoint parse_all {A B} (parse : A → code + B) (items : list A) : code + list B :=
  match items with
  | [] => inr []
  | item :: items =>
      match parse item with
      | inl ec => inl ec
      | inr x =>
          match parse_all parse items with
          | inl ec => inl ec
          | inr xs => inr (x :: xs)
          end
      end
  end.

(** [append]. *)
Definition parse_output (pair : string * value_t) : code + (Z * script) :=
  let '(name, item) := pair in
  if name == "data" then
    match item with
    | string_t text =>
        match decode_base16 text with
        | Some data =>
            if max_null_data_size <? Z.of_nat (length data)
            then fault BitcoindError.invalid_parameter
            else inr (0, pay_null_data data)
        | None => fault BitcoindError.invalid_parameter
        end
    | _ => fault BitcoindError.invalid_parameter
    end
  else
    match output_script_of name p2kh p2sh witness with
    | inl _ => fault BitcoindError.invalid_address_or_key
    | inr s =>
        match item with
        | number_t bitcoins =>
            match to_satoshis bitcoins with
            | Some satoshis =>
                if maximum <? satoshis then fault BitcoindError.type_error
                else inr (satoshis, s)
            | None => fault BitcoindError.type_error
            end
        | _ => fault BitcoindError.type_error
        end
    end.

(** The outputs of one element of an array of objects. *)
Definition parse_element (element : value_t) : code + list (Z * script) :=
  match element with
  | object_t fields => parse_all parse_output fields
  | _ => fault BitcoindError.type_error
  end.

Definition parse_outputs (outputs : value_t) : code + list (Z * script) :=
  match outputs with
  | object_t fields => parse_all parse_output fields
  | array_t elements =>
      match parse_all parse_element elements with
      | inl ec => inl ec
      | inr groups => inr (concat groups)
      end
  | _ => fault BitcoindError.type_error
  end.

Definition parse_transaction (inputs : array) (outputs : value_t) (locktime : double)
    (replaceable : bool) (version : double) : code + raw_transaction :=
  match to_uint32 locktime with
  | None => fault BitcoindError.invalid_parameter
  | Some lock_time =>
      match to_uint32 version with
      | None => fault BitcoindError.invalid_parameter
      | Some tx_version =>
          if (tx_version =? 0) || (3 <? tx_version) then fault BitcoindError.invalid_parameter
          else
            match parse_all (parse_input (input_sequence replaceable lock_time)) inputs with
            | inl ec => inl ec
            | inr ins =>
                match parse_outputs outputs with
                | inl ec => inl ec
                | inr outs => inr (RawTransaction tx_version ins outs lock_time)
                end
            end
      end
  end.

(** ** Specification *)

(** An input object names an outpoint; a sequence overrides the default. *)
Definition input_of (sequence : Z) (item : value_t) (input : point * Z) : Prop :=
  ∃ fields txid vout, item = object_t fields ∧
    find_field "txid" fields = Some (string_t txid) ∧ decode_hash txid = Some input.1.1 ∧
    find_field "vout" fields = Some (number_t vout) ∧ to_uint32 vout = Some input.1.2 ∧
    match find_field "sequence" fields with
    | None => input.2 = sequence
    | Some (number_t d) => to_uint32 d = Some input.2
    | Some _ => False
    end.

(** A pair of outputs is data within its limit, or an amount for an address. *)
Definition output_of (pair : string * value_t) (output : Z * script) : Prop :=
  (pair.1 = "data" ∧ ∃ text data, pair.2 = string_t text ∧ decode_base16 text = Some data ∧
    Z.of_nat (length data) <= max_null_data_size ∧ output = (0, pay_null_data data)) ∨
  (pair.1 ≠ "data" ∧ ∃ bitcoins, output_script_of pair.1 p2kh p2sh witness = inr output.2 ∧
    pair.2 = number_t bitcoins ∧ to_satoshis bitcoins = Some output.1 ∧ output.1 <= maximum).

(** The pairs of one object, or of an array of objects. *)
Definition pairs_of (outputs : value_t) (pairs : list (string * value_t)) : Prop :=
  outputs = object_t pairs ∨
  ∃ objects, outputs = array_t (object_t <$> objects) ∧ pairs = concat objects.

Lemma parse_all_spec {A B} (parse : A → code + B) (R : A → B → Prop) items xs :
  (∀ item x, parse item = inr x ↔ R item x) → parse_all parse items = inr xs ↔ Forall2 R items xs.
Proof.
  intros HR. revert xs. induction items as [|item items IH]; intros xs; simpl.
  { split; [by intros [= <-]|]. by intros ->%Forall2_nil_inv_l. }
  split.
  - destruct (parse item) as [ec|x] eqn:Hx; [done|]. destruct (parse_all parse items) as [ec|xs']; [done|].
    intros [= <-]. constructor; [by apply HR|by apply IH].
  - intros (x & xs' & Hx & Hxs & ->)%Forall2_cons_inv_l. apply HR in Hx as ->. by apply IH in Hxs as ->.
Qed.

Lemma parse_input_spec sequence item input :
  parse_input sequence item = inr input ↔ input_of sequence item input.
Proof.
  unfold parse_input, input_of, fault. split.
  - intros Hp. repeat (case_match; try done); simplify_eq/=; eexists _, _, _; split_and!; try done;
      simplify_option_eq; done.
  - intros (fields & txid & vout & -> & -> & Hhash & -> & Hvout & Hs). rewrite Hhash, Hvout.
    destruct input as [[hash vout'] seq]; simpl in *.
    destruct (find_field "sequence" fields) as [[]|]; try done; [by rewrite Hs|by subst].
Qed.

Lemma parse_output_spec pair output : parse_output pair = inr output ↔ output_of pair output.
Proof.
  unfold parse_output, output_of, fault. destruct pair as [name item], output as [amount out]; simpl.
  destruct (String.eqb_spec name "data") as [->|Hne]; split.
  - intros Hp. left. repeat (case_match; try done); simplify_eq/=. split; [done|].
    eexists _, _. split_and!; try done. lia.
  - intros [(_ & text & data & -> & Hd & Hlen & [= -> ->])|[? _]]; [|done]. rewrite Hd.
    destruct (Z.ltb_spec max_null_data_size (Z.of_nat (length data))); [lia|done].
  - intros Hp. right. repeat (case_match; try done); simplify_eq/=. split; [done|].
    eexists. split_and!; try done. lia.
  - intros [[? _]|(_ & bitcoins & -> & -> & -> & Hmax)]; [done|].
    destruct (Z.ltb_spec maximum amount); [lia|done].
Qed.

Lemma parse_element_spec element outs :
  parse_element element = inr outs ↔ ∃ fields, element = object_t fields ∧ Forall2 output_of fields outs.
Proof.
  unfold parse_element. split.
  - destruct element; try done. rewrite (parse_all_spec _ _ _ _ parse_output_spec). eauto.
  - intros (fields & -> & Hall). by rewrite (parse_all_spec _ _ _ _ parse_output_spec).
Qed.

Lemma parse_outputs_spec outputs outs :
  parse_outputs outputs = inr outs ↔ ∃ pairs, pairs_of outputs pairs ∧ Forall2 output_of pairs outs.
Proof.
  unfold parse_outputs, pairs_of. split.
  - destruct outputs as [| | | | | | | | | |items|fields]; try done.
    + destruct (parse_all parse_element items) as [ec|groups] eqn:Hg; [done|]. intros [= <-].
      rewrite (parse_all_spec _ _ _ _ parse_element_spec) in Hg.
      assert (∃ objects, items = object_t <$> objects ∧ Forall2 output_of (concat objects) (concat groups))
        as (objects & -> & Hall).
      { induction Hg as [|item group items groups (fields & -> & Hf) _ (objects & -> & Hall)].
        - exists []. done.
        - exists (fields :: objects). split; [done|]. simpl. by apply Forall2_app. }
      eauto 10.
    + rewrite (parse_all_spec _ _ _ _ parse_output_spec). eauto.
  - intros (pairs & [->|(objects & -> & ->)] & Hall).
    { by rewrite (parse_all_spec _ _ _ _ parse_output_spec). }
    assert (∃ groups, parse_all parse_element (object_t <$> objects) = inr groups ∧ concat groups = outs)
      as (groups & -> & ->); [|done].
    setoid_rewrite (parse_all_spec _ _ _ _ parse_element_spec). revert outs Hall.
    induction objects as [|fields objects IH]; intros outs Hall; simpl in *.
    { apply Forall2_nil_inv_l in Hall as ->. by exists []. }
    apply Forall2_app_inv_l in Hall as (outs1 & outs2 & Hg1 & Hg2 & ->).
    destruct (IH outs2 Hg2) as (groups & Hg & <-). exists (outs1 :: groups). split; [|done].
    constructor; [by exists fields|done].
Qed.

End Transaction.

(** ** Reference instances, for examples *)

#[local] Instance example_integers : Integers := {
  to_uint32 d := if PrimFloat.eqb d PrimFloat.one then Some 1
                 else if PrimFloat.eqb d PrimFloat.zero then Some 0 else None;
  to_satoshis d := if PrimFloat.eqb d PrimFloat.one then Some 100000000 else None;
}.

#[local] Instance example_integers_laws : IntegersLaws.
Proof. split; intros d n; simpl; repeat case_match; intros; simplify_eq; lia. Qed.

#[local] Instance example_scan : ScanDescriptors := {
  wallet_descriptor := string;
  to_descriptor s := if is_empty s then None else Some s;
  ranged s := negb (s == "raw");
  signing := Z;
  signings _ index := [index];
  signing_script index := [index];
}.

#[local] Instance example_parsed_wallet : Wallet := {
  payment_prefix _ := 0;
  witness_address := string;
  to_witness_address text := Some text;
  witness_prefix _ := "bc";
  witness_script text := (λ c, Z.of_N (N_of_ascii c)) <$> String.list_ascii_of_string text;
  is_public_key _ := true;
  pay_public_key key := key;
  pay_key_hash key := key;
}.

#[local] Instance example_transaction_scripts : TransactionScripts := {
  pay_null_data data := data;
  max_null_data_size := 80;
  bip125_sequence := 0xfffffffd;
  max_input_sequence := 0xffffffff;
}.

(** ** Properties *)

(** The expansion of a scan object ends, within a million derivations: its index
    does not wrap. It fails exactly if the descriptor or the range is not accepted
    (a range below 2^31 of fewer than a million indexes) or an index has no scripts,
    and otherwise appends the scripts of each index of the range in order. *)
Lemma expand_scan_object_terminates `{SizeMathLaws} `{IntegersLaws} `{ScanDescriptors} fuel out item :
  (Z.to_nat maximum_range <= fuel)%nat →
  match scan_request item with
  | None => expand_scan_object fuel out item = Some (false, out)
  | Some (parsed, begin, end_) =>
      scan_range_ok begin end_ ∧
      expand_scan_object fuel out item = Some (
        if forallb (derivable parsed) (indexes begin end_)
        then (true, out ++ (signing_script <$> (indexes begin end_ ≫= signings parsed)))%list
        else (false, out))
  end.
Proof.
  intros Hfuel. pose proof (expand_scan_signings_spec fuel [] item Hfuel) as Hspec.
  unfold expand_scan_object. destruct (scan_request item) as [[[parsed begin] end_]|].
  - destruct Hspec as (Hok & out' & -> & Hout). split; [done|].
    destruct (forallb _ _); [|done]. by rewrite Hout.
  - by rewrite Hspec.
Qed.

Lemma expand_scan_object_terminates_witness :
  expand_scan_object (Z.to_nat maximum_range) []
    (object_t [("desc", string_t "wpkh"); ("range", number_t PrimFloat.one)]) =
    Some (true, [[0]; [1]]).
Proof.
  pose proof (expand_scan_object_terminates (Z.to_nat maximum_range) []
    (object_t [("desc", string_t "wpkh"); ("range", number_t PrimFloat.one)]) (le_n _)) as [_ Hrun].
  rewrite Hrun. vm_compute. reflexivity.
Defined.

(** A raw transaction is made exactly of a well-formed request: version 1 to 3,
    each input an outpoint with its own or the default sequence, each output data
    within its limit or an amount up to the maximum for a known address, all in the
    order of the request. *)
Lemma parse_transaction_correct `{Text} `{Integers} `{Wallet} `{!TransactionScripts}
    p2kh p2sh witness maximum inputs outputs locktime replaceable version tx :
  parse_transaction p2kh p2sh witness maximum inputs outputs locktime replaceable version = inr tx ↔
  to_uint32 locktime = Some (tx_lock_time tx) ∧
  to_uint32 version = Some (tx_version tx) ∧ tx_version tx ≠ 0 ∧ tx_version tx <= 3 ∧
  Forall2 (input_of (input_sequence replaceable (tx_lock_time tx))) inputs (tx_inputs tx) ∧
  ∃ pairs, pairs_of outputs pairs ∧
    Forall2 (output_of p2kh p2sh witness maximum) pairs (tx_outputs tx).
Proof.
  unfold parse_transaction, fault. split.
  - intros Hp. destruct (to_uint32 locktime) as [lock_time|]; [|done].
    destruct (to_uint32 version) as [v|]; [|done]. destruct (_ || _) eqn:Hv; [done|].
    destruct (parse_all _ inputs) as [ec|ins] eqn:Hins; [done|].
    destruct (parse_outputs _ _ _ _ outputs) as [ec|outs] eqn:Houts; [done|]. simplify_eq/=.
    apply (parse_all_spec _ _ _ _ (parse_input_spec _)) in Hins. apply parse_outputs_spec in Houts.
    apply orb_false_iff in Hv as [Hv0 Hv3]. split_and!; try done; lia.
  - intros (-> & -> & Hv0 & Hv3 & Hins & Houts).
    apply (parse_all_spec _ _ _ _ (parse_input_spec _)) in Hins. apply parse_outputs_spec in Houts.
    destruct (_ || _) eqn:Hv; [apply orb_true_iff in Hv; lia|]. rewrite Hins, Houts. by destruct tx.
Qed.

Example parse_transaction_example :
  parse_transaction 0 5 "bc" 2100000000000000 []
    (array_t [object_t [("data", string_t "00ff")]; object_t [("bc1q", number_t PrimFloat.one)]])
    PrimFloat.zero true PrimFloat.one =
  inr (RawTransaction 1 [] [(0, [0; 255]); (100000000, [98; 99; 49; 113])] 0).
Proof. vm_compute. reflexivity. Qed.
