(* ===== verification/BlockStats.v ===== *)
(** Block statistics (src/serializers/bitcoind_block_stats.cpp).

    Sums are of 64-bit unsigned integers, the cuts of the percentiles are machine
    floating point numbers. *)
From stdpp Require Import sorting.
From S2P Require Import Prelude Rpc Errors System FeeHistogram.

(** ** Arithmetic *)

Definition max_uint64 : Z := 2 ^ 64 - 1.
Definition add64 (a b : Z) : Z := (a + b) mod 2 ^ 64.
Definition mul64 (a b : Z) : Z := (a * b) mod 2 ^ 64.

(** [std::ranges::sort] of integers, and of pairs in lexicographic order. *)
Definition sort_values (values : list Z) : list Z := merge_sort (≤) values.

Definition pair_le (x y : Z * Z) : Prop := x.1 < y.1 ∨ (x.1 = y.1 ∧ x.2 <= y.2).

#[global] Instance pair_le_dec : RelDecision pair_le.
Proof. intros x y. unfold pair_le. apply _. Defined.

Definition sort_pairs (pairs : list (Z * Z)) : list (Z * Z) := merge_sort pair_le pairs.

(** [values.at(index)], of an index in range. *)
Definition at_ (values : list Z) (index : Z) : Z := default 0 (values !! Z.to_nat index).

Definition truncated_median (values : list Z) : Z :=
  match values with
  | [] => 0
  | _ =>
      let values := sort_values values in
      let middle := Z.of_nat (length values) / 2 in
      if Z.even (Z.of_nat (length values))
      then add64 (at_ values (middle - 1)) (at_ values middle) / 2
      else at_ values middle
  end.

(** The cuts of the percentiles. *)
Definition cuts (total_weight : Z) : list double :=
  let total := to_floating total_weight in
  [PrimFloat.div total (to_floating 10);
   PrimFloat.div total (to_floating 4);
   PrimFloat.div total (to_floating 2);
   PrimFloat.div (PrimFloat.mul (to_floating 3) total) (to_floating 4);
   PrimFloat.div (PrimFloat.mul (to_floating 9) total) (to_floating 10)].

(** The inner loop: the rate at each cut that is reached, and the cuts left. *)
Fixpoint take_cuts (rate : Z) (cumulative : Z) (remaining : list double) : list Z * list double :=
  match remaining with
  | [] => ([], [])
  | cut :: rest =>
      if PrimFloat.leb cut (to_floating cumulative) then
        let '(out, rest) := take_cuts rate cumulative rest in (rate :: out, rest)
      else ([], remaining)
  end.

(** The loop over the rates. *)
Fixpoint percentile_loop (rates : list (Z * Z)) (cumulative : Z) (remaining : list double) :
    list Z * list double :=
  match rates with
  | [] => ([], remaining)
  | (rate, weight) :: rates =>
      let cumulative := add64 cumulative weight in
      let '(out, remaining) := take_cuts rate cumulative remaining in
      let '(more, remaining) := percentile_loop rates cumulative remaining in
      ((out ++ more)%list, remaining)
  end.

Definition fee_rate_percentiles (rates : list (Z * Z)) (total_weight : Z) : list Z :=
  match rates with
  | [] => replicate 5 0
  | _ =>
      let rates := sort_pairs rates in
      let '(out, remaining) := percentile_loop rates 0 (cuts total_weight) in
      (out ++ replicate (length remaining) (default 0 (last rates.*1)))%list
  end.

(** ** The block *)

(** What the statistics read of a transaction: its inputs are the values of the
    outputs they spend, its outputs are values and whether they are unspendable. *)
Record stats_tx := StatsTx {
  is_coinbase : bool;
  input_values : list Z;
  output_values : list (Z * bool);
  serialized_size : Z;
  weight : Z;
  is_segregated : bool;
}.

(** [chain::light_weight_factor], and [delta] of unsigned integers. *)
Class StatsMath := {
  light_weight_factor : Z;
  delta : Z → Z → value_t;
}.

Record stats := Stats {
  total_output : Z; total_fee : Z; max_fee : Z; max_fee_rate : Z;
  min_fee : Z; min_fee_rate : Z;
  inputs : Z; outputs : Z; utxos : Z;
  max_tx_size : Z; min_tx_size : Z;
  total_size : Z; total_weight : Z;
  witness_txs : Z; witness_size : Z; witness_weight : Z;
  fees : list Z; sizes : list Z;
  rates : list (Z * Z);
}.

Definition stats_start : stats :=
  Stats 0 0 0 0 max_uint64 max_uint64 0 0 0 0 max_uint64 0 0 0 0 0 [] [] [].

Section BlockStats.
Context `{Text} `{SizeMath} `{StatsMath}.

Definition sum64 (values : list Z) : Z := foldl add64 0 values.

(** The outputs that add to the utxo set. *)
Definition spendable (height : Z) (outs : list (Z * bool)) : Z :=
  if height =? 0 then 0 else Z.of_nat (length (filter (λ out, out.2 = false) outs)).

(** The body of the loop over the transactions. *)
Definition stats_step (height : Z) (s : stats) (tx : stats_tx) : stats :=
  let tx_total_output := sum64 (output_values tx).*1 in
  let utxos' := add64 (utxos s) (spendable height (output_values tx)) in
  let outputs' := add64 (outputs s) (Z.of_nat (length (output_values tx))) in
  if is_coinbase tx then
    Stats (total_output s) (total_fee s) (max_fee s) (max_fee_rate s) (min_fee s) (min_fee_rate s)
      (inputs s) outputs' utxos' (max_tx_size s) (min_tx_size s) (total_size s) (total_weight s)
      (witness_txs s) (witness_size s) (witness_weight s) (fees s) (sizes s) (rates s)
  else
    let tx_size := serialized_size tx in
    let w := weight tx in
    let fee := floored_subtract (sum64 (input_values tx)) tx_total_output in
    let rate := if w =? 0 then 0 else mul64 light_weight_factor fee / w in
    Stats (add64 (total_output s) tx_total_output) (add64 (total_fee s) fee)
      (Z.max (max_fee s) fee) (Z.max (max_fee_rate s) rate)
      (Z.min (min_fee s) fee) (Z.min (min_fee_rate s) rate)
      (add64 (inputs s) (Z.of_nat (length (input_values tx)))) outputs' utxos'
      (Z.max (max_tx_size s) tx_size) (Z.min (min_tx_size s) tx_size)
      (add64 (total_size s) tx_size) (add64 (total_weight s) w)
      (if is_segregated tx then add64 (witness_txs s) 1 else witness_txs s)
      (if is_segregated tx then add64 (witness_size s) tx_size else witness_size s)
      (if is_segregated tx then add64 (witness_weight s) w else witness_weight s)
      (fees s ++ [fee])%list (sizes s ++ [tx_size])%list (rates s ++ [(rate, w)])%list.

Definition collect_stats (height : Z) (txs : list stats_tx) : stats :=
  foldl (stats_step height) stats_start txs.

(** [sub1(txs.size())]. *)
Definition paying (txs : list stats_tx) : Z := (Z.of_nat (length txs) - 1) mod 2 ^ 64.

Definition average (count total : Z) : Z := if count =? 0 then 0 else total / count.
Definition or_zero (n : Z) : Z := if n =? max_uint64 then 0 else n.

Definition block_stats (txs : list stats_tx) (hash : hash_digest) (time height median_time subsidy : Z) :
    object :=
  let s := collect_stats height txs in
  let n := paying txs in
  [("avgfee", uint64_t (average n (total_fee s)));
   ("avgfeerate", uint64_t (average (total_weight s) (mul64 light_weight_factor (total_fee s))));
   ("avgtxsize", uint64_t (average n (total_size s)));
   ("blockhash", string_t (encode_hash hash));
   ("feerate_percentiles", array_t (uint64_t <$> fee_rate_percentiles (rates s) (total_weight s)));
   ("height", uint64_t height);
   ("ins", uint64_t (inputs s));
   ("maxfee", uint64_t (max_fee s));
   ("maxfeerate", uint64_t (max_fee_rate s));
   ("maxtxsize", uint64_t (max_tx_size s));
   ("medianfee", uint64_t (truncated_median (fees s)));
   ("mediantime", uint32_t median_time);
   ("mediantxsize", uint64_t (truncated_median (sizes s)));
   ("minfee", uint64_t (or_zero (min_fee s)));
   ("minfeerate", uint64_t (or_zero (min_fee_rate s)));
   ("mintxsize", uint64_t (or_zero (min_tx_size s)));
   ("outs", uint64_t (outputs s));
   ("subsidy", uint64_t subsidy);
   ("swtotal_size", uint64_t (witness_size s));
   ("swtotal_weight", uint64_t (witness_weight s));
   ("swtxs", uint64_t (witness_txs s));
   ("time", uint32_t time);
   ("total_out", uint64_t (total_output s));
   ("total_size", uint64_t (total_size s));
   ("total_weight", uint64_t (total_weight s));
   ("totalfee", uint64_t (total_fee s));
   ("txs", uint64_t (Z.of_nat (length txs)));
   ("utxo_increase", delta (outputs s) (inputs s));
   ("utxo_increase_actual", delta (utxos s) (inputs s))].

End BlockStats.

(** ** The median *)

Lemma sort_values_sorted values : StronglySorted (≤) (sort_values values).
Proof. apply Sorted_StronglySorted, Sorted_merge_sort; [intros ???; lia|]. intros x y; lia. Qed.

Lemma sort_values_perm values : sort_values values ≡ₚ values.
Proof. apply merge_sort_Permutation. Qed.

Lemma sorted_lookup l i j x y :
  StronglySorted (≤) l → (i <= j)%nat → l !! i = Some x → l !! j = Some y → x <= y.
Proof.
  intros Hs. revert i j. induction Hs as [|a l _ IH Hall]; intros i j Hij; [by rewrite lookup_nil|].
  destruct i as [|i], j as [|j]; simpl; intros Hx Hy; simplify_eq; [lia| |lia|].
  - rewrite Forall_forall in Hall. apply Hall. by eapply list_elem_of_lookup_2.
  - by apply (IH i j); [lia|..].
Qed.

(** The values that are at most, or at least, a value. *)
Definition count_le (m : Z) (values : list Z) : nat := length (filter (λ v, v <= m) values).
Definition count_ge (m : Z) (values : list Z) : nat := length (filter (λ v, m <= v) values).

Lemma count_prefix (P : Z → Prop) `{!∀ v, Decision (P v)} l n :
  (n <= length l)%nat → (∀ i x, (i < n)%nat → l !! i = Some x → P x) →
  (n <= length (filter P l))%nat.
Proof.
  revert n. induction l as [|a l IH]; intros [|n] Hn HP; simpl in *; try lia.
  rewrite filter_cons_True by (apply (HP 0%nat a); [lia|done]). simpl. apply le_n_S, IH; [lia|].
  intros i x Hi Hx. apply (HP (S i) x); [lia|done].
Qed.

Lemma count_suffix (P : Z → Prop) `{!∀ v, Decision (P v)} l n :
  (∀ i x, (n <= i)%nat → l !! i = Some x → P x) → (length l - n <= length (filter P l))%nat.
Proof.
  revert n. induction l as [|a l IH]; intros n HP; simpl in *; [lia|].
  destruct n as [|n].
  - rewrite filter_cons_True by (apply (HP 0%nat a); [lia|done]). simpl. apply le_n_S.
    specialize (IH 0%nat). rewrite Nat.sub_0_r in IH. apply IH. intros i x _ Hx. apply (HP (S i) x); [lia|done].
  - etrans; [apply (IH n)|].
    + intros i x Hi Hx. apply (HP (S i) x); [lia|done].
    + rewrite filter_cons. case_decide; simpl; lia.
Qed.

(** The half of a size, and its parity. *)
Lemma half_of n :
  ∃ k, Z.of_nat n / 2 = Z.of_nat k ∧
    ((n = 2 * k ∧ Z.even (Z.of_nat n) = true) ∨ (n = 2 * k + 1 ∧ Z.even (Z.of_nat n) = false))%nat.
Proof.
  exists (n / 2)%nat. rewrite Nat2Z.inj_div. split; [done|].
  pose proof (Nat.div_mod_eq n 2) as Hd. pose proof (Nat.mod_upper_bound n 2 ltac:(lia)).
  destruct (n mod 2)%nat as [|[|]] eqn:Hm; [left|right|lia]; (split; [lia|]).
  - replace (Z.of_nat n) with (2 * Z.of_nat (n / 2)) by lia. by rewrite Z.even_mul.
  - replace (Z.of_nat n) with (2 * Z.of_nat (n / 2) + 1) by lia. by rewrite Z.even_add, Z.even_mul.
Qed.

Lemma truncated_median_spec values :
  values ≠ [] → Forall (λ v, 0 <= v < 2 ^ 63) values →
  let m := truncated_median values in
  (length values <= 2 * count_le m values)%nat ∧ (length values <= 2 * count_ge m values)%nat ∧
  ∃ lo hi, lo ∈ values ∧ hi ∈ values ∧ lo <= m <= hi.
Proof.
  intros Hne Hrange. set (l := sort_values values).
  assert (length l = length values) as Hlen by (apply Permutation_length, sort_values_perm).
  assert (0 < length l)%nat as Hpos by (rewrite Hlen; destruct values; simpl; [done|lia]).
  assert (∀ m, count_le m values = count_le m l) as Hle.
  { intros m. unfold count_le. apply Permutation_length. unfold l. by rewrite (sort_values_perm values). }
  assert (∀ m, count_ge m values = count_ge m l) as Hge.
  { intros m. unfold count_ge. apply Permutation_length. unfold l. by rewrite (sort_values_perm values). }
  assert (∀ i x, l !! i = Some x → x ∈ values ∧ 0 <= x < 2 ^ 63) as Hin.
  { intros i x Hx. assert (x ∈ values) as Hx'.
    { rewrite <-(sort_values_perm values). by eapply list_elem_of_lookup_2. }
    split; [done|]. rewrite Forall_forall in Hrange. auto. }
  pose proof (sort_values_sorted values) as Hs. fold l in Hs.
  assert (truncated_median values =
    if Z.even (Z.of_nat (length l))
    then add64 (at_ l (Z.of_nat (length l) / 2 - 1)) (at_ l (Z.of_nat (length l) / 2)) / 2
    else at_ l (Z.of_nat (length l) / 2)) as Hmed by (by destruct values).
  cbv zeta. rewrite Hmed, <-Hlen. clear Hmed.
  destruct (half_of (length l)) as (k & -> & Hk).
  unfold at_. destruct Hk as [[Hn ->]|[Hn ->]].
  - destruct (lookup_lt_is_Some_2 l (k - 1)) as [a Ha]; [lia|].
    destruct (lookup_lt_is_Some_2 l k) as [b Hb]; [lia|].
    replace (Z.to_nat (Z.of_nat k - 1)) with (k - 1)%nat by lia. rewrite Nat2Z.id, Ha, Hb. simpl.
    destruct (Hin _ _ Ha) as [Hina Hra], (Hin _ _ Hb) as [Hinb Hrb].
    assert (a <= b) as Hab by (by apply (sorted_lookup l (k - 1) k); [|lia|..]).
    unfold add64. rewrite Z.mod_small by lia.
    assert (a <= (a + b) / 2 <= b) as Hm.
    { split; [apply Z.div_le_lower_bound; lia|]. apply Z.lt_succ_r, Z.div_lt_upper_bound; lia. }
    rewrite Hle, Hge. split_and!.
    + enough (k <= count_le ((a + b) / 2) l)%nat by lia. apply count_prefix; [lia|].
      intros i x Hi Hx. etrans; [apply (sorted_lookup l i (k - 1) x a); [done|lia|done..]|lia].
    + enough (length l - k <= count_ge ((a + b) / 2) l)%nat by lia. apply count_suffix.
      intros i x Hi Hx. etrans; [apply Hm|]. by apply (sorted_lookup l k i b x).
    + exists a, b. done.
  - destruct (lookup_lt_is_Some_2 l k) as [b Hb]; [lia|]. rewrite Nat2Z.id, Hb. simpl.
    rewrite Hle, Hge. split_and!.
    + enough (S k <= count_le b l)%nat by lia. apply count_prefix; [lia|].
      intros i x Hi Hx. apply (sorted_lookup l i k x b); [done|lia|done..].
    + enough (length l - k <= count_ge b l)%nat by lia. apply count_suffix.
      intros i x Hi Hx. by apply (sorted_lookup l k i b x).
    + exists b, b. destruct (Hin _ _ Hb). split_and!; [done..|lia|lia].
Qed.

(** ** The percentiles *)

Lemma take_cuts_spec rate cumulative remaining :
  let '(out, rest) := take_cuts rate cumulative remaining in
  out = replicate (length out) rate ∧ (length out + length rest = length remaining)%nat.
Proof.
  induction remaining as [|cut remaining IH]; simpl; [done|].
  destruct (PrimFloat.leb _ _); [|done]. destruct (take_cuts _ _ _) as [out rest]. simpl.
  destruct IH as [Hout Hlen]. split; [by f_equal|lia].
Qed.

Lemma sorted_app_le (l k : list Z) m :
  StronglySorted (≤) l → StronglySorted (≤) k → Forall (λ x, x <= m) l → Forall (λ x, m <= x) k →
  StronglySorted (≤) (l ++ k).
Proof.
  intros Hl Hk Hlm Hkm. induction Hl as [|a l Hl IH Ha]; simpl; [done|].
  apply Forall_cons in Hlm as [Ham Hlm]. constructor; [by apply IH|]. apply Forall_app. split; [done|].
  eapply Forall_impl; [exact Hkm|]. simpl. lia.
Qed.

Lemma sorted_replicate n (x : Z) : StronglySorted (≤) (replicate n x).
Proof. induction n; simpl; constructor; [done|]. apply Forall_replicate. lia. Qed.

Lemma percentile_loop_spec rates cumulative remaining :
  StronglySorted (≤) rates.*1 →
  let '(out, rest) := percentile_loop rates cumulative remaining in
  StronglySorted (≤) out ∧ Forall (λ x, x ∈ rates.*1) out ∧
  (length out + length rest = length remaining)%nat.
Proof.
  revert cumulative remaining. induction rates as [|[rate w] rates IH]; intros cumulative remaining Hs; simpl.
  { split_and!; [constructor..|done]. }
  apply StronglySorted_inv in Hs as [Hs Hall].
  pose proof (take_cuts_spec rate (add64 cumulative w) remaining) as Ht.
  destruct (take_cuts _ _ _) as [out rest]. destruct Ht as [Hout Hlen].
  specialize (IH (add64 cumulative w) rest Hs).
  destruct (percentile_loop _ _ _) as [more rest']. destruct IH as (Hsm & Hmem & Hlen').
  rewrite Hout. split_and!.
  - apply (sorted_app_le _ _ rate); [apply sorted_replicate|done| |].
    + apply Forall_replicate. lia.
    + eapply Forall_impl; [exact Hmem|]. intros x Hx. rewrite Forall_forall in Hall. by apply Hall.
  - apply Forall_app. split.
    + apply Forall_replicate. set_solver.
    + eapply Forall_impl; [exact Hmem|]. set_solver.
  - rewrite !length_app, !length_replicate. lia.
Qed.

Lemma sort_pairs_sorted pairs : StronglySorted (≤) (sort_pairs pairs).*1.
Proof.
  assert (StronglySorted pair_le (sort_pairs pairs)) as Hs.
  { apply Sorted_StronglySorted, Sorted_merge_sort; unfold pair_le; [intros ???; lia|intros x y; lia]. }
  induction Hs as [|x l _ IH Hall]; simpl; constructor; [done|].
  apply Forall_fmap. eapply Forall_impl; [exact Hall|]. unfold pair_le. simpl. intros y. lia.
Qed.

Lemma fee_rate_percentiles_spec rates total_weight :
  rates ≠ [] →
  let out := fee_rate_percentiles rates total_weight in
  length out = 5%nat ∧ StronglySorted (≤) out ∧ Forall (λ x, x ∈ rates.*1) out.
Proof.
  intros Hne. set (l := sort_pairs rates). assert (l ≡ₚ rates) as Hperm by apply merge_sort_Permutation.
  assert (fee_rate_percentiles rates total_weight =
    let '(out, remaining) := percentile_loop l 0 (cuts total_weight) in
    (out ++ replicate (length remaining) (default 0 (last l.*1)))%list) as -> by (by destruct rates).
  pose proof (percentile_loop_spec l 0 (cuts total_weight) (sort_pairs_sorted rates)) as Hl.
  destruct (percentile_loop l 0 _) as [out rest]. destruct Hl as (Hs & Hmem & Hlen). cbv zeta.
  destruct (last l.*1) as [m|] eqn:Hlast; cycle 1.
  { apply last_None in Hlast. destruct l as [|p l']; [|done].
    by apply Permutation_nil_l in Hperm. }
  simpl. rewrite last_lookup in Hlast.
  assert (∀ x, x ∈ l.*1 → x <= m) as Hmax.
  { intros x [i Hi]%list_elem_of_lookup_1. apply (sorted_lookup l.*1 i (pred (length l.*1))); [|
      apply lookup_lt_Some in Hi; lia|done..]. apply sort_pairs_sorted. }
  assert (∀ x, x ∈ l.*1 → x ∈ rates.*1) as Hin.
  { intros x. by rewrite (fmap_Permutation fst _ _ Hperm). }
  split_and!.
  - by rewrite length_app, length_replicate.
  - apply (sorted_app_le _ _ m); [done|apply sorted_replicate| |apply Forall_replicate; lia].
    eapply Forall_impl; [exact Hmem|]. done.
  - apply Forall_app. split; [eapply Forall_impl; [exact Hmem|done]|].
    apply Forall_replicate, Hin. by eapply list_elem_of_lookup_2.
Qed.

(** ** The totals *)

Section Totals.
Context `{SizeMathLaws} `{StatsMath}.

Definition payers (txs : list stats_tx) : list stats_tx := filter (λ tx, is_coinbase tx = false) txs.

Definition fee_of (tx : stats_tx) : Z :=
  floored_subtract (sum64 (input_values tx)) (sum64 (output_values tx).*1).

Definition rate_of (tx : stats_tx) : Z :=
  if weight tx =? 0 then 0 else mul64 light_weight_factor (fee_of tx) / weight tx.

(** The loop collects the transactions other than the coinbase. *)
Lemma collect_stats_spec height txs :
  let s := collect_stats height txs in let p := payers txs in
  fees s = fee_of <$> p ∧ sizes s = serialized_size <$> p ∧
  rates s = (λ tx, (rate_of tx, weight tx)) <$> p ∧
  total_fee s = sum64 (fees s) ∧ total_size s = sum64 (sizes s) ∧ total_weight s = sum64 (weight <$> p) ∧
  max_fee s = foldl Z.max 0 (fees s) ∧ min_fee s = foldl Z.min max_uint64 (fees s) ∧
  max_tx_size s = foldl Z.max 0 (sizes s) ∧ min_tx_size s = foldl Z.min max_uint64 (sizes s) ∧
  max_fee_rate s = foldl Z.max 0 (rates s).*1 ∧ min_fee_rate s = foldl Z.min max_uint64 (rates s).*1.
Proof.
  unfold collect_stats, payers, sum64. induction txs as [|tx txs IH] using rev_ind; [done|].
  rewrite foldl_app, filter_app. simpl. set (s := foldl (stats_step height) stats_start txs) in *.
  destruct IH as (Hf & Hs & Hr & Htf & Hts & Htw & Hmf & Hnf & Hms & Hns & Hmr & Hnr).
  unfold stats_step. destruct (is_coinbase tx) eqn:Hc.
  - rewrite filter_cons_False, filter_nil, !app_nil_r by congruence. simpl. by split_and!.
  - rewrite filter_cons_True, filter_nil, !fmap_app by congruence. simpl.
    fold (fee_of tx). fold (rate_of tx).
    rewrite Hf, Hs, Hr, Htf, Hts, Htw, Hmf, Hnf, Hms, Hns, Hmr, Hnr, Hf, Hs, Hr.
    rewrite !foldl_app, !fmap_app. simpl. rewrite !foldl_app. simpl. by split_and!.
Qed.

End Totals.

(** ** Bounds *)

Lemma sum64_exact l :
  Forall (λ x, 0 <= x) l → sum_with (λ x, x) l < 2 ^ 64 → sum64 l = sum_with (λ x, x) l.
Proof.
  unfold sum64. intros Hl. induction l as [|x l IH] using rev_ind; [done|].
  apply Forall_app in Hl as [Hl [Hx _]%Forall_cons]. rewrite foldl_app, sum_with_app. simpl.
  pose proof (sum_with_nonneg (λ x, x) l Hl). intros Hsum.
  rewrite IH by (done || lia). unfold add64. rewrite Z.mod_small; lia.
Qed.

Lemma foldl_max_ge l a x : x ∈ a :: l → x <= foldl Z.max a l.
Proof.
  revert a x. induction l as [|y l IH]; intros a x; simpl; [intros ->%list_elem_of_singleton; lia|].
  intros [->|[->|Hx]%elem_of_cons]%elem_of_cons.
  - etrans; [|apply IH, list_elem_of_here]. lia.
  - etrans; [|apply IH, list_elem_of_here]. lia.
  - apply IH. by right.
Qed.

Lemma foldl_min_le l a x : x ∈ a :: l → foldl Z.min a l <= x.
Proof.
  revert a x. induction l as [|y l IH]; intros a x; simpl; [intros ->%list_elem_of_singleton; lia|].
  intros [->|[->|Hx]%elem_of_cons]%elem_of_cons.
  - etrans; [apply IH, list_elem_of_here|]. lia.
  - etrans; [apply IH, list_elem_of_here|]. lia.
  - apply IH. by right.
Qed.

Lemma sum_bounds {A} (f g h : A → Z) l :
  Forall (λ x, f x <= g x <= h x) l → sum_with f l <= sum_with g l <= sum_with h l.
Proof. induction 1; simpl in *; lia. Qed.

Lemma sum_scale {A} (c : Z) (f : A → Z) l : sum_with (λ x, c * f x) l = c * sum_with f l.
Proof. induction l; simpl; lia. Qed.

(** Least and greatest of a list of 64-bit values, with the starts of the code. *)
Definition least (l : list Z) : Z := or_zero (foldl Z.min max_uint64 l).
Definition greatest (l : list Z) : Z := foldl Z.max 0 l.

Lemma least_greatest l x :
  Forall (λ x, 0 <= x < max_uint64) l → x ∈ l → least l <= x <= greatest l.
Proof.
  intros Hl Hx. unfold least, greatest, or_zero.
  pose proof (foldl_min_le l max_uint64 x ltac:(set_solver)).
  pose proof (foldl_max_ge l 0 x ltac:(set_solver)).
  rewrite Forall_forall in Hl. specialize (Hl x Hx). case_match; lia.
Qed.

Lemma average_between l :
  l ≠ [] → Forall (λ x, 0 <= x < max_uint64) l → sum_with (λ x, x) l < 2 ^ 64 →
  least l <= average (Z.of_nat (length l)) (sum64 l) <= greatest l.
Proof.
  intros Hne Hl Hsum.
  rewrite sum64_exact by (done || (eapply Forall_impl; [exact Hl|]; simpl; lia)).
  assert (0 < Z.of_nat (length l)) as Hlen by (destruct l; [done|simpl; lia]).
  unfold average. destruct (Z.eqb_spec (Z.of_nat (length l)) 0); [lia|].
  destruct (sum_bounds (λ _, least l) (λ x, x) (λ _, greatest l) l) as [Hlo Hhi].
  { apply Forall_forall. intros x Hx. by apply least_greatest. }
  assert (∀ c, sum_with (λ _ : Z, c) l = c * Z.of_nat (length l)) as Hc.
  { intros c. clear. induction l; simpl; lia. }
  rewrite Hc in Hlo, Hhi. split; [apply Z.div_le_lower_bound; lia|].
  apply Z.lt_succ_r, Z.div_lt_upper_bound; lia.
Qed.

Lemma median_between l :
  l ≠ [] → Forall (λ x, 0 <= x < 2 ^ 63) l → least l <= truncated_median l <= greatest l.
Proof.
  intros Hne Hl. destruct (truncated_median_spec l Hne Hl) as (_ & _ & lo & hi & Hlo & Hhi & Hm).
  assert (Forall (λ x, 0 <= x < max_uint64) l) as Hl'.
  { eapply Forall_impl; [exact Hl|]. unfold max_uint64. simpl. lia. }
  pose proof (least_greatest l lo Hl' Hlo). pose proof (least_greatest l hi Hl' Hhi). lia.
Qed.

Section FeeRates.
Context `{SizeMathLaws} `{StatsMath}.

Lemma fee_of_range tx : 0 <= fee_of tx.
Proof. unfold fee_of. rewrite floored_subtract_spec. lia. Qed.

(** What the fees, sizes and weights of a block are: no sum overflows. *)
Record stats_range (p : list stats_tx) : Prop := {
  range_fees : sum_with (λ tx, light_weight_factor * fee_of tx) p < 2 ^ 63;
  range_sizes : sum_with serialized_size p < 2 ^ 63;
  range_weights : sum_with weight p < 2 ^ 63;
  range_size : Forall (λ tx, 0 <= serialized_size tx) p;
  range_weight : Forall (λ tx, 0 < weight tx) p;
}.

Lemma sum_member {A} (f : A → Z) l x : Forall (λ x, 0 <= f x) l → x ∈ l → f x <= sum_with f l.
Proof.
  intros Hl. induction Hl as [|y l Hy Hl IH]; [set_solver|]. pose proof (sum_with_nonneg f l Hl).
  simpl. intros [->|Hx]%elem_of_cons; [lia|]. specialize (IH Hx). lia.
Qed.

Lemma rate_bounds p tx :
  1 <= light_weight_factor → stats_range p → tx ∈ p →
  0 <= rate_of tx < max_uint64 ∧
  rate_of tx * weight tx <= light_weight_factor * fee_of tx < (rate_of tx + 1) * weight tx.
Proof.
  intros Hfactor Hp Htx. pose proof (fee_of_range tx) as Hfee.
  assert (light_weight_factor * fee_of tx < 2 ^ 63) as Hsmall.
  { eapply Z.le_lt_trans; [|apply (range_fees p Hp)].
    apply (sum_member (λ tx, light_weight_factor * fee_of tx)); [|done].
    apply Forall_forall. intros y _. pose proof (fee_of_range y). nia. }
  pose proof (range_weight p Hp) as Hw. rewrite Forall_forall in Hw. specialize (Hw tx Htx).
  assert (0 <= light_weight_factor * fee_of tx) as Hpos by (apply Z.mul_nonneg_nonneg; lia).
  unfold rate_of. destruct (Z.eqb_spec (weight tx) 0); [lia|]. unfold mul64.
  rewrite Z.mod_small by lia. revert Hsmall Hpos. generalize (light_weight_factor * fee_of tx).
  intros x Hsmall Hpos. pose proof (Z.div_mod x (weight tx) ltac:(lia)) as Hd.
  pose proof (Z.mod_pos_bound x (weight tx) Hw). pose proof (Z.div_pos x (weight tx) Hpos Hw).
  assert (x / weight tx <= x) by (apply Z.div_le_upper_bound; nia). unfold max_uint64. lia.
Qed.

Lemma sum_with_fmap {A} (f : A → Z) l : sum_with (λ x, x) (f <$> l) = sum_with f l.
Proof. induction l; simpl; [done|]. by f_equal. Qed.

(** The average fee rate is between the least and the greatest. *)
Lemma fee_rate_between p :
  1 <= light_weight_factor → p ≠ [] → stats_range p →
  least (rate_of <$> p) <=
    average (sum64 (weight <$> p)) (mul64 light_weight_factor (sum64 (fee_of <$> p))) <=
    greatest (rate_of <$> p).
Proof.
  intros Hfactor Hne Hp.
  assert (Forall (λ x, 0 <= x) (fee_of <$> p)) as Hfees.
  { apply Forall_fmap, Forall_forall. intros tx _. apply fee_of_range. }
  assert (Forall (λ x, 0 <= x) (weight <$> p)) as Hweights.
  { apply Forall_fmap. eapply Forall_impl; [apply (range_weight p Hp)|]. simpl. lia. }
  pose proof (range_fees p Hp) as Hrf. rewrite sum_scale in Hrf. pose proof (range_weights p Hp) as Hrw.
  assert (0 <= sum_with fee_of p) as Hsf.
  { apply sum_with_nonneg, Forall_forall. intros tx _. apply fee_of_range. }
  assert (sum_with fee_of p <= light_weight_factor * sum_with fee_of p) as Hscaled.
  { rewrite <-(Z.mul_1_l (sum_with fee_of p)) at 1. apply Z.mul_le_mono_nonneg_r; lia. }
  rewrite !sum64_exact by (done || (rewrite sum_with_fmap; lia)). rewrite !sum_with_fmap. unfold mul64.
  rewrite Z.mod_small by lia.
  assert (0 < sum_with weight p) as Hwpos.
  { destruct p as [|tx p']; [done|]. pose proof (range_weight _ Hp) as Hw.
    apply Forall_cons in Hw as [Hw Hw']. simpl.
    pose proof (sum_with_nonneg weight p'). enough (0 <= sum_with weight p') by lia.
    apply sum_with_nonneg. eapply Forall_impl; [exact Hw'|]. simpl. lia. }
  unfold average. destruct (Z.eqb_spec (sum_with weight p) 0); [lia|].
  assert (∀ tx, tx ∈ p → least (rate_of <$> p) <= rate_of tx <= greatest (rate_of <$> p)) as Hbounds.
  { intros tx Htx. apply least_greatest; [|by apply list_elem_of_fmap_2].
    apply Forall_fmap, Forall_forall. intros y Hy. by apply (rate_bounds p). }
  destruct (sum_bounds (λ tx, least (rate_of <$> p) * weight tx)
    (λ tx, light_weight_factor * fee_of tx)
    (λ tx, (greatest (rate_of <$> p) + 1) * weight tx - 1) p) as [Hlo Hhi].
  { apply Forall_forall. intros tx Htx. destruct (rate_bounds p tx Hfactor Hp Htx) as [_ Hr].
    specialize (Hbounds tx Htx). pose proof (range_weight p Hp) as Hw. rewrite Forall_forall in Hw.
    specialize (Hw tx Htx). simpl in Hw. nia. }
  assert (sum_with (λ tx, (greatest (rate_of <$> p) + 1) * weight tx - 1) p =
    (greatest (rate_of <$> p) + 1) * sum_with weight p - Z.of_nat (length p)) as Hg.
  { generalize (greatest (rate_of <$> p)). clear. intros g. induction p; simpl; lia. }
  rewrite Hg in Hhi. rewrite !sum_scale in *.
  assert (0 < Z.of_nat (length p)) by (destruct p; [done|simpl; lia]).
  split; [apply Z.div_le_lower_bound; lia|]. apply Z.lt_succ_r, Z.div_lt_upper_bound; [lia|]. nia.
Qed.

Lemma payers_coinbase coinbase p :
  is_coinbase coinbase = true → Forall (λ tx, is_coinbase tx = false) p → payers (coinbase :: p) = p.
Proof.
  intros Hcoin Hpay. unfold payers. rewrite filter_cons_False by congruence.
  induction Hpay as [|tx p Htx _ IH]; [done|]. rewrite filter_cons_True by done. by f_equal.
Qed.

Lemma paying_coinbase coinbase p :
  Z.of_nat (length p) < 2 ^ 64 → paying (coinbase :: p) = Z.of_nat (length p).
Proof.
  intros Hcount. unfold paying. rewrite length_cons, Nat2Z.inj_succ.
  replace (Z.succ (Z.of_nat (length p)) - 1) with (Z.of_nat (length p)) by lia.
  apply Z.mod_small. lia.
Qed.

Lemma members_range {A} (f : A → Z) l :
  Forall (λ x, 0 <= f x) l → sum_with f l < 2 ^ 63 →
  Forall (λ x, 0 <= x < 2 ^ 63) (f <$> l) ∧ sum_with (λ x, x) (f <$> l) < 2 ^ 63.
Proof.
  intros Hl Hsum. rewrite sum_with_fmap. split; [|done]. apply Forall_fmap, Forall_forall.
  intros x Hx. pose proof (sum_member f l x Hl Hx). rewrite Forall_forall in Hl. specialize (Hl x Hx).
  simpl in *. lia.
Qed.

Lemma fees_range p :
  1 <= light_weight_factor → stats_range p →
  Forall (λ x, 0 <= x < 2 ^ 63) (fee_of <$> p) ∧ sum_with (λ x, x) (fee_of <$> p) < 2 ^ 63.
Proof.
  intros Hfactor Hp. assert (Forall (λ tx, 0 <= fee_of tx) p) as Hfees.
  { apply Forall_forall. intros tx _. apply fee_of_range. }
  apply members_range; [done|]. pose proof (range_fees p Hp) as Hrf. rewrite sum_scale in Hrf.
  pose proof (sum_with_nonneg fee_of p Hfees). eapply Z.le_lt_trans; [|exact Hrf].
  rewrite <-(Z.mul_1_l (sum_with fee_of p)) at 1. apply Z.mul_le_mono_nonneg_r; lia.
Qed.

Lemma sizes_range p :
  stats_range p →
  Forall (λ x, 0 <= x < 2 ^ 63) (serialized_size <$> p) ∧
  sum_with (λ x, x) (serialized_size <$> p) < 2 ^ 63.
Proof. intros Hp. apply members_range; apply Hp. Qed.

End FeeRates.

(** ** Properties *)

(** A number of the result. *)
Definition stat (name : string) (o : object) : Z :=
  match find_field name o with
  | Some (uint64_t n) => n
  | _ => -1
  end.

Definition between (o : object) (low name high : string) : Prop :=
  stat low o <= stat name o <= stat high o.

(** In the statistics of a block with one coinbase, whose sums do not overflow,
    averages and medians of fees, sizes and fee rates are between the minimum and
    the maximum of the other transactions; at least half of the fees are at most,
    and at least half at least, the median fee; and the five fee rate percentiles
    ascend and are rates of the block. *)
Lemma block_stats_correct `{Text} `{SizeMathLaws} `{StatsMath}
    coinbase p hash time height median_time subsidy :
  is_coinbase coinbase = true → Forall (λ tx, is_coinbase tx = false) p → p ≠ [] →
  1 <= light_weight_factor → stats_range p → Z.of_nat (length p) < 2 ^ 64 →
  let o := block_stats (coinbase :: p) hash time height median_time subsidy in
  between o "minfee" "avgfee" "maxfee" ∧ between o "minfee" "medianfee" "maxfee" ∧
  between o "mintxsize" "avgtxsize" "maxtxsize" ∧ between o "mintxsize" "mediantxsize" "maxtxsize" ∧
  between o "minfeerate" "avgfeerate" "maxfeerate" ∧
  (length p <= 2 * count_le (stat "medianfee" o) (fee_of <$> p))%nat ∧
  (length p <= 2 * count_ge (stat "medianfee" o) (fee_of <$> p))%nat ∧
  ∃ percentiles, find_field "feerate_percentiles" o = Some (array_t (uint64_t <$> percentiles)) ∧
    length percentiles = 5%nat ∧ StronglySorted (≤) percentiles ∧
    Forall (λ x, x ∈ rate_of <$> p) percentiles.
Proof.
  intros Hcoin Hpay Hne Hfactor Hrange Hcount.
  destruct (collect_stats_spec height (coinbase :: p)) as
    (Hf & Hs & Hr & Htf & Hts & Htw & Hmf & Hnf & Hms & Hns & Hmr & Hnr).
  rewrite (payers_coinbase coinbase p) in * by done.
  assert ((rates (collect_stats height (coinbase :: p))).*1 = rate_of <$> p) as Hr1.
  { rewrite Hr, <-list_fmap_compose. done. }
  destruct (fees_range p Hfactor Hrange) as [Hfees Hfsum], (sizes_range p Hrange) as [Hsizes Hssum].
  assert (∀ l : list Z, Forall (λ x, 0 <= x < 2 ^ 63) l → Forall (λ x, 0 <= x < max_uint64) l) as Hwide.
  { intros l Hl. eapply Forall_impl; [exact Hl|]. unfold max_uint64. simpl. lia. }
  assert (∀ f : stats_tx → Z, f <$> p ≠ []) as Hnil by (intros f; by destruct p).
  unfold between, stat. cbn [find_field block_stats String.eqb Ascii.eqb Bool.eqb].
  rewrite (paying_coinbase coinbase p Hcount), Htf, Hts, Htw, Hmf, Hnf, Hms, Hns, Hmr, Hnr, Hr1, Hf, Hs.
  fold (least (fee_of <$> p)). fold (greatest (fee_of <$> p)).
  fold (least (serialized_size <$> p)). fold (greatest (serialized_size <$> p)).
  fold (least (rate_of <$> p)). fold (greatest (rate_of <$> p)).
  destruct (truncated_median_spec (fee_of <$> p) (Hnil _) Hfees) as (Hcle & Hcge & _).
  rewrite length_fmap in Hcle, Hcge.
  pose proof (average_between (fee_of <$> p) (Hnil _) (Hwide _ Hfees) ltac:(lia)) as Haf.
  pose proof (average_between (serialized_size <$> p) (Hnil _) (Hwide _ Hsizes) ltac:(lia)) as Has.
  rewrite length_fmap in Haf, Has.
  pose proof (median_between (fee_of <$> p) (Hnil _) Hfees) as Hmedf.
  pose proof (median_between (serialized_size <$> p) (Hnil _) Hsizes) as Hmeds.
  pose proof (fee_rate_between p Hfactor Hne Hrange) as Hrates.
  split_and!; [apply Haf|apply Haf|apply Hmedf|apply Hmedf|apply Has|apply Has|apply Hmeds|apply Hmeds|
    apply Hrates|apply Hrates|done|done|].
  eexists. split; [reflexivity|]. rewrite <-Hr1. apply fee_rate_percentiles_spec. rewrite Hr. by destruct p.
Qed.

#[local] Instance example_stats : StatsMath := {
  light_weight_factor := 4;
  delta a b := int64_t (a - b);
}.

Definition example_coinbase : stats_tx := StatsTx true [] [(5000, false)] 100 400 false.
Definition example_txs : list stats_tx :=
  [StatsTx false [1000] [(900, false)] 250 800 true; StatsTx false [50; 60] [(80, false)] 150 600 false].

Lemma block_stats_correct_witness :
  let o := block_stats (example_coinbase :: example_txs) [] 0 7 0 5000 in
  stat "medianfee" o = 65 ∧ stat "avgfee" o = 65 ∧
  between o "minfee" "medianfee" "maxfee" ∧ between o "minfeerate" "avgfeerate" "maxfeerate".
Proof.
  split; [vm_compute; reflexivity|]. split; [vm_compute; reflexivity|].
  assert (stats_range example_txs) as Hrange
    by (split; [vm_compute; reflexivity..|by repeat constructor|by repeat constructor]).
  assert (Forall (λ tx, is_coinbase tx = false) example_txs) as Hpay by (by repeat constructor).
  assert (1 <= light_weight_factor) as Hfactor by (vm_compute; discriminate).
  destruct (block_stats_correct example_coinbase example_txs [] 0 7 0 5000 eq_refl Hpay ltac:(discriminate)
    Hfactor Hrange ltac:(reflexivity)) as (_ & Hmedian & _ & _ & Hrate & _).
  split; [exact Hmedian|exact Hrate].
Defined.
