(* ===== verification/Dispatch.v ===== *)
(** Dispatch of json-rpc requests to the protocols of a channel
    (protocol_rpc.hpp, protocol_bitcoind_dispatch.cpp, and the dispatch of
    protocol_bitcoind.cpp and protocol_btcd.cpp), and the senders of
    protocol_bitcoind.cpp.

    A channel delivers each request to its protocols in the order of their
    attachment. They share its state, of which the latch [claimed] is new for each
    request. *)
From S2P Require Import Prelude Rpc Errors System.

(** ** Requests and the channel *)

(** What the protocols read of a request: checks of its http headers, its json-rpc
    body if it has one, and the methods that its credential permits. *)
Record incoming := Incoming {
  allowed_host : bool;
  allowed_origin : bool;
  body : option request_t;
  permitted : string → bool;
}.

Record channel_t := Channel {
  claimed : bool;
  stopped : bool;
  authorized : bool;
}.

Definition set_claimed (c : channel_t) : channel_t := Channel true (stopped c) (authorized c).
Definition stop_channel (c : channel_t) : channel_t := Channel (claimed c) true (authorized c).

Inductive effect :=
  (** The handler of a method is invoked, of the interface with a number. *)
  | dispatched (interface : nat) (message : request_t)
  | sent_bad_host
  | sent_forbidden
  | sent_bad_request
  | sent_not_allowed
  | sent_ok
  (** A json-rpc error or (absent) result, in the context of a request. *)
  | sent_error (ec : code) (message : request_t)
  | sent_result (message : request_t)
  | stopped_with (ec : code).

Definition reaction : Type := channel_t * list effect.

(** A protocol, for the post and the websocket transport. *)
Record protocol := Protocol {
  handle_receive_post : incoming → channel_t → reaction;
  dispatch_websocket : incoming → channel_t → reaction;
}.

(** Codes of the network library. *)
Class NetworkErrors := {
  unauthorized : code;
}.

Section Dispatch.
Context `{NetworkErrors}.

(** [dispatcher.notify(message)] of an interface. *)
Context (notify : nat → request_t → code).

Definition stop_with (ec : code) (c : channel_t) : reaction := (stop_channel c, [stopped_with ec]).

Definition dispatch (interface : nat) (message : request_t) (c : channel_t) : reaction :=
  let ec := notify interface message in
  if is_error ec then stop_with ec c else (c, [dispatched interface message]).

(** [handle_receive_unknown] of protocol_http.cpp precedes websocket dispatch. *)
Definition handle_receive_unknown (p : protocol) (i : incoming) (c : channel_t) : reaction :=
  if stopped c then (c, []) else dispatch_websocket p i c.

(** *** protocol_bitcoind_dispatch: a subgroup of methods *)

Definition subgroup_post (n : nat) (contains : string → bool) (i : incoming) (c : channel_t) :
    reaction :=
  if stopped c then (c, [])
  else if claimed c then (c, [])
  else
    match body i with
    | Some message =>
        if negb (allowed_host i) || negb (allowed_origin i) then (c, [])
        else if negb (contains (method message)) then (c, [])
        else
          let c := set_claimed c in
          if negb (permitted i (method message)) then (c, [sent_forbidden])
          else dispatch n message c
    | None => (c, [])
    end.

Definition subgroup_websocket (n : nat) (contains : string → bool) (i : incoming) (c : channel_t) :
    reaction :=
  if claimed c then (c, [])
  else if negb (authorized c) then (c, [])
  else
    match body i with
    | Some message =>
        if negb (contains (method message)) then (c, [])
        else
          let c := set_claimed c in
          if negb (permitted i (method message)) then stop_with unauthorized c
          else dispatch n message c
    | None => (c, [])
    end.

Definition subgroup (n : nat) (contains : string → bool) : protocol :=
  Protocol (subgroup_post n contains) (subgroup_websocket n contains).

(** *** protocol_bitcoind: the terminal responder *)

Definition terminal_post (i : incoming) (c : channel_t) : reaction :=
  if stopped c then (c, [])
  else if claimed c then (c, [])
  else if negb (allowed_host i) then (c, [sent_bad_host])
  else if negb (allowed_origin i) then (c, [sent_forbidden])
  else
    match body i with
    | None => (c, [sent_bad_request])
    | Some message =>
        if negb (permitted i (method message)) then (c, [sent_forbidden])
        else (c, [sent_error (BitcoindError.make BitcoindError.method_not_found) message])
    end.

Definition terminal_websocket (i : incoming) (c : channel_t) : reaction :=
  if claimed c then (c, [])
  else if negb (authorized c) then stop_with unauthorized c
  else
    match body i with
    | None => stop_with (Error.make Error.invalid_argument) c
    | Some message =>
        if negb (permitted i (method message)) then stop_with unauthorized c
        else (c, [sent_error (BitcoindError.make BitcoindError.method_not_found) message])
    end.

Definition terminal : protocol := Protocol terminal_post terminal_websocket.

Definition terminal_get (c : channel_t) : reaction :=
  if stopped c then (c, [])
  else if claimed c then (c, []) else (c, [sent_not_allowed]).

Definition terminal_options (i : incoming) (c : channel_t) : reaction :=
  if stopped c then (c, [])
  else if negb (allowed_host i) then (c, [sent_bad_host])
  else if negb (allowed_origin i) then (c, [sent_forbidden])
  else (c, [sent_ok]).

(** *** protocol_btcd: attached first, authorizes in band *)

Definition btcd_post (n : nat) (contains : string → bool) (i : incoming) (c : channel_t) : reaction :=
  if stopped c then (c, [])
  else
    match body i with
    | Some message =>
        if negb (allowed_host i) || negb (allowed_origin i) then (c, [])
        else if method message == "authenticate" then (c, [])
        else if negb (contains (method message)) then (c, [])
        else
          let c := set_claimed c in
          if negb (permitted i (method message))
          then (c, [sent_error (BtcdError.make BtcdError.invalid_params) message])
          else dispatch n message c
    | None => (c, [])
    end.

Definition btcd_websocket (n : nat) (contains : string → bool) (i : incoming) (c : channel_t) :
    reaction :=
  match body i with
  | None => (c, [])
  | Some message =>
      let authenticate := method message == "authenticate" in
      if Bool.eqb authenticate (authorized c) then
        (set_claimed c, [sent_error unauthorized message])
      else if negb (contains (method message)) then (c, [])
      else
        let c := set_claimed c in
        if negb authenticate && negb (permitted i (method message))
        then (c, [sent_error (BtcdError.make BtcdError.invalid_params) message])
        else dispatch n message c
  end.

Definition btcd (n : nat) (contains : string → bool) : protocol :=
  Protocol (btcd_post n contains) (btcd_websocket n contains).

(** *** protocol_rpc: an interface with its own responder for unclaimed methods *)

(** [unclaimed] is [handle_unclaimed], which defers by default. *)
Definition rpc_post (n : nat) (contains : string → bool)
    (unclaimed : request_t → channel_t → reaction) (i : incoming) (c : channel_t) : reaction :=
  if stopped c then (c, [])
  else if claimed c then (c, [])
  else if negb (allowed_host i) then (set_claimed c, [sent_bad_host])
  else if negb (allowed_origin i) then (set_claimed c, [sent_forbidden])
  else
    match body i with
    | None => (set_claimed c, [sent_bad_request])
    | Some message =>
        if negb (contains (method message)) then unclaimed message c
        else
          let c := set_claimed c in
          if negb (permitted i (method message)) then (c, [sent_forbidden])
          else dispatch n message c
    end.

Definition rpc_websocket (n : nat) (contains : string → bool)
    (unclaimed : request_t → channel_t → reaction) (i : incoming) (c : channel_t) : reaction :=
  if claimed c then (c, [])
  else if negb (authorized c) then stop_with unauthorized c
  else
    match body i with
    | None => stop_with (Error.make Error.invalid_argument) c
    | Some message =>
        if negb (contains (method message)) then unclaimed message c
        else
          let c := set_claimed c in
          if negb (permitted i (method message)) then stop_with unauthorized c
          else dispatch n message c
    end.

Definition rpc (n : nat) (contains : string → bool) (unclaimed : request_t → channel_t → reaction) :
    protocol := Protocol (rpc_post n contains unclaimed) (rpc_websocket n contains unclaimed).

(** [handle_unclaimed] of protocol_rpc (defers), and of protocol_electrum. *)
Definition defers (message : request_t) (c : channel_t) : reaction := (c, []).
Definition electrum_unclaimed (message : request_t) (c : channel_t) : reaction :=
  (c, [sent_error (ElectrumError.make ElectrumError.method_not_found) message]).

(** [handle_unclaimed] of protocol_sparrow: a second interface. *)
Definition sparrow_unclaimed (n : nat) (contains : string → bool) (message : request_t)
    (c : channel_t) : reaction :=
  if negb (contains (method message)) then electrum_unclaimed message c
  else dispatch n message c.

(** ** Delivery *)

Fixpoint deliver (handle : protocol → incoming → channel_t → reaction) (ps : list protocol)
    (i : incoming) (c : channel_t) : reaction :=
  match ps with
  | [] => (c, [])
  | p :: ps =>
      let '(c, first) := handle p i c in
      let '(c, rest) := deliver handle ps i c in
      (c, first ++ rest)%list
  end.

(** The channel as a request arrives. *)
Definition opened (authorized : bool) : channel_t := Channel false false authorized.

Definition deliver_post (ps : list protocol) (i : incoming) (authorized : bool) : reaction :=
  deliver handle_receive_post ps i (opened authorized).

Definition deliver_websocket (ps : list protocol) (i : incoming) (authorized : bool) : reaction :=
  deliver handle_receive_unknown ps i (opened authorized).

(** The protocols of the sessions (sessions.hpp): the numbered interfaces of the
    subgroups, and for btcd its own first. *)
Definition subgroups (interfaces : list (string → bool)) (first : nat) : list protocol :=
  imap (λ k contains, subgroup (first + k) contains) interfaces.

Definition session_bitcoind (interfaces : list (string → bool)) : list protocol :=
  (subgroups interfaces 0 ++ [terminal])%list.

Definition session_btcd (own : string → bool) (interfaces : list (string → bool)) : list protocol :=
  (btcd 0 own :: subgroups interfaces 1 ++ [terminal])%list.

Definition session_electrum (version electrum : string → bool) : list protocol :=
  [rpc 0 version defers; rpc 1 electrum electrum_unclaimed].

Definition session_sparrow (version electrum sparrow : string → bool) : list protocol :=
  [rpc 0 version defers; rpc 1 electrum (sparrow_unclaimed 2 sparrow)].

(** ** Specification *)

(** The first interface that has a method. *)
Fixpoint owner (interfaces : list (string → bool)) (first : nat) (name : string) : option nat :=
  match interfaces with
  | [] => None
  | contains :: rest => if contains name then Some first else owner rest (S first) name
  end.

(** The single effect of an accepted method. *)
Definition dispatch_effect (n : nat) (message : request_t) : effect :=
  let ec := notify n message in
  if is_error ec then stopped_with ec else dispatched n message.

Definition post_answer (interfaces : list (string → bool)) (first : nat) (i : incoming) : effect :=
  if negb (allowed_host i) then sent_bad_host
  else if negb (allowed_origin i) then sent_forbidden
  else
    match body i with
    | None => sent_bad_request
    | Some message =>
        if negb (permitted i (method message)) then sent_forbidden
        else
          match owner interfaces first (method message) with
          | Some n => dispatch_effect n message
          | None => sent_error (BitcoindError.make BitcoindError.method_not_found) message
          end
    end.

Definition websocket_answer (interfaces : list (string → bool)) (first : nat) (i : incoming)
    (authorized : bool) : effect :=
  if negb authorized then stopped_with unauthorized
  else
    match body i with
    | None => stopped_with (Error.make Error.invalid_argument)
    | Some message =>
        if negb (permitted i (method message)) then stopped_with unauthorized
        else
          match owner interfaces first (method message) with
          | Some n => dispatch_effect n message
          | None => sent_error (BitcoindError.make BitcoindError.method_not_found) message
          end
    end.
Definition btcd_post_answer (own : string → bool) (interfaces : list (string → bool)) (i : incoming) :
    effect :=
  match body i with
  | Some message =>
      if allowed_host i && allowed_origin i && negb (method message == "authenticate") &&
         own (method message)
      then if permitted i (method message) then dispatch_effect 0 message
           else sent_error (BtcdError.make BtcdError.invalid_params) message
      else post_answer interfaces 1 i
  | None => post_answer interfaces 1 i
  end.

Definition btcd_websocket_answer (own : string → bool) (interfaces : list (string → bool))
    (i : incoming) (authorized : bool) : effect :=
  match body i with
  | Some message =>
      let authenticate := method message == "authenticate" in
      if Bool.eqb authenticate authorized then sent_error unauthorized message
      else if own (method message)
      then if authenticate || permitted i (method message) then dispatch_effect 0 message
           else sent_error (BtcdError.make BtcdError.invalid_params) message
      else websocket_answer interfaces 1 i authorized
  | None => websocket_answer interfaces 1 i authorized
  end.

(** For the protocols that respond to unclaimed methods, [unknown] is the effect. *)
Definition rpc_post_answer (interfaces : list (string → bool)) (unknown : request_t → effect)
    (i : incoming) : effect :=
  if negb (allowed_host i) then sent_bad_host
  else if negb (allowed_origin i) then sent_forbidden
  else
    match body i with
    | None => sent_bad_request
    | Some message =>
        match owner interfaces 0 (method message) with
        | Some n => if permitted i (method message) then dispatch_effect n message else sent_forbidden
        | None => unknown message
        end
    end.

Definition rpc_websocket_answer (interfaces : list (string → bool)) (unknown : request_t → effect)
    (i : incoming) (authorized : bool) : effect :=
  if negb authorized then stopped_with unauthorized
  else
    match body i with
    | None => stopped_with (Error.make Error.invalid_argument)
    | Some message =>
        match owner interfaces 0 (method message) with
        | Some n => if permitted i (method message) then dispatch_effect n message
                    else stopped_with unauthorized
        | None => unknown message
        end
    end.

Definition electrum_unknown (message : request_t) : effect :=
  sent_error (ElectrumError.make ElectrumError.method_not_found) message.

Definition sparrow_unknown (sparrow : string → bool) (message : request_t) : effect :=
  if sparrow (method message) then dispatch_effect 2 message else electrum_unknown message.

(** ** Lemmas *)

Definition settled (c : channel_t) : bool := claimed c || stopped c.

(** A protocol that is silent once a request is claimed or the channel stopped. *)
Definition quiet (handle : protocol → incoming → channel_t → reaction) (p : protocol) : Prop :=
  ∀ i c, settled c = true → handle p i c = (c, []).

Lemma deliver_quiet handle ps i c :
  Forall (quiet handle) ps → settled c = true → deliver handle ps i c = (c, []).
Proof.
  intros Hps Hc. induction Hps as [|p ps Hp _ IH]; simpl; [done|]. by rewrite Hp, IH.
Qed.

Lemma quiet_post p :
  (∀ i c, stopped c = true → handle_receive_post p i c = (c, [])) →
  (∀ i c, stopped c = false → claimed c = true → handle_receive_post p i c = (c, [])) →
  quiet handle_receive_post p.
Proof.
  intros Hs Hc i c. unfold settled. destruct (stopped c) eqn:Hstop; [by intros; apply Hs|].
  rewrite orb_false_r. auto.
Qed.

Lemma quiet_websocket p :
  (∀ i c, claimed c = true → dispatch_websocket p i c = (c, [])) → quiet handle_receive_unknown p.
Proof.
  intros Hc i c. unfold settled, handle_receive_unknown. destruct (stopped c); [done|].
  rewrite orb_false_r. auto.
Qed.

Lemma subgroup_quiet n contains :
  quiet handle_receive_post (subgroup n contains) ∧ quiet handle_receive_unknown (subgroup n contains).
Proof.
  split; [apply quiet_post|apply quiet_websocket]; simpl;
    unfold subgroup_post, subgroup_websocket; intros i c Hc; [by rewrite Hc| |by rewrite Hc].
  intros Hcl. by rewrite Hc, Hcl.
Qed.

Lemma terminal_quiet : quiet handle_receive_post terminal ∧ quiet handle_receive_unknown terminal.
Proof.
  split; [apply quiet_post|apply quiet_websocket]; simpl;
    unfold terminal_post, terminal_websocket; intros i c Hc; [by rewrite Hc| |by rewrite Hc].
  intros Hcl. by rewrite Hc, Hcl.
Qed.

Lemma rpc_quiet n contains unclaimed :
  quiet handle_receive_post (rpc n contains unclaimed) ∧
  quiet handle_receive_unknown (rpc n contains unclaimed).
Proof.
  split; [apply quiet_post|apply quiet_websocket]; simpl;
    unfold rpc_post, rpc_websocket; intros i c Hc; [by rewrite Hc| |by rewrite Hc].
  intros Hcl. by rewrite Hc, Hcl.
Qed.

Lemma subgroups_cons contains interfaces first :
  subgroups (contains :: interfaces) first = subgroup first contains :: subgroups interfaces (S first).
Proof.
  unfold subgroups. simpl. rewrite Nat.add_0_r. f_equal. apply imap_ext. intros k x _. simpl.
  by rewrite Nat.add_succ_r.
Qed.

Lemma subgroups_quiet interfaces first :
  Forall (quiet handle_receive_post) (subgroups interfaces first ++ [terminal])%list ∧
  Forall (quiet handle_receive_unknown) (subgroups interfaces first ++ [terminal])%list.
Proof.
  revert first. induction interfaces as [|contains interfaces IH]; intros first.
  { split; (constructor; [apply terminal_quiet|constructor]). }
  rewrite subgroups_cons. destruct (IH (S first)) as [Hp Hw].
  split; (constructor; [apply subgroup_quiet|done]).
Qed.

(** The channel is settled by the protocol that accepts a request. *)
Lemma dispatch_settled n message c :
  dispatch n message (set_claimed c) =
    ((dispatch n message (set_claimed c)).1, [dispatch_effect n message]) ∧
  settled (dispatch n message (set_claimed c)).1 = true.
Proof. unfold dispatch, dispatch_effect, stop_with, settled. by destruct (is_error _). Qed.

(** A protocol either settles a request or leaves it to the others. *)
Lemma deliver_settles handle p ps i c c' es :
  Forall (quiet handle) ps → handle p i c = (c', es) → settled c' = true →
  deliver handle (p :: ps) i c = (c', es).
Proof. intros Hps Hp Hc. simpl. rewrite Hp, deliver_quiet by done. by rewrite app_nil_r. Qed.

Lemma deliver_defers handle p ps i c :
  handle p i c = (c, []) → deliver handle (p :: ps) i c = deliver handle ps i c.
Proof. intros Hp. simpl. rewrite Hp. by destruct (deliver handle ps i c). Qed.

(** What a subgroup does with a request that is not claimed. *)
Lemma subgroup_post_opened n contains i a :
  subgroup_post n contains i (opened a) =
    match body i with
    | Some message =>
        if allowed_host i && allowed_origin i && contains (method message)
        then if permitted i (method message) then dispatch n message (set_claimed (opened a))
             else (set_claimed (opened a), [sent_forbidden])
        else (opened a, [])
    | None => (opened a, [])
    end.
Proof.
  unfold subgroup_post. simpl. destruct (body i) as [m|]; [|done].
  destruct (allowed_host i), (allowed_origin i), (contains (method m)); simpl; try done.
  by destruct (permitted i (method m)).
Qed.

Lemma subgroup_websocket_opened n contains i a :
  subgroup_websocket n contains i (opened a) =
    match body i with
    | Some message =>
        if a && contains (method message)
        then if permitted i (method message) then dispatch n message (set_claimed (opened a))
             else stop_with unauthorized (set_claimed (opened a))
        else (opened a, [])
    | None => (opened a, [])
    end.
Proof.
  unfold subgroup_websocket. simpl. destruct a, (body i) as [m|]; simpl; try done.
  destruct (contains (method m)); simpl; [|done]. by destruct (permitted i (method m)).
Qed.

Lemma deliver_subgroups_post interfaces first i a :
  (deliver handle_receive_post (subgroups interfaces first ++ [terminal])%list i (opened a)).2 =
    [post_answer interfaces first i].
Proof.
  revert first. induction interfaces as [|contains interfaces IH]; intros first.
  { simpl. unfold terminal_post, post_answer. simpl.
    destruct (allowed_host i), (allowed_origin i), (body i) as [m|]; simpl; try done.
    by destruct (permitted i (method m)). }
  rewrite subgroups_cons. specialize (IH (S first)).
  destruct (subgroups_quiet interfaces (S first)) as [Hquiet _].
  assert (handle_receive_post (subgroup first contains) i (opened a) =
    subgroup_post first contains i (opened a)) as Hsub by done.
  rewrite subgroup_post_opened in Hsub. cbn [app]. unfold post_answer in *. cbn [owner].
  destruct (allowed_host i), (allowed_origin i), (body i) as [m|]; cbn [negb andb] in *;
    try (by rewrite (deliver_defers _ (subgroup first contains)) by done).
  destruct (contains (method m)) eqn:Hown;
    [|by rewrite (deliver_defers _ (subgroup first contains)) by done].
  destruct (permitted i (method m)); cbn [negb] in *.
  - destruct (dispatch_settled first m (opened a)) as [Hd Hs]. rewrite Hd in Hsub.
    by rewrite (deliver_settles _ _ _ _ _ _ _ Hquiet Hsub Hs).
  - by rewrite (deliver_settles _ _ _ _ _ _ _ Hquiet Hsub).
Qed.

Lemma deliver_subgroups_websocket interfaces first i a :
  (deliver handle_receive_unknown (subgroups interfaces first ++ [terminal])%list i (opened a)).2 =
    [websocket_answer interfaces first i a].
Proof.
  revert first. induction interfaces as [|contains interfaces IH]; intros first.
  { simpl. unfold handle_receive_unknown, websocket_answer. simpl. unfold terminal_websocket. simpl.
    destruct a, (body i) as [m|]; simpl; try done. by destruct (permitted i (method m)). }
  rewrite subgroups_cons. specialize (IH (S first)).
  destruct (subgroups_quiet interfaces (S first)) as [_ Hquiet].
  assert (handle_receive_unknown (subgroup first contains) i (opened a) =
    subgroup_websocket first contains i (opened a)) as Heq by done.
  rewrite subgroup_websocket_opened in Heq. cbn [app]. unfold websocket_answer in *. cbn [owner].
  destruct a, (body i) as [m|]; cbn [negb andb] in *;
    try (by rewrite (deliver_defers _ (subgroup first contains)) by done).
  destruct (contains (method m)) eqn:Hown;
    [|by rewrite (deliver_defers _ (subgroup first contains)) by done].
  destruct (permitted i (method m)); cbn [negb] in *.
  - destruct (dispatch_settled first m (opened true)) as [Hd Hs]. rewrite Hd in Heq.
    by rewrite (deliver_settles _ _ _ _ _ _ _ Hquiet Heq Hs).
  - unfold stop_with in Heq. by rewrite (deliver_settles _ _ _ _ _ _ _ Hquiet Heq).
Qed.

(** The btcd protocol, before the subgroups. *)
Lemma deliver_btcd_post own interfaces i a :
  (deliver_post (session_btcd own interfaces) i a).2 = [btcd_post_answer own interfaces i].
Proof.
  unfold deliver_post, session_btcd. destruct (subgroups_quiet interfaces 1) as [Hquiet _].
  pose proof (deliver_subgroups_post interfaces 1 i a) as Hrest.
  assert (handle_receive_post (btcd 0 own) i (opened a) =
    match body i with
    | Some message =>
        if allowed_host i && allowed_origin i && negb (method message == "authenticate") &&
           own (method message)
        then if permitted i (method message) then dispatch 0 message (set_claimed (opened a))
             else (set_claimed (opened a),
               [sent_error (BtcdError.make BtcdError.invalid_params) message])
        else (opened a, [])
    | None => (opened a, [])
    end) as Hbtcd.
  { simpl. unfold btcd_post. simpl. destruct (body i) as [m|]; [|done].
    destruct (allowed_host i), (allowed_origin i), (method m == "authenticate"), (own (method m));
      simpl; try done. by destruct (permitted i (method m)). }
  unfold btcd_post_answer. destruct (body i) as [m|]; [|by rewrite deliver_defers].
  destruct (_ && own (method m)); [|by rewrite deliver_defers].
  destruct (permitted i (method m)).
  - destruct (dispatch_settled 0 m (opened a)) as [Hd Hs]. rewrite Hd in Hbtcd.
    by rewrite (deliver_settles _ _ _ _ _ _ _ Hquiet Hbtcd Hs).
  - by rewrite (deliver_settles _ _ _ _ _ _ _ Hquiet Hbtcd).
Qed.

Lemma deliver_btcd_websocket own interfaces i a :
  (deliver_websocket (session_btcd own interfaces) i a).2 =
    [btcd_websocket_answer own interfaces i a].
Proof.
  unfold deliver_websocket, session_btcd. destruct (subgroups_quiet interfaces 1) as [_ Hquiet].
  pose proof (deliver_subgroups_websocket interfaces 1 i a) as Hrest.
  assert (handle_receive_unknown (btcd 0 own) i (opened a) = btcd_websocket 0 own i (opened a)) as Hbtcd
    by done.
  unfold btcd_websocket in Hbtcd. unfold btcd_websocket_answer.
  destruct (body i) as [m|]; [|by rewrite deliver_defers]. simpl in Hbtcd.
  destruct (Bool.eqb _ a); [by rewrite (deliver_settles _ _ _ _ _ _ _ Hquiet Hbtcd)|].
  destruct (own (method m)); [|by rewrite deliver_defers]. simpl in Hbtcd.
  destruct (method m == "authenticate"), (permitted i (method m)); cbn [negb andb orb] in *;
    try by rewrite (deliver_settles _ _ _ _ _ _ _ Hquiet Hbtcd).
  all: destruct (dispatch_settled 0 m (opened a)) as [Hd Hs]; rewrite Hd in Hbtcd;
    by rewrite (deliver_settles _ _ _ _ _ _ _ Hquiet Hbtcd Hs).
Qed.

(** *** Protocols with their own responder *)

Lemma rpc_post_opened n contains unclaimed i a :
  rpc_post n contains unclaimed i (opened a) =
    if negb (allowed_host i) then (set_claimed (opened a), [sent_bad_host])
    else if negb (allowed_origin i) then (set_claimed (opened a), [sent_forbidden])
    else
      match body i with
      | None => (set_claimed (opened a), [sent_bad_request])
      | Some message =>
          if contains (method message)
          then if permitted i (method message) then dispatch n message (set_claimed (opened a))
               else (set_claimed (opened a), [sent_forbidden])
          else unclaimed message (opened a)
      end.
Proof.
  unfold rpc_post. simpl. destruct (allowed_host i), (allowed_origin i), (body i) as [m|]; simpl; try done.
  destruct (contains (method m)); simpl; [|done]. by destruct (permitted i (method m)).
Qed.

Lemma dispatch_alone n message c : (dispatch n message c).2 = [dispatch_effect n message].
Proof. unfold dispatch, dispatch_effect, stop_with. by destruct (is_error _). Qed.

(** Two interfaces, of which the second responds to unclaimed methods. *)
Lemma deliver_rpc_post version electrum unclaimed unknown i a :
  (∀ message c, (unclaimed message c).2 = [unknown message]) →
  (deliver_post [rpc 0 version defers; rpc 1 electrum unclaimed] i a).2 =
    [rpc_post_answer [version; electrum] unknown i].
Proof.
  intros Hunknown. unfold deliver_post.
  assert (Forall (quiet handle_receive_post) [rpc 1 electrum unclaimed]) as Hquiet
    by (constructor; [apply rpc_quiet|constructor]).
  assert (∀ n contains u, handle_receive_post (rpc n contains u) i (opened a) =
    rpc_post n contains u i (opened a)) as Hrpc by done.
  assert (∀ c : channel_t, settled (set_claimed c) = true) as Hclaimed by done.
  pose proof (Hrpc 0%nat version defers) as H0. pose proof (Hrpc 1%nat electrum unclaimed) as H1.
  rewrite rpc_post_opened in H0, H1. unfold rpc_post_answer. cbn [owner].
  destruct (allowed_host i), (allowed_origin i), (body i) as [m|]; cbn [negb] in *;
    try by rewrite (deliver_settles _ _ _ _ _ _ _ Hquiet H0).
  destruct (version (method m)).
  { destruct (permitted i (method m)); [|by rewrite (deliver_settles _ _ _ _ _ _ _ Hquiet H0)].
    destruct (dispatch_settled 0 m (opened a)) as [Hd Hs]. rewrite Hd in H0.
    by rewrite (deliver_settles _ _ _ _ _ _ _ Hquiet H0 Hs). }
  rewrite deliver_defers by done. cbn [deliver].
  destruct (handle_receive_post (rpc 1 electrum unclaimed) i (opened a)) as [c es].
  simpl. rewrite app_nil_r. apply (f_equal snd) in H1. simpl in H1. rewrite H1.
  destruct (electrum (method m)); [|apply Hunknown].
  destruct (permitted i (method m)); [apply dispatch_alone|done].
Qed.

Lemma rpc_websocket_opened n contains unclaimed i a :
  rpc_websocket n contains unclaimed i (opened a) =
    if negb a then stop_with unauthorized (opened a)
    else
      match body i with
      | None => stop_with (Error.make Error.invalid_argument) (opened a)
      | Some message =>
          if contains (method message)
          then if permitted i (method message) then dispatch n message (set_claimed (opened a))
               else stop_with unauthorized (set_claimed (opened a))
          else unclaimed message (opened a)
      end.
Proof.
  unfold rpc_websocket. simpl. destruct a, (body i) as [m|]; simpl; try done.
  destruct (contains (method m)); simpl; [|done]. by destruct (permitted i (method m)).
Qed.

Lemma deliver_rpc_websocket version electrum unclaimed unknown i a :
  (∀ message c, (unclaimed message c).2 = [unknown message]) →
  (deliver_websocket [rpc 0 version defers; rpc 1 electrum unclaimed] i a).2 =
    [rpc_websocket_answer [version; electrum] unknown i a].
Proof.
  intros Hunknown. unfold deliver_websocket.
  assert (Forall (quiet handle_receive_unknown) [rpc 1 electrum unclaimed]) as Hquiet
    by (constructor; [apply rpc_quiet|constructor]).
  assert (∀ n contains u, handle_receive_unknown (rpc n contains u) i (opened a) =
    rpc_websocket n contains u i (opened a)) as Hrpc by done.
  pose proof (Hrpc 0%nat version defers) as H0. pose proof (Hrpc 1%nat electrum unclaimed) as H1.
  rewrite rpc_websocket_opened in H0, H1. unfold rpc_websocket_answer, stop_with in *. cbn [owner].
  destruct a, (body i) as [m|]; cbn [negb] in *;
    try by rewrite (deliver_settles _ _ _ _ _ _ _ Hquiet H0).
  destruct (version (method m)).
  { destruct (permitted i (method m)); [|by rewrite (deliver_settles _ _ _ _ _ _ _ Hquiet H0)].
    destruct (dispatch_settled 0 m (opened true)) as [Hd Hs]. rewrite Hd in H0.
    by rewrite (deliver_settles _ _ _ _ _ _ _ Hquiet H0 Hs). }
  rewrite deliver_defers by done. cbn [deliver].
  destruct (handle_receive_unknown (rpc 1 electrum unclaimed) i (opened true)) as [c es].
  simpl. rewrite app_nil_r. apply (f_equal snd) in H1. simpl in H1. rewrite H1.
  destruct (electrum (method m)); [|apply Hunknown].
  destruct (permitted i (method m)); [apply dispatch_alone|done].
Qed.

(** ** In-band authorization of btcd *)

(** Whether the credentials of an authenticate request are accepted. *)
Context (accepts : request_t → bool).

(** [set_authorized] of the credentials, and the response. A refusal ends the
    session once it has been sent. *)
Definition handle_authenticate (message : request_t) (c : channel_t) : reaction :=
  let c := Channel (claimed c) (stopped c) (accepts message) in
  if authorized c then (c, [sent_result message])
  else (stop_channel c, [sent_error unauthorized message; stopped_with unauthorized]).

(** A frame, with the handler of authenticate. *)
Definition btcd_frame (own : string → bool) (interfaces : list (string → bool)) (i : incoming)
    (c : channel_t) : reaction :=
  let '(c, es) := deliver handle_receive_unknown (session_btcd own interfaces) i
                    (Channel false (stopped c) (authorized c)) in
  match es with
  | [dispatched 0 message] =>
      if method message == "authenticate" then
        let '(c, more) := handle_authenticate message c in (c, es ++ more)%list
      else (c, es)
  | _ => (c, es)
  end.

Fixpoint btcd_frames (own : string → bool) (interfaces : list (string → bool)) (frames : list incoming)
    (c : channel_t) : list (list effect) :=
  match frames with
  | [] => []
  | i :: frames =>
      let '(c, es) := btcd_frame own interfaces i c in
      es :: btcd_frames own interfaces frames c
  end.

(** Delivery does not authorize. *)
Definition keeps_authorized (p : protocol) : Prop :=
  ∀ i c, authorized (handle_receive_unknown p i c).1 = authorized c.

Lemma dispatch_authorized n message c : authorized (dispatch n message c).1 = authorized c.
Proof. unfold dispatch, stop_with. by destruct (is_error _). Qed.

Lemma session_keeps_authorized own interfaces :
  Forall keeps_authorized (session_btcd own interfaces).
Proof.
  assert (∀ n contains, keeps_authorized (subgroup n contains)) as Hsub.
  { intros n contains i c. unfold handle_receive_unknown. destruct (stopped c); [done|]. simpl.
    unfold subgroup_websocket. repeat (case_match; try done). by rewrite dispatch_authorized. }
  assert (keeps_authorized terminal) as Hterm.
  { intros i c. unfold handle_receive_unknown. destruct (stopped c); [done|]. simpl.
    unfold terminal_websocket. by repeat case_match. }
  constructor.
  - intros i c. unfold handle_receive_unknown. destruct (stopped c); [done|]. simpl.
    unfold btcd_websocket. repeat (case_match; try done). by rewrite dispatch_authorized.
  - apply Forall_app. split; [|by repeat constructor]. generalize 1%nat.
    induction interfaces as [|contains interfaces IH]; intros first; [constructor|].
    rewrite subgroups_cons. by constructor.
Qed.

Lemma deliver_authorized ps i c :
  Forall keeps_authorized ps → authorized (deliver handle_receive_unknown ps i c).1 = authorized c.
Proof.
  intros Hps. revert c. induction Hps as [|p ps Hp _ IH]; intros c; [done|]. simpl.
  specialize (Hp i c). destruct (handle_receive_unknown p i c) as [c1 es1]. simpl in Hp.
  specialize (IH c1). destruct (deliver handle_receive_unknown ps i c1) as [c2 es2]. simpl in *.
  by rewrite IH.
Qed.

(** A method other than authenticate. *)
Definition serves (es : list effect) : Prop :=
  ∃ n message, dispatched n message ∈ es ∧ method message ≠ "authenticate".

(** An accepted authentication. *)
Definition authenticates (i : incoming) : Prop :=
  ∃ message, body i = Some message ∧ method message = "authenticate" ∧ accepts message = true.

(** A frame of a channel that is not authorized serves nothing, and authorizes it
    only if it authenticates. *)
Lemma btcd_frame_unauthorized own interfaces i c :
  authorized c = false →
  ¬ serves (btcd_frame own interfaces i c).2 ∧
  (authorized (btcd_frame own interfaces i c).1 = true → authenticates i).
Proof.
  intros Hc. unfold btcd_frame. rewrite Hc.
  pose proof (deliver_authorized (session_btcd own interfaces) i (Channel false (stopped c) false)
    (session_keeps_authorized own interfaces)) as Hkeep. cbn [authorized] in Hkeep.
  assert ((deliver handle_receive_unknown (session_btcd own interfaces) i
    (Channel false (stopped c) false)).2 =
      if stopped c then [] else [btcd_websocket_answer own interfaces i false]) as Hes.
  { destruct (stopped c); [|apply deliver_btcd_websocket].
    unfold session_btcd. rewrite deliver_defers by done.
    rewrite deliver_quiet; [done|apply subgroups_quiet|done]. }
  destruct (deliver _ _ _ _) as [c' es]. simpl in Hkeep, Hes. subst es.
  destruct (stopped c); simpl; [rewrite Hkeep; split; [|done]; intros (n & m & Hin & _); set_solver|].
  unfold btcd_websocket_answer, websocket_answer. destruct (body i) as [m|] eqn:Hbody; cycle 1.
  { simpl. rewrite Hkeep. split; [|done]. intros (n & m & Hin & _). set_solver. }
  destruct (String.eqb_spec (method m) "authenticate") as [Hauth|Hauth]; simpl; cycle 1.
  { rewrite Hkeep. split; [|done]. intros (n & m' & Hin & _). set_solver. }
  assert (¬ serves [stopped_with unauthorized]) as Hstop by (intros (n & m' & Hin & _); set_solver).
  destruct (own (method m)); simpl; [|by rewrite Hkeep].
  unfold dispatch_effect. destruct (is_error _); simpl.
  { rewrite Hkeep. split; [|done]. intros (n & m' & Hin & _). set_solver. }
  rewrite Hauth. simpl. unfold handle_authenticate. simpl.
  destruct (accepts m) eqn:Haccept; simpl.
  - split; [|intros _; by exists m]. intros (n & m' & Hin & Hne). set_solver.
  - split; [|done]. intros (n & m' & Hin & Hne). set_solver.
Qed.

Lemma btcd_frames_authorized own interfaces frames c k es :
  btcd_frames own interfaces frames c !! k = Some es → serves es →
  authorized c = true ∨ ∃ j i, (j < k)%nat ∧ frames !! j = Some i ∧ authenticates i.
Proof.
  revert c k. induction frames as [|i frames IH]; intros c k; simpl; [by rewrite lookup_nil|].
  destruct (authorized c) eqn:Hc; [by left|].
  pose proof (btcd_frame_unauthorized own interfaces i c Hc) as [Hserve Hauth].
  destruct (btcd_frame own interfaces i c) as [c' es']. simpl in Hserve, Hauth.
  destruct k as [|k]; simpl; [intros [= <-]; done|].
  intros Hk Hs. right. destruct (IH c' k Hk Hs) as [Ha|(j & i' & Hj & Hi' & Ha)].
  - exists 0%nat, i. split_and!; [lia|done|auto].
  - exists (S j), i'. split_and!; [lia|done..].
Qed.

End Dispatch.

(** ** Senders of protocol_bitcoind *)

(** [response_t]: the context of the request, and a result or an error. *)
Record response_t := Response {
  response_version : version_t;
  response_id : option value_t;
  response_result : option value_t;
  response_error : option (code * option value_t);
}.

(** What the senders read of the http request: flags of its json-rpc body. *)
Record http_request := HttpRequest {
  batch : bool;
  changed : bool;
}.

(** The cached context of the request that is being handled. *)
Record context := Context_ {
  version_ : version_t;
  id_ : option value_t;
  request_ : option http_request;
}.

Definition empty_context : context := Context_ version_undefined None None.

(** What is written, with the reason to stop the channel once it is. *)
Inductive written :=
  | wrote_frame (model : response_t) (close_reason : code)
  | wrote_response (model : response_t) (close_reason : code)
  | wrote_no_content (close_reason : code)
  | wrote_text (text : string)
  | stopped_now (ec : code).

Section Senders.

(** [websocket() || downgraded()]. *)
Context (full_duplex : bool).

Definition set_rpc_request (message : request_t) (request : option http_request) (c : context) :
    context :=
  Context_ (jsonrpc message) (id message)
    (match request with Some r => Some r | None => request_ c end).

Definition is_notification (model : response_t) : bool :=
  match response_version model, response_id model with
  | version_v2, None => true
  | _, _ => false
  end.

(** No result if there is no request (its body is then read regardless). *)
Definition send_rpc (model : response_t) (close_reason : code) (c : context) :
    option (context * list written) :=
  if full_duplex then
    let c := Context_ version_undefined None (request_ c) in
    if is_notification model then
      Some (c, if is_error close_reason then [stopped_now close_reason] else [])
    else Some (c, [wrote_frame model close_reason])
  else
    match request_ c with
    | None => None
    | Some request =>
        if is_notification model && negb (batch request) && negb (changed request)
        then Some (empty_context, [wrote_no_content close_reason])
        else Some (empty_context, [wrote_response model close_reason])
    end.

Definition send_result (result : option value_t) (c : context) : option (context * list written) :=
  send_rpc (Response (version_ c) (id_ c) result None) (Error.make Error.success) c.

Definition send_error (ec : code) (data : option value_t) (c : context) :
    option (context * list written) :=
  send_rpc (Response (version_ c) (id_ c) None (Some (ec, data))) (Error.make Error.success) c.

(** [send_error(ec, close_reason)]. *)
Definition send_error_close (ec close_reason : code) (c : context) : option (context * list written) :=
  send_rpc (Response (version_ c) (id_ c) None (Some (ec, None))) close_reason c.

(** [serialize(value_from(response))]. *)
Context (serialize : response_t → string).

Definition quote : string := String (ascii_of_nat 34) "".
Definition tail : string := quote +:+ "}".

(** [std::string::ends_with]. *)
Definition ends_with (suffix s : string) : bool :=
  (String.length suffix <=? String.length s)%nat &&
  (String.substring (String.length s - String.length suffix) (String.length suffix) s == suffix).

(** The text around a string result of a given size, or none. *)
Definition text_response (c : context) : option string :=
  match request_ c with
  | None => None
  | Some request =>
      if full_duplex || (match version_ c, id_ c with version_v2, None => true | _, _ => false end) ||
         batch request || changed request
      then None
      else
        let envelope := serialize (Response (version_ c) (id_ c) (Some (string_t "")) None) in
        if ends_with (quote +:+ tail) envelope
        then Some (String.substring 0 (String.length envelope - String.length tail) envelope)
        else None
  end.

(** [hex] is what the writer writes, [None] if it fails. *)
Definition send_hex (hex : option string) (c : context) : bool * option (context * list written) :=
  match text_response c with
  | None =>
      match hex with
      | None => (false, Some (c, []))
      | Some out => (true, send_result (Some (string_t out)) c)
      end
  | Some head =>
      match hex with
      | None => (false, Some (c, []))
      | Some out => (true, Some (empty_context, [wrote_text (head +:+ out +:+ tail)]))
      end
  end.

Lemma append_length a b : String.length (a +:+ b) = (String.length a + String.length b)%nat.
Proof. induction a as [|c a IH]; [done|]. change (String c a +:+ b) with (String c (a +:+ b)). simpl. by rewrite IH. Qed.

Lemma append_assoc a b c : (a +:+ b) +:+ c = a +:+ (b +:+ c).
Proof.
  induction a as [|x a IH]; [done|]. change (String x ((a +:+ b) +:+ c) = String x (a +:+ (b +:+ c))).
  by rewrite IH.
Qed.

Lemma substring_prefix a b : String.substring 0 (String.length a) (a +:+ b) = a.
Proof.
  induction a as [|c a IH]; [by destruct b|]. change (String c a +:+ b) with (String c (a +:+ b)).
  simpl. by rewrite IH.
Qed.

(** How a string result is framed: the strings of hex characters need no escape. *)
Definition frames_strings (head : version_t → option value_t → string) (plain : string → Prop) : Prop :=
  ∀ v i s, plain s →
    serialize (Response v i (Some (string_t s)) None) = head v i +:+ quote +:+ s +:+ tail.

Lemma text_response_spec head (plain : string → Prop) c text :
  frames_strings head plain → plain "" → text_response c = Some text →
  text = head (version_ c) (id_ c) +:+ quote.
Proof.
  intros Hframe Hempty. unfold text_response. destruct (request_ c) as [request|]; [|done].
  destruct (_ || _); [done|]. rewrite (Hframe _ _ _ Hempty). change ("" +:+ tail) with tail.
  destruct (ends_with _ _); [|done]. intros [= <-].
  rewrite <-append_assoc, (append_length _ tail), Nat.add_sub. apply substring_prefix.
Qed.

End Senders.

(** ** Properties *)


(** C15: on a websocket the btcd service serves no method, of its own or of a
    bitcoind interface, before a client has sent credentials that are accepted. *)
Theorem btcd_authorization `{NetworkErrors} notify accepts own interfaces frames k es :
  btcd_frames notify accepts own interfaces frames (opened false) !! k = Some es → serves es →
  ∃ j i, (j < k)%nat ∧ frames !! j = Some i ∧ authenticates accepts i.
Proof. intros Hk Hs. by destruct (btcd_frames_authorized _ _ _ _ _ _ _ _ Hk Hs). Qed.

#[local] Instance example_network_errors : NetworkErrors := { unauthorized := Code network_category 1 }.

Definition example_frame (name : string) : incoming :=
  Incoming true true (Some (Request version_v2 (Some (uint8_t 1)) name None)) (λ _, true).

Lemma btcd_authorization_witness :
  let frames := [example_frame "getinfo"; example_frame "authenticate"; example_frame "getinfo"] in
  let own := λ name, (name == "authenticate") || (name == "getinfo") in
  let outs := btcd_frames (λ _ _, Error.make Error.success) (λ _, true) own [] frames (opened false) in
  (∃ message, outs !! 0%nat = Some [sent_error unauthorized message]) ∧
  ∃ j i, (j < 2)%nat ∧ frames !! j = Some i ∧ authenticates (λ _, true) i.
Proof.
  split; [eexists; vm_compute; reflexivity|].
  refine (btcd_authorization (λ _ _, Error.make Error.success) (λ _, true)
    (λ name, (name == "authenticate") || (name == "getinfo")) []
    [example_frame "getinfo"; example_frame "authenticate"; example_frame "getinfo"] 2%nat
    [dispatched 0 (Request version_v2 (Some (uint8_t 1)) "getinfo" None)] _ _);
    [vm_compute; reflexivity|].
  eexists 0%nat, _. split; [apply list_elem_of_here|discriminate].
Defined.

(** A hex result that is written in place in the text of the response is the
    text that the response has when it is serialized as a whole. *)
Lemma send_hex_equivalent full_duplex serialize head (plain : string → Prop) out c text :
  frames_strings serialize head plain → plain "" → plain out →
  text_response full_duplex serialize c = Some text →
  send_hex full_duplex serialize (Some out) c =
    (true, Some (empty_context,
      [wrote_text (serialize (Response (version_ c) (id_ c) (Some (string_t out)) None))])).
Proof.
  intros Hframe Hempty Hout Htext. unfold send_hex. rewrite Htext.
  rewrite (text_response_spec _ _ _ _ _ _ Hframe Hempty Htext), (Hframe _ _ _ Hout).
  by rewrite append_assoc.
Qed.

(** A serializer of one id, for an example. *)
Definition example_serialize (r : response_t) : string :=
  match response_result r with
  | Some (string_t s) => "{result:" +:+ quote +:+ s +:+ tail
  | _ => ""
  end.
