(* ===== verification/HttpService.v ===== *)
(** Services over http targets: the dispatch of a parsed request to the handler of its
    method, with the arguments that the handler takes of it, and the service of pages
    (src/protocols/protocol_html.cpp). *)
From S2P Require Import Prelude Rpc Errors System Numbers Target Interface Dispatch.

(** ** Dispatch *)

(** [dispatcher.notify(model)]: the parameters are checked against those of the
    method, and a code is returned if they do not fit. *)
Class Dispatcher := {
  check_parameters : method_t → object → option code;
  missing_parameter : code;
  unexpected_method : code;
}.

(** Parameters that fit are of their types, and none that is required is missing. *)
Class DispatcherLaws `{Dispatcher} : Prop := {
  check_parameters_fit m o : check_parameters m o = None →
    Forall (λ p,
      match find_field (parameter_name p) o with
      | Some v => type_of v = Some (parameter_type p)
      | None => presence p ≠ required
      end) (parameters m);
}.

Section Arguments.
Context (o : object).

(** The arguments of a handler, by the type of its parameter. *)
Definition argument_number (name : string) : option Z :=
  match find_field name o with
  | Some (uint8_t n) | Some (uint32_t n) => Some n
  | _ => None
  end.

Definition argument_hash (name : string) : option (option hash_digest) :=
  match find_field name o with
  | Some (hash_t h) => Some (Some h)
  | _ => None
  end.

Definition argument_nullable (name : string) : option (option (option hash_digest)) :=
  match find_field name o with
  | None => Some None
  | Some (hash_t h) => Some (Some (Some h))
  | _ => None
  end.

Definition argument_nullable_number (name : string) : option (option Z) :=
  match find_field name o with
  | None => Some None
  | Some (uint32_t n) => Some (Some n)
  | _ => None
  end.

Definition argument_array (name : string) : option array :=
  match find_field name o with
  | Some (array_t items) => Some items
  | _ => None
  end.

Definition argument_boolean (name : string) (absent : bool) : option bool :=
  match find_field name o with
  | None => Some absent
  | Some (boolean_t b) => Some b
  | _ => None
  end.
End Arguments.

(** The arguments of parameters that fit. *)
Lemma argument_number_some o name t :
  (t = type_uint8 ∨ t = type_uint32) →
  match find_field name o with Some v => type_of v = Some t | None => required ≠ required end →
  ∃ n, argument_number o name = Some n.
Proof.
  intros Ht Hv. unfold argument_number. destruct (find_field name o) as [v|]; [|done].
  destruct Ht as [-> | ->]; destruct v; simplify_eq/=; by eexists.
Qed.

Lemma argument_hash_some o name :
  match find_field name o with Some v => type_of v = Some type_hash | None => required ≠ required end →
  ∃ h, argument_hash o name = Some (Some h) ∧ find_field name o = Some (hash_t h).
Proof.
  intros Hv. unfold argument_hash. destruct (find_field name o) as [v|]; [|done].
  destruct v; simplify_eq/=. by eexists.
Qed.

Lemma argument_array_some o name :
  match find_field name o with Some v => type_of v = Some type_array | None => required ≠ required end →
  ∃ items, argument_array o name = Some items ∧ find_field name o = Some (array_t items).
Proof.
  intros Hv. unfold argument_array. destruct (find_field name o) as [v|]; [|done].
  destruct v; simplify_eq/=. by eexists.
Qed.

Lemma argument_boolean_some o name absent :
  match find_field name o with Some v => type_of v = Some type_boolean | None => optional ≠ required end →
  ∃ b, argument_boolean o name absent = Some b.
Proof.
  intros Hv. unfold argument_boolean. destruct (find_field name o) as [v|]; [|by eexists].
  destruct v; simplify_eq/=. by eexists.
Qed.

Lemma argument_nullable_some o name :
  match find_field name o with Some v => type_of v = Some type_hash | None => nullable ≠ required end →
  ∃ h, argument_nullable o name = Some h ∧ h ≠ Some None.
Proof.
  intros Hv. unfold argument_nullable. destruct (find_field name o) as [v|]; [|by eexists].
  destruct v; simplify_eq/=. by eexists.
Qed.

Lemma argument_nullable_number_some o name :
  match find_field name o with Some v => type_of v = Some type_uint32 | None => nullable ≠ required end →
  ∃ n, argument_nullable_number o name = Some n.
Proof.
  intros Hv. unfold argument_nullable_number. destruct (find_field name o) as [v|]; [|by eexists].
  destruct v; simplify_eq/=. by eexists.
Qed.

(** Split the checks of the parameters, and take the arguments that they give. *)
Ltac fits :=
  repeat match goal with
  | H : Forall _ (_ :: _) |- _ => apply Forall_cons in H as [? H]; cbn [parameter_name presence parameter_type] in *
  | H : match find_field ?k ?o with Some v => type_of v = Some ?t | None => _ end |- context [argument_number ?o ?k] =>
      destruct (argument_number_some o k t ltac:(first [by left | by right]) H) as [? ->]; cbn [mbind option_bind]
  | H : match find_field ?k ?o with Some v => _ | None => _ end |- context [argument_hash ?o ?k] =>
      let Hf := fresh "Hf" in
      destruct (argument_hash_some o k H) as (? & -> & Hf); cbn [mbind option_bind]
  | H : match find_field ?k ?o with Some v => _ | None => _ end |- context [argument_array ?o ?k] =>
      let Hf := fresh "Hf" in
      destruct (argument_array_some o k H) as (? & -> & Hf); cbn [mbind option_bind]
  | H : match find_field ?k ?o with Some v => _ | None => _ end |- context [argument_boolean ?o ?k ?absent] =>
      destruct (argument_boolean_some o k absent H) as [? ->]; cbn [mbind option_bind]
  | H : match find_field ?k ?o with Some v => _ | None => _ end |- context [argument_nullable ?o ?k] =>
      let Hf := fresh "Hf" in
      destruct (argument_nullable_some o k H) as (? & -> & Hf); cbn [mbind option_bind]
  | H : match find_field ?k ?o with Some v => _ | None => _ end |- context [argument_nullable_number ?o ?k] =>
      destruct (argument_nullable_number_some o k H) as [? ->]; cbn [mbind option_bind]
  end.

(** ** A dispatcher for examples *)

#[global] Instance reference_dispatcher : Dispatcher := {
  check_parameters m o :=
    if forallb (λ p,
      match find_field (parameter_name p) o with
      | Some v => bool_decide (type_of v = Some (parameter_type p))
      | None => bool_decide (presence p ≠ required)
      end) (parameters m) then None else Some (Error.make Error.invalid_argument);
  missing_parameter := Error.make Error.invalid_argument;
  unexpected_method := Error.make Error.invalid_target;
}.

#[global] Instance reference_dispatcher_laws : DispatcherLaws.
Proof.
  split. intros m o Hcheck. cbn in Hcheck. destruct (forallb _ _) eqn:Hall; [|done].
  apply Forall_forall. intros p Hp. pose proof (forallb_elem _ _ _ Hall Hp) as Hfit. cbn in Hfit.
  destruct (find_field (parameter_name p) o); by apply bool_decide_eq_true in Hfit.
Qed.


(** ** Buffers *)

(** A stream over a chunk of a given size, which it may not exceed. *)
Definition write_chunk (size : Z) (bytes : data_chunk) : option data_chunk :=
  if Z.of_nat (length bytes) <=? size
  then Some (bytes ++ replicate (Z.to_nat size - length bytes) 0)%list
  else None.

Lemma write_chunk_exact size bytes :
  size = Z.of_nat (length bytes) → write_chunk size bytes = Some bytes.
Proof.
  intros ->. unfold write_chunk. rewrite Z.leb_refl, Nat2Z.id, Nat.sub_diag. simpl. by rewrite app_nil_r.
Qed.

(** ** Replies and pages *)

Inductive http_status :=
  | bad_target | bad_request | forbidden | bad_host | not_found | not_acceptable | not_implemented
  | internal_server_error.

(** The media of a page, by its file extension. *)
Inductive page_media :=
  | page_html | page_css | page_javascript | page_font | page_image | page_octet_stream | page_other.

(** The embedded pages of a site. *)
Inductive embedded := embedded_html | embedded_css | embedded_ecma | embedded_font | embedded_icon.

(** What the senders write, with the headers that are common to them. *)
Inductive http_reply :=
  | send_json (model : value_t)
  | send_text (hexidecimal : string)
  | send_chunk (bytes : data_chunk)
  | send_empty
  | send_file (path : string) (media : page_media)
  | send_span (page : embedded) (media : page_media)
  | send_status (status : http_status).

(** File names and files, and the site of a service. *)
Class Pages := {
  is_origin_form : string → bool;
  (** [file_media_type(path, default)]. *)
  file_media_type : string → page_media → page_media;
  (** [sanitize_origin(root, path)], empty if that is malformed. *)
  sanitize_origin : string → string → string;
  has_extension : string → bool;
  (** [get_file_body(path).is_open()]. *)
  can_open : string → bool;
}.

Record html_options := HtmlOptions {
  site_path : string;
  site_default : string;
  pages_enabled : bool;
}.

Section Html.
Context `{Pages}.
Context (options : html_options).

Definition to_path (target : string) : string :=
  if target == "/" then target +:+ site_default options else target.

Definition to_local_path (target : string) : string :=
  sanitize_origin (site_path options) (to_path target).

Definition dispatch_embedded (target : string) : http_reply :=
  match file_media_type (to_path target) page_html with
  | page_html => send_span embedded_html page_html
  | page_css => send_span embedded_css page_css
  | page_javascript => send_span embedded_ecma page_javascript
  | page_font => send_span embedded_font page_font
  | page_image => send_span embedded_icon page_image
  | page_octet_stream | page_other => send_status not_found
  end.

(** [to_local_path()] without a target is that of the root. *)
Definition dispatch_file (target : string) : http_reply :=
  let open_page path :=
    if can_open path then send_file path (file_media_type path page_octet_stream)
    else send_status not_found in
  let path := to_local_path target in
  if is_empty path then send_status bad_target
  else if has_extension path then open_page path
  else
    let path := to_local_path "/" in
    if is_empty path then send_status not_implemented else open_page path.

(** The service of pages, of a request that is not handled. *)
Definition dispatch_page (target : string) : http_reply :=
  if negb (is_empty (site_path options)) then dispatch_file target
  else if pages_enabled options then dispatch_embedded target
  else send_status not_implemented.

(** The checks of a request; the rest is an object, or else a page. *)
Definition refused (get : incoming) (target : string) : option http_status :=
  if negb (is_origin_form target) then Some bad_target
  else if negb (allowed_origin get) then Some forbidden
  else if negb (allowed_host get) then Some bad_host
  else None.

End Html.
