(* ===== verification/MempoolFile.v ===== *)
(** The bitcoind mempool file ([serialize_mempool] and [parse_mempool] of
    src/utilities/chain.cpp).

    A reader is a position in the bytes of the file, which the parser deobfuscates
    in place; a read past the end invalidates it. *)
From S2P Require Import Prelude Rpc Errors System.

(** ** Bytes *)

Definition is_byte (b : Z) : Prop := 0 <= b < 256.

(** [write_8_bytes_little_endian], and its reading, of any number of bytes. *)
Fixpoint to_little_endian (size : nat) (n : Z) : list Z :=
  match size with
  | O => []
  | S size => n mod 256 :: to_little_endian size (n / 256)
  end.

Fixpoint from_little_endian (bytes : list Z) : Z :=
  match bytes with
  | [] => 0
  | b :: bytes => b + 256 * from_little_endian bytes
  end.

Lemma to_little_endian_length size n : length (to_little_endian size n) = size.
Proof. revert n. induction size as [|size IH]; intros n; [done|]. simpl. by rewrite IH. Qed.

Lemma to_little_endian_bytes size n : Forall is_byte (to_little_endian size n).
Proof.
  revert n. induction size as [|size IH]; intros n; constructor; [|apply IH].
  unfold is_byte. apply Z.mod_pos_bound. lia.
Qed.

Lemma from_to_little_endian size n :
  0 <= n < 256 ^ Z.of_nat size → from_little_endian (to_little_endian size n) = n.
Proof.
  revert n. induction size as [|size IH]; intros n Hn; simpl; [lia|].
  rewrite Nat2Z.inj_succ, Z.pow_succ_r in Hn by lia.
  rewrite IH.
  - pose proof (Z.div_mod n 256). lia.
  - split; [apply Z.div_pos; lia|]. apply Z.div_lt_upper_bound; lia.
Qed.

(** ** The store and transactions *)

(** [chain::transaction] with its serialization, with witnesses. *)
Class WireTransactions := {
  wire_tx : Type;
  tx_data : wire_tx → list Z;
  (** The transaction at the front of some bytes, and the bytes that follow. *)
  read_tx : list Z → option (wire_tx * list Z);
  (** The (invalid) transaction that is constructed by a failed read. *)
  invalid_tx : wire_tx;
}.

Class WireTransactionsLaws `{WireTransactions} : Prop := {
  read_tx_data tx rest : read_tx (tx_data tx ++ rest) = Some (tx, rest);
  (** A read does not return more bytes than there are. *)
  read_tx_shorter data tx rest :
    read_tx data = Some (tx, rest) → (length rest <= length data)%nat;
}.

Class PoolStore `{WireTransactions} := {
  pool : Type;
  pool_link : Type;
  (** A code, or the links of the confirmable transactions. *)
  get_confirmable_txs : pool → code + list pool_link;
  get_pool_transaction : pool → pool_link → option wire_tx;
  get_pooled_time : pool → pool_link → option Z;
}.

Definition mempool_unobfuscated : Z := 1.
Definition mempool_obfuscated : Z := 2.
Definition mempool_key_size : nat := 8.
Definition mempool_key_offset : nat := 9.
Definition mempool_body_offset : nat := 17.

Section File.
Context `{PoolStore}.

(** The loop over the links. *)
Fixpoint write_txs (q : pool) (links : list pool_link) : option (list Z) :=
  match links with
  | [] => Some []
  | link :: links =>
      match get_pool_transaction q link, get_pooled_time q link with
      | Some tx, Some time =>
          match write_txs q links with
          | Some rest =>
              Some (tx_data tx ++ to_little_endian 8 time ++ to_little_endian 8 0 ++ rest)%list
          | None => None
          end
      | _, _ => None
      end
  end.

Definition serialize_mempool (q : pool) : option (list Z) :=
  match get_confirmable_txs q with
  | inl _ => None
  | inr links =>
      match write_txs q links with
      | Some txs =>
          Some (to_little_endian 8 mempool_unobfuscated ++
                to_little_endian 8 (Z.of_nat (length links)) ++ txs ++ [0] ++ [0])%list
      | None => None
      end
  end.

(** ** The parser *)

(** Some bytes at a position. *)
Definition read_bytes (data : list Z) (position size : nat) : option (list Z * nat) :=
  if (position + size <=? length data)%nat
  then Some (take size (drop position data), (position + size)%nat)
  else None.

Definition read_number (data : list Z) (position size : nat) : option (Z * nat) :=
  match read_bytes data position size with
  | Some (bytes, position) => Some (from_little_endian bytes, position)
  | None => None
  end.

(** [read_size]: a variable length integer. *)
Definition read_size (data : list Z) (position : nat) : option (Z * nat) :=
  match read_number data position 1 with
  | Some (first, position) =>
      if first =? 0xfd then read_number data position 2
      else if first =? 0xfe then read_number data position 4
      else if first =? 0xff then read_number data position 8
      else Some (first, position)
  | None => None
  end.

(** The loop over the indexes from the body on; the key is before the body. *)
Definition deobfuscate (data : list Z) : list Z :=
  imap (λ index b,
    if (index <? mempool_body_offset)%nat then b
    else Z.lxor b (default 0 (data !! (mempool_key_offset + index mod mempool_key_size)%nat))) data.

(** The loop over the transactions, while the source is valid; also the transaction
    of a failed read is recorded. *)
Fixpoint read_txs (fuel : nat) (count : Z) (data : list Z) : option (bool * list wire_tx) :=
  if count =? 0 then Some (true, [])
  else
    match fuel with
    | O => None
    | S fuel =>
        match read_tx data with
        | None => Some (false, [invalid_tx])
        | Some (tx, rest) =>
            match read_bytes rest 0 16 with
            | None => Some (false, [tx])
            | Some (_, position) =>
                match read_txs fuel (count - 1) (drop position rest) with
                | Some (valid, txs) => Some (valid, tx :: txs)
                | None => None
                end
            end
        end
    end.

(** The body of the parser, from a position on. *)
Definition parse_body (fuel : nat) (data : list Z) (position : nat) : option (bool * list wire_tx) :=
  match read_number data position 8 with
  | None => Some (false, [])
  | Some (count, position) => read_txs fuel count (drop position data)
  end.

Definition parse_mempool (fuel : nat) (data : list Z) : option (bool * list wire_tx) :=
  match read_number data 0 8 with
  | None => Some (false, [])
  | Some (version, position) =>
      if version =? mempool_obfuscated then
        match read_size data position with
        | None => Some (false, [])
        | Some (size, position) =>
            if negb (size =? Z.of_nat mempool_key_size) ||
               (length data <? mempool_body_offset)%nat
            then Some (false, [])
            else
              match read_bytes data position mempool_key_size with
              | None => Some (false, [])
              | Some (_, position) => parse_body fuel (deobfuscate data) position
              end
        end
      else if negb (version =? mempool_unobfuscated) then Some (false, [])
      else parse_body fuel data position
  end.

(** ** The obfuscated form (version 2), as bitcoind writes it *)

(** Each byte of the body, by its position in the file. *)
Definition obfuscate_body (key body : list Z) : list Z :=
  imap (λ i b, Z.lxor b (default 0 (key !! ((mempool_body_offset + i) mod mempool_key_size)%nat))) body.

Definition obfuscated_file (key body : list Z) : list Z :=
  (to_little_endian 8 mempool_obfuscated ++ [8] ++ key ++ obfuscate_body key body)%list.

(** ** Lemmas *)

Lemma read_bytes_app prefix bytes rest :
  read_bytes (prefix ++ bytes ++ rest) (length prefix) (length bytes) =
    Some (bytes, (length prefix + length bytes)%nat).
Proof.
  unfold read_bytes. rewrite !length_app.
  destruct (Nat.leb_spec (length prefix + length bytes)
    (length prefix + (length bytes + length rest))); [|lia].
  by rewrite drop_app_length, take_app_length.
Qed.

Lemma read_number_app prefix size n rest :
  0 <= n < 256 ^ Z.of_nat size →
  read_number (prefix ++ to_little_endian size n ++ rest) (length prefix) size =
    Some (n, (length prefix + size)%nat).
Proof.
  intros Hn. unfold read_number. rewrite <-(to_little_endian_length size n) at 2 3.
  rewrite read_bytes_app, from_to_little_endian by done. done.
Qed.

Lemma imap_id {A} (f : nat → A → A) l : (∀ i x, l !! i = Some x → f i x = x) → imap f l = l.
Proof.
  revert f. induction l as [|x l IH]; intros f Hf; [done|]. simpl. f_equal; [by apply Hf|].
  apply IH. intros i y Hy. by apply (Hf (S i)).
Qed.

Lemma imap_compose {A B C} (f : nat → B → C) (g : nat → A → B) l :
  imap f (imap g l) = imap (λ i x, f i (g i x)) l.
Proof.
  revert f g. induction l as [|x l IH]; intros f g; [done|]. simpl. f_equal. apply (IH (f ∘ S) (g ∘ S)).
Qed.

(** Obfuscation is undone. *)
Lemma deobfuscate_app header key body :
  length header = mempool_key_offset → length key = mempool_key_size →
  deobfuscate (header ++ key ++ obfuscate_body key body) = (header ++ key ++ body)%list.
Proof.
  unfold deobfuscate, mempool_key_offset, mempool_key_size, mempool_body_offset.
  intros Hheader Hkey. rewrite !imap_app. f_equal; [|f_equal].
  - apply imap_id. intros i x Hi. apply lookup_lt_Some in Hi. by destruct (Nat.ltb_spec i 17); [|lia].
  - apply imap_id. intros i x Hi. apply lookup_lt_Some in Hi. unfold compose.
    by destruct (Nat.ltb_spec (length header + i) 17); [|lia].
  - unfold obfuscate_body, mempool_key_size, mempool_body_offset. rewrite imap_compose. apply imap_id.
    intros i x _. unfold compose. rewrite Hheader, Hkey.
    destruct (Nat.ltb_spec (9 + (8 + i)) 17); [lia|].
    replace (9 + (8 + i))%nat with (17 + i)%nat by lia.
    pose proof (Nat.mod_upper_bound (17 + i) 8 ltac:(lia)).
    rewrite (lookup_app_r header) by lia. rewrite lookup_app_l by lia.
    replace (9 + (17 + i) mod 8 - length header)%nat with ((17 + i) mod 8)%nat by lia.
    by rewrite Z.lxor_assoc, Z.lxor_nilpotent, Z.lxor_0_r.
Qed.

End File.

#[local] Opaque to_little_endian.

Section FileProofs.
Context `{PoolStore} `{!WireTransactionsLaws}.

(** A written list of transactions is read. *)
Lemma read_write_txs fuel q links txs data rest :
  mapM (get_pool_transaction q) links = Some txs → write_txs q links = Some data →
  (length links <= fuel)%nat →
  read_txs fuel (Z.of_nat (length links)) (data ++ rest)%list = Some (true, txs).
Proof.
  revert fuel txs data. induction links as [|link links IH]; intros fuel txs data; simpl.
  { intros [= <-] [= <-] _. by destruct fuel. }
  destruct (get_pool_transaction q link) as [tx|]; [|done]. simpl.
  destruct (mapM (get_pool_transaction q) links) as [txs'|]; [|done]. simpl. intros [= <-].
  destruct (get_pooled_time q link) as [time|]; [|done].
  destruct (write_txs q links) as [data'|]; [|done]. intros [= <-] Hfuel.
  destruct fuel as [|fuel]; [lia|]. cbn [read_txs].
  destruct (Z.eqb_spec (Z.of_nat (S (length links))) 0); [lia|].
  rewrite <-!app_assoc, read_tx_data.
  rewrite (app_assoc (to_little_endian 8 time)). 
  pose proof (read_bytes_app [] (to_little_endian 8 time ++ to_little_endian 8 0)
    (data' ++ rest)) as Hread.
  rewrite length_app, !to_little_endian_length in Hread. simpl (length []) in Hread.
  cbn [app] in Hread. change (8 + 8)%nat with 16%nat in Hread. rewrite Hread.
  replace (Z.of_nat (S (length links)) - 1) with (Z.of_nat (length links)) by lia.
  assert (drop (0 + 16) ((to_little_endian 8 time ++ to_little_endian 8 0) ++ data' ++ rest) =
    (data' ++ rest)%list) as ->.
  { replace (0 + 16)%nat with (length (to_little_endian 8 time ++ to_little_endian 8 0))
      by (by rewrite length_app, !to_little_endian_length). apply drop_app_length. }
  rewrite (IH fuel txs' data') by (done || lia). done.
Qed.

(** Each turn of the loop reads at least sixteen bytes. *)
Lemma read_txs_terminates fuel count data :
  (length data < fuel)%nat → read_txs fuel count data ≠ None.
Proof.
  revert count data. induction fuel as [|fuel IH]; intros count data Hfuel; [lia|]. simpl.
  destruct (count =? 0); [done|].
  destruct (read_tx data) as [[tx rest]|] eqn:Htx; [|done]. apply read_tx_shorter in Htx.
  unfold read_bytes. destruct (Nat.leb_spec (0 + 16) (length rest)) as [Hlen|]; [|done].
  specialize (IH (count - 1) (drop (0 + 16) rest)).
  destruct (read_txs fuel _ _) as [[valid txs]|]; [done|]. apply IH. rewrite length_drop. lia.
Qed.

Lemma parse_body_terminates fuel data position :
  (length data < fuel)%nat → parse_body fuel data position ≠ None.
Proof.
  intros Hfuel. unfold parse_body. destruct (read_number data position 8) as [[count p]|]; [|done].
  apply read_txs_terminates. rewrite length_drop. lia.
Qed.

Lemma read_number_front size n rest :
  0 <= n < 256 ^ Z.of_nat size → read_number (to_little_endian size n ++ rest)%list 0 size = Some (n, size).
Proof. apply (read_number_app [] size n rest). Qed.

Lemma drop_number size n rest : drop size (to_little_endian size n ++ rest)%list = rest.
Proof. rewrite <-(to_little_endian_length size n) at 1. apply drop_app_length. Qed.

Lemma read_bytes_shift prefix rest size :
  read_bytes (prefix ++ rest) (length prefix) size =
    match read_bytes rest 0 size with
    | Some (bytes, position) => Some (bytes, (length prefix + position)%nat)
    | None => None
    end.
Proof.
  unfold read_bytes. rewrite length_app, drop_app_length, drop_0.
  destruct (Nat.leb_spec (length prefix + size) (length prefix + length rest)),
    (Nat.leb_spec (0 + size) (length rest)); try lia; done.
Qed.

(** The body is read from where the header ends. *)
Lemma parse_body_shift fuel prefix rest :
  parse_body fuel (prefix ++ rest) (length prefix) = parse_body fuel rest 0.
Proof.
  unfold parse_body, read_number. rewrite read_bytes_shift.
  destruct (read_bytes rest 0 8) as [[bytes position]|]; [|done].
  f_equal. rewrite drop_app_ge by lia. f_equal. lia.
Qed.

Lemma parse_unobfuscated fuel file :
  parse_mempool fuel (to_little_endian 8 mempool_unobfuscated ++ file)%list = parse_body fuel file 0.
Proof.
  unfold parse_mempool. rewrite read_number_front by (vm_compute; done). cbn [mempool_unobfuscated].
  change (1 =? mempool_obfuscated) with false. change (negb (1 =? 1)) with false. cbv iota.
  pose proof (parse_body_shift fuel (to_little_endian 8 1) file) as Hshift.
  rewrite to_little_endian_length in Hshift. exact Hshift.
Qed.

Lemma parse_obfuscated fuel key file :
  length key = mempool_key_size → parse_mempool fuel (obfuscated_file key file) = parse_body fuel file 0.
Proof.
  intros Hkey. unfold parse_mempool, obfuscated_file. rewrite read_number_front by (vm_compute; done).
  change (mempool_obfuscated =? mempool_obfuscated) with true. cbv iota.
  set (header := to_little_endian 8 mempool_obfuscated).
  assert (length header = 8%nat) as Hheader by apply to_little_endian_length.
  assert (∀ rest, read_number (header ++ [8] ++ rest)%list 8 1 = Some (8, 9%nat)) as Hsize.
  { intros rest. unfold read_number. pose proof (read_bytes_shift header ([8] ++ rest) 1) as Hshift.
    rewrite Hheader in Hshift. by rewrite Hshift. }
  unfold read_size. rewrite Hsize. change (8 =? 253) with false. change (8 =? 254) with false.
  change (8 =? 255) with false. cbv iota. change (negb (8 =? Z.of_nat mempool_key_size)) with false.
  rewrite !length_app, Hheader, Hkey. simpl (length [8]).
  destruct (Nat.ltb_spec (8 + (1 + (mempool_key_size + length (obfuscate_body key file)))) mempool_body_offset)
    as [Hlt|_]; [unfold mempool_key_size, mempool_body_offset in Hlt; lia|]. simpl orb. cbv iota.
  rewrite !(app_assoc header). assert (length (header ++ [8]) = 9%nat) as Hlen by (by rewrite length_app, Hheader).
  pose proof (read_bytes_app (header ++ [8]) key (obfuscate_body key file)) as Hread.
  rewrite Hlen, Hkey in Hread. rewrite Hread, deobfuscate_app, app_assoc by done.
  pose proof (parse_body_shift fuel ((header ++ [8]) ++ key) file) as Hshift.
  rewrite length_app, Hlen, Hkey in Hshift. exact Hshift.
Qed.

Lemma write_txs_txs q links bytes :
  write_txs q links = Some bytes → ∃ txs, mapM (get_pool_transaction q) links = Some txs.
Proof.
  revert bytes. induction links as [|link links IH]; intros bytes; simpl; [by eexists|].
  destruct (get_pool_transaction q link); [|done]. destruct (get_pooled_time q link); [|done].
  destruct (write_txs q links) as [rest|]; [|done]. intros _.
  destruct (IH rest eq_refl) as [txs ->]. by eexists.
Qed.

Lemma parse_saved q links data :
  get_confirmable_txs q = inr links → serialize_mempool q = Some data →
  Z.of_nat (length links) < 2 ^ 64 →
  ∃ txs, mapM (get_pool_transaction q) links = Some txs ∧
    ∀ fuel, (length links <= fuel)%nat → parse_mempool fuel data = Some (true, txs).
Proof.
  intros Hlinks Hdata Hcount. unfold serialize_mempool in Hdata. rewrite Hlinks in Hdata.
  destruct (write_txs q links) as [bytes|] eqn:Hbytes; [|done]. injection Hdata as <-.
  destruct (write_txs_txs q links bytes Hbytes) as [txs Htxs]. exists txs. split; [done|].
  intros fuel Hfuel. rewrite parse_unobfuscated. unfold parse_body.
  rewrite read_number_front, drop_number by lia. by apply (read_write_txs fuel q links txs bytes).
Qed.

End FileProofs.

(** ** A reference store, for examples *)

(** A transaction is one byte, and the pool a list of them. *)
#[local] Instance example_wire : WireTransactions := {
  wire_tx := Z;
  tx_data tx := [tx];
  read_tx data := match data with [] => None | tx :: rest => Some (tx, rest) end;
  invalid_tx := 0;
}.

#[local] Instance example_wire_laws : WireTransactionsLaws.
Proof. split; [done|]. intros [|b data] tx rest; simpl; [done|]. intros [= <- <-]. lia. Qed.

#[local] Instance example_pool : PoolStore := {
  pool := list Z;
  pool_link := Z;
  get_confirmable_txs q := inr q;
  get_pool_transaction _ link := Some link;
  get_pooled_time _ _ := Some 1000;
}.

(** ** Properties *)

(** C32: the parser reads the transactions of the file that the serializer writes for
    a pool, in order; and it reads the same from the obfuscated form of any file,
    whatever the key. *)
Theorem mempool_file_round_trip `{PoolStore} `{!WireTransactionsLaws} :
  (∀ q links data fuel, get_confirmable_txs q = inr links → serialize_mempool q = Some data →
    Z.of_nat (length links) < 2 ^ 64 → (length links <= fuel)%nat →
    ∃ txs, mapM (get_pool_transaction q) links = Some txs ∧
      parse_mempool fuel data = Some (true, txs)) ∧
  (∀ key file fuel, length key = mempool_key_size →
    parse_mempool fuel (obfuscated_file key file) =
      parse_mempool fuel (to_little_endian 8 mempool_unobfuscated ++ file)%list).
Proof.
  split.
  - intros q links data fuel Hlinks Hdata Hcount Hfuel.
    destruct (parse_saved q links data Hlinks Hdata Hcount) as (txs & Htxs & Hparse). eauto.
  - intros key file fuel Hkey. by rewrite parse_unobfuscated, parse_obfuscated.
Qed.

Lemma mempool_file_round_trip_witness :
  ∃ data, serialize_mempool ([7; 8] : list Z) = Some data ∧
    parse_mempool 2 data = Some (true, [7; 8]) ∧
    parse_mempool 2 (obfuscated_file [1; 2; 3; 4; 5; 6; 7; 8] (drop 8 data)) = Some (true, [7; 8]).
Proof.
  assert (∃ data, serialize_mempool ([7; 8] : list Z) = Some data ∧
    data = (to_little_endian 8 mempool_unobfuscated ++ drop 8 data)%list) as (data & Hdata & Hparts)
    by (eexists; split; vm_compute; reflexivity).
  exists data. split; [exact Hdata|].
  destruct (proj1 (@mempool_file_round_trip example_wire example_pool example_wire_laws) [7; 8] [7; 8] data 2%nat eq_refl Hdata
    ltac:(reflexivity) (le_n 2)) as (txs & Htxs & Hparse).
  injection Htxs as <-. split; [exact Hparse|].
  rewrite (proj2 (@mempool_file_round_trip example_wire example_pool example_wire_laws) [1; 2; 3; 4; 5; 6; 7; 8] (drop 8 data) 2%nat eq_refl).
  rewrite <-Hparts. exact Hparse.
Defined.

(** The parser always returns: whatever the file and the count of transactions
    that it claims, the parser ends within as many turns as the file has bytes. *)
Lemma parse_mempool_terminates `{PoolStore} `{!WireTransactionsLaws} data :
  parse_mempool (S (length data)) data ≠ None.
Proof.
  unfold parse_mempool. destruct (read_number data 0 8) as [[version position]|]; [|done].
  assert (length (deobfuscate data) = length data) as Hlen by apply length_imap.
  destruct (version =? mempool_obfuscated); [|destruct (negb _); [done|apply parse_body_terminates; lia]].
  destruct (read_size data position) as [[size p]|]; [|done]. destruct (_ || _); [done|].
  destruct (read_bytes data p mempool_key_size) as [[key p']|]; [|done].
  apply parse_body_terminates. lia.
Qed.

Lemma parse_mempool_terminates_witness :
  parse_mempool 26 (to_little_endian 8 1 ++ to_little_endian 8 (2 ^ 64 - 1) ++ replicate 9 0)%list ≠ None.
Proof.
  exact (parse_mempool_terminates
    (to_little_endian 8 1 ++ to_little_endian 8 (2 ^ 64 - 1) ++ replicate 9 0)%list).
Defined.
