(* ===== verification/Archive.v ===== *)
(** The archive that the bitcoind handlers query ([node::query]), and the replies
    that they send through the senders of src/protocols/bitcoind/protocol_bitcoind.cpp
    (Dispatch.v). *)
From S2P Require Import Prelude Rpc Errors System FeeHistogram ElectrumSubscribe Dispatch.

(** ** Blocks of the archive *)

Class ChainArchive := {
  archive : Type;
  (** A link to a stored header, or to none. *)
  header_link : Type;
  is_terminal : header_link → bool;
  (** [chain::header]. *)
  chain_header : Type;
  header_hash : chain_header → hash_digest;
  header_merkle_root : chain_header → hash_digest;
  (** The link of a header by its hash, and of the confirmed header at a height. *)
  to_header : archive → hash_digest → header_link;
  to_confirmed : archive → Z → header_link;
  to_top_confirmed : archive → header_link;
  get_top_confirmed : archive → Z;
  get_top_confirmed_hash : archive → hash_digest;
  get_header_key : archive → header_link → hash_digest;
  get_header : archive → header_link → option chain_header;
  get_height : archive → header_link → option Z;
  is_confirmed_block : archive → header_link → bool;
  (** Whether the transactions of a block are stored. *)
  is_associated : archive → header_link → bool;
  (** The hashes of the transactions of a block, in order; none on a fault. *)
  get_tx_keys : archive → header_link → list hash_digest;
  get_tx_count : archive → header_link → Z;
  (** The confirmed block of a transaction, by its hash. *)
  find_confirmed_block : archive → hash_digest → header_link;
}.

(** A stored header is linked by its hash, and a block that is associated has the
    transactions that its header commits to. *)
Class ChainArchiveLaws `{ChainArchive} (commits : chain_header → list hash_digest → Prop) : Prop := {
  to_header_link q link header :
    get_header q link = Some header → to_header q (header_hash header) = link;
  confirmed_associated q link : is_confirmed_block q link = true → is_associated q link = true;
  associated_header q link : is_associated q link = true → is_Some (get_header q link);
  get_header_hash q hash header :
    get_header q (to_header q hash) = Some header → header_hash header = hash;
  associated_commits q link header :
    is_associated q link = true → get_header q link = Some header →
    commits header (get_tx_keys q link);
  associated_count q link :
    is_associated q link = true → get_tx_count q link = Z.of_nat (length (get_tx_keys q link));
}.

(** ** Transactions and outputs of the archive *)

Class TxArchive `{ChainArchive} `{Scripts} := {
  tx_link : Type;
  is_tx_terminal : tx_link → bool;
  output_link : Type;
  is_output_terminal : output_link → bool;
  (** An output by the hash of its transaction and its index, and its transaction. *)
  to_output : archive → hash_digest → Z → output_link;
  to_output_tx : archive → output_link → tx_link;
  (** The value and the script of an output. *)
  get_output : archive → output_link → option (Z * script);
  (** Spent by a confirmed transaction, and also by one of the pool. *)
  is_confirmed_spent : archive → output_link → bool;
  is_confirmable_spent : archive → output_link → bool;
  (** The height of a confirmed transaction. *)
  get_tx_height : archive → tx_link → option Z;
  is_pooled : archive → tx_link → bool;
  is_confirmable_tx : archive → tx_link → bool;
  is_coinbase_tx : archive → tx_link → bool;
  get_tx_key : archive → tx_link → hash_digest;
  satoshi_per_bitcoin : Z;
}.

(** Satoshis in bitcoins. *)
Definition bitcoins `{TxArchive} (satoshis : Z) : double :=
  PrimFloat.div (to_floating satoshis) (to_floating satoshi_per_bitcoin).

(** ** Replies *)

(** A handler sends a result, a hex text that is written in place, or an error. *)
Inductive reply :=
  | reply_result (v : option value_t)
  | reply_hex (text : string)
  | reply_error (ec : code) (data : option value_t).

Definition reply_value (v : value_t) : reply := reply_result (Some v).

Definition bitcoind_error (e : BitcoindError.error_t) : reply :=
  reply_error (BitcoindError.make e) None.

(** [send_error(ec, text)]. *)
Definition bitcoind_error_text (e : BitcoindError.error_t) (text : string) : reply :=
  reply_error (BitcoindError.make e) (Some (string_t text)).

(** A handler returns whether its subscription is kept, and what it replies. *)
Abbreviation handled := (bool * list reply)%type.

Definition replied (r : reply) : handled := (true, [r]).
Definition failed (e : BitcoindError.error_t) : handled := replied (bitcoind_error e).
Definition failed_text (e : BitcoindError.error_t) (text : string) : handled :=
  replied (bitcoind_error_text e text).

(** The senders, in the context of the request. *)
Definition respond (full_duplex : bool) (serialize : response_t → string) (r : reply)
    (c : context) : option (context * list written) :=
  match r with
  | reply_result v => send_result full_duplex v c
  | reply_hex text => (send_hex full_duplex serialize (Some text) c).2
  | reply_error ec data => send_error full_duplex ec data c
  end.

(** ** Deferred replies *)

(** What a parallel query posts to the strand. *)
Inductive posted_reply :=
  | post_fail (e : BitcoindError.error_t)
  | post_object (o : object)
  | post_value (v : value_t).

(** The completions of protocol_bitcoind_blockchain.cpp. *)
Definition fail_ (stopped : bool) (e : BitcoindError.error_t) : list reply :=
  if stopped then [] else [bitcoind_error e].
Definition complete_object (stopped : bool) (o : object) : list reply :=
  if stopped then [] else [reply_value (object_t o)].
Definition complete_value (stopped : bool) (v : value_t) : list reply :=
  if stopped then [] else [reply_value v].

Definition run_posted (stopped : bool) (p : posted_reply) : list reply :=
  match p with
  | post_fail e => fail_ stopped e
  | post_object o => complete_object stopped o
  | post_value v => complete_value stopped v
  end.
