(* ===== verification/TxOutProof.v ===== *)
(** Proofs of transactions of the bitcoind service: [gettxoutproof] and
    [verifytxoutproof] (src/protocols/bitcoind/protocol_bitcoind_blockchain.cpp), over
    the partial merkle trees of Merkle.v. *)
From S2P Require Import Prelude Rpc Errors System Merkle Dispatch Archive.

(** [messages::peer::merkle_block]. *)
Record merkle_block `{ChainArchive} := MerkleBlock {
  block_header : chain_header;
  transactions : Z;
  hashes : list hash_digest;
  flags : data_chunk;
}.

(** Its wire form at the maximum version. *)
Class MerkleBlocks `{ChainArchive} := {
  serialize_merkle : merkle_block → option data_chunk;
  deserialize_merkle : data_chunk → option merkle_block;
}.

(** The element that a [std::unordered_set] iterates first. *)
Class Unordered := { cbegin : gset hash_digest → hash_digest }.

Section Proofs.
Context `{Text} `{MerkleMath} `{MerkleBlocks} `{Unordered}.

(** ** Operations *)

(** The loop over the requested hashes. *)
Fixpoint insert_targets (txids : array) (targets : gset hash_digest) : option (gset hash_digest) :=
  match txids with
  | [] => Some targets
  | string_t text :: txids =>
      match decode_hash text with
      | None => None
      | Some hash => if bool_decide (hash ∈ targets) then None
                     else insert_targets txids ({[hash]} ∪ targets)
      end
  | _ :: _ => None
  end.

(** [None] if the partial merkle tree does not exist. *)
Definition handle_get_tx_out_proof (q : archive) (stopped : bool) (txids : array)
    (blockhash : string) : option (list reply) :=
  if stopped then Some []
  else if (length txids =? 0)%nat then Some [bitcoind_error BitcoindError.invalid_parameter]
  else
    match insert_targets txids ∅ with
    | None => Some [bitcoind_error BitcoindError.invalid_parameter]
    | Some targets =>
        let link := find_confirmed_block q (cbegin targets) in
        match (if blockhash == "" then Some link else to_header q <$> decode_hash blockhash) with
        | None => Some [bitcoind_error BitcoindError.invalid_parameter]
        | Some link =>
            if negb (is_associated q link)
            then Some [bitcoind_error BitcoindError.invalid_address_or_key]
            else
              let keys := get_tx_keys q link in
              if (length keys =? 0)%nat then Some [bitcoind_error BitcoindError.internal_error]
              else
                let match_ := (λ key, bool_decide (key ∈ targets)) <$> keys in
                if negb (length (filter (λ b, b = true) match_) =? size targets)%nat
                then Some [bitcoind_error BitcoindError.invalid_address_or_key]
                else
                  match get_header q link with
                  | None => Some [bitcoind_error BitcoindError.internal_error]
                  | Some header =>
                      '(flags, hashes) ← build_partial_merkle keys match_;
                      let merkle := MerkleBlock _ header (Z.of_nat (length keys) mod 2 ^ 32) hashes flags in
                      Some [match serialize_merkle merkle with
                            | Some data => reply_hex (encode_base16 data)
                            | None => bitcoind_error BitcoindError.internal_error
                            end]
                  end
        end
    end.

(** [None] if the height of the tree does not exist. *)
Definition handle_verify_tx_out_proof (q : archive) (stopped : bool) (proof : string) :
    option (list reply) :=
  if stopped then Some []
  else
    match decode_base16 proof with
    | None => Some [bitcoind_error BitcoindError.invalid_parameter]
    | Some data =>
        match deserialize_merkle data with
        | None => Some [bitcoind_error BitcoindError.misc_error]
        | Some merkle =>
            '(ok, root, matched, _) ←
              extract_partial_merkle null_hash (Z.to_nat (transactions merkle)) (flags merkle)
                (hashes merkle);
            if negb ok || negb (bool_decide (root = header_merkle_root (block_header merkle)))
            then Some [reply_value (array_t [])]
            else
              let link := to_header q (header_hash (block_header merkle)) in
              if negb (is_confirmed_block q link) ||
                 negb (get_tx_count q link =? transactions merkle)
              then Some [bitcoind_error BitcoindError.invalid_address_or_key]
              else Some [reply_value (array_t (string_t ∘ encode_hash <$> matched))]
        end
    end.

(** ** Requested and matched transactions *)

(** The hashes of a request. *)
Definition requested (txids : array) : option (list hash_digest) :=
  mapM (λ item, match item with string_t text => decode_hash text | _ => None end) txids.

Lemma insert_targets_spec txids targets0 targets :
  insert_targets txids targets0 = Some targets →
  ∃ hs, requested txids = Some hs ∧ NoDup hs ∧
    Forall (λ h, h ∉ targets0) hs ∧ targets = list_to_set hs ∪ targets0.
Proof.
  revert targets0. induction txids as [|item txids IH]; intros targets0; cbn [insert_targets].
  { intros [= <-]. exists []. split_and!; [done|constructor|constructor|set_solver]. }
  destruct item as [| | |text| | | | | | | |]; try done.
  destruct (decode_hash text) as [hash|] eqn:Hhash; [|done].
  case_bool_decide as Hin; [done|]. intros (hs & Hreq & Hdup & Hnew & ->)%IH.
  exists (hash :: hs). unfold requested in *. cbn [mapM]. rewrite Hhash. cbn [mbind option_bind].
  rewrite Hreq. split_and!; [done| |constructor; [done|]|set_solver].
  - constructor; [|done]. intros Hx. rewrite Forall_forall in Hnew. apply Hnew in Hx. set_solver.
  - eapply Forall_impl; [exact Hnew|]. set_solver.
Qed.

Lemma targets_spec txids targets :
  insert_targets txids ∅ = Some targets →
  ∃ hs, requested txids = Some hs ∧ NoDup hs ∧ targets = list_to_set hs.
Proof.
  intros (hs & ? & ? & _ & ->)%insert_targets_spec. exists hs. by rewrite union_empty_r_L.
Qed.

(** The transactions at the matched positions are those that are wanted. *)
Lemma omap_matches (f : hash_digest → bool) keys :
  omap (λ i, keys !! i) (matches (f <$> keys)) = filter (λ key, f key = true) keys.
Proof.
  unfold matches. rewrite length_fmap. induction keys as [|key keys IH]; [done|].
  cbn [length]. rewrite <-cons_seq, <-fmap_S_seq, filter_cons, filter_cons.
  assert (omap (λ i, (key :: keys) !! i)
      (filter (λ i, (f <$> key :: keys) !! i = Some true) (S <$> seq 0 (length keys))) =
    filter (λ key, f key = true) keys) as Htail.
  { rewrite filter_fmap, omap_fmap. exact IH. }
  change ((f <$> key :: keys) !! 0%nat) with (Some (f key)).
  destruct (f key) eqn:Hf.
  - rewrite !decide_True by done. cbn [omap list_omap]. cbn [lookup list_lookup].
    f_equal. exact Htail.
  - rewrite !decide_False by done. exact Htail.
Qed.

(** All targets are in the block if as many of its transactions match. *)
Lemma all_targets (keys : list hash_digest) (targets : gset hash_digest) :
  NoDup keys → length (filter (λ key, key ∈ targets) keys) = size targets →
  list_to_set (filter (λ key, key ∈ targets) keys) = targets.
Proof.
  intros Hdup Hsize. apply set_subseteq_size_eq.
  - intros key. rewrite elem_of_list_to_set, list_elem_of_filter. tauto.
  - rewrite size_list_to_set by by apply NoDup_filter. lia.
Qed.

(** The block that a request selects, and the targets it has there. *)
Lemma get_tx_out_proof_inv q txids blockhash text :
  handle_get_tx_out_proof q false txids blockhash = Some [reply_hex text] →
  ∃ targets link header flags hashes data,
    let keys := get_tx_keys q link in
    insert_targets txids ∅ = Some targets ∧ is_associated q link = true ∧ keys ≠ [] ∧
    length (filter (λ key, key ∈ targets) keys) = size targets ∧
    get_header q link = Some header ∧
    build_partial_merkle keys ((λ key, bool_decide (key ∈ targets)) <$> keys) = Some (flags, hashes) ∧
    serialize_merkle (MerkleBlock _ header (Z.of_nat (length keys) mod 2 ^ 32) hashes flags) = Some data ∧
    text = encode_base16 data.
Proof.
  unfold handle_get_tx_out_proof. destruct (length txids =? 0)%nat; [done|].
  destruct (insert_targets txids ∅) as [targets|] eqn:Htargets; [|done].
  destruct (if blockhash == "" then _ else _) as [link|]; [|done].
  destruct (is_associated q link) eqn:Hassociated; [|done]. cbn [negb].
  destruct (Nat.eqb_spec (length (get_tx_keys q link)) 0) as [|Hne]; [done|].
  destruct (_ =? size targets)%nat eqn:Hsize; [apply Nat.eqb_eq in Hsize|done]. cbn [negb].
  destruct (get_header q link) as [header|] eqn:Hheader; [|done].
  destruct (build_partial_merkle _ _) as [[flags hashes]|] eqn:Hbuild; [|done].
  cbn [mbind option_bind]. destruct (serialize_merkle _) as [data|] eqn:Hdata; [|done].
  intros [= <-]. exists targets, link, header, flags, hashes, data. split_and!; try done.
  - intros Hnil. by rewrite Hnil in Hne.
  - rewrite <-Hsize, filter_fmap, length_fmap. f_equal. apply list_filter_iff.
    intros key. by rewrite bool_decide_eq_true.
Qed.

Lemma verify_tx_out_proof_inv q proof values :
  handle_verify_tx_out_proof q false proof = Some [reply_value (array_t values)] → values ≠ [] →
  ∃ merkle matched positions,
    let link := to_header q (header_hash (block_header merkle)) in
    extract_partial_merkle null_hash (Z.to_nat (transactions merkle)) (flags merkle) (hashes merkle) =
      Some (true, header_merkle_root (block_header merkle), matched, positions) ∧
    is_confirmed_block q link = true ∧ get_tx_count q link = transactions merkle ∧
    values = string_t ∘ encode_hash <$> matched.
Proof.
  unfold handle_verify_tx_out_proof. destruct (decode_base16 proof) as [data|]; [|done].
  destruct (deserialize_merkle data) as [merkle|]; [|done].
  destruct (extract_partial_merkle _ _ _ _) as [[[[ok root] matched] positions]|] eqn:Hx; [|done].
  cbn [mbind option_bind]. destruct ok; cbn [negb orb]; [|intros [= <-]; done].
  case_bool_decide as Hroot; cbn [negb]; [|intros [= <-]; done].
  destruct (is_confirmed_block _ _) eqn:Hconfirmed; cbn [negb orb]; [|done].
  destruct (Z.eqb_spec (get_tx_count q (to_header q (header_hash (block_header merkle))))
    (transactions merkle)) as [Hcount|]; cbn [negb]; [|done].
  intros [= <-] _. exists merkle, matched, positions. by subst root.
Qed.

End Proofs.

(** ** A reference archive, for examples: one confirmed block *)

Definition example_keys : list hash_digest := [replicate 32 1; replicate 32 2; replicate 32 3].

(** The header is its merkle root, and its own hash. *)
Definition example_header : hash_digest := default [] (head (level 2 example_keys)).

#[local] Instance example_chain : ChainArchive := {
  archive := unit;
  header_link := bool;
  is_terminal := negb;
  chain_header := hash_digest;
  header_hash h := h;
  header_merkle_root h := h;
  to_header _ hash := bool_decide (hash = example_header);
  to_confirmed _ height := height =? 0;
  to_top_confirmed _ := true;
  get_top_confirmed _ := 0;
  get_top_confirmed_hash _ := example_header;
  get_header_key _ link := if link then example_header else null_hash;
  get_header _ link := if link then Some example_header else None;
  get_height _ link := if link then Some 0 else None;
  is_confirmed_block _ link := link;
  is_associated _ link := link;
  get_tx_keys _ link := if link then example_keys else [];
  get_tx_count _ link := if link then 3 else 0;
  find_confirmed_block _ hash := bool_decide (hash ∈ example_keys);
}.

Definition example_archive : archive := ().

(** The message for the second and third transactions has one byte on the wire. *)
Definition example_block : merkle_block :=
  MerkleBlock _ (example_header : chain_header) 3
    (default ([], []) (build_partial_merkle example_keys [false; true; true])).2
    (default ([], []) (build_partial_merkle example_keys [false; true; true])).1.

Definition is_example_block (m : merkle_block) : bool :=
  bool_decide ((block_header m : hash_digest) = example_header) &&
  bool_decide (transactions m = 3) &&
  bool_decide (hashes m = hashes example_block) && bool_decide (flags m = flags example_block).

#[local] Instance example_blocks : MerkleBlocks := {
  serialize_merkle m := if is_example_block m then Some [1] else None;
  deserialize_merkle data := if bool_decide (data = [1]) then Some example_block else None;
}.

#[local] Instance example_order : Unordered := { cbegin s := default [] (head (elements s)) }.

Definition example_request : array :=
  [string_t (encode_hash (replicate 32 3)); string_t (encode_hash (replicate 32 2))].

Lemma example_distinct : siblings_distinct example_keys.
Proof.
  intros height pos l r Hh Hlt.
  assert (height < 2)%nat as Hsmall.
  { destruct (Nat.lt_ge_cases height 2) as [|Hge]; [done|]. exfalso.
    pose proof (Nat.pow_le_mono_r 2 2 height ltac:(lia) Hge) as Hp.
    change (length example_keys) with 3%nat in Hlt. change (2 ^ 2)%nat with 4%nat in Hp. nia. }
  destruct height as [|[|height]]; [| |lia];
    cbn -[calc_hash] in Hlt; (destruct pos as [|[|pos]]; [..|exfalso; lia]);
    (exfalso; lia) || (vm_compute; congruence).
Qed.

(** ** Properties *)

(** A header commits to the merkle root of the transactions of its block. *)
Definition commits `{ChainArchive} `{MerkleMath} (header : chain_header) (keys : list hash_digest) : Prop :=
  ∃ height, tree_height (length keys) = Some height ∧
    level height keys = [header_merkle_root header].

(** A message is read as it was written, if its count has 32 bits. *)
Class MerkleBlocksLaws `{MerkleBlocks} : Prop := {
  serialize_merkle_bytes m data :
    serialize_merkle m = Some data → Forall (λ b, 0 <= b < 256) data;
  deserialize_serialize_merkle m data :
    0 <= transactions m < 2 ^ 32 → serialize_merkle m = Some data →
    deserialize_merkle data = Some m;
}.

Class Base16Laws `{Text} : Prop := {
  decode_encode_base16 data :
    Forall (λ b, 0 <= b < 256) data → decode_base16 (encode_base16 data) = Some data;
}.

#[local] Instance example_chain_laws : ChainArchiveLaws commits.
Proof.
  split.
  - intros q [] header; [|done]. intros [= <-]. by apply bool_decide_true.
  - done.
  - intros q [] ?; [by eexists|done].
  - intros q hash header. unfold get_header, to_header, example_chain.
    case_bool_decide as Hh; [|done]. by intros [= <-].
  - intros q [] header _; [|done]. intros [= <-]. exists 2%nat. split; vm_compute; reflexivity.
  - by intros q [].
Qed.

#[local] Instance example_blocks_laws : MerkleBlocksLaws.
Proof.
  split.
  - intros m data. simpl. destruct (is_example_block m); [|done]. intros [= <-].
    repeat constructor; lia.
  - intros [header count hashes flags] data _. simpl. unfold is_example_block.
    repeat case_bool_decide; simpl in *; try done; intros [= <-]; by subst.
Qed.

#[local] Instance reference_base16 : Base16Laws.
Proof. split. apply reference_decode_encode. Qed.

(** C1: whatever proof a client presents, the transactions that [verifytxoutproof]
    answers are in a confirmed block of the archive, in ascending order - or else the
    proof holds another header with the hash of the block's header, or a second
    preimage of a node of the block's merkle tree. *)
Theorem verify_tx_out_proof_sound `{Text} `{MerkleMathLaws} `{MerkleBlocks}
    `{!ChainArchiveLaws commits} q proof values :
  handle_verify_tx_out_proof q false proof = Some [reply_value (array_t values)] → values ≠ [] →
  ∃ link header, is_confirmed_block q link = true ∧ get_header q link = Some header ∧
    let keys := get_tx_keys q link in
    (Z.of_nat (length keys) <= 2 ^ 62 →
     (∃ other, header_hash other = header_hash header ∧
        header_merkle_root other ≠ header_merkle_root header) ∨
     second_preimage keys ∨
     ∃ txids positions, values = string_t ∘ encode_hash <$> txids ∧
       Forall2 (λ txid i, keys !! i = Some txid) txids positions ∧
       positions `sublist_of` seq 0 (length keys)).
Proof.
  intros Hverify Hvalues.
  destruct (verify_tx_out_proof_inv _ _ _ Hverify Hvalues) as
    (merkle & matched & positions & Hx & Hconfirmed & Hcount & ->).
  set (link := to_header q (header_hash (block_header merkle))) in *.
  pose proof (confirmed_associated _ _ Hconfirmed) as Hassociated.
  destruct (associated_header _ _ Hassociated) as [header Hheader].
  exists link, header. split_and!; [done|done|]. intros keys Hmax.
  pose proof (get_header_hash _ _ _ Hheader) as Hhash.
  destruct (decide (header_merkle_root (block_header merkle) = header_merkle_root header)) as [Hroot|];
    [right|by left; exists (block_header merkle)].
  destruct (associated_commits _ _ _ Hassociated Hheader) as (height & Hheight & Hlevel).
  rewrite (associated_count _ _ Hassociated) in Hcount. rewrite <-Hcount, Nat2Z.id, Hroot in Hx.
  destruct (extract_partial_merkle_sound _ _ _ _ _ _ _ _ Hmax Hheight Hlevel Hx) as [|[Hf Hs]];
    [by left|right]. by exists matched, positions.
Qed.

Lemma verify_tx_out_proof_sound_witness :
  ∃ values, handle_verify_tx_out_proof example_archive false "01" = Some [reply_value (array_t values)] ∧
    ∃ txids positions, values = string_t ∘ encode_hash <$> txids ∧
      Forall2 (λ txid i, example_keys !! i = Some txid) txids positions ∧
      positions `sublist_of` seq 0 3.
Proof.
  assert (∃ values, handle_verify_tx_out_proof example_archive false "01" = Some [reply_value (array_t values)] ∧
    values ≠ []) as (values & Hverify & Hne) by (eexists; split; [vm_compute; reflexivity|done]).
  exists values. split; [exact Hverify|].
  destruct (verify_tx_out_proof_sound example_archive "01" values Hverify Hne) as
    ([] & header & _ & Hheader & Hproven); [|discriminate Hheader].
  destruct (Hproven ltac:(simpl; lia)) as [(other & Hhash & Hroot)|[Hsecond|Hproof]].
  - destruct (Hroot Hhash).
  - destruct Hsecond as (height & pos & l & r & l' & r' & _ & _ & _ & Hnode & Hdiff).
    apply reference_node_hash_inj in Hnode as [-> ->]. done.
  - exact Hproof.
Defined.


