(* ===== verification/BlockWait.v ===== *)
(** Long polling of blocks by the bitcoind service: [waitforblock],
    [waitforblockheight] and [waitfornewblock], with the chase events and the timer
    that end a wait (src/protocols/bitcoind/protocol_bitcoind_blockchain.cpp).

    The waiter of the channel is a state, and requests, events, the posted job and the
    timer are its transitions, each over the archive of its moment. A waiter holds the
    gate of its request, so that the channel reads no request while there is one. *)
From S2P Require Import Prelude Rpc Errors System Dispatch Archive.

(** A code of the network library. *)
Class RaceErrors := { operation_failed : code }.

Class RaceErrorsLaws `{RaceErrors} : Prop := {
  operation_failed_error : is_error operation_failed = true;
}.

(** ** State *)

Inductive wait := new_block | block | height.

(** What a waiter waits for; its gate and race are implicit in its identity. *)
Record waiter := Waiter {
  type : wait;
  target : Z;
  hash : hash_digest;
}.

(** [waiter_] with the identity of its pointer, the identities given so far, the
    timer handlers that are still to be invoked (also those of a stopped timer), and
    the posted jobs. *)
Record waits := Waits {
  waiter_ : option (nat * waiter);
  fresh : nat;
  timers : list nat;
  posted : nat;
}.

Definition no_waits : waits := Waits None 0 [] 0.

Inductive wait_request :=
  | wait_for_block (blockhash : string) (timeout : double)
  | wait_for_block_height (height : double) (timeout : double)
  | wait_for_new_block (timeout : double) (current_tip : string).

Section Wait.
Context `{Text} `{SizeMath} `{ChainArchive} `{RaceErrors}.

(** ** Operations *)

Definition send_top (q : archive) : list reply :=
  let link := to_top_confirmed q in
  match get_height q link with
  | None => [bitcoind_error BitcoindError.internal_error]
  | Some top =>
      [reply_value (object_t [("hash", string_t (encode_hash (get_header_key q link)));
        ("height", uint64_t top)])]
  end.

Definition wait_done (q : archive) (waiting : waiter) : bool :=
  match type waiting with
  | new_block | height => target waiting <=? get_top_confirmed q
  | block =>
      let link := to_header q (hash waiting) in
      negb (is_terminal link) && is_confirmed_block q link
  end.

Definition arm_wait (q : archive) (waiting : waiter) (timeout : double) (w : waits) :
    waits * list reply :=
  if wait_done q waiting then (w, send_top q)
  else
    match to_size timeout with
    | None => (w, [bitcoind_error BitcoindError.misc_error])
    | Some span =>
        let id := fresh w in
        (Waits (Some (id, waiting)) (S id)
          (if span =? 0 then timers w else id :: timers w) (posted w), [])
    end.

Definition handle_wait_for_block (q : archive) (blockhash : string) (timeout : double) (w : waits) :
    waits * list reply :=
  match decode_hash blockhash with
  | None => (w, [bitcoind_error BitcoindError.invalid_parameter])
  | Some hash => arm_wait q (Waiter block 0 hash) timeout w
  end.

Definition handle_wait_for_block_height (q : archive) (number timeout : double) (w : waits) :
    waits * list reply :=
  match to_size number with
  | None => (w, [bitcoind_error BitcoindError.invalid_parameter])
  | Some target => arm_wait q (Waiter height target []) timeout w
  end.

Definition handle_wait_for_new_block (q : archive) (timeout : double) (current_tip : string)
    (w : waits) : waits * list reply :=
  let next := Waiter new_block (get_top_confirmed q + 1) [] in
  if is_empty current_tip then arm_wait q next timeout w
  else
    match decode_hash current_tip with
    | None => arm_wait q next timeout w
    | Some given =>
        if bool_decide (given = get_top_confirmed_hash q) then arm_wait q next timeout w
        else (w, send_top q)
    end.

Definition handle_wait (q : archive) (r : wait_request) (w : waits) : waits * list reply :=
  match r with
  | wait_for_block blockhash timeout => handle_wait_for_block q blockhash timeout w
  | wait_for_block_height number timeout => handle_wait_for_block_height q number timeout w
  | wait_for_new_block timeout current_tip => handle_wait_for_new_block q timeout current_tip w
  end.

Definition complete_wait (q : archive) (stopped : bool) (ec : code) : list reply :=
  if stopped || code_eqb ec operation_failed then [] else send_top q.

(** The waiter is reset before its race is finished. *)
Definition reset_waiter (w : waits) : waits := Waits None (fresh w) (timers w) (posted w).

Definition do_wait_event (q : archive) (stopped : bool) (w : waits) : waits * list reply :=
  match waiter_ w with
  | None => (w, [])
  | Some (_, waiting) =>
      if wait_done q waiting
      then (reset_waiter w, complete_wait q stopped (Error.make Error.success))
      else (w, [])
  end.

Definition handle_wait_timeout (q : archive) (stopped : bool) (ec : code) (id : nat) (w : waits) :
    waits * list reply :=
  match waiter_ w with
  | Some (id', _) =>
      if (id =? id')%nat then (reset_waiter w, complete_wait q stopped ec) else (w, [])
  | None => (w, [])
  end.

(** [handle_chase]: whether the subscription is kept, and the posted job; [organized]
    is for the events of organization and reorganization. *)
Definition handle_wait_chase (stopped organized : bool) (w : waits) : bool * waits :=
  if stopped then (false, w)
  else (true, if organized then Waits (waiter_ w) (fresh w) (timers w) (S (posted w)) else w).

(** ** Steps of a channel that has not stopped *)

Inductive wait_event :=
  | wait_requested (r : wait_request)
  | wait_chased (organized : bool)
  | wait_job
  | wait_timer (ec : code) (id : nat).

(** [None] if the event cannot occur: a request is not read while a waiter holds its
    gate, a job runs once for each post, and a timer handler once for each start. *)
Definition wait_step (q : archive) (e : wait_event) (w : waits) : option (waits * list reply) :=
  match e with
  | wait_requested r =>
      match waiter_ w with
      | None => Some (handle_wait q r w)
      | Some _ => None
      end
  | wait_chased organized => Some ((handle_wait_chase false organized w).2, [])
  | wait_job =>
      match posted w with
      | O => None
      | S n => Some (do_wait_event q false (Waits (waiter_ w) (fresh w) (timers w) n))
      end
  | wait_timer ec id =>
      if bool_decide (id ∈ timers w)
      then Some (handle_wait_timeout q false ec id
        (Waits (waiter_ w) (fresh w) (filter (λ t, t ≠ id) (timers w)) (posted w)))
      else None
  end.

(** A run, with what it replies. *)
Fixpoint wait_run (es : list (archive * wait_event)) (w : waits) : option (waits * list reply) :=
  match es with
  | [] => Some (w, [])
  | (q, e) :: es =>
      '(w, rs) ← wait_step q e w;
      '(w, rest) ← wait_run es w;
      Some (w, rs ++ rest)%list
  end.

(** ** Invariant *)

Definition is_request (e : archive * wait_event) : bool :=
  match e.2 with wait_requested _ => true | _ => false end.

(** Timers were started for waiters that were armed. *)
Definition wait_ok (w : waits) : Prop :=
  (∀ id, id ∈ timers w → (id < fresh w)%nat) ∧
  (∀ id waiting, waiter_ w = Some (id, waiting) → (id < fresh w)%nat).

(** Timers end with a code of the timer, which is not that of an abandoned race. *)
Definition timers_complete (es : list (archive * wait_event)) : Prop :=
  Forall (λ e, ∀ ec id, e.2 = wait_timer ec id → ec ≠ operation_failed) es.

Definition armed (w : waits) : nat := match waiter_ w with Some _ => 1 | None => 0 end.

Context `{!RaceErrorsLaws}.

Lemma send_top_one q : length (send_top q) = 1%nat.
Proof. unfold send_top. by destruct (get_height _ _). Qed.

Lemma complete_wait_running q ec :
  ec ≠ operation_failed → complete_wait q false ec = send_top q.
Proof. intros Hec. unfold complete_wait, code_eqb. by rewrite bool_decide_false. Qed.

(** What a request waits for, and its timeout. *)
Definition waits_for (q : archive) (r : wait_request) : option waiter :=
  match r with
  | wait_for_block blockhash _ => Waiter block 0 <$> decode_hash blockhash
  | wait_for_block_height number _ => (λ target, Waiter height target []) <$> to_size number
  | wait_for_new_block _ _ => Some (Waiter new_block (get_top_confirmed q + 1) [])
  end.

Definition timeout_of (r : wait_request) : double :=
  match r with
  | wait_for_block _ timeout | wait_for_block_height _ timeout | wait_for_new_block timeout _ => timeout
  end.

(** A request is answered at once, or arms a waiter of its own. *)
Lemma handle_wait_cases q r w w' rs :
  handle_wait q r w = (w', rs) →
  w' = w ∧ length rs = 1%nat ∨
  ∃ waiting span, rs = [] ∧ waits_for q r = Some waiting ∧ wait_done q waiting = false ∧
    to_size (timeout_of r) = Some span ∧
    w' = Waits (Some (fresh w, waiting)) (S (fresh w))
      (if span =? 0 then timers w else fresh w :: timers w) (posted w).
Proof.
  assert (∀ waiting timeout, arm_wait q waiting timeout w = (w', rs) →
    w' = w ∧ length rs = 1%nat ∨
    ∃ span, rs = [] ∧ wait_done q waiting = false ∧ to_size timeout = Some span ∧
      w' = Waits (Some (fresh w, waiting)) (S (fresh w))
        (if span =? 0 then timers w else fresh w :: timers w) (posted w)) as Harm.
  { intros waiting timeout. unfold arm_wait. destruct (wait_done q waiting) eqn:Hdone.
    - intros [= <- <-]. left. by rewrite send_top_one.
    - destruct (to_size timeout) as [span|]; intros [= <- <-]; [right|by left].
      by exists span. }
  assert (∀ waiting, waits_for q r = Some waiting → arm_wait q waiting (timeout_of r) w = (w', rs) →
    w' = w ∧ length rs = 1%nat ∨
    ∃ waiting span, rs = [] ∧ waits_for q r = Some waiting ∧ wait_done q waiting = false ∧
      to_size (timeout_of r) = Some span ∧
      w' = Waits (Some (fresh w, waiting)) (S (fresh w))
        (if span =? 0 then timers w else fresh w :: timers w) (posted w)) as Hcase.
  { intros waiting Hfor [|(span & ? & ? & ? & ?)]%Harm; [by left|right]. by exists waiting, span. }
  destruct r as [blockhash timeout|number timeout|timeout tip]; cbn [handle_wait timeout_of waits_for] in *;
    unfold handle_wait_for_block, handle_wait_for_block_height, handle_wait_for_new_block.
  - destruct (decode_hash blockhash); [by apply Hcase|]. intros [= <- <-]. by left.
  - destruct (to_size number); [by apply Hcase|]. intros [= <- <-]. by left.
  - destruct (is_empty tip); [by apply Hcase|]. destruct (decode_hash tip); [|by apply Hcase].
    case_bool_decide; [by apply Hcase|]. intros [= <- <-]. left. by rewrite send_top_one.
Qed.

Lemma success_completes q : complete_wait q false (Error.make Error.success) = send_top q.
Proof. apply complete_wait_running. intros Heq. pose proof operation_failed_error as Hf. by rewrite <-Heq in Hf. Qed.

(** Fewer timers and posted jobs, and at most the same waiter. *)
Lemma wait_ok_less w w' :
  wait_ok w → fresh w' = fresh w → timers w' ⊆ timers w →
  waiter_ w' = None ∨ waiter_ w' = waiter_ w → wait_ok w'.
Proof.
  intros [Ht Hw] Hf Hsub Hwaiter. split; rewrite Hf; [intros id Hid; by apply Ht, Hsub|].
  intros id waiting Heq. destruct Hwaiter as [Hn|Hs]; [congruence|]. apply (Hw id waiting). congruence.
Qed.

Lemma wait_step_ok q e w w' rs :
  wait_ok w → timers_complete [(q, e)] → wait_step q e w = Some (w', rs) →
  wait_ok w' ∧
  (length rs + armed w' = armed w + if is_request (q, e) then 1 else 0)%nat.
Proof.
  intros Hok Hec. unfold timers_complete in Hec. rewrite Forall_singleton in Hec. unfold wait_step, armed.
  destruct e as [r|organized| |ec id]; cbn [is_request snd] in *.
  - destruct (waiter_ w) as [|] eqn:Hw; [done|]. intros [= Hhandle].
    destruct (handle_wait_cases q r w w' rs) as
      [[-> Hone]|(waiting & span & -> & _ & _ & _ & ->)]; [done|rewrite Hw; split; [done|lia]|].
    split; [|done]. destruct Hok as [Ht _]. split; cbn [timers waiter_ fresh].
    + intros id Hid. assert (id = fresh w ∨ id ∈ timers w) as [->|Hin] by
        (destruct (span =? 0); set_solver); [lia|]. apply Ht in Hin. lia.
    + intros id waiting' [= <- <-]. lia.
  - intros [= <- <-]. destruct organized; (split; [by apply (wait_ok_less w); [..|right]|]);
      cbn; by destruct (waiter_ w).
  - destruct (posted w) as [|n]; [done|]. unfold do_wait_event. cbn [waiter_].
    destruct (waiter_ w) as [[id waiting]|] eqn:Hw; [destruct (wait_done q waiting)|];
      intros [= <- <-]; cbn [reset_waiter waiter_ fresh timers];
      rewrite ?success_completes, ?send_top_one, ?Hw;
      (split; [apply (wait_ok_less w); cbn; auto|done]).
  - case_bool_decide as Hid; [|done]. unfold handle_wait_timeout. cbn [waiter_].
    assert (filter (λ t, t ≠ id) (timers w) ⊆ timers w) as Hsub
      by (intros t; rewrite list_elem_of_filter; tauto).
    rewrite (complete_wait_running q ec) by by eapply Hec.
    destruct (waiter_ w) as [[id' waiting]|] eqn:Hw; [destruct (id =? id')%nat|];
      intros [= <- <-]; cbn [reset_waiter waiter_ fresh timers];
      rewrite ?send_top_one, ?Hw;
      (split; [apply (wait_ok_less w); cbn; auto|done]).
Qed.

Lemma wait_run_ok es w w' rs :
  wait_ok w → timers_complete es → wait_run es w = Some (w', rs) →
  wait_ok w' ∧
  (length rs + armed w' = armed w + length (filter is_request es))%nat.
Proof.
  revert w rs. induction es as [|[q e] es IH]; intros w rs Hok Hec; cbn [wait_run].
  { intros [= <- <-]. simpl. split; [done|lia]. }
  apply Forall_cons in Hec as [He Hec].
  destruct (wait_step q e w) as [[w1 rs1]|] eqn:Hstep; [|done]. cbn [mbind option_bind].
  destruct (wait_run es w1) as [[w2 rs2]|] eqn:Hrun; [|done]. cbn [mbind option_bind].
  intros [= <- <-]. destruct (wait_step_ok q e w w1 rs1) as [Hok1 Hcount1]; [done|by constructor|done|].
  destruct (IH w1 rs2) as [Hok2 Hcount2]; [done..|]. split; [done|].
  rewrite length_app, filter_cons. destruct (is_request (q, e)) eqn:Hr;
    [rewrite decide_True by done|rewrite decide_False by (by intros [])]; cbn [length]; lia.
Qed.

(** ** What ends a wait *)

(** The event ends the wait of an identity: a job that finds it done, or its timer. *)
Definition ends (id : nat) (waiting : waiter) (e : archive * wait_event) : bool :=
  match e.2 with
  | wait_job => wait_done e.1 waiting
  | wait_timer _ id' => (id' =? id)%nat
  | _ => false
  end.

Lemma wait_step_waits id waiting q e w w' rs :
  waiter_ w = Some (id, waiting) → timers_complete [(q, e)] →
  wait_step q e w = Some (w', rs) →
  if ends id waiting (q, e)
  then rs = send_top q ∧ waiter_ w' = None
  else rs = [] ∧ waiter_ w' = Some (id, waiting).
Proof.
  intros Hw Hec. unfold timers_complete in Hec. rewrite Forall_singleton in Hec. unfold wait_step, ends. cbn [fst snd].
  destruct e as [r|organized| |ec id']; cbn [snd] in Hec.
  - by rewrite Hw.
  - intros [= <- <-]. by destruct organized.
  - destruct (posted w) as [|n]; [done|]. unfold do_wait_event. cbn [waiter_]. rewrite Hw.
    destruct (wait_done q waiting); intros [= <- <-]; by rewrite ?success_completes.
  - case_bool_decide as Hid; [|done]. unfold handle_wait_timeout. cbn [waiter_]. rewrite Hw.
    destruct (id' =? id)%nat; intros [= <- <-]; [|done].
    by rewrite complete_wait_running by by eapply Hec.
Qed.

(** A timer that has ended, or was never started, does not fire. *)
Lemma timer_absent id es w w' rs :
  id ∉ timers w → Forall (λ e, is_request e = false) es → wait_run es w = Some (w', rs) →
  Forall (λ e, ∀ ec, e.2 ≠ wait_timer ec id) es.
Proof.
  revert w rs. induction es as [|[q e] es IH]; intros w rs Hid Hes; [constructor|].
  apply Forall_cons in Hes as [He Hes]. cbn [wait_run].
  destruct (wait_step q e w) as [[w1 rs1]|] eqn:Hstep; [|done]. cbn [mbind option_bind].
  destruct (wait_run es w1) as [[w2 rs2]|] eqn:Hrun; [|done]. intros [= <- _].
  assert ((∀ ec, e ≠ wait_timer ec id) ∧ timers w1 ⊆ timers w) as [Hne Hsub].
  { unfold wait_step in Hstep. destruct e as [r|organized| |ec id']; [done| | |].
    - split; [done|]. injection Hstep as <- _. by destruct organized.
    - split; [done|]. destruct (posted w); [done|]. unfold do_wait_event in Hstep. cbn in Hstep.
      repeat case_match; by simplify_eq.
    - case_bool_decide as Hin; [|done]. split; [by intros ec' [= -> ->]|].
      assert (timers w1 = filter (λ t, t ≠ id') (timers w)) as ->.
      { unfold handle_wait_timeout in Hstep. cbn in Hstep. repeat case_match; by simplify_eq. }
      intros t. rewrite list_elem_of_filter. tauto. }
  constructor; [done|]. apply (IH w1 rs2); [set_solver|done..].
Qed.

(** Nothing is answered while nothing is waited for. *)
Lemma wait_run_idle es w w' rs :
  waiter_ w = None → Forall (λ e, is_request e = false) es → wait_run es w = Some (w', rs) →
  rs = [] ∧ waiter_ w' = None.
Proof.
  revert w rs. induction es as [|[q e] es IH]; intros w rs Hw Hes; cbn [wait_run].
  { by intros [= <- <-]. }
  apply Forall_cons in Hes as [He Hes].
  destruct (wait_step q e w) as [[w1 rs1]|] eqn:Hstep; [|done]. cbn [mbind option_bind].
  destruct (wait_run es w1) as [[w2 rs2]|] eqn:Hrun; [|done]. cbn [mbind option_bind]. intros [= <- <-].
  assert (rs1 = [] ∧ waiter_ w1 = None) as [-> Hw1]; [|by apply (IH w1 rs2)].
  unfold wait_step in Hstep. destruct e as [r|organized| |ec id]; [done| | |].
  - injection Hstep as <- <-. by destruct organized.
  - destruct (posted w); [done|]. unfold do_wait_event in Hstep. cbn [waiter_] in Hstep.
    rewrite Hw in Hstep. by injection Hstep as <- <-.
  - case_bool_decide; [|done]. unfold handle_wait_timeout in Hstep. cbn [waiter_] in Hstep.
    rewrite Hw in Hstep. by injection Hstep as <- <-.
Qed.

(** A wait goes on until the first event that ends it, which is answered. *)
Lemma wait_run_waits id waiting es w w' rs :
  waiter_ w = Some (id, waiting) → timers_complete es → Forall (λ e, is_request e = false) es →
  wait_run es w = Some (w', rs) →
  match List.find (ends id waiting) es with
  | Some (q, _) => rs = send_top q ∧ waiter_ w' = None
  | None => rs = [] ∧ waiter_ w' = Some (id, waiting)
  end.
Proof.
  revert w rs. induction es as [|[q e] es IH]; intros w rs Hw Hec Hes; cbn [wait_run List.find].
  { by intros [= <- <-]. }
  apply Forall_cons in Hes as [He Hes]. apply Forall_cons in Hec as [Hec Hecs].
  destruct (wait_step q e w) as [[w1 rs1]|] eqn:Hstep; [|done]. cbn [mbind option_bind].
  destruct (wait_run es w1) as [[w2 rs2]|] eqn:Hrun; [|done]. cbn [mbind option_bind]. intros [= <- <-].
  pose proof (wait_step_waits id waiting q e w w1 rs1 Hw ltac:(by constructor) Hstep) as Hends.
  destruct (ends id waiting (q, e)); destruct Hends as [-> Hw1].
  - split; [|by eapply (wait_run_idle es w1)]. by rewrite (proj1 (wait_run_idle es w1 _ _ Hw1 Hes Hrun)), app_nil_r.
  - by apply (IH w1 rs2).
Qed.

End Wait.

(** ** A reference archive, for examples: a confirmed chain of some height *)

#[local] Instance example_race : RaceErrors := { operation_failed := Code network_category 7 }.

#[local] Instance example_race_laws : RaceErrorsLaws.
Proof. by split. Qed.

(** The hash of the block at a height. *)
Definition example_hash (height : Z) : hash_digest := replicate 32 height.

#[local] Instance example_heights : ChainArchive := {
  archive := Z;
  header_link := option Z;
  is_terminal link := bool_decide (link = None);
  chain_header := Z;
  header_hash := example_hash;
  header_merkle_root := example_hash;
  to_header top hash :=
    match hash with h :: _ => if (0 <=? h) && (h <=? top) then Some h else None | [] => None end;
  to_confirmed top height := if (0 <=? height) && (height <=? top) then Some height else None;
  to_top_confirmed top := Some top;
  get_top_confirmed top := top;
  get_top_confirmed_hash := example_hash;
  get_header_key _ link := example_hash (default 0 link);
  get_header _ link := link;
  get_height _ link := link;
  is_confirmed_block _ link := bool_decide (link ≠ None);
  is_associated _ link := bool_decide (link ≠ None);
  get_tx_keys _ _ := [];
  get_tx_count _ _ := 0;
  find_confirmed_block _ _ := None;
}.

Definition example_top : archive := 6.

(** A client waits for a block after the top at 5, with a timeout; its first poll
    (6) ends with the next block, its second with its own timer, though the timer of
    the first is still to be delivered. *)
Definition example_wait : wait_request := wait_for_new_block PrimFloat.one "".

Definition example_first : list (archive * wait_event) :=
  [(5, wait_requested example_wait); (6, wait_chased true); (6, wait_job)].

Definition example_second : list (archive * wait_event) :=
  [(6, wait_timer (Code network_category 3) 0); (6, wait_chased true); (6, wait_job);
   (6, wait_timer (Code network_category 4) 1)].

(** ** Properties *)

(** C24: over any run of a channel, each wait request has been answered once, but for
    the one that is waiting; and a request that waits is answered, with the top of the
    chain, at the first event that ends it: a posted job that finds its condition
    met, or its own timer. The timer of an earlier wait never ends it, and none does
    if its timeout is zero. *)
Theorem wait_answered_once `{Text} `{SizeMath} `{ChainArchive} `{RaceErrorsLaws} before w replies :
  timers_complete before → wait_run before no_waits = Some (w, replies) →
  (length replies + armed w)%nat = length (filter is_request before) ∧
  ∀ q r w1, wait_step q (wait_requested r) w = Some (w1, []) →
    ∃ waiting, waits_for q r = Some waiting ∧ wait_done q waiting = false ∧
      ∀ es w2 rs, timers_complete es → Forall (λ e, is_request e = false) es →
        wait_run es w1 = Some (w2, rs) →
        match List.find (ends (fresh w) waiting) es with
        | Some (q', _) => rs = send_top q' ∧ waiter_ w2 = None
        | None => rs = [] ∧ waiter_ w2 = Some (fresh w, waiting)
        end ∧
        (to_size (timeout_of r) = Some 0 → Forall (λ e, ∀ ec, e.2 ≠ wait_timer ec (fresh w)) es).
Proof.
  intros Hbefore Hrun. destruct (wait_run_ok before no_waits w replies) as [Hok Hcount];
    [split; [intros id Hid; by apply elem_of_nil in Hid|done]|done|done|].
  split; [exact Hcount|]. intros q r w1. cbn [wait_step].
  destruct (waiter_ w); [done|]. intros [= Hhandle].
  destruct (handle_wait_cases q r w w1 []) as
    [[_ Hone]|(waiting & span & _ & Hfor & Hdone & Hspan & ->)]; [done|done|].
  exists waiting. split_and!; [done..|]. intros es w2 rs Hec Hes Hrun2. split.
  - exact (wait_run_waits (fresh w) waiting es (Waits (Some (fresh w, waiting)) _ _ _)
      w2 rs eq_refl Hec Hes Hrun2).
  - rewrite Hspan. intros [= ->]. eapply timer_absent; [|done|exact Hrun2].
    cbn. intros Hin. apply Hok in Hin. lia.
Qed.

Lemma wait_answered_once_witness :
  ∃ w replies w1 w2 rs, wait_run example_first no_waits = Some (w, replies) ∧
    (length replies + armed w)%nat = 1%nat ∧
    wait_step example_top (wait_requested example_wait) w = Some (w1, []) ∧
    wait_run example_second w1 = Some (w2, rs) ∧ rs = send_top example_top.
Proof.
  assert (∃ w w1 w2 rs, wait_run example_first no_waits = Some (w, send_top example_top) ∧
    fresh w = 1%nat ∧ wait_step example_top (wait_requested example_wait) w = Some (w1, []) ∧
    wait_run example_second w1 = Some (w2, rs)) as (w & w1 & w2 & rs & Hrun & Hfresh & Hreq & Hsecond)
    by (do 4 eexists; split_and!; vm_compute; reflexivity).
  exists w, (send_top example_top), w1, w2, rs.
  destruct (wait_answered_once example_first w (send_top example_top) ltac:(repeat constructor; done) Hrun)
    as [Hcount Hwait].
  destruct (Hwait example_top example_wait w1 Hreq) as (waiting & Hfor & _ & Hends).
  destruct (Hends example_second w2 rs ltac:(repeat constructor; simpl; congruence)
    ltac:(repeat constructor) Hsecond) as [Hend _].
  split_and!; [exact Hrun|exact Hcount|exact Hreq|exact Hsecond|].
  injection Hfor as <-. rewrite Hfresh in Hend. cbn in Hend. exact (proj1 Hend).
Defined.
