(* ===== verification/BitcoindBlockchain.v ===== *)
(** Block queries of the bitcoind service
    (src/protocols/bitcoind/protocol_bitcoind_blockchain.cpp), with the json context
    that they inject (src/serializers/bitcoind_json.cpp), the deployments
    (src/serializers/bitcoind_deployments.cpp) and the median time
    (src/utilities/chain.cpp).

    Waits are in BlockWait.v, proofs in TxOutProof.v, scans in UtxoScan.v and the
    queries of the pool in BitcoindMempool.v. *)
From S2P Require Import Prelude Rpc Errors System FeeHistogram BlockStats ElectrumSubscribe  Descriptor Dispatch Archive.

(** ** The archive *)

(** What the handlers read of headers and blocks. *)
Class BlockArchive `{ChainArchive} := {
  timestamp : chain_header → Z;
  header_bits : chain_header → Z;
  difficulty : chain_header → double;
  previous_block_hash : chain_header → hash_digest;
  (** [encode_base16(to_big_endian(bits))] and the encoded expanded target. *)
  bits_text : Z → string;
  target_text : Z → string;
  (** Heights and links of the candidate chain. *)
  to_top_candidate : archive → header_link;
  get_top_candidate : archive → Z;
  get_fork : archive → Z;
  is_coalesced : archive → bool;
  (** The fork point and the span of validated blocks above it. *)
  get_validated_fork : archive → Z * Z;
  (** The encoded branch work, and the count of transactions of a branch. *)
  get_branch_work : archive → header_link → option string;
  get_branch_tx_count : archive → header_link → Z;
  (** The link and its parents, the link first, or none if there are too few. *)
  get_ancestry : archive → header_link → Z → option (list header_link);
  (** The median time past of the context of a block, for a link that may be terminal. *)
  get_context_mtp : archive → header_link → option Z;
  to_confirmed_child : archive → header_link → header_link;
  (** The median time past that follows a confirmed block, from its chain state. *)
  get_confirmed_mtp : archive → hash_digest → option Z;
  (** Block filters. *)
  filter_enabled : archive → bool;
  get_filter_body : archive → header_link → option data_chunk;
  get_filter_head : archive → header_link → option hash_digest;
  (** The hex that is written of a header and of a block; sizes are in bytes. *)
  get_wire_header : archive → header_link → option string;
  get_block_size : archive → header_link → option Z;
  get_wire_block : archive → header_link → option string;
}.

Section Blockchain.
Context `{Text} `{SizeMath} `{ChainArchive} `{!BlockArchive}.

(** ** Context of blocks *)

(** [utilities/chain.cpp]. *)
Definition median_time (q : archive) (link : header_link) : Z :=
  match get_context_mtp q (to_confirmed_child q link) with
  | Some mtp => mtp
  | None => default 0 (get_confirmed_mtp q (get_header_key q link))
  end.

Definition null_hash : hash_digest := replicate 32 0.

Definition inject_block_context (out : object) (q : archive) (link : header_link)
    (header : chain_header) : object :=
  match get_height q link with
  | None => out
  | Some height =>
      let top := get_top_confirmed q in
      let confirmed := is_confirmed_block q link in
      let out := set_field "height" (uint64_t height) out in
      let out := set_field "confirmations"
        (int64_t (if confirmed then floored_subtract top height + 1 else -1)) out in
      let out := set_field "mediantime" (uint32_t (median_time q link)) out in
      let out := match get_branch_work q link with
                 | Some work => set_field "chainwork" (string_t work) out
                 | None => out
                 end in
      let out := if bool_decide (previous_block_hash header = null_hash) then out
                 else set_field "previousblockhash"
                        (string_t (encode_hash (previous_block_hash header))) out in
      if confirmed && (height <? top)
      then set_field "nextblockhash"
             (string_t (encode_hash (get_header_key q (to_confirmed q (height + 1))))) out
      else out
  end.

(** The clamped ratio of validated blocks to the height of the chain. *)
Definition progress (blocks headers : Z) : double :=
  if headers =? 0 then PrimFloat.one
  else
    let ratio := PrimFloat.div (to_floating blocks) (to_floating headers) in
    if PrimFloat.ltb ratio PrimFloat.one then ratio else PrimFloat.one.

(** An empty object on a fault. *)
Definition chain_states_entry (q : archive) (link : header_link) (progress : double)
    (validated : bool) : object :=
  match get_header q link, get_height q link with
  | Some header, Some height =>
      let bits := header_bits header in
      [("blocks", uint64_t height);
       ("bestblockhash", string_t (encode_hash (get_header_key q link)));
       ("bits", string_t (bits_text bits)); ("target", string_t (target_text bits));
       ("difficulty", number_t (difficulty header));
       ("verificationprogress", number_t progress);
       ("coins_db_cache_bytes", uint64_t 0); ("coins_tip_cache_bytes", uint64_t 0);
       ("validated", boolean_t validated)]
  | _, _ => []
  end.

(** ** Handlers of blocks *)

(** A handler returns whether its subscription is kept, and what it replies. *)
Definition handle_get_best_block_hash (q : archive) (stopped : bool) : handled :=
  if stopped then (false, [])
  else replied (reply_value (string_t (encode_hash (get_top_confirmed_hash q)))).

Definition handle_get_block_count (q : archive) (stopped : bool) : handled :=
  if stopped then (false, []) else replied (reply_value (uint64_t (get_top_confirmed q))).

Definition basic_filter : string := "basic".

Definition handle_get_block_filter (q : archive) (stopped : bool) (blockhash filtertype : string) :
    handled :=
  if stopped then (false, [])
  else if negb (filtertype == basic_filter) then failed BitcoindError.invalid_address_or_key
  else
    match decode_hash blockhash with
    | None => failed BitcoindError.invalid_parameter
    | Some hash =>
        if negb (filter_enabled q) then failed BitcoindError.misc_error
        else
          let link := to_header q hash in
          match get_filter_body q link, get_filter_head q link with
          | Some filter, Some filter_header =>
              replied (reply_value (object_t
                [("filter", string_t (encode_base16 filter));
                 ("header", string_t (encode_hash filter_header))]))
          | _, _ => failed_text BitcoindError.invalid_address_or_key blockhash
          end
    end.

Definition handle_get_block_hash (q : archive) (stopped : bool) (height : double) : handled :=
  if stopped then (false, [])
  else
    match to_size height with
    | None => failed BitcoindError.invalid_parameter
    | Some block_height =>
        let link := to_confirmed q block_height in
        if is_terminal link then failed BitcoindError.invalid_parameter
        else replied (reply_value (string_t (encode_hash (get_header_key q link))))
    end.

(** [value_from(bitcoind(header))] is a parameter. *)
Definition handle_get_block_header (header_model : chain_header → object) (q : archive)
    (stopped : bool) (blockhash : string) (verbose : bool) : handled :=
  if stopped then (false, [])
  else
    match decode_hash blockhash with
    | None => failed BitcoindError.invalid_parameter
    | Some hash =>
        let link := to_header q hash in
        if negb verbose then
          match get_wire_header q link with
          | Some hex => replied (reply_hex hex)
          | None => failed_text BitcoindError.invalid_address_or_key blockhash
          end
        else
          match get_header q link with
          | None => failed_text BitcoindError.invalid_address_or_key blockhash
          | Some header =>
              let out := set_field "nTx" (uint64_t (get_tx_count q link)) (header_model header) in
              replied (reply_value (object_t (inject_block_context out q link header)))
          end
    end.

Definition handle_get_difficulty (q : archive) (stopped : bool) : handled :=
  if stopped then (false, [])
  else
    match get_header q (to_top_confirmed q) with
    | None => failed BitcoindError.internal_error
    | Some header => replied (reply_value (number_t (difficulty header)))
    end.

(** The stubs. *)
Definition handle_verify_chain (stopped : bool) : handled :=
  if stopped then (false, []) else replied (reply_value (boolean_t true)).
Definition handle_prune_block_chain (stopped : bool) : handled :=
  if stopped then (false, []) else failed BitcoindError.misc_error.
Definition handle_dump_tx_out_set (stopped : bool) : handled :=
  if stopped then (false, []) else failed BitcoindError.method_not_found.
Definition handle_load_tx_out_set (stopped : bool) : handled :=
  if stopped then (false, []) else failed BitcoindError.method_not_found.
Definition handle_get_block_from_peer (stopped : bool) : handled :=
  if stopped then (false, []) else failed BitcoindError.method_not_found.
Definition handle_get_mempool_cluster (stopped : bool) : handled :=
  if stopped then (false, []) else failed BitcoindError.client_mempool_disabled.

(** ** Chains *)

Definition handle_get_chain_states (q : archive) (stopped : bool) : handled :=
  if stopped then (false, [])
  else
    let candidate_link := to_top_candidate q in
    match get_height q candidate_link with
    | None => failed BitcoindError.internal_error
    | Some candidate =>
        match chain_states_entry q (to_top_confirmed q) PrimFloat.one true with
        | [] => failed BitcoindError.internal_error
        | entry =>
            let answer := λ states, replied (reply_value (object_t
              [("headers", uint64_t candidate); ("chainstates", array_t states)])) in
            if is_coalesced q then answer [object_t entry]
            else
              let '(fork, span) := get_validated_fork q in
              let validated := progress (fork + span) candidate in
              match chain_states_entry q candidate_link validated false with
              | [] => failed BitcoindError.internal_error
              | entry' => answer [object_t entry; object_t entry']
              end
        end
    end.

Definition chain_tip (height : Z) (hash : hash_digest) (branchlen : value_t) (status : string) :
    value_t :=
  object_t [("height", uint64_t height); ("hash", string_t (encode_hash hash));
    ("branchlen", branchlen); ("status", string_t status)].

Definition handle_get_chain_tips (q : archive) (stopped : bool) : handled :=
  if stopped then (false, [])
  else
    let confirmed_link := to_top_confirmed q in
    match get_height q confirmed_link with
    | None => failed BitcoindError.internal_error
    | Some confirmed =>
        let active := chain_tip confirmed (get_header_key q confirmed_link) (int64_t 0) "active" in
        let candidate_link := to_top_candidate q in
        match get_height q candidate_link with
        | None => failed BitcoindError.internal_error
        | Some candidate =>
            let branchlen := floored_subtract candidate (get_fork q) in
            if branchlen =? 0 then replied (reply_value (array_t [active]))
            else
              match get_ancestry q candidate_link branchlen with
              | None => replied (reply_value (array_t [active]))
              | Some branch =>
                  let present := forallb (is_associated q) branch in
                  replied (reply_value (array_t [active;
                    chain_tip candidate (get_header_key q candidate_link) (uint64_t branchlen)
                      (if present then "valid-headers" else "headers-only")]))
              end
        end
    end.

(** The link of a block by its hash, or by its height. *)
Definition hash_or_height (q : archive) (v : value_t) : BitcoindError.error_t + header_link :=
  match v with
  | string_t text =>
      match decode_hash text with
      | None => inl BitcoindError.invalid_parameter
      | Some hash => inr (to_header q hash)
      end
  | number_t number =>
      match to_size number with
      | None => inl BitcoindError.invalid_parameter
      | Some height => inr (to_confirmed q height)
      end
  | _ => inl BitcoindError.type_error
  end.

(** The loop over the selected statistics. *)
Fixpoint select_stats (result : object) (stats : array) (selected : object) :
    BitcoindError.error_t + object :=
  match stats with
  | [] => inr selected
  | string_t name :: stats =>
      match find_field name result with
      | None => inl BitcoindError.invalid_parameter
      | Some v => select_stats result stats (try_emplace name v selected)
      end
  | _ :: _ => inl BitcoindError.type_error
  end.

(** The header and the transactions of a block with the values of their prevouts,
    [None] on a fault, and the subsidy of a height are of the store and the settings. *)
Definition handle_get_block_stats `{StatsMath}
    (populated : archive → header_link → option (chain_header * list stats_tx))
    (subsidy : Z → Z) (q : archive) (stopped : bool) (v : value_t) (stats : array) : handled :=
  if stopped then (false, [])
  else
    match hash_or_height q v with
    | inl e => failed e
    | inr link =>
        if negb (is_confirmed_block q link) then failed BitcoindError.invalid_address_or_key
        else
          match get_height q link with
          | None => failed BitcoindError.internal_error
          | Some height =>
              match populated q link with
              | Some (header, txs) =>
                  let result := block_stats txs (header_hash header) (timestamp header) height
                    (median_time q link) (subsidy height) in
                  match stats with
                  | [] => replied (reply_value (object_t result))
                  | _ =>
                      match select_stats result stats [] with
                      | inl e => failed e
                      | inr selected => replied (reply_value (object_t selected))
                      end
                  end
              | None => failed BitcoindError.internal_error
              end
          end
    end.

(** [30_size * 24 * 60 * 60]. *)
Definition month_seconds : Z := 30 * 24 * 60 * 60.

(** The count of transactions of the first blocks of a branch. *)
Definition window_txs (q : archive) (branch : list header_link) (window : Z) : Z :=
  sum64 (get_tx_count q <$> take (Z.to_nat window) branch).

(** The entries of a window. *)
Definition window_stats (q : archive) (link : header_link) (window : Z) (result : object) :
    option object :=
  match get_ancestry q link (window + 1) with
  | None => None
  | Some branch =>
      let start := default 0 (median_time q <$> last branch) in
      let end_ := median_time q link in
      let interval := floored_subtract end_ start in
      let txs := window_txs q branch window in
      let result := try_emplace "window_interval" (uint32_t interval) result in
      let result := try_emplace "window_tx_count" (uint64_t txs) result in
      Some (if interval =? 0 then result
            else try_emplace "txrate"
                   (number_t (PrimFloat.div (to_floating txs) (to_floating interval))) result)
  end.

(** [block_spacing] is [system_settings().block_spacing_seconds]. *)
Definition handle_get_chain_tx_stats (block_spacing : Z) (q : archive) (stopped : bool)
    (nblocks : double) (blockhash : string) : handled :=
  if stopped then (false, [])
  else
    match (if is_empty blockhash then Some (to_top_confirmed q)
           else to_header q <$> decode_hash blockhash) with
    | None => failed BitcoindError.invalid_parameter
    | Some link =>
        if negb (is_confirmed_block q link)
        then failed_text BitcoindError.invalid_address_or_key blockhash
        else
          match get_height q link with
          | None => failed BitcoindError.internal_error
          | Some height =>
              let month := month_seconds / block_spacing in
              let window :=
                if PrimFloat.ltb nblocks PrimFloat.zero
                then Some (Z.min month (floored_subtract height 1))
                else
                  match to_size nblocks with
                  | None => None
                  | Some window =>
                      if negb (window =? 0) && (height <=? window) then None else Some window
                  end in
              match window with
              | None => failed BitcoindError.invalid_parameter
              | Some window =>
                  match get_header q link with
                  | None => failed BitcoindError.internal_error
                  | Some header =>
                      let result :=
                        [("time", uint32_t (timestamp header));
                         ("txcount", uint64_t (get_branch_tx_count q link));
                         ("window_final_block_hash", string_t (encode_hash (get_header_key q link)));
                         ("window_final_block_height", uint64_t height);
                         ("window_block_count", uint64_t window)] in
                      if window =? 0 then replied (reply_value (object_t result))
                      else
                        match window_stats q link window result with
                        | None => failed BitcoindError.internal_error
                        | Some result => replied (reply_value (object_t result))
                        end
                  end
              end
          end
    end.

(** ** Deployments *)

(** What the deployments read of the settings. *)
Record fork_settings := ForkSettings {
  bip34 : bool; bip66 : bool; bip65 : bool; bip68 : bool; bip112 : bool; bip113 : bool;
  bip141 : bool; bip143 : bool; bip147 : bool;
  bip90_bip34_height : Z; bip90_bip66_height : Z; bip90_bip65_height : Z;
  bip9_bit0_height : Z; bip9_bit1_height : Z; bip9_bit2_height : Z;
}.

Definition push_frozen (out : object) (name : string) (enabled : bool) (activation height : Z) :
    object :=
  if negb enabled then out
  else try_emplace name (object_t
    [("type", string_t "buried"); ("active", boolean_t (activation <=? height + 1));
     ("height", uint64_t activation)]) out.

Definition deployment_info (q : archive) (s : fork_settings) (link : header_link) (height : Z) :
    object :=
  let out := push_frozen [] "bip34" (bip34 s) (bip90_bip34_height s) height in
  let out := push_frozen out "bip66" (bip66 s) (bip90_bip66_height s) height in
  let out := push_frozen out "bip65" (bip65 s) (bip90_bip65_height s) height in
  let out := push_frozen out "csv" (bip68 s && bip112 s && bip113 s) (bip9_bit0_height s) height in
  let out := push_frozen out "segwit" (bip141 s && bip143 s && bip147 s) (bip9_bit1_height s) height in
  [("hash", string_t (encode_hash (get_header_key q link))); ("height", uint64_t height);
   ("deployments", object_t out)].

Definition handle_get_deployment_info (s : fork_settings) (q : archive) (stopped : bool)
    (blockhash : string) : handled :=
  if stopped then (false, [])
  else
    let answer := λ link,
      match get_height q link with
      | None => failed BitcoindError.internal_error
      | Some height => replied (reply_value (object_t (deployment_info q s link height)))
      end in
    if is_empty blockhash then answer (to_top_confirmed q)
    else
      match decode_hash blockhash with
      | None => failed BitcoindError.invalid_parameter
      | Some hash =>
          let link := to_header q hash in
          if is_terminal link then failed_text BitcoindError.invalid_address_or_key blockhash
          else answer link
      end.

(** ** The state of the chain *)

(** What [chain_info] reads besides: the hashes of the known genesis blocks, the
    rules of taproot in the context of a block, and the size of the store. *)
Class ChainInfo := {
  mainnet_genesis : hash_digest;
  testnet_genesis : hash_digest;
  regtest_genesis : hash_digest;
  taproot_enabled : archive → header_link → option bool;
  store_size : archive → Z;
}.

(** [base16_hash] of the genesis block of signet. *)
Definition signet : hash_digest :=
  default null_hash
    (decode_hash "00000008819873e925422c1ff0f99f7cc9bbb232af63a077a480a3633bee1ef6").

Definition networks `{ChainInfo} : list (hash_digest * string) :=
  [(mainnet_genesis, "main"); (testnet_genesis, "test"); (regtest_genesis, "regtest");
   (signet, "signet")].

Definition chain_name `{ChainInfo} (q : archive) : string :=
  let genesis := get_header_key q (to_confirmed q 0) in
  match List.find (λ '(hash, _), bool_decide (hash = genesis)) networks with
  | Some (_, name) => name
  | None => "unknown"
  end.

(** [None] on a fault. *)
Definition chain_info `{ChainInfo} (q : archive) (s : fork_settings) (pruned current : bool) :
    option object :=
  let headers := get_top_candidate q in
  let link := to_top_confirmed q in
  match get_header q link, get_height q link, get_branch_work q link, taproot_enabled q link with
  | Some header, Some blocks, Some work, Some taproot =>
      let bits := header_bits header in
      let out :=
        [("chain", string_t (chain_name q)); ("blocks", uint64_t blocks);
         ("headers", uint64_t headers);
         ("bestblockhash", string_t (encode_hash (get_header_key q link)));
         ("bits", string_t (bits_text bits)); ("target", string_t (target_text bits));
         ("difficulty", number_t (difficulty header)); ("time", uint32_t (timestamp header));
         ("mediantime", uint32_t (median_time q link));
         ("verificationprogress", number_t (progress blocks headers));
         ("initialblockdownload", boolean_t (negb current)); ("chainwork", string_t work);
         ("size_on_disk", uint64_t (store_size q)); ("pruned", boolean_t pruned);
         ("warnings", array_t [])] in
      let soft_forks :=
        if taproot
        then [("taproot", object_t
                [("status", string_t "active"); ("bit", int64_t 2); ("startTime", int64_t (-1));
                 ("timeout", int64_t (-1)); ("since", uint64_t (bip9_bit2_height s));
                 ("min_activation_height", int64_t 0)])]
        else [] in
      Some (try_emplace "bip9_softforks" (object_t soft_forks) out)
  | _, _, _, _ => None
  end.

Definition handle_get_block_chain_info `{ChainInfo} (s : fork_settings) (pruned current : bool)
    (q : archive) (stopped : bool) : handled :=
  if stopped then (false, [])
  else
    match chain_info q s pruned current with
    | None => failed BitcoindError.internal_error
    | Some out => replied (reply_value (object_t out))
    end.

(** ** Outputs *)

Section Outputs.
Context `{DescriptorScripts} `{!TxArchive}.
Context (p2kh p2sh : Z) (witness : string).

(** [value_from(bitcoind(script, flags))]. *)
Context (script_model : script → object).

Definition inject_script_context (out : object) (s : script) : object :=
  let out := set_field "desc" (string_t (infer_descriptor s p2kh p2sh witness)) out in
  let address := to_address s p2kh p2sh witness in
  if is_empty address then out else set_field "address" (string_t address) out.

Definition to_script_public_key (s : script) : value_t :=
  object_t (inject_script_context (script_model s) s).

Definition handle_get_tx_out (to_index : double → option Z) (q : archive) (stopped : bool)
    (txid : string) (n : double) (include_mempool : bool) : handled :=
  if stopped then (false, [])
  else
    match decode_hash txid, to_index n with
    | Some hash, Some index =>
        let out := to_output q hash index in
        if is_output_terminal out || is_confirmed_spent q out ||
           (include_mempool && is_confirmable_spent q out)
        then replied (reply_value null_t)
        else
          let link := to_top_confirmed q in
          let tx := to_output_tx q out in
          match get_output q out, is_tx_terminal tx, get_height q link with
          | Some (value, script), false, Some top =>
              let answer := λ depth, replied (reply_value (object_t
                [("bestblock", string_t (encode_hash (get_header_key q link)));
                 ("confirmations", uint64_t depth); ("value", number_t (bitcoins value));
                 ("scriptPubKey", to_script_public_key script);
                 ("coinbase", boolean_t (is_coinbase_tx q tx))])) in
              match get_tx_height q tx with
              | Some height => answer (floored_subtract top height + 1)
              | None =>
                  if negb include_mempool || negb (is_pooled q tx) || negb (is_confirmable_tx q tx)
                  then replied (reply_value null_t)
                  else answer 0
              end
          | _, _, _ => failed BitcoindError.internal_error
          end
    | _, _ => failed BitcoindError.invalid_parameter
    end.

End Outputs.

(** ** Blocks with their json *)

(** A transaction of a populated block: the json model that the system library makes
    of it, its outputs, and its inputs with the outputs they spend. *)
Record prevout_t `{TxArchive} := Prevout {
  parent_tx : tx_link;
  generated : bool;
  prevout_value : Z;
  prevout_script : script;
}.

Record block_tx `{TxArchive} := BlockTx {
  tx_coinbase : bool;
  tx_fee : Z;
  tx_outputs : list script;
  tx_prevouts : list prevout_t;
}.

Class BlockModels `{TxArchive} := {
  chain_block : Type;
  block_header : chain_block → chain_header;
  block_txs : chain_block → list block_tx;
  (** [value_from(bitcoind_hashed(block))] and [value_from(bitcoind_verbose(block))],
      the latter with the array of its transactions. *)
  hashed_model : chain_block → object;
  verbose_model : chain_block → object;
  get_block : archive → header_link → option chain_block;
  (** The transactions of the block with their prevouts, [None] if one is missing. *)
  populate_with_metadata : archive → chain_block → option (list block_tx);
}.

Section Blocks.
Context `{DescriptorScripts} `{!TxArchive} `{!BlockModels}.
Context (p2kh p2sh : Z) (witness : string) (script_model : script → object).

(** The loop over elements and, in step, entries of an array of objects; [None] if
    the array is too short or has another value. *)
Fixpoint inject_each {A} (inject : A → object → option object) (xs : list A) (entries : array) :
    option array :=
  match xs, entries with
  | [], _ => Some entries
  | x :: xs, object_t entry :: entries =>
      entry ← inject x entry;
      entries ← inject_each inject xs entries;
      Some (object_t entry :: entries)
  | _, _ => None
  end.

(** An array under a key. *)
Definition inject_array {A} (key : string) (inject : A → object → option object) (xs : list A)
    (out : object) : option object :=
  match find_field key out with
  | Some (array_t entries) =>
      entries ← inject_each inject xs entries;
      Some (set_field key (array_t entries) out)
  | _ => None
  end.

Definition inject_tx_scripts (tx : block_tx) (out : object) : option object :=
  inject_array "vout" (λ put entry,
    match find_field "scriptPubKey" entry with
    | Some (object_t script) =>
        Some (set_field "scriptPubKey"
          (object_t (inject_script_context p2kh p2sh witness script put)) entry)
    | _ => None
    end) (tx_outputs tx) out.

Definition inject_tx_prevouts (q : archive) (tx : block_tx) (out : object) : option object :=
  inject_array "vin" (λ put entry,
    Some
      match get_tx_height q (parent_tx put) with
      | None => entry
      | Some height =>
          set_field "prevout" (object_t
            [("generated", boolean_t (generated put)); ("height", uint64_t height);
             ("value", number_t (bitcoins (prevout_value put)));
             ("scriptPubKey", to_script_public_key p2kh p2sh witness script_model (prevout_script put))])
            entry
      end) (tx_prevouts tx) out.

(** [block_verbosity]. *)
Definition verbosity_hex : Z := 0.
Definition verbosity_hashed : Z := 1.
Definition verbosity_verbose : Z := 2.
Definition verbosity_prevouts : Z := 3.

(** [limit<size_t>(requested, prevouts)] of a signed integer. *)
Definition verbosity (requested : Z) : Z := Z.max 0 (Z.min requested verbosity_prevouts).

(** The loop over the transactions of a verbose block. *)
Definition inject_block_txs (q : archive) (level : Z) (block : chain_block) (out : object) :
    option object :=
  let populated := populate_with_metadata q block in
  inject_array "tx" (λ tx entry,
    entry ← inject_tx_scripts tx entry;
    if bool_decide (is_Some populated) && negb (tx_coinbase tx) then
      entry ← (if level =? verbosity_prevouts then inject_tx_prevouts q tx entry else Some entry);
      Some (set_field "fee" (number_t (bitcoins (tx_fee tx))) entry)
    else Some entry) (default (block_txs block) populated) out.

(** [None] if the json of the system library has not the expected shape. *)
Definition handle_get_block (to_int64 : double → option Z) (q : archive) (stopped : bool)
    (blockhash : string) (level : double) : option handled :=
  if stopped then Some (false, [])
  else
    match decode_hash blockhash with
    | None => Some (failed BitcoindError.invalid_parameter)
    | Some hash =>
        match to_int64 level with
        | None => Some (failed BitcoindError.misc_error)
        | Some requested =>
            let level := verbosity requested in
            let link := to_header q hash in
            if level =? verbosity_hex then
              match get_block_size q link with
              | None => Some (failed_text BitcoindError.invalid_address_or_key blockhash)
              | Some _ =>
                  match get_wire_block q link with
                  | Some hex => Some (replied (reply_hex hex))
                  | None => Some (failed BitcoindError.misc_error)
                  end
              end
            else
              match get_block q link with
              | None => Some (failed_text BitcoindError.invalid_address_or_key blockhash)
              | Some block =>
                  let model := if level =? verbosity_hashed then hashed_model block
                               else verbose_model block in
                  let model := inject_block_context model q link (block_header block) in
                  model ← (if verbosity_verbose <=? level then inject_block_txs q level block model
                           else Some model);
                  Some (replied (reply_value (object_t model)))
              end
        end
    end.

End Blocks.

(** ** Preference of a block *)

(** The response defers to the completion of the reorganization; [not_found] is of
    the store. *)
Definition handle_precious_block (stopped : bool) (blockhash : string) :
    bool * list reply * option hash_digest :=
  if stopped then (false, [], None)
  else
    match decode_hash blockhash with
    | None => (failed BitcoindError.invalid_parameter, None)
    | Some hash => (true, [], Some hash)
    end.

(** Whether the completion is posted. *)
Definition handle_prioritize (stopped : bool) (ec : code) : option code :=
  if stopped then None else Some ec.

Definition do_precious_block (not_found : Z) (ec : code) : list reply :=
  if code_eqb ec (Code database_category not_found)
  then [bitcoind_error BitcoindError.invalid_address_or_key]
  else if is_error ec then [bitcoind_error BitcoindError.internal_error]
  else [reply_value null_t].

End Blockchain.

(** ** The confirmed chain *)

(** The confirmed chain is indexed by height up to its top, each block linked to its
    parent by hash. *)
Class ConfirmedChain `{BlockArchive} : Prop := {
  confirmed_at q height : 0 <= height <= get_top_confirmed q →
    is_confirmed_block q (to_confirmed q height) = true ∧
    get_height q (to_confirmed q height) = Some height ∧
    is_Some (get_header q (to_confirmed q height));
  confirmed_height q link height :
    is_confirmed_block q link = true → get_height q link = Some height →
    link = to_confirmed q height ∧ 0 <= height <= get_top_confirmed q;
  confirmed_key q height : 0 <= height <= get_top_confirmed q →
    let hash := get_header_key q (to_confirmed q height) in
    is_hash hash ∧ hash ≠ null_hash ∧ to_header q hash = to_confirmed q height;
  confirmed_parent q height header : 0 <= height < get_top_confirmed q →
    get_header q (to_confirmed q (height + 1)) = Some header →
    previous_block_hash header = get_header_key q (to_confirmed q height);
  confirmed_ancestry q height count : 0 <= count <= height + 1 → 0 <= height <= get_top_confirmed q →
    get_ancestry q (to_confirmed q height) count =
      Some ((λ i, to_confirmed q (height - i)) <$> seqZ 0 count);
}.

Section Confirmed.
Context `{TextLaws} `{SizeMathLaws} `{ConfirmedChain}.

(** The context of a confirmed block. *)
Lemma confirmed_context out q height header :
  0 <= height <= get_top_confirmed q →
  let o := inject_block_context out q (to_confirmed q height) header in
  find_field "height" o = Some (uint64_t height) ∧
  find_field "confirmations" o = Some (int64_t (get_top_confirmed q - height + 1)) ∧
  (previous_block_hash header ≠ null_hash →
   find_field "previousblockhash" o = Some (string_t (encode_hash (previous_block_hash header)))) ∧
  (find_field "nextblockhash" out = None →
   find_field "nextblockhash" o =
     if height <? get_top_confirmed q
     then Some (string_t (encode_hash (get_header_key q (to_confirmed q (height + 1)))))
     else None).
Proof.
  intros Hrange o. subst o. destruct (confirmed_at q height Hrange) as (Hconfirmed & Hheight & _).
  unfold inject_block_context. rewrite Hheight, Hconfirmed, floored_subtract_spec. cbn [andb].
  replace (Z.max (get_top_confirmed q - height) 0) with (get_top_confirmed q - height) by lia.
  destruct (get_branch_work q _) as [work|]; case_bool_decide; destruct (height <? _);
    split_and!; intros; by autorewrite with server.
Qed.

(** The header of a confirmed block, verbose. *)
Lemma header_reply model q height :
  0 <= height <= get_top_confirmed q →
  ∃ header, get_header q (to_confirmed q height) = Some header ∧
    handle_get_block_header model q false
        (encode_hash (get_header_key q (to_confirmed q height))) true =
      (true, [reply_value (object_t (inject_block_context
        (set_field "nTx" (uint64_t (get_tx_count q (to_confirmed q height))) (model header))
        q (to_confirmed q height) header))]).
Proof.
  intros Hrange. destruct (confirmed_key q height Hrange) as (Hhash & _ & Hlink).
  destruct (confirmed_at q height Hrange) as (_ & _ & [header Hheader]).
  exists header. split; [done|]. unfold handle_get_block_header.
  rewrite decode_encode_hash by done. cbn [negb]. by rewrite Hlink, Hheader.
Qed.

(** The transactions of a window of the confirmed chain that ends at a height. *)
Definition window_count (q : archive) (height window : Z) : Z :=
  sum64 ((λ i, get_tx_count q (to_confirmed q (height - i))) <$> seqZ 0 window).

Lemma window_stats_spec q height window result :
  0 < window <= height → height <= get_top_confirmed q →
  find_field "window_interval" result = None → find_field "window_tx_count" result = None →
  find_field "txrate" result = None →
  ∃ o, window_stats q (to_confirmed q height) window result = Some o ∧
    let interval := Z.max (median_time q (to_confirmed q height) -
      median_time q (to_confirmed q (height - window))) 0 in
    (∀ key, key ∉ ["window_interval"; "window_tx_count"; "txrate"] →
      find_field key o = find_field key result) ∧
    find_field "window_interval" o = Some (uint32_t interval) ∧
    find_field "window_tx_count" o = Some (uint64_t (window_count q height window)) ∧
    find_field "txrate" o =
      if interval =? 0 then None
      else Some (number_t (PrimFloat.div (to_floating (window_count q height window))
        (to_floating interval))).
Proof.
  intros Hwindow Htop Hi Hc Hr. unfold window_stats.
  rewrite confirmed_ancestry by lia. eexists. split; [reflexivity|].
  assert (last ((λ i, to_confirmed q (height - i)) <$> seqZ 0 (window + 1)) =
    Some (to_confirmed q (height - window))) as Hlast.
  { rewrite seqZ_app, fmap_app by lia. simpl. by rewrite last_snoc. }
  rewrite Hlast. cbn [fmap option_fmap option_map default].
  assert (window_txs q ((λ i, to_confirmed q (height - i)) <$> seqZ 0 (window + 1)) window =
    window_count q height window) as ->.
  { unfold window_txs, window_count. f_equal. rewrite <-fmap_take, <-list_fmap_compose.
    rewrite seqZ_app by lia. rewrite take_app_le by (rewrite length_seqZ; lia).
    by rewrite take_ge by (rewrite length_seqZ; lia). }
  rewrite floored_subtract_spec. set (interval := Z.max _ 0).
  split_and!.
  - intros key Hkey. rewrite !elem_of_cons in Hkey.
    destruct (interval =? 0); rewrite !find_try_emplace, !eqb_neq_false by naive_solver; done.
  - destruct (interval =? 0); rewrite !find_try_emplace; simpl; by rewrite Hi.
  - destruct (interval =? 0); rewrite !find_try_emplace; simpl; by rewrite Hc.
  - destruct (interval =? 0); rewrite !find_try_emplace; simpl; by rewrite Hr.
Qed.

End Confirmed.

(** ** A reference archive, for examples: a confirmed chain of three blocks *)

Definition example_link (height : Z) : option Z :=
  if (0 <=? height) && (height <=? 2) then Some height else None.

Definition example_hash (height : Z) : hash_digest := replicate 32 (height + 1).

#[local] Instance example_chain : ChainArchive := {
  archive := unit;
  header_link := option Z;
  is_terminal link := bool_decide (link = None);
  chain_header := Z;
  header_hash := example_hash;
  header_merkle_root := example_hash;
  to_header _ hash :=
    List.find (λ h, bool_decide (hash = example_hash h)) [0; 1; 2];
  to_confirmed _ := example_link;
  to_top_confirmed _ := Some 2;
  get_top_confirmed _ := 2;
  get_top_confirmed_hash _ := example_hash 2;
  get_header_key _ link := example_hash (default 0 link);
  get_header _ link := link;
  get_height _ link := link;
  is_confirmed_block _ link :=
    match link with Some h => (0 <=? h) && (h <=? 2) | None => false end;
  is_associated _ link := bool_decide (link ≠ None);
  get_tx_keys _ _ := [];
  get_tx_count _ link := default 0 link + 1;
  find_confirmed_block _ _ := None;
}.

#[local] Instance example_blocks : BlockArchive := {
  timestamp h := 1000 + h;
  header_bits _ := 0;
  difficulty _ := PrimFloat.one;
  previous_block_hash h := if h =? 0 then null_hash else example_hash (h - 1);
  bits_text _ := "";
  target_text _ := "";
  to_top_candidate _ := Some 2;
  get_top_candidate _ := 2;
  get_fork _ := 2;
  is_coalesced _ := true;
  get_validated_fork _ := (2, 0);
  get_branch_work _ _ := None;
  get_branch_tx_count _ link := default 0 link + 1;
  get_ancestry _ link count :=
    match link with
    | Some h => if count <=? h + 1 then Some ((λ i, example_link (h - i)) <$> seqZ 0 count) else None
    | None => None
    end;
  get_context_mtp _ link := (λ h, 600 * h) <$> link;
  to_confirmed_child _ link := match link with Some h => example_link (h + 1) | None => None end;
  get_confirmed_mtp _ _ := Some 1800;
  filter_enabled _ := true;
  get_filter_body _ link := (λ h, [h]) <$> link;
  get_filter_head _ _ := None;
  get_wire_header _ _ := None;
  get_block_size _ _ := None;
  get_wire_block _ _ := None;
}.

Lemma example_range h : 0 <= h <= 2 → h = 0 ∨ h = 1 ∨ h = 2.
Proof. lia. Qed.

#[local] Instance example_confirmed : ConfirmedChain.
Proof.
  split.
  - intros q h Hr; destruct (example_range h Hr) as [Hh|[Hh|Hh]]; subst h; by repeat split; eexists.
  - intros q [h|] height; [|done]. cbn [is_confirmed_block example_chain get_height]. intros Hr [= ->].
    apply andb_true_iff in Hr as [H0 H2]. split; [|simpl; lia].
    unfold to_confirmed. simpl. unfold example_link. by rewrite H0, H2.
  - intros q h Hr; destruct (example_range h Hr) as [Hh|[Hh|Hh]]; subst h; (split; [split; [done|]|split; [discriminate|done]]);
      apply Forall_forall; intros b [-> _]%elem_of_replicate; simpl; lia.
  - intros q h header Hrange. cbn in Hrange.
    destruct (Z.eq_dec h 0) as [->|]; [by intros [= <-]|].
    assert (h = 1) as -> by lia. by intros [= <-].
  - intros q h count Hc Hh. cbn in Hh.
    assert (example_link h = Some h) as Hl
      by (unfold example_link; by rewrite (proj2 (Z.leb_le 0 h)), (proj2 (Z.leb_le h 2)) by lia).
    cbn. by rewrite Hl, (proj2 (Z.leb_le count (h + 1))) by lia.
Qed.

Definition example_archive : archive := ().
Definition example_model (header : chain_header) : object := [].

(** ** Properties *)

(** The verbose header of a confirmed block names its neighbors: the header that
    its [nextblockhash] names is that of the next height, with one confirmation less,
    and names it as its previous block. So a client walks the chain up to its top,
    the one block with no next. *)
Lemma header_navigation `{TextLaws} `{SizeMathLaws} `{ConfirmedChain} model q height :
  (∀ header, find_field "nextblockhash" (model header) = None) →
  0 <= height <= get_top_confirmed q →
  let hash_at := λ h, encode_hash (get_header_key q (to_confirmed q h)) in
  ∃ o, handle_get_block_header model q false (hash_at height) true =
      (true, [reply_value (object_t o)]) ∧
    find_field "height" o = Some (uint64_t height) ∧
    find_field "confirmations" o = Some (int64_t (get_top_confirmed q - height + 1)) ∧
    if height =? get_top_confirmed q then find_field "nextblockhash" o = None
    else
      ∃ next o', find_field "nextblockhash" o = Some (string_t next) ∧
        handle_get_block_header model q false next true = (true, [reply_value (object_t o')]) ∧
        find_field "height" o' = Some (uint64_t (height + 1)) ∧
        find_field "confirmations" o' = Some (int64_t (get_top_confirmed q - height)) ∧
        find_field "previousblockhash" o' = Some (string_t (hash_at height)).
Proof.
  intros Hmodel Hrange hash_at.
  assert (∀ header n, find_field "nextblockhash" (set_field "nTx" n (model header)) = None) as Hnext
    by (intros; autorewrite with server; apply Hmodel).
  destruct (header_reply model q height Hrange) as (header & _ & Hreply).
  eexists. split; [exact Hreply|].
  destruct (confirmed_context (set_field "nTx" (uint64_t (get_tx_count q (to_confirmed q height)))
    (model header)) q height header Hrange) as (Hheight & Hconfirms & _ & Hn).
  split_and!; [done..|]. rewrite Hn by apply Hnext.
  destruct (Z.eqb_spec height (get_top_confirmed q)) as [->|Hne]; [by rewrite Z.ltb_irrefl|].
  rewrite (proj2 (Z.ltb_lt _ _)) by lia.
  destruct (header_reply model q (height + 1)) as (header' & Hheader' & Hreply'); [lia|].
  eexists _, _. split_and!; [reflexivity|exact Hreply'|..];
    (destruct (confirmed_context (set_field "nTx" (uint64_t (get_tx_count q (to_confirmed q (height + 1))))
      (model header')) q (height + 1) header' ltac:(lia)) as (Hh & Hc & Hp & _)).
  - done.
  - rewrite Hc. do 2 f_equal. lia.
  - assert (previous_block_hash header' = get_header_key q (to_confirmed q height)) as Hprevious
      by (apply confirmed_parent; [lia|done]).
    rewrite Hp; rewrite Hprevious; [done|]. apply (confirmed_key q height Hrange).
Qed.

(** Statistics of a window are of the requested block of the confirmed chain, or
    its top: the window is of fewer blocks than the height, [window_tx_count] is the
    number of the transactions of exactly those blocks, the last of them the block,
    and the interval and the rate are over them. A window of no blocks has none of
    these, and every other request is refused. *)
Lemma chain_tx_stats_correct `{TextLaws} `{SizeMathLaws} `{ConfirmedChain} spacing q nblocks
    blockhash o :
  0 < spacing →
  handle_get_chain_tx_stats spacing q false nblocks blockhash = (true, [reply_value (object_t o)]) →
  ∃ height window, 0 <= height <= get_top_confirmed q ∧ 0 <= window ∧ (window = 0 ∨ window < height) ∧
    (blockhash = "" → to_top_confirmed q = to_confirmed q height) ∧
    (blockhash ≠ "" → to_header q <$> decode_hash blockhash = Some (to_confirmed q height)) ∧
    find_field "window_final_block_height" o = Some (uint64_t height) ∧
    find_field "window_block_count" o = Some (uint64_t window) ∧
    let interval := Z.max (median_time q (to_confirmed q height) -
      median_time q (to_confirmed q (height - window))) 0 in
    find_field "window_interval" o = (if window =? 0 then None else Some (uint32_t interval)) ∧
    find_field "window_tx_count" o =
      (if window =? 0 then None else Some (uint64_t (window_count q height window))) ∧
    find_field "txrate" o =
      (if (window =? 0) || (interval =? 0) then None
       else Some (number_t (PrimFloat.div (to_floating (window_count q height window))
         (to_floating interval)))).
Proof.
  intros Hspacing. unfold handle_get_chain_tx_stats.
  destruct (if is_empty blockhash then _ else _) as [link|] eqn:Hlink; [|done].
  destruct (is_confirmed_block q link) eqn:Hconfirmed; [|done]. cbn [negb].
  destruct (get_height q link) as [height|] eqn:Hheight; [|done].
  destruct (confirmed_height q link height Hconfirmed Hheight) as [-> Hrange].
  destruct (if PrimFloat.ltb _ _ then _ else _) as [window|] eqn:Hwindow; [|done].
  assert (0 <= window ∧ (window = 0 ∨ window < height)) as [Hw Hlow].
  { destruct (PrimFloat.ltb _ _); [injection Hwindow as <-|].
    - rewrite floored_subtract_spec.
      pose proof (Z.div_pos month_seconds spacing ltac:(unfold month_seconds; lia) Hspacing). lia.
    - destruct (to_size nblocks) as [n|] eqn:Hn; [|done]. apply to_size_range in Hn as [Hn _].
      destruct (negb (n =? 0) && (height <=? n)) eqn:Htest; [done|]. injection Hwindow as ->.
      apply andb_false_iff in Htest as [Hz|Hz]; [apply negb_false_iff in Hz|]; lia. }
  destruct (get_header q _) as [header|]; [|done]. intros Hreply.
  exists height, window. split; [done|]. split; [done|]. split; [done|].
  split; [by intros ->; injection Hlink|]. split; [by intros Hne; destruct blockhash|].
  destruct (Z.eqb_spec window 0) as [->|Hpos]; cbn [orb].
  - by injection Hreply as <-.
  - match type of Hreply with context [window_stats q _ window ?r] =>
      destruct (window_stats_spec q height window r) as (o' & Hstats & Hsame & Hi & Hc & Hr);
      [lia|lia|done..|] end.
    rewrite Hstats in Hreply. injection Hreply as <-.
    rewrite !Hsame by set_solver. by split_and!.
Qed.

Lemma chain_tx_stats_correct_witness :
  ∃ o, handle_get_chain_tx_stats 600 example_archive false PrimFloat.one "" =
      (true, [reply_value (object_t o)]) ∧
    ∃ height window, find_field "window_final_block_height" o = Some (uint64_t height) ∧
      find_field "window_tx_count" o =
        (if window =? 0 then None else Some (uint64_t (window_count example_archive height window))).
Proof.
  assert (∃ o, handle_get_chain_tx_stats 600 example_archive false PrimFloat.one "" =
      (true, [reply_value (object_t o)])) as [o Ho] by (eexists; vm_compute; reflexivity).
  exists o. split; [exact Ho|].
  destruct (chain_tx_stats_correct 600 example_archive PrimFloat.one "" o ltac:(lia) Ho)
    as (height & window & _ & _ & _ & _ & _ & Hheight & _ & _ & Hcount & _).
  exists height, window. split; [exact Hheight|exact Hcount].
Defined.
