(* ===== verification/UtxoScan.v ===== *)
(** Scans of the unspent outputs by the bitcoind service: [scantxoutset],
    [gettxoutsetinfo], [scanblocks] and [getdescriptoractivity]
    (src/protocols/bitcoind/protocol_bitcoind_blockchain.cpp), with the results that
    src/serializers/bitcoind_coin.cpp and src/serializers/bitcoind_json.cpp make.

    A scan runs off the strand while the archive changes: it reads the archive [q],
    and the archive [q'] once it is done. *)
From stdpp Require Import sorting.
From S2P Require Import Prelude Rpc Errors System FeeHistogram ElectrumSubscribe ElectrumOutpoints BtcdFilter Descriptor BitcoindParsers BlockStats Dispatch Archive BitcoindBlockchain.

(** ** Data *)

(** [database::unspent_out]: an unspent output with its position in its block. *)
Record unspent := Unspent {
  unspent_point : point;
  unspent_value : Z;
  unspent_height : Z;
  unspent_position : Z;
}.

(** What is read of [database::unspent_coin]. *)
Record coin := Coin {
  coin_point : point;
  coin_value : Z;
  coin_height : Z;
  coinbase : bool;
  coin_script : data_chunk;
}.

(** [std::array::operator<] of two hashes. *)
Fixpoint hash_lt (a b : hash_digest) : bool :=
  match a, b with
  | _, [] => false
  | [], _ :: _ => true
  | x :: a, y :: b => if x =? y then hash_lt a b else x <? y
  end.

(** The order of the sort, by transaction and index. *)
Definition point_lt (one two : point) : bool :=
  if bool_decide (one.1 = two.1) then one.2 <? two.2 else hash_lt one.1 two.1.

(** Coins in order: not [right < left]. *)
Definition coin_le (left right : coin) : Prop := point_lt (coin_point right) (coin_point left) = false.

#[global] Instance coin_le_dec : RelDecision coin_le.
Proof. intros x y. unfold coin_le. apply _. Defined.

Lemma hash_lt_irrefl a : hash_lt a a = false.
Proof. induction a as [|x a IH]; [done|]. simpl. by rewrite Z.eqb_refl. Qed.

Lemma hash_lt_trans a b c : hash_lt a b = true → hash_lt b c = true → hash_lt a c = true.
Proof.
  revert b c. induction a as [|x a IH]; intros [|y b] [|z c]; try done. simpl.
  destruct (Z.eqb_spec x y), (Z.eqb_spec y z), (Z.eqb_spec x z); subst; try lia; eauto.
Qed.

Lemma hash_lt_total a b : hash_lt a b = false → hash_lt b a = false → a = b.
Proof.
  revert b. induction a as [|x a IH]; intros [|y b]; try done. simpl.
  rewrite (Z.eqb_sym y x). destruct (Z.eqb_spec x y) as [->|Hne]; [|lia].
  intros Hl Hr. f_equal. by apply IH.
Qed.

Lemma point_lt_irrefl p : point_lt p p = false.
Proof. unfold point_lt. rewrite bool_decide_true by done. apply Z.ltb_irrefl. Qed.

Lemma point_lt_trans p q r : point_lt p q = true → point_lt q r = true → point_lt p r = true.
Proof.
  destruct p as [h i], q as [h' i'], r as [h'' i'']. unfold point_lt. cbn [fst snd].
  repeat case_bool_decide; subst; try done; try lia; intros Hl Hr.
  - pose proof (hash_lt_trans _ _ _ Hl Hr) as Hc. by rewrite hash_lt_irrefl in Hc.
  - by eapply hash_lt_trans.
Qed.

Lemma point_lt_total p q : point_lt p q = false → point_lt q p = false → p = q.
Proof.
  destruct p as [h i], q as [h' i']. unfold point_lt. cbn [fst snd].
  repeat case_bool_decide; subst; try done; intros Hl Hr; [f_equal; lia|].
  exfalso. by pose proof (hash_lt_total _ _ Hl Hr).
Qed.

#[global] Instance coin_le_trans : Transitive coin_le.
Proof.
  intros x y z. unfold coin_le. intros Hxy Hyz. apply not_true_is_false. intros Hzx.
  destruct (point_lt (coin_point x) (coin_point y)) eqn:Hlt.
  - pose proof (point_lt_trans _ _ _ Hzx Hlt). congruence.
  - rewrite (point_lt_total _ _ Hlt Hxy) in Hzx. congruence.
Qed.

#[global] Instance coin_le_total : Total coin_le.
Proof.
  intros x y. unfold coin_le. destruct (point_lt (coin_point y) (coin_point x)) eqn:Hlt; [right|by left].
  apply not_true_is_false. intros Hlt'. pose proof (point_lt_trans _ _ _ Hlt Hlt') as Hc.
  by rewrite point_lt_irrefl in Hc.
Qed.

(** [std::sort] of coins of distinct outpoints. *)
Definition sort_coins (coins : list coin) : list coin := merge_sort coin_le coins.

(** The sorted list is that of the set. *)
Lemma sort_coins_permutation l1 l2 :
  NoDup (coin_point <$> l1) → l1 ≡ₚ l2 → sort_coins l1 = sort_coins l2.
Proof.
  intros Hdup Hperm. apply (StronglySorted_unique_strong coin_le).
  - intros x y Hx Hy Hxy Hyx. unfold sort_coins in *. rewrite merge_sort_Permutation in Hx.
    rewrite merge_sort_Permutation, <-Hperm in Hy.
    pose proof (point_lt_total _ _ Hyx Hxy) as Hpoint.
    apply list_elem_of_lookup in Hx as [i Hi]. apply list_elem_of_lookup in Hy as [j Hj].
    assert (i = j) as ->; [|congruence]. eapply (NoDup_lookup _ i j); [exact Hdup|..];
      rewrite list_lookup_fmap; [by rewrite Hi|rewrite Hj; simpl; by rewrite Hpoint].
  - apply StronglySorted_merge_sort; apply _.
  - apply StronglySorted_merge_sort; apply _.
  - unfold sort_coins. by rewrite !merge_sort_Permutation.
Qed.

(** ** The archive *)

Class UtxoArchive `{ChainArchive} := {
  address_enabled : archive → bool;
  (** [envelope().forks.bip30]. *)
  bip30_enabled : archive → bool;
  (** The unspent outputs of the confirmed chain with a script of some hash. *)
  get_confirmed_unspent : archive → hash_digest → code + list unspent;
  (** The coins of a branch with scripts of some hashes, and the count of all coins. *)
  get_unspent_matches : archive → gset hash_digest → list header_link → code + (list coin * Z);
}.

(** [chain::script::is_unspendable]. *)
Class Unspendable `{Scripts} := { is_unspendable : script → bool }.

Section Scan.
Context `{Text} `{StoreErrors} `{SizeMath} `{Integers} `{DescriptorScripts} `{!ScanDescriptors} `{!Unspendable}.
Context `{ChainArchive} `{!BlockArchive} `{!TxArchive} `{!UtxoArchive}.
Context (p2kh p2sh : Z) (witness : string) (fuel : nat).

(** ** The result of a scan *)

(** The hex and the descriptor of the scripts by their hashes. *)
Definition add_needle (found : gmap hash_digest (string * string)) (s : script) :
    gmap hash_digest (string * string) :=
  if is_unspendable s then found
  else
    let data := script_data s in
    match found !! sha256_hash data with
    | Some _ => found
    | None => <[sha256_hash data := (encode_base16 data, infer_descriptor s p2kh p2sh witness)]> found
    end.

Definition needles (scripts : list script) : gmap hash_digest (string * string) :=
  foldl add_needle ∅ scripts.

(** bitcoind retains duplicated coinbases at the overwriting heights. *)
Definition overwritten_height (bip30 : bool) (c : coin) : Z :=
  if bip30 && coinbase c then
    if coin_height c =? 91812 then 91842
    else if coin_height c =? 91722 then 91880
    else coin_height c
  else coin_height c.

Definition coin_entry (q : archive) (top : Z) (bip30 : bool) (needle : string * string) (c : coin) :
    value_t :=
  let height := overwritten_height bip30 c in
  object_t
    [("txid", string_t (encode_hash (coin_point c).1)); ("vout", uint32_t (coin_point c).2);
     ("scriptPubKey", string_t needle.1); ("desc", string_t needle.2);
     ("amount", number_t (bitcoins (coin_value c))); ("coinbase", boolean_t (coinbase c));
     ("height", uint64_t height);
     ("blockhash", string_t (encode_hash (get_header_key q (to_confirmed q height))));
     ("confirmations", uint64_t (floored_subtract top height + 1))].

(** The loop over the sorted coins. *)
Fixpoint report_coins (q : archive) (top : Z) (bip30 : bool)
    (needles : gmap hash_digest (string * string)) (coins : list coin) (amount : Z) : array * Z :=
  match coins with
  | [] => ([], amount)
  | c :: coins =>
      match needles !! sha256_hash (coin_script c) with
      | None => report_coins q top bip30 needles coins amount
      | Some needle =>
          let '(unspents, amount) :=
            report_coins q top bip30 needles coins (add64 amount (coin_value c)) in
          (coin_entry q top bip30 needle c :: unspents, amount)
      end
  end.

Definition scan_result (coins : list coin) (q : archive) (scripts : list script) (top txouts : Z)
    (bip30 : bool) : object :=
  let '(unspents, amount) := report_coins q top bip30 (needles scripts) (sort_coins coins) 0 in
  [("success", boolean_t true); ("txouts", uint64_t txouts); ("height", uint64_t top);
   ("bestblock", string_t (encode_hash (get_header_key q (to_confirmed q top))));
   ("unspents", array_t unspents); ("total_amount", number_t (bitcoins amount))].

(** ** The scan *)

(** The loop over the scan objects; [None] if the fuel is spent. *)
Fixpoint expand_objects (objects : array) (out : list script) : option (bool * list script) :=
  match objects with
  | [] => Some (true, out)
  | item :: objects =>
      match expand_scan_object fuel out item with
      | Some (true, out) => expand_objects objects out
      | other => other
      end
  end.

Definition needle_keys (scripts : list script) : gset hash_digest :=
  list_to_set ((λ s, sha256_hash (script_data s)) <$> filter (λ s, is_unspendable s = false) scripts).

(** The genesis output is excluded from the set. *)
Definition genesis (u : unspent) : bool := (unspent_height u =? 0) && (unspent_position u =? 0).

Definition to_coin (data : data_chunk) (u : unspent) : coin :=
  Coin (unspent_point u) (unspent_value u) (unspent_height u) (unspent_position u =? 0) data.

(** The loop over the scripts with the address index. *)
Fixpoint indexed_coins (q : archive) (scripts : list script) (keys : gset hash_digest)
    (coins : list coin) (txouts : Z) : code + (list coin * Z) :=
  match scripts with
  | [] => inr (coins, txouts)
  | s :: scripts =>
      let data := script_data s in
      let key := sha256_hash data in
      if bool_decide (key ∉ keys) then indexed_coins q scripts keys coins txouts
      else
        match get_confirmed_unspent q key with
        | inl ec => inl ec
        | inr outs =>
            let found := to_coin data <$> filter (λ u, genesis u = false) outs in
            indexed_coins q scripts (keys ∖ {[key]}) (coins ++ found)%list
              (txouts + Z.of_nat (length found))
        end
  end.

(** The coins of the scan, with or without the address index. *)
Definition scan_coins (q : archive) (scripts : list script) (link : header_link)
    (top : Z) : code + (list coin * Z) :=
  let keys := needle_keys scripts in
  if address_enabled q then indexed_coins q scripts keys [] 0
  else
    match get_ancestry q link top with
    | None => inl (Code database_category integrity)
    | Some branch => get_unspent_matches q keys branch
    end.

Definition do_scan_tx_out_set (q q' : archive) (objects : array) : option posted_reply :=
  match expand_objects objects [] with
  | None => None
  | Some (false, _) => Some (post_fail BitcoindError.invalid_address_or_key)
  | Some (true, scripts) =>
      let link := to_top_confirmed q in
      let bip30 := bip30_enabled q in
      Some
        match get_height q link with
        | None => post_fail BitcoindError.internal_error
        | Some top =>
            match scan_coins q scripts link top with
            | inl _ => post_fail BitcoindError.internal_error
            | inr (coins, txouts) =>
                if negb (is_confirmed_block q' link) then post_fail BitcoindError.internal_error
                else post_object (scan_result coins q' scripts top txouts bip30)
            end
        end
  end.

(** The replies of the handler, or the objects of the scan that it starts. *)
Definition handle_scan_tx_out_set (stopped : bool) (action : string) (scanobjects : array) :
    bool * list reply * option array :=
  if stopped then (false, [], None)
  else if action == "status" then (true, [reply_value null_t], None)
  else if action == "abort" then (true, [reply_value (boolean_t false)], None)
  else if negb (action == "start")
  then (true, [bitcoind_error BitcoindError.invalid_parameter], None)
  else (true, [], Some scanobjects).

End Scan.

(** ** The unspent outputs that a scan reports *)

(** The queries agree with one set of unspent outputs, each with its script: the
    index answers those of a script hash, and the scan of the whole branch the coins
    of all wanted hashes. *)
Class UtxoLaws `{DescriptorScripts} `{UtxoArchive} `{!BlockArchive}
    (utxos : archive → list (unspent * data_chunk)) : Prop := {
  utxo_points q : NoDup ((λ u, unspent_point u.1) <$> utxos q);
  confirmed_unspent q key outs :
    get_confirmed_unspent q key = inr outs →
    outs ≡ₚ (filter (λ u, sha256_hash u.2 = key) (utxos q)).*1;
  unspent_matches q keys top branch coins count :
    get_height q (to_top_confirmed q) = Some top →
    get_ancestry q (to_top_confirmed q) top = Some branch →
    get_unspent_matches q keys branch = inr (coins, count) →
    coins ≡ₚ (λ u, to_coin u.2 u.1) <$>
      filter (λ u, genesis u.1 = false ∧ sha256_hash u.2 ∈ keys) (utxos q);
}.

(** A selection splits in disjoint parts. *)
Lemma filter_split {A} (P Q R : A → Prop) `{∀ x, Decision (P x)} `{∀ x, Decision (Q x)}
    `{∀ x, Decision (R x)} (l : list A) :
  (∀ x, x ∈ l → P x ↔ Q x ∨ R x) → (∀ x, Q x → ¬ R x) →
  filter P l ≡ₚ (filter Q l ++ filter R l)%list.
Proof.
  intros HP Hdisjoint. induction l as [|x l IH]; [done|]. rewrite !filter_cons.
  specialize (IH (λ y Hy, HP y (list_elem_of_further _ _ _ Hy))).
  pose proof (HP x (list_elem_of_here _ _)) as Hx. specialize (Hdisjoint x).
  destruct (decide (P x)), (decide (Q x)), (decide (R x)); try tauto; rewrite IH; simpl.
  - done.
  - by rewrite Permutation_middle.
Qed.

Lemma filter_none {A} (P : A → Prop) `{∀ x, Decision (P x)} (l : list A) :
  (∀ x, x ∈ l → ¬ P x) → filter P l = [].
Proof.
  induction l as [|x l IH]; [done|]. intros Hnone. rewrite filter_cons_False by (apply Hnone; by left).
  apply IH. intros y Hy. apply Hnone. by right.
Qed.

Section Scanned.
Context `{Text} `{StoreErrors} `{SizeMath} `{Integers} `{DescriptorScripts}.
Context `{!ScanDescriptors} `{!Unspendable} `{ChainArchive} `{!BlockArchive} `{!TxArchive} `{!UtxoArchive}.
Context (utxos : archive → list (unspent * data_chunk)) `{!UtxoLaws utxos}.
Context (p2kh p2sh : Z) (witness : string) (fuel : nat).

Definition coin_of (u : unspent * data_chunk) : coin := to_coin u.2 u.1.
Definition script_key (s : script) : hash_digest := sha256_hash (script_data s).

(** The coins of wanted scripts, without that of the genesis block. *)
Definition wanted_coins (q : archive) (keys : gset hash_digest) : list coin :=
  coin_of <$> filter (λ u, genesis u.1 = false ∧ sha256_hash u.2 ∈ keys) (utxos q).

(** No unspent output has another script with the hash of a derived script. *)
Definition no_collision (q : archive) (scripts : list script) : Prop :=
  ∀ u s, u ∈ utxos q → s ∈ scripts → sha256_hash u.2 = script_key s → u.2 = script_data s.

Lemma wanted_coins_points q keys : NoDup (coin_point <$> wanted_coins q keys).
Proof.
  unfold wanted_coins. rewrite <-list_fmap_compose.
  eapply sublist_NoDup; [apply (utxo_points q)|]. apply (fmap_sublist (λ u : unspent * data_chunk, unspent_point u.1)), sublist_filter.
Qed.

Lemma indexed_coins_spec q scripts keys coins txouts coins' txouts' :
  no_collision q scripts →
  indexed_coins q scripts keys coins txouts = inr (coins', txouts') →
  coins' ≡ₚ (coins ++ wanted_coins q (keys ∩ list_to_set (script_key <$> scripts)))%list.
Proof.
  revert keys coins txouts. induction scripts as [|s scripts IH]; intros keys coins txouts Hcol;
    cbn [indexed_coins].
  { intros [= <- _]. unfold wanted_coins. rewrite filter_none; [by rewrite app_nil_r|]. set_solver. }
  assert (no_collision q scripts) as Hcol' by (intros u s' Hu Hs'; apply Hcol; [done|by right]).
  fold (script_key s). case_bool_decide as Hkey.
  - intros ->%IH; [|done]. unfold wanted_coins. apply Permutation_app_head, fmap_Permutation.
    apply reflexive_eq, list_filter_iff. intros u. cbn beta.
    rewrite fmap_cons, list_to_set_cons, !elem_of_intersection, elem_of_union, elem_of_singleton.
    naive_solver congruence.
  - destruct (get_confirmed_unspent q (script_key s)) as [|outs] eqn:Houts; [done|].
    intros ->%IH; [|done]. rewrite <-app_assoc. apply Permutation_app_head.
    rewrite (confirmed_unspent _ _ _ Houts), filter_fmap, list_filter_filter.
    unfold wanted_coins. rewrite <-list_fmap_compose. symmetry.
    rewrite (filter_split _ (λ u, genesis u.1 = false ∧ sha256_hash u.2 = script_key s)
      (λ u, genesis u.1 = false ∧ sha256_hash u.2 ∈ (keys ∖ {[script_key s]}) ∩
        list_to_set (script_key <$> scripts))); cycle 1.
    { intros u _. cbn beta.
      rewrite fmap_cons, list_to_set_cons, !elem_of_intersection, elem_of_union,
        elem_of_difference, !elem_of_singleton.
      destruct (decide (sha256_hash u.2 = script_key s)) as [->|]; tauto. }
    { intros u [_ ->]. rewrite elem_of_intersection, elem_of_difference, elem_of_singleton. tauto. }
    rewrite fmap_app. apply Permutation_app; [|done].
    apply reflexive_eq, list_fmap_ext. intros i u Hu. unfold coin_of. simpl. f_equal. 
    apply list_elem_of_lookup_2, list_elem_of_filter in Hu as [[_ Hhash] Hu].
    apply Hcol; [done|by left|done].
Qed.

(** All wanted coins, however they are found. *)
Lemma scan_coins_spec q scripts top coins txouts :
  no_collision q scripts → get_height q (to_top_confirmed q) = Some top →
  scan_coins q scripts (to_top_confirmed q) top = inr (coins, txouts) →
  coins ≡ₚ wanted_coins q (needle_keys scripts).
Proof.
  intros Hcol Htop. unfold scan_coins. destruct (address_enabled q).
  - intros ->%indexed_coins_spec; [|done]. cbn [app]. unfold wanted_coins.
    apply fmap_Permutation, reflexive_eq, list_filter_iff. intros u.
    rewrite elem_of_intersection. unfold needle_keys. rewrite !elem_of_list_to_set, !list_elem_of_fmap.
    setoid_rewrite list_elem_of_filter. unfold script_key. naive_solver.
  - destruct (get_ancestry q _ top) as [branch|] eqn:Hbranch; [|done].
    intros Hmatches. by apply (unspent_matches q _ top branch coins txouts).
Qed.

Abbreviation needles := (needles p2kh p2sh witness).

Lemma needles_snoc scripts s :
  needles (scripts ++ [s]) = add_needle p2kh p2sh witness (needles scripts) s.
Proof. apply foldl_snoc. Qed.

(** Needles are the spendable scripts. *)
Lemma needles_spec scripts key needle :
  needles scripts !! key = Some needle →
  ∃ s, s ∈ scripts ∧ is_unspendable s = false ∧ script_key s = key ∧
    needle = (encode_base16 (script_data s), infer_descriptor s p2kh p2sh witness).
Proof.
  induction scripts as [|s scripts IH] using rev_ind; [done|].
  rewrite needles_snoc. unfold add_needle. fold (script_key s). setoid_rewrite elem_of_app.
  destruct (is_unspendable s) eqn:Hs; [naive_solver|].
  destruct (needles scripts !! script_key s); [naive_solver|].
  destruct (decide (script_key s = key)) as [<-|Hne].
  - rewrite lookup_insert_eq. intros [= <-]. exists s. rewrite list_elem_of_singleton. auto.
  - rewrite lookup_insert_ne by done. naive_solver.
Qed.

Lemma needles_some scripts key :
  key ∈ needle_keys scripts → is_Some (needles scripts !! key).
Proof.
  unfold needle_keys. rewrite elem_of_list_to_set, list_elem_of_fmap.
  setoid_rewrite list_elem_of_filter. intros (s & -> & Hs & Hin). fold (script_key s).
  induction scripts as [|s' scripts IH] using rev_ind; [by apply elem_of_nil in Hin|].
  rewrite needles_snoc. unfold add_needle. fold (script_key s').
  apply elem_of_app in Hin as [Hin|Hin].
  - specialize (IH Hin). destruct (is_unspendable s'); [done|].
    destruct (needles scripts !! script_key s'); [done|]. apply lookup_insert_is_Some'. by right.
  - apply list_elem_of_singleton in Hin as <-. rewrite Hs.
    destruct (needles scripts !! script_key s) eqn:Hf; [by eexists|].
    rewrite lookup_insert_eq. by eexists.
Qed.

(** The report of coins that all match. *)
Lemma report_coins_spec q top bip30 found coins amount :
  (∀ c, c ∈ coins → is_Some (found !! sha256_hash (coin_script c))) →
  report_coins q top bip30 found coins amount =
    ((λ c, coin_entry q top bip30 (default ("", "") (found !! sha256_hash (coin_script c))) c) <$> coins,
     foldl add64 amount (coin_value <$> coins)).
Proof.
  revert amount. induction coins as [|c coins IH]; intros amount Hall; [done|]. cbn [report_coins].
  destruct (Hall c) as [needle Hneedle]; [by left|]. rewrite Hneedle.
  rewrite IH by (intros c' Hc'; apply Hall; by right). cbn. by rewrite Hneedle.
Qed.

Lemma wanted_coins_script q scripts c :
  no_collision q scripts → c ∈ wanted_coins q (needle_keys scripts) →
  ∃ s, s ∈ scripts ∧ script_data s = coin_script c ∧
    needles scripts !! sha256_hash (coin_script c) =
      Some (encode_base16 (coin_script c), infer_descriptor s p2kh p2sh witness).
Proof.
  unfold wanted_coins. intros Hcol (u & -> & Hu)%list_elem_of_fmap.
  apply list_elem_of_filter in Hu as [[_ Hkey] Hu].
  destruct (needles_some scripts _ Hkey) as [needle Hneedle].
  destruct (needles_spec _ _ _ Hneedle) as (s & Hs & _ & Hhash & ->).
  exists s. assert (script_data s = u.2) as Hdata by (symmetry; by apply Hcol).
  change (coin_script (coin_of u)) with u.2. rewrite <-Hdata in *. by split_and!.
Qed.

End Scanned.

(** ** A reference archive, for examples: it may have an address index *)

#[local] Existing Instance Descriptor.example_script.
#[local] Existing Instance Descriptor.example_keys.
#[local] Existing Instance Descriptor.example_descriptors.
#[local] Existing Instance BitcoindParsers.example_integers.

#[local] Instance example_store_errors : StoreErrors := {
  depth_limited := 1; query_canceled := 2; integrity := 3;
}.

(** A descriptor is its script, of one byte for each character. *)
#[local] Instance example_wallet : ScanDescriptors := {
  wallet_descriptor := data_chunk;
  to_descriptor text := Some ((λ c, Z.of_N (N_of_ascii c)) <$> String.list_ascii_of_string text);
  ranged _ := false;
  signing := data_chunk;
  signings parsed _ := [parsed];
  signing_script parsed := parsed;
}.

#[local] Instance example_spendable : Unspendable := { is_unspendable _ := false }.

#[local] Instance example_chain : ChainArchive := {
  archive := bool;
  header_link := Z;
  is_terminal link := link <? 0;
  chain_header := Z;
  header_hash height := [height];
  header_merkle_root height := [height];
  to_header _ hash := default 0 (head hash);
  to_confirmed _ height := height;
  to_top_confirmed _ := 2;
  get_top_confirmed _ := 2;
  get_top_confirmed_hash _ := [2];
  get_header_key _ link := [link];
  get_header _ link := Some link;
  get_height _ link := Some link;
  is_confirmed_block _ _ := true;
  is_associated _ _ := true;
  get_tx_keys _ _ := [];
  get_tx_count _ _ := 0;
  find_confirmed_block _ _ := 0;
}.

#[local] Instance example_blocks : BlockArchive := {
  timestamp height := height;
  header_bits _ := 0;
  difficulty _ := PrimFloat.one;
  previous_block_hash height := [height - 1];
  bits_text _ := "";
  target_text _ := "";
  to_top_candidate _ := 2;
  get_top_candidate _ := 2;
  get_fork _ := 2;
  is_coalesced _ := true;
  get_validated_fork _ := (2, 0);
  get_branch_work _ _ := None;
  get_branch_tx_count _ _ := 0;
  get_ancestry _ link count := Some ((λ i, link - i) <$> seqZ 0 count);
  get_context_mtp _ _ := None;
  to_confirmed_child _ link := link + 1;
  get_confirmed_mtp _ _ := None;
  filter_enabled _ := false;
  get_filter_body _ _ := None;
  get_filter_head _ _ := None;
  get_wire_header _ _ := None;
  get_block_size _ _ := None;
  get_wire_block _ _ := None;
}.

#[local] Instance example_txs : TxArchive := {
  tx_link := unit;
  is_tx_terminal _ := true;
  output_link := unit;
  is_output_terminal _ := true;
  to_output _ _ _ := ();
  to_output_tx _ _ := ();
  get_output _ _ := None;
  is_confirmed_spent _ _ := false;
  is_confirmable_spent _ _ := false;
  get_tx_height _ _ := None;
  is_pooled _ _ := false;
  is_confirmable_tx _ _ := false;
  is_coinbase_tx _ _ := false;
  get_tx_key _ _ := [];
  satoshi_per_bitcoin := 100000000;
}.

(** Two outputs of one script, one of another, and that of the genesis block. *)
Definition example_utxos (q : archive) : list (unspent * data_chunk) :=
  [(Unspent ([0], 0) 50 0 0, [97]); (Unspent ([2], 1) 30 2 1, [98]);
   (Unspent ([3], 0) 20 2 0, [97]); (Unspent ([1], 4) 40 1 0, [97])].

#[local] Instance example_archive : UtxoArchive := {
  address_enabled q := q;
  bip30_enabled _ := false;
  get_confirmed_unspent q key :=
    inr (filter (λ u, sha256_hash u.2 = key) (example_utxos q)).*1;
  get_unspent_matches q keys _ :=
    inr ((λ u, to_coin u.2 u.1) <$>
      filter (λ u, genesis u.1 = false ∧ sha256_hash u.2 ∈ keys) (example_utxos q), 3);
}.

#[local] Instance example_laws : UtxoLaws example_utxos.
Proof.
  split.
  - intros q. apply (bool_decide_unpack _). vm_compute. exact I.
  - by intros q key outs [= <-].
  - by intros q keys top branch coins count _ _ [= <- <-].
Qed.

(** ** Properties *)

(** C28: a scan that completes reports, in the order of transaction and index, exactly
    the unspent outputs (but that of the genesis block) whose script is one that the
    scan objects derive, each with the descriptor of its script, and their total. It
    is the same whether or not the archive has an address index. *)
Theorem scan_tx_out_set_correct `{Text} `{StoreErrors} `{SizeMath} `{Integers} `{DescriptorScripts}
    `{!ScanDescriptors} `{!Unspendable} `{ChainArchive} `{!BlockArchive} `{!TxArchive} `{!UtxoArchive}
    utxos `{!UtxoLaws utxos} p2kh p2sh witness fuel q q' objects scripts o :
  expand_objects fuel objects [] = Some (true, scripts) → no_collision utxos q scripts →
  do_scan_tx_out_set p2kh p2sh witness fuel q q' objects = Some (post_object o) →
  ∃ top unspents, get_height q (to_top_confirmed q) = Some top ∧
    let coins := sort_coins (wanted_coins utxos q (needle_keys scripts)) in
    find_field "unspents" o = Some (array_t unspents) ∧
    find_field "total_amount" o = Some (number_t (bitcoins (sum64 (coin_value <$> coins)))) ∧
    Forall2 (λ c entry, ∃ s, s ∈ scripts ∧ script_data s = coin_script c ∧
      entry = coin_entry q' top (bip30_enabled q)
        (encode_base16 (coin_script c), infer_descriptor s p2kh p2sh witness) c) coins unspents.
Proof.
  intros Hexpand Hcol. unfold do_scan_tx_out_set. rewrite Hexpand.
  destruct (get_height q (to_top_confirmed q)) as [top|] eqn:Htop; [|done].
  destruct (scan_coins q scripts _ top) as [|[coins txouts]] eqn:Hscan; [done|].
  destruct (negb (is_confirmed_block q' _)); [done|]. intros [= <-]. exists top.
  pose proof (scan_coins_spec utxos q scripts top coins txouts Hcol Htop Hscan) as Hcoins.
  unfold scan_result.
  rewrite (sort_coins_permutation coins (wanted_coins utxos q (needle_keys scripts)));
    [|rewrite Hcoins; by apply wanted_coins_points|done].
  assert (∀ c, c ∈ sort_coins (wanted_coins utxos q (needle_keys scripts)) →
    ∃ s, s ∈ scripts ∧ script_data s = coin_script c ∧
      needles p2kh p2sh witness scripts !! sha256_hash (coin_script c) =
        Some (encode_base16 (coin_script c), infer_descriptor s p2kh p2sh witness)) as Hscript.
  { intros c. unfold sort_coins. rewrite merge_sort_Permutation. by apply wanted_coins_script. }
  rewrite report_coins_spec by (intros c (s & _ & _ & ->)%Hscript; by eexists).
  eexists. split; [done|]. split_and!; [reflexivity|reflexivity|].
  apply Forall2_fmap_r, Forall_Forall2_diag, Forall_forall. intros c Hc.
  destruct (Hscript c Hc) as (s & Hs & Hdata & Hneedle). exists s. split_and!; [done|done|].
  by rewrite Hneedle.
Qed.

Definition example_scripts : list script := [[97] : data_chunk].
Definition with_index : archive := true.

Lemma scan_tx_out_set_correct_witness :
  ∃ o unspents,
    do_scan_tx_out_set 0 5 "bc" 1 with_index with_index [string_t "a"] = Some (post_object o) ∧
    find_field "unspents" o = Some (array_t unspents) ∧ length unspents = 2%nat.
Proof.
  assert (∃ o, do_scan_tx_out_set 0 5 "bc" 1 with_index with_index [string_t "a"] =
    Some (post_object o)) as [o Ho] by (eexists; vm_compute; reflexivity).
  assert (expand_objects 1 [string_t "a"] [] = Some (true, example_scripts)) as Hexpand
    by (vm_compute; reflexivity).
  assert (no_collision example_utxos with_index example_scripts) as Hcol
    by (intros u s _ Hs Hu; apply list_elem_of_singleton in Hs as ->; exact Hu).
  destruct (scan_tx_out_set_correct example_utxos 0 5 "bc" 1 with_index with_index [string_t "a"]
    example_scripts o Hexpand Hcol Ho)
    as (top & unspents & _ & Hunspents & _ & Hall).
  exists o, unspents. split_and!; [exact Ho|exact Hunspents|].
  apply Forall2_length in Hall. by rewrite <-Hall.
Defined.
