(* ===== verification/BlockScan.v ===== *)
(** Scans of blocks by the bitcoind service: [scanblocks], [getdescriptoractivity] and
    [gettxoutsetinfo] (src/protocols/bitcoind/protocol_bitcoind_blockchain.cpp), with
    the objects that src/serializers/bitcoind_json.cpp and
    src/serializers/bitcoind_coin.cpp make. *)
From stdpp Require Import list_numbers.
From S2P Require Import Prelude Rpc Errors System FeeHistogram ElectrumSubscribe ElectrumOutpoints BtcdFilter Descriptor BitcoindParsers BlockStats Dispatch Archive BitcoindBlockchain UtxoScan.

(** [neutrino::match_filter] of a block's filter. *)
Class BlockFilters `{Scripts} := {
  match_filter : hash_digest → data_chunk → list script → bool;
}.

Section Filters.
Context `{Text} `{SizeMath} `{Integers} `{DescriptorScripts} `{!ScanDescriptors} `{!BlockFilters}.
Context `{ChainArchive} `{!BlockArchive}.
Context (fuel : nat).

(** ** Blocks by their filters *)

(** The loop over the branch, from the lowest block; [None] on a fault. *)
Fixpoint match_branch (q : archive) (scripts : list script) (branch : list header_link) :
    option array :=
  match branch with
  | [] => Some []
  | link :: branch =>
      let hash := get_header_key q link in
      match get_filter_body q link with
      | None => None
      | Some filter =>
          relevant ← match_branch q scripts branch;
          Some (if match_filter hash filter scripts
                then string_t (encode_hash hash) :: relevant else relevant)
      end
  end.

(** The range of heights of a request. *)
Definition scan_range (top : Z) (start_height stop_height : double) : option (Z * Z) :=
  match to_size start_height,
        (if PrimFloat.leb PrimFloat.zero stop_height then to_size stop_height else Some top) with
  | Some from, Some to =>
      let to := Z.min to top in
      if to <? from then None else Some (from, to)
  | _, _ => None
  end.

(** [None] if the fuel of the expansion is spent. *)
Definition handle_scan_blocks (q : archive) (stopped : bool) (action : string) (scanobjects : array)
    (start_height stop_height : double) (filtertype : string) : option handled :=
  if stopped then Some (false, [])
  else if negb (action == "start") then Some (failed BitcoindError.invalid_parameter)
  else if negb (filtertype == basic_filter) then Some (failed BitcoindError.invalid_address_or_key)
  else if (length scanobjects =? 0)%nat then Some (failed BitcoindError.misc_error)
  else if negb (filter_enabled q) then Some (failed BitcoindError.misc_error)
  else
    match scan_range (get_top_confirmed q) start_height stop_height with
    | None => Some (failed BitcoindError.misc_error)
    | Some (from, to) =>
        match expand_objects fuel scanobjects [] with
        | None => None
        | Some (false, _) => Some (failed BitcoindError.invalid_address_or_key)
        | Some (true, scripts) =>
            Some
              match get_ancestry q (to_confirmed q to) (to - from + 1) with
              | None => failed BitcoindError.internal_error
              | Some branch =>
                  match match_branch q scripts (reverse branch) with
                  | None => failed BitcoindError.internal_error
                  | Some relevant =>
                      replied (reply_value (object_t
                        [("from_height", uint64_t from); ("to_height", uint64_t to);
                         ("relevant_blocks", array_t relevant); ("completed", boolean_t true)]))
                  end
              end
        end
    end.

(** The filter of the block at a height matches. *)
Definition relevant_at (q : archive) (scripts : list script) (height : Z) : bool :=
  let link := to_confirmed q height in
  match get_filter_body q link with
  | Some filter => match_filter (get_header_key q link) filter scripts
  | None => false
  end.

Lemma match_branch_spec q scripts heights relevant :
  match_branch q scripts (to_confirmed q <$> heights) = Some relevant →
  relevant = (λ height, string_t (encode_hash (get_header_key q (to_confirmed q height)))) <$>
      filter (λ height, relevant_at q scripts height = true) heights ∧
  Forall (λ height, is_Some (get_filter_body q (to_confirmed q height))) heights.
Proof.
  revert relevant. induction heights as [|height heights IH]; intros relevant; cbn [fmap list_fmap match_branch].
  { by intros [= <-]. }
  destruct (get_filter_body q (to_confirmed q height)) as [filter|] eqn:Hfilter; [|done].
  destruct (match_branch _ _ _) as [rest|]; [|done]. cbn [mbind option_bind].
  destruct (IH rest eq_refl) as [-> Hall]. intros [= <-].
  rewrite filter_cons.
  assert (relevant_at q scripts height = match_filter (get_header_key q (to_confirmed q height)) filter scripts)
    as Hmatch by (unfold relevant_at; by rewrite Hfilter).
  split; [|constructor; [by eexists|done]].
  destruct (match_filter _ _ _); [by rewrite decide_True|by rewrite decide_False by by rewrite Hmatch].
Qed.

Lemma match_branch_total q scripts heights :
  Forall (λ height, is_Some (get_filter_body q (to_confirmed q height))) heights →
  is_Some (match_branch q scripts (to_confirmed q <$> heights)).
Proof.
  induction 1 as [|height heights [filter Hfilter] _ [relevant IH]]; [by eexists|].
  rewrite fmap_cons. cbn [match_branch]. rewrite Hfilter, IH. by eexists.
Qed.

(** A branch of the confirmed chain, from its lowest block. *)
Lemma reverse_branch {A} (f : Z → A) to count : 0 <= count →
  reverse ((λ i, f (to - i)) <$> seqZ 0 count) = f <$> seqZ (to - count + 1) count.
Proof.
  intros Hcount. revert to. pattern count. apply natlike_ind; [done| |done]. clear count Hcount.
  intros count Hcount IH to.
  replace (Z.succ count) with (count + 1) by lia. rewrite (seqZ_app 0 count 1) by lia.
  rewrite fmap_app, reverse_app, IH. simpl.
  rewrite (seqZ_cons (to - (count + 1) + 1)) by lia. simpl. repeat f_equal; lia.
Qed.

Lemma scan_range_spec `{!SizeMathLaws} top start_height stop_height from to :
  scan_range top start_height stop_height = Some (from, to) →
  to_size start_height = Some from ∧ 0 <= from <= to ∧ to <= top.
Proof.
  unfold scan_range. destruct (to_size start_height) as [n|] eqn:Hn; [|done].
  apply to_size_range in Hn as Hsize. destruct Hsize.
  destruct (if PrimFloat.leb _ _ then _ else _) as [stop|]; [|done].
  case_match eqn:Hless; [done|]. intros [= <- <-]. split; [done|]. lia.
Qed.

End Filters.

(** ** Activity of descriptors *)

(** What is read of a populated transaction: its outputs, and its inputs with the
    outpoints and outputs that they spend. *)
Record activity_tx `{Scripts} := ActivityTx {
  activity_txid : hash_digest;
  activity_coinbase : bool;
  activity_outputs : list (script * Z);
  activity_inputs : list (point * (script * Z));
}.

Class ActivityArchive `{ChainArchive} `{Scripts} := {
  (** The populated transactions of a block: [None] if the block is not stored, and
      inside it if a prevout is missing. *)
  get_activity_block : archive → header_link → option (option (list activity_tx));
  (** The hashes of the unconfirmed history of a script. *)
  get_unconfirmed_txs : archive → hash_digest → code + list hash_digest;
  (** A transaction that is populated, by its link. *)
  activity_link : Type;
  to_activity_link : archive → hash_digest → activity_link;
  activity_link_eq :: EqDecision activity_link;
  get_activity_tx : archive → activity_link → option activity_tx;
}.

Section Activity.
Context `{Text} `{SizeMath} `{Integers} `{DescriptorScripts} `{!ScanDescriptors}.
Context `{ChainArchive} `{!BlockArchive} `{!TxArchive} `{!ActivityArchive} `{!UtxoArchive}.
Context (p2kh p2sh : Z) (witness : string) (fuel : nat) (script_model : script → object).

(** The hex of the derived scripts. *)
Definition watched (scripts : list script) : gset string :=
  list_to_set ((λ s, encode_base16 (script_data s)) <$> scripts).

(** [entry.insert(location)]: the entries of the location that are new. *)
Definition with_location (location entry : object) : object :=
  foldl (λ entry '(key, v), try_emplace key v entry) entry location.

Fixpoint inject_receives (txid : string) (location : object) (watch : gset string)
    (index : Z) (outs : list (script * Z)) : array :=
  match outs with
  | [] => []
  | (s, value) :: outs =>
      let rest := inject_receives txid location watch ((index + 1) mod 2 ^ 32) outs in
      if bool_decide (encode_base16 (script_data s) ∈ watch) then
        object_t (with_location location
          [("type", string_t "receive"); ("amount", number_t (bitcoins value));
           ("txid", string_t txid); ("vout", uint32_t index);
           ("output_spk", to_script_public_key p2kh p2sh witness script_model s)]) :: rest
      else rest
  end.

Fixpoint inject_spends (txid : string) (location : object) (watch : gset string)
    (spend : Z) (ins : list (point * (script * Z))) : array :=
  match ins with
  | [] => []
  | (prevout, (s, value)) :: ins =>
      let rest := inject_spends txid location watch ((spend + 1) mod 2 ^ 32) ins in
      if bool_decide (encode_base16 (script_data s) ∈ watch) then
        object_t (with_location location
          [("type", string_t "spend"); ("amount", number_t (bitcoins value));
           ("spend_txid", string_t txid); ("spend_vin", uint32_t spend);
           ("prevout_txid", string_t (encode_hash prevout.1)); ("prevout_vout", uint32_t prevout.2);
           ("prevout_spk", to_script_public_key p2kh p2sh witness script_model s)]) :: rest
      else rest
  end.

Definition inject_activity (location : object) (watch : gset string) (tx : activity_tx) : array :=
  let txid := encode_hash (activity_txid tx) in
  (inject_receives txid location watch 0 (activity_outputs tx) ++
   if activity_coinbase tx then []
   else inject_spends txid location watch 0 (activity_inputs tx))%list.

Definition block_location (blockhash : string) (height : Z) : object :=
  [("blockhash", string_t blockhash); ("height", uint64_t height)].

(** The loop over the blocks. *)
Fixpoint activity_blocks (q : archive) (watch : gset string) (blockhashes : array) :
    BitcoindError.error_t + array :=
  match blockhashes with
  | [] => inr []
  | string_t text :: blockhashes =>
      match decode_hash text with
      | None => inl BitcoindError.invalid_parameter
      | Some hash =>
          let link := to_header q hash in
          match get_activity_block q link with
          | None => inl BitcoindError.invalid_address_or_key
          | Some populated =>
              match get_height q link, populated with
              | Some height, Some txs =>
                  match activity_blocks q watch blockhashes with
                  | inl e => inl e
                  | inr rest =>
                      inr ((txs ≫= inject_activity (block_location (encode_hash hash) height) watch) ++
                        rest)%list
                  end
              | _, _ => inl BitcoindError.internal_error
              end
          end
      end
  | _ :: _ => inl BitcoindError.invalid_parameter
  end.

(** The links of the unconfirmed transactions of the scripts, each once. *)
Fixpoint activity_links (q : archive) (scripts : list script) (links : list activity_link) :
    option (list activity_link) :=
  match scripts with
  | [] => Some links
  | s :: scripts =>
      match get_unconfirmed_txs q (sha256_hash (script_data s)) with
      | inl _ => None
      | inr hashes =>
          activity_links q scripts
            (foldl (λ links hash,
              let link := to_activity_link q hash in
              if bool_decide (link ∈ links) then links else (links ++ [link])%list) links hashes)
      end
  end.

Definition do_get_descriptor_activity (q : archive) (blockhashes scanobjects : array)
    (include_mempool : bool) : option posted_reply :=
  match expand_objects fuel scanobjects [] with
  | None => None
  | Some (false, _) => Some (post_fail BitcoindError.invalid_address_or_key)
  | Some (true, derived) =>
      let watch := watched derived in
      Some
        match activity_blocks q watch blockhashes with
        | inl e => post_fail e
        | inr activity =>
            let answer := λ activity, post_object [("activity", array_t activity)] in
            if negb include_mempool then answer activity
            else
              match activity_links q derived [] with
              | None => post_fail BitcoindError.internal_error
              | Some links =>
                  match mapM (get_activity_tx q) links with
                  | None => post_fail BitcoindError.internal_error
                  | Some txs => answer (activity ++ (txs ≫= inject_activity [] watch))%list
                  end
              end
        end
  end.

(** The replies of the handler, or whether its query starts. *)
Definition handle_get_descriptor_activity (q : archive) (stopped include_mempool : bool) :
    bool * list reply * bool :=
  if stopped then (false, [], false)
  else if include_mempool && negb (address_enabled q)
  then (true, [bitcoind_error BitcoindError.misc_error], false)
  else (true, [], true).

End Activity.

(** ** Totals of the unspent outputs *)

Inductive set_hash := hash_none | hash_muhash | hash_serialized.

(** [database::unspent_totals] and [database::block_amounts]. *)
Record unspent_totals := UnspentTotals {
  total_transactions : Z; total_outputs : Z; script_bytes : Z; coin_bytes : Z; total_value : Z;
}.

Record block_amounts := BlockAmounts {
  amount_prevouts : Z; amount_outputs : Z; amount_coinbase : Z; amount_unspendable : Z;
  amount_bip30 : Z;
}.

Class TotalsArchive `{ChainArchive} := {
  (** The totals of a branch, with the digest of a type. *)
  get_unspent_totals : archive → set_hash → list header_link → code + (unspent_totals * hash_digest);
  get_block_amounts : archive → header_link → code + block_amounts;
  (** [chain::block::subsidy] in the settings of the network. *)
  subsidy : Z → Z;
}.

Section Totals.
Context `{Text} `{SizeMath} `{ChainArchive} `{!BlockArchive} `{!TotalsArchive} `{Scripts} `{!TxArchive}.

(** The loop over the heights. *)
Definition total_subsidy (height : Z) : Z := sum64 (subsidy <$> seqZ 0 (height + 1)).

Definition block_info (q : archive) (link : header_link) (height : Z) : option object :=
  match get_block_amounts q link with
  | inl _ => None
  | inr amounts =>
      let fees := floored_subtract (amount_prevouts amounts) (amount_outputs amounts) in
      let reward := add64 (subsidy height) fees in
      let unclaimed := floored_subtract reward (amount_coinbase amounts) in
      let unspendable :=
        add64 (add64 unclaimed (amount_unspendable amounts)) (amount_bip30 amounts) in
      Some
        [("prevout_spent", number_t (bitcoins (amount_prevouts amounts)));
         ("coinbase", number_t (bitcoins (amount_coinbase amounts)));
         ("new_outputs_ex_coinbase", number_t (bitcoins (amount_outputs amounts)));
         ("unspendable", number_t (bitcoins unspendable));
         ("unspendables", object_t
           [("genesis_block", uint64_t 0); ("bip30", number_t (bitcoins (amount_bip30 amounts)));
            ("scripts", number_t (bitcoins (amount_unspendable amounts)));
            ("unclaimed_rewards", number_t (bitcoins unclaimed))])]
  end.

Definition do_get_tx_out_set_info (q q' : archive) (type : set_hash) (height : Z) : posted_reply :=
  let link := to_confirmed q height in
  match get_ancestry q link height with
  | None => post_fail BitcoindError.internal_error
  | Some branch =>
      match get_unspent_totals q type branch with
      | inl _ => post_fail BitcoindError.internal_error
      | inr (totals, digest) =>
          if negb (is_confirmed_block q' link) then post_fail BitcoindError.internal_error
          else
            let result :=
              [("height", uint64_t height);
               ("bestblock", string_t (encode_hash (get_header_key q' link)));
               ("transactions", uint64_t (total_transactions totals));
               ("txouts", uint64_t (total_outputs totals));
               ("bogosize", uint64_t (add64 (mul64 50 (total_outputs totals)) (script_bytes totals)));
               ("disk_size", uint64_t (coin_bytes totals));
               ("total_amount", number_t (bitcoins (total_value totals)))] in
            let issued := total_subsidy height in
            let result := try_emplace "total_unspendable_amount"
              (number_t (bitcoins (floored_subtract issued (total_value totals)))) result in
            let result := match block_info q' link height with
                          | Some amounts => try_emplace "block_info" (object_t amounts) result
                          | None => result
                          end in
            post_object
              match type with
              | hash_serialized =>
                  try_emplace "hash_serialized_3" (string_t (encode_hash digest)) result
              | hash_muhash => try_emplace "muhash" (string_t (encode_hash digest)) result
              | hash_none => result
              end
      end
  end.

Definition set_hash_of (hash_type : string) : option set_hash :=
  if hash_type == "hash_serialized_3" then Some hash_serialized
  else if hash_type == "muhash" then Some hash_muhash
  else if hash_type == "none" then Some hash_none
  else None.

(** The link of the selected block. *)
Definition info_link (q : archive) (v : value_t) : BitcoindError.error_t + header_link :=
  match v with
  | string_t text =>
      match decode_hash text with
      | None => inl BitcoindError.invalid_parameter
      | Some hash => inr (to_header q hash)
      end
  | number_t number =>
      match to_size number with
      | None => inl BitcoindError.misc_error
      | Some height => inr (to_confirmed q height)
      end
  | _ => inl BitcoindError.type_error
  end.

(** An error, or the type and the height of the query that starts. *)
Definition handle_get_tx_out_set_info (q : archive) (stopped : bool) (hash_type : string)
    (hash_or_height : value_t) (use_index : bool) :
    bool * list reply * option (set_hash * Z) :=
  let failed := λ e, (true, [bitcoind_error e], None) in
  if stopped then (false, [], None)
  else
    match set_hash_of hash_type with
    | None => failed BitcoindError.invalid_parameter
    | Some type =>
        match hash_or_height with
        | null_t => (true, [], Some (type, get_top_confirmed q))
        | _ =>
            if negb use_index then failed BitcoindError.invalid_parameter
            else
              match info_link q hash_or_height with
              | inl e => failed e
              | inr link =>
                  if negb (is_confirmed_block q link) then failed BitcoindError.invalid_address_or_key
                  else
                    match get_height q link with
                    | None => failed BitcoindError.internal_error
                    | Some height => (true, [], Some (type, height))
                    end
              end
        end
    end.

End Totals.

(** ** Example *)

#[local] Existing Instance reference_text.
#[local] Existing Instance reference_sizes.
#[local] Existing Instance Descriptor.example_script.
#[local] Existing Instance Descriptor.example_keys.
#[local] Existing Instance Descriptor.example_descriptors.
#[local] Existing Instance BitcoindParsers.example_integers.
#[local] Existing Instance UtxoScan.example_wallet.
#[local] Existing Instance BitcoindBlockchain.example_chain.
#[local] Existing Instance BitcoindBlockchain.example_blocks.
#[local] Existing Instance BitcoindBlockchain.example_confirmed.

(** The block of height 1 matches the script of [b]. *)
#[local] Instance example_filters : BlockFilters := {
  match_filter _ body scripts := existsb (λ s, bool_decide (s = ((λ h, 97 + h) <$> body))) scripts;
}.

(** ** Properties *)

(** C29: a scan that starts returns a range of the confirmed chain, from the start height
    that the client gives, and, in order of height, exactly those of its blocks whose
    filter matches the scripts of the scan objects; or, if the filter of a block is
    missing, only an error. *)
Theorem scan_blocks_correct `{Text} `{SizeMathLaws} `{Integers} `{DescriptorScripts} `{!ScanDescriptors}
    `{!BlockFilters} `{ConfirmedChain} fuel q objects start_height stop_height scripts from to :
  filter_enabled q = true → objects ≠ [] →
  scan_range (get_top_confirmed q) start_height stop_height = Some (from, to) →
  expand_objects fuel objects [] = Some (true, scripts) →
  let heights := seqZ from (to - from + 1) in
  let matches := λ height, relevant_at q scripts height = true in
  let hash_at := λ height, string_t (encode_hash (get_header_key q (to_confirmed q height))) in
  to_size start_height = Some from ∧ 0 <= from <= to ∧ to <= get_top_confirmed q ∧
  (Forall (λ height, is_Some (get_filter_body q (to_confirmed q height))) heights →
   handle_scan_blocks fuel q false "start" objects start_height stop_height basic_filter =
     Some (replied (reply_value (object_t
       [("from_height", uint64_t from); ("to_height", uint64_t to);
        ("relevant_blocks", array_t (hash_at <$> filter matches heights));
        ("completed", boolean_t true)])))) ∧
  (¬ Forall (λ height, is_Some (get_filter_body q (to_confirmed q height))) heights →
   handle_scan_blocks fuel q false "start" objects start_height stop_height basic_filter =
     Some (failed BitcoindError.internal_error)).
Proof.
  intros Henabled Hobjects Hrange Hexpand heights matches hash_at.
  destruct (scan_range_spec _ _ _ _ _ Hrange) as (Hstart & Hfrom & Hto).
  assert (∀ result, match match_branch q scripts (to_confirmed q <$> heights) with
      | None => failed BitcoindError.internal_error
      | Some relevant => replied (reply_value (object_t
          [("from_height", uint64_t from); ("to_height", uint64_t to);
           ("relevant_blocks", array_t relevant); ("completed", boolean_t true)]))
      end = result →
    handle_scan_blocks fuel q false "start" objects start_height stop_height basic_filter = Some result)
    as Hreply.
  { intros result <-. unfold handle_scan_blocks. cbn [negb].
    rewrite Henabled, Hrange, Hexpand. destruct objects; [done|]. cbn [negb length Nat.eqb].
    rewrite confirmed_ancestry, reverse_branch by lia.
    by replace (to - (to - from + 1) + 1) with from by lia. }
  split_and!; [done|lia..| |].
  - intros [relevant Hmatch]%(match_branch_total q scripts). apply Hreply. rewrite Hmatch.
    by destruct (match_branch_spec q scripts heights relevant Hmatch) as [-> _].
  - intros Hmissing. apply Hreply.
    destruct (match_branch q scripts _) as [relevant|] eqn:Hmatch; [|done].
    by destruct (match_branch_spec q scripts heights relevant Hmatch) as [_ ?].
Qed.

Definition example_objects : array := [string_t "b"; string_t "x"].
Definition all_heights : double := PrimFloat.opp PrimFloat.one.

Lemma scan_blocks_correct_witness :
  handle_scan_blocks 1 BitcoindBlockchain.example_archive false "start" example_objects
    PrimFloat.zero all_heights basic_filter =
  Some (replied (reply_value (object_t
    [("from_height", uint64_t 0); ("to_height", uint64_t 2);
     ("relevant_blocks", array_t [string_t (encode_hash (example_hash 1))]);
     ("completed", boolean_t true)]))).
Proof.
  assert (expand_objects 1 example_objects [] = Some (true, [[98] : data_chunk; [120] : data_chunk]))
    as Hexpand by (vm_compute; reflexivity).
  assert (filter_enabled BitcoindBlockchain.example_archive = true) as Henabled by reflexivity.
  assert (scan_range 2 PrimFloat.zero all_heights = Some (0, 2)) as Hrange by (vm_compute; reflexivity).
  destruct (scan_blocks_correct 1 BitcoindBlockchain.example_archive example_objects PrimFloat.zero
    all_heights _ 0 2 Henabled ltac:(done) Hrange Hexpand) as (_ & _ & _ & Hreply & _).
  rewrite Hreply; [vm_compute; reflexivity|].
  repeat constructor; by eexists.
Defined.
