(* ===== verification/BitcoindMempool.v ===== *)
(** The memory pool methods of the bitcoind service
    (src/protocols/bitcoind/protocol_bitcoind_blockchain.cpp) and the objects that
    src/serializers/bitcoind_json.cpp makes of pooled transactions.

    A query runs in parallel, over the archive, and posts its reply to the strand
    (Archive.v). The pool is the set of stored transactions that are pooled and
    confirmable. *)
From S2P Require Import Prelude Rpc Errors System FeeHistogram ElectrumSubscribe ElectrumOutpoints Descriptor BitcoindParsers BlockStats Dispatch MempoolFile Archive BitcoindBlockchain.

(** [database::fee_totals]. *)
Record fee_totals := FeeTotals { total_count : Z; total_bytes : Z; total_fee : Z }.

Class PoolArchive `{TxArchive} := {
  (** The stored instances of a transaction. *)
  to_duplicates : archive → hash_digest → list tx_link;
  (** The fee and the size of a transaction, with the height of its context. *)
  get_tx_fees : archive → tx_link → option (fee_rate * Z);
  (** [chain::weighted_size] of its sizes. *)
  get_tx_weight : archive → tx_link → option Z;
  get_time : archive → tx_link → option Z;
  get_ancestor_totals : archive → tx_link → option fee_totals;
  get_descendant_totals : archive → tx_link → option fee_totals;
  get_wtxid : archive → tx_link → hash_digest;
  to_confirmable_parents : archive → tx_link → list tx_link;
  to_confirmable_children : archive → tx_link → list tx_link;
  to_confirmable_ancestors : archive → tx_link → list tx_link;
  to_confirmable_descendants : archive → tx_link → list tx_link;
  (** A code, or the links of the pool; and its rates. *)
  get_pool_txs : archive → code + list tx_link;
  get_pool_fees : archive → option (list fee_rate);
  (** Sizes of the tables. *)
  spends_size : archive → Z;
  wtxid_size : archive → Z;
  pool_size : archive → Z;
  (** The input that spends an outpoint, in the pool and in the chain. *)
  input_link : Type;
  is_input_terminal : input_link → bool;
  find_confirmable_spender : archive → point → input_link;
  find_confirmed_spender : archive → point → input_link;
  to_input_tx : archive → input_link → tx_link;
  (** A serialized transaction, and the block of a confirmed one. *)
  get_tx_data : archive → tx_link → option data_chunk;
  find_tx_block : archive → tx_link → header_link;
}.

Section Pool.
Context `{Text} `{SizeMath} `{Integers} `{Scripts} `{ChainArchive} `{!TxArchive} `{!PoolArchive}.

(** ** Entries of the pool *)

Definition to_txids (q : archive) (links : list tx_link) : array :=
  (λ link, string_t (encode_hash (get_tx_key q link))) <$> links.

Definition mempool_entry (q : archive) (link : tx_link) : option object :=
  match get_tx_fees q link, get_tx_weight q link, get_time q link,
        get_ancestor_totals q link, get_descendant_totals q link with
  | Some (rate, height), Some weight, Some time, Some ancestors, Some descendants =>
      Some
        [("vsize", uint64_t (bytes rate)); ("weight", uint64_t weight); ("time", uint64_t time);
         ("height", uint64_t ((height - 1) mod 2 ^ 64));
         ("descendantcount", uint64_t (total_count descendants));
         ("descendantsize", uint64_t (total_bytes descendants));
         ("ancestorcount", uint64_t (total_count ancestors));
         ("ancestorsize", uint64_t (total_bytes ancestors));
         ("wtxid", string_t (encode_hash (get_wtxid q link)));
         ("fees", object_t
           [("base", number_t (bitcoins (fee rate))); ("modified", number_t (bitcoins (fee rate)));
            ("ancestor", number_t (bitcoins (total_fee ancestors)));
            ("descendant", number_t (bitcoins (total_fee descendants)))]);
         ("depends", array_t (to_txids q (to_confirmable_parents q link)));
         ("spentby", array_t (to_txids q (to_confirmable_children q link)));
         ("bip125-replaceable", boolean_t false); ("unbroadcast", boolean_t false)]
  | _, _, _, _, _ => None
  end.

(** The loop over the links of a verbose result. *)
Fixpoint mempool_entries (q : archive) (links : list tx_link) (entries : object) : option object :=
  match links with
  | [] => Some entries
  | link :: links =>
      match mempool_entry q link with
      | None => None
      | Some entry =>
          mempool_entries q links
            (set_field (encode_hash (get_tx_key q link)) (object_t entry) entries)
      end
  end.

Definition mempool_txs (q : archive) (links : list tx_link) (verbose : bool) : option value_t :=
  if verbose then object_t <$> mempool_entries q links []
  else Some (array_t (to_txids q links)).

Definition raw_mempool (q : archive) (verbose sequence : bool) : option value_t :=
  match get_pool_txs q with
  | inl _ => None
  | inr links =>
      match mempool_txs q links verbose with
      | None => None
      | Some txs =>
          Some
            (if verbose || negb sequence then txs
             else object_t [("txids", txs); ("mempool_sequence", int64_t 1)])
      end
  end.

(** [space] is that of the volume of the store, if it is known. *)
Definition mempool_info (q : archive) (space : option Z) (minimum relay increment : double) :
    option object :=
  match get_pool_fees q, space with
  | Some rates, Some space =>
      let '(total, fees) :=
        foldl (λ '(total, fees) rate, (ceilinged_add total (bytes rate), ceilinged_add fees (fee rate)))
          (0, 0) rates in
      let indexes := ceilinged_add (spends_size q) (wtxid_size q) in
      let usage := ceilinged_add (pool_size q) indexes in
      Some
        [("loaded", boolean_t true); ("size", uint64_t (Z.of_nat (length rates)));
         ("bytes", uint64_t total); ("usage", uint64_t usage);
         ("total_fee", number_t (bitcoins fees)); ("maxmempool", uint64_t space);
         ("mempoolminfee", number_t minimum); ("minrelaytxfee", number_t relay);
         ("incrementalrelayfee", number_t increment); ("unbroadcastcount", int64_t 0);
         ("fullrbf", boolean_t false)]
  | _, _ => None
  end.

(** ** Queries of the pool *)

(** A stored instance that is pooled and confirmable. *)
Definition to_mempool_tx (q : archive) (hash : hash_digest) : option tx_link :=
  List.find (λ link, is_pooled q link && is_confirmable_tx q link) (to_duplicates q hash).

(** What a handler defers: nothing, or a parallel query. *)
Abbreviation deferred := (bool * list reply * option posted_reply)%type.

Definition defer (p : posted_reply) : deferred := (true, [], Some p).
Definition refuse (e : BitcoindError.error_t) : deferred := (true, [bitcoind_error e], None).

Definition post_json (result : option value_t) : posted_reply :=
  match result with
  | None => post_fail BitcoindError.internal_error
  | Some v => post_value v
  end.

Definition do_get_mempool_relatives (q : archive) (hash : hash_digest) (verbose ancestors : bool) :
    posted_reply :=
  match to_mempool_tx q hash with
  | None => post_fail BitcoindError.invalid_address_or_key
  | Some link =>
      let links :=
        if ancestors then to_confirmable_ancestors q link else to_confirmable_descendants q link in
      post_json (mempool_txs q links verbose)
  end.

Definition get_mempool_relatives (q : archive) (txid : string) (verbose ancestors : bool) : deferred :=
  match decode_hash txid with
  | None => refuse BitcoindError.invalid_parameter
  | Some hash => defer (do_get_mempool_relatives q hash verbose ancestors)
  end.

Definition handle_get_mempool_ancestors (q : archive) (stopped : bool) (txid : string)
    (verbose : bool) : deferred :=
  if stopped then (false, [], None) else get_mempool_relatives q txid verbose true.

Definition handle_get_mempool_descendants (q : archive) (stopped : bool) (txid : string)
    (verbose : bool) : deferred :=
  if stopped then (false, [], None) else get_mempool_relatives q txid verbose false.

Definition do_get_mempool_entry (q : archive) (hash : hash_digest) : posted_reply :=
  match to_mempool_tx q hash with
  | None => post_fail BitcoindError.invalid_address_or_key
  | Some link => post_json (object_t <$> mempool_entry q link)
  end.

Definition handle_get_mempool_entry (q : archive) (stopped : bool) (txid : string) : deferred :=
  if stopped then (false, [], None)
  else
    match decode_hash txid with
    | None => refuse BitcoindError.invalid_parameter
    | Some hash => defer (do_get_mempool_entry q hash)
    end.

Definition do_get_mempool_info (q : archive) (space : option Z) (minimum relay increment : double) :
    posted_reply :=
  post_json (object_t <$> mempool_info q space minimum relay increment).

(** The rates are those of the node: sent to peers, and configured. *)
Definition handle_get_mempool_info (q : archive) (space : option Z) (stopped : bool)
    (minimum_fee_rate relay_fee_rate : Z) (minimum_bump_rate : double) : deferred :=
  if stopped then (false, [], None)
  else
    defer (do_get_mempool_info q space (bitcoins minimum_fee_rate) (bitcoins relay_fee_rate)
      minimum_bump_rate).

Definition do_get_raw_mempool (q : archive) (verbose sequence : bool) : posted_reply :=
  post_json (raw_mempool q verbose sequence).

Definition handle_get_raw_mempool (q : archive) (stopped verbose mempool_sequence : bool) : deferred :=
  if stopped then (false, [], None)
  else if verbose && mempool_sequence then refuse BitcoindError.invalid_params
  else defer (do_get_raw_mempool q verbose mempool_sequence).

(** ** Spenders of outpoints *)

(** The loop over the options. *)
Fixpoint spending_flags (options : object) (mempool_only return_tx : bool) : option (bool * bool) :=
  match options with
  | [] => Some (mempool_only, return_tx)
  | (name, boolean_t flag) :: options =>
      if name == "mempool_only" then spending_flags options flag return_tx
      else if name == "return_spending_tx" then spending_flags options mempool_only flag
      else None
  | _ :: _ => None
  end.

Definition spending_prevout (output : value_t) : BitcoindError.error_t + point :=
  match output with
  | object_t fields =>
      if negb (length fields =? 2)%nat then inl BitcoindError.type_error
      else
        match find_field "txid" fields, find_field "vout" fields with
        | Some (string_t txid), Some (number_t vout) =>
            match decode_hash txid, to_uint32 vout with
            | Some hash, Some index => inr (hash, index)
            | _, _ => inl BitcoindError.invalid_parameter
            end
        | _, _ => inl BitcoindError.type_error
        end
  | _ => inl BitcoindError.type_error
  end.

(** The loop over the outputs of the request. *)
Fixpoint spending_prevouts (outputs : array) : BitcoindError.error_t + list point :=
  match outputs with
  | [] => inr []
  | output :: outputs =>
      match spending_prevout output with
      | inl e => inl e
      | inr prevout =>
          match spending_prevouts outputs with
          | inl e => inl e
          | inr prevouts => inr (prevout :: prevouts)
          end
      end
  end.

(** The spender of an outpoint, and whether it is confirmed. *)
Definition find_spender (q : archive) (prevout : point) (mempool_only : bool) : input_link * bool :=
  let spender := find_confirmable_spender q prevout in
  if is_input_terminal spender && negb mempool_only then
    let spender := find_confirmed_spender q prevout in
    (spender, negb (is_input_terminal spender))
  else (spender, false).

Definition spending_entry (q : archive) (prevout : point) (mempool_only return_tx : bool) :
    option object :=
  let result := [("txid", string_t (encode_hash prevout.1)); ("vout", uint32_t prevout.2)] in
  let '(spender, confirmed) := find_spender q prevout mempool_only in
  if is_input_terminal spender then Some result
  else
    let tx := to_input_tx q spender in
    let result := set_field "spendingtxid" (string_t (encode_hash (get_tx_key q tx))) result in
    match (if return_tx then
             match get_tx_data q tx with
             | None => None
             | Some data => Some (set_field "spendingtx" (string_t (encode_base16 data)) result)
             end
           else Some result) with
    | None => None
    | Some result =>
        Some (if confirmed
              then set_field "blockhash"
                (string_t (encode_hash (get_header_key q (find_tx_block q tx)))) result
              else result)
    end.

Fixpoint spending_entries (q : archive) (prevouts : list point) (mempool_only return_tx : bool) :
    option array :=
  match prevouts with
  | [] => Some []
  | prevout :: prevouts =>
      match spending_entry q prevout mempool_only return_tx with
      | None => None
      | Some entry =>
          match spending_entries q prevouts mempool_only return_tx with
          | None => None
          | Some entries => Some (object_t entry :: entries)
          end
      end
  end.

Definition do_get_tx_spending_prevout (q : archive) (prevouts : list point)
    (mempool_only return_tx : bool) : posted_reply :=
  post_json (array_t <$> spending_entries q prevouts mempool_only return_tx).

Definition handle_get_tx_spending_prevout (q : archive) (stopped : bool) (outputs : array)
    (options : option object) : deferred :=
  if stopped then (false, [], None)
  else if (length outputs =? 0)%nat then refuse BitcoindError.invalid_parameter
  else
    match spending_flags (default [] options) false false with
    | None => refuse BitcoindError.type_error
    | Some (mempool_only, return_tx) =>
        match spending_prevouts outputs with
        | inl e => refuse e
        | inr prevouts => defer (do_get_tx_spending_prevout q prevouts mempool_only return_tx)
        end
    end.

End Pool.

(** ** Lemmas of the pool *)

Section PoolLemmas.
Context `{TextLaws} `{SizeMath} `{Integers} `{Scripts} `{ChainArchive} `{!TxArchive} `{!PoolArchive}.

(** The spender that an entry reports: that of the pool, or else that of the chain. *)
Definition reported_spender (q : archive) (prevout : point) (mempool_only : bool) :
    option (input_link * bool) :=
  let pooled := find_confirmable_spender q prevout in
  let confirmed := find_confirmed_spender q prevout in
  if negb (is_input_terminal pooled) then Some (pooled, false)
  else if negb mempool_only && negb (is_input_terminal confirmed) then Some (confirmed, true)
  else None.

(** What an entry says of an outpoint. *)
Definition reports (q : archive) (mempool_only return_tx : bool) (prevout : point) (v : value_t) : Prop :=
  ∃ o, v = object_t o ∧
    find_field "txid" o = Some (string_t (encode_hash prevout.1)) ∧
    find_field "vout" o = Some (uint32_t prevout.2) ∧
    let tx := (λ '(spender, _), to_input_tx q spender) <$> reported_spender q prevout mempool_only in
    find_field "spendingtxid" o = (λ tx, string_t (encode_hash (get_tx_key q tx))) <$> tx ∧
    find_field "spendingtx" o =
      (if return_tx then (λ data, string_t (encode_base16 data)) <$> (tx ≫= get_tx_data q) else None) ∧
    (return_tx = true → is_Some tx → is_Some (tx ≫= get_tx_data q)) ∧
    find_field "blockhash" o =
      match reported_spender q prevout mempool_only with
      | Some (spender, true) =>
          Some (string_t (encode_hash (get_header_key q (find_tx_block q (to_input_tx q spender)))))
      | _ => None
      end.

(** An entry's fields, of a known spender. *)
Ltac solve_fields :=
  split_and!; intros; simpl in *;
  try match goal with
      | Hnone : is_Some None |- _ => by destruct Hnone
      | |- context [if ?b then None else None] => destruct b
      end;
  (done || by eexists).

Lemma spending_entry_reports q prevout mempool_only return_tx o :
  spending_entry q prevout mempool_only return_tx = Some o →
  reports q mempool_only return_tx prevout (object_t o).
Proof.
  unfold spending_entry, reports, find_spender, reported_spender. intros Hentry. exists o. split; [done|].
  destruct (is_input_terminal (find_confirmable_spender q prevout)) eqn:Hpooled; cbn [andb negb] in *;
    [destruct mempool_only; cbn [andb negb] in *;
      [|destruct (is_input_terminal (find_confirmed_spender q prevout)) eqn:Hconfirmed; cbn [negb] in *]|];
    rewrite ?Hpooled in Hentry; cbn [fmap option_fmap option_map mbind option_bind];
    try destruct return_tx; try (destruct (get_tx_data q _) as [data|]; [|done]);
    injection Hentry as <-; solve_fields.
Qed.

Lemma spending_entries_reports q prevouts mempool_only return_tx entries :
  spending_entries q prevouts mempool_only return_tx = Some entries →
  Forall2 (reports q mempool_only return_tx) prevouts entries.
Proof.
  revert entries. induction prevouts as [|prevout prevouts IH]; intros entries; cbn [spending_entries].
  { by intros [= <-]. }
  destruct (spending_entry q prevout _ _) as [o|] eqn:Hentry; [|done].
  destruct (spending_entries q prevouts _ _) as [rest|]; [|done]. intros [= <-].
  constructor; [by apply spending_entry_reports|by apply IH].
Qed.

Lemma spending_entries_total q prevouts mempool_only :
  is_Some (spending_entries q prevouts mempool_only false).
Proof.
  induction prevouts as [|prevout prevouts [entries IH]]; cbn [spending_entries]; [by eexists|].
  rewrite IH. unfold spending_entry. destruct (find_spender _ _ _) as [spender confirmed].
  destruct (is_input_terminal spender); by eexists.
Qed.

Lemma spending_prevouts_spec outputs prevouts :
  spending_prevouts outputs = inr prevouts →
  Forall2 (λ output prevout, spending_prevout output = inr prevout) outputs prevouts.
Proof.
  revert prevouts. induction outputs as [|output outputs IH]; intros prevouts; cbn [spending_prevouts].
  { by intros [= <-]. }
  destruct (spending_prevout output) as [|prevout] eqn:Hprevout; [done|].
  destruct (spending_prevouts outputs) as [|rest]; [done|]. intros [= <-].
  constructor; [done|by apply IH].
Qed.

(** The keys of a verbose result, of transactions that it does not hold yet. *)
Lemma mempool_entries_names q links entries o :
  NoDup (get_tx_key q <$> links) → Forall (λ link, is_hash (get_tx_key q link)) links →
  Forall (λ link, encode_hash (get_tx_key q link) ∉ field_names entries) links →
  mempool_entries q links entries = Some o →
  field_names o = (field_names entries ++ ((λ link, encode_hash (get_tx_key q link)) <$> links))%list ∧
  Forall (λ link, is_Some (mempool_entry q link)) links.
Proof.
  revert entries. induction links as [|link links IH]; intros entries Hunique Hhash Hfresh; cbn [mempool_entries].
  { intros [= <-]. by rewrite app_nil_r. }
  destruct (mempool_entry q link) as [entry|] eqn:Hentry; [|done]. intros Ho.
  rewrite fmap_cons, NoDup_cons in Hunique. destruct Hunique as [Hnew Hunique].
  apply Forall_cons in Hhash as [Hlink Hhash]. apply Forall_cons in Hfresh as [Hkey Hfresh].
  assert (field_names (set_field (encode_hash (get_tx_key q link)) (object_t entry) entries) =
    (field_names entries ++ [encode_hash (get_tx_key q link)])%list) as Hset.
  { clear -Hkey. induction entries as [|[k v] entries IH]; [done|]. cbn [set_field field_names fmap list_fmap fst] in *.
    apply not_elem_of_cons in Hkey as [Hne Hkey]. rewrite eqb_neq_false by done. simpl.
    f_equal. by apply IH. }
  edestruct IH as [Hnames Hall]; [exact Hunique|exact Hhash| |exact Ho|].
  - apply Forall_forall. intros other Hother. rewrite set_field_names. intros [Heq|Hold].
    + apply (f_equal decode_hash) in Heq. rewrite Forall_forall in Hhash.
      rewrite !decode_encode_hash in Heq by auto. injection Heq as Heq.
      apply Hnew. rewrite <-Heq. by apply list_elem_of_fmap_2.
    + rewrite Forall_forall in Hfresh. by apply (Hfresh other).
  - rewrite Hnames, Hset, <-app_assoc. split; [done|]. constructor; [by eexists|done].
Qed.

(** Each transaction has its entry. *)
Lemma mempool_entries_find q links entries o link entry :
  NoDup (get_tx_key q <$> links) → Forall (λ link, is_hash (get_tx_key q link)) links →
  mempool_entries q links entries = Some o → link ∈ links → mempool_entry q link = Some entry →
  find_field (encode_hash (get_tx_key q link)) o = Some (object_t entry).
Proof.
  assert (∀ links entries o key, mempool_entries q links entries = Some o →
    key ∉ (λ link, encode_hash (get_tx_key q link)) <$> links →
    find_field key o = find_field key entries) as Hkept.
  { clear. intros links. induction links as [|link links IH]; intros entries o key; cbn [mempool_entries].
    { by intros [= <-]. }
    destruct (mempool_entry q link) as [entry|]; [|done]. rewrite fmap_cons, not_elem_of_cons.
    intros Ho [Hne Hkey]. rewrite (IH _ _ _ Ho Hkey). by apply find_set_ne. }
  revert entries. induction links as [|other links IH]; intros entries; cbn [mempool_entries].
  { by intros _ _ _ ?%not_elem_of_nil. }
  rewrite fmap_cons, NoDup_cons. intros [Hnew Hunique] [Hother Hhash]%Forall_cons Ho Hlink Hentry.
  destruct (mempool_entry q other) as [entry'|] eqn:Hentry'; [|done].
  apply elem_of_cons in Hlink as [->|Hlink]; [|by eapply IH].
  assert (entry' = entry) as -> by congruence. rewrite (Hkept _ _ _ _ Ho), find_set_eq; [done|].
  intros (link & Heq & Hlink)%list_elem_of_fmap. apply (f_equal decode_hash) in Heq.
  rewrite Forall_forall in Hhash. rewrite !decode_encode_hash in Heq by auto.
  injection Heq as Heq. apply Hnew. rewrite Heq. by apply list_elem_of_fmap_2.
Qed.

End PoolLemmas.

(** ** The mempool file *)

(** The file system. An operation may fail; a failed creation may leave anything in
    the file that it creates. *)
Class Files := {
  files : Type;
  (** [std::filesystem::absolute]. *)
  absolute : files → string → option string;
  create_file : files → string → data_chunk → bool * files;
  rename : files → string → string → bool * files;
  read_file : files → string → option data_chunk;
}.

Class FilesLaws `{Files} : Prop := {
  create_file_written fs path data fs' :
    create_file fs path data = (true, fs') → read_file fs' path = Some data;
  create_file_other fs path data created fs' path' :
    create_file fs path data = (created, fs') → path' ≠ path →
    read_file fs' path' = read_file fs path';
  rename_done fs from to fs' :
    rename fs from to = (true, fs') → read_file fs' to = read_file fs from;
  rename_failed fs from to fs' :
    rename fs from to = (false, fs') → read_file fs' to = read_file fs to;
}.

Section File.
Context `{PoolStore} `{Files}.

(** The path is that of mempool.dat in the directory of the store. *)
Definition do_save_mempool (q : pool) (path : string) (fs : files) : posted_reply * files :=
  match serialize_mempool q with
  | None => (post_fail BitcoindError.misc_error, fs)
  | Some data =>
      let temporary := (path +:+ ".new")%string in
      match absolute fs path with
      | None => (post_fail BitcoindError.misc_error, fs)
      | Some name =>
          let '(created, fs) := create_file fs temporary data in
          if negb created then (post_fail BitcoindError.misc_error, fs)
          else
            let '(renamed, fs) := rename fs temporary path in
            if negb renamed then (post_fail BitcoindError.misc_error, fs)
            else (post_value (object_t [("filename", string_t name)]), fs)
      end
  end.

(** Whether the save starts. *)
Definition handle_save_mempool (stopped : bool) : bool * bool := (negb stopped, negb stopped).

(** The transactions of the file, or its error; [None] if the fuel is spent. *)
Definition do_import_mempool (fuel : nat) (fs : files) (filepath : string) :
    option (BitcoindError.error_t + list wire_tx) :=
  match read_file fs filepath with
  | None => Some (inl BitcoindError.misc_error)
  | Some data =>
      match parse_mempool fuel data with
      | None => None
      | Some (true, txs) => Some (inr txs)
      | Some (false, _) => Some (inl BitcoindError.misc_error)
      end
  end.

(** An error, or the path of the import that starts. *)
Definition handle_import_mempool (stopped : bool) (filepath : string) (options : option object) :
    bool * list reply * option string :=
  if stopped then (false, [], None)
  else if forallb (λ '(_, v), match v with boolean_t _ => true | _ => false end) (default [] options)
  then (true, [], Some filepath)
  else (true, [bitcoind_error BitcoindError.type_error], None).

(** A turn of the import on the strand: it ends, or submits a transaction to the
    organizer, whose completion posts the next turn. *)
Inductive import_turn :=
  | import_ends (replies : list reply)
  | import_submits (tx : wire_tx) (index : nat).

Definition next_import (stopped : bool) (txs : list wire_tx) (index : nat) : option import_turn :=
  if stopped then Some (import_ends [])
  else if (index =? length txs)%nat then Some (import_ends [reply_value (object_t [])])
  else
    match txs !! index with
    | Some tx => Some (import_submits tx index)
    | None => None
    end.

(** The index of the turn that is posted. *)
Definition handle_import (ec : code) (index : nat) : nat := S index.

(** The transactions that are submitted, the replies, and whether the import ended:
    each turn with whether the channel is stopped by then, and the code with which
    the organizer answers. *)
Fixpoint run_import (turns : list (bool * code)) (txs : list wire_tx) (index : nat) :
    option (list wire_tx * list reply * bool) :=
  match turns with
  | [] => Some ([], [], false)
  | (stopped, ec) :: turns =>
      match next_import stopped txs index with
      | None => None
      | Some (import_ends replies) => Some ([], replies, true)
      | Some (import_submits tx index) =>
          match run_import turns txs (handle_import ec index) with
          | None => None
          | Some (submitted, replies, ended) => Some (tx :: submitted, replies, ended)
          end
      end
  end.

(** ** Lemmas *)

Lemma import_submits_all turns txs submitted index :
  index = length submitted →
  Forall (λ turn, turn.1 = false) turns → (length txs < length turns)%nat →
  run_import turns (submitted ++ txs) index = Some (txs, [reply_value (object_t [])], true).
Proof.
  intros ->. revert submitted turns. induction txs as [|tx txs IH]; intros submitted turns Hrunning Hlength;
    (destruct turns as [|[stopped ec] turns]; [simpl in Hlength; lia|]);
    apply Forall_cons in Hrunning as [Hstopped Hrunning]; simpl in Hstopped; subst stopped;
    cbn [run_import]; unfold next_import; rewrite length_app.
  - rewrite app_nil_r, Nat.add_0_r, Nat.eqb_refl. done.
  - rewrite (proj2 (Nat.eqb_neq _ _)) by (simpl; lia).
    rewrite list_lookup_middle by done. unfold handle_import.
    rewrite (cons_middle tx), app_assoc.
    replace (S (length submitted)) with (length (submitted ++ [tx])) by (rewrite length_app; simpl; lia).
    rewrite IH; [done..|]. simpl in Hlength. lia.
Qed.

(** A channel that stops after some turns has submitted only those, and is silent. *)
Lemma import_stops turns ec later txs submitted index :
  index = length submitted →
  Forall (λ turn, turn.1 = false) turns → (length turns <= length txs)%nat →
  run_import (turns ++ (true, ec) :: later) (submitted ++ txs) index =
    Some (take (length turns) txs, [], true).
Proof.
  intros ->. revert submitted txs. induction turns as [|[stopped code] turns IH];
    intros submitted txs Hrunning Hlength; [done|].
  apply Forall_cons in Hrunning as [Hstopped Hrunning]; simpl in Hstopped; subst stopped.
  destruct txs as [|tx txs]; [simpl in Hlength; lia|].
  cbn [app run_import]. unfold next_import. rewrite length_app.
  rewrite (proj2 (Nat.eqb_neq _ _)) by (simpl; lia).
  rewrite list_lookup_middle by done. unfold handle_import. rewrite (cons_middle tx), app_assoc.
  replace (S (length submitted)) with (length (submitted ++ [tx])) by (rewrite length_app; simpl; lia).
  rewrite IH; [done..|]. simpl in Hlength. lia.
Qed.

Lemma temporary_ne path : path ≠ (path +:+ ".new")%string.
Proof.
  induction path as [|c path IH]; [done|]. intros [= Heq]. by apply IH.
Qed.

(** A save writes the whole file and names it, or leaves the file as it was. *)
Lemma save_mempool_cases `{!FilesLaws} q path fs :
  let '(reply, fs') := do_save_mempool q path fs in
  (∃ data name, serialize_mempool q = Some data ∧ absolute fs path = Some name ∧
    reply = post_value (object_t [("filename", string_t name)]) ∧ read_file fs' path = Some data) ∨
  (reply = post_fail BitcoindError.misc_error ∧ read_file fs' path = read_file fs path).
Proof.
  unfold do_save_mempool. destruct (serialize_mempool q) as [data|]; [|by right].
  destruct (absolute fs path) as [name|]; [|by right].
  destruct (create_file fs _ data) as [created fs1] eqn:Hcreate.
  assert (read_file fs1 path = read_file fs path) as Hkept
    by (eapply create_file_other; [exact Hcreate|]; apply temporary_ne).
  destruct created; [|by right]. cbn [negb].
  destruct (rename fs1 _ path) as [renamed fs2] eqn:Hrename.
  destruct renamed; cbn [negb].
  - left. exists data, name. split_and!; [done..|].
    rewrite (rename_done _ _ _ _ Hrename). by eapply create_file_written.
  - right. split; [done|]. by rewrite (rename_failed _ _ _ _ Hrename).
Qed.

End File.

(** ** Example: a file system of two files *)

#[local] Existing Instance reference_text.

#[local] Instance example_files : Files := {
  files := gmap string data_chunk;
  absolute _ path := Some ("/" +:+ path)%string;
  create_file fs path data := (true, <[path := data]> fs);
  rename fs from to :=
    match fs !! from with
    | Some data => (true, <[to := data]> (delete from fs))
    | None => (false, fs)
    end;
  read_file fs path := fs !! path;
}.

#[local] Instance example_files_laws : FilesLaws.
Proof.
  split; simpl.
  - intros fs path data fs' [= <-]. by rewrite lookup_insert_eq.
  - intros fs path data created fs' path' [= _ <-] Hne. by rewrite lookup_insert_ne.
  - intros fs from to fs'. destruct (fs !! from) eqn:Hfrom; [|done]. intros [= <-]. by rewrite lookup_insert_eq.
  - intros fs from to fs'. destruct (fs !! from); [done|]. by intros [= <-].
Qed.

#[local] Existing Instance MempoolFile.example_wire.
#[local] Existing Instance MempoolFile.example_wire_laws.
#[local] Existing Instance MempoolFile.example_pool.

(** ** Example: a pool of two transactions, the second a child of the first *)

#[local] Existing Instance reference_sizes.
#[local] Existing Instance Descriptor.example_script.
#[local] Existing Instance BitcoindParsers.example_integers.
#[local] Existing Instance BitcoindBlockchain.example_chain.

(** The links of the pool. *)
Definition pooled_links : list Z := [7; 8].
Definition pooled_hash (link : Z) : hash_digest := replicate 32 link.

#[local] Instance example_txs : TxArchive := {
  tx_link := Z;
  is_tx_terminal link := link <? 0;
  output_link := Z;
  is_output_terminal link := link <? 0;
  to_output _ _ _ := -1;
  to_output_tx _ link := link;
  get_output _ _ := None;
  is_confirmed_spent _ _ := false;
  is_confirmable_spent _ _ := false;
  get_tx_height _ _ := None;
  is_pooled _ _ := true;
  is_confirmable_tx _ _ := true;
  is_coinbase_tx _ _ := false;
  get_tx_key _ link := pooled_hash link;
  satoshi_per_bitcoin := 100000000;
}.

#[local] Instance example_pool_archive : PoolArchive := {
  to_duplicates _ hash := List.filter (λ link, bool_decide (hash = pooled_hash link)) pooled_links;
  get_tx_fees _ link := Some (FeeRate 200 (1000 * link), 3);
  get_tx_weight _ _ := Some 800;
  get_time _ link := Some link;
  get_ancestor_totals _ link := Some (FeeTotals (link - 6) (200 * (link - 6)) 7000);
  get_descendant_totals _ link := Some (FeeTotals (9 - link) 200 7000);
  get_wtxid _ link := pooled_hash link;
  to_confirmable_parents _ link := if link =? 8 then [7] else [];
  to_confirmable_children _ link := if link =? 7 then [8] else [];
  to_confirmable_ancestors _ link := if link =? 8 then [7] else [];
  to_confirmable_descendants _ link := if link =? 7 then [8] else [];
  get_pool_txs _ := inr pooled_links;
  get_pool_fees _ := Some [FeeRate 200 7000; FeeRate 200 8000];
  spends_size _ := 10;
  wtxid_size _ := 10;
  pool_size _ := 10;
  input_link := Z;
  is_input_terminal link := link <? 0;
  find_confirmable_spender _ prevout := if bool_decide (prevout.1 = pooled_hash 7) then 8 else -1;
  find_confirmed_spender _ prevout := if bool_decide (prevout.1 = pooled_hash 3) then 4 else -1;
  to_input_tx _ link := link;
  get_tx_data _ link := Some [link];
  find_tx_block _ _ := Some 1;
}.

(** ** Properties *)

(** C27: [savemempool] never loses the pool of an earlier save: it replaces the file
    with the whole pool, and names it, or it fails and leaves the file as it was. A
    later import of the saved file submits every transaction of the pool to the
    organizer, once and in order, whatever the organizer answers to any of them, and
    then replies once; if the channel stops, it submits no more and is silent. *)
Theorem save_import_mempool `{PoolStore} `{!WireTransactionsLaws} `{FilesLaws} q path fs links :
  get_confirmable_txs q = inr links → Z.of_nat (length links) < 2 ^ 64 →
  let '(saved, fs') := do_save_mempool q path fs in
  (saved = post_fail BitcoindError.misc_error ∧ read_file fs' path = read_file fs path) ∨
  (∃ name txs, saved = post_value (object_t [("filename", string_t name)]) ∧
    mapM (get_pool_transaction q) links = Some txs ∧
    (∀ fuel, (length links <= fuel)%nat → do_import_mempool fuel fs' path = Some (inr txs)) ∧
    (∀ turns, Forall (λ turn, turn.1 = false) turns → (length txs < length turns)%nat →
      run_import turns txs 0 = Some (txs, [reply_value (object_t [])], true)) ∧
    (∀ turns ec later, Forall (λ turn, turn.1 = false) turns → (length turns <= length txs)%nat →
      run_import (turns ++ (true, ec) :: later) txs 0 = Some (take (length turns) txs, [], true))).
Proof.
  intros Hlinks Hcount. pose proof (save_mempool_cases q path fs) as Hsave.
  destruct (do_save_mempool q path fs) as [saved fs'].
  destruct Hsave as [(data & name & Hdata & Hname & -> & Hread)|Hfailed]; [right|by left].
  destruct (parse_saved q links data Hlinks Hdata Hcount) as (txs & Htxs & Hparse).
  exists name, txs. split_and!; [done|done| | |].
  - intros fuel Hfuel. unfold do_import_mempool. by rewrite Hread, Hparse.
  - intros turns. by apply (import_submits_all turns txs []).
  - intros turns ec later. by apply (import_stops turns ec later txs []).
Qed.

Definition example_path : string := "mempool.dat".
Definition example_pooled : pool := ([7; 8] : list Z).
Definition no_files : files := (∅ : gmap string data_chunk).

Lemma save_import_mempool_witness :
  ∃ fs', do_save_mempool example_pooled example_path no_files =
      (post_value (object_t [("filename", string_t "/mempool.dat")]), fs') ∧
    do_import_mempool 2 fs' example_path = Some (inr [7; 8]).
Proof.
  pose proof (@save_import_mempool _ example_pool example_wire_laws example_files example_files_laws
    example_pooled example_path no_files [7; 8] eq_refl ltac:(reflexivity)) as Hsave.
  destruct (do_save_mempool example_pooled example_path no_files) as [saved fs'] eqn:Hdo.
  assert (saved = post_value (object_t [("filename", string_t "/mempool.dat")])) as ->
    by (apply (f_equal fst) in Hdo; vm_compute in Hdo; by rewrite <-Hdo).
  exists fs'. split; [reflexivity|].
  destruct Hsave as [[Hfail _]|(name & txs & _ & Htxs & Hparse & _)]; [discriminate Hfail|].
  injection Htxs as <-. by apply Hparse.
Defined.

(** Each outpoint of a request is answered, in the order of the request, with the
    transaction that spends it: that of the pool if there is one, or else (unless only
    the pool is asked) that of the confirmed chain, which alone has its block; an
    outpoint that is not spent has neither. Without the spending transactions, the
    query does not fail. *)
Lemma spending_prevouts_correct `{TextLaws} `{SizeMath} `{Integers} `{Scripts} `{ChainArchive}
    `{!TxArchive} `{!PoolArchive} q outputs options posted :
  handle_get_tx_spending_prevout q false outputs options = defer posted →
  ∃ prevouts mempool_only return_tx,
    spending_flags (default [] options) false false = Some (mempool_only, return_tx) ∧
    Forall2 (λ output prevout, spending_prevout output = inr prevout) outputs prevouts ∧
    ((∃ entries, posted = post_value (array_t entries) ∧
        Forall2 (reports q mempool_only return_tx) prevouts entries) ∨
     (posted = post_fail BitcoindError.internal_error ∧ return_tx = true)).
Proof.
  unfold handle_get_tx_spending_prevout. destruct (length outputs =? 0)%nat; [done|].
  destruct (spending_flags _ _ _) as [[mempool_only return_tx]|]; [|done].
  destruct (spending_prevouts outputs) as [|prevouts] eqn:Hprevouts; [done|]. intros [= <-].
  exists prevouts, mempool_only, return_tx. split; [done|]. split; [by apply spending_prevouts_spec|].
  unfold do_get_tx_spending_prevout.
  destruct (spending_entries q prevouts _ _) as [entries|] eqn:Hentries.
  - left. exists entries. split; [done|]. by apply spending_entries_reports.
  - right. split; [done|]. destruct return_tx; [done|].
    destruct (spending_entries_total q prevouts mempool_only) as [entries Htotal]. congruence.
Qed.

(** An output of each of the pool and the chain, and one that is not spent. *)
Definition example_outputs : array :=
  (λ link, object_t [("txid", string_t (encode_hash (pooled_hash link))); ("vout", number_t PrimFloat.zero)])
    <$> [7; 3; 5].

(** The verbose form of the pool and its plain form agree: the keys of the one are
    the transaction hashes of the other, in order, each with the entry that
    [getmempoolentry] has for the transaction. *)
Lemma raw_mempool_forms `{TextLaws} `{SizeMath} `{Integers} `{Scripts} `{ChainArchive}
    `{!TxArchive} `{!PoolArchive} q links verbose plain :
  get_pool_txs q = inr links → NoDup (get_tx_key q <$> links) →
  Forall (λ link, is_hash (get_tx_key q link)) links →
  raw_mempool q true false = Some verbose → raw_mempool q false false = Some plain →
  ∃ entries txids, verbose = object_t entries ∧ plain = array_t (string_t <$> txids) ∧
    field_names entries = txids ∧
    ∀ link, link ∈ links → to_mempool_tx q (get_tx_key q link) = Some link →
      ∃ entry, handle_get_mempool_entry q false (encode_hash (get_tx_key q link)) =
          defer (post_value (object_t entry)) ∧
        find_field (encode_hash (get_tx_key q link)) entries = Some (object_t entry).
Proof.
  intros Hlinks Hunique Hhash. unfold raw_mempool, mempool_txs. rewrite Hlinks.
  destruct (mempool_entries q links []) as [entries|] eqn:Hentries; [|done].
  intros [= <-] [= <-].
  destruct (mempool_entries_names q links [] entries Hunique Hhash) as [Hnames Hall]; [|done|].
  { apply Forall_forall. intros link _. by apply not_elem_of_nil. }
  exists entries, ((λ link, encode_hash (get_tx_key q link)) <$> links).
  split; [done|]. split; [unfold to_txids; by rewrite <-list_fmap_compose|]. split; [done|].
  intros link Hlink Hfind. rewrite Forall_forall in Hhash, Hall.
  destruct (Hall link Hlink) as [entry Hentry]. exists entry.
  unfold handle_get_mempool_entry. rewrite decode_encode_hash by auto.
  unfold do_get_mempool_entry. rewrite Hfind, Hentry. split; [done|].
  by eapply mempool_entries_find; [..|exact Hentries|exact Hlink|exact Hentry]; [|apply Forall_forall].
Qed.

Definition example_links : list tx_link := pooled_links.
