(* ===== verification/ElectrumTransactions.v ===== *)
(** Electrum transaction methods
    (src/protocols/electrum/protocol_electrum_transactions.cpp).

    A submitted package is decided by the organizer of the node, whose code and
    index return to the channel's strand by a completion. *)
From stdpp Require Import list_numbers.
From S2P Require Import Prelude Rpc Errors System ElectrumVersion Merkle FeeHistogram ElectrumSubscribe ElectrumOutpoints Descriptor BitcoindParsers BlockStats Dispatch Archive TxOutProof BitcoindBlockchain.

(** ** The library *)

(** [chain::transaction], read from base16 text that it exhausts (with witnesses,
    and valid), and its hashes without and with witnesses. *)
Class TextTransactions := {
  text_tx : Type;
  read_tx_text : string → option text_tx;
  txid_of : text_tx → hash_digest;
  wtxid_of : text_tx → hash_digest;
}.

(** Codes of the node, and the message of a code of any category. *)
Class NodeErrors := {
  duplicate_transaction : code;
  code_message : code → string;
}.

(** [chain::block::merkle_branch]. *)
Class MerkleBranches := { merkle_branch : nat → list hash_digest → list hash_digest }.

Class ElectrumTxArchive `{TxArchive} := {
  to_tx : archive → hash_digest → tx_link;
  (** Empty if not found. *)
  get_wire_tx : archive → tx_link → data_chunk;
  (** A transaction and its json, if that is an object. *)
  get_tx_model : archive → tx_link → option (block_tx * option object);
  (** The confirmed block of a transaction. *)
  find_strong : archive → tx_link → header_link;
  get_timestamp : archive → header_link → option Z;
  get_position_tx : archive → header_link → Z → tx_link;
}.

(** ** Submission *)

Section Submission.
Context `{Text} `{TextTransactions} `{NodeErrors}.

(** What a handler does: it responds, or submits a package with a completion. *)
Inductive completion := complete_broadcast | complete_package | complete_test.

Inductive tx_reaction :=
  | tx_responds (w : list wire)
  | tx_submits (test : bool) (txs : list text_tx) (by_ : completion).

Definition tx_bad : tx_reaction := tx_responds [wire_code bad_request].

Definition maximum_test_txs : nat := 25.

Definition handle_blockchain_transaction_broadcast (stopped : bool) (v : version) (raw_tx : string) :
    tx_reaction :=
  if stopped then tx_responds []
  else if negb (at_least v v1_0) then tx_bad
  else
    match read_tx_text raw_tx with
    | None => tx_bad
    | Some tx => tx_submits false [tx] complete_broadcast
    end.

Definition read_tx_value (v : value_t) : option text_tx :=
  match v with
  | string_t text => read_tx_text text
  | _ => None
  end.

Definition handle_blockchain_transaction_broadcast_package (stopped : bool) (v : version)
    (raw_txs : value_t) (verbose : bool) : tx_reaction :=
  if stopped then tx_responds []
  else if negb (at_least v v1_6) then tx_bad
  else if verbose then tx_bad
  else
    match raw_txs with
    | array_t txs_hex =>
        if (length txs_hex =? 0)%nat then tx_bad
        else
          match mapM read_tx_value txs_hex with
          | None => tx_bad
          | Some txs => tx_submits false txs complete_package
          end
    | _ => tx_bad
    end.

Definition handle_blockchain_transaction_testmempoolaccept (stopped : bool) (v : version)
    (raw_txs : value_t) : tx_reaction :=
  if stopped then tx_responds []
  else if negb (at_least v v1_7) then tx_bad
  else
    match raw_txs with
    | array_t txs_hex =>
        if (length txs_hex =? 0)%nat || (maximum_test_txs <? length txs_hex)%nat then tx_bad
        else
          match mapM read_tx_value txs_hex with
          | None => tx_bad
          | Some txs => tx_submits true txs complete_test
          end
    | _ => tx_bad
    end.

(** A failure of the submission. *)
Definition submit_failed (ec : code) : bool :=
  is_error ec && negb (bool_decide (ec = duplicate_transaction)).

(** A package of one. *)
Definition complete_submit_tx (stopped : bool) (v : version) (ec : code) (tx : text_tx) : list wire :=
  if stopped then []
  else if negb (submit_failed ec) then [wire_result (string_t (encode_hash (txid_of tx)))]
  else if negb (at_least v v1_1) then [wire_result (string_t (code_message ec))]
  else [wire_code (ElectrumError.translate ec ElectrumError.daemon_error)].

(** [None] if the index is past the end of the package. *)
Definition complete_submit_package (stopped : bool) (ec : code) (index : nat) (txs : list text_tx) :
    option (list wire) :=
  if stopped then Some []
  else
    let failed := submit_failed ec in
    match (if failed then
             match txs !! index with
             | None => None
             | Some tx => Some [object_t
                 [("txid", string_t (encode_hash (txid_of tx))); ("error", string_t (code_message ec))]]
             end
           else Some []) with
    | None => None
    | Some errors =>
        Some [wire_result (object_t [("success", boolean_t (negb failed)); ("errors", array_t errors)])]
    end.

Definition complete_test_package (stopped : bool) (ec : code) (txs : list text_tx) : list wire :=
  if stopped then []
  else
    [wire_result (array_t ((λ tx,
      let value :=
        [("txid", string_t (encode_hash (txid_of tx))); ("wtxid", string_t (encode_hash (wtxid_of tx)));
         ("allowed", boolean_t (negb (is_error ec)))] in
      object_t (if is_error ec then try_emplace "reason" (string_t (code_message ec)) value else value))
      <$> txs))].

(** The completion that the organizer posts: its code, and the index of the
    transaction that caused it. *)
Definition run_completion (stopped : bool) (v : version) (ec : code) (index : nat)
    (by_ : completion) (txs : list text_tx) : option (list wire) :=
  match by_, txs with
  | complete_broadcast, [tx] => Some (complete_submit_tx stopped v ec tx)
  | complete_broadcast, _ => None
  | complete_package, _ => complete_submit_package stopped ec index txs
  | complete_test, _ => Some (complete_test_package stopped ec txs)
  end.

End Submission.

(** ** Queries *)

Section Queries.
Context `{Text} `{SizeMath} `{DescriptorScripts} `{ChainArchive} `{!TxArchive} `{!ElectrumTxArchive}
  `{!MerkleBranches}.
Context (p2kh p2sh : Z) (witness : string).

Definition bad_response : list wire := [wire_code bad_request].
Definition daemon_response : list wire := [wire_code (ElectrumError.make ElectrumError.daemon_error)].

(** The confirmed block of the transaction in the verbose json. *)
Definition inject_strong (q : archive) (link : tx_link) (out : object) : option object :=
  let block := find_strong q link in
  if is_terminal block then Some out
  else
    let block_hash := get_header_key q block in
    match get_height q block with
    | None => None
    | Some height =>
        if bool_decide (block_hash = null_hash) then None
        else
          match get_timestamp q block with
          | None => None
          | Some timestamp =>
              let confirms := floored_subtract (get_top_confirmed q) height + 1 in
              let out := set_field "in_active_chain" (boolean_t true) out in
              let out := set_field "blockhash" (string_t (encode_hash block_hash)) out in
              let out := set_field "confirmations" (uint64_t confirms) out in
              let out := set_field "blocktime" (uint32_t timestamp) out in
              Some (set_field "time" (uint32_t timestamp) out)
          end
    end.

(** [None] if the json of the system library has not the expected shape. *)
Definition handle_blockchain_transaction_get (q : archive) (stopped : bool) (v : version)
    (tx_hash : string) (verbose : bool) : option (list wire) :=
  if stopped then Some []
  else if negb (at_least v v1_0) || (negb (at_least v v1_2) && verbose) then Some bad_response
  else
    match decode_hash tx_hash with
    | None => Some bad_response
    | Some hash =>
        let link := to_tx q hash in
        if is_tx_terminal link then Some daemon_response
        else if negb verbose then
          let tx := get_wire_tx q link in
          if (length tx =? 0)%nat then Some daemon_response
          else Some [wire_result (string_t (encode_base16 tx))]
        else
          match get_tx_model q link with
          | None | Some (_, None) => Some daemon_response
          | Some (tx, Some out) =>
              out ← inject_tx_scripts p2kh p2sh witness tx out;
              Some
                match inject_strong q link out with
                | None => daemon_response
                | Some out => [wire_result (object_t out)]
                end
          end
    end.

Definition branch_value (proof : list hash_digest) : value_t :=
  array_t ((λ hash, string_t (encode_hash hash)) <$> proof).

(** [find_position]. *)
Definition find_position (hashes : list hash_digest) (hash : hash_digest) : option nat :=
  fst <$> list_find (λ h, h = hash) hashes.

Definition handle_blockchain_transaction_get_merkle (q : archive) (stopped : bool) (v : version)
    (tx_hash : string) (height : double) : list wire :=
  if stopped then []
  else if negb (at_least v v1_4) then bad_response
  else
    match to_size height, decode_hash tx_hash with
    | Some block_height, Some hash =>
        let block_link := to_confirmed q block_height in
        if is_terminal block_link then bad_response
        else
          let hashes := get_tx_keys q block_link in
          if (length hashes =? 0)%nat then daemon_response
          else
            match find_position hashes hash with
            | None => bad_response
            | Some index =>
                [wire_result (object_t
                  [("merkle", branch_value (merkle_branch index hashes));
                   ("block_height", uint64_t block_height);
                   ("pos", uint64_t (Z.of_nat index))])]
            end
    | _, _ => bad_response
    end.

Definition handle_blockchain_transaction_id_from_position (q : archive) (stopped : bool) (v : version)
    (height tx_pos : double) (merkle : bool) : list wire :=
  if stopped then []
  else if negb (at_least v v1_4) then bad_response
  else
    match to_size height, to_size tx_pos with
    | Some block_height, Some position =>
        let block_link := to_confirmed q block_height in
        let tx_link := get_position_tx q block_link position in
        if is_tx_terminal tx_link then bad_response
        else
          let hash := get_tx_key q tx_link in
          if bool_decide (hash = null_hash) then daemon_response
          else if negb merkle then [wire_result (string_t (encode_hash hash))]
          else
            let hashes := get_tx_keys q block_link in
            if (length hashes =? 0)%nat then daemon_response
            else if Z.of_nat (length hashes) <=? position then bad_response
            else
              [wire_result (object_t
                [("tx_hash", string_t (encode_hash hash));
                 ("merkle", branch_value (merkle_branch (Z.to_nat position) hashes))])]
    | _, _ => bad_response
    end.

End Queries.

(** ** Merkle proofs *)

Section Proofs.
Context `{MerkleMath}.

(** What a client computes of a proof: the root, from a leaf at a position. *)
Fixpoint climb (leaf : hash_digest) (pos : nat) (branch : list hash_digest) : hash_digest :=
  match branch with
  | [] => leaf
  | sibling :: branch =>
      climb (if Nat.even pos then node_hash leaf sibling else node_hash sibling leaf) (pos / 2) branch
  end.

(** The branch of a position, of a tree of some height: the sibling of its node in
    each level, or the node itself if it is the last and has none. *)
Fixpoint siblings (height pos : nat) (nodes : list hash_digest) : list hash_digest :=
  match height with
  | O => []
  | S height =>
      let sibling := if Nat.even pos then default (default [] (nodes !! pos)) (nodes !! S pos)
                     else default [] (nodes !! pred pos) in
      sibling :: siblings height (pos / 2) (pair_up nodes)
  end.

Lemma pair_up_parent nodes pos leaf :
  nodes !! pos = Some leaf →
  pair_up nodes !! (pos / 2)%nat =
    Some (if Nat.even pos
          then node_hash leaf (default (default [] (nodes !! pos)) (nodes !! S pos))
          else node_hash (default [] (nodes !! pred pos)) leaf).
Proof.
  intros Hleaf. rewrite pair_up_lookup.
  pose proof (Nat.div_mod_eq pos 2) as Hdiv. destruct (Nat.even pos) eqn:Heven.
  - apply Nat.even_spec in Heven as [k ->].
    replace (2 * k / 2)%nat with k by (apply (Nat.div_unique _ 2 k 0); lia).
    replace (k * 2)%nat with (2 * k)%nat by lia. rewrite Hleaf. by rewrite Nat.add_1_r.
  - assert (Nat.odd pos = true) as Hodd by (by rewrite <-Nat.negb_even, Heven).
    apply Nat.odd_spec in Hodd as [k ->].
    replace ((2 * k + 1) / 2)%nat with k by (apply (Nat.div_unique _ 2 k 1); lia).
    replace (pred (2 * k + 1)) with (k * 2)%nat by lia.
    replace (k * 2 + 1)%nat with (2 * k + 1)%nat by lia. rewrite Hleaf. cbn [default].
    destruct (nodes !! (k * 2)%nat) as [l|] eqn:Hl; [done|].
    apply lookup_ge_None in Hl. apply lookup_lt_Some in Hleaf. lia.
Qed.

Lemma climb_siblings height pos nodes leaf :
  nodes !! pos = Some leaf →
  level height nodes !! (pos / 2 ^ height)%nat = Some (climb leaf pos (siblings height pos nodes)).
Proof.
  revert pos nodes leaf. induction height as [|height IH]; intros pos nodes leaf Hleaf.
  - by rewrite Nat.pow_0_r, Nat.div_1_r.
  - unfold level. rewrite Nat.iter_succ_r. rewrite Nat.pow_succ_r', <-Nat.Div0.div_div.
    cbn [siblings climb]. apply IH.
    rewrite (pair_up_parent nodes pos leaf Hleaf). by destruct (Nat.even pos).
Qed.
End Proofs.

Class MerkleBranchesLaws `{MerkleMath} `{MerkleBranches} : Prop := {
  (** A branch leads from its leaf to the root of the tree. *)
  merkle_branch_root keys pos leaf height root :
    keys !! pos = Some leaf → tree_height (length keys) = Some height → level height keys = [root] →
    climb leaf pos (merkle_branch pos keys) = root;
}.

(** The links of a block are those of its keys. *)
Class ElectrumTxArchiveLaws `{ElectrumTxArchive} : Prop := {
  position_tx q link position : is_associated q link = true →
    0 <= position < Z.of_nat (length (get_tx_keys q link)) →
    is_tx_terminal (get_position_tx q link position) = false ∧
    get_tx_keys q link !! Z.to_nat position = Some (get_tx_key q (get_position_tx q link position));
}.

Lemma find_position_unique hashes hash position :
  NoDup hashes → hashes !! position = Some hash → find_position hashes hash = Some position.
Proof.
  intros Hunique Hposition. unfold find_position.
  destruct (list_find (λ h, h = hash) hashes) as [[i h]|] eqn:Hfind.
  - apply list_find_Some in Hfind as (Hi & -> & _). simpl. f_equal. by eapply NoDup_lookup.
  - apply list_find_None in Hfind. rewrite Forall_forall in Hfind.
    destruct (Hfind hash); [|done]. by eapply list_elem_of_lookup_2.
Qed.

(** ** Example *)

#[local] Existing Instance TxOutProof.example_chain.
#[local] Existing Instance TxOutProof.example_chain_laws.

#[local] Instance example_branches : MerkleBranches := {
  merkle_branch pos keys := siblings (default 0%nat (tree_height (length keys))) pos keys;
}.

#[local] Instance example_branches_laws : MerkleBranchesLaws.
Proof.
  split. intros keys pos leaf height root Hleaf Hheight Hroot. simpl. rewrite Hheight. simpl.
  pose proof (climb_siblings height pos keys leaf Hleaf) as Hclimb. rewrite Hroot in Hclimb.
  destruct (pos / 2 ^ height)%nat as [|n]; [by injection Hclimb|by rewrite lookup_nil in Hclimb || discriminate Hclimb].
Qed.

#[local] Existing Instance reference_text.
#[local] Existing Instance reference_sizes.
#[local] Existing Instance Descriptor.example_script.
#[local] Existing Instance Descriptor.example_keys.
#[local] Existing Instance Descriptor.example_descriptors.

#[local] Instance example_txs : TxArchive := {
  tx_link := Z;
  is_tx_terminal link := link <? 0;
  output_link := Z;
  is_output_terminal link := link <? 0;
  to_output _ _ _ := -1;
  to_output_tx _ link := link;
  get_output _ _ := None;
  is_confirmed_spent _ _ := false;
  is_confirmable_spent _ _ := false;
  get_tx_height _ link := Some 0;
  is_pooled _ _ := false;
  is_confirmable_tx _ _ := false;
  is_coinbase_tx _ link := link =? 0;
  get_tx_key _ link := default null_hash (TxOutProof.example_keys !! Z.to_nat link);
  satoshi_per_bitcoin := 100000000;
}.

#[local] Instance example_electrum : ElectrumTxArchive := {
  to_tx _ _ := -1;
  get_wire_tx _ _ := [];
  get_tx_model _ _ := None;
  find_strong _ _ := true;
  get_timestamp _ _ := None;
  get_position_tx _ block position := if (block : bool) && (position <? 3) then position else -1;
}.

#[local] Instance example_electrum_laws : ElectrumTxArchiveLaws.
Proof.
  split. intros q [] position; [|done]. cbn. intros _ [Hlow Hhigh].
  rewrite (proj2 (Z.ltb_lt position 3)) by lia. split; [by apply Z.ltb_ge|].
  assert (position = 0 ∨ position = 1 ∨ position = 2) as [->|[->| ->]] by lia; reflexivity.
Qed.

#[local] Instance example_texts : TextTransactions := {
  text_tx := Z;
  read_tx_text text := if text == "" then None else Some (Z.of_nat (String.length text));
  txid_of tx := replicate 32 tx;
  wtxid_of tx := replicate 32 tx;
}.

#[local] Instance example_node_errors : NodeErrors := {
  duplicate_transaction := Code network_category 5;
  code_message _ := "failed";
}.

(** ** Properties *)

(** The requests that submit, and the texts that they hold. *)
Inductive tx_request :=
  | request_broadcast (raw_tx : string)
  | request_package (raw_txs : value_t) (verbose : bool)
  | request_test (raw_txs : value_t).

Definition handle_submission `{TextTransactions} (v : version) (r : tx_request) : tx_reaction :=
  match r with
  | request_broadcast raw_tx => handle_blockchain_transaction_broadcast false v raw_tx
  | request_package raw_txs verbose =>
      handle_blockchain_transaction_broadcast_package false v raw_txs verbose
  | request_test raw_txs => handle_blockchain_transaction_testmempoolaccept false v raw_txs
  end.

Definition request_texts (r : tx_request) : array :=
  match r with
  | request_broadcast raw_tx => [string_t raw_tx]
  | request_package (array_t txs) _ | request_test (array_t txs) => txs
  | _ => []
  end.

(** What the answer to a submission says. *)
Definition answers `{Text} `{TextTransactions} `{NodeErrors} (v : version) (ec : code) (index : nat)
    (by_ : completion) (txs : list text_tx) (w : wire) : Prop :=
  match by_ with
  | complete_broadcast =>
      ∃ tx, txs = [tx] ∧
      w = if negb (submit_failed ec) then wire_result (string_t (encode_hash (txid_of tx)))
          else if at_least v v1_1 then wire_code (ElectrumError.translate ec ElectrumError.daemon_error)
          else wire_result (string_t (code_message ec))
  | complete_package =>
      ∃ o, w = wire_result (object_t o) ∧
      find_field "success" o = Some (boolean_t (negb (submit_failed ec))) ∧
      find_field "errors" o = Some (array_t
        (if submit_failed ec
         then (λ tx, object_t [("txid", string_t (encode_hash (txid_of tx)));
                               ("error", string_t (code_message ec))]) <$> option_list (txs !! index)
         else []))
  | complete_test =>
      ∃ items, w = wire_result (array_t items) ∧
      Forall2 (λ tx item, ∃ o, item = object_t o ∧
        find_field "txid" o = Some (string_t (encode_hash (txid_of tx))) ∧
        find_field "allowed" o = Some (boolean_t (negb (is_error ec))) ∧
        (has_field "reason" o = is_error ec)) txs items
  end.

Lemma mapM_read `{TextTransactions} texts txs :
  mapM read_tx_value texts = Some txs → Forall2 (λ text tx, read_tx_value text = Some tx) texts txs.
Proof. by intros ?%mapM_Some. Qed.

Lemma submission_inv `{TextTransactions} v r test txs by_ :
  handle_submission v r = tx_submits test txs by_ →
  Forall2 (λ text tx, read_tx_value text = Some tx) (request_texts r) txs ∧ txs ≠ [] ∧
  (test = true ↔ by_ = complete_test) ∧ (by_ = complete_test → (length txs <= 25)%nat) ∧
  (by_ = complete_broadcast → length txs = 1%nat).
Proof.
  destruct r as [raw_tx|raw_txs verbose|raw_txs]; simpl.
  - unfold handle_blockchain_transaction_broadcast, tx_bad. destruct (negb _); [done|].
    destruct (read_tx_text raw_tx) as [tx|] eqn:Hread; [|done]. intros [= <- <- <-].
    split_and!; try done. by repeat constructor.
  - unfold handle_blockchain_transaction_broadcast_package, tx_bad. destruct (negb _), verbose; try done.
    destruct raw_txs as [| | | | | | | | | |texts|]; try done.
    destruct (Nat.eqb_spec (length texts) 0); [done|].
    destruct (mapM read_tx_value texts) as [txs'|] eqn:Hread; [|done]. intros [= <- <- <-].
    apply mapM_read in Hread as Hall. split; [done|]. apply Forall2_length in Hall.
    split_and!; try done. by intros ->.
  - unfold handle_blockchain_transaction_testmempoolaccept, tx_bad. destruct (negb _); [done|].
    destruct raw_txs as [| | | | | | | | | |texts|]; try done.
    destruct (Nat.eqb_spec (length texts) 0); [done|].
    destruct (Nat.ltb_spec maximum_test_txs (length texts)); [done|].
    destruct (mapM read_tx_value texts) as [txs'|] eqn:Hread; [|done]. intros [= <- <- <-].
    apply mapM_read in Hread as Hall. split; [done|]. apply Forall2_length in Hall.
    unfold maximum_test_txs in *. split_and!; try done; [by intros ->|intros _; lia].
Qed.

(** A package is submitted with the transactions that the client gave, in order,
    and is answered once. A broadcast is answered by the hash of its transaction, and a
    package by success, exactly if the organizer accepts it or has it already;
    otherwise the error of a package is that of the one transaction that the organizer
    names. A test (and nothing else) is submitted as one, of at most 25 transactions,
    and each is answered for. *)
Lemma submissions_answered `{Text} `{TextTransactions} `{NodeErrors} v r ec index test txs by_ :
  handle_submission v r = tx_submits test txs by_ → (index < length txs)%nat →
  Forall2 (λ text tx, read_tx_value text = Some tx) (request_texts r) txs ∧
  (test = true ↔ by_ = complete_test) ∧ (by_ = complete_test → (length txs <= 25)%nat) ∧
  ∃ w, run_completion false v ec index by_ txs = Some [w] ∧ answers v ec index by_ txs w.
Proof.
  intros Hsubmit Hindex.
  destruct (submission_inv v r test txs by_ Hsubmit) as (Htexts & Hne & Htest & Hmaximum & Hone).
  split_and!; [done..|]. destruct by_; simpl.
  - destruct txs as [|tx [|? ?]]; try done; [|by specialize (Hone eq_refl)].
    unfold complete_submit_tx, answers.
    destruct (submit_failed ec), (at_least v v1_1); (eexists; split; [reflexivity|by exists tx]).
  - unfold complete_submit_package. destruct (submit_failed ec).
    + destruct (lookup_lt_is_Some_2 txs index Hindex) as [tx Htx]. rewrite Htx. eexists. by split; [|eexists].
    + eexists. by split; [|eexists].
  - eexists. split; [reflexivity|]. eexists. split; [reflexivity|].
    apply Forall2_fmap_r, Forall_Forall2_diag, Forall_forall. intros tx _.
    destruct (is_error ec); eexists; by split_and!.
Qed.

Definition example_failure : code := Code network_category 6.

Definition example_package : list text_tx := ([1; 2] : list Z).

Lemma submissions_answered_witness :
  ∃ w, run_completion false v1_7 example_failure 1 complete_package example_package = Some [w] ∧
    answers v1_7 example_failure 1 complete_package example_package w.
Proof.
  destruct (submissions_answered v1_7 (request_package (array_t [string_t "a"; string_t "ab"]) false)
    example_failure 1 false example_package complete_package ltac:(vm_compute; reflexivity) ltac:(simpl; lia))
    as (_ & _ & _ & w & Hrun & Hanswers).
  exists w. split; [exact Hrun|exact Hanswers].
Defined.

(** C26: the proof of a transaction of a confirmed block leads a client from its hash
    and position to the merkle root of the block's header; the same proof is served by
    position, with the hash of the transaction there. *)
Theorem transaction_proofs_correct `{TextLaws} `{SizeMath} `{DescriptorScripts} `{ChainArchive}
    `{!TxArchive} `{!ElectrumTxArchive} `{!ElectrumTxArchiveLaws} `{MerkleMath} `{!ChainArchiveLaws commits}
    `{MerkleBranches} `{!MerkleBranchesLaws} q v height tx_pos merkle block_height position :
  at_least v v1_4 = true → to_size height = Some block_height → to_size tx_pos = Some position →
  let block := to_confirmed q block_height in
  let keys := get_tx_keys q block in
  is_terminal block = false → is_associated q block = true →
  NoDup keys → Forall (λ key, is_hash key ∧ key ≠ null_hash) keys → 0 <= position < Z.of_nat (length keys) →
  ∃ header hash branch, get_header q block = Some header ∧ keys !! Z.to_nat position = Some hash ∧
    climb hash (Z.to_nat position) branch = header_merkle_root header ∧
    handle_blockchain_transaction_get_merkle q false v (encode_hash hash) height =
      [wire_result (object_t [("merkle", branch_value branch); ("block_height", uint64_t block_height);
                              ("pos", uint64_t position)])] ∧
    handle_blockchain_transaction_id_from_position q false v height tx_pos merkle =
      [wire_result (if merkle
        then object_t [("tx_hash", string_t (encode_hash hash)); ("merkle", branch_value branch)]
        else string_t (encode_hash hash))].
Proof.
  intros Hversion Hheight Hpos block keys Hblock Hassociated Hunique Hkeys Hrange.
  destruct (associated_header q block Hassociated) as [header Hheader].
  destruct (associated_commits q block header Hassociated Hheader) as (levels & Hlevels & Hroot).
  destruct (position_tx q block position Hassociated Hrange) as [Hlink Hkey]. fold keys in Hkey.
  set (hash := get_tx_key q (get_position_tx q block position)) in *.
  destruct (Forall_lookup_1 _ _ _ _ Hkeys Hkey) as [Hhash Hnull].
  exists header, hash, (merkle_branch (Z.to_nat position) keys).
  split_and!; [done|done|by eapply (merkle_branch_root keys _ hash levels)|..].
  - unfold handle_blockchain_transaction_get_merkle.
    rewrite Hversion, Hheight, decode_encode_hash by done. cbn [negb]. fold block. rewrite Hblock. fold keys.
    destruct (Nat.eqb_spec (length keys) 0); [lia|].
    by rewrite (find_position_unique keys hash (Z.to_nat position) Hunique Hkey), Z2Nat.id by lia.
  - unfold handle_blockchain_transaction_id_from_position. rewrite Hversion, Hheight, Hpos.
    cbn [negb]. fold block keys. rewrite Hlink. fold hash. rewrite bool_decide_false by done.
    destruct merkle; [|done]. cbn [negb]. destruct (Nat.eqb_spec (length keys) 0); [lia|].
    by destruct (Z.leb_spec (Z.of_nat (length keys)) position); [lia|].
Qed.

Lemma transaction_proofs_correct_witness :
  ∃ branch, climb (replicate 32 2) 1 branch = TxOutProof.example_header ∧
    handle_blockchain_transaction_get_merkle TxOutProof.example_archive false v1_7
      (encode_hash (replicate 32 2)) PrimFloat.zero =
      [wire_result (object_t [("merkle", branch_value branch); ("block_height", uint64_t 0);
                              ("pos", uint64_t 1)])].
Proof.
  assert (NoDup TxOutProof.example_keys) as Hunique by (apply (bool_decide_unpack _); vm_compute; exact I).
  assert (Forall (λ key, is_hash key ∧ key ≠ null_hash) TxOutProof.example_keys) as Hkeys
    by (apply (bool_decide_unpack _); vm_compute; exact I).
  assert (to_size PrimFloat.zero = Some 0) as Hzero by (vm_compute; reflexivity).
  assert (to_size PrimFloat.one = Some 1) as Hone by (vm_compute; reflexivity).
  assert (is_terminal (to_confirmed TxOutProof.example_archive 0) = false) as Hblock by reflexivity.
  assert (is_associated TxOutProof.example_archive (to_confirmed TxOutProof.example_archive 0) = true)
    as Hassociated by reflexivity.
  destruct (transaction_proofs_correct TxOutProof.example_archive v1_7 PrimFloat.zero PrimFloat.one true 0 1
    eq_refl Hzero Hone Hblock Hassociated Hunique Hkeys ltac:(simpl; lia))
    as (header & hash & branch & Hheader & Hhash & Hclimb & Hmerkle & _).
  injection Hheader as <-. injection Hhash as <-. exists branch. split; [exact Hclimb|exact Hmerkle].
Defined.
