(* ===== verification/ElectrumServer.v ===== *)
(** Electrum fee and server methods (src/protocols/electrum/protocol_electrum_fees.cpp
    and protocol_electrum_server.cpp), with the ping timer. *)
From Stdlib Require OrdersEx.
From stdpp Require Import sorting.
From S2P Require Import Prelude Rpc Errors System ElectrumVersion FeeHistogram ElectrumSubscribe Dispatch Archive.

(** ** Fees *)

(** [node::estimator::mode]. *)
Inductive mode_t := mode_basic | mode_geometric | mode_economical | mode_conservative | mode_unknown.

Definition mode_from_string (mode : string) : mode_t :=
  if mode == "" then mode_basic
  else if mode == "basic" then mode_basic
  else if mode == "geometric" then mode_geometric
  else if mode == "economical" then mode_economical
  else if mode == "conservative" then mode_conservative
  else mode_unknown.

(** Codes of the estimator. *)
Class EstimateErrors := {
  estimate_false : code;
  estimate_disabled : code;
  estimate_premature : code;
}.

Section Fees.
Context `{SizeMath} `{EstimateErrors}.

(** A response, or an estimate that starts, of a target and a mode. *)
Definition handle_blockchain_estimate_fee (stopped : bool) (v : version) (number : double)
    (mode : string) : list wire * option (Z * mode_t) :=
  let bad := ([wire_code bad_request], None) in
  if stopped then ([], None)
  else if negb (at_least v v1_0) then bad
  else
    match to_size number with
    | None => bad
    | Some target =>
        if (mode != "") && negb (at_least v v1_6) then bad
        else
          match mode_from_string mode with
          | mode_unknown => bad
          | mode_ => ([], Some (target, mode_))
          end
    end.

Definition no_fee_estimate : Z := -1.
Definition sats_per_vbyte_to_btc_per_vkbyte : double := to_floating 100000.

Definition complete_estimate_fee (stopped : bool) (ec : code) (fee : Z) : list wire :=
  if stopped then []
  else
    let disabled :=
      bool_decide (ec = estimate_false) || bool_decide (ec = estimate_disabled) ||
      bool_decide (ec = estimate_premature) in
    if negb disabled && is_error ec
    then [wire_code (ElectrumError.make ElectrumError.daemon_error)]
    else if disabled then [wire_result (int64_t no_fee_estimate)]
    else [wire_result (number_t (PrimFloat.div (to_floating fee) sats_per_vbyte_to_btc_per_vkbyte))].

(** The rate is the setting of the node. *)
Definition handle_blockchain_relay_fee (minimum_fee_rate : double) (stopped : bool) (v : version) :
    list wire :=
  if stopped then []
  else if negb (at_least v v1_0) || at_least v v1_6 then [wire_code bad_request]
  else [wire_result (number_t minimum_fee_rate)].

End Fees.

(** ** Hosts *)

(** [map[key]] of a [std::map] of strings, in the order of its keys: the value of the
    key, or a default that is inserted, is updated. *)
Fixpoint update_at {A} (default_ : A) (key : string) (f : A → A) (m : list (string * A)) :
    list (string * A) :=
  match m with
  | [] => [(key, f default_)]
  | (k, v) :: m =>
      match String.compare key k with
      | Eq => (k, f v) :: m
      | Lt => (key, f default_) :: (k, v) :: m
      | Gt => (k, v) :: update_at default_ key f m
      end
  end.

(** [config::endpoint]: a host and a port. *)
Abbreviation endpoint := (string * Z)%type.

Record electrum_options := ElectrumOptions {
  banner_message : string;
  donation_address : string;
  server_name : string;
  protocol_minimum_text : string;
  protocol_maximum_text : string;
  ping_interval_seconds : Z;
  ping_size : nat;
  self_binds : list endpoint;
  self_safes : list endpoint;
  more_binds : list endpoint;
  more_safes : list endpoint;
}.

(** One of each type for a host, the last writer wins. *)
Definition self_hosts (o : electrum_options) : object :=
  let write := λ name m '(host, port),
    if host == "" then m else update_at [] host (set_field name (uint16_t port)) m in
  let m := foldl (write "tcp_port") [] (self_binds o) in
  let m := foldl (write "ssl_port") m (self_safes o) in
  let hosts := foldl (λ hosts '(host, ports), set_field host (object_t ports) hosts) [] m in
  if (length hosts =? 0)%nat
  then [("", object_t [("tcp_port", null_t); ("ssl_port", null_t)])]
  else hosts.

Record port := Port { tcp : option Z; ssl : option Z }.

#[global] Instance port_eq_dec : EqDecision port.
Proof. solve_decision. Defined.

Definition set_tcp (number : Z) (p : port) : port := Port (Some number) (ssl p).
Definition set_ssl (number : Z) (p : port) : port := Port (tcp p) (Some number).

Definition defaulted (number : Z) : string := if number =? 0 then "" else to_decimal number.

Definition write_ports (set : Z → port → port) (m : list (string * port)) (endpoints : list endpoint) :
    list (string * port) :=
  foldl (λ m '(host, number), update_at (Port None None) host (set number) m) m endpoints.

Definition host_features (p : port) : array :=
  (((λ number, string_t ("t" +:+ defaulted number)) <$> option_list (tcp p)) ++
   ((λ number, string_t ("s" +:+ defaulted number)) <$> option_list (ssl p)))%list.

Definition more_ports (o : electrum_options) : list (string * port) :=
  write_ports set_ssl (write_ports set_tcp [] (more_binds o)) (more_safes o).

Definition host_entry (entry : string * port) : option value_t :=
  let '(host, ports) := entry in
  let features := host_features ports in
  if (length features =? 0)%nat then None
  else Some (array_t [string_t host; string_t host; array_t features]).

Definition more_hosts (o : electrum_options) : array := omap host_entry (more_ports o).

(** [network::error::operation_canceled]. *)
Class TimerErrors := { operation_canceled : code }.

(** ** Server methods *)

Section Server.
Context `{Text} `{SizeMath} `{ChainArchive}.
Context (o : electrum_options).

Definition version_checked (stopped : bool) (v level : version) (response : wire) : list wire :=
  if stopped then [] else if negb (at_least v level) then [wire_code bad_request] else [response].

Definition handle_server_add_peer (stopped : bool) (v : version) : list wire :=
  version_checked stopped v v1_1 (wire_code method_not_found).

Definition handle_server_banner (stopped : bool) (v : version) : list wire :=
  version_checked stopped v v1_0 (wire_result (string_t (banner_message o))).

Definition handle_server_donation_address (stopped : bool) (v : version) : list wire :=
  version_checked stopped v v1_0 (wire_result (string_t (donation_address o))).

Definition handle_server_peers_subscribe (stopped : bool) (v : version) : list wire :=
  version_checked stopped v v1_0 (wire_result (array_t (more_hosts o))).

(** The decoration of a derived service is the argument [add_features]. *)
Definition handle_server_features (add_features : object → object) (q : archive) (stopped : bool)
    (v : version) : list wire :=
  let daemon := [wire_code (ElectrumError.make ElectrumError.daemon_error)] in
  if stopped then []
  else if negb (at_least v v1_0) then [wire_code bad_request]
  else
    let genesis := to_confirmed q 0 in
    if is_terminal genesis then daemon
    else
      let hash := get_header_key q genesis in
      if bool_decide (hash = null_hash) then daemon
      else
        let value :=
          [("genesis_hash", string_t (encode_hash hash)); ("hosts", object_t (self_hosts o));
           ("server_version", string_t (server_name o));
           ("protocol_min", string_t (protocol_minimum_text o));
           ("protocol_max", string_t (protocol_maximum_text o)); ("pruning", null_t)] in
        let value :=
          if at_least v v1_7
          then set_field "method_flavours"
            (object_t [("blockchain.transaction.broadcast_package",
              object_t [("supports_verbose_true", boolean_t false)])]) value
          else set_field "hash_function" (string_t "sha256") value in
        [wire_result (object_t (add_features value))].

(** Base is not a derived service. *)
Definition add_features (value : object) : object := value.

(** ** Ping *)

Definition maximum_pong : Z := 1024.

(** [string_t(length, '0')]. *)
Definition zeros (length : nat) : string := String.concat "" (replicate length "0").

(** [is_base16] of each character of the data is a parameter. *)
Definition handle_server_ping (all_base16 : string → bool) (stopped : bool) (v : version)
    (pong_len : double) (data : string) : list wire :=
  if stopped then []
  else if negb (at_least v v1_2) then [wire_code bad_request]
  else if negb (at_least v v1_7) then [wire_result null_t]
  else
    match all_base16 data, to_size pong_len with
    | true, Some length =>
        [wire_result (object_t [("data", string_t (zeros (Z.to_nat (Z.min length maximum_pong))))])]
    | _, _ => [wire_code bad_request]
    end.

(** Whether the ping timer starts. *)
Definition start_ping (stopped duplex : bool) (v : version) : bool :=
  negb (stopped || (ping_interval_seconds o =? 0) || negb (at_least v v1_7) || negb duplex).

Definition canceled_ping `{TimerErrors} (ec : code) : bool := bool_decide (ec = operation_canceled).

(** The handler of the timer: what it writes, whether the timer starts again, and
    whether the channel is stopped. *)
Definition handle_ping `{TimerErrors} (stopped : bool) (ec : code) (duplex : bool) (v : version) :
    list wire * bool * bool :=
  if stopped || canceled_ping ec then ([], false, false)
  else if is_error ec then ([], false, true)
  else
    ([wire_notification "server.ping" (params_array [string_t (zeros (ping_size o))])],
     start_ping stopped duplex v, false).

End Server.

(** ** Lemmas of ordered maps *)

Definition before (a b : string) : Prop := String.compare a b = Lt.

Lemma compare_string a b : String.compare a b = OrdersEx.String_as_OT.compare a b.
Proof. by revert b; induction a. Qed.

Lemma before_trans a b c : before a b → before b c → before a c.
Proof.
  unfold before. rewrite !compare_string.
  destruct OrdersEx.String_as_OT.lt_strorder as [_ Htrans]. apply Htrans.
Qed.

Lemma before_irreflexive a : ¬ before a a.
Proof.
  unfold before. rewrite compare_string.
  destruct OrdersEx.String_as_OT.lt_strorder as [Hirreflexive _]. apply Hirreflexive.
Qed.

Section Ordered.
Context {A : Type}.
Implicit Types (m : list (string * A)).

(** The keys ascend. *)
Definition ascends m : Prop := StronglySorted before m.*1.

(** The value of a key. *)
Fixpoint value_at m (key : string) : option A :=
  match m with
  | [] => None
  | (k, v) :: m => if k == key then Some v else value_at m key
  end.

Lemma value_at_before m key : Forall (before key) m.*1 → value_at m key = None.
Proof.
  induction m as [|[k v] m IH]; [done|]. simpl. intros [Hk Hm]%Forall_cons.
  rewrite eqb_neq_false; [by apply IH|]. intros ->. by apply (before_irreflexive key).
Qed.

Lemma update_at_keys default_ key f m k :
  k ∈ (update_at default_ key f m).*1 ↔ k = key ∨ k ∈ m.*1.
Proof.
  induction m as [|[k' v] m IH]; simpl; [set_solver|].
  destruct (String.compare key k') eqn:Hcompare; simpl; [|set_solver..].
  apply String.compare_eq_iff in Hcompare as ->. set_solver.
Qed.

Lemma update_at_ascends default_ key f m : ascends m → ascends (update_at default_ key f m).
Proof.
  unfold ascends. induction m as [|[k v] m IH]; simpl; intros Hm; [repeat constructor|].
  apply StronglySorted_inv in Hm as [Hm Hk]. destruct (String.compare key k) eqn:Hcompare; simpl.
  - by constructor.
  - constructor; [by constructor|]. constructor; [done|].
    eapply Forall_impl; [exact Hk|]. intros x. by apply before_trans.
  - constructor; [by apply IH|]. apply Forall_forall. intros x. rewrite update_at_keys.
    intros [->|Hx]; [|by eapply Forall_forall in Hk].
    unfold before. by rewrite String.compare_antisym, Hcompare.
Qed.

Lemma value_at_update default_ key f m k : ascends m →
  value_at (update_at default_ key f m) k =
    if key == k then Some (f (default default_ (value_at m key))) else value_at m k.
Proof.
  unfold ascends. induction m as [|[k' v] m IH]; simpl; intros Hm; [done|].
  apply StronglySorted_inv in Hm as [Hm Hk]. destruct (String.compare key k') eqn:Hcompare; simpl.
  - apply String.compare_eq_iff in Hcompare as ->. rewrite String.eqb_refl.
    by destruct (k' == k).
  - assert (value_at m key = None) as Hnone.
    { apply value_at_before. eapply Forall_impl; [exact Hk|]. intros x. by apply before_trans. }
    rewrite (eqb_neq_false k' key), Hnone; [done|].
    intros ->. by apply (before_irreflexive key).
  - rewrite IH by done. destruct (String.eqb_spec k' key) as [->|Hne].
    + exfalso. apply (before_irreflexive key). unfold before. by rewrite String.compare_antisym, Hcompare.
    + destruct (String.eqb_spec k' k) as [->|]; [|done]. by rewrite eqb_neq_false.
Qed.

Lemma value_at_elem m key v : ascends m → value_at m key = Some v ↔ (key, v) ∈ m.
Proof.
  unfold ascends. induction m as [|[k w] m IH]; simpl; intros Hm; [set_solver|].
  apply StronglySorted_inv in Hm as [Hm Hk]. rewrite elem_of_cons. destruct (String.eqb_spec k key) as [->|Hne].
  - split; [intros [= ->]; by left|]. intros [[= ->]|Hv]; [done|]. exfalso.
    apply (before_irreflexive key). rewrite Forall_forall in Hk. apply Hk.
    apply list_elem_of_fmap. by exists (key, v).
  - rewrite IH by done. split; [by right|]. by intros [[= ->]|].
Qed.
End Ordered.

(** The port that is written last for a host. *)
Definition last_port (endpoints : list endpoint) (host : string) : option Z :=
  last (snd <$> filter (λ e, e.1 = host) endpoints).

Lemma write_ports_spec set m endpoints host :
  (∀ a b p, set b (set a p) = set b p) → ascends m →
  ascends (write_ports set m endpoints) ∧
  value_at (write_ports set m endpoints) host =
    match last_port endpoints host with
    | Some number => Some (set number (default (Port None None) (value_at m host)))
    | None => value_at m host
    end.
Proof.
  intros Hset Hm. induction endpoints as [|[h number] endpoints [IHm IH]] using rev_ind; [done|].
  unfold write_ports in *. rewrite foldl_app. simpl. split; [by apply update_at_ascends|].
  rewrite value_at_update by done. unfold last_port in *.
  rewrite filter_app, fmap_app, filter_cons, filter_nil. simpl.
  destruct (String.eqb_spec h host) as [->|Hne].
  - rewrite decide_True by done. simpl. rewrite last_snoc, IH.
    destruct (last _); simpl; by rewrite ?Hset.
  - rewrite decide_False by done. simpl. by rewrite app_nil_r, IH.
Qed.

Lemma more_ports_spec o :
  ascends (more_ports o) ∧
  ∀ host, value_at (more_ports o) host =
    let ports := Port (last_port (more_binds o) host) (last_port (more_safes o) host) in
    if bool_decide (ports = Port None None) then None else Some ports.
Proof.
  unfold more_ports.
  assert (∀ host, ascends (write_ports set_tcp [] (more_binds o)) ∧ _) as Htcp
    by (intros host; apply (write_ports_spec set_tcp [] (more_binds o) host); [done|constructor]).
  assert (∀ host, ascends (write_ports set_ssl (write_ports set_tcp [] (more_binds o)) (more_safes o)) ∧ _) as Hssl
    by (intros host; apply (write_ports_spec set_ssl _ (more_safes o) host); [done|apply (Htcp "")]).
  split; [apply (Hssl "")|]. intros host. destruct (Hssl host) as [_ ->]. destruct (Htcp host) as [_ ->].
  by destruct (last_port (more_safes o) host), (last_port (more_binds o) host).
Qed.

Lemma last_port_none endpoints host : last_port endpoints host = None ↔ host ∉ endpoints.*1.
Proof.
  unfold last_port. rewrite last_None, list_elem_of_fmap. split.
  - intros Hnil (e & -> & He). apply fmap_nil_inv in Hnil.
    apply (not_elem_of_nil e). rewrite <-Hnil. by apply list_elem_of_filter.
  - intros Hnone. destruct (filter _ endpoints) as [|e rest] eqn:Hfilter; [done|]. exfalso.
    assert (e ∈ filter (λ e, e.1 = host) endpoints) as He by (rewrite Hfilter; left).
    apply list_elem_of_filter in He as [<- He]. apply Hnone. by exists e.
Qed.

(** Every host has a feature, so that none is dropped. *)
Lemma host_entries (ports : list (string * port)) :
  Forall (λ entry, entry.2 ≠ Port None None) ports →
  omap host_entry ports =
    (λ '(host, p), array_t [string_t host; string_t host; array_t (host_features p)]) <$> ports.
Proof.
  induction 1 as [|[host [[t|] [s|]]] ports Hp _ IH]; [done|..];
    cbn [omap list_omap host_entry]; rewrite ?IH; done.
Qed.

(** ** Properties *)

(** The peers that are advertised are the configured ones: each host of either kind
    of endpoint has one entry, in the order of the names, and its ports are the last
    that are configured for it, of each kind. *)
Lemma more_hosts_correct (o : electrum_options) :
  more_hosts o =
    (λ '(host, p), array_t [string_t host; string_t host; array_t (host_features p)]) <$> more_ports o ∧
  StronglySorted before (more_ports o).*1 ∧
  ∀ host p, (host, p) ∈ more_ports o ↔
    (host ∈ (more_binds o).*1 ∨ host ∈ (more_safes o).*1) ∧
    p = Port (last_port (more_binds o) host) (last_port (more_safes o) host).
Proof.
  destruct (more_ports_spec o) as [Hsorted Hvalue].
  assert (∀ host p, (host, p) ∈ more_ports o ↔
    (host ∈ (more_binds o).*1 ∨ host ∈ (more_safes o).*1) ∧
    p = Port (last_port (more_binds o) host) (last_port (more_safes o) host)) as Hports.
  { intros host p. rewrite <-value_at_elem, Hvalue by done. simpl.
    pose proof (last_port_none (more_binds o) host) as Hbinds.
    pose proof (last_port_none (more_safes o) host) as Hsafes.
    case_bool_decide as Hports; split.
    - done.
    - intros [Hhost _]. injection Hports as Hb Hs. tauto.
    - intros [= <-]. split; [|done].
      destruct (decide (host ∈ (more_binds o).*1)) as [|Hb]; [by left|].
      destruct (decide (host ∈ (more_safes o).*1)) as [|Hs]; [by right|].
      destruct Hports. by rewrite (proj2 Hbinds Hb), (proj2 Hsafes Hs).
    - by intros [_ ->]. }
  split_and!; [|done|done]. apply host_entries, Forall_forall. intros [host p] Hp. simpl.
  apply value_at_elem in Hp; [|done]. rewrite Hvalue in Hp. simpl in Hp.
  case_bool_decide; [done|]. injection Hp as <-. done.
Qed.
