(* ===== verification/Combine.v ===== *)
(** Merging of partially signed variants of a transaction
    (src/utilities/bitcoind_combine.cpp). *)
From S2P Require Import Prelude Rpc Errors System FeeHistogram ElectrumSubscribe ElectrumOutpoints Dispatch Archive BitcoindParsers BlockStats BitcoindBlockchain.

(** ** The library *)

Inductive script_version := unversioned | segwit.

(** [chain::script] and its operations, as far as multisig signing is concerned. *)
Class MultisigScripts `{Scripts} := {
  operation : Type;
  push_size_0 : operation;
  (** [operation{ data, false }] and [op.data()]. *)
  push_data : data_chunk → operation;
  op_data : operation → data_chunk;
  script_ops : script → list operation;
  script_of : list operation → script;
  (** [script{ data, false }] and [script.to_data(false)]. *)
  script_from : data_chunk → script;
  script_bytes : script → data_chunk;
  (** Zero if the script is not multisig. *)
  multisig_required : script → nat;
  multisig_keys : script → list data_chunk;
  endorsements : script → list data_chunk;
  is_endorsement : data_chunk → bool;
  is_pay_script_hash : script → bool;
  is_pay_witness_script_hash : script → bool;
  (** [candidate->extract_sigop_script(embedded, pay)]. *)
  extract_sigop_script : script → script → option script;
}.

(** [chain::input]: its point, script, witness stack and sequence. *)
Record input `{Scripts} := Input {
  in_point : point;
  in_script : script;
  in_witness : list data_chunk;
  in_sequence : Z;
}.

(** [chain::transaction], by its inputs, and its signatures. *)
Class SignedTransactions `{MultisigScripts} := {
  signed_tx : Type;
  tx_inputs : signed_tx → list input;
  signature : Type;
  decode_signature : data_chunk → option signature;
  (** The key, subscript, input index, value, sighash flags and version. *)
  check_signature :
    signed_tx → signature → data_chunk → script → nat → Z → Z → script_version → bool;
}.

Section Combine.
Context `{SignedTransactions}.

(** ** Merging *)

Section Merge.
Context (tx : signed_tx) (index : nat) (value : Z) (subscript : script) (version : script_version).

(** The endorsement is a signature of the key, with the sighash flags as last byte. *)
Definition signs (key endorse : data_chunk) : bool :=
  match decode_signature (take (length endorse - 1) endorse) with
  | None => false
  | Some sig =>
      check_signature tx sig key subscript index value (default 0 (last endorse)) version
  end.

(** The inner loop, from an index on: the first unused endorsement of the key. *)
Fixpoint find_endorsement (key : data_chunk) (used : gset nat) (sig : nat)
    (endorses : list data_chunk) : option (nat * data_chunk) :=
  match endorses with
  | [] => None
  | endorse :: endorses =>
      if bool_decide (sig ∈ used) || (length endorse =? 0)%nat
      then find_endorsement key used (S sig) endorses
      else if signs key endorse then Some (sig, endorse)
      else find_endorsement key used (S sig) endorses
  end.

(** The loop over the keys. *)
Fixpoint merge_keys (complete : nat) (endorses : list data_chunk) (keys : list data_chunk)
    (ops : list operation) (used : gset nat) : list operation :=
  match keys with
  | [] => ops
  | key :: keys =>
      if (length ops =? complete)%nat then ops
      else
        match find_endorsement key used 0 endorses with
        | Some (sig, endorse) =>
            merge_keys complete endorses keys (ops ++ [push_data endorse])%list ({[sig]} ∪ used)
        | None => merge_keys complete endorses keys ops used
        end
  end.

Definition merge_endorsements (endorses : list data_chunk) : list operation :=
  merge_keys (multisig_required subscript + 1) endorses (multisig_keys subscript) [push_size_0] ∅.

End Merge.

(** ** An input *)

Context `{!ChainArchive} `{!TxArchive}.

(** The inputs of the variants that have the index. *)
Definition candidates (variants : list signed_tx) (index : nat) : list input :=
  omap (λ variant, tx_inputs variant !! index) variants.

(** The first multisig that a p2sh candidate embeds. *)
Definition embedded_script (pay : script) (scripts : list script) : option script :=
  head (filter (λ embedded, multisig_required embedded ≠ 0%nat)
    (omap (λ candidate, extract_sigop_script candidate pay) scripts)).

(** The endorsements but for the last operation. *)
Definition partial_endorsements (s : script) : list data_chunk :=
  let ops := script_ops s in
  if (length ops =? 0)%nat then [] else endorsements (script_of (take (length ops - 1) ops)).

(** The first multisig that a witness holds last, with its bytes. *)
Definition witness_script (stacks : list (list data_chunk)) : option (script * data_chunk) :=
  head (filter (λ found, multisig_required found.1 ≠ 0%nat)
    (omap (λ stack, (λ data, (script_from data, data)) <$> last stack) stacks)).

(** The endorsements of a stack, without its first element and its script. *)
Definition stack_endorsements (elements : list data_chunk) : list data_chunk :=
  if (length elements <? 2)%nat then []
  else List.filter is_endorsement (drop 1 (take (length elements - 1) elements)).

(** The input at an index, or an error. *)
Definition combine_input (q : archive) (base : signed_tx) (variants : list signed_tx) (index : nat)
    (in_ : input) : BitcoindError.error_t + input :=
  let output := to_output q (in_point in_).1 (in_point in_).2 in
  match get_output q output with
  | None => inl BitcoindError.verify_error
  | Some (value, pay) =>
      if is_confirmed_spent q output then inl BitcoindError.verify_error
      else
        let found := candidates variants index in
        let scripts := in_script <$> found in
        let witnesses := in_witness <$> found in
        let merged s w := Input _ (in_point in_) s w (in_sequence in_) in
        let sigs := scripts ≫= endorsements in
        if negb (multisig_required pay =? 0)%nat && negb (length sigs =? 0)%nat then
          inr (merged (script_of (merge_endorsements base index value pay unversioned sigs)) [])
        else
          match (if is_pay_script_hash pay then embedded_script pay scripts else None) with
          | Some embedded =>
              let ops := merge_endorsements base index value embedded unversioned
                (scripts ≫= partial_endorsements) in
              inr (merged (script_of (ops ++ [push_data (script_bytes embedded)])) [])
          | None =>
              match (if is_pay_witness_script_hash pay then witness_script witnesses else None) with
              | Some (embedded, data) =>
                  let ops := merge_endorsements base index value embedded segwit
                    (witnesses ≫= stack_endorsements) in
                  let stacked := filter (λ data, data ≠ []) (op_data <$> ops) in
                  inr (merged (script_of []) ([[]] ++ stacked ++ [data])%list)
              | None =>
                  let best_script := default (in_script in_)
                    (head (filter (λ s, script_ops s ≠ []) scripts)) in
                  let best_witness := default (in_witness in_) (head (filter (λ w, w ≠ []) witnesses)) in
                  inr (merged best_script best_witness)
              end
          end
  end.

End Combine.

(** ** Merging is complete *)

Section MergeProofs.
Context `{SignedTransactions}.
Context (tx : signed_tx) (index : nat) (value : Z) (subscript : script) (version : script_version).
Context (endorses : list data_chunk).

Abbreviation signs_ := (signs tx index value subscript version).

(** The key has signed. *)
Definition signed_by (key : data_chunk) : Prop :=
  Exists (λ endorse, endorse ≠ [] ∧ signs_ key endorse = true) endorses.

#[global] Instance signed_by_dec key : Decision (signed_by key).
Proof. apply _. Defined.

(** The keys that have signed, in order, up to the number that is required. *)
Definition signers (required : nat) (keys : list data_chunk) : list data_chunk :=
  take required (filter signed_by keys).

Lemma find_endorsement_spec key used sig endorses' :
  match find_endorsement tx index value subscript version key used sig endorses' with
  | Some (i, endorse) =>
      ∃ j, i = (sig + j)%nat ∧ endorses' !! j = Some endorse ∧ ¬ (i ∈ used) ∧ endorse ≠ [] ∧
        signs_ key endorse = true
  | None => ∀ j endorse, endorses' !! j = Some endorse → (sig + j)%nat ∉ used → endorse ≠ [] →
      signs_ key endorse = false
  end.
Proof.
  revert sig. induction endorses' as [|e endorses' IH]; intros sig; cbn [find_endorsement]; [done|].
  assert (∀ P : Prop, (sig ∉ used → e ≠ [] → signs_ key e = true → P) →
    (sig ∉ used → e ≠ [] → signs_ key e = false) ∨ P) as Hfirst.
  { intros P HP. destruct (decide (sig ∈ used)); [by left|].
    destruct (decide (e = [])); [by left|]. destruct (signs_ key e); [right; by apply HP|by left]. }
  assert (
    match find_endorsement tx index value subscript version key used (S sig) endorses' with
    | Some (i, endorse) =>
        ∃ j, i = (sig + j)%nat ∧ (e :: endorses') !! j = Some endorse ∧ ¬ (i ∈ used) ∧ endorse ≠ [] ∧
          signs_ key endorse = true
    | None => (sig ∉ used → e ≠ [] → signs_ key e = false) →
        ∀ j endorse, (e :: endorses') !! j = Some endorse → (sig + j)%nat ∉ used → endorse ≠ [] →
        signs_ key endorse = false
    end) as Hrest.
  { specialize (IH (S sig)). destruct (find_endorsement _ _ _ _ _ key used (S sig) endorses') as [[i endorse]|].
    - destruct IH as (j & -> & Hj & Hused & Hne & Hsigns). exists (S j).
      split; [lia|]. by split_and!; [|replace (sig + S j)%nat with (S sig + j)%nat by lia|..].
    - intros He [|j] endorse Hj Hused Hne.
      + injection Hj as ->. rewrite Nat.add_0_r in Hused. by apply He.
      + apply (IH j); [done| |done]. by replace (S sig + j)%nat with (sig + S j)%nat by lia. }
  destruct (bool_decide (sig ∈ used) || (length e =? 0)%nat) eqn:Hskip.
  - destruct (find_endorsement _ _ _ _ _ key used (S sig) endorses') as [[i endorse]|]; [done|].
    apply Hrest. intros Hused Hne. apply orb_true_iff in Hskip as [Hskip|Hskip].
    + by apply bool_decide_eq_true in Hskip.
    + apply Nat.eqb_eq, nil_length_inv in Hskip. done.
  - apply orb_false_iff in Hskip as [Hused%bool_decide_eq_false Hne%Nat.eqb_neq].
    destruct (signs_ key e) eqn:Hsigns.
    + exists 0%nat. split_and!; [lia|done|done| |done]. by intros ->.
    + destruct (find_endorsement _ _ _ _ _ key used (S sig) endorses') as [[i endorse]|]; [done|].
      by apply Hrest.
Qed.

(** A used endorsement is of a key that the loop has passed. *)
Definition used_by (used : gset nat) (passed : list data_chunk) : Prop :=
  ∀ i, i ∈ used → ∃ key endorse, key ∈ passed ∧ endorses !! i = Some endorse ∧ signs_ key endorse = true.

Lemma merge_keys_spec complete keys passed ops used :
  NoDup (passed ++ keys)%list → used_by used passed →
  (∀ key key' endorse, key ∈ (passed ++ keys)%list → key' ∈ (passed ++ keys)%list → endorse ∈ endorses →
    signs_ key endorse = true → signs_ key' endorse = true → key = key') →
  (length ops <= complete)%nat →
  ∃ sigs, merge_keys tx index value subscript version complete endorses keys ops used =
      (ops ++ (push_data <$> sigs))%list ∧
    Forall2 (λ key endorse, endorse ∈ endorses ∧ endorse ≠ [] ∧ signs_ key endorse = true)
      (signers (complete - length ops) keys) sigs.
Proof.
  unfold signers. revert passed ops used. induction keys as [|key keys IH];
    intros passed ops used Hunique Hused Hone Hlength; cbn [merge_keys].
  { exists []. rewrite app_nil_r, filter_nil, take_nil. by split. }
  destruct (Nat.eqb_spec (length ops) complete) as [Hfull|Hroom].
  { exists []. rewrite app_nil_r, Hfull, Nat.sub_diag. by split. }
  assert (passed ++ key :: keys = (passed ++ [key]) ++ keys)%list as Hassoc by by rewrite <-app_assoc.
  rewrite Hassoc in Hunique, Hone.
  pose proof (find_endorsement_spec key used 0 endorses) as Hfind.
  destruct (find_endorsement _ _ _ _ _ key used 0 endorses) as [[i endorse]|].
  - destruct Hfind as (j & -> & Hj & Hfresh & Hne & Hsigns). simpl in Hfresh.
    assert (signed_by key) as Hkey
      by (apply Exists_exists; exists endorse; split; [by eapply list_elem_of_lookup_2|done]).
    destruct (IH (passed ++ [key])%list (ops ++ [push_data endorse])%list ({[j]} ∪ used))
      as (sigs & Hmerge & Hsigs); [done| |done|rewrite length_app; simpl; lia|].
    { intros i [->%elem_of_singleton|Hi]%elem_of_union.
      - exists key, endorse. split; [|done]. apply elem_of_app. right. by left.
      - destruct (Hused i Hi) as (k & e & Hk & He). exists k, e. split; [|done].
        apply elem_of_app. by left. }
    exists (endorse :: sigs). simpl. rewrite Hmerge, <-app_assoc. split; [done|].
    rewrite filter_cons, decide_True by done. rewrite length_app in Hsigs. simpl in Hsigs.
    destruct (complete - length ops)%nat as [|room] eqn:Hrest; [lia|].
    replace (complete - (length ops + 1))%nat with room in Hsigs by lia. simpl.
    constructor; [|done]. split; [by eapply list_elem_of_lookup_2|done].
  - destruct (IH (passed ++ [key])%list ops used) as (sigs & Hmerge & Hsigs); [done| |done|done|].
    { intros i Hi. destruct (Hused i Hi) as (k & e & Hk & He). exists k, e. split; [|done].
      apply elem_of_app. by left. }
    exists sigs. split; [done|]. rewrite filter_cons, decide_False; [done|].
    intros (e & He & Hne & Hsigns)%Exists_exists.
    apply list_elem_of_lookup in He as He'. destruct He' as [j Hj].
    destruct (decide (j ∈ used)) as [Hj'|Hj'].
    + destruct (Hused j Hj') as (k & e' & Hk & He' & Hsigns'). assert (e' = e) as -> by congruence.
      assert (k = key) as ->.
      { apply (Hone k key e); [rewrite elem_of_app; left; rewrite elem_of_app; by left| |done..].
        rewrite elem_of_app. left. rewrite elem_of_app. right. by left. }
      apply NoDup_app in Hunique as [Hunique _]. apply NoDup_app in Hunique as (_ & Hdisjoint & _).
      apply (Hdisjoint key Hk). by left.
    + specialize (Hfind j e Hj Hj' Hne). congruence.
Qed.

(** The merged operations: the empty element, then a signature of each key that has
    signed, in the order of the keys, up to the number that is required. *)
Lemma merge_endorsements_spec :
  NoDup (multisig_keys subscript) →
  (∀ key key' endorse, key ∈ multisig_keys subscript → key' ∈ multisig_keys subscript →
    endorse ∈ endorses → signs_ key endorse = true → signs_ key' endorse = true → key = key') →
  ∃ sigs, merge_endorsements tx index value subscript version endorses =
      push_size_0 :: (push_data <$> sigs) ∧
    Forall2 (λ key endorse, endorse ∈ endorses ∧ endorse ≠ [] ∧ signs_ key endorse = true)
      (signers (multisig_required subscript) (multisig_keys subscript)) sigs.
Proof.
  intros Hunique Hone. unfold merge_endorsements.
  destruct (merge_keys_spec (multisig_required subscript + 1) (multisig_keys subscript) [] [push_size_0] ∅)
    as (sigs & -> & Hsigs); [done|intros i Hi; set_solver|done|simpl; lia|].
  exists sigs. split; [done|]. by rewrite Nat.add_sub in Hsigs.
Qed.

End MergeProofs.

Class MultisigScriptsLaws `{MultisigScripts} : Prop := {
  op_data_zero : op_data push_size_0 = [];
  op_data_push data : op_data (push_data data) = data;
}.

(** How the variants of an input sign a multisig script: the script, its version, the
    endorsements that they hold, and the script and the witness that are made of the
    merged signatures. *)
Definition multisig_form `{MultisigScripts} (pay : script) (found : list input) :
    option (script * script_version * list data_chunk * (list data_chunk → script * list data_chunk)) :=
  let scripts := in_script <$> found in
  let witnesses := in_witness <$> found in
  let sigs := scripts ≫= endorsements in
  if negb (multisig_required pay =? 0)%nat && negb (length sigs =? 0)%nat then
    Some (pay, unversioned, sigs, λ merged, (script_of (push_size_0 :: (push_data <$> merged)), []))
  else
    match (if is_pay_script_hash pay then embedded_script pay scripts else None) with
    | Some embedded =>
        Some (embedded, unversioned, scripts ≫= partial_endorsements,
          λ merged, (script_of (push_size_0 :: (push_data <$> merged ++ [script_bytes embedded])%list), []))
    | None =>
        match (if is_pay_witness_script_hash pay then witness_script witnesses else None) with
        | Some (embedded, data) =>
            Some (embedded, segwit, witnesses ≫= stack_endorsements,
              λ merged, (script_of [], ([[]] ++ merged ++ [data])%list))
        | None => None
        end
    end.

Lemma filter_pushed `{MultisigScriptsLaws} sigs :
  Forall (λ sig, sig ≠ []) sigs →
  filter (λ data, data ≠ []) (op_data <$> push_size_0 :: (push_data <$> sigs)) = sigs.
Proof.
  intros Hsigs. rewrite fmap_cons, op_data_zero, filter_cons, decide_False by auto.
  induction Hsigs as [|sig sigs Hsig _ IH]; [done|].
  rewrite !fmap_cons, op_data_push, filter_cons, decide_True by done. by rewrite IH.
Qed.

(** ** Example: two of three keys, of one byte *)

#[local] Instance example_scripts : Scripts := {
  script := list Z;
  to_script data := data;
  script_valid _ := true;
  script_hash s := s;
  payment_address := string;
  to_payment_address _ := None;
  output_script _ _ _ := [];
  extract_output _ _ _ := None;
  encoded address := address;
}.

(** A multisig script is the number and the keys; another begins with zero, and holds
    an endorsement for each byte that follows. *)
#[local] Instance example_multisig : MultisigScripts := {
  operation := data_chunk;
  push_size_0 := [];
  push_data data := data;
  op_data data := data;
  script_ops s := (λ b, [b]) <$> (s : list Z);
  script_of ops := (0 :: (take 1 <$> ops) ≫= (λ b, b)) : list Z;
  script_from data := data;
  script_bytes s := s;
  multisig_required s := match (s : list Z) with m :: _ => Z.to_nat m | [] => 0%nat end;
  multisig_keys s := (λ key, [key]) <$> drop 1 (s : list Z);
  endorsements s := (λ b, [b; 1]) <$> drop 1 (s : list Z);
  is_endorsement _ := true;
  is_pay_script_hash _ := false;
  is_pay_witness_script_hash _ := false;
  extract_sigop_script _ _ := None;
}.

#[local] Instance example_multisig_laws : MultisigScriptsLaws.
Proof. by split. Qed.

#[local] Instance example_signed : SignedTransactions := {
  signed_tx := list input;
  tx_inputs tx := tx;
  signature := data_chunk;
  decode_signature der := Some der;
  check_signature _ sig key _ _ _ _ _ := bool_decide (sig = key);
}.

(** ** Properties *)

(** Of a known and unspent output of a multisig script (bare, or behind a script
    hash or a witness script hash), the merged input has a signature of each key that
    has signed in any of the variants, in the order of the keys, up to the number that
    the script requires. So it is complete as soon as enough keys have signed,
    wherever their signatures are and in whatever order. *)
Lemma combine_input_complete `{!Scripts} `{!MultisigScripts} `{!MultisigScriptsLaws}
    `{!SignedTransactions} `{ChainArchive} `{!TxArchive} q base variants index in_ value pay subscript
    version endorses assemble :
  let output := to_output q (in_point in_).1 (in_point in_).2 in
  get_output q output = Some (value, pay) → is_confirmed_spent q output = false →
  multisig_form pay (candidates variants index) = Some (subscript, version, endorses, assemble) →
  let signs_ := signs base index value subscript version in
  let keys := multisig_keys subscript in
  NoDup keys →
  (∀ key key' endorse, key ∈ keys → key' ∈ keys → endorse ∈ endorses →
    signs_ key endorse = true → signs_ key' endorse = true → key = key') →
  let signed key := Exists (λ endorse, endorse ≠ [] ∧ signs_ key endorse = true) endorses in
  ∃ sigs, combine_input q base variants index in_ =
      inr (Input _ (in_point in_) (assemble sigs).1 (assemble sigs).2 (in_sequence in_)) ∧
    Forall2 (λ key endorse, endorse ∈ endorses ∧ signs_ key endorse = true)
      (take (multisig_required subscript) (filter signed keys)) sigs.
Proof.
  intros output Houtput Hspent Hform signs_ keys Hunique Hone signed.
  destruct (merge_endorsements_spec base index value subscript version endorses Hunique Hone)
    as (sigs & Hmerge & Hsigs).
  exists sigs. split; [|eapply Forall2_impl; [exact Hsigs|]; by intros key endorse (? & _ & ?)].
  assert (Forall (λ sig, sig ≠ []) sigs) as Hne
    by (eapply Forall2_Forall_r; [exact Hsigs|]; apply Forall_forall; by intros key _ endorse (_ & ? & _)).
  unfold combine_input, multisig_form in *. fold output. rewrite Houtput, Hspent.
  destruct (negb (multisig_required pay =? 0)%nat && _).
  { injection Hform as <- <- <- <-. by rewrite Hmerge. }
  destruct (if is_pay_script_hash pay then _ else _) as [embedded|].
  { injection Hform as <- <- <- <-. rewrite Hmerge. by rewrite fmap_app. }
  destruct (if is_pay_witness_script_hash pay then _ else _) as [[embedded data]|]; [|done].
  injection Hform as <- <- <- <-. rewrite Hmerge. by rewrite (filter_pushed sigs Hne).
Qed.

Definition example_input (endorsers : list Z) : input := Input _ ([1], 0) (0 :: endorsers : list Z) [] 7.
Definition example_base : signed_tx := [example_input [12; 13]].
Definition example_variants : list signed_tx := [example_base; [example_input [10]]].
Definition example_pay : script := ([2; 10; 11; 12] : list Z).

#[local] Existing Instance BitcoindBlockchain.example_chain.

#[local] Instance example_txs : TxArchive := {
  tx_link := unit;
  is_tx_terminal _ := false;
  output_link := unit;
  is_output_terminal _ := false;
  to_output _ _ _ := ();
  to_output_tx _ _ := ();
  get_output _ _ := Some (50, example_pay);
  is_confirmed_spent _ _ := false;
  is_confirmable_spent _ _ := false;
  get_tx_height _ _ := None;
  is_pooled _ _ := false;
  is_confirmable_tx _ _ := false;
  is_coinbase_tx _ _ := false;
  get_tx_key _ _ := [];
  satoshi_per_bitcoin := 100000000;
}.
