(* ===== verification/BitcoindTransaction.v ===== *)
(** Raw transaction methods of the bitcoind service
    (src/protocols/bitcoind/protocol_bitcoind_transaction.cpp), with the json that
    they make (src/serializers/bitcoind_json.cpp) and the reject tokens
    (src/error/bitcoind_error_t.cpp).

    A submitted package is decided by the organizer of the node, whose code and
    index return to the channel's strand by a completion. The methods of partially
    signed transactions are in Psbt.v. *)
From S2P Require Import Prelude Rpc Errors System FeeHistogram ElectrumSubscribe ElectrumOutpoints Dispatch Descriptor Archive BitcoindParsers BlockStats BitcoindBlockchain ElectrumTransactions Combine.

(** ** The library *)

(** [chain::transaction], as read from bytes (with or without witnesses, if valid)
    and from a base16 stream that it exhausts. *)
Class ChainTransactions `{SignedTransactions} := {
  read_tx : data_chunk → bool → option signed_tx;
  read_hexed : string → option signed_tx;
  tx_hash : bool → signed_tx → hash_digest;
  (** [to_text(tx, size, witness)] and [tx.to_data(witness)]. *)
  tx_text : bool → signed_tx → string;
  tx_to_data : bool → signed_tx → data_chunk;
  tx_version_of : signed_tx → Z;
  tx_outputs_of : signed_tx → list (Z * script);
  tx_lock_time_of : signed_tx → Z;
  make_tx : Z → list input → list (Z * script) → Z → signed_tx;
  virtual_size : signed_tx → Z;
}.

(** The named codes of the node and of the system library, and their categories. *)
Inductive error_space := node_space | transaction_space | block_space.

Class NamedErrors `{NodeErrors} := {
  named : error_space → string → code;
  in_space : error_space → code → bool;
}.

Class RawTxArchive `{ElectrumTxArchive} := {
  (** The size in bytes, with witnesses. *)
  get_tx_size : archive → tx_link → option Z;
  (** The hex that is written of a transaction, with witnesses. *)
  write_wire_tx : archive → tx_link → option string;
  is_confirmed_tx : archive → tx_link → bool;
  to_outputs : archive → tx_link → list output_link;
  (** The fee and the size of a stored transaction. *)
  get_tx_fees : archive → tx_link → option (Z * Z);
  populate_tx : archive → block_tx → option block_tx;
}.

(** ** Reject tokens *)

Section Reject.
Context `{NamedErrors}.

Definition transaction_rejects : list (string * string) :=
  [("empty_transaction", "bad-txns-vin-empty");
   ("previous_output_null", "bad-txns-prevout-null");
   ("spend_overflow", "bad-txns-txouttotal-toolarge");
   ("invalid_coinbase_script_size", "bad-cb-length");
   ("coinbase_transaction", "coinbase");
   ("transaction_internal_double_spend", "bad-txns-inputs-duplicate");
   ("transaction_size_limit", "bad-txns-oversize");
   ("transaction_legacy_sigop_limit", "bad-txns-too-many-sigops");
   ("unspent_duplicate", "bad-txns-BIP30");
   ("missing_previous_output", "bad-txns-inputs-missingorspent");
   ("coinbase_maturity", "bad-txns-premature-spend-of-coinbase");
   ("spend_exceeds_value", "bad-txns-in-belowout");
   ("transaction_sigop_limit", "bad-txns-too-many-sigops");
   ("absolute_time_locked", "non-final");
   ("relative_time_locked", "non-BIP68-final");
   ("transaction_weight_limit", "tx-size");
   ("confirmed_double_spend", "bad-txns-inputs-missingorspent")].

Definition block_rejects : list (string * string) :=
  [("invalid_proof_of_work", "high-hash");
   ("futuristic_timestamp", "time-too-new");
   ("insufficient_block_version", "bad-version");
   ("anachronistic_timestamp", "time-too-old");
   ("incorrect_proof_of_work", "bad-diffbits");
   ("early_timestamp", "time-too-old");
   ("orphan_block", "prev-blk-not-found");
   ("block_size_limit", "bad-blk-length");
   ("empty_block", "bad-blk-length");
   ("first_not_coinbase", "bad-cb-missing");
   ("extra_coinbases", "bad-cb-multiple");
   ("internal_duplicate", "bad-txns-duplicate");
   ("block_internal_double_spend", "bad-txns-inputs-missingorspent");
   ("forward_reference", "bad-txns-inputs-missingorspent");
   ("invalid_transaction_commitment", "bad-txnmrklroot");
   ("block_legacy_sigop_limit", "bad-blk-sigops");
   ("block_non_final", "bad-txns-nonfinal");
   ("coinbase_height_mismatch", "bad-cb-height");
   ("coinbase_value_limit", "bad-cb-amount");
   ("block_sigop_limit", "bad-blk-sigops");
   ("invalid_witness_commitment", "bad-witness-merkle-match");
   ("block_weight_limit", "bad-blk-weight");
   ("invalid_signature", "mandatory-script-verify-flag-failed");
   ("unspent_coinbase_collision", "bad-txns-BIP30")].

(** [find] of a code in a table of its category. *)
Definition reject_token (space : error_space) (table : list (string * string)) (ec : code) :
    option string :=
  if in_space space ec
  then snd <$> List.find (λ row, bool_decide (named space row.1 = ec)) table
  else None.

Definition reject (ec : code) : string :=
  if bool_decide (ec = named node_space "orphan_block") ||
     bool_decide (ec = named node_space "orphan_header") then "prev-blk-not-found"
  else if bool_decide (ec = named node_space "duplicate_block") ||
          bool_decide (ec = named node_space "duplicate_header") then "duplicate"
  else
    match reject_token transaction_space transaction_rejects ec with
    | Some token => token
    | None =>
        match reject_token block_space block_rejects ec with
        | Some token => token
        | None => code_message ec
        end
    end.

End Reject.

(** ** Submission *)

Section Submission.
Context `{Text} `{ChainTransactions} `{NamedErrors} `{ChainArchive} `{!TxArchive}
  `{!ElectrumTxArchive} `{!RawTxArchive}.

(** What a handler does: it replies, or submits a package with a completion. *)
Inductive raw_completion := complete_send | complete_accept | complete_submit.

Inductive raw_reaction :=
  | raw_replies (h : handled)
  | raw_submits (test : bool) (txs : list signed_tx) (by_ : raw_completion).

Definition raw_fails (e : BitcoindError.error_t) : raw_reaction := raw_replies (failed e).

Definition handle_send_raw_transaction (q : archive) (stopped : bool) (hexstring : string) :
    raw_reaction :=
  if stopped then raw_replies (false, [])
  else
    match decode_base16 hexstring with
    | None => raw_fails BitcoindError.deserialization_error
    | Some data =>
        match read_tx data true with
        | None => raw_fails BitcoindError.deserialization_error
        | Some tx =>
            let link := to_tx q (tx_hash false tx) in
            if negb (is_tx_terminal link) && is_confirmed_tx q link &&
               existsb (λ out, negb (is_confirmed_spent q out)) (to_outputs q link)
            then raw_fails BitcoindError.verify_already_in_utxo_set
            else raw_submits false [tx] complete_send
        end
    end.

Definition complete_submit_tx (q : archive) (stopped : bool) (ec : code) (tx : signed_tx) : list reply :=
  let accepted := reply_value (string_t (encode_hash (tx_hash false tx))) in
  if stopped then []
  else if bool_decide (ec = duplicate_transaction) then
    if is_confirmed_tx q (to_tx q (tx_hash false tx))
    then [bitcoind_error BitcoindError.verify_error]
    else [accepted]
  else if is_error ec then
    let missing := bool_decide (ec = named transaction_space "missing_previous_output") ||
                   bool_decide (ec = named transaction_space "confirmed_double_spend") in
    [reply_error (BitcoindError.translate ec
       (if missing then BitcoindError.verify_error else BitcoindError.verify_rejected)) None]
  else [accepted].

(** The loop over the texts of a package, to the first fault. *)
Fixpoint read_package (items : array) : BitcoindError.error_t + list signed_tx :=
  match items with
  | [] => inr []
  | string_t text :: items =>
      match read_hexed text with
      | None => inl BitcoindError.deserialization_error
      | Some tx =>
          match read_package items with
          | inl e => inl e
          | inr txs => inr (tx :: txs)
          end
      end
  | _ :: _ => inl BitcoindError.type_error
  end.

Definition handle_test_mempool_accept (stopped : bool) (rawtxs : array) : raw_reaction :=
  if stopped then raw_replies (false, [])
  else if (length rawtxs =? 0)%nat then raw_fails BitcoindError.invalid_parameter
  else
    match read_package rawtxs with
    | inl e => raw_fails e
    | inr txs => raw_submits true txs complete_accept
    end.

(** The package is accepted as a whole, so its code applies to each of its txs. *)
Definition accept_result (ec : code) (tx : signed_tx) : object :=
  let result :=
    [("txid", string_t (encode_hash (tx_hash false tx)));
     ("wtxid", string_t (encode_hash (tx_hash true tx)));
     ("allowed", boolean_t (negb (is_error ec)))] in
  if is_error ec then try_emplace "reject-reason" (string_t (reject ec)) result else result.

Definition complete_test_package (stopped : bool) (ec : code) (txs : list signed_tx) : list reply :=
  if stopped then []
  else [reply_value (array_t ((λ tx, object_t (accept_result ec tx)) <$> txs))].

Definition maximum_package : nat := 25.

Definition handle_submit_package (stopped : bool) (package : array) : raw_reaction :=
  if stopped then raw_replies (false, [])
  else if (length package =? 0)%nat || (maximum_package <? length package)%nat
  then raw_fails BitcoindError.invalid_parameter
  else
    match read_package package with
    | inl e => raw_fails e
    | inr txs => raw_submits false txs complete_submit
    end.

(** The entry of an accepted transaction. *)
Definition accepted_entry (tx : signed_tx) (fee bytes : Z) : object :=
  let base := PrimFloat.div (to_floating fee) (to_floating satoshi_per_bitcoin) in
  let feerate := PrimFloat.div (PrimFloat.mul base (to_floating 1000)) (to_floating bytes) in
  let result := [("txid", string_t (encode_hash (tx_hash false tx)))] in
  let result := set_field "vsize_adjusted" (uint64_t bytes) result in
  let result := set_field "vsize" (uint64_t bytes) result in
  let result := set_field "vsize_bip141" (uint64_t (virtual_size tx)) result in
  set_field "fees" (object_t
    [("base", number_t base); ("effective-feerate", number_t feerate);
     ("effective-includes", array_t [string_t (encode_hash (tx_hash true tx))])]) result.

Definition refused_entry (ec : code) (tx : signed_tx) (culprit : bool) : object :=
  set_field "error" (string_t (if culprit then reject ec else "package-not-validated"))
    [("txid", string_t (encode_hash (tx_hash false tx)))].

(** The loop over the positions; [None] if a fee is not stored. *)
Fixpoint package_results (q : archive) (ec : code) (index position : nat) (txs : list signed_tx)
    (results : object) : option object :=
  match txs with
  | [] => Some results
  | tx :: txs =>
      let wtxid := encode_hash (tx_hash true tx) in
      if submit_failed ec then
        package_results q ec index (S position) txs
          (set_field wtxid (object_t (refused_entry ec tx (position =? index)%nat)) results)
      else
        match get_tx_fees q (to_tx q (tx_hash false tx)) with
        | None => None
        | Some (fee, bytes) =>
            package_results q ec index (S position) txs
              (set_field wtxid (object_t (accepted_entry tx fee bytes)) results)
        end
  end.

Definition package_result (q : archive) (ec : code) (index : nat) (txs : list signed_tx) : option object :=
  results ← package_results q ec index 0 txs [];
  Some
    [("package_msg", string_t (if submit_failed ec then "transaction failed" else "success"));
     ("tx-results", object_t results); ("replaced-transactions", array_t [])].

Definition complete_package (q : archive) (stopped : bool) (ec : code) (index : nat)
    (txs : list signed_tx) : list reply :=
  if stopped then []
  else
    match package_result q ec index txs with
    | None => [bitcoind_error BitcoindError.internal_error]
    | Some result => [reply_value (object_t result)]
    end.

(** The completion that the organizer posts, with the index of the transaction that
    caused the code; [None] if a single submission does not hold one transaction. *)
Definition run_completion (q : archive) (stopped : bool) (ec : code) (index : nat)
    (by_ : raw_completion) (txs : list signed_tx) : option (list reply) :=
  match by_, txs with
  | complete_send, [tx] => Some (complete_submit_tx q stopped ec tx)
  | complete_send, _ => None
  | complete_accept, _ => Some (complete_test_package stopped ec txs)
  | complete_submit, _ => Some (complete_package q stopped ec index txs)
  end.

End Submission.

(** ** Queries *)

Section Queries.
Context `{Text} `{SizeMath} `{Integers} `{DescriptorScripts} `{!TransactionScripts}
  `{!MultisigScripts} `{!SignedTransactions} `{!ChainTransactions} `{ChainArchive} `{!BlockArchive}
  `{!TxArchive} `{!ElectrumTxArchive} `{!RawTxArchive}.
Context (p2kh p2sh : Z) (witness : string) (maximum_money : Z).

(** The transaction that is made of a parsed one, with empty scripts. *)
Context (raw_chain_tx : raw_transaction → signed_tx).

(** [value_from(bitcoind(tx, flags))], and that of a script. *)
Context (tx_model : signed_tx → block_tx * object) (script_model : script → object).

Definition handle_create_raw_transaction (stopped : bool) (inputs : array) (outputs : value_t)
    (locktime : double) (replaceable : bool) (version : double) : handled :=
  if stopped then (false, [])
  else
    match parse_transaction p2kh p2sh witness maximum_money inputs outputs locktime replaceable version with
    | inl fault => replied (reply_error fault None)
    | inr tx => replied (reply_value (string_t (tx_text false (raw_chain_tx tx))))
    end.

(** Absent the hint, witness deserialization is tried first. *)
Definition read_hinted (data : data_chunk) (iswitness : option bool) : option signed_tx :=
  match read_tx data (default true iswitness), iswitness with
  | None, None => read_tx data false
  | tx, _ => tx
  end.

(** [None] if the json of the system library has not the expected shape. *)
Definition handle_decode_raw_transaction (stopped : bool) (hexstring : string)
    (iswitness : option bool) : option handled :=
  if stopped then Some (false, [])
  else
    match decode_base16 hexstring with
    | None => Some (failed BitcoindError.deserialization_error)
    | Some data =>
        match read_hinted data iswitness with
        | None => Some (failed BitcoindError.deserialization_error)
        | Some tx =>
            let '(view, model) := tx_model tx in
            model ← inject_tx_scripts p2kh p2sh witness view model;
            Some (replied (reply_value (object_t model)))
        end
    end.

(** The block of a confirmed transaction. *)
Definition inject_tx_context (out : object) (q : archive) (link : tx_link) : object :=
  match get_tx_height q link with
  | None => set_field "confirmations" (uint64_t 0) out
  | Some height =>
      let block := to_confirmed q height in
      let top := get_top_confirmed q in
      let out := set_field "blockhash" (string_t (encode_hash (get_header_key q block))) out in
      let out := set_field "confirmations" (uint64_t (floored_subtract top height + 1)) out in
      let out := set_field "in_active_chain" (boolean_t true) out in
      match get_header q block with
      | None => out
      | Some header =>
          let out := set_field "blocktime" (uint32_t (timestamp header)) out in
          set_field "time" (uint32_t (timestamp header)) out
      end
  end.

(** [verbosity]. *)
Definition tx_hexadecimal : Z := 0.
Definition tx_json_object : Z := 1.
Definition tx_json_verbose : Z := 2.

(** The json of a stored transaction at a level above hexadecimal. *)
Definition raw_tx_model (q : archive) (link : tx_link) (level : Z) (view : block_tx) (model : object) :
    option object :=
  model ← inject_tx_scripts p2kh p2sh witness view (inject_tx_context model q link);
  if (level =? tx_json_verbose) && negb (tx_coinbase view) then
    match populate_tx q view with
    | None => Some model
    | Some populated =>
        model ← inject_tx_prevouts p2kh p2sh witness script_model q populated model;
        Some (set_field "fee" (number_t (bitcoins (tx_fee populated))) model)
    end
  else Some model.

Definition handle_get_raw_transaction (to_int64 : double → option Z) (q : archive) (stopped : bool)
    (txid : string) (verbose : double) : option handled :=
  if stopped then Some (false, [])
  else
    match decode_hash txid with
    | None => Some (failed BitcoindError.invalid_parameter)
    | Some hash =>
        let link := to_tx q hash in
        match get_tx_size q link with
        | None => Some (failed_text BitcoindError.invalid_address_or_key txid)
        | Some _ =>
            match to_int64 verbose with
            | None => Some (failed BitcoindError.misc_error)
            | Some requested =>
                let level := Z.max 0 (Z.min requested tx_json_verbose) in
                if level =? tx_hexadecimal then
                  Some
                    match write_wire_tx q link with
                    | Some hex => replied (reply_hex hex)
                    | None => failed BitcoindError.internal_error
                    end
                else
                  match get_tx_model q link with
                  | None => Some (failed_text BitcoindError.invalid_address_or_key txid)
                  | Some (_, None) => None
                  | Some (view, Some model) =>
                      model ← raw_tx_model q link level view model;
                      Some (replied (reply_value (object_t model)))
                  end
            end
        end
    end.

(** The loop over the variants, to the first that cannot be read. *)
Definition read_variant (item : value_t) : option signed_tx :=
  match item with
  | string_t text => data ← decode_base16 text; read_tx data true
  | _ => None
  end.

(** The loop over the inputs, to the first fault. *)
Fixpoint combine_inputs (q : archive) (base : signed_tx) (variants : list signed_tx) (index : nat)
    (ins : list input) : BitcoindError.error_t + list input :=
  match ins with
  | [] => inr []
  | in_ :: ins =>
      match combine_input q base variants index in_ with
      | inl e => inl e
      | inr combined =>
          match combine_inputs q base variants (S index) ins with
          | inl e => inl e
          | inr merged => inr (combined :: merged)
          end
      end
  end.

Definition handle_combine_raw_transaction (q : archive) (stopped : bool) (txs : array) : handled :=
  if stopped then (false, [])
  else
    match mapM read_variant txs with
    | None => failed BitcoindError.deserialization_error
    | Some [] => failed BitcoindError.invalid_parameter
    | Some (base :: rest) =>
        match combine_inputs q base (base :: rest) 0 (Combine.tx_inputs base) with
        | inl e => failed e
        | inr ins =>
            let merged := make_tx (tx_version_of base) ins (tx_outputs_of base) (tx_lock_time_of base) in
            replied (reply_value (string_t (tx_text true merged)))
        end
    end.

Definition handle_sign_raw_transaction_with_key (stopped : bool) : handled :=
  if stopped then (false, []) else failed BitcoindError.method_not_found.

Definition handle_abort_private_broadcast (stopped : bool) : handled :=
  if stopped then (false, []) else failed BitcoindError.method_not_found.

Definition handle_get_private_broadcast_info (stopped : bool) : handled :=
  if stopped then (false, []) else failed BitcoindError.method_not_found.

End Queries.

(** ** Reports of packages *)

Section Packages.
Context `{TextLaws} `{ChainTransactions} `{NamedErrors} `{ChainArchive} `{!TxArchive}
  `{!ElectrumTxArchive} `{!RawTxArchive}.

Lemma read_package_spec items txs :
  read_package items = inr txs →
  Forall2 (λ item tx, ∃ text, item = string_t text ∧ read_hexed text = Some tx) items txs.
Proof.
  revert txs. induction items as [|item items IH]; intros txs; simpl; [by intros [= <-]|].
  destruct item as [| | |text| | | | | | | |]; try done.
  destruct (read_hexed text) as [tx|] eqn:Hread; [|done].
  destruct (read_package items) as [|txs']; [done|]. intros [= <-].
  constructor; [by exists text|by apply IH].
Qed.

(** The entry of a transaction at a position. *)
Definition package_entry (q : archive) (ec : code) (index position : nat) (tx : signed_tx) : option object :=
  if submit_failed ec then Some (refused_entry ec tx (position =? index)%nat)
  else
    match get_tx_fees q (to_tx q (tx_hash false tx)) with
    | None => None
    | Some (fee, bytes) => Some (accepted_entry tx fee bytes)
    end.

(** The loop writes the entries under the (distinct) witness hashes, in order. *)
Lemma package_results_spec q ec index position txs results :
  NoDup (field_names results ++ (encode_hash ∘ tx_hash true <$> txs))%list →
  (∀ i tx, txs !! i = Some tx → is_Some (package_entry q ec index (position + i) tx)) →
  ∃ entries, package_results q ec index position txs results = Some (results ++ entries)%list ∧
    field_names entries = encode_hash ∘ tx_hash true <$> txs ∧
    ∀ i tx, txs !! i = Some tx → ∃ entry, package_entry q ec index (position + i) tx = Some entry ∧
      entries !! i = Some (encode_hash (tx_hash true tx), object_t entry).
Proof.
  revert position results. induction txs as [|tx txs IH]; intros position results Hunique Hentries.
  { exists []. simpl. by rewrite app_nil_r. }
  pose proof (Hentries 0%nat tx eq_refl) as Hentry. rewrite Nat.add_0_r in Hentry.
  destruct Hentry as [entry Hentry]. set (wtxid := encode_hash (tx_hash true tx)) in *.
  assert (wtxid ∉ field_names results) as Hfresh.
  { apply NoDup_app in Hunique as (_ & Hdisjoint & _). intros Hin. apply (Hdisjoint _ Hin). by left. }
  assert (package_results q ec index position (tx :: txs) results =
    package_results q ec index (S position) txs (results ++ [(wtxid, object_t entry)])%list) as ->.
  { cbn [package_results]. fold wtxid. unfold package_entry in Hentry.
    destruct (submit_failed ec); [injection Hentry as <-; by rewrite set_field_fresh|].
    destruct (get_tx_fees _ _) as [[fee bytes]|]; [|done]. injection Hentry as <-.
    by rewrite set_field_fresh. }
  destruct (IH (S position) (results ++ [(wtxid, object_t entry)])%list) as (entries & Hrun & Hnames & Hall).
  - unfold field_names in *. rewrite fmap_app, <-app_assoc. exact Hunique.
  - intros i t Ht. rewrite Nat.add_succ_comm. by apply Hentries.
  - exists ((wtxid, object_t entry) :: entries). rewrite Hrun, <-app_assoc. split; [done|].
    split; [by rewrite fmap_cons, <-Hnames|]. intros [|i] t Ht.
    + injection Ht as <-. exists entry. by rewrite Nat.add_0_r.
    + rewrite <-Nat.add_succ_comm. by apply Hall.
Qed.

Lemma find_field_lookup (o : object) i key v :
  NoDup (field_names o) → o !! i = Some (key, v) → find_field key o = Some v.
Proof.
  revert i. induction o as [|[k w] o IH]; intros i Hunique Hi; [done|]. cbn in Hunique |- *.
  apply NoDup_cons in Hunique as [Hfresh Hunique]. destruct i as [|i]; simpl in Hi.
  - injection Hi as -> ->. by rewrite String.eqb_refl.
  - rewrite eqb_neq_false; [by eapply IH|]. intros ->. apply Hfresh.
    by apply list_elem_of_lookup_2, (list_elem_of_fmap_2 fst) in Hi.
Qed.

End Packages.

(** ** Merging keeps what is signed *)

Section Merged.
Context `{SignedTransactions} `{ChainArchive} `{!TxArchive}.

Lemma combine_input_outpoint q base variants index in_ combined :
  combine_input q base variants index in_ = inr combined →
  in_point combined = in_point in_ ∧ in_sequence combined = in_sequence in_.
Proof.
  unfold combine_input. intros Hc.
  repeat match type of Hc with
  | match ?x with _ => _ end = _ => destruct x
  | (if ?x then _ else _) = _ => destruct x
  end; try done; by injection Hc as <-.
Qed.

Lemma combine_inputs_spec q base variants index ins merged :
  combine_inputs q base variants index ins = inr merged →
  Forall2 (λ in_ combined, in_point combined = in_point in_ ∧ in_sequence combined = in_sequence in_)
    ins merged ∧
  ∀ i in_, ins !! i = Some in_ → ∃ combined, merged !! i = Some combined ∧
    combine_input q base variants (index + i) in_ = inr combined.
Proof.
  revert index merged. induction ins as [|in_ ins IH]; intros index merged; simpl; [by intros [= <-]|].
  destruct (combine_input q base variants index in_) as [|combined] eqn:Hc; [done|].
  destruct (combine_inputs q base variants (S index) ins) as [|rest] eqn:Hrest; [done|].
  intros [= <-]. destruct (IH _ _ Hrest) as [Hall Hlookup]. split.
  - constructor; [by eapply combine_input_outpoint|done].
  - intros [|i] t Ht; [injection Ht as ->; exists combined; by rewrite Nat.add_0_r|].
    rewrite <-Nat.add_succ_comm. by apply Hlookup.
Qed.

End Merged.

(** ** Example: variants of an input with two of three keys *)

#[local] Existing Instance reference_text.
#[local] Existing Instance reference_sizes.
#[local] Existing Instance BitcoindBlockchain.example_chain.
#[local] Existing Instance Combine.example_scripts.
#[local] Existing Instance Combine.example_multisig.
#[local] Existing Instance Combine.example_multisig_laws.
#[local] Existing Instance Combine.example_signed.
#[local] Existing Instance Combine.example_txs.

(** A transaction is written as the bytes of the scripts of its inputs, and read as
    one input with these bytes as endorsers. *)
#[local] Instance example_transactions : ChainTransactions := {
  read_tx data witness := Some ([Combine.example_input data] : list input);
  read_hexed text := data ← reference_decode text; Some ([Combine.example_input data] : list input);
  tx_hash witness tx := replicate 32 (Z.of_nat (length ((tx : list input) ≫= in_script)));
  tx_text witness tx := reference_encode ((tx : list input) ≫= (λ in_, (in_script in_ : list Z)));
  tx_to_data witness tx := (tx : list input) ≫= (λ in_, (in_script in_ : list Z));
  tx_version_of _ := 2;
  tx_outputs_of _ := [];
  tx_lock_time_of _ := 0;
  make_tx _ ins _ _ := ins;
  virtual_size _ := 100;
}.

#[local] Instance example_node_errors : NodeErrors := {
  duplicate_transaction := Code network_category 5;
  code_message _ := "failed";
}.

#[local] Instance example_errors : NamedErrors := {
  named space name := Code (match space with node_space => network_category | _ => server_category end)
    (Z.of_nat (String.length name));
  in_space space ec := match space with node_space => false | _ => bool_decide (category ec = server_category) end;
}.

#[local] Instance example_electrum : ElectrumTxArchive := {
  to_tx _ _ := ();
  get_wire_tx _ _ := [];
  get_tx_model _ _ := None;
  find_strong _ _ := to_confirmed BitcoindBlockchain.example_archive 0;
  get_timestamp _ _ := None;
  get_position_tx _ _ _ := ();
}.

#[local] Instance example_raw : RawTxArchive := {
  get_tx_size _ _ := Some 100;
  write_wire_tx _ _ := None;
  is_confirmed_tx _ _ := false;
  to_outputs _ _ := [];
  get_tx_fees _ _ := Some (1000, 100);
  populate_tx _ _ := None;
}.

(** ** Properties *)

(** C3: variants of a transaction are combined into one that spends the outpoints of
    the first variant, in its order and with its sequences, and keeps its outputs,
    version and lock time. An input of a multisig script (bare, or behind a script
    hash or a witness script hash) gets a signature of each key that has signed in
    any of the variants, in the order of the keys, up to the number that the script
    requires: it is complete as soon as enough keys have signed, wherever. *)
Theorem combine_raw_complete `{Text} `{!Scripts} `{!MultisigScripts} `{!MultisigScriptsLaws}
    `{!SignedTransactions} `{!ChainTransactions} `{ChainArchive} `{!TxArchive} q txs text :
  handle_combine_raw_transaction q false txs = replied (reply_value (string_t text)) →
  ∃ base rest ins, Forall2 (λ item tx, read_variant item = Some tx) txs (base :: rest) ∧
    text = tx_text true (make_tx (tx_version_of base) ins (tx_outputs_of base) (tx_lock_time_of base)) ∧
    length ins = length (Combine.tx_inputs base) ∧
    ∀ index in_, Combine.tx_inputs base !! index = Some in_ →
    ∃ merged, ins !! index = Some merged ∧
      in_point merged = in_point in_ ∧ in_sequence merged = in_sequence in_ ∧
      ∀ value pay subscript version endorses assemble,
        get_output q (to_output q (in_point in_).1 (in_point in_).2) = Some (value, pay) →
        multisig_form pay (candidates (base :: rest) index) = Some (subscript, version, endorses, assemble) →
        let signs_ := signs base index value subscript version in
        let keys := Combine.multisig_keys subscript in
        let signed key := Exists (λ endorse, endorse ≠ [] ∧ signs_ key endorse = true) endorses in
        NoDup keys →
        (∀ key key' endorse, key ∈ keys → key' ∈ keys → endorse ∈ endorses →
          signs_ key endorse = true → signs_ key' endorse = true → key = key') →
        ∃ sigs, (in_script merged, in_witness merged) = assemble sigs ∧
          Forall2 (λ key endorse, endorse ∈ endorses ∧ signs_ key endorse = true)
            (take (Combine.multisig_required subscript) (filter signed keys)) sigs.
Proof.
  unfold handle_combine_raw_transaction, failed, replied. intros Hrun.
  destruct (mapM read_variant txs) as [[|base rest]|] eqn:Hread; [done| |done].
  destruct (combine_inputs q base (base :: rest) 0 _) as [|ins] eqn:Hins; [done|].
  injection Hrun as <-. exists base, rest, ins.
  split; [by apply mapM_Some in Hread|]. split; [done|].
  apply combine_inputs_spec in Hins as [Hall Hlookup].
  split; [symmetry; by eapply Forall2_length|]. intros index in_ Hin.
  destruct (Hlookup index in_ Hin) as (merged & Hmerged & Hc). simpl in Hc.
  destruct (combine_input_outpoint _ _ _ _ _ _ Hc) as [Hpoint Hsequence].
  exists merged. split; [done|]. split; [done|]. split; [done|].
  intros value pay subscript version endorses assemble Houtput Hform Hunique Hone.
  assert (is_confirmed_spent q (to_output q (in_point in_).1 (in_point in_).2) = false) as Hspent.
  { unfold combine_input in Hc. rewrite Houtput in Hc. by destruct (is_confirmed_spent q _). }
  pose proof (combine_input_complete q base (base :: rest) index in_ value pay subscript version endorses
    assemble Houtput Hspent Hform) as Hcomplete.
  destruct (Hcomplete Hunique Hone) as (sigs & Hsigs & Hsigned).
  exists sigs. split; [|done]. rewrite Hc in Hsigs. injection Hsigs as ->. simpl. by destruct (assemble sigs).
Qed.

Definition example_texts : array := [string_t "0c0d"; string_t "0a"].

Lemma combine_raw_complete_witness :
  handle_combine_raw_transaction BitcoindBlockchain.example_archive false example_texts =
    replied (reply_value (string_t "000a0c")) ∧
  ∃ base rest ins, Forall2 (λ item tx, read_variant item = Some tx) example_texts (base :: rest) ∧
    "000a0c" = tx_text true ins ∧ length ins = length (Combine.tx_inputs base).
Proof.
  assert (handle_combine_raw_transaction BitcoindBlockchain.example_archive false example_texts =
    replied (reply_value (string_t "000a0c"))) as Hrun by (vm_compute; reflexivity).
  split; [exact Hrun|].
  destruct (combine_raw_complete BitcoindBlockchain.example_archive example_texts "000a0c" Hrun)
    as (base & rest & ins & Hread & Htext & Hlength & _).
  exists base, rest, ins. split_and!; [exact Hread|exact Htext|exact Hlength].
Defined.

(** C25: a package of up to 25 transactions is submitted as the client gave it, and
    reported once, with an entry for each transaction under its witness hash and in
    the order of the package. If the organizer refuses it, exactly the transaction
    that it names has the reject token and every other is said not to be validated;
    otherwise (also if it is stored already) every entry has the stored fee and size
    of its transaction. *)
Theorem package_reported `{TextLaws} `{!Scripts} `{!MultisigScripts} `{!SignedTransactions}
    `{!ChainTransactions} `{!NodeErrors} `{!NamedErrors} `{ChainArchive} `{!TxArchive}
    `{!ElectrumTxArchive} `{!RawTxArchive} q package test txs by_ ec index :
  handle_submit_package false package = raw_submits test txs by_ →
  NoDup (tx_hash true <$> txs) → Forall is_hash (tx_hash true <$> txs) →
  (submit_failed ec = false →
   ∀ tx, tx ∈ txs → is_Some (get_tx_fees q (to_tx q (tx_hash false tx)))) →
  Forall2 (λ item tx, ∃ text, item = string_t text ∧ read_hexed text = Some tx) package txs ∧
  (1 <= length txs <= 25)%nat ∧ test = false ∧
  ∃ result results, run_completion q false ec index by_ txs = Some [reply_value (object_t result)] ∧
    find_field "package_msg" result =
      Some (string_t (if submit_failed ec then "transaction failed" else "success")) ∧
    find_field "tx-results" result = Some (object_t results) ∧
    field_names results = encode_hash ∘ tx_hash true <$> txs ∧
    ∀ i tx, txs !! i = Some tx → ∃ entry,
      find_field (encode_hash (tx_hash true tx)) results = Some (object_t entry) ∧
      find_field "txid" entry = Some (string_t (encode_hash (tx_hash false tx))) ∧
      if submit_failed ec then
        find_field "error" entry =
          Some (string_t (if (i =? index)%nat then reject ec else "package-not-validated"))
      else
        find_field "error" entry = None ∧
        ∃ fee bytes, get_tx_fees q (to_tx q (tx_hash false tx)) = Some (fee, bytes) ∧
          entry = accepted_entry tx fee bytes ∧ find_field "vsize" entry = Some (uint64_t bytes).
Proof.
  intros Hsubmit Hunique Hhash Hfees. unfold handle_submit_package, raw_fails in Hsubmit.
  destruct (Nat.eqb_spec (length package) 0); [done|].
  destruct (Nat.ltb_spec maximum_package (length package)); [done|]. simpl in Hsubmit.
  destruct (read_package package) as [|txs'] eqn:Hread; [done|]. injection Hsubmit as <- <- <-.
  apply read_package_spec in Hread. split; [done|]. apply Forall2_length in Hread.
  unfold maximum_package in *. split; [lia|]. split; [done|].
  assert (NoDup (encode_hash ∘ tx_hash true <$> txs')) as Hkeys.
  { rewrite list_fmap_compose. apply NoDup_fmap_2_strong; [|done].
    rewrite Forall_forall in Hhash. intros x y Hx Hy. apply encode_hash_inj; by apply Hhash. }
  destruct (package_results_spec q ec index 0 txs' []) as (results & Hresults & Hnames & Hentries).
  - exact Hkeys.
  - intros i tx Hi. unfold package_entry. destruct (submit_failed ec) eqn:Hfailed; [done|].
    destruct (Hfees eq_refl tx) as [[fee bytes] ->]; [by eapply list_elem_of_lookup_2|done].
  - simpl in Hresults. unfold run_completion, complete_package, package_result. rewrite Hresults. simpl.
    do 2 eexists. split_and!; [done..|].
    intros i tx Hi. destruct (Hentries i tx Hi) as (entry & Hentry & Hlookup). exists entry.
    split; [apply (find_field_lookup results i); [by rewrite Hnames|done]|].
    unfold package_entry in Hentry. destruct (submit_failed ec) eqn:Hfailed.
    + by injection Hentry as <-.
    + destruct (get_tx_fees _ _) as [[fee bytes]|]; [|done]. injection Hentry as <-.
      split; [done|]. split; [done|]. by exists fee, bytes.
Qed.

Definition example_package : array := [string_t "0a"; string_t "0a0b"].

Lemma package_reported_witness :
  ∃ txs result, handle_submit_package false example_package = raw_submits false txs complete_submit ∧
    run_completion BitcoindBlockchain.example_archive false (Code server_category 7) 1 complete_submit txs =
      Some [reply_value (object_t result)] ∧
    find_field "package_msg" result = Some (string_t "transaction failed").
Proof.
  assert (∃ txs, handle_submit_package false example_package = raw_submits false txs complete_submit ∧
    txs = [[Combine.example_input [10]]; [Combine.example_input [10; 11]]]) as (txs & Hsubmit & Htxs)
    by (eexists; split; vm_compute; reflexivity).
  assert (NoDup (tx_hash true <$> txs)) as Hunique
    by (rewrite Htxs; apply (bool_decide_unpack _); vm_compute; exact I).
  assert (Forall is_hash (tx_hash true <$> txs)) as Hhash
    by (rewrite Htxs; apply (bool_decide_unpack _); vm_compute; exact I).
  assert (submit_failed (Code server_category 7) = true) as Hfailed by (vm_compute; reflexivity).
  destruct (package_reported BitcoindBlockchain.example_archive example_package false txs complete_submit
    (Code server_category 7) 1 Hsubmit Hunique Hhash)
    as (_ & _ & _ & result & results & Hrun & Hmessage & _).
  { intros Hok. rewrite Hok in Hfailed. discriminate. }
  exists txs, result. split; [exact Hsubmit|]. split; [exact Hrun|]. exact Hmessage.
Defined.
