(* ===== verification/BtcdSearch.v ===== *)
(** The verbose transactions that a search of the btcd service answers
    (src/serializers/btcd_json.cpp), over the archive and the json of the bitcoind
    service. *)
From S2P Require Import Prelude Rpc Errors System FeeHistogram ElectrumSubscribe Descriptor Archive BitcoindBlockchain ElectrumTransactions Combine BitcoindTransaction.

Section Search.
Context `{DescriptorScripts} `{ChainArchive} `{!BlockArchive} `{!TxArchive} `{!ElectrumTxArchive}
  `{!RawTxArchive}.
Context (p2kh p2sh : Z) (witness : string).

(** An array under a key, and its element at an index; the source throws if there is none. *)
Definition find_array (key : string) (out : object) : option array :=
  match find_field key out with
  | Some (array_t entries) => Some entries
  | _ => None
  end.

Definition prevout_address (put : prevout_t) : string :=
  to_address (prevout_script put) p2kh p2sh witness.

(** The address, if any, and the value of a spent output. *)
Definition prevout_extension (put : prevout_t) : value_t :=
  let ad := prevout_address put in
  object_t
    [("addresses", array_t (if is_empty ad then [] else [string_t ad]));
     ("value", number_t (bitcoins (prevout_value put)))].

Definition extend_input (prevouts : bool) (put : prevout_t) (item : value_t) : option value_t :=
  if prevouts then
    match item with
    | object_t fields => Some (object_t (set_field "prevOut" (prevout_extension put) fields))
    | _ => None
    end
  else Some item.

Definition excludes (filter : gset string) (ad : string) : bool :=
  negb (bool_decide (filter = ∅)) && negb (bool_decide (ad ∈ filter)).

(** The loop over the inputs. *)
Fixpoint keep_inputs (filter : gset string) (prevouts : bool) (index : nat) (puts : list prevout_t)
    (inputs : array) : option array :=
  match puts with
  | [] => Some []
  | put :: puts =>
      if excludes filter (prevout_address put)
      then keep_inputs filter prevouts (S index) puts inputs
      else
        item ← inputs !! index;
        item ← extend_input prevouts put item;
        kept ← keep_inputs filter prevouts (S index) puts inputs;
        Some (item :: kept)
  end.

(** The loop over the outputs. *)
Fixpoint keep_outputs (filter : gset string) (index : nat) (outs : list script) (outputs : array) :
    option array :=
  match outs with
  | [] => Some []
  | out :: outs =>
      if bool_decide (to_address out p2kh p2sh witness ∈ filter) then
        item ← outputs !! index;
        kept ← keep_outputs filter (S index) outs outputs;
        Some (item :: kept)
      else keep_outputs filter (S index) outs outputs
  end.

(** [model] is [value_from(bitcoind(tx, flags))]; [None] if it has not the expected shape. *)
Definition search_transaction (q : archive) (link : tx_link) (tx : block_tx) (model : object)
    (filter : gset string) (prevouts : bool) : option object :=
  let filtered := negb (bool_decide (filter = ∅)) in
  model ← inject_tx_scripts p2kh p2sh witness tx (inject_tx_context model q link);
  let populated := if (prevouts || filtered) && negb (tx_coinbase tx) then populate_tx q tx else None in
  model ← match populated with
          | None => Some model
          | Some tx =>
              inputs ← find_array "vin" model;
              kept ← keep_inputs filter prevouts 0 (tx_prevouts tx) inputs;
              Some (set_field "vin" (array_t kept) model)
          end;
  if filtered then
    outputs ← find_array "vout" model;
    kept ← keep_outputs filter 0 (tx_outputs tx) outputs;
    Some (set_field "vout" (array_t kept) model)
  else Some model.

(** ** The loops select by address *)

Definition selects (filter : gset string) (ad : string) : bool :=
  bool_decide (filter = ∅) || bool_decide (ad ∈ filter).

Lemma excludes_selects filter ad : excludes filter ad = negb (selects filter ad).
Proof. unfold excludes, selects. by rewrite negb_orb. Qed.

Definition extend_fields (prevouts : bool) (put : prevout_t) (fields : object) : object :=
  if prevouts then set_field "prevOut" (prevout_extension put) fields else fields.

(** The entries of the inputs whose spent address is selected, each with its prevout. *)
Lemma keep_inputs_spec filter prevouts puts index entries :
  (length puts + index <= length entries)%nat →
  keep_inputs filter prevouts index puts (object_t <$> entries) =
    Some ((λ '(put, fields), object_t (extend_fields prevouts put fields)) <$>
      List.filter (λ '(put, _), selects filter (prevout_address put))
        (zip puts (drop index entries))).
Proof.
  revert index. induction puts as [|put puts IH]; intros index Hlength; simpl in *; [done|].
  destruct (lookup_lt_is_Some_2 entries index) as [fields Hfields]; [lia|].
  rewrite excludes_selects, (drop_S _ _ _ Hfields). simpl.
  destruct (selects filter (prevout_address put)); simpl; [|apply IH; lia].
  rewrite list_lookup_fmap, Hfields. simpl. unfold extend_input, extend_fields. rewrite IH by lia.
  by destruct prevouts.
Qed.

Lemma keep_outputs_spec filter outs index entries :
  (length outs + index <= length entries)%nat →
  keep_outputs filter index outs entries =
    Some (snd <$> List.filter (λ '(out, _), bool_decide (to_address out p2kh p2sh witness ∈ filter))
      (zip outs (drop index entries))).
Proof.
  revert index. induction outs as [|out outs IH]; intros index Hlength; simpl in *; [done|].
  destruct (lookup_lt_is_Some_2 entries index) as [entry Hentry]; [lia|].
  rewrite (drop_S _ _ _ Hentry). simpl.
  destruct (bool_decide _); simpl; [|apply IH; lia]. rewrite Hentry. simpl. by rewrite IH by lia.
Qed.

(** The inputs are those whose prevout pays an address of the filter, and the outputs
    those that pay one, each in order; without a filter all of them. The prevouts are
    told on request, unless the store cannot resolve them; nothing else changes. *)
Lemma search_transaction_correct q link tx model filter prevouts injected inputs outputs :
  inject_tx_scripts p2kh p2sh witness tx (inject_tx_context model q link) = Some injected →
  find_array "vin" injected = Some (object_t <$> inputs) →
  find_array "vout" injected = Some outputs →
  (∀ full, populate_tx q tx = Some full → length (tx_prevouts full) = length inputs) →
  length (tx_outputs tx) = length outputs →
  ∃ out, search_transaction q link tx model filter prevouts = Some out ∧
    find_array "vin" out = Some
      (match (if (prevouts || negb (bool_decide (filter = ∅))) && negb (tx_coinbase tx)
              then populate_tx q tx else None) with
       | Some full =>
           (λ '(put, fields), object_t (extend_fields prevouts put fields)) <$>
             List.filter (λ '(put, _), selects filter (prevout_address put))
               (zip (tx_prevouts full) inputs)
       | None => object_t <$> inputs
       end) ∧
    find_array "vout" out = Some
      (if bool_decide (filter = ∅) then outputs
       else snd <$> List.filter (λ '(put, _), selects filter (to_address put p2kh p2sh witness))
              (zip (tx_outputs tx) outputs)) ∧
    ∀ key, key ∉ ["vin"; "vout"] → find_field key out = find_field key injected.
Proof.
  intros Hinject Hin Hout Hpuths Houtputs. unfold search_transaction. rewrite Hinject. simpl.
  set (populated := if _ && _ then _ else None).
  assert (∀ full, populated = Some full → length (tx_prevouts full) = length inputs) as Hfull.
  { intros full. subst populated. case_match; [apply Hpuths|done]. }
  clearbody populated.
  assert (∃ model', match populated with
      | Some full => inputs ← find_array "vin" injected;
          kept ← keep_inputs filter prevouts 0 (tx_prevouts full) inputs;
          Some (set_field "vin" (array_t kept) injected)
      | None => Some injected end = Some model' ∧
    find_array "vin" model' = Some (match populated with
       | Some full => (λ '(put, fields), object_t (extend_fields prevouts put fields)) <$>
             List.filter (λ '(put, _), selects filter (prevout_address put))
               (zip (tx_prevouts full) inputs)
       | None => object_t <$> inputs end) ∧
    ∀ key, key ≠ "vin" → find_field key model' = find_field key injected)
    as (model' & -> & Hvin & Hother).
  { destruct populated as [full|]; [|by exists injected].
    rewrite Hin. simpl. rewrite keep_inputs_spec by (rewrite (Hfull full) by done; lia). simpl.
    eexists. split; [done|]. unfold find_array. rewrite find_set_eq, drop_0. split; [done|].
    intros key Hkey. by rewrite find_set_ne. }
  simpl. assert (find_array "vout" model' = Some outputs) as Hvout.
  { unfold find_array in *. by rewrite Hother. }
  rewrite Hvout. case_bool_decide as Hempty; simpl.
  - exists model'. split_and!; try done. intros key Hkey. apply Hother. set_solver.
  - rewrite keep_outputs_spec by lia. simpl. eexists. split; [done|].
    unfold find_array in *. rewrite find_set_ne, find_set_eq, drop_0 by done. split_and!; [done| |].
    + do 3 f_equal. unfold selects. by rewrite bool_decide_false.
    + intros key Hkey. rewrite find_set_ne by set_solver. apply Hother. set_solver.
Qed.

End Search.
