(* ===== verification/Psbt.v ===== *)
(** Partially signed transactions: the update of a document from the archive
    (src/utilities/bitcoind_update.cpp), its json (src/serializers/bitcoind_psbt.cpp)
    and the methods of the bitcoind service that read and write documents
    (src/protocols/bitcoind/protocol_bitcoind_transaction.cpp). *)
From stdpp Require Import pretty.
From S2P Require Import Prelude Rpc Errors System Numbers FeeHistogram ElectrumSubscribe ElectrumOutpoints Dispatch Descriptor MempoolFile Archive BitcoindParsers BlockStats BitcoindBlockchain ElectrumTransactions Combine BitcoindTransaction.

(** ** Documents *)

(** [wallet::psbt::derivation]: a public key, and its origin. *)
Record derivation := Derivation {
  derived_point : data_chunk;
  fingerprint : Z;
  key_path : list Z;
}.

#[global] Instance derivation_eq_dec : EqDecision derivation.
Proof. solve_decision. Defined.

(** What an update attaches to an input or an output. *)
Record attachments `{Scripts} := Attachments {
  embedded_script : option script;
  witness_script : option script;
  derivations : list derivation;
}.

(** [wallet::psbt::input] and [output]; signatures and unknown entries are pairs of
    a key and a value. *)
Record psbt_input `{SignedTransactions} := PsbtInput {
  non_witness_utxo : option signed_tx;
  witness_utxo : option (Z * script);
  partial_signatures : list (data_chunk * data_chunk);
  sighash_type : option Z;
  in_attachments : attachments;
  final_script_sig : option script;
  final_script_witness : option (list data_chunk);
  previous_txid : option hash_digest;
  output_index : option Z;
  psbt_sequence : option Z;
  required_time_locktime : option Z;
  required_height_locktime : option Z;
  in_others : list (data_chunk * data_chunk);
}.

Record psbt_output `{Scripts} := PsbtOutput {
  out_amount : option Z;
  out_script : option script;
  out_attachments : attachments;
  out_others : list (data_chunk * data_chunk);
}.

(** [wallet::psbt::transaction]. *)
Record psbt_doc `{SignedTransactions} := PsbtDoc {
  doc_version : Z;
  unsigned_tx : signed_tx;
  xpubs : list derivation;
  doc_tx_version : Z;
  fallback_locktime : option Z;
  tx_modifiable : option Z;
  doc_others : list (data_chunk * data_chunk);
  doc_inputs : list psbt_input;
  doc_outputs : list psbt_output;
}.

Class Psbts `{SignedTransactions} := {
  psbt_version_0 : Z;
  psbt_version_2 : Z;
  (** A document of a text and of an unsigned transaction, if valid. *)
  read_psbt : string → option psbt_doc;
  make_psbt : signed_tx → Z → option psbt_doc;
  psbt_text : psbt_doc → string;
  (** The output that an input spends, if the document has it. *)
  prevout : psbt_doc → nat → option (Z * script);
  input_is_final : psbt_input → bool;
  psbt_is_final : psbt_doc → bool;
  psbt_fee : psbt_doc → option Z;
  psbt_extract : psbt_doc → signed_tx;
  psbt_finalize : psbt_doc → bool * psbt_doc;
  psbt_combine : psbt_doc → psbt_doc → option psbt_doc;
  psbt_join : psbt_doc → psbt_doc → option psbt_doc;
  is_pay_witness : script → bool;
}.

(** The parts of [wallet::descriptor::signing]. *)
Class SigningParts `{ScanDescriptors} := { signing_attachments : signing → attachments }.

(** ** Update *)

Section Update.
Context `{SignedTransactions} `{!EqDecision script} `{!Psbts} `{!ScanDescriptors} `{!SigningParts}
  `{!ChainTransactions} `{ChainArchive} `{!TxArchive}.

(** The first expansion matching the entry's script updates the entry. *)
Definition find_signing (list_ : list signing) (s : script) : option signing :=
  List.find (λ item, bool_decide (signing_script item = s)) list_.

(** The loop over the derivations that are found. *)
Definition add_derivations (entry found : list derivation) : list derivation :=
  foldl (λ entry derived, if bool_decide (derived ∈ entry) then entry else (entry ++ [derived])%list)
    entry found.

Definition update_entry (entry : attachments) (found : signing) : attachments :=
  let parts := signing_attachments found in
  Attachments _
    (if embedded_script parts is Some s then Some s else embedded_script entry)
    (if witness_script parts is Some s then Some s else witness_script entry)
    (add_derivations (derivations entry) (derivations parts)).

Definition set_witness_utxo (in_ : psbt_input) (out : Z * script) : psbt_input :=
  match in_ with
  | PsbtInput _ _ _ nw _ ps st att fs fw pt oi sq rt rh ot =>
      PsbtInput _ _ _ nw (Some out) ps st att fs fw pt oi sq rt rh ot
  end.

Definition set_in_attachments (in_ : psbt_input) (att : attachments) : psbt_input :=
  match in_ with
  | PsbtInput _ _ _ nw wu ps st _ fs fw pt oi sq rt rh ot =>
      PsbtInput _ _ _ nw wu ps st att fs fw pt oi sq rt rh ot
  end.

Definition set_out_attachments (out : psbt_output) (att : attachments) : psbt_output :=
  PsbtOutput _ (out_amount out) (out_script out) att (out_others out).

Definition set_inputs (doc : psbt_doc) (ins : list psbt_input) : psbt_doc :=
  match doc with
  | PsbtDoc _ _ _ v u x t f m o _ outs => PsbtDoc _ _ _ v u x t f m o ins outs
  end.

Definition set_outputs (doc : psbt_doc) (outs : list psbt_output) : psbt_doc :=
  match doc with
  | PsbtDoc _ _ _ v u x t f m o ins _ => PsbtDoc _ _ _ v u x t f m o ins outs
  end.

(** The outpoint of an input; [None] if the unsigned transaction has no such input. *)
Definition psbt_outpoint (doc : psbt_doc) (index : nat) (in_ : psbt_input) : option point :=
  if doc_version doc =? psbt_version_0
  then in_point <$> Combine.tx_inputs (unsigned_tx doc) !! index
  else Some (default null_hash (previous_txid in_), default 0 (output_index in_)).

(** An input with its output: that of the document, or of the archive. Only witness
    outputs are populated. *)
Definition populate_input (q : archive) (doc : psbt_doc) (index : nat) (in_ : psbt_input) :
    option (psbt_input * option (Z * script)) :=
  match prevout doc index with
  | Some utxo => Some (in_, Some utxo)
  | None =>
      outpoint ← psbt_outpoint doc index in_;
      Some
        match get_output q (to_output q outpoint.1 outpoint.2) with
        | None => (in_, None)
        | Some out => (if is_pay_witness out.2 then set_witness_utxo in_ out else in_, Some out)
        end
  end.

(** The body of the loop over the inputs. *)
Definition update_input (q : archive) (signings_ : list signing) (doc : psbt_doc) (index : nat)
    (in_ : psbt_input) : option psbt_input :=
  '(in_, utxo) ← populate_input q doc index in_;
  Some
    match utxo with
    | None => in_
    | Some out =>
        match find_signing signings_ out.2 with
        | None => in_
        | Some found => set_in_attachments in_ (update_entry (in_attachments in_) found)
        end
    end.

(** The loop, which changes the document in place. *)
Definition update_inputs (q : archive) (signings_ : list signing) (doc : psbt_doc) : option psbt_doc :=
  foldl (λ doc index,
    doc ← doc;
    in_ ← doc_inputs doc !! index;
    in_ ← update_input q signings_ doc index in_;
    Some (set_inputs doc (<[index := in_]> (doc_inputs doc))))
    (Some doc) (seq 0 (length (doc_inputs doc))).

(** The script of an output; no result if the unsigned transaction has no such output. *)
Definition psbt_out_script (doc : psbt_doc) (index : nat) (out : psbt_output) : option (option script) :=
  if doc_version doc =? psbt_version_0
  then (λ out : Z * script, Some out.2) <$> (tx_outputs_of (unsigned_tx doc) !! index)
  else Some (out_script out).

(** The body of the loop over the outputs. *)
Definition update_output (signings_ : list signing) (doc : psbt_doc) (index : nat) (out : psbt_output) :
    option psbt_output :=
  s ← psbt_out_script doc index out;
  Some
    match s with
    | None => out
    | Some s =>
        match find_signing signings_ s with
        | None => out
        | Some found => set_out_attachments out (update_entry (out_attachments out) found)
        end
    end.

Definition update_outputs (signings_ : list signing) (doc : psbt_doc) : option psbt_doc :=
  foldl (λ doc index,
    doc ← doc;
    out ← doc_outputs doc !! index;
    out ← update_output signings_ doc index out;
    Some (set_outputs doc (<[index := out]> (doc_outputs doc))))
    (Some doc) (seq 0 (length (doc_outputs doc))).

Definition update_psbt (q : archive) (signings_ : list signing) (doc : psbt_doc) : option psbt_doc :=
  doc ← update_inputs q signings_ doc;
  update_outputs signings_ doc.

End Update.

(** ** Updates are complete and idempotent *)

Lemma set_inputs_twice `{SignedTransactions} doc a b : set_inputs (set_inputs doc a) b = set_inputs doc b.
Proof. by destruct doc. Qed.

Lemma set_inputs_same `{SignedTransactions} doc : set_inputs doc (doc_inputs doc) = doc.
Proof. by destruct doc. Qed.

Lemma doc_set_inputs `{SignedTransactions} doc ins : doc_inputs (set_inputs doc ins) = ins.
Proof. by destruct doc. Qed.

Lemma set_outputs_twice `{SignedTransactions} doc a b : set_outputs (set_outputs doc a) b = set_outputs doc b.
Proof. by destruct doc. Qed.

Lemma set_outputs_same `{SignedTransactions} doc : set_outputs doc (doc_outputs doc) = doc.
Proof. by destruct doc. Qed.

Lemma doc_set_outputs `{SignedTransactions} doc outs : doc_outputs (set_outputs doc outs) = outs.
Proof. by destruct doc. Qed.

(** The output that a document has for an input is read of that input (not of what an
    update attaches to it), and is the witness output if that is all that it has. *)
Class PsbtsLaws `{Psbts} : Prop := {
  prevout_local doc ins index :
    doc_inputs doc !! index = ins !! index → prevout (set_inputs doc ins) index = prevout doc index;
  prevout_outputs doc outs index : prevout (set_outputs doc outs) index = prevout doc index;
  prevout_attachments doc index in_ att : doc_inputs doc !! index = Some in_ →
    prevout (set_inputs doc (<[index := set_in_attachments in_ att]> (doc_inputs doc))) index =
      prevout doc index;
  prevout_witness doc index in_ out : doc_inputs doc !! index = Some in_ → prevout doc index = None →
    let updated := set_inputs doc (<[index := set_witness_utxo in_ out]> (doc_inputs doc)) in
    prevout updated index = None ∨ prevout updated index = Some out;
}.

(** ** Loops that update a list in place *)

Section InPlace.
Context {D A : Type} (get : D → list A) (set : D → list A → D) (step : D → nat → A → option A).
Context (set_set : ∀ d a b, set (set d a) b = set d b) (set_get : ∀ d, set d (get d) = d)
  (get_set : ∀ d a, get (set d a) = a).

(** The step does not read the other elements. *)
Context (local : ∀ d a index x, get d !! index = a !! index → step (set d a) index x = step d index x).

Definition in_place (doc : D) : option D :=
  foldl (λ doc index,
    doc ← doc;
    x ← get doc !! index;
    x ← step doc index x;
    Some (set doc (<[index := x]> (get doc))))
    (Some doc) (seq 0 (length (get doc))).

Lemma in_place_spec doc :
  (∀ index x, get doc !! index = Some x → is_Some (step doc index x)) →
  ∃ xs, in_place doc = Some (set doc xs) ∧ length xs = length (get doc) ∧
    ∀ index x, get doc !! index = Some x → ∃ x', xs !! index = Some x' ∧ step doc index x = Some x'.
Proof.
  intros Htotal. unfold in_place.
  enough (∀ k, (k <= length (get doc))%nat → ∃ xs,
    foldl (λ doc index, doc ← doc; x ← get doc !! index; x ← step doc index x;
      Some (set doc (<[index := x]> (get doc)))) (Some doc) (seq 0 k) = Some (set doc xs) ∧
    length xs = length (get doc) ∧
    ∀ index x, get doc !! index = Some x → ∃ x', xs !! index = Some x' ∧
      if (index <? k)%nat then step doc index x = Some x' else x' = x) as Hloop.
  { destruct (Hloop (length (get doc)) (le_n _)) as (xs & Hrun & Hlength & Hall). exists xs.
    split_and!; [done..|]. intros index x Hx. destruct (Hall index x Hx) as (x' & Hx' & Hstep).
    exists x'. split; [done|]. apply lookup_lt_Some in Hx.
    by rewrite (proj2 (Nat.ltb_lt _ _) Hx) in Hstep. }
  induction k as [|k IH]; intros Hk.
  { exists (get doc). simpl. rewrite set_get. split_and!; [done..|]. intros index x Hx. by exists x. }
  destruct IH as (xs & Hrun & Hlength & Hall); [lia|].
  destruct (lookup_lt_is_Some_2 (get doc) k ltac:(lia)) as [x Hx].
  destruct (Hall k x Hx) as (x0 & Hx0 & Hsame). rewrite Nat.ltb_irrefl in Hsame. subst x0.
  destruct (Htotal k x Hx) as [x' Hx'].
  exists (<[k := x']> xs). split_and!.
  - rewrite seq_S, foldl_app, Hrun. simpl. rewrite get_set, Hx0. simpl.
    rewrite (local doc xs k x) by by rewrite Hx. rewrite Hx'. simpl. by rewrite set_set.
  - by rewrite length_insert.
  - intros index y Hy. destruct (Hall index y Hy) as (y' & Hy' & Hstep).
    destruct (decide (index = k)) as [->|Hne].
    + rewrite Hx in Hy. injection Hy as <-. exists x'. rewrite list_lookup_insert_eq by (by eapply lookup_lt_Some).
      split; [done|]. by rewrite (proj2 (Nat.ltb_lt k (S k))) by lia.
    + exists y'. rewrite list_lookup_insert_ne by done. split; [done|].
      destruct (Nat.ltb_spec index k), (Nat.ltb_spec index (S k)); (done || lia).
Qed.

(** If each element is as its step makes it, the loop changes nothing. *)
Lemma in_place_fixed doc :
  (∀ index x, get doc !! index = Some x → step doc index x = Some x) → in_place doc = Some doc.
Proof.
  intros Hfixed. destruct (in_place_spec doc) as (xs & -> & Hlength & Hall).
  - intros index x Hx. by rewrite (Hfixed index x Hx).
  - enough (xs = get doc) as -> by by rewrite set_get.
    apply list_eq. intros index. destruct (get doc !! index) as [x|] eqn:Hx.
    + destruct (Hall index x Hx) as (x' & -> & Hstep). rewrite (Hfixed index x Hx) in Hstep. done.
    + apply lookup_ge_None. apply lookup_ge_None in Hx. lia.
Qed.

End InPlace.

Section Derivations.

Lemma elem_of_add_derivations d entry found :
  d ∈ add_derivations entry found ↔ d ∈ entry ∨ d ∈ found.
Proof.
  revert entry. induction found as [|f found IH]; intros entry; simpl; [by set_solver|].
  rewrite IH. case_bool_decide; set_solver.
Qed.

Lemma add_derivations_prefix entry found : entry `prefix_of` add_derivations entry found.
Proof.
  revert entry. induction found as [|f found IH]; intros entry; simpl; [done|].
  etrans; [|apply IH]. case_bool_decide; [done|by apply prefix_app_r].
Qed.

Lemma add_derivations_NoDup entry found : NoDup entry → NoDup (add_derivations entry found).
Proof.
  revert entry. induction found as [|f found IH]; intros entry Hentry; simpl; [done|].
  apply IH. case_bool_decide as Hin; [done|]. apply NoDup_app. split_and!; [done| |apply NoDup_singleton].
  intros x Hx ->%list_elem_of_singleton. done.
Qed.

Lemma add_derivations_known entry found :
  (∀ d, d ∈ found → d ∈ entry) → add_derivations entry found = entry.
Proof.
  induction found as [|f found IH]; intros Hall; simpl; [done|].
  rewrite bool_decide_true by (apply Hall; by left). apply IH. intros d Hd. apply Hall. by right.
Qed.

End Derivations.

Section UpdateProofs.
Context `{SignedTransactions} `{!EqDecision script} `{!Psbts} `{!PsbtsLaws} `{!ScanDescriptors}
  `{!SigningParts} `{!ChainTransactions} `{ChainArchive} `{!TxArchive}.
Context (q : archive) (signings_ : list signing).

(** What an update attaches for the script of an entry. *)
Definition completed (s : option script) (before after : attachments) : Prop :=
  match s ≫= find_signing signings_ with
  | None => after = before
  | Some found =>
      Some (signing_script found) = s ∧
      let parts := signing_attachments found in
      embedded_script after =
        (if embedded_script parts is Some e then Some e else embedded_script before) ∧
      witness_script after =
        (if witness_script parts is Some w then Some w else witness_script before) ∧
      derivations before `prefix_of` derivations after ∧
      (∀ d, d ∈ derivations after ↔ d ∈ derivations before ∨ d ∈ derivations parts) ∧
      (NoDup (derivations before) → NoDup (derivations after))
  end.

Lemma find_signing_script s found : find_signing signings_ s = Some found → signing_script found = s.
Proof. intros (_ & _ & _ & Hs%bool_decide_eq_true & _)%find_first. done. Qed.

Lemma update_entry_completed s found before :
  find_signing signings_ s = Some found → completed (Some s) before (update_entry before found).
Proof.
  intros Hfind. unfold completed. simpl. rewrite Hfind. split; [f_equal; by apply find_signing_script|].
  unfold update_entry. simpl. split_and!; [done|done|apply add_derivations_prefix|intros d; apply elem_of_add_derivations|apply add_derivations_NoDup].
Qed.

Lemma update_entry_twice before found :
  update_entry (update_entry before found) found = update_entry before found.
Proof.
  unfold update_entry. simpl. f_equal.
  - by destruct (embedded_script (signing_attachments found)).
  - by destruct (witness_script (signing_attachments found)).
  - apply add_derivations_known. intros d Hd. apply elem_of_add_derivations. by right.
Qed.

(** Every input and output of a document of version 0 is one of its transaction. *)
Definition psbt_ok (doc : psbt_doc) : Prop :=
  doc_version doc = psbt_version_0 →
  length (Combine.tx_inputs (unsigned_tx doc)) = length (doc_inputs doc) ∧
  length (tx_outputs_of (unsigned_tx doc)) = length (doc_outputs doc).

Lemma populate_input_total doc index in_ :
  psbt_ok doc → doc_inputs doc !! index = Some in_ → is_Some (populate_input q doc index in_).
Proof.
  intros Hok Hin. unfold populate_input, psbt_outpoint. destruct (prevout doc index); [done|].
  destruct (Z.eqb_spec (doc_version doc) psbt_version_0) as [Hversion|]; [|done].
  destruct (Hok Hversion) as [Hlength _]. apply lookup_lt_Some in Hin.
  destruct (lookup_lt_is_Some_2 (Combine.tx_inputs (unsigned_tx doc)) index ltac:(lia)) as [tx_in ->].
  done.
Qed.

(** An updated input: as it is populated, with what its output's script derives. *)
Definition input_updated (doc : psbt_doc) (index : nat) (in_ in' : psbt_input) : Prop :=
  ∃ populated utxo att, populate_input q doc index in_ = Some (populated, utxo) ∧
    in' = set_in_attachments populated att ∧ completed (snd <$> utxo) (in_attachments in_) att.

Lemma set_in_attachments_same in_ : set_in_attachments in_ (in_attachments in_) = in_.
Proof. by destruct in_. Qed.

Lemma set_in_attachments_twice in_ a b :
  set_in_attachments (set_in_attachments in_ a) b = set_in_attachments in_ b.
Proof. by destruct in_. Qed.

Lemma in_attachments_set in_ att : in_attachments (set_in_attachments in_ att) = att.
Proof. by destruct in_. Qed.

Lemma in_attachments_witness in_ out : in_attachments (set_witness_utxo in_ out) = in_attachments in_.
Proof. by destruct in_. Qed.

(** A body of the loop replaces the attachments of what it populates. *)
Lemma update_input_populated doc index in_ populated utxo :
  populate_input q doc index in_ = Some (populated, utxo) →
  update_input q signings_ doc index in_ = Some (set_in_attachments populated
    (if utxo ≫= (λ out, find_signing signings_ out.2) is Some found
     then update_entry (in_attachments populated) found else in_attachments populated)).
Proof.
  intros Hp. unfold update_input. rewrite Hp. simpl. f_equal.
  destruct utxo as [out|]; simpl; [|by rewrite set_in_attachments_same].
  destruct (find_signing signings_ out.2); [done|by rewrite set_in_attachments_same].
Qed.

Lemma populated_attachments doc index in_ populated utxo :
  populate_input q doc index in_ = Some (populated, utxo) →
  in_attachments populated = in_attachments in_.
Proof.
  unfold populate_input. destruct (prevout doc index); [by intros [= <- <-]|].
  destruct (psbt_outpoint doc index in_) as [outpoint|]; [|done]. simpl.
  destruct (get_output _ _) as [out|]; intros Hp; injection Hp as <- <-; [|done].
  destruct (is_pay_witness out.2); [apply in_attachments_witness|done].
Qed.

Lemma update_input_spec doc index in_ :
  psbt_ok doc → doc_inputs doc !! index = Some in_ →
  ∃ in', update_input q signings_ doc index in_ = Some in' ∧ input_updated doc index in_ in'.
Proof.
  intros Hok Hin. destruct (populate_input_total doc index in_ Hok Hin) as [[populated utxo] Hp].
  rewrite (update_input_populated _ _ _ _ _ Hp). eexists. split; [done|].
  exists populated, utxo. eexists. split_and!; [done..|].
  rewrite (populated_attachments _ _ _ _ _ Hp). destruct utxo as [out|]; simpl; [|done].
  destruct (find_signing signings_ out.2) as [found|] eqn:Hfind; [by apply update_entry_completed|].
  unfold completed. simpl. by rewrite Hfind.
Qed.

(** The output of an updated input in any document that has it at the same index. *)
Lemma prevout_updated doc ins outs index in_ in' :
  doc_inputs doc !! index = Some in_ → ins !! index = Some in' →
  prevout (set_outputs (set_inputs doc ins) outs) index =
    prevout (set_inputs doc (<[index := in']> (doc_inputs doc))) index.
Proof.
  intros Hin Hin'. rewrite prevout_outputs.
  rewrite <-(set_inputs_twice doc (<[index := in']> (doc_inputs doc)) ins). apply prevout_local.
  rewrite doc_set_inputs, list_lookup_insert_eq by (by eapply lookup_lt_Some). done.
Qed.

Lemma psbt_outpoint_updated doc ins outs index in_ att (out : option (Z * script)) :
  psbt_outpoint (set_outputs (set_inputs doc ins) outs) index
    (set_in_attachments (if out is Some out then set_witness_utxo in_ out else in_) att) =
  psbt_outpoint doc index in_.
Proof. by destruct doc, in_, out. Qed.

Lemma update_input_fixed doc ins outs index in_ in' :
  doc_inputs doc !! index = Some in_ → update_input q signings_ doc index in_ = Some in' →
  ins !! index = Some in' →
  update_input q signings_ (set_outputs (set_inputs doc ins) outs) index in' = Some in'.
Proof.
  intros Hin Hupdate Hin'.
  destruct (populate_input q doc index in_) as [[populated utxo]|] eqn:Hp;
    [|by unfold update_input in Hupdate; rewrite Hp in Hupdate].
  rewrite (update_input_populated _ _ _ _ _ Hp) in Hupdate. injection Hupdate as Hupdate.
  pose proof (prevout_updated doc ins outs index in_ in' Hin Hin') as Hprevout.
  enough (populate_input q (set_outputs (set_inputs doc ins) outs) index in' = Some (in', utxo)) as Hp'.
  { rewrite (update_input_populated _ _ _ _ _ Hp'). f_equal. rewrite <-Hupdate.
    rewrite in_attachments_set, set_in_attachments_twice. f_equal.
    destruct (utxo ≫= _); [apply update_entry_twice|done]. }
  revert Hupdate. generalize (if utxo ≫= (λ out, find_signing signings_ out.2) is Some found
    then update_entry (in_attachments populated) found else in_attachments populated) as att.
  intros att Hupdate.
  unfold populate_input. rewrite Hprevout, <-Hupdate. unfold populate_input in Hp.
  destruct (prevout doc index) as [u|] eqn:Hu.
  { injection Hp as <- <-. by rewrite (prevout_attachments doc index in_ _ Hin), Hu. }
  destruct (psbt_outpoint doc index in_) as [outpoint|] eqn:Hpoint; [|done]. simpl in Hp.
  destruct (get_output q _) as [out|] eqn:Hout.
  2:{ injection Hp as <- <-. rewrite (prevout_attachments doc index in_ _ Hin), Hu.
      rewrite (psbt_outpoint_updated doc ins outs index in_ att None), Hpoint. simpl. by rewrite Hout. }
  destruct (is_pay_witness out.2) eqn:Hpay; injection Hp as <- <-.
  2:{ rewrite (prevout_attachments doc index in_ _ Hin), Hu.
      rewrite (psbt_outpoint_updated doc ins outs index in_ att None), Hpoint. simpl. by rewrite Hout, Hpay. }
  pose proof (prevout_witness doc index in_ out Hin Hu) as Hwitness. cbv zeta in Hwitness.
  set (doc1 := set_inputs doc (<[index := set_witness_utxo in_ out]> (doc_inputs doc))) in *.
  assert (doc_inputs doc1 !! index = Some (set_witness_utxo in_ out)) as Hin1.
  { unfold doc1. rewrite doc_set_inputs, list_lookup_insert_eq by (by eapply lookup_lt_Some). done. }
  pose proof (prevout_attachments doc1 index _ att Hin1) as Hatt.
  unfold doc1 in Hatt at 1 2. rewrite set_inputs_twice, doc_set_inputs, list_insert_insert_eq in Hatt.
  rewrite Hatt. destruct Hwitness as [-> | ->]; [|done].
  rewrite (psbt_outpoint_updated doc ins outs index in_ att (Some out)), Hpoint. simpl.
  rewrite Hout, Hpay. do 2 f_equal. by destruct in_.
Qed.
End UpdateProofs.

(** ** Json of documents *)

Section Json.
Context `{Text}.

Definition sighash_name (type : Z) : string :=
  let masked := Z.land type 3 in
  let name := if masked =? 0 then "DEFAULT" else if masked =? 1 then "ALL"
              else if masked =? 2 then "NONE" else "SINGLE" in
  if negb (Z.land type 128 =? 0) then name +:+ "|ANYONECANPAY" else name.

Definition hardened : Z := 2 ^ 31.

(** An index of a path, of 32 bits. *)
Definition path_part (index : Z) : string :=
  "/" +:+ to_decimal (Z.land index (2 ^ 32 - 1 - hardened)) +:+
  (if negb (Z.land index hardened =? 0) then "'" else "").

Definition to_key_path (path : list Z) : string :=
  foldl (λ out index, out +:+ path_part index) "m" path.

Definition to_unknown (entries : list (data_chunk * data_chunk)) : object :=
  foldl (λ out entry, try_emplace (encode_base16 entry.1) (string_t (encode_base16 entry.2)) out)
    [] entries.

Definition to_derivations (derivations_ : list derivation) : array :=
  (λ derived, object_t
    [("pubkey", string_t (encode_base16 (derived_point derived)));
     ("master_fingerprint", string_t (encode_base16 (to_little_endian 4 (fingerprint derived))));
     ("path", string_t (to_key_path (key_path derived)))]) <$> derivations_.

(** [out.emplace(key, value)] of an optional value. *)
Definition emplace_some (key : string) (v : option value_t) (out : object) : object :=
  match v with
  | Some v => try_emplace key v out
  | None => out
  end.

(** [if (!values.empty()) out.emplace(key, value)]. *)
Definition emplace_filled {A} (key : string) (values : list A) (v : value_t) (out : object) : object :=
  if (length values =? 0)%nat then out else try_emplace key v out.

Context `{DescriptorScripts} `{!MultisigScripts} `{!SignedTransactions} `{ChainArchive} `{!TxArchive}.
Context (p2kh p2sh : Z) (witness : string).

(** The json that the system library makes of a transaction, of a script, and of an
    input script. *)
Context (tx_model : signed_tx → block_tx * object) (script_model signature_model : script → object).

(** [None] if the json of the system library has not the expected shape. *)
Definition decode_psbt_input (in_ : psbt_input) : option object :=
  entry ←
    match non_witness_utxo in_ with
    | None => Some []
    | Some tx =>
        let '(view, utxo) := tx_model tx in
        utxo ← inject_tx_scripts p2kh p2sh witness view utxo;
        Some (try_emplace "non_witness_utxo" (object_t utxo) [])
    end;
  let entry := emplace_some "witness_utxo" ((λ out : Z * script, object_t
    [("amount", number_t (bitcoins out.1));
     ("scriptPubKey", to_script_public_key p2kh p2sh witness script_model out.2)])
    <$> witness_utxo in_) entry in
  let entry := emplace_filled "partial_signatures" (partial_signatures in_)
    (object_t (to_unknown (partial_signatures in_))) entry in
  let entry := emplace_some "sighash" (string_t ∘ sighash_name <$> sighash_type in_) entry in
  let parts := in_attachments in_ in
  let entry := emplace_some "redeem_script" (object_t ∘ script_model <$> embedded_script parts) entry in
  let entry := emplace_some "witness_script" (object_t ∘ script_model <$> witness_script parts) entry in
  let entry := emplace_filled "bip32_derivs" (derivations parts)
    (array_t (to_derivations (derivations parts))) entry in
  let entry := emplace_some "final_scriptSig"
    (object_t ∘ signature_model <$> final_script_sig in_) entry in
  let entry := emplace_some "final_scriptwitness"
    ((λ stack, array_t (string_t ∘ encode_base16 <$> stack)) <$> final_script_witness in_) entry in
  let entry := emplace_some "previous_txid" (string_t ∘ encode_hash <$> previous_txid in_) entry in
  let entry := emplace_some "output_index" (uint32_t <$> output_index in_) entry in
  let entry := emplace_some "sequence" (uint32_t <$> psbt_sequence in_) entry in
  let entry := emplace_some "time_locktime" (uint32_t <$> required_time_locktime in_) entry in
  let entry := emplace_some "height_locktime" (uint32_t <$> required_height_locktime in_) entry in
  Some (emplace_filled "unknown" (in_others in_) (object_t (to_unknown (in_others in_))) entry).

Definition decode_psbt_output (out : psbt_output) : object :=
  let parts := out_attachments out in
  let entry := emplace_some "redeem_script" (object_t ∘ script_model <$> embedded_script parts) [] in
  let entry := emplace_some "witness_script" (object_t ∘ script_model <$> witness_script parts) entry in
  let entry := emplace_filled "bip32_derivs" (derivations parts)
    (array_t (to_derivations (derivations parts))) entry in
  let entry := emplace_some "amount" (number_t ∘ bitcoins <$> out_amount out) entry in
  let entry := emplace_some "script"
    (to_script_public_key p2kh p2sh witness script_model <$> out_script out) entry in
  emplace_filled "unknown" (out_others out) (object_t (to_unknown (out_others out))) entry.

End Json.

(** ** Methods *)

Section Methods.
Context `{Text} `{SizeMath} `{Integers} `{DescriptorScripts} `{!TransactionScripts} `{!MultisigScripts}
  `{!SignedTransactions} `{!EqDecision script} `{!ChainTransactions} `{!Psbts} `{!ScanDescriptors}
  `{!SigningParts} `{ChainArchive} `{!TxArchive}.
Context (p2kh p2sh : Z) (witness : string) (maximum_money : Z).
Context (raw_chain_tx : raw_transaction → signed_tx).
Context (tx_model : signed_tx → block_tx * object) (script_model signature_model : script → object).

(** [encode_base58] of a key with its appended checksum. *)
Context (encode_xpub : data_chunk → string).

(** The weight of a transaction, and [light_weight_factor]. *)
Context (tx_weight : signed_tx → Z) (light_weight_factor : Z) (ceilinged_divide : Z → Z → Z).

(** The keys of an input that have not signed it. *)
Definition unsigned_keys (in_ : psbt_input) : list data_chunk :=
  filter (λ point, point ∉ (partial_signatures in_).*1) (derived_point <$> derivations (in_attachments in_)).

(** The body of the loop over the inputs. *)
Definition analyze_input (doc : psbt_doc) (index : nat) (in_ : psbt_input) : object :=
  let utxo := bool_decide (is_Some (prevout doc index)) in
  let entry := [("has_utxo", boolean_t utxo); ("is_final", boolean_t (input_is_final in_))] in
  if input_is_final in_ then entry
  else
    let keys := unsigned_keys in_ in
    let entry := emplace_filled "missing" keys
      (object_t [("signatures", array_t (string_t ∘ encode_base16 <$> keys))]) entry in
    try_emplace "next" (string_t (if utxo then "signer" else "updater")) entry.

Definition handle_analyze_psbt (stopped : bool) (psbt : string) : handled :=
  if stopped then (false, [])
  else
    match read_psbt psbt with
    | None => failed BitcoindError.deserialization_error
    | Some doc =>
        let missing_utxo := existsb (λ index, negb (bool_decide (is_Some (prevout doc index))))
          (seq 0 (length (doc_inputs doc))) in
        let ins := imap (λ index in_, object_t (analyze_input doc index in_)) (doc_inputs doc) in
        let fee := psbt_fee doc in
        let result := emplace_some "fee" (number_t ∘ bitcoins <$> fee) [("inputs", array_t ins)] in
        let result :=
          if psbt_is_final doc then
            let vsize := ceilinged_divide (tx_weight (psbt_extract doc)) light_weight_factor in
            let result := try_emplace "estimated_vsize" (uint64_t vsize) result in
            let result := emplace_some "estimated_feerate"
              (if vsize =? 0 then None
               else (λ fee, number_t (PrimFloat.div
                 (bitcoins (fee * 1000 mod 2 ^ 64)) (to_floating vsize))) <$> fee) result in
            try_emplace "next" (string_t "extractor") result
          else try_emplace "next" (string_t (if missing_utxo then "updater" else "signer")) result in
        replied (reply_value (object_t result))
    end.

(** The loops of combine and join over the texts, from a document or none. *)
Fixpoint merge_docs (merge : psbt_doc → psbt_doc → option psbt_doc) (merged : option psbt_doc)
    (items : array) : BitcoindError.error_t + option psbt_doc :=
  match items with
  | [] => inr merged
  | string_t text :: items =>
      match read_psbt text with
      | None => inl BitcoindError.deserialization_error
      | Some doc =>
          match merged with
          | None => merge_docs merge (Some doc) items
          | Some before =>
              match merge before doc with
              | None => inl BitcoindError.invalid_parameter
              | Some after => merge_docs merge (Some after) items
              end
          end
      end
  | _ :: _ => inl BitcoindError.type_error
  end.

Definition handle_combine_psbt (stopped : bool) (txs : array) : handled :=
  if stopped then (false, [])
  else
    match merge_docs psbt_combine None txs with
    | inl e => failed e
    | inr None => failed BitcoindError.invalid_parameter
    | inr (Some combined) => replied (reply_value (string_t (psbt_text combined)))
    end.

(** [None] is the text of an empty document, which two or more texts do not leave. *)
Definition handle_join_psbts (stopped : bool) (txs : array) : option handled :=
  if stopped then Some (false, [])
  else if (length txs <? 2)%nat then Some (failed BitcoindError.invalid_parameter)
  else
    match merge_docs psbt_join None txs with
    | inl e => Some (failed e)
    | inr None => None
    | inr (Some joined) => Some (replied (reply_value (string_t (psbt_text joined))))
    end.

(** Construction is bip174 (version 0) or bip370 (version 2). *)
Definition to_document (psbt_version : double) : option Z :=
  match to_uint32 psbt_version with
  | Some document =>
      if (document =? psbt_version_0) || (document =? psbt_version_2) then Some document else None
  | None => None
  end.

Definition is_signed (in_ : input) : bool :=
  negb (length (script_ops (in_script in_)) =? 0)%nat || negb (length (in_witness in_) =? 0)%nat.

(** A transaction without signature data. *)
Definition strip (tx : signed_tx) : signed_tx :=
  make_tx (tx_version_of tx)
    ((λ in_, Input _ (in_point in_) (script_of []) [] (in_sequence in_)) <$> Combine.tx_inputs tx)
    (tx_outputs_of tx) (tx_lock_time_of tx).

Definition send_psbt (tx : signed_tx) (document : Z) : handled :=
  match make_psbt tx document with
  | None => failed BitcoindError.deserialization_error
  | Some doc => replied (reply_value (string_t (psbt_text doc)))
  end.

Definition handle_convert_to_psbt (stopped : bool) (hexstring : string) (permitsigdata : bool)
    (iswitness : option bool) (psbt_version : double) : handled :=
  if stopped then (false, [])
  else
    match to_document psbt_version with
    | None => failed BitcoindError.invalid_parameter
    | Some document =>
        match decode_base16 hexstring with
        | None => failed BitcoindError.deserialization_error
        | Some data =>
            match read_hinted data iswitness with
            | None => failed BitcoindError.deserialization_error
            | Some tx =>
                if existsb is_signed (Combine.tx_inputs tx) then
                  if permitsigdata then send_psbt (strip tx) document
                  else failed BitcoindError.deserialization_error
                else send_psbt tx document
            end
        end
    end.

Definition handle_create_psbt (stopped : bool) (inputs : array) (outputs : value_t)
    (locktime : double) (replaceable : bool) (version psbt_version : double) : handled :=
  if stopped then (false, [])
  else
    match to_document psbt_version with
    | None => failed BitcoindError.invalid_parameter
    | Some document =>
        match parse_transaction p2kh p2sh witness maximum_money inputs outputs locktime replaceable version with
        | inl fault => replied (reply_error fault None)
        | inr tx => send_psbt (raw_chain_tx tx) document
        end
    end.

Definition xpub_entry (key : derivation) : value_t :=
  object_t
    [("xpub", string_t (encode_xpub (derived_point key)));
     ("master_fingerprint", string_t (encode_base16 (to_little_endian 4 (fingerprint key))));
     ("path", string_t (to_key_path (key_path key)))].

(** The json of a document; [None] if that of the system library has not the expected
    shape. The hex of the transaction is omitted. *)
Definition decode_doc (doc : psbt_doc) : option object :=
  let version0 := doc_version doc =? psbt_version_0 in
  result ←
    (if version0 then
       let '(view, tx) := tx_model (unsigned_tx doc) in
       tx ← inject_tx_scripts p2kh p2sh witness view tx;
       Some (try_emplace "tx" (object_t (erase_field "hex" tx)) [])
     else Some []);
  let result := emplace_filled "global_xpubs" (xpubs doc) (array_t (xpub_entry <$> xpubs doc)) result in
  let result := try_emplace "psbt_version" (uint32_t (doc_version doc)) result in
  let result :=
    if version0 then result
    else
      let result := try_emplace "tx_version" (uint32_t (doc_tx_version doc)) result in
      let result := emplace_some "fallback_locktime" (uint32_t <$> fallback_locktime doc) result in
      emplace_some "tx_modifiable" (uint8_t <$> tx_modifiable doc) result in
  let result := emplace_filled "unknown" (doc_others doc) (object_t (to_unknown (doc_others doc))) result in
  ins ← mapM (decode_psbt_input p2kh p2sh witness tx_model script_model signature_model) (doc_inputs doc);
  let outs := decode_psbt_output p2kh p2sh witness script_model <$> doc_outputs doc in
  let result := try_emplace "inputs" (array_t (object_t <$> ins)) result in
  let result := try_emplace "outputs" (array_t (object_t <$> outs)) result in
  Some (emplace_some "fee" (number_t ∘ bitcoins <$> psbt_fee doc) result).

Definition handle_decode_psbt (stopped : bool) (psbt : string) : option handled :=
  if stopped then Some (false, [])
  else
    match read_psbt psbt with
    | None => Some (failed BitcoindError.deserialization_error)
    | Some doc =>
        result ← decode_doc doc;
        Some (replied (reply_value (object_t result)))
    end.

Definition handle_finalize_psbt (stopped : bool) (psbt : string) (extract : bool) : handled :=
  if stopped then (false, [])
  else
    match read_psbt psbt with
    | None => failed BitcoindError.deserialization_error
    | Some doc =>
        let '(complete, doc) := psbt_finalize doc in
        let result :=
          if complete && extract
          then [("hex", string_t (encode_base16 (tx_to_data true (psbt_extract doc))))]
          else [("psbt", string_t (psbt_text doc))] in
        replied (reply_value (object_t (try_emplace "complete" (boolean_t complete) result)))
    end.

Definition handle_descriptor_process_psbt (stopped : bool) : handled :=
  if stopped then (false, []) else failed BitcoindError.method_not_found.

(** The loop over the descriptors: their expansions, or a fault; no result if the fuel
    is spent. *)
Fixpoint expand_signings (fuel : nat) (signings_ : list signing) (descriptors : array) :
    option (option (list signing)) :=
  match descriptors with
  | [] => Some (Some signings_)
  | item :: descriptors =>
      match expand_scan_signings fuel signings_ item with
      | None => None
      | Some (false, _) => Some None
      | Some (true, signings_) => expand_signings fuel signings_ descriptors
      end
  end.

(** [None] if the fuel is spent or a document is not well formed. *)
Definition handle_utxo_update_psbt (fuel : nat) (q : archive) (stopped : bool) (psbt : string)
    (descriptors : array) : option handled :=
  if stopped then Some (false, [])
  else
    signings_ ← expand_signings fuel [] descriptors;
    match signings_ with
    | None => Some (failed BitcoindError.invalid_address_or_key)
    | Some signings_ =>
        match read_psbt psbt with
        | None => Some (failed BitcoindError.deserialization_error)
        | Some doc =>
            doc ← update_psbt q signings_ doc;
            Some (replied (reply_value (string_t (psbt_text doc))))
        end
    end.

End Methods.

(** ** Updates of documents *)

Section UpdatedDocs.
Context `{SignedTransactions} `{!EqDecision script} `{!Psbts} `{!PsbtsLaws} `{!ScanDescriptors}
  `{!SigningParts} `{!ChainTransactions} `{ChainArchive} `{!TxArchive}.
Context (q : archive) (signings_ : list signing).

Definition output_updated (doc : psbt_doc) (index : nat) (out out' : psbt_output) : Prop :=
  ∃ s att, psbt_out_script doc index out = Some s ∧ out' = set_out_attachments out att ∧
    completed signings_ s (out_attachments out) att.

Lemma update_output_eq doc index out s :
  psbt_out_script doc index out = Some s →
  update_output signings_ doc index out = Some (set_out_attachments out
    (if s ≫= find_signing signings_ is Some found
     then update_entry (out_attachments out) found else out_attachments out)).
Proof.
  intros Hs. unfold update_output. rewrite Hs. simpl. f_equal. destruct s as [s|]; simpl; [|by destruct out].
  destruct (find_signing signings_ s); [done|by destruct out].
Qed.

Lemma update_output_spec doc index out :
  psbt_ok doc → doc_outputs doc !! index = Some out →
  ∃ out', update_output signings_ doc index out = Some out' ∧ output_updated doc index out out'.
Proof.
  intros Hok Hout. assert (is_Some (psbt_out_script doc index out)) as [s Hs].
  { unfold psbt_out_script. destruct (Z.eqb_spec (doc_version doc) psbt_version_0) as [Hversion|]; [|done].
    destruct (Hok Hversion) as [_ Hlength]. apply lookup_lt_Some in Hout.
    destruct (lookup_lt_is_Some_2 (tx_outputs_of (unsigned_tx doc)) index ltac:(lia)) as [o ->]. done. }
  rewrite (update_output_eq _ _ _ _ Hs). eexists. split; [done|]. exists s. eexists. split_and!; [done..|].
  destruct s as [s|]; simpl; [|done].
  destruct (find_signing signings_ s) as [found|] eqn:Hfind; [by apply update_entry_completed|].
  unfold completed. simpl. by rewrite Hfind.
Qed.

Lemma update_output_fixed doc index out out' :
  update_output signings_ doc index out = Some out' → update_output signings_ doc index out' = Some out'.
Proof.
  intros Hupdate. destruct (psbt_out_script doc index out) as [s|] eqn:Hs;
    [|by unfold update_output in Hupdate; rewrite Hs in Hupdate].
  rewrite (update_output_eq _ _ _ _ Hs) in Hupdate. injection Hupdate as <-.
  rewrite (update_output_eq _ _ _ s) by done. f_equal. unfold set_out_attachments. simpl. f_equal.
  destruct (s ≫= find_signing signings_); [apply update_entry_twice|done].
Qed.

Lemma update_inputs_spec doc :
  psbt_ok doc →
  ∃ ins, update_inputs q signings_ doc = Some (set_inputs doc ins) ∧
    length ins = length (doc_inputs doc) ∧
    ∀ index in_, doc_inputs doc !! index = Some in_ → ∃ in', ins !! index = Some in' ∧
      update_input q signings_ doc index in_ = Some in'.
Proof.
  intros Hok. apply (in_place_spec doc_inputs set_inputs (update_input q signings_)).
  - apply set_inputs_twice.
  - apply set_inputs_same.
  - apply doc_set_inputs.
  - intros d a index x Hlocal. unfold update_input, populate_input.
    rewrite (prevout_local d a index Hlocal). by destruct d.
  - intros index in_ Hin. destruct (update_input_spec q signings_ doc index in_ Hok Hin) as (? & -> & _). done.
Qed.

Lemma update_outputs_spec doc :
  psbt_ok doc →
  ∃ outs, update_outputs signings_ doc = Some (set_outputs doc outs) ∧
    length outs = length (doc_outputs doc) ∧
    ∀ index out, doc_outputs doc !! index = Some out → ∃ out', outs !! index = Some out' ∧
      update_output signings_ doc index out = Some out'.
Proof.
  intros Hok. apply (in_place_spec doc_outputs set_outputs (update_output signings_)).
  - apply set_outputs_twice.
  - apply set_outputs_same.
  - apply doc_set_outputs.
  - intros d a index x _. by destruct d.
  - intros index out Hout. destruct (update_output_spec doc index out Hok Hout) as (? & -> & _). done.
Qed.

Lemma update_inputs_fixed doc :
  (∀ index in_, doc_inputs doc !! index = Some in_ → update_input q signings_ doc index in_ = Some in_) →
  update_inputs q signings_ doc = Some doc.
Proof.
  apply (in_place_fixed doc_inputs set_inputs (update_input q signings_)).
  - apply set_inputs_twice.
  - apply set_inputs_same.
  - apply doc_set_inputs.
  - intros d a index x Hlocal. unfold update_input, populate_input.
    rewrite (prevout_local d a index Hlocal). by destruct d.
Qed.

Lemma update_outputs_fixed doc :
  (∀ index out, doc_outputs doc !! index = Some out → update_output signings_ doc index out = Some out) →
  update_outputs signings_ doc = Some doc.
Proof.
  apply (in_place_fixed doc_outputs set_outputs (update_output signings_)).
  - apply set_outputs_twice.
  - apply set_outputs_same.
  - apply doc_set_outputs.
  - intros d a index x _. by destruct d.
Qed.

End UpdatedDocs.

(** ** Key paths *)

(** Texts that begin with digits, and end before another character. *)
Definition no_digit (s : string) : Prop :=
  match s with EmptyString => True | String c _ => is_digit c = false end.

Lemma digits_app_inj a b s t :
  all_chars is_digit a = true → all_chars is_digit b = true → no_digit s → no_digit t →
  a +:+ s = b +:+ t → a = b ∧ s = t.
Proof.
  revert b. induction a as [|c a IH]; intros [|d b]; simpl; intros Ha Hb Hs Ht Heq.
  - done.
  - apply andb_true_iff in Hb as [Hd _]. destruct s; [done|]. injection Heq as -> _. simpl in Hs. congruence.
  - apply andb_true_iff in Ha as [Hc _]. destruct t; [done|]. injection Heq as -> _. simpl in Ht. congruence.
  - apply andb_true_iff in Ha as [_ Ha]. apply andb_true_iff in Hb as [_ Hb]. injection Heq as -> Heq.
    destruct (IH b Ha Hb Hs Ht Heq) as [-> ->]. done.
Qed.

Lemma to_decimal_digits n : 0 <= n → all_chars is_digit (to_decimal n) = true.
Proof.
  intros Hn. unfold to_decimal. destruct n as [|n|n]; [done| |lia].
  change (all_chars is_digit (pretty_N_go (N.pos n) "") = true). by rewrite pretty_go_digits.
Qed.

(** The parts of a path, one after another. *)
Definition path_parts (path : list Z) : string := foldr (λ index s, path_part index +:+ s) "" path.

Lemma to_key_path_parts path : to_key_path path = "m" +:+ path_parts path.
Proof.
  unfold to_key_path. enough (∀ out, foldl (λ out index, out +:+ path_part index) out path =
    out +:+ path_parts path) as Hall by apply Hall.
  induction path as [|index path IH]; intros out; simpl; [by rewrite string_app_nil|].
  by rewrite IH, string_app_assoc.
Qed.

Lemma path_index_bits index :
  0 <= index < 2 ^ 32 →
  Z.land index (2 ^ 32 - 1 - hardened) = index mod 2 ^ 31 ∧
  (Z.land index hardened =? 0) = (index <? 2 ^ 31).
Proof.
  intros Hindex. unfold hardened. change (2 ^ 32 - 1 - 2 ^ 31) with (Z.ones 31).
  rewrite Z.land_ones by lia. split; [done|].
  pose proof (Z.testbit_spec' index 31 ltac:(lia)) as Hbit.
  assert (Z.land index (2 ^ 31) = if Z.testbit index 31 then 2 ^ 31 else 0) as ->.
  { apply Z.bits_inj'. intros n Hn. rewrite Z.land_spec, Z.pow2_bits_eqb by lia.
    destruct (Z.eqb_spec 31 n) as [<-|Hne].
    - destruct (Z.testbit index 31); rewrite ?Z.pow2_bits_true, ?Z.bits_0; done.
    - rewrite andb_false_r. destruct (Z.testbit index 31); [by rewrite Z.pow2_bits_false by lia|by rewrite Z.bits_0]. }
  destruct (Z.ltb_spec index (2 ^ 31)) as [Hlow|Hhigh].
  - rewrite Z.div_small in Hbit by lia. by destruct (Z.testbit index 31).
  - assert (index / 2 ^ 31 = 1) as Hone by (symmetry; apply (Z.div_unique _ _ _ (index - 2 ^ 31)); lia).
    rewrite Hone in Hbit. by destruct (Z.testbit index 31).
Qed.

Definition path_mark (index : Z) : string := if index <? 2 ^ 31 then "" else "'".

Lemma path_part_eq index :
  0 <= index < 2 ^ 32 →
  path_part index = "/" +:+ (to_decimal (index mod 2 ^ 31) +:+ path_mark index).
Proof.
  intros Hindex. destruct (path_index_bits index Hindex) as [Hmod Hbit].
  unfold path_part, path_mark. rewrite Hmod, Hbit. by destruct (index <? 2 ^ 31).
Qed.

Lemma path_parts_start path : path_parts path = "" ∨ ∃ s, path_parts path = String "/" s.
Proof. destruct path as [|index path]; [by left|right]. simpl. unfold path_part. by eexists. Qed.

Lemma path_parts_inj path path' :
  Forall (λ index, 0 <= index < 2 ^ 32) path → Forall (λ index, 0 <= index < 2 ^ 32) path' →
  path_parts path = path_parts path' → path = path'.
Proof.
  intros Hpath. revert path'. induction Hpath as [|i path Hi Hpath IH]; intros path' Hpath' Heq.
  { by destruct path' as [|j path']; [|cbn in Heq; unfold path_part in Heq]. }
  destruct Hpath' as [|j path' Hj Hpath']; [cbn in Heq; unfold path_part in Heq; done|].
  cbn [path_parts foldr] in Heq. fold (path_parts path) (path_parts path') in Heq.
  rewrite !path_part_eq, <-!string_app_assoc in Heq by done. cbn in Heq. injection Heq as Heq.
  apply (digits_app_inj (to_decimal (i mod 2 ^ 31)) (to_decimal (j mod 2 ^ 31))
    (path_mark i +:+ path_parts path) (path_mark j +:+ path_parts path')) in Heq as [Hdigits Hrest].
  - assert (path_mark i = path_mark j ∧ path_parts path = path_parts path') as [Hmark Hparts].
    { unfold path_mark in *. destruct (i <? 2 ^ 31), (j <? 2 ^ 31); cbn in Hrest.
      - done.
      - by destruct (path_parts_start path) as [Hp|[? Hp]]; rewrite Hp in Hrest.
      - by destruct (path_parts_start path') as [Hp|[? Hp]]; rewrite Hp in Hrest.
      - by injection Hrest. }
    f_equal; [|by apply IH]. unfold to_decimal in Hdigits.
    apply (inj pretty) in Hdigits. unfold path_mark in Hmark.
    pose proof (Z.div_mod i (2 ^ 31) ltac:(lia)) as Hdi. pose proof (Z.div_mod j (2 ^ 31) ltac:(lia)) as Hdj.
    assert (i / 2 ^ 31 = j / 2 ^ 31); [|congruence].
    assert (∀ k, 0 <= k < 2 ^ 32 → k / 2 ^ 31 = if k <? 2 ^ 31 then 0 else 1) as Hdiv.
    { intros k Hk. destruct (Z.ltb_spec k (2 ^ 31)); [apply Z.div_small; lia|].
      symmetry. apply (Z.div_unique _ _ _ (k - 2 ^ 31)); lia. }
    rewrite !Hdiv by done. by destruct (i <? 2 ^ 31), (j <? 2 ^ 31).
  - apply to_decimal_digits, Z.mod_pos_bound. lia.
  - apply to_decimal_digits, Z.mod_pos_bound. lia.
  - unfold path_mark. destruct (i <? 2 ^ 31); [|done]. by destruct (path_parts_start path) as [->|[? ->]].
  - unfold path_mark. destruct (j <? 2 ^ 31); [|done]. by destruct (path_parts_start path') as [->|[? ->]].
Qed.

(** ** Example: an input without its output *)

#[local] Existing Instance reference_text.
#[local] Existing Instance reference_sizes.
#[local] Existing Instance BitcoindBlockchain.example_chain.
#[local] Existing Instance Combine.example_scripts.
#[local] Existing Instance Combine.example_multisig.
#[local] Existing Instance Combine.example_signed.
#[local] Existing Instance Combine.example_txs.
#[local] Existing Instance BitcoindTransaction.example_transactions.

#[local] Instance example_script_eq_dec : EqDecision script.
Proof. intros s t. change (Decision ((s : list Z) = t)). apply _. Defined.

Definition example_psbt_input : psbt_input :=
  PsbtInput _ _ _ None None [] None (Attachments _ None None []) None None (Some [1]) (Some 0)
    None None None [].

Definition example_doc : psbt_doc :=
  PsbtDoc _ _ _ 2 [] [] 2 None None [] [example_psbt_input] [].

#[local] Instance example_psbts : Psbts := {
  psbt_version_0 := 0;
  psbt_version_2 := 2;
  read_psbt text := if text == "psbt" then Some example_doc else None;
  make_psbt _ _ := None;
  psbt_text _ := "psbt";
  prevout doc index := doc_inputs doc !! index ≫= witness_utxo;
  input_is_final _ := false;
  psbt_is_final _ := false;
  psbt_fee _ := None;
  psbt_extract doc := unsigned_tx doc;
  psbt_finalize doc := (false, doc);
  psbt_combine _ _ := None;
  psbt_join _ _ := None;
  is_pay_witness _ := true;
}.

#[local] Instance example_psbts_laws : PsbtsLaws.
Proof.
  split.
  - intros doc ins index Hlocal. cbn. by rewrite doc_set_inputs, Hlocal.
  - intros doc outs index. by destruct doc.
  - intros doc index in_ att Hin. cbn. rewrite doc_set_inputs, list_lookup_insert_eq, Hin by (by eapply lookup_lt_Some).
    by destruct in_.
  - intros doc index in_ out Hin _. right. cbn.
    rewrite doc_set_inputs, list_lookup_insert_eq by (by eapply lookup_lt_Some). by destruct in_.
Qed.

#[local] Instance example_wallet : ScanDescriptors := {
  wallet_descriptor := unit;
  to_descriptor _ := Some ();
  ranged _ := false;
  signing := script;
  signings _ _ := [Combine.example_pay];
  signing_script s := s;
}.

Definition example_derivation : derivation := Derivation [10] 7 [2 ^ 31 + 84; 0].

#[local] Instance example_parts : SigningParts := {
  signing_attachments s := Attachments _ None (Some s) [example_derivation];
}.

(** ** Properties *)

(** C4: an update completes a document and nothing else. Every input gets its output
    if the document lacks it and the archive has it (written if it is of a witness
    program), and the scripts and derivations of the first expansion that derives the
    script of that output; every output gets those of its script. Attached derivations
    keep what was there before them and do not repeat. An update of the updated
    document changes nothing. *)
Theorem update_psbt_correct `{SignedTransactions} `{!EqDecision script} `{!Psbts} `{!PsbtsLaws}
    `{!ScanDescriptors} `{!SigningParts} `{!ChainTransactions} `{ChainArchive} `{!TxArchive}
    q signings_ doc :
  psbt_ok doc →
  ∃ ins outs, let doc' := set_outputs (set_inputs doc ins) outs in
    update_psbt q signings_ doc = Some doc' ∧
    length ins = length (doc_inputs doc) ∧ length outs = length (doc_outputs doc) ∧
    (∀ index in_, doc_inputs doc !! index = Some in_ →
      ∃ in', ins !! index = Some in' ∧ input_updated q signings_ doc index in_ in') ∧
    (∀ index out, doc_outputs doc !! index = Some out →
      ∃ out', outs !! index = Some out' ∧ output_updated signings_ doc index out out') ∧
    update_psbt q signings_ doc' = Some doc'.
Proof.
  intros Hok. destruct (update_inputs_spec q signings_ doc Hok) as (ins & Hins & Hlength & Hall).
  set (doc1 := set_inputs doc ins).
  assert (psbt_ok doc1 ∧ doc_outputs doc1 = doc_outputs doc ∧
    (∀ index out, psbt_out_script doc1 index out = psbt_out_script doc index out)) as (Hok1 & Hdoc1 & Hscripts).
  { unfold doc1, psbt_ok in *. rewrite <-Hlength in Hok. by destruct doc. }
  destruct (update_outputs_spec signings_ doc1 Hok1) as (outs & Houts & Hlength' & Hall').
  rewrite Hdoc1 in Hlength', Hall'. exists ins, outs. cbv zeta.
  split. { unfold update_psbt. rewrite Hins. exact Houts. }
  split; [done|]. split; [done|]. split.
  { intros index in_ Hin. destruct (Hall index in_ Hin) as (in' & Hin' & Hupdate). exists in'. split; [done|].
    destruct (update_input_spec q signings_ doc index in_ Hok Hin) as (in'' & Hupdate' & Hspec). congruence. }
  split.
  { intros index out Hout. destruct (Hall' index out Hout) as (out' & Hout' & Hupdate). exists out'. split; [done|].
    rewrite <-Hdoc1 in Hout.
    destruct (update_output_spec signings_ doc1 index out Hok1 Hout) as (out'' & Hupdate' & (s & att & Hs & Hspec)).
    assert (out'' = out') as -> by congruence. exists s, att. by rewrite <-Hscripts. }
  unfold update_psbt. rewrite update_inputs_fixed.
  - simpl. apply update_outputs_fixed. rewrite doc_set_outputs. intros index out' Hout'.
    assert (is_Some (doc_outputs doc !! index)) as [out Hout]
      by (apply lookup_lt_is_Some_2; apply lookup_lt_Some in Hout'; lia).
    destruct (Hall' index out Hout) as (out'' & Hout'' & Hupdate). assert (out'' = out') as -> by congruence.
    pose proof (update_output_fixed signings_ doc1 index out out' Hupdate) as Hfixed. fold doc1.
    unfold update_output, psbt_out_script in *. by destruct doc1.
  - intros index in' Hin'. assert (doc_inputs (set_outputs doc1 outs) = ins) as Hget by by destruct doc.
    fold doc1 in Hin'. rewrite Hget in Hin'.
    assert (is_Some (doc_inputs doc !! index)) as [in_ Hin]
      by (apply lookup_lt_is_Some_2; apply lookup_lt_Some in Hin'; lia).
    destruct (Hall index in_ Hin) as (in'' & Hin'' & Hupdate). assert (in'' = in') as -> by congruence.
    by apply (update_input_fixed q signings_ doc ins outs index in_ in').
Qed.

Definition example_signings : list signing := ([Combine.example_pay] : list script).

Lemma update_psbt_correct_witness :
  psbt_ok example_doc ∧
  ∃ ins outs, let doc' := set_outputs (set_inputs example_doc ins) outs in
    update_psbt BitcoindBlockchain.example_archive example_signings example_doc = Some doc' ∧
    update_psbt BitcoindBlockchain.example_archive example_signings doc' = Some doc' ∧
    derivations ∘ in_attachments <$> ins = [[example_derivation]].
Proof.
  assert (psbt_ok example_doc) as Hok by (intros [=]).
  assert (∃ doc', update_psbt BitcoindBlockchain.example_archive example_signings example_doc =
    Some doc' ∧ derivations ∘ in_attachments <$> doc_inputs doc' = [[example_derivation]]) as (doc' & Hdoc & Hder)
    by (eexists; split; vm_compute; reflexivity).
  split; [exact Hok|].
  destruct (update_psbt_correct BitcoindBlockchain.example_archive example_signings
    example_doc Hok) as (ins & outs & Hupdate & _ & _ & _ & _ & Hagain).
  exists ins, outs. split; [exact Hupdate|]. split; [exact Hagain|].
  assert (doc' = set_outputs (set_inputs example_doc ins) outs) as Heq by congruence.
  rewrite Heq in Hder. exact Hder.
Defined.

(** The text of a key path tells the path: paths of 32-bit indexes, hardened or
    not, that differ have texts that differ. *)
Lemma to_key_path_injective path path' :
  Forall (λ index, 0 <= index < 2 ^ 32) path → Forall (λ index, 0 <= index < 2 ^ 32) path' →
  to_key_path path = to_key_path path' → path = path'.
Proof.
  rewrite !to_key_path_parts. intros Hpath Hpath' Heq. injection Heq as Heq. by apply path_parts_inj.
Qed.
