(* ===== verification/BitcoindRest.v ===== *)
(** The REST service of bitcoind (src/protocols/bitcoind/protocol_bitcoind_rest.cpp):
    the path parser (BitcoindTarget.v) and the query parser (Queries.v) make a request
    of a target, which a dispatcher passes to the handler of its method.

    A handler replies in the media of the request: bytes, base16 text, or json. *)
From S2P Require Import Prelude Rpc Errors System Numbers Target Interface BitcoindTarget Queries HttpService FeeHistogram ElectrumSubscribe ElectrumOutpoints Descriptor Dispatch MempoolFile Archive BlockStats BitcoindBlockchain BitcoindMempool ElectrumTransactions BitcoindTransaction.

(** ** The archive *)

(** [to_data(object, size, witness)] and [to_text(object, size, witness)]. *)
Record wire_form := WireForm { wire_bytes : data_chunk; wire_text : string }.

(** What the handlers read besides of blocks, headers, transactions and outputs. *)
Class RestArchive `{BlockModels} := {
  get_block_bytes : archive → header_link → option data_chunk;
  block_form : chain_block → wire_form;
  get_header_bytes : archive → header_link → option data_chunk;
  (** The confirmed headers from a height, up to a count. *)
  get_confirmed_headers : archive → Z → Z → list header_link;
  max_get_headers : Z;
  get_rest_tx : archive → tx_link → option (wire_form * (block_tx * object));
  (** The transactions of a block that spend, and the outputs that one spends. *)
  to_spending_txs : archive → header_link → list tx_link;
  to_prevouts : archive → tx_link → list output_link;
  is_confirmed_output : archive → output_link → bool;
  (** [output.to_data] and its size, and those of a variable integer. *)
  output_bytes : Z * script → data_chunk;
  output_size : Z * script → Z;
  variable_bytes : Z → data_chunk;
  variable_size : Z → Z;
}.

Class RestArchiveLaws `{RestArchive} : Prop := {
  output_size_bytes out : output_size out = Z.of_nat (length (output_bytes out));
  variable_size_bytes n : variable_size n = Z.of_nat (length (variable_bytes n));
  header_key_length q link : length (get_header_key q link) = 32%nat;
  (** The json of a transaction has an object with the script of each output. *)
  rest_tx_vout q link tx view model : get_rest_tx q link = Some (tx, (view, model)) →
    ∃ entries, find_field "vout" model = Some (array_t entries) ∧
      Forall2 (λ _ entry, ∃ fields s, entry = object_t fields ∧
        find_field "scriptPubKey" fields = Some (object_t s)) (BitcoindBlockchain.tx_outputs view) entries;
}.

(** ** Replies *)

Inductive rest_reply :=
  | rest_data (bytes : data_chunk)
  | rest_text (text : string)
  | rest_json (model : value_t)
  | rest_bad_request
  | rest_not_found
  | rest_forbidden
  | rest_bad_host
  | rest_internal_error.

Definition newline : string := String (ascii_of_nat 10) "".

Definition send_text (text : string) : rest_reply := rest_text (text +:+ newline).

(** A handler returns whether its subscription is kept, and its replies. *)
Abbreviation rest_handled := (bool * list rest_reply)%type.

Definition sends (r : rest_reply) : rest_handled := (true, [r]).

Section Rest.
Context `{Text} `{SizeMath} `{MediaValues} `{ChainArchive} `{!BlockArchive} `{!ChainInfo}
  `{DescriptorScripts} `{!TxArchive} `{!ElectrumTxArchive} `{!RawTxArchive} `{!PoolArchive}
  `{!BlockModels} `{!RestArchive}.
Context (p2kh p2sh : Z) (witness : string) (script_model : script → object).

(** [value_from(bitcoind(header))]. *)
Context (header_model : chain_header → value_t).

Definition hash_size : Z := 32.

(** ** Blocks *)

Definition handle_get_block (q : archive) (stopped : bool) (media : Z) (hash : option hash_digest) :
    rest_handled :=
  if stopped then (false, [])
  else
    match hash with
    | None => sends rest_not_found
    | Some hash =>
        let link := to_header q hash in
        match get_block_size q link with
        | None => sends rest_not_found
        | Some _ =>
            if media =? media_data then
              match get_block_bytes q link with
              | None => sends rest_internal_error
              | Some out => sends (rest_data out)
              end
            else if media =? media_text then
              match get_wire_block q link with
              | None => sends rest_internal_error
              | Some out => sends (send_text out)
              end
            else if media =? media_json then
              match get_block q link with
              | None => sends rest_not_found
              | Some block => sends (rest_json (object_t (verbose_model block)))
              end
            else sends rest_not_found
        end
    end.

(** [None] if the json of the system library has not the expected shape. *)
Definition handle_get_tx (q : archive) (stopped : bool) (media : Z) (hash : option hash_digest) :
    option rest_handled :=
  if stopped then Some (false, [])
  else
    match hash with
    | None => Some (sends rest_not_found)
    | Some hash =>
        let link := to_tx q hash in
        match get_rest_tx q link with
        | None => Some (sends rest_not_found)
        | Some (tx, (view, model)) =>
            if media =? media_data then Some (sends (rest_data (wire_bytes tx)))
            else if media =? media_text then Some (sends (send_text (wire_text tx)))
            else if media =? media_json then
              model ← inject_tx_scripts p2kh p2sh witness view (inject_tx_context model q link);
              Some (sends (rest_json (object_t model)))
            else Some (sends rest_not_found)
        end
    end.

Definition handle_get_block_hash (q : archive) (stopped : bool) (media height : Z) : rest_handled :=
  if stopped then (false, [])
  else
    let link := to_confirmed q height in
    if is_terminal link then sends rest_not_found
    else
      let hash := get_header_key q link in
      if media =? media_data then sends (rest_data hash)
      else if media =? media_text then sends (send_text (encode_base16 hash))
      else if media =? media_json then
        sends (rest_json (object_t [("blockhash", string_t (encode_hash hash))]))
      else sends rest_not_found.

Definition handle_get_block_txs (q : archive) (stopped : bool) (media : Z) (hash : option hash_digest) :
    rest_handled :=
  if stopped then (false, [])
  else
    match hash with
    | None => sends rest_not_found
    | Some hash =>
        match get_block q (to_header q hash) with
        | None => sends rest_not_found
        | Some block =>
            if media =? media_data then sends (rest_data (wire_bytes (block_form block)))
            else if media =? media_text then sends (send_text (wire_text (block_form block)))
            else if media =? media_json then sends (rest_json (object_t (hashed_model block)))
            else sends rest_not_found
        end
    end.

(** The loops over links, to the first fault. *)
Definition collect_rest {A} (get : header_link → option A) (links : list header_link) : option (list A) :=
  mapM get links.

Definition handle_get_block_headers (q : archive) (stopped : bool) (media : Z)
    (hash : option hash_digest) (count : Z) : rest_handled :=
  if stopped then (false, [])
  else
    match hash with
    | None => sends rest_not_found
    | Some hash =>
        if count =? 0 then sends rest_not_found
        else
          let header_link := to_header q hash in
          if negb (is_confirmed_block q header_link) then sends rest_not_found
          else
            match get_height q header_link with
            | None => sends rest_internal_error
            | Some height =>
                let links := get_confirmed_headers q height (Z.min count max_get_headers) in
                if (length links =? 0)%nat then sends rest_not_found
                else if media =? media_data then
                  match collect_rest (get_header_bytes q) links with
                  | None => sends rest_internal_error
                  | Some headers => sends (rest_data (concat headers))
                  end
                else if media =? media_text then
                  match collect_rest (get_wire_header q) links with
                  | None => sends rest_internal_error
                  | Some headers => sends (send_text (String.concat "" headers))
                  end
                else if media =? media_json then
                  match collect_rest (get_header q) links with
                  | None => sends rest_internal_error
                  | Some headers => sends (rest_json (array_t (header_model <$> headers)))
                  end
                else sends rest_not_found
            end
    end.

(** bitcoind reports an out of range part as a bad request. *)
Definition handle_get_block_part (q : archive) (stopped : bool) (media : Z) (hash : option hash_digest)
    (offset size : Z) : rest_handled :=
  if stopped then (false, [])
  else
    match hash with
    | None => sends rest_not_found
    | Some hash =>
        match get_block q (to_header q hash) with
        | None => sends rest_not_found
        | Some block =>
            let full := wire_bytes (block_form block) in
            if Z.of_nat (length full) <? ceilinged_add offset size then sends rest_bad_request
            else
              let part := take (Z.to_nat size) (drop (Z.to_nat offset) full) in
              if media =? media_data then sends (rest_data part)
              else if media =? media_text then sends (send_text (encode_base16 part))
              else sends rest_bad_request
        end
    end.

(** ** Spent outputs *)

(** The prevouts of each spending transaction, to the first fault. *)
Definition spent_outputs (q : archive) (link : header_link) : option (list (list (Z * script))) :=
  mapM (λ tx, mapM (get_output q) (to_prevouts q tx)) (to_spending_txs q link).

Definition spent_size (spent : list (list (Z * script))) : Z :=
  foldl (λ size outs, foldl (λ size output, size + output_size output)
    (size + variable_size (Z.of_nat (length outs))) outs)
    (variable_size (Z.of_nat (length spent) + 1) + variable_size 0) spent.

Definition spent_bytes (spent : list (list (Z * script))) : data_chunk :=
  foldl (λ written outs, foldl (λ written output, written ++ output_bytes output)%list
    (written ++ variable_bytes (Z.of_nat (length outs)))%list outs)
    (variable_bytes (Z.of_nat (length spent) + 1) ++ variable_bytes 0)%list spent.

(** [None] if the writer exceeds its chunk. *)
Definition handle_get_block_spent_tx_outputs (q : archive) (stopped : bool) (media : Z)
    (hash : option hash_digest) : option rest_handled :=
  if stopped then Some (false, [])
  else
    match hash with
    | None => Some (sends rest_not_found)
    | Some hash =>
        let link := to_header q hash in
        if negb (is_confirmed_block q link) then Some (sends rest_not_found)
        else
          match spent_outputs q link with
          | None => Some (sends rest_internal_error)
          | Some spent =>
              wire ← write_chunk (spent_size spent) (spent_bytes spent);
              Some
                (if media =? media_data then sends (rest_data wire)
                 else if media =? media_text then sends (send_text (encode_base16 wire))
                 else if media =? media_json then
                   sends (rest_json (array_t (array_t [] :: ((λ outs, array_t ((λ output : Z * script,
                     object_t
                       [("value", number_t (bitcoins output.1));
                        ("scriptPubKey", to_script_public_key p2kh p2sh witness script_model output.2)])
                     <$> outs)) <$> spent))))
                 else sends rest_not_found)
          end
    end.

(** ** Filters *)

Definition filter_bytes (hash : hash_digest) (filter : data_chunk) : data_chunk :=
  ([0] ++ hash ++ variable_bytes (Z.of_nat (length filter)) ++ filter)%list.

(** [None] if the writer exceeds its chunk. The base16 writer writes the same bytes. *)
Definition handle_get_block_filter (q : archive) (stopped : bool) (media : Z)
    (hash : option hash_digest) : option rest_handled :=
  if stopped then Some (false, [])
  else
    match hash, filter_enabled q with
    | Some hash, true =>
        match get_filter_body q (to_header q hash) with
        | None => Some (sends rest_not_found)
        | Some filter =>
            let length_ := Z.of_nat (length filter) in
            let size := hash_size + 1 + variable_size length_ + length_ in
            if media =? media_data then
              out ← write_chunk size (filter_bytes hash filter);
              Some (sends (rest_data out))
            else if media =? media_text then
              out ← write_chunk size (filter_bytes hash filter);
              Some (sends (send_text (encode_base16 out)))
            else if media =? media_json then
              Some (sends (rest_json (object_t [("filter", string_t (encode_base16 filter))])))
            else Some (sends rest_not_found)
        end
    | _, _ => Some (sends rest_not_found)
    end.

Definition handle_get_block_filter_headers (q : archive) (stopped : bool) (media : Z)
    (hash : option hash_digest) (count : Z) : rest_handled :=
  if stopped then (false, [])
  else
    match hash, filter_enabled q with
    | Some hash, true =>
        let header_link := to_header q hash in
        if negb (is_confirmed_block q header_link) then sends rest_not_found
        else
          match get_height q header_link with
          | None => sends rest_internal_error
          | Some height =>
              let links := get_confirmed_headers q height (Z.min count max_get_headers) in
              if (length links =? 0)%nat then sends rest_not_found
              else
                match collect_rest (get_filter_head q) links with
                | None => sends rest_internal_error
                | Some heads =>
                    if media =? media_data then sends (rest_data (concat heads))
                    else if media =? media_text then
                      sends (send_text (String.concat "" (encode_base16 <$> heads)))
                    else if media =? media_json then
                      sends (rest_json (array_t (string_t ∘ encode_hash <$> heads)))
                    else sends rest_not_found
                end
          end
    | _, _ => sends rest_not_found
    end.

(** ** The chain *)

Definition handle_get_chain_information (pruned : bool) (q : archive) (stopped : bool) : rest_handled :=
  if stopped then (false, [])
  else
    let link := to_top_confirmed q in
    match get_header q link, get_height q link with
    | Some header, Some blocks =>
        sends (rest_json (object_t
          [("chain", string_t (chain_name q)); ("blocks", uint64_t blocks);
           ("headers", uint64_t (get_top_candidate q));
           ("bestblockhash", string_t (encode_hash (get_header_key q link)));
           ("bits", string_t (bits_text (header_bits header)));
           ("difficulty", number_t (difficulty header)); ("time", uint32_t (timestamp header));
           ("mediantime", uint32_t (median_time q link)); ("pruned", boolean_t pruned)]))
    | _, _ => sends rest_not_found
    end.

(** bitcoind reports an unknown block as a bad request here; the hash is optional, and
    is a pointer if there is one, [None] if that is null. *)
Definition handle_get_deployment_info (s : fork_settings) (q : archive) (stopped : bool)
    (hash : option (option hash_digest)) : option rest_handled :=
  if stopped then Some (false, [])
  else
    let answer := λ link,
      Some
        match get_height q link with
        | None => sends rest_internal_error
        | Some height => sends (rest_json (object_t (deployment_info q s link height)))
        end in
    match hash with
    | None => answer (to_top_confirmed q)
    | Some None => None
    | Some (Some hash) =>
        let link := to_header q hash in
        if is_terminal link then Some (sends rest_bad_request) else answer link
    end.

(** ** The pool *)

Definition handle_get_mempool (q : archive) (stopped verbose mempool_sequence : bool) : rest_handled :=
  if stopped then (false, [])
  else if verbose && mempool_sequence then sends rest_bad_request
  else
    match raw_mempool q verbose mempool_sequence with
    | None => sends rest_internal_error
    | Some out => sends (rest_json out)
    end.

(** The rates in satoshis, and the space of the volume of the store. *)
Definition handle_get_mempool_information (space : option Z) (minimum relay bump : double) (q : archive)
    (stopped : bool) : rest_handled :=
  if stopped then (false, [])
  else
    let bitcoin rate := PrimFloat.div rate (to_floating satoshi_per_bitcoin) in
    match mempool_info q space (bitcoin minimum) (bitcoin relay) bump with
    | None => sends rest_internal_error
    | Some out => sends (rest_json (object_t out))
    end.

End Rest.

(** ** Unspent outputs (bip64) *)

Section Utxos.
Context `{Text} `{MediaValues} `{ChainArchive} `{DescriptorScripts} `{!TxArchive} `{!BlockModels}
  `{!RestArchive}.
Context (p2kh p2sh : Z) (witness : string) (script_model : script → object).

Definition maximum_outpoints : nat := 15.

(** bitcoind's height of a pooled output. *)
Definition mempool_height : Z := 2 ^ 31 - 1.

Definition to_uint32_t (n : Z) : Z := n mod 2 ^ 32.

(** An outpoint of the path parser; [None] if a value has another type. *)
Definition outpoint_of (item : value_t) : option point :=
  match item with
  | object_t fields =>
      match find_field "hash" fields, find_field "index" fields with
      | Some (hash_t hash), Some (uint32_t index) => Some (hash, index)
      | _, _ => None
      end
  | _ => None
  end.

(** Whether the output is known and unspent, and whether it is confirmed. *)
Definition is_confirmed_link (q : archive) (link : output_link) : bool :=
  negb (is_output_terminal link) && is_confirmed_output q link.

Definition is_hit (q : archive) (mempool : bool) (p : point) : bool :=
  let link := to_output q p.1 p.2 in
  let tx := to_output_tx q link in
  let confirmed := is_confirmed_link q link in
  let pooled := mempool && negb confirmed && negb (is_tx_terminal tx) && is_pooled q tx &&
                is_confirmable_tx q tx in
  let spent := is_confirmed_spent q link || (mempool && is_confirmable_spent q link) in
  (confirmed || pooled) && negb spent.

(** The height and the output of a hit; [None] on a fault of the archive. *)
Definition utxo_of (q : archive) (p : point) : option (Z * (Z * script)) :=
  let link := to_output q p.1 p.2 in
  output ← get_output q link;
  height ← (if is_confirmed_link q link then get_tx_height q (to_output_tx q link)
            else Some mempool_height);
  Some (to_uint32_t height, output).

(** The loop over the outpoints: a value of another type is undefined, and a fault
    of the archive is an error. *)
Fixpoint find_utxos (q : archive) (mempool : bool) (items : array) (hits : list bool)
    (utxos : list (Z * (Z * script))) : option (option (list bool * list (Z * (Z * script)))) :=
  match items with
  | [] => Some (Some (hits, utxos))
  | item :: items =>
      match outpoint_of item with
      | None => None
      | Some p =>
          let hit := is_hit q mempool p in
          let hits := (hits ++ [hit])%list in
          if negb hit then find_utxos q mempool items hits utxos
          else
            match utxo_of q p with
            | None => Some None
            | Some utxo => find_utxos q mempool items hits (utxos ++ [utxo])%list
            end
      end
  end.

(** The bitmap flags each hit, least significant bit first within each byte. *)
Definition set_hit (bitmap : data_chunk) (index : nat) : data_chunk :=
  <[(index / 8)%nat := Z.lor (default 0 (bitmap !! (index / 8)%nat)) (Z.shiftl 1 (Z.of_nat (index mod 8)))]> bitmap.

Definition hits_bitmap (hits : list bool) : data_chunk :=
  foldl (λ bitmap index, if default false (hits !! index) then set_hit bitmap index else bitmap)
    (replicate ((length hits + 7) / 8)%nat 0) (seq 0 (length hits)).

Definition utxos_size (bitmap : data_chunk) (utxos : list (Z * (Z * script))) : Z :=
  foldl (λ size utxo, size + (2 * 4 + output_size utxo.2))
    (4 + hash_size + variable_size (Z.of_nat (length bitmap)) + Z.of_nat (length bitmap) +
     variable_size (Z.of_nat (length utxos))) utxos.

Definition utxos_bytes (top : Z) (top_hash : hash_digest) (bitmap : data_chunk)
    (utxos : list (Z * (Z * script))) : data_chunk :=
  foldl (λ written utxo, written ++ to_little_endian 4 0 ++ to_little_endian 4 utxo.1 ++ output_bytes utxo.2)%list
    (to_little_endian 4 (to_uint32_t top) ++ top_hash ++ variable_bytes (Z.of_nat (length bitmap)) ++
     bitmap ++ variable_bytes (Z.of_nat (length utxos)))%list utxos.

Definition hits_text (hits : list bool) : string :=
  foldl (λ bits (hit : bool), bits +:+ (if hit then "1" else "0")) "" hits.

Definition utxo_model (utxo : Z * (Z * script)) : value_t :=
  object_t
    [("height", uint32_t utxo.1); ("value", number_t (bitcoins utxo.2.1));
     ("scriptPubKey", to_script_public_key p2kh p2sh witness script_model utxo.2.2)].

(** [None] if an outpoint has another type, or the writer exceeds its chunk. *)
Definition handle_get_utxos (q : archive) (stopped : bool) (media : Z) (outpoints : array)
    (mempool : bool) : option rest_handled :=
  if stopped then Some (false, [])
  else if (length outpoints =? 0)%nat || (maximum_outpoints <? length outpoints)%nat
  then Some (sends rest_bad_request)
  else
    found ← find_utxos q mempool outpoints [] [];
    match found with
    | None => Some (sends rest_internal_error)
    | Some (hits, utxos) =>
        let top_link := to_top_confirmed q in
        match get_height q top_link with
        | None => Some (sends rest_internal_error)
        | Some top =>
            let top_hash := get_header_key q top_link in
            let bitmap := hits_bitmap hits in
            wire ← write_chunk (utxos_size bitmap utxos) (utxos_bytes top top_hash bitmap utxos);
            Some
              (if media =? media_data then sends (rest_data wire)
               else if media =? media_text then sends (send_text (encode_base16 wire))
               else if media =? media_json then
                 sends (rest_json (object_t
                   [("chainHeight", uint64_t top); ("chaintipHash", string_t (encode_hash top_hash));
                    ("bitmap", string_t (hits_text hits)); ("utxos", array_t (utxo_model <$> utxos))]))
               else sends rest_not_found)
        end
    end.

End Utxos.

(** ** Lemmas: exact chunks *)

Section Chunks.
Context `{ChainArchive} `{DescriptorScripts} `{!TxArchive} `{!BlockModels} `{!RestArchive}
  `{!RestArchiveLaws}.

(** Sums and concatenations in step. *)
Lemma foldl_written {A} (size : A → Z) (bytes : A → data_chunk) (xs : list A) n written :
  (∀ x, size x = Z.of_nat (length (bytes x))) → n = Z.of_nat (length written) →
  foldl (λ n x, n + size x) n xs = Z.of_nat (length (foldl (λ written x, written ++ bytes x)%list written xs)).
Proof.
  intros Hsize. revert n written. induction xs as [|x xs IH]; intros n written Hn; [done|].
  simpl. apply IH. rewrite length_app, Hsize. lia.
Qed.

Lemma foldl_app_concat {A} (bytes : A → data_chunk) (xs : list A) written :
  foldl (λ written x, written ++ bytes x)%list written xs = (written ++ (xs ≫= bytes))%list.
Proof.
  revert written. induction xs as [|x xs IH]; intros written; simpl; [by rewrite app_nil_r|].
  by rewrite IH, <-app_assoc.
Qed.

Lemma spent_wire spent :
  write_chunk (spent_size spent) (spent_bytes spent) =
    Some ((variable_bytes (Z.of_nat (length spent) + 1) ++ variable_bytes 0) ++
      (spent ≫= λ outs, variable_bytes (Z.of_nat (length outs)) ++ (outs ≫= output_bytes)))%list.
Proof.
  assert (spent_bytes spent = (variable_bytes (Z.of_nat (length spent) + 1) ++ variable_bytes 0) ++
    (spent ≫= λ outs, variable_bytes (Z.of_nat (length outs)) ++ (outs ≫= output_bytes)))%list as Hbytes.
  { unfold spent_bytes. generalize (variable_bytes (Z.of_nat (length spent) + 1) ++ variable_bytes 0)%list.
    induction spent as [|outs spent IH]; intros written; simpl; [by rewrite app_nil_r|].
    rewrite foldl_app_concat, IH. by rewrite <-!app_assoc. }
  rewrite <-Hbytes. apply write_chunk_exact. unfold spent_size, spent_bytes.
  assert (variable_size (Z.of_nat (length spent) + 1) + variable_size 0 = Z.of_nat (length
    (variable_bytes (Z.of_nat (length spent) + 1) ++ variable_bytes 0)%list)) as Hn
    by (rewrite length_app, !variable_size_bytes; lia).
  revert Hn. clear Hbytes. generalize (variable_size (Z.of_nat (length spent) + 1) + variable_size 0).
  generalize (variable_bytes (Z.of_nat (length spent) + 1) ++ variable_bytes 0)%list.
  induction spent as [|outs spent IH]; intros written n Hn; simpl; [done|].
  apply IH. apply foldl_written; [apply output_size_bytes|].
  rewrite length_app, variable_size_bytes. lia.
Qed.

Lemma filter_wire hash filter :
  length hash = 32%nat →
  write_chunk (hash_size + 1 + variable_size (Z.of_nat (length filter)) + Z.of_nat (length filter))
    (filter_bytes hash filter) = Some (filter_bytes hash filter).
Proof.
  intros Hhash. apply write_chunk_exact. unfold filter_bytes, hash_size.
  rewrite !length_app, variable_size_bytes, Hhash. simpl. lia.
Qed.

Lemma utxos_wire top top_hash bitmap utxos :
  length top_hash = 32%nat →
  write_chunk (utxos_size bitmap utxos) (utxos_bytes top top_hash bitmap utxos) =
    Some ((to_little_endian 4 (to_uint32_t top) ++ top_hash ++ variable_bytes (Z.of_nat (length bitmap)) ++
      bitmap ++ variable_bytes (Z.of_nat (length utxos))) ++
      (utxos ≫= λ utxo, to_little_endian 4 0 ++ to_little_endian 4 utxo.1 ++ output_bytes utxo.2))%list.
Proof.
  intros Hhash. unfold utxos_bytes. rewrite <-foldl_app_concat. apply write_chunk_exact.
  unfold utxos_size. apply foldl_written.
  - intros utxo. rewrite !length_app, !to_little_endian_length, output_size_bytes. lia.
  - rewrite !length_app, to_little_endian_length, Hhash, !variable_size_bytes. unfold hash_size. lia.
Qed.

(** The loop is defined on outpoints of the path parser: the hits in order, and the
    outputs of the hits, or an error if one of them is not stored. *)
Lemma find_utxos_spec q mempool items points hits utxos :
  Forall2 (λ item p, outpoint_of item = Some p) items points →
  find_utxos q mempool items hits utxos =
    Some (found ← mapM (utxo_of q) (filter (λ p, is_hit q mempool p = true) points);
          Some ((hits ++ (is_hit q mempool <$> points))%list, (utxos ++ found)%list)).
Proof.
  intros Hitems. revert hits utxos. induction Hitems as [|item p items points Hp _ IH]; intros hits utxos.
  { simpl. by rewrite !app_nil_r. }
  simpl. rewrite Hp, filter_cons. destruct (is_hit q mempool p) eqn:Hhit; simpl.
  - destruct (utxo_of q p) as [utxo|]; simpl; [|done].
    rewrite IH. destruct (mapM (utxo_of q) _) as [found|]; simpl; [|done]. by rewrite <-!app_assoc.
  - rewrite IH.
    destruct (mapM (utxo_of q) _) as [found|]; simpl; [|done]. by rewrite <-!app_assoc.
Qed.
End Chunks.

(** ** The bitmap of the hits *)

(** Bit [t] of byte [j] flags hit [8 * j + t], up to a count of hits. *)
Definition flags (hits : list bool) (count : nat) (bitmap : data_chunk) : Prop :=
  length bitmap = ((length hits + 7) / 8)%nat ∧
  ∀ j byte, bitmap !! j = Some byte → 0 <= byte ∧ ∀ t, 0 <= t →
    Z.testbit byte t =
      (t <? 8) && ((8 * j + Z.to_nat t <? count)%nat && default false (hits !! (8 * j + Z.to_nat t)%nat)).

Lemma testbit_lor_shiftl byte (k : nat) t :
  0 <= t → Z.testbit (Z.lor byte (Z.shiftl 1 (Z.of_nat k))) t = Z.testbit byte t || (t =? Z.of_nat k).
Proof.
  intros Ht. rewrite Z.lor_spec. f_equal. rewrite Z.shiftl_1_l, Z.pow2_bits_eqb by lia.
  destruct (Z.eqb_spec (Z.of_nat k) t), (Z.eqb_spec t (Z.of_nat k)); (done || lia).
Qed.

Lemma index_split k : k = (8 * (k / 8) + k mod 8)%nat ∧ (k mod 8 < 8)%nat.
Proof. split; [apply Nat.div_mod_eq|by apply Nat.mod_upper_bound]. Qed.

Lemma set_hit_flags hits k bitmap :
  flags hits k bitmap → (k < length hits)%nat → hits !! k = Some true → flags hits (S k) (set_hit bitmap k).
Proof.
  intros [Hlength Hbits] Hk Hhit. destruct (index_split k) as [Hsplit Hmod].
  assert (k / 8 < length bitmap)%nat as Hbyte.
  { rewrite Hlength. apply Nat.Div0.div_lt_upper_bound.
    pose proof (Nat.div_mod_eq (length hits + 7) 8). pose proof (Nat.mod_upper_bound (length hits + 7) 8). lia. }
  unfold set_hit. destruct (lookup_lt_is_Some_2 bitmap (k / 8) Hbyte) as [byte Hb]. rewrite Hb. cbn [default].
  split; [by rewrite length_insert|]. intros j byte' Hj.
  destruct (decide (j = (k / 8)%nat)) as [->|Hne].
  - rewrite list_lookup_insert_eq in Hj by done. apply (inj Some) in Hj as <-.
    destruct (Hbits _ _ Hb) as [Hnonneg Hold].
    split; [apply Z.lor_nonneg; split; [done|apply Z.shiftl_nonneg; lia]|].
    intros t Ht. rewrite testbit_lor_shiftl, Hold by done.
    destruct (Z.ltb_spec t 8) as [Ht8|Ht8]; cbn [andb].
    + destruct (Z.eqb_spec t (Z.of_nat (k mod 8))) as [->|Hother].
      * rewrite Nat2Z.id, <-Hsplit, Hhit. rewrite (proj2 (Nat.ltb_lt k (S k))) by lia. by rewrite orb_true_r.
      * rewrite orb_false_r. set (i := (8 * (k / 8) + Z.to_nat t)%nat).
        assert (i ≠ k) by (unfold i; lia).
        destruct (Nat.ltb_spec i k), (Nat.ltb_spec i (S k)); (done || lia).
    + destruct (Z.eqb_spec t (Z.of_nat (k mod 8))); [lia|done].
  - rewrite list_lookup_insert_ne in Hj by done. destruct (Hbits _ _ Hj) as [Hnonneg Hold].
    split; [done|]. intros t Ht. rewrite Hold by done. destruct (Z.ltb_spec t 8) as [Ht8|]; [|done]. cbn [andb].
    set (i := (8 * j + Z.to_nat t)%nat). assert (i ≠ k).
    { unfold i. intros Heq. apply Hne. apply (Nat.div_unique k 8 j (Z.to_nat t)); lia. }
    destruct (Nat.ltb_spec i k), (Nat.ltb_spec i (S k)); (done || lia).
Qed.

Lemma skip_hit_flags hits k bitmap :
  flags hits k bitmap → default false (hits !! k) = false → flags hits (S k) bitmap.
Proof.
  intros [Hlength Hbits] Hmiss. split; [done|]. intros j byte Hj.
  destruct (Hbits _ _ Hj) as [Hnonneg Hold]. split; [done|]. intros t Ht. rewrite Hold by done. f_equal.
  set (i := (8 * j + Z.to_nat t)%nat). destruct (decide (i = k)) as [->|Hne].
  - by rewrite Hmiss, !andb_false_r.
  - destruct (Nat.ltb_spec i k), (Nat.ltb_spec i (S k)); (done || lia).
Qed.

Lemma hits_bitmap_flags hits : flags hits (length hits) (hits_bitmap hits).
Proof.
  unfold hits_bitmap. enough (∀ k, (k <= length hits)%nat → flags hits k
    (foldl (λ bitmap index, if default false (hits !! index) then set_hit bitmap index else bitmap)
      (replicate ((length hits + 7) / 8)%nat 0) (seq 0 k))) as Hall by by apply Hall.
  induction k as [|k IH]; intros Hk.
  - split; [apply length_replicate|]. intros j byte [-> _]%lookup_replicate_1. split; [done|].
    intros t _. rewrite Z.bits_0. by rewrite andb_false_r.
  - rewrite seq_S, foldl_app. simpl. destruct (default false (hits !! k)) eqn:Hhit.
    + apply set_hit_flags; [apply IH; lia|lia|]. by destruct (hits !! k) as [[]|].
    + apply skip_hit_flags; [apply IH; lia|done].
Qed.

Lemma hits_bitmap_bit hits index hit :
  hits !! index = Some hit →
  ∃ byte, hits_bitmap hits !! (index / 8)%nat = Some byte ∧
    Z.testbit byte (Z.of_nat (index mod 8)) = hit.
Proof.
  intros Hhit. destruct (hits_bitmap_flags hits) as [Hlength Hbits].
  destruct (index_split index) as [Hsplit Hmod]. apply lookup_lt_Some in Hhit as Hlt.
  assert (index / 8 < length (hits_bitmap hits))%nat as Hbyte.
  { rewrite Hlength. apply Nat.Div0.div_lt_upper_bound.
    pose proof (Nat.div_mod_eq (length hits + 7) 8). pose proof (Nat.mod_upper_bound (length hits + 7) 8). lia. }
  destruct (lookup_lt_is_Some_2 _ _ Hbyte) as [byte Hb]. exists byte. split; [done|].
  destruct (Hbits _ _ Hb) as [_ ->]; [|lia]. rewrite Nat2Z.id, <-Hsplit, Hhit.
  rewrite (proj2 (Nat.ltb_lt _ _)) by done. destruct (Z.ltb_spec (Z.of_nat (index mod 8)) 8); [done|lia].
Qed.

(** ** The shape of parsed requests *)

(** Hashes are of 32 bytes, and the elements of arrays are outpoints. *)
Definition value_shaped (v : value_t) : Prop :=
  match v with
  | hash_t h => length h = 32%nat
  | array_t items => ∃ points, Forall2 (λ item p, outpoint_of item = Some p) items points
  | _ => True
  end.

Definition shaped (o : object) : Prop := Forall (λ field, value_shaped field.2) o.

Lemma shaped_find o key v : shaped o → find_field key o = Some v → value_shaped v.
Proof.
  intros Ho Hv. apply find_field_elem in Hv. unfold shaped in Ho. rewrite Forall_forall in Ho.
  by apply (Ho _ Hv).
Qed.

Lemma shaped_set key v o : value_shaped v → shaped o → shaped (set_field key v o).
Proof.
  intros Hv Ho. apply Forall_forall. intros [k w] Hin.
  apply elem_of_set_field in Hin as [[= -> ->]|Hin]; [done|].
  unfold shaped in Ho. rewrite Forall_forall in Ho. by apply (Ho _ Hin).
Qed.

(** What a body of the parser returns: a request of a shape, which is not the one
    that has no handler. *)
Definition returns_shaped (o : outcome unit) : Prop :=
  match o with
  | Return Error.success r =>
      ∃ name ps, r = message name ps ∧ name ≠ "fork_information" ∧ shaped ps
  | Return _ _ => True
  | _ => False
  end.

Section Shapes.
Context `{TextLaws} `{MediaValues}.

Lemma to_hash_length name hash : to_hash name = Some hash → length hash = 32%nat.
Proof. intros Hhash. by apply decode_hash_ok in Hhash as [? _]. Qed.

Ltac shaped_done :=
  first [exact I
        | do 2 eexists; split; [reflexivity|split; [done|]];
          repeat (first [apply Forall_nil_2 | apply Forall_cons_2]); cbn; eauto using to_hash_length].

Ltac shape := settle_with shaped_done.

Lemma returns_shaped_hash_leaf then_ seen s rest r :
  (∀ media hash seen' rest', length hash = 32%nat →
    returns_shaped (run (then_ media hash) seen' rest' r)) →
  returns_shaped (run (hash_leaf then_) seen (s :: rest) r).
Proof.
  intros Hthen. unfold hash_leaf. autorewrite with server.
  destruct (split_leaf s) as [[name media]|]; [|done].
  destruct (to_hash name) as [hash|] eqn:Hhash; [|done]. apply Hthen. by eapply to_hash_length.
Qed.

Ltac shape_leaf := shape; apply returns_shaped_hash_leaf; intros; shape.

Lemma rest_outpoint_shaped token outpoint :
  rest_outpoint token = inr outpoint → is_Some (outpoint_of outpoint).
Proof.
  unfold rest_outpoint. intros Ho. repeat (case_match; try done). by simplify_eq.
Qed.

Lemma spells_shaped segments media outpoints :
  spells segments media outpoints → value_shaped (array_t outpoints).
Proof.
  induction 1 as [leaf name media outpoint _ Ho|token rest media outpoint outpoints Ho _ IH];
    apply rest_outpoint_shaped in Ho as [p Hp].
  - exists [p]. by constructor.
  - destruct IH as [points Hpoints]. exists (p :: points). by constructor.
Qed.

Lemma rest_get_utxos_shaped seen rest : returns_shaped (run rest_get_utxos seen rest (message "" [])).
Proof.
  assert (∀ seen rest o, rest ≠ [] → o = [] ∨ o = [("mempool", boolean_t true)] →
    returns_shaped (run
      (let* (media, outpoints) := rest_outpoints (length rest) 0 [] in
       set_method "get_utxos" ;;
       set_param "media" (uint8_t media) ;;
       set_param "outpoints" (array_t outpoints) ;;
       return_code Error.success) seen rest (message "" o))) as Hloop.
  { intros seen' rest' o Hne Ho. rewrite run_bind.
    destruct (rest_outpoints_run rest' seen' 0 [] (message "" o) Hne)
      as [(ec & Hec & ->)|(media & outpoints & Hspells & ->)]; [by destruct ec|].
    apply spells_shaped in Hspells.
    destruct Ho as [-> | ->]; do 2 eexists; (split; [reflexivity|split; [done|]]);
      repeat (first [apply Forall_nil_2 | apply Forall_cons_2]); done. }
  unfold rest_get_utxos. destruct rest as [|s [|s' rest]]; repeat (progress settle_step);
    [exact I|destruct (s == "checkmempool")..];
    repeat (progress settle_step); try exact I; apply Hloop; auto.
Qed.

Lemma rest_block_shaped seen rest : returns_shaped (run rest_block seen rest (message "" [])).
Proof. unfold rest_block. destruct rest as [|? [|? ?]]; shape_leaf. Qed.

Lemma rest_tx_shaped seen rest : returns_shaped (run rest_tx seen rest (message "" [])).
Proof. unfold rest_tx. destruct rest; shape_leaf. Qed.

Lemma rest_block_hash_shaped seen rest : returns_shaped (run rest_block_hash seen rest (message "" [])).
Proof. unfold rest_block_hash. shape. Qed.

Lemma rest_headers_shaped seen rest : returns_shaped (run rest_headers seen rest (message "" [])).
Proof. unfold rest_headers, rest_count. destruct rest as [|? [|]]; shape_leaf. Qed.

Lemma rest_block_filter_shaped seen rest : returns_shaped (run rest_block_filter seen rest (message "" [])).
Proof. unfold rest_block_filter. destruct rest as [|? [|]]; shape_leaf. Qed.

Lemma rest_block_filter_headers_shaped seen rest : returns_shaped (run rest_block_filter_headers seen rest (message "" [])).
Proof. unfold rest_block_filter_headers, rest_count. destruct rest as [|? [|? [|]]]; shape_leaf. Qed.

Lemma rest_mempool_shaped seen rest : returns_shaped (run rest_mempool seen rest (message "" [])).
Proof. unfold rest_mempool. shape. Qed.

Lemma rest_spent_outputs_shaped seen rest : returns_shaped (run rest_spent_outputs seen rest (message "" [])).
Proof. unfold rest_spent_outputs. destruct rest; shape_leaf. Qed.

Lemma rest_block_part_shaped seen rest : returns_shaped (run rest_block_part seen rest (message "" [])).
Proof. unfold rest_block_part. destruct rest; shape_leaf. Qed.

Lemma rest_deployment_info_shaped target seen rest :
  returns_shaped (run (rest_deployment_info target) seen rest (message "" [])).
Proof. unfold rest_deployment_info. destruct (target == "deploymentinfo"); shape. Qed.

Lemma bitcoind_endpoint_shaped target seen rest :
  returns_shaped (run (bitcoind_endpoint target) seen rest (message "" [])).
Proof.
  unfold bitcoind_endpoint. repeat (case_match; [first
    [ shaped_done | apply rest_block_shaped | apply rest_deployment_info_shaped
    | apply rest_tx_shaped | apply rest_block_hash_shaped | apply rest_headers_shaped
    | apply rest_block_filter_shaped | apply rest_block_filter_headers_shaped
    | apply rest_get_utxos_shaped | apply rest_mempool_shaped
    | apply rest_spent_outputs_shaped | apply rest_block_part_shaped]|]).
  exact I.
Qed.

Lemma bitcoind_body_shaped segs :
  segs ≠ [] → returns_shaped (run bitcoind_body [] segs (message "" [])).
Proof.
  intros Hsegs. destruct segs as [|s segs]; [done|].
  unfold bitcoind_body. shape; apply bitcoind_endpoint_shaped.
Qed.

(** The request of a target, whatever it is. *)
Lemma bitcoind_target_shaped out path :
  ∃ ec o, bitcoind_target out path = Some (ec, o) ∧
    (ec = Error.success → ∃ name ps, o = message name ps ∧ name ≠ "fork_information" ∧ shaped ps).
Proof.
  unfold bitcoind_target, run_target.
  destruct (split path "?" false false) as [|clean rest] eqn:Hs; [by apply split_not_nil in Hs|].
  destruct (is_empty clean); [by do 2 eexists|].
  assert (split clean "/" false true ≠ []) as Hne by apply split_not_nil.
  pose proof (bitcoind_body_shaped _ Hne) as Hshaped. unfold run in Hshaped. simpl in Hshaped.
  destruct (bitcoind_body _) as [|ec o|]; [done| |done]. exists ec, o. split; [done|]. by intros ->.
Qed.

Lemma query_numbers_shaped query names o ok o' :
  query_numbers query names o = (ok, o') → shaped o → shaped o'.
Proof.
  revert o. induction names as [|name names IH]; intros o; simpl; [by intros [= <- <-]|].
  destruct (query !! name) as [text|]; [|apply IH].
  destruct (from_chars_number 32 text) as [n|]; [|by intros [= <- <-]].
  intros Hrun Ho. apply (IH _ Hrun). by apply shaped_set.
Qed.

Lemma query_booleans_shaped query names o ok o' :
  query_booleans query names o = (ok, o') → shaped o → shaped o'.
Proof.
  revert o. induction names as [|name names IH]; intros o; simpl; [by intros [= <- <-]|].
  destruct (query !! name) as [text|]; [|apply IH].
  destruct (_ && _); [by intros [= <- <-]|].
  intros Hrun Ho. apply (IH _ Hrun). by apply shaped_set.
Qed.

Lemma bitcoind_query_shaped `{Uri} name ps target ok model :
  shaped ps → bitcoind_query (message name ps) target = (ok, model) →
  ∃ ps', model = message name ps' ∧ shaped ps'.
Proof.
  intros Hps. unfold bitcoind_query. destruct (decode_query target) as [query|]; [|intros [= <- <-]; by exists ps].
  change (object_params (message name ps)) with (Some ps). cbv iota beta.
  destruct (query_numbers query ["count"; "offset"; "size"] ps) as [numbers o] eqn:Hnumbers.
  apply query_numbers_shaped in Hnumbers; [|done].
  destruct numbers; [|intros [= <- <-]; by exists o]. cbn [negb].
  destruct (query_booleans query ["verbose"; "mempool_sequence"] o) as [booleans o'] eqn:Hbooleans.
  apply query_booleans_shaped in Hbooleans; [|done]. intros [= <- <-]. by exists o'.
Qed.

End Shapes.

(** ** Dispatch *)

Section Service.
Context `{Text} `{SizeMath} `{MediaValues} `{Uri} `{Dispatcher} `{ChainArchive} `{!BlockArchive}
  `{!ChainInfo} `{DescriptorScripts} `{!TxArchive} `{!ElectrumTxArchive} `{!RawTxArchive} `{!PoolArchive}
  `{!BlockModels} `{!RestArchive}.
Context (p2kh p2sh : Z) (witness : string) (script_model : script → object).
Context (header_model : chain_header → value_t) (settings : fork_settings) (pruned : bool)
  (space : option Z) (minimum relay bump : double).

(** The subscriptions of [start]: the handler of a method, with the arguments of the
    request. A method without a handler replies nothing. *)
Definition invoke (q : archive) (name : string) (o : object) : option (list rest_reply) :=
  let media := argument_number o "media" in
  let hash := argument_hash o "hash" in
  if name == "block" then
    media ← media; hash ← hash; Some (handle_get_block q false media hash).2
  else if name == "block_hash" then
    media ← media; height ← argument_number o "height";
    Some (handle_get_block_hash q false media height).2
  else if name == "block_txs" then
    media ← media; hash ← hash; Some (handle_get_block_txs q false media hash).2
  else if name == "block_headers" then
    media ← media; hash ← hash; count ← argument_number o "count";
    Some (handle_get_block_headers header_model q false media hash count).2
  else if name == "block_part" then
    media ← media; hash ← hash; offset ← argument_number o "offset"; size ← argument_number o "size";
    Some (handle_get_block_part q false media hash offset size).2
  else if name == "block_spent_tx_outputs" then
    media ← media; hash ← hash;
    snd <$> handle_get_block_spent_tx_outputs p2kh p2sh witness script_model q false media hash
  else if name == "block_filter" then
    media ← media; hash ← hash; snd <$> handle_get_block_filter q false media hash
  else if name == "block_filter_headers" then
    media ← media; hash ← hash; count ← argument_number o "count";
    Some (handle_get_block_filter_headers q false media hash count).2
  else if name == "chain_information" then
    Some (handle_get_chain_information pruned q false).2
  else if name == "tx" then
    media ← media; hash ← hash; snd <$> handle_get_tx p2kh p2sh witness q false media hash
  else if name == "get_utxos" then
    media ← media; outpoints ← argument_array o "outpoints"; mempool ← argument_boolean o "mempool" false;
    snd <$> handle_get_utxos p2kh p2sh witness script_model q false media outpoints mempool
  else if name == "mempool" then
    verbose ← argument_boolean o "verbose" true; sequence ← argument_boolean o "mempool_sequence" false;
    Some (handle_get_mempool q false verbose sequence).2
  else if name == "mempool_information" then
    Some (handle_get_mempool_information space minimum relay bump q false).2
  else if name == "deployment_info" then
    hash ← argument_nullable o "hash"; snd <$> handle_get_deployment_info settings q false hash
  else Some [].

(** The code of a dispatch, or what the handler replies. *)
Definition notify (q : archive) (model : request_t) : option (code + list rest_reply) :=
  match find_method bitcoind_rest_interface (method model), object_params model with
  | Some m, Some o =>
      match check_parameters m o with
      | Some ec => Some (inl ec)
      | None => inr <$> invoke q (method model) o
      end
  | _, _ => Some (inl unexpected_method)
  end.

Definition is_bad_request (fault : Error.error_t) : bool :=
  match fault with
  | Error.invalid_hash | Error.invalid_number | Error.missing_hash | Error.missing_height
  | Error.missing_target => true
  | _ => false
  end.

(** [None] if the behaviour of the code is undefined. *)
Definition handle_receive_get (q : archive) (stopped : bool) (get : incoming) (target : string) :
    option (list rest_reply) :=
  if stopped then Some []
  else if negb (allowed_host get) then Some [rest_bad_host]
  else if negb (allowed_origin get) then Some [rest_forbidden]
  else
    '(fault, model) ← bitcoind_target request_default target;
    match fault with
    | Error.success =>
        let '(ok, model) := bitcoind_query model target in
        if negb ok then Some [rest_bad_request]
        else if negb (permitted get (method model)) then Some [rest_forbidden]
        else
          notified ← notify q model;
          match notified with
          | inl fault => Some [if bool_decide (fault = missing_parameter) then rest_bad_request
                               else rest_not_found]
          | inr replies => Some replies
          end
    | _ => Some [if is_bad_request fault then rest_bad_request else rest_not_found]
    end.

End Service.

(** ** Every handler replies *)

Section Answers.
Context `{TextLaws} `{SizeMath} `{MediaValues} `{Uri} `{Dispatcher} `{!DispatcherLaws}
  `{ChainArchive} `{!BlockArchive} `{!ChainInfo} `{DescriptorScripts} `{!TxArchive} `{!ElectrumTxArchive}
  `{!RawTxArchive} `{!PoolArchive} `{!BlockModels} `{!RestArchive} `{!RestArchiveLaws}.
Context (p2kh p2sh : Z) (witness : string) (script_model : script → object).
Context (header_model : chain_header → value_t) (settings : fork_settings) (pruned : bool)
  (space : option Z) (minimum relay bump : double).

Lemma inject_each_total {A} (inject : A → object → option object) xs entries :
  Forall2 (λ x entry, ∃ fields, entry = object_t fields ∧ is_Some (inject x fields)) xs entries →
  is_Some (inject_each inject xs entries).
Proof.
  induction 1 as [|x entry xs entries (fields & -> & [out Hout]) _ [rest Hrest]]; [done|].
  simpl. rewrite Hout. simpl. rewrite Hrest. done.
Qed.

Lemma inject_tx_context_vout q link out :
  find_field "vout" (inject_tx_context out q link) = find_field "vout" out.
Proof.
  unfold inject_tx_context. destruct (get_tx_height q link) as [height|]; [|by rewrite find_set_ne].
  destruct (get_header q (to_confirmed q height)); by rewrite !find_set_ne by done.
Qed.

Lemma inject_tx_scripts_total q link tx view model :
  get_rest_tx q link = Some (tx, (view, model)) →
  is_Some (inject_tx_scripts p2kh p2sh witness view (inject_tx_context model q link)).
Proof.
  intros Htx. destruct (rest_tx_vout q link tx view model Htx) as (entries & Hvout & Hentries).
  unfold inject_tx_scripts, inject_array. rewrite inject_tx_context_vout, Hvout.
  match goal with |- context [inject_each ?f] => destruct (inject_each_total f
    (BitcoindBlockchain.tx_outputs view) entries) as [out ->] end; [|done].
  eapply Forall2_impl; [exact Hentries|]. intros put entry (fields & s & -> & Hs).
  exists fields. split; [done|]. by rewrite Hs.
Qed.

(** What a handler that is called replies: exactly one reply. *)
Definition answered (replies : option (list rest_reply)) : Prop := ∃ r, replies = Some [r].

Lemma answered_intro replies : (∃ r, replies = [r]) → answered (Some replies).
Proof. intros [r ->]. by exists r. Qed.

Ltac answer :=
  repeat (first [ done | by eexists | case_match ]).

Lemma handle_get_tx_answered q media hash :
  answered (snd <$> handle_get_tx p2kh p2sh witness q false media hash).
Proof.
  unfold handle_get_tx. destruct hash as [hash|]; [|by eexists].
  destruct (get_rest_tx q (to_tx q hash)) as [[tx [view model]]|] eqn:Htx; [|by eexists].
  destruct (inject_tx_scripts_total _ _ _ _ _ Htx) as [out ->]. answer.
Qed.

Lemma spent_tx_outputs_answered q media hash :
  answered (snd <$> handle_get_block_spent_tx_outputs p2kh p2sh witness script_model q false media hash).
Proof.
  unfold handle_get_block_spent_tx_outputs. destruct hash as [hash|]; [|by eexists].
  destruct (negb _); [by eexists|]. destruct (spent_outputs q _) as [spent|]; [|by eexists].
  rewrite spent_wire. simpl. answer.
Qed.

Lemma get_block_filter_answered q media hash :
  (∀ h, hash = Some h → length h = 32%nat) →
  answered (snd <$> handle_get_block_filter q false media hash).
Proof.
  intros Hhash. unfold handle_get_block_filter.
  destruct hash as [hash|]; [|by eexists]. destruct (filter_enabled q); [|by eexists].
  destruct (get_filter_body q _) as [filter|]; [|by eexists].
  rewrite filter_wire by by apply Hhash. answer.
Qed.

Lemma get_utxos_answered q media items mempool :
  value_shaped (array_t items) →
  answered (snd <$> handle_get_utxos p2kh p2sh witness script_model q false media items mempool).
Proof.
  intros [points Hpoints]. unfold handle_get_utxos. destruct (_ || _); [by eexists|].
  rewrite (find_utxos_spec _ _ _ _ _ _ Hpoints). simpl.
  destruct (mapM (utxo_of q) _) as [utxos|]; simpl; [|by eexists].
  destruct (get_height q _) as [top|]; [|by eexists].
  rewrite utxos_wire by apply header_key_length. simpl. answer.
Qed.

Lemma rest_invoke_answered q name m o :
  find_method bitcoind_rest_interface name = Some m → name ≠ "fork_information" →
  check_parameters m o = None → shaped o →
  answered (invoke p2kh p2sh witness script_model header_model settings pruned space minimum relay bump q name o).
Proof.
  intros Hm Hfork Hcheck Hshaped. apply check_parameters_fit in Hcheck.
  unfold find_method in Hm. apply List.find_some in Hm as [Hin Hname%String.eqb_eq].
  apply list_elem_of_In in Hin. unfold bitcoind_rest_interface in Hin.
  repeat (apply elem_of_cons in Hin as [->|Hin];
    [cbn [method_name parameters] in *; subst name; unfold invoke; cbv [String.eqb Ascii.eqb Bool.eqb]|]);
    [..|by apply not_elem_of_nil in Hin].
  all: fits.
  - apply answered_intro. unfold handle_get_block. answer.
  - apply answered_intro. unfold handle_get_block_hash. answer.
  - apply answered_intro. unfold handle_get_block_txs. answer.
  - apply answered_intro. unfold handle_get_block_headers, sends. answer.
  - apply answered_intro. unfold handle_get_block_part. answer.
  - apply spent_tx_outputs_answered.
  - apply get_block_filter_answered. intros h [= <-]. apply (shaped_find o "hash" _ Hshaped Hf).
  - apply answered_intro. unfold handle_get_block_filter_headers. answer.
  - apply get_utxos_answered. apply (shaped_find o "outpoints" _ Hshaped Hf).
  - apply answered_intro. unfold handle_get_mempool. answer.
  - apply answered_intro. unfold handle_get_chain_information. answer.
  - apply answered_intro. unfold handle_get_mempool_information. answer.
  - done.
  - apply handle_get_tx_answered.
  - unfold handle_get_deployment_info. match goal with H : ?h ≠ Some None |- _ => destruct h as [[h|]|] end; [|done|]; answer.
Qed.
End Answers.

(** ** Example: a chain whose outputs are found by their index *)

#[local] Existing Instance reference_text.
#[local] Existing Instance reference_text_laws.
#[local] Existing Instance reference_sizes.
#[local] Existing Instance Descriptor.example_script.
#[local] Existing Instance Descriptor.example_keys.
#[local] Existing Instance Descriptor.example_descriptors.
#[local] Existing Instance BitcoindBlockchain.example_chain.
#[local] Existing Instance BitcoindBlockchain.example_blocks.

#[local] Instance example_info : ChainInfo := {
  mainnet_genesis := [];
  testnet_genesis := [];
  regtest_genesis := [];
  taproot_enabled _ _ := None;
  store_size _ := 0;
}.

(** Even outputs are confirmed, and the first is spent. *)
#[local] Instance example_txs : TxArchive := {
  tx_link := Z;
  is_tx_terminal link := link <? 0;
  output_link := Z;
  is_output_terminal link := link <? 0;
  to_output _ _ index := index;
  to_output_tx _ link := link;
  get_output _ link := Some (100 * link, to_script []);
  is_confirmed_spent _ link := link =? 0;
  is_confirmable_spent _ _ := false;
  get_tx_height _ link := Some link;
  is_pooled _ _ := false;
  is_confirmable_tx _ _ := false;
  is_coinbase_tx _ _ := false;
  get_tx_key _ _ := [];
  satoshi_per_bitcoin := 100000000;
}.

#[local] Instance example_electrum : ElectrumTxArchive := {
  to_tx _ _ := -1;
  get_wire_tx _ _ := [];
  get_tx_model _ _ := None;
  find_strong _ _ := None : option Z;
  get_timestamp _ _ := None;
  get_position_tx _ _ _ := -1;
}.

#[local] Instance example_raw : RawTxArchive := {
  get_tx_size _ _ := None;
  write_wire_tx _ _ := None;
  is_confirmed_tx _ _ := false;
  to_outputs _ _ := [];
  get_tx_fees _ _ := None;
  populate_tx _ _ := None;
}.

#[local] Instance example_pool : PoolArchive := {
  to_duplicates _ _ := [];
  BitcoindMempool.get_tx_fees _ _ := None;
  get_tx_weight _ _ := None;
  get_time _ _ := None;
  get_ancestor_totals _ _ := None;
  get_descendant_totals _ _ := None;
  get_wtxid _ _ := [];
  to_confirmable_parents _ _ := [];
  to_confirmable_children _ _ := [];
  to_confirmable_ancestors _ _ := [];
  to_confirmable_descendants _ _ := [];
  get_pool_txs _ := inr [];
  get_pool_fees _ := None;
  spends_size _ := 0;
  wtxid_size _ := 0;
  pool_size _ := 0;
  input_link := Z;
  is_input_terminal link := link <? 0;
  find_confirmable_spender _ _ := -1;
  find_confirmed_spender _ _ := -1;
  to_input_tx _ link := link;
  get_tx_data _ _ := None;
  find_tx_block _ _ := None;
}.

#[local] Instance example_models : BlockModels := {
  chain_block := Z;
  block_header block := block;
  block_txs _ := [];
  hashed_model _ := [];
  verbose_model _ := [];
  get_block _ link := link;
  populate_with_metadata _ _ := None;
}.

#[local] Instance example_rest : RestArchive := {
  get_block_bytes _ _ := None;
  block_form block := WireForm [1; 2; 3; 4] "01020304";
  get_header_bytes _ link := (λ h, [h]) <$> (link : option Z);
  get_confirmed_headers _ height count := [Some height : option Z];
  max_get_headers := 2000;
  get_rest_tx _ _ := None;
  to_spending_txs _ _ := [];
  to_prevouts _ _ := [];
  is_confirmed_output _ link := Z.even link;
  output_bytes out := [out.1];
  output_size _ := 1;
  variable_bytes n := [n];
  variable_size _ := 1;
}.

#[local] Instance example_rest_laws : RestArchiveLaws.
Proof. by split; try done; intros q link; apply length_replicate. Qed.

(** ** Properties *)

(** C13: the REST service answers every request exactly once: whatever the target and
    its query string, the parsers, the dispatcher and the handler of the method send
    one reply, and none of them has undefined behaviour (no chunk is exceeded, no
    argument is missing or of another type). In particular no target reaches the
    published method that has no handler. A request that fails the header checks is
    refused whatever its target. *)
Theorem rest_answered_once `{TextLaws} `{SizeMath} `{MediaValues} `{Uri} `{Dispatcher}
    `{!DispatcherLaws} `{ChainArchive} `{!BlockArchive} `{!ChainInfo} `{DescriptorScripts} `{!TxArchive}
    `{!ElectrumTxArchive} `{!RawTxArchive} `{!PoolArchive} `{!BlockModels} `{!RestArchive} `{!RestArchiveLaws}
    p2kh p2sh witness script_model header_model settings pruned space minimum relay bump q get target :
  ∃ reply, handle_receive_get p2kh p2sh witness script_model header_model settings pruned space minimum
      relay bump q false get target = Some [reply] ∧
    (allowed_host get = false → reply = rest_bad_host) ∧
    (allowed_host get = true → allowed_origin get = false → reply = rest_forbidden).
Proof.
  unfold handle_receive_get. destruct (allowed_host get); simpl; [|by eexists].
  destruct (allowed_origin get); simpl; [|by eexists].
  destruct (bitcoind_target_shaped request_default target) as (ec & o & -> & Hsuccess). simpl.
  assert (∀ replies, answered replies → ∃ reply, replies = Some [reply] ∧
    (true = false → reply = rest_bad_host) ∧ (true = true → true = false → reply = rest_forbidden)) as Hweaken
    by (intros replies [reply ->]; by exists reply).
  destruct ec; try (by eexists). apply Hweaken.
  destruct (Hsuccess eq_refl) as (name & ps & -> & Hname & Hps).
  destruct (bitcoind_query (message name ps) target) as [ok model] eqn:Hquery.
  apply bitcoind_query_shaped in Hquery as (ps' & -> & Hps'); [|done].
  destruct ok; [|by eexists]. simpl. destruct (permitted get name); [|by eexists]. simpl.
  unfold notify. change (method (message name ps')) with name.
  change (object_params (message name ps')) with (Some ps').
  destruct (find_method bitcoind_rest_interface name) as [m|] eqn:Hm; [|by eexists].
  destruct (check_parameters m ps') eqn:Hcheck; [by eexists|].
  destruct (rest_invoke_answered p2kh p2sh witness script_model header_model settings pruned space minimum relay
    bump q name m ps' Hm Hname Hcheck Hps') as [reply ->]. by exists reply.
Qed.

Definition example_get : incoming := Incoming true true None (λ _, true).
Definition example_settings : fork_settings :=
  ForkSettings true true true true true true true true true 1 2 3 4 5 6.
Definition example_script_model (s : script) : object := [].
Definition example_header_model (h : chain_header) : value_t := null_t.

Lemma rest_answered_once_witness :
  ∃ reply, handle_receive_get 0 5 "bc" example_script_model example_header_model example_settings false None
      PrimFloat.zero PrimFloat.zero PrimFloat.zero BitcoindBlockchain.example_archive false example_get
      "/rest/blockhashbyheight/1.hex" = Some [reply] ∧
    reply = send_text (encode_base16 (BitcoindBlockchain.example_hash 1)).
Proof.
  destruct (rest_answered_once 0 5 "bc" example_script_model example_header_model example_settings false None
    PrimFloat.zero PrimFloat.zero PrimFloat.zero BitcoindBlockchain.example_archive example_get
    "/rest/blockhashbyheight/1.hex") as (reply & Hreply & _ & _).
  exists reply. split; [exact Hreply|].
  assert (handle_receive_get 0 5 "bc" example_script_model example_header_model example_settings false None
      PrimFloat.zero PrimFloat.zero PrimFloat.zero BitcoindBlockchain.example_archive false example_get
      "/rest/blockhashbyheight/1.hex" =
    Some [send_text (encode_base16 (BitcoindBlockchain.example_hash 1))]) as Heval by (vm_compute; reflexivity).
  rewrite Heval in Hreply. congruence.
Defined.

(** A query of unspent outputs flags outpoint [i] in bit [i mod 8] of byte [i / 8]
    of its bitmap exactly if the output is confirmed (or, on request, in the pool) and
    not spent there, and reports the flagged outputs in the order of the request. The
    message fills its buffer exactly (height and hash of the top block, bitmap, and
    dummy version, height and output of each), and its three media tell the same. *)
Lemma get_utxos_correct `{Text} `{MediaValues} `{ChainArchive} `{DescriptorScripts} `{!TxArchive}
    `{!BlockModels} `{!RestArchive} `{!RestArchiveLaws} p2kh p2sh witness script_model q items points
    mempool top utxos :
  NoDup [media_data; media_text; media_json] →
  Forall2 (λ item p, outpoint_of item = Some p) items points → (1 <= length points <= 15)%nat →
  get_height q (to_top_confirmed q) = Some top →
  mapM (utxo_of q) (filter (λ p, is_hit q mempool p = true) points) = Some utxos →
  let handler media := handle_get_utxos p2kh p2sh witness script_model q false media items mempool in
  let top_hash := get_header_key q (to_top_confirmed q) in
  ∃ bitmap, length bitmap = ((length points + 7) / 8)%nat ∧
    (∀ i p, points !! i = Some p → ∃ byte, bitmap !! (i / 8)%nat = Some byte ∧
      Z.testbit byte (Z.of_nat (i mod 8)) = is_hit q mempool p) ∧
    let wire := ((to_little_endian 4 (to_uint32_t top) ++ top_hash ++
        variable_bytes (Z.of_nat (length bitmap)) ++ bitmap ++ variable_bytes (Z.of_nat (length utxos))) ++
      (utxos ≫= λ utxo, to_little_endian 4 0 ++ to_little_endian 4 utxo.1 ++ output_bytes utxo.2))%list in
    handler media_data = Some (sends (rest_data wire)) ∧
    handler media_text = Some (sends (send_text (encode_base16 wire))) ∧
    handler media_json = Some (sends (rest_json (object_t
      [("chainHeight", uint64_t top); ("chaintipHash", string_t (encode_hash top_hash));
       ("bitmap", string_t (hits_text (is_hit q mempool <$> points)));
       ("utxos", array_t (utxo_model p2kh p2sh witness script_model <$> utxos))]))).
Proof.
  intros Hmedia Hitems Hcount Htop Hutxos handler top_hash.
  set (hits := is_hit q mempool <$> points). exists (hits_bitmap hits).
  destruct (hits_bitmap_flags hits) as [Hlength _]. unfold hits in Hlength at 2. rewrite length_fmap in Hlength.
  split; [done|]. split.
  { intros i p Hp. apply hits_bitmap_bit. unfold hits. by rewrite list_lookup_fmap, Hp. }
  assert (∀ media, handler media = Some
    (if media =? media_data then sends (rest_data ((to_little_endian 4 (to_uint32_t top) ++ top_hash ++
        variable_bytes (Z.of_nat (length (hits_bitmap hits))) ++ hits_bitmap hits ++
        variable_bytes (Z.of_nat (length utxos))) ++
      (utxos ≫= λ utxo, to_little_endian 4 0 ++ to_little_endian 4 utxo.1 ++ output_bytes utxo.2))%list)
     else if media =? media_text then sends (send_text (encode_base16 ((to_little_endian 4 (to_uint32_t top) ++
        top_hash ++ variable_bytes (Z.of_nat (length (hits_bitmap hits))) ++ hits_bitmap hits ++
        variable_bytes (Z.of_nat (length utxos))) ++
      (utxos ≫= λ utxo, to_little_endian 4 0 ++ to_little_endian 4 utxo.1 ++ output_bytes utxo.2))%list))
     else if media =? media_json then sends (rest_json (object_t
      [("chainHeight", uint64_t top); ("chaintipHash", string_t (encode_hash top_hash));
       ("bitmap", string_t (hits_text hits));
       ("utxos", array_t (utxo_model p2kh p2sh witness script_model <$> utxos))]))
     else sends rest_not_found)) as Hhandler.
  { intros media. unfold handler, handle_get_utxos. rewrite (Forall2_length _ _ _ Hitems).
    destruct (Nat.eqb_spec (length points) 0); [lia|].
    destruct (Nat.ltb_spec maximum_outpoints (length points)); [unfold maximum_outpoints in *; lia|]. simpl.
    rewrite (find_utxos_spec _ _ _ _ _ _ Hitems), Hutxos. simpl. rewrite Htop.
    rewrite utxos_wire by apply header_key_length. done. }
  apply NoDup_cons in Hmedia as [Hdata Hmedia]. apply NoDup_cons in Hmedia as [Htext _].
  rewrite !not_elem_of_cons in Hdata. destruct Hdata as (Hdt & Hdj & _).
  apply not_elem_of_cons in Htext as [Htj _].
  cbv zeta. rewrite !Hhandler, !Z.eqb_refl.
  rewrite (proj2 (Z.eqb_neq media_text media_data)) by congruence.
  rewrite (proj2 (Z.eqb_neq media_json media_data)) by congruence.
  rewrite (proj2 (Z.eqb_neq media_json media_text)) by congruence. done.
Qed.

Definition example_points : list point := [([1], 2); ([1], 3); ([1], 0); ([1], 4)].
Definition example_items : array :=
  (λ p : point, object_t [("hash", hash_t p.1); ("index", uint32_t p.2)]) <$> example_points.

Lemma get_utxos_correct_witness :
  ∃ bitmap wire, bitmap = [9] ∧
    handle_get_utxos 0 5 "bc" example_script_model BitcoindBlockchain.example_archive false media_data
      example_items false = Some (sends (rest_data wire)) ∧
    length wire = 57%nat.
Proof.
  assert (NoDup [media_data; media_text; media_json]) as Hmedia
    by (apply (bool_decide_unpack _); vm_compute; exact I).
  assert (Forall2 (λ item p, outpoint_of item = Some p) example_items example_points) as Hitems
    by (repeat constructor).
  assert (get_height BitcoindBlockchain.example_archive (to_top_confirmed BitcoindBlockchain.example_archive) =
    Some 2) as Htop by reflexivity.
  assert (∃ utxos, mapM (utxo_of BitcoindBlockchain.example_archive)
    (filter (λ p, is_hit BitcoindBlockchain.example_archive false p = true) example_points) = Some utxos ∧
    length utxos = 2%nat) as (utxos & Hutxos & Hlength) by (eexists; split; vm_compute; reflexivity).
  assert (1 <= length example_points <= 15)%nat as Hcount by (vm_compute; lia).
  destruct (get_utxos_correct 0 5 "bc" example_script_model BitcoindBlockchain.example_archive example_items
    example_points false 2 utxos Hmedia Hitems Hcount Htop Hutxos) as (bitmap & _ & _ & Hdata & _ & _).
  assert (∃ wire, handle_get_utxos 0 5 "bc" example_script_model BitcoindBlockchain.example_archive false
    media_data example_items false = Some (sends (rest_data wire)) ∧ length wire = 57%nat)
    as (wire & Hwire & Hsize) by (eexists; split; vm_compute; reflexivity).
  exists [9], wire. split; [reflexivity|]. split; [exact Hwire|exact Hsize].
Defined.
