(* ===== verification/Native.v ===== *)
(** The native service (src/protocols/native): the path parser (NativeTarget.v) and the
    query parser (Queries.v) make a request of a target, which a dispatcher passes to
    the handler of its method; what they do not take is a page (HttpService.v).

    A handler replies in the media of the request, or defers to a parallel query of the
    address index. A websocket is notified of the events that it has subscribed to. *)
From S2P Require Import Prelude Rpc Errors System Numbers Target Interface NativeTarget Queries FeeHistogram ElectrumSubscribe ElectrumOutpoints Dispatch HttpService MempoolFile Archive BlockStats BitcoindBlockchain ElectrumTransactions.

(** ** The archive *)

(** An object of the archive: its bytes, serialized size and json. *)
Record wire_object := WireObject {
  object_bytes : data_chunk;
  serialized_size : Z;
  object_json : value_t;
}.

(** [database::context]. *)
Record block_context := BlockContext {
  context_height : Z;
  context_mtp : Z;
  is_enabled : string → bool;
}.

(** What the handlers read besides of the chain. *)
Class NativeArchive `{TxArchive} := {
  (** A block with or without its witnesses: its size, its bytes and base16 text, and
      its json with that of its header. *)
  native_block_size : archive → header_link → bool → option Z;
  native_block_bytes : archive → header_link → bool → option data_chunk;
  native_block_text : archive → header_link → bool → option string;
  native_block_json : archive → header_link → bool → option object;
  native_header : archive → header_link → option (wire_object * object);
  get_context : archive → header_link → option block_context;
  (** The nominal and maximal sizes of a block, and its states. *)
  get_block_sizes : archive → header_link → option (Z * Z);
  is_bypass : archive → header_link → bool;
  is_validated : archive → header_link → bool;
  is_confirmable : archive → header_link → bool;
  is_unconfirmable : archive → header_link → bool;
  is_candidate_header : archive → header_link → bool;
  to_coinbase : archive → header_link → tx_link;
  to_transaction : archive → header_link → Z → tx_link;
  get_block_value : archive → header_link → option Z;
  get_block_spend : archive → header_link → option Z;
  get_filter_hash : archive → header_link → option hash_digest;
  (** Transactions, with or without witnesses. *)
  native_tx : archive → tx_link → bool → option wire_object;
  get_tx_sizes : archive → tx_link → option (Z * Z);
  get_tx_value : archive → tx_link → option Z;
  get_tx_spend : archive → tx_link → option Z;
  get_tx_position : archive → tx_link → header_link → option Z;
  (** Inputs, outputs and their parts, by transaction and index. *)
  get_inputs : archive → tx_link → bool → option (list wire_object);
  get_input : archive → tx_link → Z → bool → option wire_object;
  get_input_script : archive → tx_link → Z → option wire_object;
  get_witness : archive → tx_link → Z → option (bool * wire_object);
  get_outputs : archive → tx_link → option (list wire_object);
  native_output : archive → tx_link → Z → option wire_object;
  get_output_script : archive → tx_link → Z → option wire_object;
  (** The confirmed spender of an outpoint, and all its spenders. *)
  get_spender : archive → point → option wire_object;
  get_spenders : archive → point → list wire_object;
  address_enabled : archive → bool;
  (** The sizes of an outpoint, an inpoint and a point. *)
  outpoint_size : Z;
  inpoint_size : Z;
  point_size : Z;
  native_header_size : Z;
  (** The subsidy of a height, by whether bip42 is enabled. *)
  subsidy : Z → bool → Z;
  (** [chain::weighted_size] and [chain::virtual_size] of the nominal and maximal sizes. *)
  weighted_size : Z → Z → Z;
  virtual_size_of : Z → Z → Z;
  is_subtract_overflow : Z → Z → bool;
  (** [client_filter::type_id::neutrino]. *)
  neutrino : Z;
  (** [to_little_endian_size], of the system library. *)
  to_little_endian_size : Z → data_chunk;
  (** The value of a height link that is terminal. *)
  terminal_height : Z;
}.

(** What is read of the address index by the hash of a script, or a code. *)
Class AddressIndex `{NativeArchive} := {
  get_address_outpoints : archive → bool → hash_digest → code + list wire_object;
  get_confirmed_unspent_outpoints : archive → bool → hash_digest → code + list wire_object;
  get_unconfirmed_unspent_outpoints : archive → bool → hash_digest → code + list wire_object;
  get_confirmed_balance : archive → bool → hash_digest → code + Z;
}.

(** ** Serializers (impl/protocols/protocol_native.ipp)

    [None] if the writer exceeds its buffer; the base16 writers write the same bytes. *)

Definition to_bin (o : wire_object) (size : Z) : option data_chunk := write_chunk size (object_bytes o).

Definition to_bin_array (os : list wire_object) (size : Z) : option data_chunk :=
  write_chunk size (os ≫= object_bytes).

(** ** Handlers *)

(** The parallel queries of the address index. *)
Inductive address_query :=
  | query_outpoints
  | query_confirmed
  | query_unconfirmed
  | query_balance.

(** A handler replies, notifies, or defers to a query with the media, whether it is
    parallelized, and the hash. *)
Inductive action :=
  | replies (r : http_reply)
  | notifies (r : http_reply)
  | defers_query (query : address_query) (media : Z) (turbo : bool) (hash : hash_digest).

(** The subscriptions of a channel, by media, unknown if there is none. *)
Record native_state := NativeState {
  top_subscribe : Z;
  block_subscribe : Z;
  tx_subscribe : Z;
  output_subscribe : bool;
  address_subscribe : bool;
}.

Definition set_top (media : Z) (s : native_state) : native_state :=
  NativeState media (block_subscribe s) (tx_subscribe s) (output_subscribe s) (address_subscribe s).
Definition set_block (media : Z) (s : native_state) : native_state :=
  NativeState (top_subscribe s) media (tx_subscribe s) (output_subscribe s) (address_subscribe s).
Definition set_tx (media : Z) (s : native_state) : native_state :=
  NativeState (top_subscribe s) (block_subscribe s) media (output_subscribe s) (address_subscribe s).
Definition set_output (b : bool) (s : native_state) : native_state :=
  NativeState (top_subscribe s) (block_subscribe s) (tx_subscribe s) b (address_subscribe s).
Definition set_address (b : bool) (s : native_state) : native_state :=
  NativeState (top_subscribe s) (block_subscribe s) (tx_subscribe s) (output_subscribe s) b.

Definition status (s : http_status) : list action := [replies (send_status s)].

Section Native.
Context `{Text} `{SizeMath} `{MediaValues} `{ChainArchive} `{!BlockArchive} `{Scripts} `{!TxArchive}
  `{!ElectrumTxArchive} `{!NativeArchive}.

(** An object, by the media of the request; [None] if a writer exceeds its buffer. *)
Definition send_object (media : Z) (bytes : option data_chunk) (json : value_t) : option (list action) :=
  if media =? media_data then bytes ← bytes; Some [replies (send_chunk bytes)]
  else if media =? media_text then bytes ← bytes; Some [replies (send_text (encode_base16 bytes))]
  else if media =? media_json then Some [replies (send_json json)]
  else Some (status not_found).

(** Bytes that need no writer. *)
Definition send_bytes (media : Z) (bytes : data_chunk) (json : value_t) : list action :=
  if media =? media_data then [replies (send_chunk bytes)]
  else if media =? media_text then [replies (send_text (encode_base16 bytes))]
  else if media =? media_json then [replies (send_json json)]
  else status not_found.

Definition notify_bytes (media : Z) (bytes : data_chunk) (json : value_t) : list action :=
  if media =? media_data then [notifies (send_chunk bytes)]
  else if media =? media_text then [notifies (send_text (encode_base16 bytes))]
  else if media =? media_json then [notifies (send_json json)]
  else [].

(** [to_header] by hash, or else by height; [None] stands for a terminal link. *)
Definition to_native_header (q : archive) (height : option Z) (hash : option (option hash_digest)) :
    option (option header_link) :=
  match hash with
  | Some None => None
  | Some (Some hash) => Some (Some (to_header q hash))
  | None =>
      match height with
      | Some height => Some (Some (to_confirmed q height))
      | None => Some None
      end
  end.

(** The height of a block: the requested one, or that of its link. *)
Definition inject_height (q : archive) (height : option Z) (link : header_link) (out : object) : object :=
  try_emplace "height" (uint64_t (default terminal_height (match height with Some h => Some h | None => get_height q link end)))
    out.

(** *** Top *)

Definition handle_get_top (q : archive) (media : Z) : list action :=
  let height := get_top_confirmed q in
  send_bytes media (to_little_endian_size height) (uint64_t height).

Definition handle_get_top_subscribe (q : archive) (media : Z) (stop : bool) (s : native_state) :
    native_state * list action :=
  let s := set_top (if stop then media_unknown else media) s in
  (s, if stop then [replies send_empty] else handle_get_top q media).

Definition do_top (q : archive) (link : header_link) (media : Z) : list action :=
  let height := default terminal_height (get_height q link) in
  notify_bytes media (to_little_endian_size height) (uint64_t height).

(** *** Blocks

    A null hash pointer is undefined: [None] of [to_native_header]. *)

Definition handle_get_block (q : archive) (media : Z) (hash : option (option hash_digest))
    (height : option Z) (witness : bool) : option (list action) :=
  link ← to_native_header q height hash;
  match link with
  | None => Some (status not_found)
  | Some link =>
      if is_terminal link then Some (status not_found)
      else
        match native_block_size q link witness with
        | None => Some (status internal_server_error)
        | Some _ =>
            if media =? media_data then
              Some match native_block_bytes q link witness with
                   | None => status internal_server_error
                   | Some out => [replies (send_chunk out)]
                   end
            else if media =? media_text then
              Some match native_block_text q link witness with
                   | None => status internal_server_error
                   | Some out => [replies (send_text out)]
                   end
            else if media =? media_json then
              match native_block_json q link witness with
              | None => Some (status internal_server_error)
              | Some model =>
                  match find_field "header" model with
                  | Some (object_t header) =>
                      Some [replies (send_json (object_t (set_field "header"
                        (object_t (inject_height q height link header)) model)))]
                  | _ => None
                  end
              end
            else Some (status not_found)
        end
  end.

(** A header, with its height. *)
Definition send_header (q : archive) (media : Z) (height : option Z) (link : header_link)
    (header : wire_object * object) : option (list action) :=
  send_object media (to_bin header.1 native_header_size)
    (object_t (inject_height q height link header.2)).

Definition handle_get_block_header (q : archive) (media : Z) (hash : option (option hash_digest))
    (height : option Z) : option (list action) :=
  link ← to_native_header q height hash;
  match link with
  | None => Some (status not_found)
  | Some link =>
      match native_header q link with
      | None => Some (status not_found)
      | Some header => send_header q media height link header
      end
  end.

(** [context.is_enabled] of each rule. *)
Definition fork_rules : list string :=
  ["bip30"; "bip34"; "bip66"; "bip65"; "bip90"; "bip68"; "bip112"; "bip113"; "bip141"; "bip143";
   "bip147"; "bip42"; "bip341"; "bip342"].

(** The state of a block with its transactions. *)
Definition block_state (q : archive) (link : header_link) (nominal maximal : Z) : object :=
  let bypass := is_bypass q link in
  [("size", uint64_t nominal); ("weight", uint64_t (weighted_size nominal maximal));
   ("count", uint64_t (get_tx_count q link)); ("validated", boolean_t (bypass || is_validated q link));
   ("confirmed", boolean_t (is_confirmed_block q link));
   ("confirmable", boolean_t (bypass || is_confirmable q link));
   ("unconfirmable", boolean_t (negb bypass && is_unconfirmable q link))].

Definition handle_get_block_header_context (q : archive) (media : Z) (hash : option (option hash_digest))
    (height : option Z) : option (list action) :=
  if negb (media =? media_json) then Some (status not_acceptable)
  else
    link ← to_native_header q height hash;
    match link ≫= λ link, (λ context, (link, context)) <$> get_context q link with
    | None => Some (status not_found)
    | Some (link, context) =>
        let out :=
          [("hash", string_t (encode_hash (get_header_key q link)));
           ("height", uint64_t (context_height context)); ("mtp", uint32_t (context_mtp context))] in
        let state :=
          if is_associated q link then
            match get_block_sizes q link with
            | None => None
            | Some (nominal, maximal) =>
                Some (set_field "state" (object_t (block_state q link nominal maximal)) out)
            end
          else Some out in
        Some
          match state with
          | None => status internal_server_error
          | Some out =>
              [replies (send_json (object_t (set_field "forks"
                (object_t ((λ rule, (rule, boolean_t (is_enabled context rule))) <$> fork_rules)) out)))]
          end
    end.

(** The details of a block: [None] on a fault of the archive. *)
Definition block_details (q : archive) (link : header_link) (key : hash_digest) : option object :=
  let count := get_tx_count q link in
  if (count =? 0) || bool_decide (key = null_hash) then None
  else
    claim ← get_tx_spend q (to_coinbase q link);
    '(nominal, maximal) ← get_block_sizes q link;
    value ← get_block_value q link;
    spend ← get_block_spend q link;
    context ← get_context q link;
    if is_subtract_overflow value spend then None
    else
      let fees := floored_subtract value spend in
      let reward := subsidy (context_height context) (is_enabled context "bip42") in
      Some
        [("hash", string_t (encode_hash key)); ("height", uint64_t (context_height context));
         ("count", uint64_t count); ("segregated", boolean_t (negb (maximal =? nominal)));
         ("nominal", uint64_t nominal); ("maximal", uint64_t maximal);
         ("weight", uint64_t (weighted_size nominal maximal));
         ("virtual", uint64_t (virtual_size_of nominal maximal)); ("value", uint64_t value);
         ("fees", uint64_t fees); ("subsidy", uint64_t reward);
         ("reward", uint64_t (ceilinged_add fees reward)); ("claim", uint64_t claim)].

Definition handle_get_block_details (q : archive) (media : Z) (hash : option (option hash_digest))
    (height : option Z) : option (list action) :=
  if negb (media =? media_json) then Some (status not_acceptable)
  else
    link ← to_native_header q height hash;
    Some
      match link with
      | None => status not_found
      | Some link =>
          if negb (is_associated q link) then status not_found
          else
            let key := match hash with Some (Some hash) => hash | _ => get_header_key q link end in
            match block_details q link key with
            | None => status internal_server_error
            | Some details => [replies (send_json (object_t details))]
            end
      end.

Definition handle_get_block_txs (q : archive) (media : Z) (hash : option (option hash_digest))
    (height : option Z) : option (list action) :=
  link ← to_native_header q height hash;
  let hashes := match link with Some link => get_tx_keys q link | None => [] end in
  Some
    (if (length hashes =? 0)%nat then status not_found
     else send_bytes media (concat hashes) (array_t (string_t ∘ encode_hash <$> hashes))).

(** What a filter method reads of a block, if the filters are enabled. *)
Definition send_filter (q : archive) (media type : Z) (hash : option (option hash_digest))
    (height : option Z) (get : header_link → option data_chunk) (json : data_chunk → value_t) :
    option (list action) :=
  if negb (filter_enabled q) || negb (type =? neutrino) then Some (status not_implemented)
  else
    link ← to_native_header q height hash;
    Some
      match link ≫= get with
      | None => status not_found
      | Some filter => send_bytes media filter (json filter)
      end.

Definition handle_get_block_filter (q : archive) (media type : Z) (hash : option (option hash_digest))
    (height : option Z) : option (list action) :=
  send_filter q media type hash height (get_filter_body q) (λ filter, string_t (encode_base16 filter)).

Definition handle_get_block_filter_hash (q : archive) (media type : Z)
    (hash : option (option hash_digest)) (height : option Z) : option (list action) :=
  send_filter q media type hash height (get_filter_hash q) (λ hash, string_t (encode_hash hash)).

Definition handle_get_block_filter_header (q : archive) (media type : Z)
    (hash : option (option hash_digest)) (height : option Z) : option (list action) :=
  send_filter q media type hash height (get_filter_head q) (λ head, string_t (encode_hash head)).

(** An object that is found, or not. *)
Definition send_found (media : Z) (found : option wire_object) : option (list action) :=
  match found with
  | None => Some (status not_found)
  | Some o => send_object media (to_bin o (serialized_size o)) (object_json o)
  end.

Definition handle_get_block_tx (q : archive) (media position : Z) (hash : option (option hash_digest))
    (height : option Z) (witness : bool) : option (list action) :=
  link ← to_native_header q height hash;
  send_found media (link ≫= λ link, native_tx q (to_transaction q link position) witness).

(** The hash of the top block is returned upon subscription. *)
Definition handle_get_block_subscribe (q : archive) (media : Z) (stop : bool) (s : native_state) :
    native_state * list action :=
  let s := set_block (if stop then media_unknown else media) s in
  (s, if stop then [replies send_empty]
      else
        let hash := get_header_key q (to_top_confirmed q) in
        if bool_decide (hash = null_hash) then status not_found
        else send_bytes media hash (string_t (encode_hash hash))).

Definition do_block (q : archive) (link : header_link) (media : Z) : list action :=
  let hash := get_header_key q link in
  notify_bytes media hash (string_t (encode_hash hash)).

(** *** Transactions *)

Definition handle_get_tx (q : archive) (media : Z) (hash : hash_digest) (witness : bool) :
    option (list action) :=
  send_found media (native_tx q (to_tx q hash) witness).

Definition handle_get_tx_header (q : archive) (media : Z) (hash : hash_digest) : option (list action) :=
  let link := find_confirmed_block q hash in
  if is_terminal link then Some (status not_found)
  else
    match native_header q link with
    | None => Some (status internal_server_error)
    | Some header => send_header q media None link header
    end.

(** The details of a transaction: [None] on a fault of the archive. *)
Definition tx_details (q : archive) (link : tx_link) : option object :=
  let coinbase := is_coinbase_tx q link in
  '(nominal, maximal) ← get_tx_sizes q link;
  value ← get_tx_value q link;
  spend ← get_tx_spend q link;
  if negb coinbase && is_subtract_overflow value spend then None
  else
    let out :=
      [("segregated", boolean_t (negb (maximal =? nominal))); ("coinbase", boolean_t coinbase);
       ("nominal", uint64_t nominal); ("maximal", uint64_t maximal);
       ("weight", uint64_t (weighted_size nominal maximal));
       ("virtual", uint64_t (virtual_size_of nominal maximal)); ("value", uint64_t value);
       ("spend", uint64_t spend); ("fee", uint64_t (floored_subtract value spend))] in
    let block := find_strong q link in
    if is_terminal block then Some out
    else
      context ← get_context q block;
      position ← get_tx_position q link block;
      Some (set_field "confirmed" (object_t
        [("height", uint64_t (context_height context)); ("position", uint64_t position)]) out).

Definition handle_get_tx_details (q : archive) (media : Z) (hash : hash_digest) : list action :=
  if negb (media =? media_json) then status not_acceptable
  else
    let link := to_tx q hash in
    if is_tx_terminal link then status not_found
    else
      match tx_details q link with
      | None => status internal_server_error
      | Some details => [replies (send_json (object_t details))]
      end.

(** The subscription is answered by a notification. *)
Definition handle_get_tx_subscribe (media : Z) (stop : bool) (s : native_state) :
    native_state * list action :=
  (set_tx (if stop then media_unknown else media) s, [notifies send_empty]).

Definition do_transaction (q : archive) (link : tx_link) (media : Z) : list action :=
  let hash := get_tx_key q link in
  notify_bytes media hash (string_t (encode_hash hash)).

(** *** Inputs and outputs *)

(** A list of objects of a transaction, which is not empty. *)
Definition send_list (q : archive) (media : Z) (link : tx_link) (os : option (list wire_object)) :
    option (list action) :=
  if is_tx_terminal link then Some (status not_found)
  else
    match os with
    | None | Some [] => Some (status internal_server_error)
    | Some os =>
        let size := foldl (λ total o, total + serialized_size o) 0 os in
        send_object media (to_bin_array os size) (array_t (object_json <$> os))
    end.

Definition handle_get_inputs (q : archive) (media : Z) (hash : hash_digest) (witness : bool) :
    option (list action) :=
  let tx := to_tx q hash in send_list q media tx (get_inputs q tx witness).

Definition handle_get_input (q : archive) (media : Z) (hash : hash_digest) (index : Z)
    (witness : bool) : option (list action) :=
  send_found media (get_input q (to_tx q hash) index witness).

Definition handle_get_input_script (q : archive) (media : Z) (hash : hash_digest) (index : Z) :
    option (list action) :=
  send_found media (get_input_script q (to_tx q hash) index).

(** A witness is found if it is valid. *)
Definition handle_get_input_witness (q : archive) (media : Z) (hash : hash_digest) (index : Z) :
    option (list action) :=
  send_found media
    match get_witness q (to_tx q hash) index with
    | Some (true, witness) => Some witness
    | _ => None
    end.

Definition handle_get_outputs (q : archive) (media : Z) (hash : hash_digest) : option (list action) :=
  let tx := to_tx q hash in send_list q media tx (get_outputs q tx).

Definition handle_get_output (q : archive) (media : Z) (hash : hash_digest) (index : Z) :
    option (list action) :=
  send_found media (native_output q (to_tx q hash) index).

Definition handle_get_output_script (q : archive) (media : Z) (hash : hash_digest) (index : Z) :
    option (list action) :=
  send_found media (get_output_script q (to_tx q hash) index).

Definition handle_get_output_spender (q : archive) (media : Z) (hash : hash_digest) (index : Z) :
    option (list action) :=
  match get_spender q (hash, index) with
  | None => Some (status not_found)
  | Some spender => send_object media (to_bin spender point_size) (object_json spender)
  end.

(** A set of points of one size. *)
Definition send_points (media : Z) (points : list wire_object) (size : Z) : option (list action) :=
  if (length points =? 0)%nat then Some (status not_found)
  else
    send_object media (to_bin_array points (Z.of_nat (length points) * size))
      (array_t (object_json <$> points)).

Definition handle_get_output_spenders (q : archive) (media : Z) (hash : hash_digest) (index : Z) :
    option (list action) :=
  send_points media (get_spenders q (hash, index)) inpoint_size.

(** The flag that is stored is that of the stop. *)
Definition handle_get_output_subscribe (q : archive) (media : Z) (hash : hash_digest) (index : Z)
    (stop : bool) (s : native_state) : native_state * option (list action) :=
  (set_output stop s,
   if stop then Some [replies send_empty] else handle_get_output q media hash index).

(** *** Addresses *)

Definition defer_address (turbo_ : bool) (q : archive) (query : address_query) (media : Z)
    (hash : hash_digest) (turbo : bool) : list action :=
  if negb (address_enabled q) then status not_implemented
  else [defers_query query media (turbo && turbo_) hash].

Definition handle_get_address turbo_ q := defer_address turbo_ q query_outpoints.
Definition handle_get_address_confirmed turbo_ q := defer_address turbo_ q query_confirmed.
Definition handle_get_address_unconfirmed turbo_ q := defer_address turbo_ q query_unconfirmed.
Definition handle_get_address_balance turbo_ q := defer_address turbo_ q query_balance.

Definition handle_get_address_subscribe (turbo_ : bool) (q : archive) (media : Z) (hash : hash_digest)
    (turbo stop : bool) (s : native_state) : native_state * list action :=
  (set_address (negb stop) s,
   if stop then [replies send_empty] else handle_get_address turbo_ q media hash turbo).

(** The completions, on the strand; a code is that of the query. *)
Definition complete_get_address (stopped : bool) (media : Z) (found : code + list wire_object) :
    option (list action) :=
  if stopped then Some []
  else
    match found with
    | inl _ => Some (status internal_server_error)
    | inr set => send_points media set outpoint_size
    end.

Definition complete_get_address_balance (stopped : bool) (media : Z) (found : code + Z) : list action :=
  if stopped then []
  else
    match found with
    | inl _ => status internal_server_error
    | inr balance => send_bytes media (to_little_endian_size balance) (uint64_t balance)
    end.

(** A query, off the strand, and its completion. *)
Definition run_address_query `{!AddressIndex} (q : archive) (stopped : bool) (query : address_query)
    (media : Z) (turbo : bool) (hash : hash_digest) : option (list action) :=
  match query with
  | query_outpoints => complete_get_address stopped media (get_address_outpoints q turbo hash)
  | query_confirmed => complete_get_address stopped media (get_confirmed_unspent_outpoints q turbo hash)
  | query_unconfirmed => complete_get_address stopped media (get_unconfirmed_unspent_outpoints q turbo hash)
  | query_balance => Some (complete_get_address_balance stopped media (get_confirmed_balance q turbo hash))
  end.

(** *** Configuration *)

Definition get_active_height (q : archive) (hash : hash_digest) : Z :=
  let link := to_header q hash in
  match get_context q link with
  | Some context =>
      if is_enabled context "bip141" && is_candidate_header q link then context_height context else 0
  | None => 0
  end.

(** The settings: whether blocks are limited, and the hashes of the milestone and of
    the top checkpoint. *)
Definition get_pruned_height (limited : bool) (milestone checkpoint : hash_digest) (q : archive) : Z :=
  if negb limited then 0 else Z.max (get_active_height q milestone) (get_active_height q checkpoint).

Definition handle_get_configuration (turbo witness retarget difficult limited : bool)
    (milestone checkpoint : hash_digest) (q : archive) (media : Z) : list action :=
  if negb (media =? media_json) then status not_acceptable
  else
    [replies (send_json (object_t
      [("address", boolean_t (address_enabled q)); ("filter", boolean_t (filter_enabled q));
       ("turbo", boolean_t turbo); ("witness", boolean_t witness); ("retarget", boolean_t retarget);
       ("difficult", boolean_t difficult);
       ("pruned", uint64_t (get_pruned_height limited milestone checkpoint q))]))].

End Native.
