(* ===== verification/NativeService.v ===== *)
(** Dispatch of the native service (src/protocols/native/protocol_native.cpp): the
    requests of http and of websockets to the handlers of Native.v, and the chaser
    events to the subscriptions of a websocket. *)
From S2P Require Import Prelude Rpc Errors System Numbers Target Interface NativeTarget Queries FeeHistogram ElectrumSubscribe ElectrumOutpoints Dispatch HttpService MempoolFile Archive BlockStats BitcoindBlockchain ElectrumTransactions Native.

(** ** Operations *)

(** The settings that the configuration reports; the first is also [turbo()]. *)
Record native_settings := NativeSettings {
  turbo_setting : bool;
  witness_setting : bool;
  retarget_setting : bool;
  difficult_setting : bool;
  limited_setting : bool;
  milestone_setting : hash_digest;
  checkpoint_setting : hash_digest;
}.

Definition initial_state `{MediaValues} : native_state :=
  NativeState media_unknown media_unknown media_unknown false false.

Section Dispatch.
Context `{Text} `{SizeMath} `{MediaValues} `{Uri} `{Dispatcher} `{ChainArchive} `{!BlockArchive}
  `{Scripts} `{!TxArchive} `{!ElectrumTxArchive} `{!NativeArchive}.
Context (settings : native_settings).

Definition stays (s : native_state) (actions : option (list action)) :
    option (native_state * list action) := (λ actions, (s, actions)) <$> actions.

(** The subscriptions of [start]: the handler of a method, with the arguments of the
    request. *)
Definition invoke (q : archive) (s : native_state) (name : string) (o : object) :
    option (native_state * list action) :=
  media ← argument_number o "media";
  let witness := argument_boolean o "witness" true in
  let turbo := argument_boolean o "turbo" true in
  let stop := argument_boolean o "stop" false in
  let index := argument_number o "index" in
  let required := h ← argument_hash o "hash"; h in
  let by_block (handle : option (option hash_digest) → option Z → option (list action)) :=
    hash ← argument_nullable o "hash"; height ← argument_nullable_number o "height";
    stays s (handle hash height) in
  let by_filter (handle : Z → option (option hash_digest) → option Z → option (list action)) :=
    type ← argument_number o "type"; by_block (handle type) in
  let by_point (handle : hash_digest → Z → option (list action)) :=
    hash ← required; index ← index; stays s (handle hash index) in
  let by_script (handle : hash_digest → bool → list action) :=
    hash ← required; turbo ← turbo; Some (s, handle hash turbo) in
  if name == "configuration" then
    Some (s, handle_get_configuration (turbo_setting settings) (witness_setting settings)
      (retarget_setting settings) (difficult_setting settings) (limited_setting settings)
      (milestone_setting settings) (checkpoint_setting settings) q media)
  else if name == "top" then Some (s, handle_get_top q media)
  else if name == "top_subscribe" then stop ← stop; Some (handle_get_top_subscribe q media stop s)
  else if name == "block" then
    witness ← witness; by_block (λ hash height, handle_get_block q media hash height witness)
  else if name == "block_header" then by_block (handle_get_block_header q media)
  else if name == "block_header_context" then by_block (handle_get_block_header_context q media)
  else if name == "block_details" then by_block (handle_get_block_details q media)
  else if name == "block_txs" then by_block (handle_get_block_txs q media)
  else if name == "block_filter" then by_filter (handle_get_block_filter q media)
  else if name == "block_filter_hash" then by_filter (handle_get_block_filter_hash q media)
  else if name == "block_filter_header" then by_filter (handle_get_block_filter_header q media)
  else if name == "block_tx" then
    witness ← witness; position ← argument_number o "position";
    by_block (λ hash height, handle_get_block_tx q media position hash height witness)
  else if name == "block_subscribe" then stop ← stop; Some (handle_get_block_subscribe q media stop s)
  else if name == "tx" then
    hash ← required; witness ← witness; stays s (handle_get_tx q media hash witness)
  else if name == "tx_header" then hash ← required; stays s (handle_get_tx_header q media hash)
  else if name == "tx_details" then hash ← required; Some (s, handle_get_tx_details q media hash)
  else if name == "tx_subscribe" then stop ← stop; Some (handle_get_tx_subscribe media stop s)
  else if name == "inputs" then
    hash ← required; witness ← witness; stays s (handle_get_inputs q media hash witness)
  else if name == "input" then
    witness ← witness; by_point (λ hash index, handle_get_input q media hash index witness)
  else if name == "input_script" then by_point (handle_get_input_script q media)
  else if name == "input_witness" then by_point (handle_get_input_witness q media)
  else if name == "outputs" then hash ← required; stays s (handle_get_outputs q media hash)
  else if name == "output" then by_point (handle_get_output q media)
  else if name == "output_script" then by_point (handle_get_output_script q media)
  else if name == "output_spender" then by_point (handle_get_output_spender q media)
  else if name == "output_spenders" then by_point (handle_get_output_spenders q media)
  else if name == "output_subscribe" then
    hash ← required; index ← index; stop ← stop;
    let '(s, actions) := handle_get_output_subscribe q media hash index stop s in stays s actions
  else if name == "address" then by_script (handle_get_address (turbo_setting settings) q media)
  else if name == "address_confirmed" then
    by_script (handle_get_address_confirmed (turbo_setting settings) q media)
  else if name == "address_unconfirmed" then
    by_script (handle_get_address_unconfirmed (turbo_setting settings) q media)
  else if name == "address_balance" then
    by_script (handle_get_address_balance (turbo_setting settings) q media)
  else if name == "address_subscribe" then
    hash ← required; turbo ← turbo; stop ← stop;
    Some (handle_get_address_subscribe (turbo_setting settings) q media hash turbo stop s)
  else None.

(** The code of a dispatch, or what the handler does. *)
Definition notify (q : archive) (s : native_state) (model : request_t) :
    option (code + (native_state * list action)) :=
  match find_method native_interface (method model), object_params model with
  | Some m, Some o =>
      match check_parameters m o with
      | Some ec => Some (inl ec)
      | None => inr <$> invoke q s (method model) o
      end
  | _, _ => Some (inl unexpected_method)
  end.

(** *** http *)

(** The actions, [None] if the request is not handled. *)
Definition try_dispatch_object (q : archive) (s : native_state) (get : incoming) (accepts : list Z)
    (target : string) : option (native_state * option (list action)) :=
  '(fault, model) ← native_target request_default target;
  match fault with
  | Error.success =>
      let '(ok, model) := native_query model target accepts in
      if negb ok then Some (s, Some (status bad_request))
      else
        media ← get_media model;
        if media =? media_unknown then Some (s, Some (status not_acceptable))
        else if media =? media_html then Some (s, None)
        else if negb (permitted get (method model)) then Some (s, Some (status forbidden))
        else
          notified ← notify q s model;
          Some match notified with
               | inl _ => (s, Some (status bad_request))
               | inr (s, actions) => (s, Some actions)
               end
  | _ => Some (s, None)
  end.

(** [None] if the behaviour of the code is undefined. *)
Definition handle_receive_get `{!Pages} (options : html_options) (q : archive) (stopped : bool)
    (s : native_state) (get : incoming) (accepts : list Z) (target : string) :
    option (native_state * list action) :=
  if stopped then Some (s, [])
  else
    match refused get target with
    | Some fault => Some (s, status fault)
    | None =>
        '(s, handled) ← try_dispatch_object q s get accepts target;
        Some (s, default [replies (dispatch_page options target)] handled)
    end.

(** *** Websockets *)

(** The codes that stop a channel. *)
Inductive stop_reason := stop_unauthorized | stop_not_acceptable | stop_bad_request.

(** A frame: whether its channel is authorized, the text of its body, if it is one,
    and the methods that its credential permits. *)
Record ws_frame := WsFrame {
  is_authorized : bool;
  frame_text : option string;
  frame_permits : string → bool;
}.

Definition dispatch_websocket (q : archive) (s : native_state) (f : ws_frame) :
    option (native_state * (stop_reason + list action)) :=
  let stop reason := Some (s, inl reason) in
  if negb (is_authorized f) then stop stop_unauthorized
  else
    match frame_text f with
    | None => stop stop_not_acceptable
    | Some target =>
        '(fault, model) ← native_target request_default target;
        match fault with
        | Error.success =>
            let '(ok, model) := native_query model target [media_json] in
            if negb ok then stop stop_bad_request
            else
              media ← get_media model;
              if media =? media_html then stop stop_not_acceptable
              else if negb (frame_permits f (method model)) then stop stop_unauthorized
              else
                notified ← notify q s model;
                match notified with
                | inl _ => stop stop_bad_request
                | inr (s, actions) => Some (s, inr actions)
                end
        | _ => stop stop_bad_request
        end
    end.

(** *** Events *)

(** The chaser events, with their links. *)
Inductive chase_event :=
  | chase_block (link : header_link)
  | chase_reorganized (link : header_link)
  | chase_transaction (link : tx_link)
  | chase_other.

(** What is posted to the strand. *)
Inductive posted :=
  | post_top (link : header_link) (media : Z)
  | post_block (link : header_link) (media : Z)
  | post_transaction (link : tx_link) (media : Z).

Definition subscribed {A} (media : Z) (task : Z → A) : list A :=
  if media =? media_unknown then [] else [task media].

(** Whether the subscription to the chaser remains, and what is posted. *)
Definition handle_chase (stopped websocket : bool) (event : chase_event) (s : native_state) :
    bool * list posted :=
  if stopped then (false, [])
  else if negb websocket then (true, [])
  else
    (true,
     match event with
     | chase_block link =>
         (subscribed (top_subscribe s) (post_top link) ++ subscribed (block_subscribe s) (post_block link))%list
     | chase_reorganized link => subscribed (top_subscribe s) (post_top link)
     | chase_transaction link => subscribed (tx_subscribe s) (post_transaction link)
     | chase_other => []
     end).

Definition run_posted (q : archive) (task : posted) : list action :=
  match task with
  | post_top link media => do_top q link media
  | post_block link media => do_block q link media
  | post_transaction link media => do_transaction q link media
  end.

(** *** A websocket channel *)

(** What a channel receives, in order: frames, with the archive as it is then, and
    events. *)
Inductive ws_input :=
  | ws_receives (q : archive) (f : ws_frame)
  | ws_event (event : chase_event).

Record ws_channel := WsChannel {
  is_stopped : bool;
  subscriptions : native_state;
}.

Definition opened : ws_channel := WsChannel false initial_state.

Definition ws_step (c : ws_channel) (i : ws_input) : option (ws_channel * list posted) :=
  match i with
  | ws_receives q f =>
      if is_stopped c then Some (c, [])
      else
        '(s, answer) ← dispatch_websocket q (subscriptions c) f;
        Some (WsChannel match answer with inl _ => true | inr _ => false end s, [])
  | ws_event event => Some (c, (handle_chase (is_stopped c) true event (subscriptions c)).2)
  end.

Fixpoint ws_run (c : ws_channel) (inputs : list ws_input) : option (ws_channel * list posted) :=
  match inputs with
  | [] => Some (c, [])
  | i :: inputs =>
      '(c, tasks) ← ws_step c i;
      '(c, later) ← ws_run c inputs;
      Some (c, (tasks ++ later)%list)
  end.

(** ** Reference: the subscriptions that frames ask for *)

(** The method, media and stop flag of a frame, by its route and query. *)
Definition asks (f : ws_frame) : option (string * Z * bool) :=
  target ← frame_text f;
  segments ← path_segments target;
  '(name, _) ← find_route native_routes segments [];
  query ← decode_query target;
  Some (name, default media_unknown (chosen_media native_formats query [media_json]),
        flag_is query "stop" "true").

(** The media of a subscription is that of the last frame that asks for it, unless
    that is to stop it. *)
Definition subscribe_of (name : string) (media : Z) (i : ws_input) : Z :=
  match i with
  | ws_receives _ f =>
      match asks f with
      | Some (n, m, stop) => if n == name then if stop then media_unknown else m else media
      | None => media
      end
  | ws_event _ => media
  end.

Definition media_of (name : string) (inputs : list ws_input) : Z :=
  foldl (subscribe_of name) media_unknown inputs.

Definition posts (before : list ws_input) (event : chase_event) : list posted :=
  match event with
  | chase_block link =>
      (subscribed (media_of "top_subscribe" before) (post_top link) ++
       subscribed (media_of "block_subscribe" before) (post_block link))%list
  | chase_reorganized link => subscribed (media_of "top_subscribe" before) (post_top link)
  | chase_transaction link => subscribed (media_of "tx_subscribe" before) (post_transaction link)
  | chase_other => []
  end.

(** What each event posts, by what precedes it. *)
Definition ws_posts (inputs : list ws_input) : list posted :=
  concat (imap (λ n i,
    match i with
    | ws_receives _ _ => []
    | ws_event event => posts (take n inputs) event
    end) inputs).

End Dispatch.

(** ** What the archive promises *)

(** The size of an object is that of its bytes. *)
Definition sized (o : wire_object) : Prop := serialized_size o = Z.of_nat (length (object_bytes o)).

Definition sized_as (size : Z) (o : wire_object) : Prop := size = Z.of_nat (length (object_bytes o)).

Class NativeLaws `{AddressIndex} : Prop := {
  header_sized q link header : native_header q link = Some header → sized_as native_header_size header.1;
  tx_sized q link witness o : native_tx q link witness = Some o → sized o;
  inputs_sized q link witness os : get_inputs q link witness = Some os → Forall sized os;
  input_sized q link index witness o : get_input q link index witness = Some o → sized o;
  input_script_sized q link index o : get_input_script q link index = Some o → sized o;
  witness_sized q link index valid o : get_witness q link index = Some (valid, o) → sized o;
  outputs_sized q link os : get_outputs q link = Some os → Forall sized os;
  output_sized q link index o : native_output q link index = Some o → sized o;
  output_script_sized q link index o : get_output_script q link index = Some o → sized o;
  spender_sized q p o : get_spender q p = Some o → sized_as point_size o;
  spenders_sized q p : Forall (sized_as inpoint_size) (get_spenders q p);
  (** The json of a block has that of its header. *)
  block_json_header q link witness model :
    native_block_json q link witness = Some model →
    ∃ header, find_field "header" model = Some (object_t header);
  outpoints_sized q turbo hash os :
    get_address_outpoints q turbo hash = inr os → Forall (sized_as outpoint_size) os;
  confirmed_sized q turbo hash os :
    get_confirmed_unspent_outpoints q turbo hash = inr os → Forall (sized_as outpoint_size) os;
  unconfirmed_sized q turbo hash os :
    get_unconfirmed_unspent_outpoints q turbo hash = inr os → Forall (sized_as outpoint_size) os;
}.

(** ** Every request is answered once *)

Section Answers.
Context `{TextLaws} `{SizeMath} `{MediaValues} `{Uri} `{Dispatcher} `{!DispatcherLaws} `{ChainArchive}
  `{!BlockArchive} `{Scripts} `{!TxArchive} `{!ElectrumTxArchive} `{!NativeArchive} `{!AddressIndex}
  `{!NativeLaws}.
Context (settings : native_settings).

Definition replied (actions : option (list action)) : Prop := ∃ r, actions = Some [replies r].

(** One action: a reply, or a query whose completion replies. *)
Definition answers (a : action) : Prop :=
  match a with
  | replies _ => True
  | notifies _ => False
  | defers_query query media turbo hash => ∀ q, replied (run_address_query q false query media turbo hash)
  end.

Lemma replied_status fault : replied (Some (status fault)).
Proof. by eexists. Qed.

Lemma send_object_replied media bytes json : is_Some bytes → replied (send_object media bytes json).
Proof. intros [out ->]. unfold send_object. simpl. repeat case_match; by eexists. Qed.

Lemma send_bytes_replied media bytes json : replied (Some (send_bytes media bytes json)).
Proof. unfold send_bytes. repeat case_match; by eexists. Qed.

Lemma to_bin_total o size : sized_as size o → is_Some (to_bin o size).
Proof. intros Hsize. unfold to_bin. by rewrite write_chunk_exact. Qed.

Lemma send_found_replied media found : (∀ o, found = Some o → sized o) → replied (send_found media found).
Proof.
  intros Hsized. unfold send_found. destruct found as [o|]; [|by eexists].
  apply send_object_replied, to_bin_total. by apply Hsized.
Qed.

Lemma send_list_replied q media link os :
  (∀ list, os = Some list → Forall sized list) → replied (send_list q media link os).
Proof.
  intros Hsized. unfold send_list. destruct (is_tx_terminal link); [by eexists|].
  destruct os as [[|o os]|]; [by eexists| |by eexists].
  apply send_object_replied. unfold to_bin_array. rewrite write_chunk_exact; [done|].
  specialize (Hsized _ eq_refl). generalize dependent (o :: os). clear o os. intros os Hos.
  enough (∀ total, foldl (λ total o, total + serialized_size o) total os =
    total + Z.of_nat (length (os ≫= object_bytes))) as -> by lia.
  induction Hos as [|o os Ho _ IH]; intros total; [simpl; lia|].
  cbn [foldl mbind list_bind]. rewrite IH, Ho, length_app. unfold mbind. lia.
Qed.

Lemma send_points_replied media points size :
  Forall (sized_as size) points → replied (send_points media points size).
Proof.
  intros Hpoints. unfold send_points. destruct (_ =? _)%nat; [by eexists|].
  apply send_object_replied. unfold to_bin_array. rewrite write_chunk_exact; [done|].
  induction Hpoints as [|o points Ho _ IH]; [done|].
  cbn [mbind list_bind length]. rewrite length_app. unfold sized_as in Ho. lia.
Qed.

Lemma send_header_replied q media height link header :
  native_header q link = Some header → replied (send_header q media height link header).
Proof. intros Hheader. apply send_object_replied, to_bin_total. by eapply header_sized. Qed.

Lemma to_native_header_total q height hash :
  hash ≠ Some None → ∃ link, to_native_header q height hash = Some link.
Proof.
  intros Hhash. unfold to_native_header. destruct hash as [[hash|]|]; [by eexists|done|].
  destruct height; by eexists.
Qed.

Lemma address_query_replied q query media turbo hash :
  replied (run_address_query q false query media turbo hash).
Proof.
  destruct query; cbn [run_address_query]; unfold complete_get_address, complete_get_address_balance;
    [destruct (get_address_outpoints q turbo hash) as [ec|os] eqn:Hq
    |destruct (get_confirmed_unspent_outpoints q turbo hash) as [ec|os] eqn:Hq
    |destruct (get_unconfirmed_unspent_outpoints q turbo hash) as [ec|os] eqn:Hq
    |destruct (get_confirmed_balance q turbo hash) as [ec|balance]];
    try apply replied_status; try apply send_bytes_replied; apply send_points_replied.
  - by eapply outpoints_sized.
  - by eapply confirmed_sized.
  - by eapply unconfirmed_sized.
Qed.

Lemma handle_get_block_replied q media hash height witness :
  hash ≠ Some None → replied (handle_get_block q media hash height witness).
Proof.
  intros Hhash. unfold handle_get_block.
  destruct (to_native_header_total q height hash Hhash) as [link ->]. simpl.
  destruct link as [link|]; [|by eexists]. destruct (is_terminal link); [by eexists|].
  destruct (native_block_size q link witness); [|by eexists].
  repeat case_match; try (by eexists).
  all: match goal with Hjson : native_block_json _ _ _ = Some _ |- _ =>
    destruct (block_json_header _ _ _ _ Hjson) as [? ?] end; simplify_eq; by eexists.
Qed.

Lemma handle_get_block_header_replied q media hash height :
  hash ≠ Some None → replied (handle_get_block_header q media hash height).
Proof.
  intros Hhash. unfold handle_get_block_header.
  destruct (to_native_header_total q height hash Hhash) as [link ->]. simpl.
  destruct link as [link|]; [|by eexists].
  destruct (native_header q link) as [header|] eqn:Hheader; [|by eexists]. by apply send_header_replied.
Qed.

Lemma send_filter_replied q media type hash height get json :
  hash ≠ Some None → replied (send_filter q media type hash height get json).
Proof.
  intros Hhash. unfold send_filter. destruct (_ || _); [by eexists|].
  destruct (to_native_header_total q height hash Hhash) as [link ->]. simpl.
  destruct (_ ≫= get); [apply send_bytes_replied|by eexists].
Qed.

Lemma handle_get_block_header_context_replied q media hash height :
  hash ≠ Some None → replied (handle_get_block_header_context q media hash height).
Proof.
  intros Hhash. unfold handle_get_block_header_context. case_match; [by eexists|].
  destruct (to_native_header_total q height hash Hhash) as [link ->]. simpl.
  repeat case_match; by eexists.
Qed.

Lemma handle_get_block_details_replied q media hash height :
  hash ≠ Some None → replied (handle_get_block_details q media hash height).
Proof.
  intros Hhash. unfold handle_get_block_details. case_match; [by eexists|].
  destruct (to_native_header_total q height hash Hhash) as [link ->]. simpl.
  repeat case_match; by eexists.
Qed.

Lemma handle_get_block_txs_replied q media hash height :
  hash ≠ Some None → replied (handle_get_block_txs q media hash height).
Proof.
  intros Hhash. unfold handle_get_block_txs.
  destruct (to_native_header_total q height hash Hhash) as [link ->]. simpl.
  case_match; [by eexists|apply send_bytes_replied].
Qed.

Lemma handle_get_block_tx_replied q media position hash height witness :
  hash ≠ Some None → replied (handle_get_block_tx q media position hash height witness).
Proof.
  intros Hhash. unfold handle_get_block_tx.
  destruct (to_native_header_total q height hash Hhash) as [link ->]. simpl.
  apply send_found_replied. destruct link as [link|]; [|done]. intros o Ho. by eapply tx_sized.
Qed.

Lemma witness_found_sized q link index :
  ∀ o, match get_witness q link index with
       | Some (true, witness) => Some witness
       | _ => None
       end = Some o → sized o.
Proof. intros o. repeat case_match; intros; simplify_eq. by eapply witness_sized. Qed.

(** A handler that keeps the subscriptions and replies, or that does one action. *)
Definition handled_once (name : string) (result : option (native_state * list action)) : Prop :=
  ∃ s a, result = Some (s, [a]) ∧ (answers a ∨ name = "tx_subscribe" ∧ a = notifies send_empty).

Lemma stays_handled name s actions : replied actions → handled_once name (stays s actions).
Proof. intros [r ->]. exists s, (replies r). split; [done|by left]. Qed.

Lemma replied_handled name s actions : replied (Some actions) → handled_once name (Some (s, actions)).
Proof. intros Hr. by apply (stays_handled name s (Some actions)). Qed.

Lemma defer_address_handled name s q query media hash turbo_ turbo :
  handled_once name (Some (s, defer_address turbo_ q query media hash turbo)).
Proof.
  unfold defer_address. destruct (address_enabled q); [|apply replied_handled; by eexists].
  exists s. eexists. split; [done|]. left. intros q'. apply address_query_replied.
Qed.

Ltac stop_flag :=
  unfold handle_get_top_subscribe, handle_get_block_subscribe, handle_get_output_subscribe,
    handle_get_address_subscribe;
  match goal with |- context [if ?stop then _ else _] => destruct stop end.

Lemma native_invoke_answered q s name m o :
  find_method native_interface name = Some m → check_parameters m o = None →
  handled_once name (invoke settings q s name o).
Proof.
  intros Hm Hcheck. apply check_parameters_fit in Hcheck.
  unfold find_method in Hm. apply List.find_some in Hm as [Hin Hname%String.eqb_eq].
  apply list_elem_of_In in Hin. unfold native_interface in Hin.
  repeat (apply elem_of_cons in Hin as [->|Hin];
    [cbn [method_name parameters] in *; subst name; unfold invoke; cbv [String.eqb Ascii.eqb Bool.eqb]|]);
    [..|by apply not_elem_of_nil in Hin].
  all: cbv beta zeta; fits; cbv beta zeta.
  all: try apply defer_address_handled.
  all: try (apply stays_handled; first [apply send_found_replied; by eauto using tx_sized, inputs_sized, input_sized, input_script_sized,
      outputs_sized, output_sized, output_script_sized, witness_found_sized
    | apply send_list_replied; by eauto using tx_sized, inputs_sized, input_sized, input_script_sized,
      outputs_sized, output_sized, output_script_sized, witness_found_sized | by apply send_filter_replied]).
  - apply replied_handled. unfold handle_get_configuration. destruct (negb (_ =? _)); by eexists.
  - apply replied_handled, send_bytes_replied.
  - stop_flag; apply replied_handled; [by eexists|apply send_bytes_replied].
  - by apply stays_handled, handle_get_block_replied.
  - by apply stays_handled, handle_get_block_header_replied.
  - by apply stays_handled, handle_get_block_header_context_replied.
  - by apply stays_handled, handle_get_block_details_replied.
  - by apply stays_handled, handle_get_block_txs_replied.
  - by apply stays_handled, handle_get_block_tx_replied.
  - stop_flag; apply replied_handled; repeat (first [done | by eexists | apply send_bytes_replied | case_match]).
  - apply stays_handled. unfold handle_get_tx_header. destruct (is_terminal _); [by eexists|].
    destruct (native_header q _) eqn:Hheader; [|by eexists]. by apply send_header_replied.
  - apply replied_handled. unfold handle_get_tx_details. repeat (first [done | by eexists | case_match]).
  - do 2 eexists. split; [done|by right].
  - apply stays_handled. unfold handle_get_output_spender. destruct (get_spender q _) eqn:Hspender; [|by eexists].
    apply send_object_replied, to_bin_total. by eapply spender_sized.
  - apply stays_handled, send_points_replied, spenders_sized.
  - stop_flag; apply stays_handled; [by eexists|]. apply send_found_replied. by eauto using output_sized.
  - stop_flag; [apply replied_handled; by eexists|apply defer_address_handled].
Qed.

End Answers.

(** ** Subscriptions are those that frames ask for *)

Section Subscriptions.
Context `{TextLaws} `{SizeMath} `{MediaValues} `{Uri} `{Dispatcher} `{ChainArchive}
  `{!BlockArchive} `{Scripts} `{!TxArchive} `{!ElectrumTxArchive} `{!NativeArchive}.
Context (settings : native_settings).

(** The media of a subscription after a method with arguments. *)
Definition subscribes (name method : string) (o : object) (media : Z) : Z :=
  if method == name then
    if default false (argument_boolean o "stop" false) then media_unknown
    else default media_unknown (argument_number o "media")
  else media.

Definition subscribes_all (method : string) (o : object) (s s' : native_state) : Prop :=
  top_subscribe s' = subscribes "top_subscribe" method o (top_subscribe s) ∧
  block_subscribe s' = subscribes "block_subscribe" method o (block_subscribe s) ∧
  tx_subscribe s' = subscribes "tx_subscribe" method o (tx_subscribe s).

Lemma stays_inv s actions s' actions' : stays s actions = Some (s', actions') → s' = s.
Proof. unfold stays. destruct actions; simpl; [|done]. by intros [= -> _]. Qed.

Lemma output_subscribe_media q media hash index stop s s' actions :
  (let '(s, actions) := handle_get_output_subscribe q media hash index stop s in stays s actions) =
    Some (s', actions) →
  top_subscribe s' = top_subscribe s ∧ block_subscribe s' = block_subscribe s ∧
  tx_subscribe s' = tx_subscribe s.
Proof. cbn. by intros ->%stays_inv. Qed.

Lemma address_subscribe_media turbo_ q media hash turbo stop s s' actions :
  Some (handle_get_address_subscribe turbo_ q media hash turbo stop s) = Some (s', actions) →
  top_subscribe s' = top_subscribe s ∧ block_subscribe s' = block_subscribe s ∧
  tx_subscribe s' = tx_subscribe s.
Proof. by intros [= <- _]. Qed.

Lemma invoke_subscriptions q s name o s' actions :
  invoke settings q s name o = Some (s', actions) → subscribes_all name o s s'.
Proof.
  unfold invoke, subscribes_all, subscribes.
  destruct (argument_number o "media") as [media|]; [|done]. cbn [mbind option_bind default].
  repeat match goal with
  | |- (if ?n == ?k then _ else _) = _ → _ =>
      destruct (String.eqb_spec n k) as [->|]; [cbv [String.eqb Ascii.eqb Bool.eqb]|]
  end; cbv beta zeta; cbn [mbind option_bind]; intros Hrun;
  repeat match type of Hrun with
  | option_bind _ _ ?f ?x = _ => destruct x; cbn [option_bind] in Hrun; [|done]
  | mbind ?f ?x = _ => destruct x; cbn [mbind option_bind] in Hrun; [|done]
  end.
  all: first
    [ discriminate Hrun
    | apply stays_inv in Hrun as ->; done
    | by injection Hrun as <- _
    | by apply address_subscribe_media in Hrun as (-> & -> & ->)
    | by apply output_subscribe_media in Hrun as (-> & -> & ->)
    | match type of Hrun with Some (_ _ _ ?stop _) = _ => destruct stop; by injection Hrun as <- _ end
    | match type of Hrun with Some (_ _ ?stop _) = _ => destruct stop; by injection Hrun as <- _ end ].
Qed.
(** No route sets an argument of the query. *)
Lemma native_routes_fresh :
  forallb (λ r, forallb (λ key, negb (bool_decide (key ∈ native_query_arguments))) (route_types r).*1)
    native_routes = true.
Proof. vm_compute. reflexivity. Qed.

Lemma native_route_find segments name ps key :
  find_route native_routes segments [] = Some (name, ps) → key ∈ native_query_arguments →
  find_field key ps = None.
Proof.
  intros (r & Hr & Hm)%find_route_elem Hkey.
  destruct (find_field key ps) as [v|] eqn:Hfind; [|done]. apply find_field_elem in Hfind.
  apply typed_route in Hm as [_ [Htyped _]]. apply Htyped in Hfind.
  pose proof (forallb_elem _ _ _ native_routes_fresh Hr) as Hfresh. cbn beta in Hfresh.
  apply (list_elem_of_fmap_2 fst) in Hfind.
  apply (forallb_elem _ _ _ Hfresh) in Hfind. by rewrite bool_decide_eq_true_2 in Hfind.
Qed.

(** A websocket has a media by default. *)
Lemma chosen_media_json query :
  format_ok native_formats query = true →
  ∃ media, chosen_media native_formats query [media_json] = Some media.
Proof.
  unfold format_ok, chosen_media. destruct (named_format native_formats _) as [media|]; [by eexists|].
  intros _. unfold native_formats, accepts_media. cbn [preferred List.find].
  rewrite bool_decide_eq_true_2 by set_solver. by eexists.
Qed.

(** What a frame that is not refused asks for is what it subscribes to. *)
Lemma dispatch_websocket_asks q s f s' actions :
  dispatch_websocket settings q s f = Some (s', inr actions) →
  ∃ name media stop, asks f = Some (name, media, stop) ∧
    let media_after subscription before :=
      if name == subscription then if stop then media_unknown else media else before in
    top_subscribe s' = media_after "top_subscribe" (top_subscribe s) ∧
    block_subscribe s' = media_after "block_subscribe" (block_subscribe s) ∧
    tx_subscribe s' = media_after "tx_subscribe" (tx_subscribe s).
Proof.
  unfold dispatch_websocket, asks. destruct (is_authorized f); [|done]. cbn [negb].
  destruct (frame_text f) as [target|]; [|done]. cbn [mbind option_bind].
  destruct (native_target request_default target) as [[fault model]|] eqn:Htarget; [|done].
  cbn [mbind option_bind]. destruct fault; try done.
  apply (run_target_parses _ _ native_body_ok) in Htarget as (segments & name & ps & -> & Hroute & ->).
  cbn [mbind option_bind]. rewrite Hroute. cbn [mbind option_bind].
  destruct (native_query (message name ps) target [media_json]) as [ok model] eqn:Hquery.
  destruct ok; [|done]. cbn [negb].
  destruct (decode_query target) as [query|] eqn:Hdecode;
    [|by (unfold native_query in Hquery; rewrite Hdecode in Hquery)].
  destruct (native_query_correct (message name ps) target [media_json] query ps Hdecode eq_refl)
    as (ok & o & Hrun & Hok & Hfind).
  rewrite Hrun in Hquery. injection Hquery as -> <-. specialize (Hfind eq_refl).
  symmetry in Hok. apply andb_prop in Hok as [_ Hformat].
  destruct (chosen_media_json query Hformat) as [media Hmedia].
  destruct (get_media _) as [wanted|]; [|done]. cbn [mbind option_bind].
  destruct (wanted =? media_html); [done|].
  change (method (with_params (message name ps) o)) with name.
  destruct (frame_permits f name); [|done]. cbn [negb]. unfold notify.
  change (method (with_params (message name ps) o)) with name.
  change (object_params (with_params (message name ps) o)) with (Some o).
  destruct (find_method native_interface name) as [m|]; [|done].
  destruct (check_parameters m o); [done|].
  destruct (invoke settings q s name o) as [[s1 acts]|] eqn:Hinvoke; [|done].
  cbn. intros [= <- _]. exists name, media, (flag_is query "stop" "true"). rewrite Hmedia. split; [done|].
  assert (argument_number o "media" = Some media) as Hnumber.
  { unfold argument_number. rewrite Hfind. unfold native_argument. rewrite Hmedia. done. }
  assert (argument_boolean o "stop" false = Some (flag_is query "stop" "true")) as Hstop.
  { unfold argument_boolean. rewrite Hfind. unfold native_argument. cbn.
    rewrite (native_route_find _ _ _ "stop" Hroute) by set_solver.
    by destruct (flag_is query "stop" "true"). }
  apply invoke_subscriptions in Hinvoke. unfold subscribes_all, subscribes in Hinvoke.
  by rewrite Hnumber, Hstop in Hinvoke.
Qed.

(** The subscriptions of a channel that received a sequence of inputs. *)
Definition subscribed_by (inputs : list ws_input) (s : native_state) : Prop :=
  top_subscribe s = media_of "top_subscribe" inputs ∧
  block_subscribe s = media_of "block_subscribe" inputs ∧
  tx_subscribe s = media_of "tx_subscribe" inputs.

Lemma ws_run_app c before after c' tasks :
  ws_run settings c (before ++ after) = Some (c', tasks) →
  ∃ c1 tasks1 tasks2, ws_run settings c before = Some (c1, tasks1) ∧
    ws_run settings c1 after = Some (c', tasks2) ∧ tasks = (tasks1 ++ tasks2)%list.
Proof.
  revert c tasks. induction before as [|i before IH]; intros c tasks; simpl.
  { intros Hrun. by exists c, [], tasks. }
  destruct (ws_step settings c i) as [[c1 posts]|]; [|done]. simpl.
  destruct (ws_run settings c1 (before ++ after)) as [[c2 later]|] eqn:Hrun; [|done].
  intros [= <- <-]. apply IH in Hrun as (c3 & tasks1 & tasks2 & -> & Hafter & ->). simpl.
  do 3 eexists. split; [done|]. split; [done|]. by rewrite (assoc_L (++)).
Qed.

Lemma ws_posts_snoc inputs i :
  ws_posts (inputs ++ [i]) =
    (ws_posts inputs ++ match i with ws_receives _ _ => [] | ws_event event => posts inputs event end)%list.
Proof.
  unfold ws_posts. rewrite imap_app, concat_app. f_equal.
  - f_equal. apply imap_ext. intros n j Hj. destruct j; [done|]. cbn. rewrite take_app_le; [done|].
    apply lookup_lt_Some in Hj. lia.
  - cbn. rewrite Nat.add_0_r, take_app_length, app_nil_r. done.
Qed.

Lemma ws_run_spec inputs c tasks :
  ws_run settings opened inputs = Some (c, tasks) → is_stopped c = false →
  subscribed_by inputs (subscriptions c) ∧ tasks = ws_posts inputs.
Proof.
  revert c tasks. induction inputs as [|i inputs IH] using rev_ind; intros c tasks.
  { by intros [= <- <-]. }
  intros (c1 & tasks1 & tasks2 & Hbefore & Hstep & ->)%ws_run_app Hc. cbn [ws_run] in Hstep.
  destruct (ws_step settings c1 i) as [[c2 tasks3]|] eqn:Hi; [|done]. cbn in Hstep.
  injection Hstep as -> <-. rewrite app_nil_r, ws_posts_snoc.
  assert (is_stopped c1 = false) as Hc1.
  { destruct (is_stopped c1) eqn:Hstop; [|done]. destruct i; cbn in Hi; rewrite ?Hstop in Hi; injection Hi as <- _; congruence. }
  destruct (IH _ _ Hbefore Hc1) as [(Htop & Hblock & Htx) ->]. unfold subscribed_by, media_of.
  rewrite !foldl_app. cbn [foldl]. destruct i as [q f|event]; cbn in Hi.
  - rewrite Hc1 in Hi. destruct (dispatch_websocket settings q (subscriptions c1) f) as [[s answer]|] eqn:Hf; [|done].
    cbn in Hi. injection Hi as <- <-. destruct answer as [|actions]; [done|].
    apply dispatch_websocket_asks in Hf as (name & media & stop & Hasks & Hs).
    cbn [subscribe_of subscriptions]. rewrite Hasks. split; [|done].
    fold (media_of "top_subscribe" inputs) (media_of "block_subscribe" inputs) (media_of "tx_subscribe" inputs).
    by rewrite <-Htop, <-Hblock, <-Htx.
  - injection Hi as <- <-. split; [done|]. f_equal. rewrite Hc1. cbn. unfold posts.
    by rewrite <-Htop, <-Hblock, <-Htx.
Qed.

End Subscriptions.

(** ** Totality *)

Section Total.
Context `{TextLaws} `{SizeMath} `{MediaValues} `{Uri} `{Dispatcher} `{!DispatcherLaws} `{ChainArchive}
  `{!BlockArchive} `{Scripts} `{!TxArchive} `{!ElectrumTxArchive} `{!NativeArchive} `{!AddressIndex}
  `{!NativeLaws}.
Context (settings : native_settings).

(** A request of a path is of a route, and its query leaves it an object with a
    media that can be read. *)
Lemma native_request_total target accepts :
  ∃ fault model, native_target request_default target = Some (fault, model) ∧
    (fault = Error.success → ∃ name ps ok o media, model = message name ps ∧
      native_query model target accepts = (ok, message name o) ∧ get_media (message name o) = Some media).
Proof.
  destruct (proj1 (run_target_parses _ _ native_body_ok request_default target)) as (fault & model & Htarget).
  exists fault, model. split; [exact Htarget|]. intros ->.
  apply (run_target_parses _ _ native_body_ok) in Htarget as (segments & name & ps & _ & _ & ->).
  assert (∃ ok o, native_query (message name ps) target accepts = (ok, message name o)) as (ok & o & Hquery).
  { destruct (decode_query target) as [query|] eqn:Hdecode.
    - destruct (native_query_correct (message name ps) target accepts query ps Hdecode eq_refl)
        as (ok & o & -> & _). by exists ok, o.
    - exists false, ps. unfold native_query. by rewrite Hdecode. }
  assert (∃ media, get_media (message name o) = Some media) as [media Hmedia].
  { unfold get_media. cbn. repeat case_match; by eexists. }
  by exists name, ps, ok, o, media.
Qed.

Lemma notify_total q s name o :
  ∃ notified, notify settings q s (message name o) = Some notified ∧
    match notified with
    | inl _ => True
    | inr (s', actions) => ∃ a, actions = [a] ∧ (answers a ∨ name = "tx_subscribe" ∧ a = notifies send_empty)
    end.
Proof.
  unfold notify. change (method (message name o)) with name.
  change (object_params (message name o)) with (Some o).
  destruct (find_method native_interface name) as [m|] eqn:Hm; [|by eexists].
  destruct (check_parameters m o) eqn:Hcheck; [by eexists|].
  destruct (native_invoke_answered settings q s name m o Hm Hcheck) as (s' & a & -> & Ha).
  eexists. split; [done|]. by exists a.
Qed.

Lemma dispatch_websocket_total q s f : is_Some (dispatch_websocket settings q s f).
Proof.
  unfold dispatch_websocket. destruct (is_authorized f); [|done]. destruct (frame_text f) as [target|]; [|done].
  destruct (native_request_total target [media_json]) as (fault & model & -> & Hmodel). cbn.
  destruct fault; try done. destruct (Hmodel eq_refl) as (name & ps & ok & o & media & -> & -> & Hmedia).
  destruct ok; [|done]. cbn [negb]. rewrite Hmedia. cbn [mbind option_bind].
  destruct (media =? media_html); [done|]. destruct (frame_permits f _); [|done]. cbn [negb].
  destruct (notify_total q s name o) as (notified & -> & _). cbn.
  by destruct notified as [|[]].
Qed.

Lemma ws_run_total c inputs : is_Some (ws_run settings c inputs).
Proof.
  revert c. induction inputs as [|i inputs IH]; intros c; [done|]. cbn.
  assert (is_Some (ws_step settings c i)) as [[c1 tasks] ->].
  { destruct i as [q f|event]; cbn; [|done]. destruct (is_stopped c); [done|].
    destruct (dispatch_websocket_total q (subscriptions c) f) as [[s answer] ->]. done. }
  cbn. destruct (IH c1) as [[c2 later] ->]. done.
Qed.

End Total.

(** ** Example: a chain of three blocks, with a transaction in each *)

#[local] Existing Instance reference_text.
#[local] Existing Instance reference_text_laws.
#[local] Existing Instance reference_sizes.
#[local] Existing Instance BitcoindBlockchain.example_chain.
#[local] Existing Instance BitcoindBlockchain.example_blocks.

#[local] Instance example_txs : TxArchive := {
  tx_link := Z;
  is_tx_terminal link := link <? 0;
  output_link := Z;
  is_output_terminal link := link <? 0;
  to_output _ _ index := index;
  to_output_tx _ link := link;
  get_output _ link := None;
  is_confirmed_spent _ link := link =? 0;
  is_confirmable_spent _ _ := false;
  get_tx_height _ link := Some link;
  is_pooled _ _ := false;
  is_confirmable_tx _ _ := false;
  is_coinbase_tx _ link := link =? 0;
  get_tx_key _ link := replicate 32 link;
  satoshi_per_bitcoin := 100000000;
}.

#[local] Instance example_electrum : ElectrumTxArchive := {
  to_tx _ hash := default (-1) (head hash);
  get_wire_tx _ _ := [];
  get_tx_model _ _ := None;
  find_strong _ _ := None : option Z;
  get_timestamp _ _ := None;
  get_position_tx _ _ _ := -1;
}.

Definition example_object (n : Z) : wire_object := WireObject [n; n + 1] 2 (uint64_t n).

#[local] Instance example_native : NativeArchive := {
  native_block_size _ link _ := Some 3;
  native_block_bytes _ link _ := Some [1; 2; 3];
  native_block_text _ link _ := Some "010203";
  native_block_json _ link _ := Some [("header", object_t [])];
  native_header _ link := match link with Some n => Some (example_object n, []) | None => None end;
  get_context _ link := (λ n, BlockContext n 0 (λ _, true)) <$> link;
  get_block_sizes _ _ := Some (10, 12);
  is_bypass _ _ := false;
  is_validated _ _ := true;
  is_confirmable _ _ := true;
  is_unconfirmable _ _ := false;
  is_candidate_header _ _ := true;
  to_coinbase _ _ := 0;
  to_transaction _ _ position := position;
  get_block_value _ _ := Some 7;
  get_block_spend _ _ := Some 5;
  get_filter_hash _ _ := None;
  native_tx _ link _ := if link <? 0 then None else Some (example_object link);
  get_tx_sizes _ _ := Some (10, 12);
  get_tx_value _ _ := Some 7;
  get_tx_spend _ _ := Some 5;
  get_tx_position _ _ _ := Some 0;
  get_inputs _ _ _ := Some [example_object 1; example_object 2];
  get_input _ _ index _ := Some (example_object index);
  get_input_script _ _ index := None;
  get_witness _ _ index := Some (true, example_object index);
  get_outputs _ _ := Some [example_object 3];
  native_output _ _ index := Some (example_object index);
  get_output_script _ _ _ := None;
  get_spender _ p := Some (example_object p.2);
  get_spenders _ p := [example_object p.2];
  address_enabled _ := true;
  outpoint_size := 2;
  inpoint_size := 2;
  point_size := 2;
  native_header_size := 2;
  subsidy _ _ := 50;
  weighted_size nominal maximal := 3 * nominal + maximal;
  virtual_size_of nominal maximal := nominal;
  is_subtract_overflow a b := a <? b;
  neutrino := 0;
  to_little_endian_size n := [n];
  terminal_height := 255;
}.

#[local] Instance example_index : AddressIndex := {
  get_address_outpoints _ _ _ := inr [example_object 1; example_object 2];
  get_confirmed_unspent_outpoints _ _ _ := inr [];
  get_unconfirmed_unspent_outpoints _ _ _ := inr [];
  get_confirmed_balance _ _ _ := inr 7;
}.

#[local] Instance example_laws : NativeLaws.
Proof.
  split; intros; simpl in *; repeat case_match; simplify_eq; repeat constructor.
  by exists [].
Qed.

#[local] Instance example_pages : Pages := {
  is_origin_form target := starts_with "/" target;
  file_media_type _ media := media;
  sanitize_origin root path := root +:+ path;
  has_extension _ := false;
  can_open _ := true;
}.

(** ** Properties *)


Definition example_settings : native_settings := NativeSettings true true true true false [] [].
Definition example_options : html_options := HtmlOptions "" "index.html" true.
Definition example_get : incoming := Incoming true true None (λ _, true).
Definition example_archive : archive := tt.


(** C6: a native websocket is notified exactly of what it subscribes to. Whatever frames
    and chaser events it receives, in any order, the service is defined, and as long as
    no frame stops it the event posts a notification of its top, block or transaction
    exactly if the last frame before it that names the subscription (by its route) does
    not ask to stop, in the media that this frame chooses. *)
Theorem native_subscriptions_correct `{TextLaws} `{SizeMath} `{MediaValues} `{Uri} `{Dispatcher}
    `{!DispatcherLaws} `{ChainArchive} `{!BlockArchive} `{Scripts} `{!TxArchive} `{!ElectrumTxArchive}
    `{!NativeArchive} `{!AddressIndex} `{!NativeLaws} settings inputs :
  ∃ c tasks, ws_run settings opened inputs = Some (c, tasks) ∧
    (is_stopped c = false → tasks = ws_posts inputs).
Proof.
  destruct (ws_run_total settings opened inputs) as [[c tasks] Hrun]. exists c, tasks.
  split; [exact Hrun|]. intros Hc. by apply (ws_run_spec settings inputs c tasks Hrun Hc).
Qed.

(** A block is not notified before it is subscribed to, nor after it is stopped; the
    reorganization is only notified to the subscription of the top. *)
Definition example_link : header_link := Some 2.

Definition example_inputs : list ws_input :=
  let asks target := ws_receives example_archive (WsFrame true (Some target) (λ _, true)) in
  [ws_event (chase_block example_link); asks "/v1/block/subscribe?format=text"; asks "/v1/top/subscribe";
   ws_event (chase_block example_link); ws_event (chase_reorganized example_link);
   asks "/v1/block/subscribe?stop=true"; ws_event (chase_block example_link)].

Lemma native_subscriptions_correct_witness :
  ∃ c tasks, ws_run example_settings opened example_inputs = Some (c, tasks) ∧
    tasks = [post_top example_link media_json; post_block example_link media_text;
      post_top example_link media_json; post_top example_link media_json].
Proof.
  destruct (native_subscriptions_correct example_settings example_inputs) as (c & tasks & Hrun & Htasks).
  exists c, tasks. split; [exact Hrun|].
  assert (is_stopped <$> (fst <$> ws_run example_settings opened example_inputs) = Some false) as Hstopped
    by (vm_compute; reflexivity).
  rewrite Hrun in Hstopped. injection Hstopped as Hstopped. rewrite (Htasks Hstopped). reflexivity.
Defined.
