(* ===== verification/EsploraChain.v ===== *)
(** The transaction and block methods of the esplora service
    (src/protocols/esplora/protocol_esplora_transaction.cpp and
    protocol_esplora_block.cpp), with the objects that they make.

    A handler replies, or submits a package to the organizer of the node, whose code
    and index return by a completion. The other methods are in EsploraIndex.v, and the
    dispatch in EsploraService.v. *)
From S2P Require Import Prelude Rpc Errors System Numbers Target Interface Merkle FeeHistogram ElectrumSubscribe ElectrumOutpoints Descriptor BitcoindParsers BlockStats Dispatch HttpService MempoolFile Archive TxOutProof BitcoindBlockchain BitcoindMempool ElectrumTransactions Combine BitcoindTransaction.

(** ** The archive *)

Section Data.
Context `{Scripts}.

(** [chain::input]: a prevout is resolved or not. *)
Record es_input := EsInput {
  in_point : point;
  in_prevout : option (Z * script);
  in_script : script;
  in_stack : list data_chunk;
  in_sequence : Z;
}.

(** [chain::transaction], with its serialized sizes, bytes (with witnesses) and the
    fee of its prevouts. *)
Record es_tx := EsTx {
  es_version : Z;
  es_locktime : Z;
  es_inputs : list es_input;
  es_outputs : list (Z * script);
  es_coinbase : bool;
  nominal_size : Z;
  maximal_size : Z;
  es_bytes : data_chunk;
  es_fee : Z;
}.

End Data.

(** [chain::script_pattern], as far as it is named. *)
Inductive output_pattern_t :=
  | pay_null_data | pay_multisig | pay_public_key | pay_key_hash | pay_script_hash
  | pay_witness_key_hash | pay_witness_script_hash | pay_witness_v1_taproot | other_pattern.

(** What the service reads besides of the pool. *)
Class EsploraArchive `{PoolArchive} := {
  has_ops : script → bool;
  output_pattern : script → output_pattern_t;
  (** [script.to_string(flags, true)]. *)
  script_text : script → string;
  get_transaction : archive → tx_link → option es_tx;
  (** Whether all prevouts are populated, and the transaction as it is left. *)
  populate_with_metadata : archive → es_tx → bool * es_tx;
  to_points : archive → tx_link → list input_link;
  (** [*i == *j] of input links. *)
  input_link_eqb : input_link → input_link → bool;
  to_transactions : archive → header_link → list tx_link;
  header_version : chain_header → Z;
  header_nonce : chain_header → Z;
  header_merkle : chain_header → hash_digest;
  (** The nominal and maximal sizes of a block, its size and its bytes. *)
  get_block_sizes : archive → header_link → option (Z * Z);
  get_size : archive → header_link → option Z;
  get_bytes : archive → header_link → option data_chunk;
  (** The base16 text that is written of a header. *)
  header_text : chain_header → string;
  weighted_size : Z → Z → Z;
  (** The chunk that [serialize] writes of a merkle block. *)
  written_merkle : merkle_block → data_chunk;
  find_link_block : archive → tx_link → header_link;
}.

(** ** Handlers *)

(** What the senders write; a rejection has the code of its text. *)
Inductive es_reply :=
  | es_json (model : value_t)
  | es_text (text : string)
  | es_chunk (bytes : data_chunk)
  | es_rejected (reason : code)
  | es_status (status : http_status)
  | es_not_allowed.

(** A handler replies, or submits a package with a completion. *)
Inductive es_completion := complete_broadcast | complete_broadcast_package.

Inductive es_reaction `{SignedTransactions} :=
  | es_replies (r : es_reply)
  | es_submits (txs : list signed_tx) (by_ : es_completion).

Section Chain.
Context `{Text} `{SizeMath} `{Integers} `{MediaValues} `{MerkleMath} `{MerkleBranches} `{NamedErrors} `{DescriptorScripts}
  `{!TransactionScripts} `{!MultisigScripts} `{!SignedTransactions} `{!ChainTransactions} `{ChainArchive}
  `{!BlockArchive} `{!TxArchive}
  `{!ElectrumTxArchive} `{!RawTxArchive} `{!PoolArchive} `{!EsploraArchive}.
Context (p2kh p2sh : Z) (witness : string).

(** *** Serializers *)

Definition to_script_type (s : script) : string :=
  if negb (has_ops s) then "empty"
  else
    match output_pattern s with
    | pay_null_data => "op_return"
    | pay_multisig => "multisig"
    | pay_public_key => "p2pk"
    | pay_key_hash => "p2pkh"
    | pay_script_hash => "p2sh"
    | pay_witness_key_hash => "v0_p2wpkh"
    | pay_witness_script_hash => "v0_p2wsh"
    | pay_witness_v1_taproot => "v1_p2tr"
    | other_pattern => "unknown"
    end.

Definition es_output (output : Z * script) : object :=
  let '(value, s) := output in
  let out :=
    [("scriptpubkey", string_t (encode_base16 (script_data s)));
     ("scriptpubkey_asm", string_t (script_text s));
     ("scriptpubkey_type", string_t (to_script_type s)); ("value", uint64_t value)] in
  let address := to_address s p2kh p2sh witness in
  if is_empty address then out else set_field "scriptpubkey_address" (string_t address) out.

Definition es_input_object (i : es_input) (coinbase : bool) : object :=
  let out :=
    [("txid", string_t (encode_hash (in_point i).1)); ("vout", uint32_t (in_point i).2);
     ("is_coinbase", boolean_t coinbase);
     ("scriptsig", string_t (encode_base16 (script_data (in_script i))));
     ("scriptsig_asm", string_t (script_text (in_script i)));
     ("witness", array_t (string_t ∘ encode_base16 <$> in_stack i));
     ("sequence", uint32_t (in_sequence i))] in
  match in_prevout i with
  | Some prevout => set_field "prevout" (object_t (es_output prevout)) out
  | None => out
  end.

Definition to_status (q : archive) (link : tx_link) : object :=
  let block := find_link_block q link in
  match get_header q block, get_height q block with
  | Some header, Some height =>
      [("confirmed", boolean_t true); ("block_height", uint64_t height);
       ("block_hash", string_t (encode_hash (get_header_key q block)));
       ("block_time", uint32_t (timestamp header))]
  | _, _ => [("confirmed", boolean_t false)]
  end.

Definition es_tx_object (q : archive) (link : tx_link) : option object :=
  tx ← get_transaction q link;
  let '(populated, tx) := if es_coinbase tx then (false, tx) else populate_with_metadata q tx in
  Some
    [("txid", string_t (encode_hash (get_tx_key q link))); ("version", uint32_t (es_version tx));
     ("locktime", uint32_t (es_locktime tx));
     ("vin", array_t ((λ i, object_t (es_input_object i (es_coinbase tx))) <$> es_inputs tx));
     ("vout", array_t ((λ o, object_t (es_output o)) <$> es_outputs tx));
     ("size", uint64_t (maximal_size tx));
     ("weight", uint64_t (weighted_size (nominal_size tx) (maximal_size tx)));
     ("fee", uint64_t (if populated then es_fee tx else 0));
     ("status", object_t (to_status q link))].

Definition to_block (q : archive) (link : header_link) : option object :=
  header ← get_header q link;
  if negb (is_associated q link) then None
  else
    height ← get_height q link;
    '(nominal, maximal) ← get_block_sizes q link;
    let out :=
      [("id", string_t (encode_hash (get_header_key q link))); ("height", uint64_t height);
       ("version", uint32_t (header_version header)); ("timestamp", uint32_t (timestamp header));
       ("bits", uint32_t (header_bits header)); ("nonce", uint32_t (header_nonce header));
       ("difficulty", number_t (difficulty header));
       ("merkle_root", string_t (encode_hash (header_merkle header)));
       ("tx_count", uint64_t (get_tx_count q link)); ("size", uint64_t maximal);
       ("weight", uint64_t (weighted_size nominal maximal));
       ("mediantime", uint32_t (median_time q link))] in
    Some
      (if bool_decide (previous_block_hash header = null_hash) then out
       else set_field "previousblockhash"
              (string_t (encode_hash (previous_block_hash header))) out).

(** *** Transactions *)

Definition es_error (s : http_status) : list es_reply := [es_status s].

(** The checks of the media and of a stopped channel. *)
Definition accepts (stopped : bool) (media wanted : Z) (replies : list es_reply) : list es_reply :=
  if stopped then []
  else if negb (media =? wanted) then es_error not_acceptable
  else replies.

Definition handle_get_tx (q : archive) (stopped : bool) (media : Z) (hash : hash_digest) : list es_reply :=
  if stopped then []
  else
    let link := to_tx q hash in
    if is_tx_terminal link then es_error not_found
    else if media =? media_json then
      match es_tx_object q link with
      | None => es_error internal_server_error
      | Some out => [es_json (object_t out)]
      end
    else
      match get_transaction q link with
      | None => es_error internal_server_error
      | Some tx =>
          if media =? media_data then [es_chunk (es_bytes tx)]
          else if media =? media_text then [es_text (encode_base16 (es_bytes tx))]
          else es_error not_acceptable
      end.

Definition handle_get_tx_status (q : archive) (stopped : bool) (media : Z) (hash : hash_digest) :
    list es_reply :=
  accepts stopped media media_json
    (let link := to_tx q hash in
     if is_tx_terminal link then es_error not_found
     else [es_json (object_t (to_status q link))]).

(** [None] if the partial merkle tree does not exist. *)
Definition handle_get_tx_merkleblock_proof (q : archive) (stopped : bool) (media : Z)
    (hash : hash_digest) : option (list es_reply) :=
  if stopped then Some []
  else if negb (media =? media_text) then Some (es_error not_acceptable)
  else
    let link := find_confirmed_block q hash in
    if negb (is_associated q link) then Some (es_error not_found)
    else
      let keys := get_tx_keys q link in
      match get_header q link with
      | None => Some (es_error internal_server_error)
      | Some header =>
          if (length keys =? 0)%nat then Some (es_error internal_server_error)
          else
            let match_ := (λ key, bool_decide (key = hash)) <$> keys in
            if negb (length (filter (λ b, b = true) match_) =? 1)%nat
            then Some (es_error not_found)
            else
              '(flags, hashes) ← build_partial_merkle keys match_;
              let merkle := MerkleBlock _ header (Z.of_nat (length keys) mod 2 ^ 32) hashes flags in
              Some [es_text (encode_base16 (written_merkle merkle))]
      end.

Definition handle_get_tx_merkle_proof (q : archive) (stopped : bool) (media : Z) (hash : hash_digest) :
    list es_reply :=
  accepts stopped media media_json
    (let link := to_tx q hash in
     let block := find_link_block q link in
     if is_tx_terminal link || is_terminal block then es_error not_found
     else
       match get_height q block with
       | None => es_error not_found
       | Some height =>
           let hashes := get_tx_keys q block in
           match find_position hashes hash with
           | None => es_error not_found
           | Some index =>
               [es_json (object_t
                 [("block_height", uint64_t height);
                  ("merkle", array_t (string_t ∘ encode_hash <$> merkle_branch index hashes));
                  ("pos", uint64_t (Z.of_nat index))])]
           end
       end).

(** The spender of an outpoint, in the chain or else in the pool. *)
Definition find_spender (q : archive) (prevout : point) : input_link :=
  let spender := find_confirmed_spender q prevout in
  if is_input_terminal spender then find_confirmable_spender q prevout else spender.

(** The loop over the inputs of the spender, to its position. *)
Definition input_position (points : list input_link) (spender : input_link) : option nat :=
  fst <$> list_find (λ p, input_link_eqb p spender = true) points.

Definition to_outspend (q : archive) (hash : hash_digest) (index : Z) : option object :=
  let spender := find_spender q (hash, index) in
  if is_input_terminal spender then Some [("spent", boolean_t false)]
  else
    let tx := to_input_tx q spender in
    if is_tx_terminal tx then None
    else
      match input_position (to_points q tx) spender with
      | None => None
      | Some position =>
          Some
            [("spent", boolean_t true); ("txid", string_t (encode_hash (get_tx_key q tx)));
             ("vin", uint64_t (Z.of_nat position)); ("status", object_t (to_status q tx))]
      end.

Definition handle_get_tx_outspend (q : archive) (stopped : bool) (media : Z) (hash : hash_digest)
    (index : Z) : list es_reply :=
  accepts stopped media media_json
    (if is_tx_terminal (to_tx q hash) then es_error not_found
     else
       match to_outspend q hash index with
       | None => es_error not_found
       | Some out => [es_json (object_t out)]
       end).

Definition handle_get_tx_outspends (q : archive) (stopped : bool) (media : Z) (hash : hash_digest) :
    list es_reply :=
  accepts stopped media media_json
    (let link := to_tx q hash in
     match get_transaction q link with
     | None => es_error not_found
     | Some tx =>
         if is_tx_terminal link then es_error not_found
         else
           match mapM (to_outspend q hash) (Z.of_nat <$> seq 0 (length (es_outputs tx))) with
           | None => es_error internal_server_error
           | Some spends => [es_json (array_t (object_t <$> spends))]
           end
     end).

(** *** Broadcast *)

Definition handle_broadcast (stopped : bool) (media : Z) (transaction : string) : list es_reaction :=
  if stopped then []
  else if negb (media =? media_text) then [es_replies (es_status not_acceptable)]
  else
    match read_hexed transaction with
    | None => [es_replies (es_rejected (Error.make Error.invalid_argument))]
    | Some tx => [es_submits [tx] complete_broadcast]
    end.

Definition complete_submit_tx (stopped : bool) (ec : code) (tx : signed_tx) : list es_reply :=
  if stopped then []
  else if submit_failed ec then [es_rejected ec]
  else [es_text (encode_hash (tx_hash false tx))].

Definition read_item (item : value_t) : option signed_tx :=
  match item with
  | string_t text => read_hexed text
  | _ => None
  end.

Definition handle_broadcast_package (stopped : bool) (media : Z) (transactions : array) :
    list es_reaction :=
  if stopped then []
  else if negb (media =? media_json) then [es_replies (es_status not_acceptable)]
  else
    let rejected := [es_replies (es_rejected (Error.make Error.invalid_argument))] in
    if (length transactions =? 0)%nat || (maximum_package <? length transactions)%nat then rejected
    else
      match mapM read_item transactions with
      | None => rejected
      | Some txs => [es_submits txs complete_broadcast_package]
      end.

Definition complete_submit_package (q : archive) (stopped : bool) (ec : code) (index : nat)
    (txs : list signed_tx) : list es_reply :=
  if stopped then []
  else
    match package_result q ec index txs with
    | None => es_error internal_server_error
    | Some out => [es_json (object_t out)]
    end.

(** The completion that the organizer posts; [None] if a broadcast does not hold one
    transaction. *)
Definition run_submission (q : archive) (stopped : bool) (ec : code) (index : nat) (by_ : es_completion)
    (txs : list signed_tx) : option (list es_reply) :=
  match by_, txs with
  | complete_broadcast, [tx] => Some (complete_submit_tx stopped ec tx)
  | complete_broadcast, _ => None
  | complete_broadcast_package, _ => Some (complete_submit_package q stopped ec index txs)
  end.

(** *** Blocks *)

Definition handle_get_block (q : archive) (stopped : bool) (media : Z) (hash : hash_digest) :
    list es_reply :=
  if stopped then []
  else
    let link := to_header q hash in
    if is_terminal link then es_error not_found
    else if media =? media_data then
      match get_size q link with
      | None => es_error not_found
      | Some _ =>
          match get_bytes q link with
          | None => es_error internal_server_error
          | Some out => [es_chunk out]
          end
      end
    else if negb (media =? media_json) then es_error not_acceptable
    else
      match to_block q link with
      | None => es_error not_found
      | Some out => [es_json (object_t out)]
      end.

Definition tx_page : Z := 25.
Definition block_page : nat := 10.

Definition handle_get_block_txs (q : archive) (stopped : bool) (media : Z) (hash : hash_digest)
    (start : Z) : list es_reply :=
  accepts stopped media media_json
    (if negb (start mod tx_page =? 0) then es_error bad_request
     else
       let txs := to_transactions q (to_header q hash) in
       let size := Z.of_nat (length txs) in
       if size <=? start then es_error not_found
       else
         let stop := Z.min (ceilinged_add start tx_page) size in
         let page := take (Z.to_nat (stop - start)) (drop (Z.to_nat start) txs) in
         match mapM (es_tx_object q) page with
         | None => es_error internal_server_error
         | Some out => [es_json (array_t (object_t <$> out))]
         end).

Definition es_block_header (q : archive) (stopped : bool) (media : Z) (hash : hash_digest) :
    list es_reply :=
  accepts stopped media media_text
    match get_header q (to_header q hash) with
    | None => es_error not_found
    | Some header => [es_text (header_text header)]
    end.

Definition handle_get_block_status (q : archive) (stopped : bool) (media : Z) (hash : hash_digest) :
    list es_reply :=
  accepts stopped media media_json
    (let link := to_header q hash in
     if is_terminal link then es_error not_found
     else
       match get_height q link with
       | None => es_error not_found
       | Some height =>
           let confirmed := is_confirmed_block q link in
           let out := [("in_best_chain", boolean_t confirmed)] in
           [es_json (object_t
             (if confirmed && (height <? get_top_confirmed q)
              then set_field "next_best"
                     (string_t (encode_hash (get_header_key q (to_confirmed q (height + 1))))) out
              else out))]
       end).

Definition handle_get_block_txids (q : archive) (stopped : bool) (media : Z) (hash : hash_digest) :
    list es_reply :=
  accepts stopped media media_json
    (let keys := get_tx_keys q (to_header q hash) in
     if (length keys =? 0)%nat then es_error not_found
     else [es_json (array_t (string_t ∘ encode_hash <$> keys))]).

Definition handle_get_block_txid (q : archive) (stopped : bool) (media : Z) (hash : hash_digest)
    (index : Z) : list es_reply :=
  accepts stopped media media_text
    match get_tx_keys q (to_header q hash) !! Z.to_nat index with
    | None => es_error not_found
    | Some key => [es_text (encode_hash key)]
    end.

Definition handle_get_block_height (q : archive) (stopped : bool) (media height : Z) : list es_reply :=
  accepts stopped media media_text
    (let link := to_confirmed q height in
     if is_terminal link then es_error not_found
     else [es_text (encode_hash (get_header_key q link))]).

(** The loop over a page of blocks, from a height down to genesis. *)
Fixpoint collect_blocks (q : archive) (page : nat) (start : Z) : list object :=
  match page with
  | O => []
  | S page =>
      match to_block q (to_confirmed q start) with
      | None => []
      | Some block => block :: if start =? 0 then [] else collect_blocks q page (start - 1)
      end
  end.

Definition handle_get_blocks (q : archive) (stopped : bool) (media : Z) (height : option Z) :
    list es_reply :=
  accepts stopped media media_json
    (let top := get_top_confirmed q in
     let start := default (top mod 2 ^ 32) height in
     if top <? start then es_error not_found
     else [es_json (array_t (object_t <$> collect_blocks q block_page start))]).

Definition handle_get_tip_height (q : archive) (stopped : bool) (media : Z) : list es_reply :=
  accepts stopped media media_text [es_text (to_decimal (get_top_confirmed q))].

Definition handle_get_tip_hash (q : archive) (stopped : bool) (media : Z) : list es_reply :=
  accepts stopped media media_text [es_text (encode_hash (get_top_confirmed_hash q))].

End Chain.
