(* ===== verification/EsploraIndex.v ===== *)
(** The address, pool and fee methods of the esplora service
    (src/protocols/esplora/protocol_esplora_address.cpp and
    protocol_esplora_mempool.cpp).

    A handler of an address or of the pool defers to a parallel query, whose
    completion replies on the strand. Fee estimates chain one estimate of the node for
    each target, over an object of the channel. *)
From stdpp Require Import pretty.
From S2P Require Import Prelude Rpc Errors System Numbers Target Interface BtcdFilter Merkle FeeHistogram ElectrumSubscribe ElectrumOutpoints Descriptor BitcoindParsers BlockStats Dispatch HttpService MempoolFile Archive TxOutProof BitcoindBlockchain BitcoindMempool ElectrumTransactions ElectrumServer Combine BitcoindTransaction EsploraChain.

(** [database::address_totals]. *)
Record address_totals := AddressTotals {
  funded_count : Z; funded_value : Z; spent_count : Z; spent_value : Z;
}.

(** What is read of the address index and of the pool. *)
Class EsploraIndex `{EsploraArchive} := {
  address_enabled : archive → bool;
  (** Totals of the chain and of the pool. *)
  get_address_totals : archive → hash_digest → code + (address_totals * address_totals);
  (** Histories from the oldest, up to a limit. *)
  get_confirmed_history : archive → hash_digest → Z → code + list history;
  get_unconfirmed_history : archive → hash_digest → Z → code + list history;
  get_unspent : archive → hash_digest → code + list (point * Z);
  (** The fee, virtual size and spend of a pooled transaction. *)
  get_recent : archive → tx_link → option (Z * Z * Z);
  (** [value_from] of a histogram. *)
  histogram_value : fee_histogram → value_t;
}.

(** The queries that run in parallel, with what they hold of the request. *)
Inductive es_query :=
  | query_address (key : hash_digest) (address : option string)
  | query_txs (key : hash_digest) (last_seen : option hash_digest) (mempool chain : bool)
  | query_utxo (key : hash_digest)
  | query_mempool
  | query_txids
  | query_recent.

(** The request of a deferred query, or what is replied. *)
Inductive es_deferral :=
  | es_now (replies : list es_reply)
  | es_later (query : es_query).

Section Index.
Context `{Text} `{SizeMath} `{Integers} `{MediaValues} `{NamedErrors} `{DescriptorScripts}
  `{!TransactionScripts} `{!MultisigScripts} `{!SignedTransactions} `{!ChainTransactions} `{ChainArchive}
  `{!BlockArchive} `{!TxArchive} `{!ElectrumTxArchive} `{!RawTxArchive} `{!PoolArchive} `{!EsploraArchive}
  `{!EsploraIndex} `{EstimateErrors}.
Context (p2kh p2sh : Z) (witness : string) (maximum_history : Z).

(** ** Addresses *)

Definition address_page : nat := 25.
Definition mempool_page : nat := 50.

(** The key of a request, by script hash or else by address. *)
Definition to_key (hash : option hash_digest) (address : option string) : option hash_digest :=
  match hash with
  | Some hash => Some hash
  | None =>
      match address with
      | None => None
      | Some address =>
          match output_script_of address p2kh p2sh witness with
          | inl _ => None
          | inr s => Some (sha256_hash (script_data s))
          end
      end
  end.

(** The checks that the methods of addresses share. *)
Definition by_key (q : archive) (stopped : bool) (media : Z) (hash : option hash_digest)
    (address : option string) (query : hash_digest → es_query) : es_deferral :=
  if stopped then es_now []
  else if negb (media =? media_json) then es_now (es_error not_acceptable)
  else
    match to_key hash address with
    | None => es_now (es_error bad_request)
    | Some key =>
        if negb (address_enabled q) then es_now (es_error not_implemented) else es_later (query key)
    end.

Definition handle_get_address (q : archive) (stopped : bool) (media : Z) (hash : option hash_digest)
    (address : option string) : es_deferral :=
  by_key q stopped media hash address (λ key, query_address key address).

Definition do_get_address (q : archive) (key : hash_digest) :
    code + (address_totals * Z * address_totals * Z) :=
  match get_address_totals q key with
  | inl ec => inl ec
  | inr (chain, mempool) =>
      match get_confirmed_history q key maximum_history with
      | inl ec => inl ec
      | inr confirmed =>
          match get_unconfirmed_history q key maximum_history with
          | inl ec => inl ec
          | inr unconfirmed =>
              inr (chain, Z.of_nat (length confirmed), mempool, Z.of_nat (length unconfirmed))
          end
      end
  end.

Definition to_stats (totals : address_totals) (txs : Z) : object :=
  [("funded_txo_count", uint64_t (funded_count totals));
   ("funded_txo_sum", uint64_t (funded_value totals));
   ("spent_txo_count", uint64_t (spent_count totals)); ("spent_txo_sum", uint64_t (spent_value totals));
   ("tx_count", uint64_t txs)].

Definition complete_get_address (stopped : bool) (key : hash_digest) (address : option string)
    (found : code + (address_totals * Z * address_totals * Z)) : list es_reply :=
  if stopped then []
  else
    match found with
    | inl _ => es_error internal_server_error
    | inr (chain, chain_txs, mempool, mempool_txs) =>
        [es_json (object_t
          [match address with
           | Some address => ("address", string_t address)
           | None => ("scripthash", string_t (encode_base16 key))
           end;
           ("chain_stats", object_t (to_stats chain chain_txs));
           ("mempool_stats", object_t (to_stats mempool mempool_txs))])]
    end.

Definition get_address_txs (q : archive) (stopped : bool) (media : Z) (hash : option hash_digest)
    (address : option string) (last_seen : option hash_digest) (mempool chain : bool) : es_deferral :=
  by_key q stopped media hash address (λ key, query_txs key last_seen mempool chain).

Definition handle_get_address_txs (q : archive) (stopped : bool) (media : Z) (hash : option hash_digest)
    (address : option string) : es_deferral :=
  get_address_txs q stopped media hash address None true true.

Definition handle_get_address_txs_chain (q : archive) (stopped : bool) (media : Z)
    (hash : option hash_digest) (address : option string) (last_seen : option hash_digest) : es_deferral :=
  get_address_txs q stopped media hash address last_seen false true.

Definition handle_get_address_txs_mempool (q : archive) (stopped : bool) (media : Z)
    (hash : option hash_digest) (address : option string) : es_deferral :=
  get_address_txs q stopped media hash address None true false.

(** The unconfirmed and the confirmed history, as far as they are requested. *)
Definition do_get_address_txs (q : archive) (key : hash_digest) (mempool chain : bool) :
    code + (list history * list history) :=
  match (if mempool then get_unconfirmed_history q key maximum_history else inr []) with
  | inl ec => inl ec
  | inr unconfirmed =>
      match (if chain then get_confirmed_history q key maximum_history else inr []) with
      | inl ec => inl ec
      | inr confirmed => inr (unconfirmed, confirmed)
      end
  end.

(** What follows the last seen transaction, from the newest; [None] if it is not found. *)
Definition after_seen (confirmed : list history) (last_seen : option hash_digest) :
    option (list history) :=
  let newest := reverse confirmed in
  match last_seen with
  | None => Some newest
  | Some hash =>
      '(seen, _) ← list_find (λ item, history_hash item = hash) newest;
      Some (drop (S seen) newest)
  end.

Definition complete_get_address_txs (q : archive) (stopped : bool) (last_seen : option hash_digest)
    (found : code + (list history * list history)) : list es_reply :=
  if stopped then []
  else
    match found with
    | inl _ => es_error internal_server_error
    | inr (unconfirmed, confirmed) =>
        match after_seen confirmed last_seen with
        | None => es_error not_found
        | Some remaining =>
            let append item := es_tx_object p2kh p2sh witness q (to_tx q (history_hash item)) in
            match mapM append (take mempool_page (reverse unconfirmed) ++ take address_page remaining)%list with
            | None => es_error internal_server_error
            | Some out => [es_json (array_t (object_t <$> out))]
            end
        end
    end.

Definition handle_get_address_utxo (q : archive) (stopped : bool) (media : Z) (hash : option hash_digest)
    (address : option string) : es_deferral :=
  by_key q stopped media hash address query_utxo.

Definition complete_get_address_utxo (q : archive) (stopped : bool) (found : code + list (point * Z)) :
    list es_reply :=
  if stopped then []
  else
    match found with
    | inl _ => es_error internal_server_error
    | inr unspent =>
        [es_json (array_t ((λ '(p, value), object_t
          [("txid", string_t (encode_hash p.1)); ("vout", uint32_t p.2); ("value", uint64_t value);
           ("status", object_t (to_status q (to_tx q p.1)))]) <$> unspent))]
    end.

(** ** The pool *)

Definition histogram_bin : Z := 50000.
Definition recent_count : nat := 10.

(** The requests of the pool differ only in their query. *)
Definition of_pool (stopped : bool) (media : Z) (query : es_query) : es_deferral :=
  if stopped then es_now []
  else if negb (media =? media_json) then es_now (es_error not_acceptable)
  else es_later query.

Definition handle_get_mempool (stopped : bool) (media : Z) : es_deferral :=
  of_pool stopped media query_mempool.
Definition handle_get_mempool_txids (stopped : bool) (media : Z) : es_deferral :=
  of_pool stopped media query_txids.
Definition handle_get_mempool_recent (stopped : bool) (media : Z) : es_deferral :=
  of_pool stopped media query_recent.

(** [None] stands for the integrity code. *)
Definition do_get_mempool (q : archive) : option value_t :=
  rates ← get_pool_fees q;
  let '(vsize, total) := foldl (λ '(vsize, total) rate,
    (ceilinged_add vsize (bytes rate), ceilinged_add total (fee rate))) (0, 0) rates in
  Some (object_t
    [("count", uint64_t (Z.of_nat (length rates))); ("vsize", uint64_t vsize);
     ("total_fee", uint64_t total);
     ("fee_histogram", histogram_value (to_fee_histogram rates histogram_bin))]).

Definition do_get_mempool_txids (q : archive) : option value_t :=
  match get_pool_txs q with
  | inl _ => None
  | inr links => Some (array_t ((λ link, string_t (encode_hash (get_tx_key q link))) <$> links))
  end.

Definition recent_object (q : archive) (link : tx_link) : option value_t :=
  '(fee, vsize, spend) ← get_recent q link;
  Some (object_t
    [("txid", string_t (encode_hash (get_tx_key q link))); ("fee", uint64_t fee);
     ("vsize", uint64_t vsize); ("value", uint64_t spend)]).

Definition do_get_mempool_recent (q : archive) : option value_t :=
  match get_pool_txs q with
  | inl _ => None
  | inr links => array_t <$> mapM (recent_object q) (take recent_count (reverse links))
  end.

Definition complete_get_mempool (stopped : bool) (out : option value_t) : list es_reply :=
  if stopped then []
  else
    match out with
    | None => es_error internal_server_error
    | Some out => [es_json out]
    end.

(** A query, off the strand (with the archive as it is then), and its completion. *)
Definition run_query (q q' : archive) (stopped : bool) (query : es_query) : list es_reply :=
  match query with
  | query_address key address => complete_get_address stopped key address (do_get_address q key)
  | query_txs key last_seen mempool chain =>
      complete_get_address_txs q' stopped last_seen (do_get_address_txs q key mempool chain)
  | query_utxo key => complete_get_address_utxo q' stopped (get_unspent q key)
  | query_mempool => complete_get_mempool stopped (do_get_mempool q)
  | query_txids => complete_get_mempool stopped (do_get_mempool_txids q)
  | query_recent => complete_get_mempool stopped (do_get_mempool_recent q)
  end.

(** ** Fee estimates *)

Definition targets : list Z := seqZ 1 25 ++ [144; 504; 1008].

(** What a step of the estimates does: it starts the next one, of a target (in the
    basic mode) with its index, or replies. *)
Inductive estimate_step :=
  | estimates (target : Z) (mode : mode_t) (index : nat)
  | estimate_replies (replies : list es_reply).

(** The object of the channel, and the step. *)
Definition next_estimate (estimates_ : object) (index : nat) : object * estimate_step :=
  match targets !! index with
  | None => ([], estimate_replies [es_json (object_t estimates_)])
  | Some target => (estimates_, estimates target mode_basic index)
  end.

Definition handle_get_fee_estimates (stopped : bool) (media : Z) (estimates_ : object) :
    object * estimate_step :=
  if stopped then (estimates_, estimate_replies [])
  else if negb (media =? media_json) then (estimates_, estimate_replies (es_error not_acceptable))
  else next_estimate [] 0.

Definition complete_estimate (stopped : bool) (ec : code) (fee : Z) (index : nat) (estimates_ : object) :
    object * estimate_step :=
  if stopped then (estimates_, estimate_replies [])
  else
    let disabled :=
      bool_decide (ec = estimate_false) || bool_decide (ec = estimate_disabled) ||
      bool_decide (ec = estimate_premature) in
    if negb disabled && is_error ec
    then (estimates_, estimate_replies (es_error internal_server_error))
    else
      let estimates_ :=
        if disabled then estimates_
        else match targets !! index with
             | Some target => set_field (to_decimal target) (uint64_t fee) estimates_
             | None => estimates_
             end in
      next_estimate estimates_ (S index).

(** The estimates that follow, by what the node answers of each target, with fuel; the
    channel does not stop and no other request changes its object. *)
Fixpoint run_estimates (node : Z → code * Z) (fuel : nat) (state : object * estimate_step) :
    option (object * list es_reply) :=
  match fuel, state with
  | _, (estimates_, estimate_replies replies) => Some (estimates_, replies)
  | S fuel, (estimates_, estimates target _ index) =>
      let '(ec, fee) := node target in
      run_estimates node fuel (complete_estimate false ec fee index estimates_)
  | O, _ => None
  end.

(** ** Reference: the estimates that are available *)

(** The estimate of a target, none if it is not available; [None] if it fails. *)
Definition estimate_of (node : Z → code * Z) (target : Z) : option (option Z) :=
  let '(ec, fee) := node target in
  if bool_decide (ec ∈ [estimate_false; estimate_disabled; estimate_premature]) then Some None
  else if is_error ec then None
  else Some (Some fee).

Fixpoint available (node : Z → code * Z) (ts : list Z) : option object :=
  match ts with
  | [] => Some []
  | target :: ts =>
      estimate ← estimate_of node target;
      rest ← available node ts;
      Some match estimate with
           | Some fee => (to_decimal target, uint64_t fee) :: rest
           | None => rest
           end
  end.

(** ** Lemmas *)

(** The names of the targets are distinct. *)
Lemma targets_fresh index target :
  targets !! index = Some target → to_decimal target ∉ to_decimal <$> take index targets.
Proof.
  intros Htarget Hin. apply list_elem_of_fmap in Hin as (other & Heq & Hother).
  apply (inj pretty) in Heq as <-.
  assert (NoDup targets) as Hdup by (apply (bool_decide_unpack _); vm_compute; exact I).
  rewrite <-(take_drop index targets), NoDup_app in Hdup. destruct Hdup as (_ & Hdup & _).
  apply (Hdup _ Hother). rewrite (drop_S _ _ _ Htarget). apply list_elem_of_here.
Qed.

(** The estimates from a target on extend those of the targets before it. *)
Lemma run_estimates_spec node e index :
  field_names e ⊆ to_decimal <$> take index targets →
  match available node (drop index targets) with
  | Some o =>
      run_estimates node (length targets - index) (next_estimate e index) =
        Some ([], [es_json (object_t (e ++ o))])
  | None =>
      ∃ e', run_estimates node (length targets - index) (next_estimate e index) =
        Some (e', es_error internal_server_error)
  end.
Proof.
  remember (length targets - index)%nat as fuel eqn:Hfuel. revert e index Hfuel.
  induction fuel as [|fuel IH]; intros e index Hfuel Hnames; unfold next_estimate.
  - rewrite drop_ge, lookup_ge_None_2 by lia. cbn. by rewrite app_nil_r.
  - destruct (lookup_lt_is_Some_2 targets index) as [target Htarget]; [lia|].
    rewrite Htarget, (drop_S _ _ _ Htarget). cbn [run_estimates available].
    unfold estimate_of. destruct (node target) as [ec fee]. unfold complete_estimate. rewrite Htarget.
    pose proof (targets_fresh _ _ Htarget) as Hfresh.
    assert (take (S index) targets = take index targets ++ [target])%list as Htake
      by by apply take_S_r.
    assert (field_names e ⊆ to_decimal <$> take (S index) targets) as Hwider
      by (rewrite Htake, fmap_app; set_solver).
    rewrite (bool_decide_ext (ec ∈ _) (ec = estimate_false ∨ ec = estimate_disabled ∨ ec = estimate_premature))
      by set_solver. rewrite !bool_decide_or, orb_assoc.
    destruct (_ || _) eqn:Hdisabled; cbn [negb andb].
    + cbn [mbind option_bind]. specialize (IH e (S index) ltac:(lia) Hwider).
      by destruct (available node (drop (S index) targets)).
    + destruct (is_error ec); cbn [mbind option_bind].
      { exists e. by destruct fuel. }
      rewrite set_field_fresh by set_solver.
      specialize (IH (e ++ [(to_decimal target, uint64_t fee)])%list (S index) ltac:(lia)).
      assert (field_names (e ++ [(to_decimal target, uint64_t fee)])%list ⊆
        to_decimal <$> take (S index) targets) as Hnames'.
      { unfold field_names. rewrite fmap_app, Htake, fmap_app. unfold field_names in Hnames. set_solver. }
      specialize (IH Hnames').
      destruct (available node (drop (S index) targets)); cbn [mbind option_bind]; [|done].
      by rewrite IH, <-app_assoc.
Qed.

(** A page of an address follows the last seen transaction. *)
Lemma after_seen_lookup confirmed i item :
  NoDup (history_hash <$> confirmed) → reverse confirmed !! i = Some item →
  after_seen confirmed (Some (history_hash item)) = Some (drop (S i) (reverse confirmed)).
Proof.
  intros Hdup Hitem. unfold after_seen.
  assert (list_find (λ other, history_hash other = history_hash item) (reverse confirmed) = Some (i, item))
    as ->; [|done].
  apply list_find_Some. split_and!; [done|done|]. intros j other Hother Hj Heq.
  assert (NoDup (history_hash <$> reverse confirmed)) as Hdup'.
  { eapply (NoDup_Permutation_proper (history_hash <$> confirmed)); [|done].
    by rewrite reverse_Permutation. }
  assert (j = i) as ->; [|lia]. apply (NoDup_lookup _ _ _ (history_hash item) Hdup').
  - rewrite list_lookup_fmap, Hother. simpl. by f_equal.
  - by rewrite list_lookup_fmap, Hitem.
Qed.

End Index.

(** C9: fee estimates end within one estimate for each of the 28 targets, whatever the
    node answers and whatever an earlier request left on the channel: if an estimate
    fails, by an error, and otherwise by one object that has exactly the targets for
    which an estimate is available, in order, with their fees; the channel's object is
    left empty. *)
Theorem fee_estimates_correct `{MediaValues} `{EstimateErrors} node e :
  let run := run_estimates node (length targets) (handle_get_fee_estimates false media_json e) in
  match available node targets with
  | Some found => run = Some ([], [es_json (object_t found)])
  | None => ∃ e', run = Some (e', [es_status internal_server_error])
  end.
Proof.
  intros run. unfold run, handle_get_fee_estimates. rewrite Z.eqb_refl. cbn [negb].
  pose proof (run_estimates_spec node [] 0 ltac:(set_solver)) as Hspec.
  rewrite drop_0, Nat.sub_0_r in Hspec. exact Hspec.
Qed.
