(* ===== verification/EsploraService.v ===== *)
(** Dispatch of the esplora service (src/protocols/esplora/protocol_esplora.cpp): gets,
    posts with the transactions of a broadcast, and the frames of websockets. *)
From S2P Require Import Prelude Rpc Errors System Numbers Target Interface EsploraTarget BtcdFilter Merkle FeeHistogram ElectrumSubscribe ElectrumOutpoints Descriptor BitcoindParsers BlockStats Dispatch HttpService MempoolFile Archive TxOutProof BitcoindBlockchain BitcoindMempool ElectrumTransactions ElectrumServer Combine BitcoindTransaction EsploraChain EsploraIndex Queries.

(** [json::parse]: the value of a text, if it is json. *)
Class JsonText := { parse_json : string → option value_t }.

(** ** Operations *)

(** What a handler does. *)
Inductive es_action `{SignedTransactions} :=
  | acts (reaction : es_reaction)
  | defers (query : es_query)
  | estimating (step : estimate_step).

Definition takes_body (method : string) : bool :=
  (method == "broadcast") || (method == "broadcast_package").

Section Body.
Context `{JsonText}.

(** The loop over the items of a package: [None] if one is not a string. *)
Definition body_strings (items : array) : option array :=
  mapM (λ item, match item with string_t text => Some (string_t text) | _ => None end) items.

Definition package_of (body : string) : array :=
  match parse_json body with
  | Some (array_t items) => default [] (body_strings items)
  | _ => []
  end.

(** [None] if the request has no object of parameters. *)
Definition set_body (model : request_t) (body : string) : option request_t :=
  o ← object_params model;
  Some (with_params model
    (if method model == "broadcast" then set_field "transaction" (string_t body) o
     else set_field "transactions" (array_t (package_of body)) o)).

End Body.

Section Service.
Context `{Text} `{SizeMath} `{Integers} `{MediaValues} `{JsonText} `{Dispatcher} `{MerkleMath} `{MerkleBranches}
  `{NamedErrors} `{DescriptorScripts} `{!TransactionScripts} `{!MultisigScripts} `{!SignedTransactions}
  `{!ChainTransactions} `{ChainArchive} `{!BlockArchive} `{!TxArchive} `{!ElectrumTxArchive}
  `{!RawTxArchive} `{!PoolArchive} `{!EsploraArchive} `{!EsploraIndex} `{EstimateErrors}.
Context (p2kh p2sh : Z) (witness : string) (maximum_history : Z).

Definition replying (estimates_ : object) (replies : list es_reply) : object * list es_action :=
  (estimates_, acts ∘ es_replies <$> replies).

Definition deferring (estimates_ : object) (d : es_deferral) : object * list es_action :=
  match d with
  | es_now replies => replying estimates_ replies
  | es_later query => (estimates_, [defers query])
  end.

(** An argument that may be absent. *)
Definition argument_text (o : object) (name : string) : option string :=
  match find_field name o with
  | Some (string_t text) => Some text
  | _ => None
  end.

Definition argument_nullable_text (o : object) (name : string) : option (option string) :=
  match find_field name o with
  | None => Some None
  | Some (string_t text) => Some (Some text)
  | _ => None
  end.

Definition argument_optional_number (o : object) (name : string) (absent : Z) : option Z :=
  match find_field name o with
  | None => Some absent
  | Some (uint32_t n) => Some n
  | _ => None
  end.

(** A hash that is not required: [None] if its pointer is null. *)
Definition argument_optional_hash (o : object) (name : string) : option (option hash_digest) :=
  h ← argument_nullable o name;
  match h with
  | None => Some None
  | Some None => None
  | Some (Some hash) => Some (Some hash)
  end.

(** The subscriptions of [start]: the handler of a method, with the arguments of the
    request and the estimates of the channel. *)
Definition invoke (q : archive) (e : object) (name : string) (o : object) :
    option (object * list es_action) :=
  media ← argument_number o "media";
  let required := h ← argument_hash o "hash"; h in
  let index := argument_number o "index" in
  let reply replies := Some (replying e replies) in
  let by_hash (handle : hash_digest → list es_reply) := hash ← required; reply (handle hash) in
  let by_address (handle : option hash_digest → option string → es_deferral) :=
    hash ← argument_optional_hash o "hash"; address ← argument_nullable_text o "address";
    Some (deferring e (handle hash address)) in
  if name == "tx" then by_hash (handle_get_tx p2kh p2sh witness q false media)
  else if name == "tx_status" then by_hash (handle_get_tx_status q false media)
  else if name == "tx_merkleblock_proof" then
    hash ← required; replies ← handle_get_tx_merkleblock_proof q false media hash; reply replies
  else if name == "tx_merkle_proof" then by_hash (handle_get_tx_merkle_proof q false media)
  else if name == "tx_outspend" then
    hash ← required; index ← index; reply (handle_get_tx_outspend q false media hash index)
  else if name == "tx_outspends" then by_hash (handle_get_tx_outspends q false media)
  else if name == "broadcast" then
    text ← argument_text o "transaction"; Some (e, acts <$> handle_broadcast false media text)
  else if name == "broadcast_package" then
    items ← argument_array o "transactions"; Some (e, acts <$> handle_broadcast_package false media items)
  else if name == "address" then
    by_address (EsploraIndex.handle_get_address p2kh p2sh witness q false media)
  else if name == "address_txs" then by_address (handle_get_address_txs p2kh p2sh witness q false media)
  else if name == "address_txs_chain" then
    last_seen ← argument_optional_hash o "last_seen";
    by_address (λ hash address,
      handle_get_address_txs_chain p2kh p2sh witness q false media hash address last_seen)
  else if name == "address_txs_mempool" then
    by_address (handle_get_address_txs_mempool p2kh p2sh witness q false media)
  else if name == "address_utxo" then by_address (handle_get_address_utxo p2kh p2sh witness q false media)
  else if name == "block" then by_hash (handle_get_block q false media)
  else if name == "block_header" then by_hash (es_block_header q false media)
  else if name == "block_status" then by_hash (handle_get_block_status q false media)
  else if name == "block_txs" then
    hash ← required; start ← argument_optional_number o "start" 0;
    reply (handle_get_block_txs p2kh p2sh witness q false media hash start)
  else if name == "block_txids" then by_hash (handle_get_block_txids q false media)
  else if name == "block_txid" then
    hash ← required; index ← index; reply (handle_get_block_txid q false media hash index)
  else if name == "block_height" then
    height ← argument_number o "height"; reply (handle_get_block_height q false media height)
  else if name == "blocks" then
    height ← argument_nullable_number o "height"; reply (handle_get_blocks q false media height)
  else if name == "tip_height" then reply (handle_get_tip_height q false media)
  else if name == "tip_hash" then reply (handle_get_tip_hash q false media)
  else if name == "mempool" then Some (deferring e (handle_get_mempool false media))
  else if name == "mempool_txids" then Some (deferring e (handle_get_mempool_txids false media))
  else if name == "mempool_recent" then Some (deferring e (handle_get_mempool_recent false media))
  else if name == "fee_estimates" then
    let '(e, step) := handle_get_fee_estimates false media e in Some (e, [estimating step])
  else None.

(** The code of a dispatch, or what the handler does. *)
Definition notify (q : archive) (e : object) (model : request_t) :
    option (code + (object * list es_action)) :=
  match find_method esplora_interface (method model), object_params model with
  | Some m, Some o =>
      match check_parameters m o with
      | Some ec => Some (inl ec)
      | None => inr <$> invoke q e (method model) o
      end
  | _, _ => Some (inl unexpected_method)
  end.

(** *** http *)

Definition answer_status (e : object) (s : http_status) : object * list es_action :=
  replying e [es_status s].

(** A request that is dispatched, of a credential that permits its method. *)
Definition dispatch_model (q : archive) (e : object) (permits : string → bool) (model : request_t) :
    option (object * list es_action) :=
  if negb (permits (method model)) then Some (answer_status e forbidden)
  else
    notified ← notify q e model;
    Some match notified with
         | inl _ => answer_status e internal_server_error
         | inr result => result
         end.

(** [None] if the request is not handled; the outer [None] is undefined behaviour. *)
Definition try_dispatch_object (q : archive) (e : object) (get : incoming) (target : string) :
    option (option (object * list es_action)) :=
  '(fault, model) ← esplora_target request_default target;
  match fault with
  | Error.success =>
      if takes_body (method model) then Some (Some (replying e [es_not_allowed]))
      else Some <$> dispatch_model q e (permitted get) model
  | _ => Some None
  end.

Definition handle_receive_get `{!Pages} (q : archive) (stopped : bool) (e : object) (get : incoming)
    (target : string) : option (object * list es_action) :=
  if stopped then Some (e, [])
  else
    match refused get target with
    | Some fault => Some (answer_status e fault)
    | None =>
        handled ← try_dispatch_object q e get target;
        Some (default (answer_status e not_found) handled)
    end.

(** The body of a post is text, or not. *)
Definition handle_receive_post `{!Pages} (q : archive) (stopped : bool) (e : object) (post : incoming)
    (target : string) (body : option string) : option (object * list es_action) :=
  if stopped then Some (e, [])
  else
    match refused post target with
    | Some fault => Some (answer_status e fault)
    | None =>
        '(fault, model) ← esplora_target request_default target;
        match fault with
        | Error.success =>
            if negb (takes_body (method model)) then Some (replying e [es_not_allowed])
            else
              match body with
              | None => Some (answer_status e bad_request)
              | Some text => model ← set_body model text; dispatch_model q e (permitted post) model
              end
        | _ => Some (answer_status e not_found)
        end
    end.

(** *** Websockets *)

Inductive es_stop := es_unauthorized | es_not_acceptable | es_bad_request | es_internal_server_error.

(** The target of a frame, and its body after the first newline. *)
Fixpoint split_newline (frame : string) : string * option string :=
  match frame with
  | EmptyString => (EmptyString, None)
  | String c rest =>
      if Ascii.eqb c (Ascii.ascii_of_nat 10) then (EmptyString, Some rest)
      else let '(target, body) := split_newline rest in (String c target, body)
  end.

Definition dispatch_websocket (q : archive) (e : object) (authorized : bool) (frame : option string)
    (permits : string → bool) : option (es_stop + (object * list es_action)) :=
  if negb authorized then Some (inl es_unauthorized)
  else
    match frame with
    | None => Some (inl es_not_acceptable)
    | Some frame =>
        let '(target, body) := split_newline frame in
        '(fault, model) ← esplora_target request_default target;
        match fault with
        | Error.success =>
            match (if takes_body (method model) then
                     match body with
                     | None => None
                     | Some body => Some (set_body model body)
                     end
                   else Some (Some model)) with
            | None => Some (inl es_bad_request)
            | Some model =>
                model ← model;
                if negb (permits (method model)) then Some (inl es_unauthorized)
                else
                  notified ← notify q e model;
                  Some match notified with
                       | inl _ => inl es_internal_server_error
                       | inr result => inr result
                       end
            end
        | _ => Some (inl es_bad_request)
        end
    end.

End Service.

(** ** Arguments that fit *)

Lemma argument_text_some o name :
  match find_field name o with Some v => type_of v = Some type_string | None => required ≠ required end →
  ∃ text, argument_text o name = Some text.
Proof.
  intros Hv. unfold argument_text. destruct (find_field name o) as [v|]; [|done].
  destruct v; simplify_eq/=. by eexists.
Qed.

Lemma argument_nullable_text_some o name :
  match find_field name o with Some v => type_of v = Some type_string | None => nullable ≠ required end →
  ∃ text, argument_nullable_text o name = Some text.
Proof.
  intros Hv. unfold argument_nullable_text. destruct (find_field name o) as [v|]; [|by eexists].
  destruct v; simplify_eq/=. by eexists.
Qed.

Lemma argument_optional_number_some o name absent :
  match find_field name o with Some v => type_of v = Some type_uint32 | None => optional ≠ required end →
  ∃ n, argument_optional_number o name absent = Some n.
Proof.
  intros Hv. unfold argument_optional_number. destruct (find_field name o) as [v|]; [|by eexists].
  destruct v; simplify_eq/=. by eexists.
Qed.

Lemma argument_optional_hash_some o name :
  match find_field name o with Some v => type_of v = Some type_hash | None => nullable ≠ required end →
  ∃ h, argument_optional_hash o name = Some h.
Proof.
  intros Hv. unfold argument_optional_hash, argument_nullable.
  destruct (find_field name o) as [v|]; [|by eexists]. destruct v; simplify_eq/=. by eexists.
Qed.

Ltac fits_more :=
  repeat (fits; match goal with
  | H : match find_field ?k ?o with Some v => _ | None => _ end |- context [argument_text ?o ?k] =>
      destruct (argument_text_some o k H) as [? ->]; cbn [mbind option_bind]
  | H : match find_field ?k ?o with Some v => _ | None => _ end |- context [argument_nullable_text ?o ?k] =>
      destruct (argument_nullable_text_some o k H) as [? ->]; cbn [mbind option_bind]
  | H : match find_field ?k ?o with Some v => _ | None => _ end |- context [argument_optional_number ?o ?k ?a] =>
      destruct (argument_optional_number_some o k a H) as [? ->]; cbn [mbind option_bind]
  | H : match find_field ?k ?o with Some v => _ | None => _ end |- context [argument_optional_hash ?o ?k] =>
      destruct (argument_optional_hash_some o k H) as [? ->]; cbn [mbind option_bind]
  end); fits.

(** ** Every request is answered once *)

(** Blocks are held in memory. *)
Class EsploraLaws `{ChainArchive} : Prop := {
  tx_keys_bounded q link : Z.of_nat (length (get_tx_keys q link)) <= 2 ^ 62;
}.

Section Answers.
Context `{TextLaws} `{SizeMath} `{Integers} `{MediaValues} `{JsonText} `{Dispatcher} `{!DispatcherLaws} `{MerkleMathLaws}
  `{MerkleBranches} `{NamedErrors} `{DescriptorScripts} `{!TransactionScripts} `{!MultisigScripts}
  `{!SignedTransactions} `{!ChainTransactions} `{ChainArchive} `{!BlockArchive} `{!TxArchive}
  `{!ElectrumTxArchive} `{!RawTxArchive} `{!PoolArchive} `{!EsploraArchive} `{!EsploraIndex}
  `{EstimateErrors} `{!EsploraLaws}.
Context (p2kh p2sh : Z) (witness : string) (maximum_history : Z).

Definition once {A} (replies : list A) : Prop := ∃ r, replies = [r].

(** A reply, or a submission, query or chain of estimates that replies once whenever
    it completes: the estimates within one step for each target. *)
Definition es_answers (e : object) (a : es_action) : Prop :=
  match a with
  | acts (es_replies _) => True
  | acts (es_submits txs by_) =>
      ∀ q ec index, ∃ replies, run_submission q false ec index by_ txs = Some replies ∧ once replies
  | defers query => ∀ q q', once (run_query p2kh p2sh witness maximum_history q q' false query)
  | estimating step =>
      ∀ node, ∃ e' replies, run_estimates node (length targets) (e, step) = Some (e', replies) ∧ once replies
  end.

Definition submits (a : es_action) : bool :=
  match a with
  | acts (es_submits _ _) => true
  | _ => false
  end.

Definition answered_once (name : string) (result : option (object * list es_action)) : Prop :=
  ∃ e a, result = Some (e, [a]) ∧ es_answers e a ∧ (submits a = true → takes_body name = true).

Lemma replying_answered name e replies : once replies → answered_once name (Some (replying e replies)).
Proof. intros [r ->]. by exists e, (acts (es_replies r)). Qed.

Lemma run_query_once q q' query : once (run_query p2kh p2sh witness maximum_history q q' false query).
Proof.
  destruct query; cbn [run_query]; unfold complete_get_address, complete_get_address_txs,
    complete_get_address_utxo, complete_get_mempool;
    repeat (first [done | by eexists | case_match]).
Qed.

Lemma deferring_answered name e d :
  (∀ replies, d = es_now replies → once replies) → answered_once name (Some (deferring e d)).
Proof.
  intros Hnow. destruct d as [replies|query]; [by apply replying_answered, Hnow|].
  exists e, (defers query). split; [done|]. split; [|done]. intros q q'. apply run_query_once.
Qed.

Lemma by_key_answered name e q media hash address query :
  answered_once name (Some (deferring e (by_key p2kh p2sh witness q false media hash address query))).
Proof.
  apply deferring_answered. unfold by_key. intros replies.
  repeat case_match; intros; simplify_eq; by eexists.
Qed.

Lemma of_pool_answered name e media query :
  answered_once name (Some (deferring e (of_pool false media query))).
Proof.
  apply deferring_answered. unfold of_pool. intros replies.
  repeat case_match; intros; simplify_eq; by eexists.
Qed.

Lemma accepts_once media wanted replies : once replies → once (accepts false media wanted replies).
Proof. intros Hr. unfold accepts. case_match; [by eexists|done]. Qed.

Ltac solve_once := repeat eexists; reflexivity.
Ltac solve_answered := do 2 eexists; split; [reflexivity|split; [exact I|done]].

Lemma merkleblock_once q media hash :
  ∃ replies, handle_get_tx_merkleblock_proof q false media hash = Some replies ∧ once replies.
Proof.
  unfold handle_get_tx_merkleblock_proof. destruct (negb _); [solve_once|].
  set (link := find_confirmed_block q hash). destruct (negb _); [solve_once|].
  destruct (get_header q link) as [header|]; [|solve_once].
  destruct (Nat.eqb_spec (length (get_tx_keys q link)) 0) as [|Hkeys]; [solve_once|].
  destruct (negb _); [solve_once|].
  destruct (build_partial_merkle_total (get_tx_keys q link)
    ((λ key, bool_decide (key = hash)) <$> get_tx_keys q link)) as [[flags hashes] ->].
  - by intros Hnil; rewrite Hnil in Hkeys.
  - apply tx_keys_bounded.
  - by rewrite length_fmap.
  - cbn. solve_once.
Qed.

(** The estimates from a target on, by what is estimated so far. *)
Lemma next_estimate_once node e index :
  ∃ e' replies, run_estimates node (length targets - index) (next_estimate e index) = Some (e', replies) ∧
    once replies.
Proof.
  remember (length targets - index)%nat as fuel eqn:Hfuel. revert e index Hfuel.
  induction fuel as [|fuel IH]; intros e index Hfuel; unfold next_estimate.
  - rewrite lookup_ge_None_2 by lia. solve_once.
  - destruct (lookup_lt_is_Some_2 targets index) as [target Htarget]; [lia|]. rewrite Htarget.
    cbn [run_estimates]. destruct (node target) as [ec fee]. unfold complete_estimate. cbn [negb].
    destruct (_ && _); [destruct fuel; solve_once|]. apply IH. lia.
Qed.

Lemma handle_broadcast_answered e media text :
  answered_once "broadcast" (Some (e, acts <$> handle_broadcast false media text)).
Proof.
  unfold handle_broadcast. destruct (negb _); [solve_answered|].
  destruct (read_hexed text) as [tx|]; [|solve_answered].
  do 2 eexists. split; [done|]. split; [|done]. intros q ec index. eexists. split; [done|].
  unfold complete_submit_tx. case_match; by eexists.
Qed.

Lemma handle_broadcast_package_answered e media items :
  answered_once "broadcast_package" (Some (e, acts <$> handle_broadcast_package false media items)).
Proof.
  unfold handle_broadcast_package. destruct (negb _); [solve_answered|].
  destruct (_ || _); [solve_answered|]. destruct (mapM read_item items) as [txs|]; [|solve_answered].
  do 2 eexists. split; [done|]. split; [|done]. intros q ec index. eexists. split; [done|].
  unfold complete_submit_package. case_match; by eexists.
Qed.

Lemma fee_estimates_answered e media :
  answered_once "fee_estimates" (let '(e, step) := handle_get_fee_estimates false media e in Some (e, [estimating step])).
Proof.
  unfold handle_get_fee_estimates. destruct (negb _).
  - do 2 eexists. split; [done|]. split; [|done]. intros node. solve_once.
  - destruct (next_estimate [] 0) as [e' step] eqn:Hnext. do 2 eexists. split; [done|]. split; [|done]. intros node.
    rewrite <-Hnext. destruct (next_estimate_once node [] 0) as (e2 & replies & Hrun & Honce).
    by exists e2, replies.
Qed.

Lemma esplora_invoke_answered q e name m o :
  find_method esplora_interface name = Some m → check_parameters m o = None →
  answered_once name (invoke p2kh p2sh witness q e name o).
Proof.
  intros Hm Hcheck. apply check_parameters_fit in Hcheck.
  unfold find_method in Hm. apply List.find_some in Hm as [Hin Hname%String.eqb_eq].
  apply list_elem_of_In in Hin. unfold esplora_interface in Hin.
  repeat (apply elem_of_cons in Hin as [->|Hin];
    [cbn [method_name parameters] in *; subst name; unfold invoke; cbv [String.eqb Ascii.eqb Bool.eqb]|]);
    [..|by apply not_elem_of_nil in Hin].
  all: cbv beta zeta; fits_more; cbv beta zeta.
  all: try first [ apply by_key_answered | apply of_pool_answered | apply handle_broadcast_answered
    | apply handle_broadcast_package_answered | apply fee_estimates_answered ].
  all: try (apply replying_answered, accepts_once; cbv zeta; repeat (first [done | by eexists | case_match])).
  - apply replying_answered. unfold handle_get_tx. cbn [negb].
    repeat (first [done | by eexists | case_match]).
  - match goal with |- context [handle_get_tx_merkleblock_proof q false ?media ?hash] =>
      destruct (merkleblock_once q media hash) as (replies & -> & Honce) end.
    by apply replying_answered.
  - apply replying_answered. unfold handle_get_block. repeat (first [done | by eexists | case_match]).
Qed.

End Answers.

(** ** Pages *)

Section Pages.
Context `{Text} `{SizeMathLaws} `{MediaValues} `{DescriptorScripts} `{ChainArchive} `{!BlockArchive}
  `{!TxArchive} `{!ElectrumTxArchive} `{!PoolArchive} `{!EsploraArchive}.
Context (p2kh p2sh : Z) (witness : string).

Definition es_page (page : list object) : list es_reply := [es_json (array_t (object_t <$> page))].

Definition history_object (q : archive) (item : history) : option object :=
  es_tx_object p2kh p2sh witness q (to_tx q (history_hash item)).

(** The last transaction of the page before. *)
Definition last_seen_of (confirmed : list history) (k : nat) : option hash_digest :=
  match k with
  | O => None
  | S _ => history_hash <$> reverse confirmed !! (address_page * k - 1)%nat
  end.

Lemma address_txs_page q confirmed objects k page :
  NoDup (history_hash <$> confirmed) → mapM (history_object q) (reverse confirmed) = Some objects →
  pages address_page objects !! k = Some page →
  complete_get_address_txs p2kh p2sh witness q false (last_seen_of confirmed k) (inr ([], confirmed)) =
    es_page page.
Proof.
  intros Hdup Hobjects [-> Hk]%pages_lookup; [|done].
  assert (length objects = length (reverse confirmed)) as Hlength
    by (symmetry; by apply length_mapM in Hobjects).
  assert (after_seen confirmed (last_seen_of confirmed k) =
    Some (drop (address_page * k) (reverse confirmed))) as Hseen.
  { destruct k as [|k]; [by rewrite Nat.mul_0_r|]. cbn [last_seen_of].
    destruct (lookup_lt_is_Some_2 (reverse confirmed) (address_page * S k - 1)) as [item Hitem];
      [unfold address_page in *; lia|].
    rewrite Hitem. cbn [fmap option_fmap option_map].
    rewrite (after_seen_lookup _ _ _ Hdup Hitem). f_equal. f_equal. unfold address_page. lia. }
  unfold complete_get_address_txs. rewrite Hseen.
  change (reverse []) with (@nil history). rewrite take_nil. cbn [app].
  pose proof (mapM_page _ _ _ address_page (address_page * k) Hobjects) as Hpage.
  unfold history_object in Hpage. by rewrite Hpage.
Qed.

Lemma block_txs_page q hash objects k page :
  let txs := to_transactions q (to_header q hash) in
  mapM (es_tx_object p2kh p2sh witness q) txs = Some objects → Z.of_nat (length txs) < 2 ^ 63 →
  pages (Z.to_nat tx_page) objects !! k = Some page →
  handle_get_block_txs p2kh p2sh witness q false media_json hash (tx_page * Z.of_nat k) = es_page page.
Proof.
  intros txs Hobjects Hmax [-> Hk]%pages_lookup; [|done].
  assert (length objects = length txs) as Hlength by (symmetry; by apply length_mapM in Hobjects).
  unfold handle_get_block_txs, accepts. rewrite Z.eqb_refl. cbn [negb].
  rewrite Z.mul_comm, Z_mod_mult. cbn [Z.eqb negb]. fold txs.
  change (Z.to_nat tx_page) with 25%nat in *. unfold tx_page.
  destruct (Z.leb_spec (Z.of_nat (length txs)) (Z.of_nat k * 25)); [lia|].
  rewrite ceilinged_add_spec. unfold max_size_t.
  rewrite (Z.min_l (Z.of_nat k * 25 + 25)) by lia.
  replace (Z.to_nat (Z.of_nat k * 25)) with (25 * k)%nat by lia.
  assert (take (Z.to_nat ((Z.of_nat k * 25 + 25) `min` Z.of_nat (length txs) - Z.of_nat k * 25))
    (drop (25 * k) txs) = take 25 (drop (25 * k) txs)) as ->.
  { destruct (Z.min_spec (Z.of_nat k * 25 + 25) (Z.of_nat (length txs))) as [[_ ->]|[Hle ->]].
    - f_equal. lia.
    - rewrite !take_ge; [done|rewrite length_drop; lia..]. }
  by rewrite (mapM_page _ _ _ 25 (25 * k) Hobjects).
Qed.

End Pages.

(** ** Example: a chain of three blocks, with a transaction of each number *)

#[local] Existing Instance reference_text.
#[local] Existing Instance reference_text_laws.
#[local] Existing Instance reference_sizes.
#[local] Existing Instance reference_sizes_laws.
#[local] Existing Instance BitcoindParsers.example_integers.
#[local] Existing Instance BitcoindBlockchain.example_chain.
#[local] Existing Instance BitcoindBlockchain.example_blocks.
#[local] Existing Instance Combine.example_scripts.
#[local] Existing Instance Combine.example_multisig.
#[local] Existing Instance Combine.example_signed.
#[local] Existing Instance BitcoindTransaction.example_transactions.
#[local] Existing Instance BitcoindTransaction.example_node_errors.
#[local] Existing Instance BitcoindTransaction.example_errors.

#[local] Instance example_wallet : Wallet := {
  payment_prefix _ := 0;
  witness_address := unit;
  to_witness_address _ := None;
  witness_prefix _ := "";
  witness_script _ := [];
  is_public_key _ := true;
  pay_public_key key := key;
  pay_key_hash key := key;
}.

#[local] Instance example_descriptors : DescriptorScripts := {
  public_key _ := [];
  Descriptor.multisig_required _ := 0;
  Descriptor.multisig_keys _ := [];
  script_data bytes := bytes;
  witness_version _ := None;
  witness_encoded _ _ _ := "";
  is_compressed_key _ := false;
  to_pay_multisig _ points := concat points;
  to_pay_witness hash := hash;
  sha256_hash bytes := bytes;
  script_payment _ _ := "";
  script_witness _ _ := "";
  max_push_data_size := 520;
}.

#[local] Instance example_transaction_scripts : TransactionScripts := {
  BitcoindParsers.pay_null_data data := data;
  max_null_data_size := 80;
  bip125_sequence := 0xfffffffd;
  max_input_sequence := 0xffffffff;
}.

#[local] Instance example_txs : TxArchive := {
  tx_link := Z;
  is_tx_terminal link := link <? 0;
  output_link := Z;
  is_output_terminal link := link <? 0;
  to_output _ _ index := index;
  to_output_tx _ link := link;
  get_output _ link := None;
  is_confirmed_spent _ link := link =? 0;
  is_confirmable_spent _ _ := false;
  get_tx_height _ link := Some link;
  is_pooled _ _ := false;
  is_confirmable_tx _ _ := false;
  is_coinbase_tx _ link := link =? 0;
  get_tx_key _ link := replicate 32 link;
  satoshi_per_bitcoin := 100000000;
}.

#[local] Instance example_electrum : ElectrumTxArchive := {
  to_tx _ hash := default (-1) (head hash);
  get_wire_tx _ _ := [];
  get_tx_model _ _ := None;
  find_strong _ _ := None : option Z;
  get_timestamp _ _ := None;
  get_position_tx _ _ _ := -1;
}.

#[local] Instance example_raw : RawTxArchive := {
  get_tx_size _ _ := Some 100;
  write_wire_tx _ _ := None;
  is_confirmed_tx _ _ := false;
  to_outputs _ _ := [];
  BitcoindTransaction.get_tx_fees _ _ := Some (1000, 100);
  populate_tx _ _ := None;
}.

#[local] Instance example_pool : PoolArchive := {
  to_duplicates _ hash := [];
  BitcoindMempool.get_tx_fees _ link := None;
  get_tx_weight _ _ := None;
  get_time _ link := None;
  get_ancestor_totals _ link := None;
  get_descendant_totals _ link := None;
  get_wtxid _ link := [];
  to_confirmable_parents _ link := [];
  to_confirmable_children _ link := [];
  to_confirmable_ancestors _ link := [];
  to_confirmable_descendants _ link := [];
  get_pool_txs _ := inr [7; 8];
  get_pool_fees _ := Some [FeeRate 200 7000; FeeRate 200 8000];
  spends_size _ := 10;
  wtxid_size _ := 10;
  pool_size _ := 10;
  input_link := Z;
  is_input_terminal link := link <? 0;
  find_confirmable_spender _ _ := -1;
  find_confirmed_spender _ prevout := if prevout.2 =? 0 then 0 else -1;
  to_input_tx _ link := link;
  get_tx_data _ link := Some [link];
  find_tx_block _ _ := Some 1;
}.

#[local] Instance example_esplora : EsploraArchive := {
  has_ops _ := true;
  output_pattern _ := pay_key_hash;
  script_text _ := "";
  get_transaction _ link := if link <? 0 then None else Some (EsTx 1 0 [] [(50, [link])] true 60 60 [link] 0);
  populate_with_metadata _ tx := (true, tx);
  to_points _ link := [link];
  input_link_eqb := Z.eqb;
  to_transactions _ _ := seqZ 0 30;
  header_version _ := 1;
  header_nonce _ := 2;
  header_merkle _ := [];
  get_block_sizes _ _ := Some (60, 60);
  get_size _ _ := Some 60;
  get_bytes _ _ := Some [1; 2; 3];
  header_text _ := "00";
  weighted_size nominal maximal := 3 * nominal + maximal;
  written_merkle _ := [1; 2];
  find_link_block _ link := example_link link;
}.

#[local] Instance example_index : EsploraIndex := {
  EsploraIndex.address_enabled _ := true;
  get_address_totals _ _ := inr (AddressTotals 1 50 0 0, AddressTotals 0 0 0 0);
  get_confirmed_history _ _ _ := inr [];
  get_unconfirmed_history _ _ _ := inr [];
  get_unspent _ _ := inr [];
  get_recent _ _ := Some (100, 200, 300);
  histogram_value _ := array_t [];
}.

#[local] Instance example_estimates : EstimateErrors := {
  estimate_false := Code network_category 11;
  estimate_disabled := Code network_category 12;
  estimate_premature := Code network_category 13;
}.

#[local] Instance example_json : JsonText := { parse_json _ := None }.
#[local] Instance example_branches : MerkleBranches := { merkle_branch _ _ := [] }.
#[local] Instance example_laws : EsploraLaws.
Proof. by split. Qed.

#[local] Instance example_pages : Pages := {
  is_origin_form target := starts_with "/" target;
  file_media_type _ media := media;
  sanitize_origin root path := root +:+ path;
  has_extension _ := false;
  can_open _ := true;
}.

Definition example_archive : archive := tt.

(** An output that does not exist is reported as unspent: this transaction has one. *)
Example missing_output_unspent :
  length ∘ es_outputs <$> get_transaction example_archive 3 = Some 1%nat ∧
  handle_get_tx_outspend example_archive false media_json (replicate 32 3) 9 =
    [es_json (object_t [("spent", boolean_t false)])].
Proof. split; reflexivity. Qed.

Definition example_request : incoming := Incoming true true None (λ _, true).

(** ** Properties *)

(** C7: the esplora service answers every get and every post exactly once, whatever the
    target and the body: by one reply, or by a submission, a parallel query or a chain
    of fee estimates that replies once when it completes (the chain within one step for
    each of its targets). No handler is called with a missing argument or one of
    another type, and only a post submits transactions. *)
Theorem esplora_answered_once `{TextLaws} `{SizeMath} `{Integers} `{MediaValues} `{JsonText} `{Dispatcher}
    `{!DispatcherLaws} `{MerkleMathLaws} `{MerkleBranches} `{NamedErrors} `{DescriptorScripts}
    `{!TransactionScripts} `{!MultisigScripts} `{!SignedTransactions} `{!ChainTransactions} `{ChainArchive}
    `{!BlockArchive} `{!TxArchive} `{!ElectrumTxArchive} `{!RawTxArchive} `{!PoolArchive} `{!EsploraArchive}
    `{!EsploraIndex} `{EstimateErrors} `{!EsploraLaws} `{!Pages} p2kh p2sh witness maximum_history q e
    request target body :
  (∃ e' a, handle_receive_get p2kh p2sh witness q false e request target = Some (e', [a]) ∧
    es_answers p2kh p2sh witness maximum_history e' a ∧ submits a = false) ∧
  (∃ e' a, handle_receive_post p2kh p2sh witness q false e request target body = Some (e', [a]) ∧
    es_answers p2kh p2sh witness maximum_history e' a).
Proof.
  assert (∀ fault, ∃ e' a, Some (answer_status e fault) = Some (e', [a]) ∧
    es_answers p2kh p2sh witness maximum_history e' a ∧ submits a = false) as Hstatus
    by (intros fault; by do 2 eexists).
  assert (∀ name o, ∃ e' a, dispatch_model p2kh p2sh witness q e (permitted request) (message name o) =
      Some (e', [a]) ∧ es_answers p2kh p2sh witness maximum_history e' a ∧
      (submits a = true → takes_body name = true)) as Hdispatch.
  { intros name o. unfold dispatch_model. change (method (message name o)) with name.
    destruct (permitted request name); cbn [negb]; [|by do 2 eexists]. unfold notify.
    change (method (message name o)) with name. change (object_params (message name o)) with (Some o).
    destruct (find_method esplora_interface name) as [m|] eqn:Hm; [|by do 2 eexists].
    destruct (check_parameters m o) eqn:Hcheck; [by do 2 eexists|].
    destruct (esplora_invoke_answered p2kh p2sh witness maximum_history q e name m o Hm Hcheck)
      as (e' & a & -> & Ha). by exists e', a. }
  destruct (proj1 (run_target_parses _ _ esplora_body_ok request_default target)) as (fault & model & Htarget).
  split.
  - unfold handle_receive_get. destruct (refused request target); [apply Hstatus|].
    unfold try_dispatch_object, esplora_target. rewrite Htarget. cbn [mbind option_bind].
    destruct fault; try apply Hstatus.
    apply (run_target_parses _ _ esplora_body_ok) in Htarget as (segments & name & ps & _ & _ & ->).
    change (method (message name ps)) with name. destruct (takes_body name) eqn:Hbody.
    + by do 2 eexists.
    + destruct (Hdispatch name ps) as (e' & a & -> & Ha & Hsubmits). exists e', a. split; [done|].
      split; [done|]. destruct (submits a); [|done]. by rewrite Hsubmits in Hbody.
  - assert (∀ fault, ∃ e' a, Some (answer_status e fault) = Some (e', [a]) ∧
      es_answers p2kh p2sh witness maximum_history e' a) as Hstatus'
      by (intros fault'; by do 2 eexists).
    unfold handle_receive_post. destruct (refused request target); [apply Hstatus'|].
    unfold esplora_target. rewrite Htarget. cbn [mbind option_bind].
    destruct fault; try apply Hstatus'.
    apply (run_target_parses _ _ esplora_body_ok) in Htarget as (segments & name & ps & _ & _ & ->).
    change (method (message name ps)) with name. destruct (takes_body name); cbn [negb]; [|by do 2 eexists].
    destruct body as [text|]; [|apply Hstatus']. unfold set_body.
    change (object_params (message name ps)) with (Some ps). cbn [mbind option_bind].
    change (method (message name ps)) with name.
    match goal with |- context [with_params (message name ps) ?o] =>
      change (with_params (message name ps) o) with (message name o);
      destruct (Hdispatch name o) as (e' & a & -> & Ha & _) end. by exists e', a.
Qed.

Lemma esplora_answered_once_witness :
  ∃ e a, handle_receive_get 0 5 "bc" example_archive false [] example_request "/block-height/2" =
      Some (e, [a]) ∧
    a = acts (es_replies (es_text (encode_hash (BitcoindBlockchain.example_hash 2)))).
Proof.
  destruct (proj1 (esplora_answered_once 0 5 "bc" 100 example_archive [] example_request "/block-height/2" None))
    as (e & a & Hrun & _ & _).
  exists e, a. split; [exact Hrun|].
  assert (handle_receive_get 0 5 "bc" example_archive false [] example_request "/block-height/2" =
    Some ([], [acts (es_replies (es_text (encode_hash (BitcoindBlockchain.example_hash 2))))])) as Heval
    by (vm_compute; reflexivity).
  rewrite Heval in Hrun. congruence.
Defined.

(** C8: pages cover what they page, once and in order. The pages of the transactions of
    an address, each requested after the last of the page before, are those of its
    confirmed history from the newest, of 25 each; a transaction that is not in the
    history is not found. The pages of the transactions of a block, requested at the
    multiples of 25, are those of the block in order; other positions are refused. *)
Theorem esplora_pages_correct `{Text} `{SizeMathLaws} `{MediaValues} `{DescriptorScripts} `{ChainArchive}
    `{!BlockArchive} `{!TxArchive} `{!ElectrumTxArchive} `{!PoolArchive} `{!EsploraArchive} p2kh p2sh witness
    q confirmed objects hash block_objects :
  NoDup (history_hash <$> confirmed) →
  mapM (history_object p2kh p2sh witness q) (reverse confirmed) = Some objects →
  let txs := to_transactions q (to_header q hash) in
  mapM (es_tx_object p2kh p2sh witness q) txs = Some block_objects → Z.of_nat (length txs) < 2 ^ 63 →
  let address_txs last_seen :=
    complete_get_address_txs p2kh p2sh witness q false last_seen (inr ([], confirmed)) in
  let block_txs start := handle_get_block_txs p2kh p2sh witness q false media_json hash start in
  (concat (pages address_page objects) = objects ∧
   (∀ k page, pages address_page objects !! k = Some page →
      address_txs (last_seen_of confirmed k) = es_page page) ∧
   (∀ last, last ∉ history_hash <$> confirmed → address_txs (Some last) = es_error not_found)) ∧
  (concat (pages (Z.to_nat tx_page) block_objects) = block_objects ∧
   (∀ k page, pages (Z.to_nat tx_page) block_objects !! k = Some page →
      block_txs (tx_page * Z.of_nat k) = es_page page) ∧
   (∀ start, start mod tx_page ≠ 0 → block_txs start = es_error bad_request)).
Proof.
  intros Hdup Hobjects txs Hblock Hmax address_txs block_txs. split; (split; [by apply concat_pages|split]).
  - intros k page Hpage. by apply (address_txs_page _ _ _ _ _ objects).
  - intros last Hlast. unfold address_txs, complete_get_address_txs, after_seen.
    destruct (list_find _ _) as [[i item]|] eqn:Hfind; [|done].
    apply list_find_Some in Hfind as (Hitem & <- & _). destruct Hlast.
    apply list_elem_of_fmap. exists item. split; [done|]. apply elem_of_reverse.
    by eapply list_elem_of_lookup_2.
  - intros k page Hpage. by apply (block_txs_page _ _ _ _ _ block_objects).
  - intros start Hstart. unfold block_txs, handle_get_block_txs, accepts. rewrite Z.eqb_refl. cbn [negb].
    destruct (Z.eqb_spec (start mod tx_page) 0); [done|]. done.
Qed.

(** An address with 27 transactions, the newest of which is numbered 26. *)
Definition example_history : list history := (λ n, History (replicate 32 n) n 0 0 true) <$> seqZ 0 27.

Lemma esplora_pages_correct_witness :
  ∃ objects, mapM (history_object 0 5 "bc" example_archive) (reverse example_history) = Some objects ∧
    complete_get_address_txs 0 5 "bc" example_archive false (Some (replicate 32 2)) (inr ([], example_history)) =
      es_page (drop 25 objects).
Proof.
  assert (NoDup (history_hash <$> example_history)) as Hdup
    by (apply (bool_decide_unpack _); vm_compute; exact I).
  assert (∃ objects, mapM (history_object 0 5 "bc" example_archive) (reverse example_history) = Some objects ∧
    pages address_page objects !! 1%nat = Some (drop 25 objects)) as (objects & Hobjects & Hpage)
    by (eexists; split; vm_compute; reflexivity).
  assert (∃ txs, mapM (es_tx_object 0 5 "bc" example_archive)
    (to_transactions example_archive (to_header example_archive [])) = Some txs) as [txs Htxs]
    by (eexists; vm_compute; reflexivity).
  assert (Z.of_nat (length (to_transactions example_archive (to_header example_archive []))) < 2 ^ 63) as Hmax
    by (vm_compute; reflexivity).
  destruct (esplora_pages_correct 0 5 "bc" example_archive example_history objects [] txs Hdup Hobjects Htxs Hmax)
    as [(_ & Haddress & _) _].
  exists objects. split; [exact Hobjects|].
  exact (Haddress 1%nat (drop 25 objects) Hpage).
Defined.
