(* ===== verification/Admin.v ===== *)
(** The admin service (src/protocols/admin/protocol_admin.cpp): the dispatch of requests
    and the subscriptions to the log and to the events of the node.

    A subscription is an atomic word: the filter of the client in its low bits, and in
    its left bit whether a handler is subscribed. Requests and the two accesses that the
    handler makes for an event interleave in any order. *)
From S2P Require Import Prelude Rpc Errors System Numbers Target Interface AdminTarget Queries Dispatch HttpService.

(** The bit functions of the system library, from the left and from the right. *)
Class FilterBits := {
  set_left : Z → nat → bool → Z;
  get_left : Z → nat → bool;
  get_right : Z → Z → bool;
}.

Class FilterBitsLaws `{FilterBits} : Prop := {
  set_left_true x : 0 <= x < 2 ^ 64 → set_left x 0 true = x mod 2 ^ 63 + 2 ^ 63;
  set_left_false x : 0 <= x < 2 ^ 64 → set_left x 0 false = x mod 2 ^ 63;
  get_left_bit x : 0 <= x < 2 ^ 64 → get_left x 0 = (2 ^ 63 <=? x);
  get_right_bit x b : 0 <= x < 2 ^ 64 → 0 <= b < 64 → get_right x b = Z.testbit x b;
}.

Section Admin.
Context `{FilterBits}.

(** ** Filters *)

(** A request, in one atomic access: the filter, the prior one and whether to
    subscribe. *)
Definition update_filter (value filter : Z) : Z * Z * bool :=
  let next := set_left value 0 true in
  let state := filter in
  let filter := if value =? 0 then Z.land filter next else next in
  (filter, set_left state 0 false, negb (value =? 0) && negb (get_left state 0)).

(** An event, in two accesses: the filter as it was loaded and as it is at the compare
    and exchange. The filter, and whether the event is filtered, [None] to unsubscribe. *)
Definition get_filter (loaded filter : Z) (bit : Z) : Z * option bool :=
  let next := set_left loaded 0 false in
  if next =? 0 then
    if filter =? loaded then (next, None)
    else (filter, Some (get_right filter bit))
  else (filter, Some (get_right loaded bit)).

(** A subscribed handler: between events, or with the filter that it loaded. *)
Inductive phase := waiting | loaded (state : Z).

Record stream := Stream { filter : Z; handlers : list phase }.

Inductive stream_input :=
  | requests (value : Z)
  | loads (i : nat)
  | finishes (i : nat) (bit : Z).

(** What is sent: the reply of a request, a notification, or nothing. *)
Inductive stream_output :=
  | previous (prior : Z)
  | notified (bit : Z)
  | silent.

(** [None] if there is no such handler, in the phase of the access. *)
Definition stream_step (websocket : bool) (s : stream) (i : stream_input) :
    option (stream * stream_output) :=
  match i with
  | requests value =>
      let '(filter, prior, subscribe) := update_filter value (filter s) in
      Some (Stream filter (handlers s ++ if subscribe then [waiting] else []), previous prior)
  | loads i =>
      match handlers s !! i with
      | Some waiting => Some (Stream (filter s) (<[i := loaded (filter s)]> (handlers s)), silent)
      | _ => None
      end
  | finishes i bit =>
      match handlers s !! i with
      | Some (loaded state) =>
          let '(filter, filtered) := get_filter state (filter s) bit in
          Some match filtered with
               | None => (Stream filter (delete i (handlers s)), silent)
               | Some filtered =>
                   (Stream filter (<[i := waiting]> (handlers s)),
                    if negb filtered || negb websocket then silent else notified bit)
               end
      | _ => None
      end
  end.

Fixpoint stream_run (websocket : bool) (s : stream) (inputs : list stream_input) :
    option (stream * list stream_output) :=
  match inputs with
  | [] => Some (s, [])
  | i :: inputs =>
      '(s, output) ← stream_step websocket s i;
      '(s, outputs) ← stream_run websocket s inputs;
      Some (s, output :: outputs)
  end.

Definition empty_stream : stream := Stream 0 [].

(** ** Handlers *)

Definition previous_json (prior : Z) : value_t := object_t [("previous", uint64_t prior)].

(** The reply of a request to a stream, and the stream. *)
Definition handle_subscribe (stopped : bool) (filter_ : Z) (s : stream) : stream * list http_reply :=
  if stopped then (s, [])
  else
    let '(filter, prior, subscribe) := update_filter filter_ (filter s) in
    (Stream filter (handlers s ++ if subscribe then [waiting] else []),
     [send_json (previous_json prior)]).

(** The streams of a channel. *)
Record admin_state := AdminState { log_state : stream; event_state : stream }.

Definition handle_get_log_subscribe (stopped : bool) (filter_ : Z) (s : admin_state) :
    admin_state * list http_reply :=
  let '(log, replies) := handle_subscribe stopped filter_ (log_state s) in
  (AdminState log (event_state s), replies).

Definition handle_get_event_subscribe (stopped : bool) (filter_ : Z) (s : admin_state) :
    admin_state * list http_reply :=
  let '(event, replies) := handle_subscribe stopped filter_ (event_state s) in
  (AdminState (log_state s) event, replies).

(** What is posted to the strand for an event: whether the handler stays, the filter,
    and the notification that [do_log] and [do_event] make. *)
Definition handle_filtered (stopped websocket : bool) (loaded filter bit : Z) (notification : value_t) :
    bool * Z * list value_t :=
  if stopped then (false, filter, [])
  else
    let '(filter, filtered) := get_filter loaded filter bit in
    match filtered with
    | None => (false, filter, [])
    | Some filtered =>
        (true, filter, if negb filtered || negb websocket then [] else [notification])
    end.

Definition log_json (level zulu : Z) (message : string) : value_t :=
  object_t [("level", uint8_t level); ("time", uint64_t zulu); ("message", string_t message)].

(** [to_zulu] of the time of an event is a parameter. *)
Definition event_json (event_ zulu value : Z) : value_t :=
  object_t [("event", uint8_t event_); ("value", uint64_t value); ("time", uint64_t zulu)].

Definition handle_log (stopped websocket : bool) (loaded filter level zulu : Z) (message : string) :
    bool * Z * list value_t :=
  handle_filtered stopped websocket loaded filter level (log_json level (zulu * 1000 mod 2 ^ 64) message).

Definition handle_event (stopped websocket : bool) (loaded filter event_ value zulu : Z) :
    bool * Z * list value_t :=
  handle_filtered stopped websocket loaded filter event_ (event_json event_ zulu value).

(** The posted notification is sent unless the channel has stopped. *)
Definition do_notify (stopped : bool) (notification : value_t) : list http_reply :=
  if stopped then [] else [send_json notification].

(** ** Dispatch *)

Section Dispatch.
Context `{Text} `{MediaValues} `{Uri} `{Dispatcher}.

(** The subscriptions of [start]. *)
Definition invoke (s : admin_state) (name : string) (o : object) :
    option (admin_state * list http_reply) :=
  filter ← match find_field "filter" o with
           | None => Some 0
           | Some (uint64_t n) => Some n
           | _ => None
           end;
  if name == "log_subscribe" then Some (handle_get_log_subscribe false filter s)
  else if name == "event_subscribe" then Some (handle_get_event_subscribe false filter s)
  else None.

Definition notify (s : admin_state) (model : request_t) :
    option (code + (admin_state * list http_reply)) :=
  match find_method admin_interface (method model), object_params model with
  | Some m, Some o =>
      match check_parameters m o with
      | Some ec => Some (inl ec)
      | None => inr <$> invoke s (method model) o
      end
  | _, _ => Some (inl unexpected_method)
  end.

(** The replies, [None] if the request is not handled. *)
Definition try_dispatch_object (s : admin_state) (get : incoming) (accepts : list Z) (target : string) :
    option (admin_state * option (list http_reply)) :=
  '(fault, model) ← admin_target request_default target;
  match fault with
  | Error.success =>
      let '(ok, model) := admin_query model target accepts in
      if negb ok then Some (s, Some [send_status bad_request])
      else
        '(media, model) ← strip_media model;
        if media =? media_unknown then Some (s, Some [send_status not_acceptable])
        else if media =? media_html then Some (s, None)
        else if negb (permitted get (method model)) then Some (s, Some [send_status forbidden])
        else
          notified ← notify s model;
          Some match notified with
               | inl _ => (s, Some [send_status internal_server_error])
               | inr (s, replies) => (s, Some replies)
               end
  | _ => Some (s, None)
  end.

Definition handle_receive_get `{!Pages} (options : html_options) (stopped : bool) (s : admin_state)
    (get : incoming) (accepts : list Z) (target : string) : option (admin_state * list http_reply) :=
  if stopped then Some (s, [])
  else
    match refused get target with
    | Some fault => Some (s, [send_status fault])
    | None =>
        '(s, handled) ← try_dispatch_object s get accepts target;
        Some (s, default [dispatch_page options target] handled)
    end.

(** The codes that stop a channel. *)
Inductive admin_stop := admin_unauthorized | admin_not_acceptable | admin_bad_request | admin_internal_error.

(** A frame whose target is not parsed is ignored. *)
Definition dispatch_websocket (s : admin_state) (authorized : bool) (frame : option string)
    (permits : string → bool) : option (admin_state * (admin_stop + list http_reply)) :=
  let stop reason := Some (s, inl reason) in
  if negb authorized then stop admin_unauthorized
  else
    match frame with
    | None => stop admin_not_acceptable
    | Some target =>
        '(fault, model) ← admin_target request_default target;
        match fault with
        | Error.success =>
            let '(ok, model) := admin_query model target [media_json] in
            if negb ok then stop admin_bad_request
            else
              '(media, model) ← strip_media model;
              if negb (media =? media_json) then stop admin_not_acceptable
              else if negb (permits (method model)) then stop admin_unauthorized
              else
                notified ← notify s model;
                match notified with
                | inl _ => stop admin_internal_error
                | inr (s, replies) => Some (s, inr replies)
                end
        | _ => Some (s, inr [])
        end
    end.

End Dispatch.

(** ** Reference: one handler, and the value of the last request *)

(** The value of the last request, and the handler, with the value at its load. *)
Record subscription := Subscription { wanted : Z; handler : option (option Z) }.

(** A request with a value subscribes, if no handler is; an event is notified if its
    bit was wanted at its load (or is at its end, if nothing was), and ends the
    subscription if nothing is wanted at either. *)
Definition subscription_step (websocket : bool) (s : subscription) (i : stream_input) :
    option (subscription * stream_output) :=
  match i, handler s with
  | requests value, handler =>
      Some (Subscription value
        match handler with
        | None => if value =? 0 then None else Some None
        | Some _ => handler
        end, previous (wanted s))
  | loads O, Some None => Some (Subscription (wanted s) (Some (Some (wanted s))), silent)
  | finishes O bit, Some (Some value) =>
      let value := if value =? 0 then wanted s else value in
      Some
        (if value =? 0 then (Subscription 0 None, silent)
         else (Subscription (wanted s) (Some None),
               if Z.testbit value bit && websocket then notified bit else silent))
  | _, _ => None
  end.

Fixpoint subscription_run (websocket : bool) (s : subscription) (inputs : list stream_input) :
    option (subscription * list stream_output) :=
  match inputs with
  | [] => Some (s, [])
  | i :: inputs =>
      '(s, output) ← subscription_step websocket s i;
      '(s, outputs) ← subscription_run websocket s inputs;
      Some (s, output :: outputs)
  end.

Definition unsubscribed : subscription := Subscription 0 None.

(** Values of requests and bits of events, as the parser and the node bound them. *)
Definition input_bounded (i : stream_input) : Prop :=
  match i with
  | requests value => 0 <= value < 2 ^ 53
  | loads _ => True
  | finishes _ bit => 0 <= bit < 53
  end.

(** The left bit tells whether the handler is subscribed. *)
Definition represents (s : stream) (a : subscription) : Prop :=
  0 <= wanted a < 2 ^ 53 ∧
  match handler a with
  | None => wanted a = 0 ∧ filter s = 0 ∧ handlers s = []
  | Some None => filter s = wanted a + 2 ^ 63 ∧ handlers s = [waiting]
  | Some (Some value) =>
      0 <= value < 2 ^ 53 ∧ filter s = wanted a + 2 ^ 63 ∧ handlers s = [loaded (value + 2 ^ 63)]
  end.

Context `{!FilterBitsLaws}.

Lemma testbit_sentinel x b : 0 <= x < 2 ^ 53 → 0 <= b < 53 → Z.testbit (x + 2 ^ 63) b = Z.testbit x b.
Proof.
  intros Hx Hb. rewrite <-(Z.mod_pow2_bits_low (x + 2 ^ 63) 53 b) by lia.
  rewrite <-(Z.mod_pow2_bits_low x 53 b) by lia. f_equal.
  change (2 ^ 63) with (2 ^ 10 * 2 ^ 53). apply Z_mod_plus_full.
Qed.

Lemma sentinel_mod x : 0 <= x < 2 ^ 53 → (x + 2 ^ 63) mod 2 ^ 63 = x.
Proof.
  intros Hx. replace (x + 2 ^ 63) with (x + 1 * 2 ^ 63) by lia. rewrite Z_mod_plus_full. apply Z.mod_small. lia.
Qed.

Lemma land_sentinel x : 0 <= x < 2 ^ 53 → Z.land (x + 2 ^ 63) (2 ^ 63) = 2 ^ 63.
Proof.
  intros Hx. apply Z.bits_inj'. intros n Hn. rewrite Z.land_spec, Z.pow2_bits_eqb by lia.
  destruct (Z.eqb_spec 63 n) as [<-|]; [|by rewrite andb_false_r]. rewrite andb_true_r.
  apply Z.testbit_true; [lia|]. replace (x + 2 ^ 63) with (x + 1 * 2 ^ 63) by lia.
  rewrite Z.div_add, Z.div_small by lia. done.
Qed.

(** What a request does to a filter with and without the left bit. *)
Lemma update_filter_subscribed value x :
  0 <= value < 2 ^ 53 → 0 <= x < 2 ^ 53 → update_filter value (x + 2 ^ 63) = (value + 2 ^ 63, x, false).
Proof.
  intros Hvalue Hx. unfold update_filter.
  rewrite set_left_true, set_left_false, get_left_bit, sentinel_mod, (Z.mod_small value) by lia.
  rewrite (proj2 (Z.leb_le _ _)) by lia. cbn [negb]. rewrite andb_false_r. do 2 f_equal.
  destruct (Z.eqb_spec value 0) as [->|]; [by apply land_sentinel|done].
Qed.

Lemma update_filter_unsubscribed value :
  0 <= value < 2 ^ 53 →
  update_filter value 0 = (if value =? 0 then 0 else value + 2 ^ 63, 0, negb (value =? 0)).
Proof.
  intros Hvalue. unfold update_filter.
  rewrite set_left_true, set_left_false, get_left_bit, (Z.mod_small value) by lia.
  cbn [Z.leb Z.compare Z.pow]. by rewrite andb_true_r.
Qed.

Lemma get_filter_spec value x bit :
  0 <= value < 2 ^ 53 → 0 <= x < 2 ^ 53 → 0 <= bit < 53 →
  get_filter (value + 2 ^ 63) (x + 2 ^ 63) bit =
    if value =? 0 then
      if x =? 0 then (0, None) else (x + 2 ^ 63, Some (Z.testbit x bit))
    else (x + 2 ^ 63, Some (Z.testbit value bit)).
Proof.
  intros Hvalue Hx Hbit. unfold get_filter. rewrite set_left_false, sentinel_mod by lia.
  rewrite !get_right_bit, !testbit_sentinel by lia.
  destruct (Z.eqb_spec value 0) as [->|]; [|done].
  destruct (Z.eqb_spec (x + 2 ^ 63) (0 + 2 ^ 63)), (Z.eqb_spec x 0); (done || lia).
Qed.

Lemma stream_step_refines websocket s a i :
  represents s a → input_bounded i →
  match stream_step websocket s i, subscription_step websocket a i with
  | Some (s', output), Some (a', output') => output = output' ∧ represents s' a'
  | None, None => True
  | _, _ => False
  end.
Proof.
  destruct s as [f hs], a as [x h]. unfold represents. cbn [filter handlers wanted handler].
  intros [Hx Hs] Hi. destruct i as [value|n|n bit]; cbn [stream_step subscription_step input_bounded wanted handler filter handlers] in *.
  - destruct h as [h|].
    + assert (f = x + 2 ^ 63) as -> by (destruct h; tauto).
      rewrite update_filter_subscribed by done. split; [done|]. split; [done|]. rewrite app_nil_r.
      destruct h; tauto.
    + destruct Hs as (-> & -> & ->). rewrite update_filter_unsubscribed by done. split; [done|]. split; [done|].
      destruct (Z.eqb_spec value 0) as [->|]; [done|]. by split.
  - destruct h as [[value|]|].
    + destruct Hs as (_ & _ & ->). destruct n as [|[|n]]; done.
    + destruct Hs as [-> ->]. destruct n as [|[|n]]; [|done|done]. split; [done|]. by split.
    + destruct Hs as (_ & _ & ->). by destruct n.
  - destruct h as [[value|]|].
    + destruct Hs as (Hvalue & -> & ->). destruct n as [|[|n]]; [|done|done]. cbn [lookup list_lookup].
      rewrite get_filter_spec by done.
      destruct (Z.eqb_spec value 0) as [->|Hne].
      * destruct (Z.eqb_spec x 0) as [->|]; [by split|]. split; [|by split].
        by destruct (Z.testbit x bit), websocket.
      * rewrite (proj2 (Z.eqb_neq value 0)) by done. split; [|by split].
        by destruct (Z.testbit value bit), websocket.
    + destruct Hs as [-> ->]. destruct n as [|[|n]]; done.
    + destruct Hs as (_ & _ & ->). by destruct n.
Qed.

Lemma stream_run_refines websocket s a inputs :
  represents s a → Forall input_bounded inputs →
  match stream_run websocket s inputs, subscription_run websocket a inputs with
  | Some (s', outputs), Some (a', outputs') => outputs = outputs' ∧ represents s' a'
  | None, None => True
  | _, _ => False
  end.
Proof.
  intros Hs Hinputs. revert s a Hs. induction Hinputs as [|i inputs Hi _ IH]; intros s a Hs; [done|].
  cbn [stream_run subscription_run]. pose proof (stream_step_refines websocket s a i Hs Hi) as Hstep.
  destruct (stream_step websocket s i) as [[s' output]|], (subscription_step websocket a i) as [[a' output']|];
    try done. destruct Hstep as [-> Hs']. cbn [mbind option_bind]. specialize (IH s' a' Hs').
  destruct (stream_run websocket s' inputs) as [[s2 outputs]|],
    (subscription_run websocket a' inputs) as [[a2 outputs']|]; try done.
  destruct IH as [-> IH]. done.
Qed.

End Admin.

(** ** Example: the bits of integers *)

#[local] Instance example_bits : FilterBits := {
  set_left x n b := if b then x mod 2 ^ 63 + 2 ^ 63 else x mod 2 ^ 63;
  get_left x n := 2 ^ 63 <=? x;
  get_right x b := Z.testbit x b;
}.

#[local] Instance example_bits_laws : FilterBitsLaws.
Proof. by split. Qed.

(** ** Properties *)

(** C10: the admin filters refine a subscription with at most one handler, for every
    interleaving of requests with the two accesses of the events. The atomic word holds
    the value of the last request, and its left bit exactly whether a handler is
    subscribed; each request is answered with the value of the one before it; an event is
    notified exactly if its bit is wanted; a request for nothing ends the subscription
    with the next event, unless another request comes first, and a later request
    subscribes one handler again. *)
Theorem admin_filters_refine `{FilterBitsLaws} websocket inputs :
  Forall input_bounded inputs →
  match stream_run websocket empty_stream inputs, subscription_run websocket unsubscribed inputs with
  | Some (s, outputs), Some (a, outputs') =>
      outputs = outputs' ∧ represents s a ∧ (length (handlers s) <= 1)%nat ∧
      (handlers s = [] ↔ filter s < 2 ^ 63) ∧ filter s mod 2 ^ 63 = wanted a
  | None, None => True
  | _, _ => False
  end.
Proof.
  intros Hinputs. pose proof (stream_run_refines websocket empty_stream unsubscribed inputs) as Hrun.
  destruct (stream_run _ _ _) as [[s outputs]|], (subscription_run _ _ _) as [[a outputs']|];
    try (by apply Hrun; [split|]).
  destruct Hrun as [-> Hs]; [by split|done|]. split; [done|]. split; [done|].
  destruct Hs as [Hwanted Hs]. destruct (handler a) as [[value|]|].
  - destruct Hs as (_ & -> & ->). rewrite sentinel_mod by done. split; [simpl; lia|]. split; [|done].
    split; [done|lia].
  - destruct Hs as [-> ->]. rewrite sentinel_mod by done. split; [simpl; lia|]. split; [|done].
    split; [done|lia].
  - destruct Hs as (-> & -> & ->). split; [simpl; lia|]. split; [|done]. split; [lia|done].
Qed.

(** A filter is cleared while an event is between its accesses, and set again before the
    event ends: the handler stays. It ends once nothing is wanted at an event. *)
Definition example_inputs : list stream_input :=
  [requests 5; loads 0; finishes 0 2; requests 0; loads 0; requests 2; finishes 0 1; requests 0; loads 0;
   finishes 0 1; requests 8].

Lemma admin_filters_refine_witness :
  ∃ s outputs, stream_run true empty_stream example_inputs = Some (s, outputs) ∧
    outputs = [previous 0; silent; notified 2; previous 5; silent; previous 0; notified 1; previous 2; silent;
      silent; previous 0] ∧ length (handlers s) = 1%nat.
Proof.
  assert (Forall input_bounded example_inputs) as Hinputs by (repeat constructor; simpl; lia).
  pose proof (admin_filters_refine true example_inputs Hinputs) as Hrun.
  destruct (stream_run true empty_stream example_inputs) as [[s outputs]|] eqn:Hs; [|by vm_compute in Hs].
  exists s, outputs. split; [reflexivity|].
  assert (subscription_run true unsubscribed example_inputs = Some (Subscription 8 (Some None),
    [previous 0; silent; notified 2; previous 5; silent; previous 0; notified 1; previous 2; silent;
     silent; previous 0])) as Href by (vm_compute; reflexivity).
  rewrite Href in Hrun. destruct Hrun as (-> & (_ & _ & Hhandlers) & _ & _ & _). split; [reflexivity|].
  cbn in Hhandlers. by rewrite Hhandlers.
Defined.
