(* ===== verification/Sparrow.v ===== *)
(** The sparrow service: silent payment (bip352) subscriptions over the electrum service
    (src/protocols/sparrow/protocol_sparrow.cpp and interfaces/sparrow.hpp).

    As for electrum addresses, requests are checked on the channel's strand and their
    work runs as jobs of the notification strand, which owns the subscriptions. Events
    of the node arrive on other threads and post a scan of all subscriptions, at most
    one of which is queued at a time. The electrum service that the protocol derives is
    in the electrum files; the choice between the two by method is [sparrow_unclaimed]
    of Dispatch.v. *)
From stdpp Require Import sorting list_numbers.
From S2P Require Import Prelude Rpc Errors System ElectrumVersion FeeHistogram ElectrumSubscribe BitcoindParsers.

(** ** The archive and the wallet *)

(** [database::silent_match]: the height, the transaction and the tweak. *)
Record silent_match := SilentMatch {
  match_height : Z;
  match_hash : hash_digest;
  match_tweak : data_chunk;
}.

(** [silent_cut]. *)
Record silent_cut := SilentCut { cut_start : Z; cut_stop : Z; cut_time : bool }.

Definition all_rows : silent_cut := SilentCut 0 max_size_t false.

(** The silent payment index of the archive, as it is when it is read: a floor is the
    first row of a start, a frontier the end of the rows that are written from a row on,
    and the matches of a range of rows are missing if the query is canceled or fails. *)
Class SilentArchive := {
  silent_store : Type;
  silent_enabled : silent_store → bool;
  get_silent_floor : silent_store → Z → bool → Z;
  get_silent_frontier : silent_store → Z → Z;
  silent_keys : Type;
  get_silent_matches : silent_store → bool → silent_keys → Z → Z → silent_cut → option (list silent_match);
}.

(** [wallet::silent_payment] and functions of the system library. A scanner is of a scan
    secret, a spend key and labels, unless they are not valid; [split_parts] is
    [split(text, delimiter)] with its default arguments. *)
Class SilentWallet `{SilentArchive} := {
  scanner : Type;
  to_scanner : data_chunk → data_chunk → list Z → option scanner;
  scanner_keys : scanner → silent_keys;
  verify_secret : data_chunk → bool;
  secret_to_public : data_chunk → option data_chunk;
  silent_address : data_chunk → data_chunk → string → string;
  distinct_labels : list Z → list Z;
  split_parts : string → string → list string;
  locktime_threshold : Z;
  ceilinged_divide : Z → Z → Z;
}.

Section Sparrow.
Context `{Text} `{Integers} `{SilentWallet}.

Definition page_size : nat := 1000.
Definition silent_payments_version : Z := 0.

(** ** Parameters *)

(** [decode_base16] into an array, of a secret or of a compressed key. *)
Definition decode_array (size : nat) (text : string) : option data_chunk :=
  match decode_base16 text with
  | Some data => if (length data =? size)%nat then Some data else None
  | None => None
  end.

Definition decode_secret : string → option data_chunk := decode_array 32.
Definition decode_compressed : string → option data_chunk := decode_array 33.

Definition to_cut (value : value_t) : option silent_cut :=
  let timed n := locktime_threshold <=? n in
  match value with
  | null_t => Some all_rows
  | number_t number =>
      (λ start, SilentCut start (cut_stop all_rows) (timed start)) <$> to_uint32 number
  | string_t text =>
      match split_parts text "-" with
      | [front; back] =>
          match deserialize 64 front, deserialize 64 back with
          | Some start, Some stop =>
              if stop <? start then None
              else if Bool.eqb (timed start) (timed stop)
              then Some (SilentCut start stop (timed start)) else None
          | _, _ => None
          end
      | _ => None
      end
  | _ => None
  end.

Fixpoint read_labels (labels : array) : option (list Z) :=
  match labels with
  | [] => Some []
  | number_t number :: labels =>
      match to_uint32 number, read_labels labels with
      | Some value, Some values => Some (value :: values)
      | _, _ => None
      end
  | _ :: _ => None
  end.

Definition to_labels (labels : array) : option (list Z) :=
  (λ values, distinct_labels (0 :: values)) <$> read_labels labels.

Context (prefix_ : string).

Definition silent_to_address (scan spend : data_chunk) : string :=
  match secret_to_public scan with
  | Some key => silent_address key spend prefix_
  | None => ""
  end.

(** ** State *)

Record silent_subscription := SilentSubscription {
  subscription_scanner : scanner;
  subscription_object : object;
  subscription_cut : silent_cut;
  subscription_cursor : Z;
}.

Definition set_cursor (cursor : Z) (s : silent_subscription) : silent_subscription :=
  SilentSubscription (subscription_scanner s) (subscription_object s) (subscription_cut s) cursor.

(** The subscriptions with the two atomic flags. *)
Record silent_state := SilentState {
  silent_subscriptions : gmap string silent_subscription;
  subscribed_silent : bool;
  queued_silent : bool;
}.

Definition set_subscriptions (subs : gmap string silent_subscription) (s : silent_state) : silent_state :=
  SilentState subs (subscribed_silent s) (queued_silent s).

Inductive silent_job :=
  | silent_subscribe (address : string) (subscription : silent_subscription)
  | silent_unsubscribe (address : string)
  | silent_scan.

(** What a job posts to the channel's strand. *)
Inductive silent_posted :=
  | posted_silent_subscribe (ec : code) (result : object)
  | posted_silent_unsubscribe (result : value_t)
  | posted_silent_notify (subscription : object) (progress : double) (history : array).

(** What a request leads to at once. *)
Inductive silent_reaction :=
  | silent_ignored
  | silent_responds (ec : code)
  | silent_posts (job : silent_job).

(** ** Requests *)

Definition handle_blockchain_block_stats (stopped : bool) : silent_reaction :=
  if stopped then silent_ignored else silent_responds method_not_found.

Definition handle_blockchain_silent_payments_subscribe (q : silent_store) (stopped : bool)
    (scan_private_key spend_public_key : string) (start : value_t) (labels : array) :
    silent_reaction :=
  if stopped then silent_ignored
  else if negb (silent_enabled q) then silent_responds method_not_found
  else
    match decode_secret scan_private_key, decode_compressed spend_public_key,
      to_labels labels, to_cut start with
    | Some scan, Some spend, Some scan_labels, Some cut =>
        match to_scanner scan spend scan_labels with
        | None => silent_responds bad_request
        | Some scanner =>
            let address := silent_to_address scan spend in
            silent_posts (silent_subscribe address (SilentSubscription scanner
              [("address", string_t address); ("labels", array_t (uint32_t <$> scan_labels));
               ("start_height", uint64_t (cut_start cut))] cut 0))
        end
    | _, _, _, _ => silent_responds bad_request
    end.

Definition handle_blockchain_silent_payments_unsubscribe (stopped : bool)
    (scan_private_key spend_public_key : string) : silent_reaction :=
  if stopped then silent_ignored
  else
    match decode_secret scan_private_key, decode_compressed spend_public_key with
    | Some scan, Some spend =>
        if negb (verify_secret scan) then silent_responds bad_request
        else silent_posts (silent_unsubscribe (silent_to_address scan spend))
    | _, _ => silent_responds bad_request
    end.

(** The features with the version list of silent payments. *)
Definition sparrow_add_features (features : object) : object :=
  set_field "silent_payments" (array_t [uint32_t silent_payments_version]) features.

(** ** Scans *)

Definition match_json (m : silent_match) : value_t :=
  object_t [("height", uint64_t (match_height m)); ("tx_hash", string_t (encode_hash (match_hash m)));
            ("tweak_key", string_t (encode_base16 (match_tweak m)))].

(** One page: its progress is that of its end, and complete for the last. *)
Definition silent_page (subscription : object) (matches : list silent_match) (pages page : nat) :
    silent_posted :=
  let count := length matches in
  let first := (page * page_size)%nat in
  let end_ := Nat.min (first + page_size) count in
  let progress :=
    if (S page =? pages)%nat then PrimFloat.one
    else PrimFloat.div (to_floating (Z.of_nat end_)) (to_floating (Z.of_nat count)) in
  posted_silent_notify subscription progress
    (match_json <$> take (end_ - first) (drop first matches)).

Definition silent_pages (subscription : object) (matches : list silent_match) : list silent_posted :=
  let count := Z.of_nat (length matches) in
  let pages := Z.to_nat (Z.max 1 (ceilinged_divide count (Z.of_nat page_size))) in
  silent_page subscription matches pages <$> seq 0 pages.

Definition scan_silent (q : silent_store) (stopping : bool) (s : silent_subscription) (last : Z)
    (initial : bool) : silent_subscription * list silent_posted :=
  match get_silent_matches q stopping (scanner_keys (subscription_scanner s))
      (subscription_cursor s) last (subscription_cut s) with
  | None => (s, [])
  | Some matches =>
      (set_cursor last s,
       if negb initial && (length matches =? 0)%nat then []
       else silent_pages (subscription_object s) matches)
  end.

(** ** Jobs *)

Context (maximum_silent : Z).

(** The held subscription that a repeated one leads to. *)
Definition resubscribe (current subscription : silent_subscription) : silent_subscription :=
  let cut := subscription_cut subscription in
  if Bool.eqb (cut_time (subscription_cut current)) (cut_time cut) then
    let start := Z.min (cut_start (subscription_cut current)) (cut_start cut) in
    SilentSubscription (subscription_scanner subscription)
      (set_field "start_height" (uint64_t start) (subscription_object subscription))
      (SilentCut start (cut_stop cut) (cut_time cut)) (subscription_cursor subscription)
  else subscription.

Definition do_silent_subscribe (q : silent_store) (stopping : bool) (address : string)
    (subscription : silent_subscription) (s : silent_state) : silent_state * list silent_posted :=
  let subs := silent_subscriptions s in
  let held := subs !! address in
  if bool_decide (held = None) && (maximum_silent <=? Z.of_nat (size subs))
  then (s, [posted_silent_subscribe excessive_resource_usage []])
  else
    let sub :=
      match held with
      | None => subscription
      | Some current => resubscribe current subscription
      end in
    let cut := subscription_cut sub in
    let sub := set_cursor (get_silent_floor q (cut_start cut) (cut_time cut)) sub in
    let '(sub', sent) := scan_silent q stopping sub (get_silent_frontier q (subscription_cursor sub)) true in
    (SilentState (<[address := sub']> subs) true (queued_silent s),
     posted_silent_subscribe (Error.make Error.success) (subscription_object sub) :: sent).

Definition do_silent_unsubscribe (address : string) (s : silent_state) :
    silent_state * list silent_posted :=
  let found := bool_decide (is_Some (silent_subscriptions s !! address)) in
  let subs := delete address (silent_subscriptions s) in
  (SilentState subs (if (size subs =? 0)%nat then false else subscribed_silent s) (queued_silent s),
   [posted_silent_unsubscribe (if found then string_t address else null_t)]).

(** [std::map] is in the order of its keys. *)
Definition text_le (a b : string) : Prop := String.leb a b = true.

#[global] Instance text_le_dec : RelDecision text_le := λ a b, bool_eq_dec (String.leb a b) true.

Definition map_order (subs : gmap string silent_subscription) : list string :=
  merge_sort text_le (elements (dom subs)).

Definition lowest_cursor (subs : gmap string silent_subscription) : Z :=
  foldl (λ low key, Z.min low (from_option subscription_cursor max_size_t (subs !! key)))
    max_size_t (map_order subs).

Fixpoint scan_each (q : silent_store) (stopping : bool) (last : Z) (keys : list string)
    (subs : gmap string silent_subscription) : gmap string silent_subscription * list silent_posted :=
  match keys with
  | [] => (subs, [])
  | key :: keys =>
      match subs !! key with
      | None => scan_each q stopping last keys subs
      | Some sub =>
          let '(sub', sent) := scan_silent q stopping sub last false in
          let '(subs', rest) := scan_each q stopping last keys (<[key := sub']> subs) in
          (subs', sent ++ rest)%list
      end
  end.

(** A scan first clears its flag, so that a later event posts another. *)
Definition release_silent (s : silent_state) : silent_state :=
  SilentState (silent_subscriptions s) (subscribed_silent s) false.

Definition scan_subscriptions (q : silent_store) (stopping : bool) (s : silent_state) :
    silent_state * list silent_posted :=
  let subs := silent_subscriptions s in
  if (size subs =? 0)%nat then (s, [])
  else
    let last := get_silent_frontier q (lowest_cursor subs) in
    let '(subs', sent) := scan_each q stopping last (map_order subs) subs in
    (set_subscriptions subs' s, sent).

Definition do_silent (q : silent_store) (stopping : bool) (s : silent_state) :
    silent_state * list silent_posted :=
  scan_subscriptions q stopping (release_silent s).

(** ** Events and completions *)

(** [handle_chase]: the flags after an event and the scan that it posts; what the
    electrum protocol then posts is [handle_chase] of ElectrumSubscribe.v. *)
Definition silent_chase (stopped duplex : bool) (event : chase) (s : silent_state) :
    silent_state * list silent_job :=
  if stopped || negb duplex then (s, [])
  else
    match event with
    | chase_transaction _ | chase_organized _ =>
        if subscribed_silent s then
          (SilentState (silent_subscriptions s) (subscribed_silent s) true,
           if queued_silent s then [] else [silent_scan])
        else (s, [])
    | _ => (s, [])
    end.

Definition complete_silent_subscribe (stopped : bool) (ec : code) (result : object) : list wire :=
  if stopped then []
  else if is_error ec
  then [wire_code (ElectrumError.translate ec ElectrumError.daemon_error)]
  else [wire_result (object_t result)].

Definition complete_silent_unsubscribe (stopped : bool) (result : value_t) : list wire :=
  if stopped then [] else [wire_result result].

Definition silent_notify (stopped : bool) (subscription : object) (progress : double)
    (history : array) : list wire :=
  if stopped then []
  else [wire_notification "blockchain.silentpayments.subscribe"
    (params_array [object_t subscription; number_t progress; array_t history])].

Definition complete_silent (stopped : bool) (p : silent_posted) : list wire :=
  match p with
  | posted_silent_subscribe ec result => complete_silent_subscribe stopped ec result
  | posted_silent_unsubscribe result => complete_silent_unsubscribe stopped result
  | posted_silent_notify subscription progress history =>
      silent_notify stopped subscription progress history
  end.

End Sparrow.

Arguments SilentSubscription {_ _}.
Arguments SilentState {_ _}.
Arguments silent_scan {_ _}.

(** ** The system

    The queue of the notification strand, of which a scan takes two steps: it clears
    its flag when it starts, and reads the archive thereafter. The archive changes and
    events come in at any time. *)

Section System.
Context `{Text} `{Integers} `{SilentWallet} (maximum_silent : Z) (duplex : bool).

Record silent_system := SilentSystem {
  silent_current : silent_store;
  silent_jobs : list silent_job;
  scanning : bool;
  silent_held : silent_state;
  silent_sent : list silent_posted;
}.

Definition silent_reaction_jobs (r : silent_reaction) : list silent_job :=
  match r with
  | silent_posts job => [job]
  | silent_ignored | silent_responds _ => []
  end.

Inductive silent_step : silent_system → silent_system → Prop :=
  | silent_step_request x prefix stopped scan spend start labels r :
      r ∈ [handle_blockchain_silent_payments_subscribe prefix (silent_current x) stopped scan spend start labels;
           handle_blockchain_silent_payments_unsubscribe prefix stopped scan spend] →
      silent_step x (SilentSystem (silent_current x) (silent_jobs x ++ silent_reaction_jobs r)
        (scanning x) (silent_held x) (silent_sent x))
  | silent_step_event x q event s posted :
      silent_chase false duplex event (silent_held x) = (s, posted) →
      silent_step x (SilentSystem q (silent_jobs x ++ posted) (scanning x) s (silent_sent x))
  | silent_step_subscribe x stopping address subscription rest s sent :
      silent_jobs x = silent_subscribe address subscription :: rest → scanning x = false →
      do_silent_subscribe maximum_silent (silent_current x) stopping address subscription
        (silent_held x) = (s, sent) →
      silent_step x (SilentSystem (silent_current x) rest false s (silent_sent x ++ sent))
  | silent_step_unsubscribe x address rest s sent :
      silent_jobs x = silent_unsubscribe address :: rest → scanning x = false →
      do_silent_unsubscribe address (silent_held x) = (s, sent) →
      silent_step x (SilentSystem (silent_current x) rest false s (silent_sent x ++ sent))
  | silent_step_release x rest :
      silent_jobs x = silent_scan :: rest → scanning x = false →
      silent_step x (SilentSystem (silent_current x) rest true (release_silent (silent_held x))
        (silent_sent x))
  | silent_step_scan x stopping s sent :
      scanning x = true → scan_subscriptions (silent_current x) stopping (silent_held x) = (s, sent) →
      silent_step x (SilentSystem (silent_current x) (silent_jobs x) false s (silent_sent x ++ sent)).

Definition silent_start (q : silent_store) : silent_system :=
  SilentSystem q [] false (SilentState ∅ false false) [].

Definition silent_reachable (x : silent_system) : Prop := ∃ q, rtc silent_step (silent_start q) x.

Definition is_silent_scan (j : silent_job) : bool :=
  match j with silent_scan => true | _ => false end.

(** The number of queued scans. *)
Definition scans (jobs : list silent_job) : nat := length (filter (λ j, is_silent_scan j = true) jobs).

Record silent_ok (x : silent_system) : Prop := {
  silent_size : Z.of_nat (size (silent_subscriptions (silent_held x))) <= maximum_silent;
  silent_flag : subscribed_silent (silent_held x) = true ↔ silent_subscriptions (silent_held x) ≠ ∅;
  silent_queue : scans (silent_jobs x) = if queued_silent (silent_held x) then 1%nat else 0%nat;
}.

(** ** Lemmas *)

Lemma scans_app a b : scans (a ++ b) = (scans a + scans b)%nat.
Proof. unfold scans. by rewrite filter_app, length_app. Qed.

Lemma scan_each_dom q stopping last keys subs :
  dom (scan_each q stopping last keys subs).1 = dom subs.
Proof.
  revert subs. induction keys as [|key keys IH]; intros subs; simpl; [done|].
  destruct (subs !! key) as [sub|] eqn:Hsub; [|apply IH].
  destruct (scan_silent q stopping sub last false) as [sub' sent].
  specialize (IH (<[key := sub']> subs)).
  destruct (scan_each q stopping last keys _) as [subs' rest]. simpl in *. rewrite IH.
  assert (key ∈ dom subs) by by apply elem_of_dom_2 in Hsub. set_solver.
Qed.

(** The frame of a scan: the keys and both flags. *)
Lemma scan_subscriptions_frame q stopping s :
  dom (silent_subscriptions (scan_subscriptions q stopping s).1) = dom (silent_subscriptions s) ∧
  subscribed_silent (scan_subscriptions q stopping s).1 = subscribed_silent s ∧
  queued_silent (scan_subscriptions q stopping s).1 = queued_silent s.
Proof.
  unfold scan_subscriptions. destruct (size _ =? 0)%nat; [done|].
  pose proof (scan_each_dom q stopping (get_silent_frontier q (lowest_cursor (silent_subscriptions s)))
    (map_order (silent_subscriptions s)) (silent_subscriptions s)) as Hdom.
  destruct (scan_each _ _ _ _ _) as [subs' sent]. done.
Qed.

Lemma empty_dom (m m' : gmap string silent_subscription) : dom m = dom m' → (m ≠ ∅ ↔ m' ≠ ∅).
Proof. intros Hdom. by rewrite <-!(dom_empty_iff_L (D := gset string)), Hdom. Qed.

Lemma size_dom (m m' : gmap string silent_subscription) : dom m = dom m' → size m = size m'.
Proof. intros Hdom. by rewrite <-!(size_dom (D := gset string)), Hdom. Qed.

Lemma chase_ok event s s' posted :
  silent_chase false duplex event s = (s', posted) →
  silent_subscriptions s' = silent_subscriptions s ∧ subscribed_silent s' = subscribed_silent s ∧
  (scans posted + (if queued_silent s then 1 else 0) = if queued_silent s' then 1 else 0)%nat.
Proof.
  unfold silent_chase. destruct s as [subs [] []], duplex, event; simpl; intros [= <- <-]; done.
Qed.

Lemma do_silent_subscribe_ok q stopping address subscription s s' sent :
  do_silent_subscribe maximum_silent q stopping address subscription s = (s', sent) →
  Z.of_nat (size (silent_subscriptions s)) <= maximum_silent →
  (subscribed_silent s = true ↔ silent_subscriptions s ≠ ∅) →
  Z.of_nat (size (silent_subscriptions s')) <= maximum_silent ∧
  (subscribed_silent s' = true ↔ silent_subscriptions s' ≠ ∅) ∧ queued_silent s' = queued_silent s.
Proof.
  unfold do_silent_subscribe. intros Hrun Hsize Hflag.
  destruct (bool_decide _ && _) eqn:Hfull; [by simplify_eq|].
  destruct (scan_silent _ _ _ _ _) as [sub' pages]. simplify_eq. simpl. split_and!; [|split|done].
  - destruct (silent_subscriptions s !! address) as [current|] eqn:Hheld.
    + by rewrite map_size_insert_Some.
    + rewrite bool_decide_true in Hfull by done. simpl in Hfull. apply Z.leb_gt in Hfull.
      rewrite map_size_insert_None by done. lia.
  - intros _. apply insert_non_empty.
  - done.
Qed.

Lemma silent_step_ok x y : 0 <= maximum_silent → silent_step x y → silent_ok x → silent_ok y.
Proof.
  intros Hmax Hstep [Hsize Hflag Hqueue]. destruct Hstep as
    [x prefix stopped scan spend start labels r Hr|x q event s posted Hrun
    |x stopping address subscription rest s sent Hjobs Hidle Hrun
    |x address rest s sent Hjobs Hidle Hrun|x rest Hjobs Hidle|x stopping s sent Hscan Hrun].
  - constructor; simpl; [done|done|]. rewrite scans_app, Hqueue.
    assert (scans (silent_reaction_jobs r) = 0%nat) as ->; [|lia].
    apply list_elem_of_In in Hr as [<-|[<-|[]]].
    + unfold handle_blockchain_silent_payments_subscribe. by repeat case_match.
    + unfold handle_blockchain_silent_payments_unsubscribe. by repeat case_match.
  - apply chase_ok in Hrun as (Hsubs & Hsub & Hcount). constructor; simpl; [by rewrite Hsubs|by rewrite Hsubs, Hsub|].
    rewrite scans_app. lia.
  - apply do_silent_subscribe_ok in Hrun as (? & ? & Hq); [|done..]. rewrite Hjobs in Hqueue.
    constructor; simpl; [done|done|]. by rewrite Hq, <-Hqueue.
  - unfold do_silent_unsubscribe in Hrun. simplify_eq. rewrite Hjobs in Hqueue. constructor; simpl; [..|by rewrite <-Hqueue].
    + pose proof (map_size_delete address (silent_subscriptions (silent_held x))) as Hdel.
      destruct (silent_subscriptions (silent_held x) !! address); simpl in Hdel; lia.
    + destruct (Nat.eqb_spec (size (delete address (silent_subscriptions (silent_held x)))) 0) as [Hzero|Hzero].
      * apply map_size_empty_inv in Hzero. rewrite Hzero. done.
      * rewrite Hflag. split.
        { intros _ Hempty. rewrite Hempty in Hzero. by rewrite map_size_empty in Hzero. }
        { intros _ Hempty. rewrite Hempty, delete_empty, map_size_empty in Hzero. done. }
  - rewrite Hjobs in Hqueue. constructor; simpl; [done|done|].
    unfold scans in *. simpl in Hqueue. destruct (queued_silent _); lia.
  - pose proof (scan_subscriptions_frame (silent_current x) stopping (silent_held x)) as (Hdom & Hsub & Hq).
    rewrite Hrun in Hdom, Hsub, Hq. simpl in *. constructor; simpl; [..|by rewrite Hq].
    + by rewrite (size_dom _ _ Hdom).
    + by rewrite Hsub, (empty_dom _ _ Hdom).
Qed.

Lemma silent_reachable_ok x : 0 <= maximum_silent → silent_reachable x → silent_ok x.
Proof.
  intros Hmax [q Hrun]. eapply (rtc_preserves silent_step silent_ok); [|exact Hrun|by constructor].
  intros a b Ha Hstep. by eapply silent_step_ok.
Qed.

End System.

(** ** What is delivered *)

(** The rows of the index: a match is of a row, and a query finds those of its range. *)
Class SilentLaws `{SilentWallet} := {
  row_matches : silent_store → silent_keys → silent_cut → Z → list silent_match;
  get_silent_matches_rows q stopping keys cursor last cut matches :
    get_silent_matches q stopping keys cursor last cut = Some matches →
    matches = seqZ cursor (last - cursor) ≫= row_matches q keys cut;
  ceilinged_divide_spec a b : 0 <= a → 0 < b → ceilinged_divide a b = (a + b - 1) / b;
}.

Section Delivery.
Context `{Text} `{Integers} `{SilentLaws}.

(** Pages deliver matches: they concatenate to the matches in order, none is longer
    than a page, there is at least one, and the last reports that all is done. *)
Definition delivers (subscription : object) (matches : list silent_match) (sent : list silent_posted) :
    Prop :=
  ∃ parts : list (double * array),
    sent = (λ part, posted_silent_notify subscription part.1 part.2) <$> parts ∧
    concat parts.*2 = match_json <$> matches ∧
    Forall (λ part, (length part.2 <= page_size)%nat) parts ∧
    fst <$> last parts = Some PrimFloat.one.

Lemma page_entries (matches : list silent_match) page :
  take (Nat.min (page * page_size + page_size) (length matches) - page * page_size)
    (drop (page * page_size) matches) = take page_size (drop (page_size * page) matches).
Proof.
  rewrite (Nat.mul_comm page_size page).
  destruct (Nat.le_gt_cases (page * page_size + page_size) (length matches)).
  - f_equal. lia.
  - rewrite !take_ge; [done|..]; rewrite length_drop; lia.
Qed.

Lemma silent_pages_deliver subscription matches :
  delivers subscription matches (silent_pages subscription matches).
Proof.
  assert (1 <= Nat.max 1 ((length matches + page_size - 1) / page_size))%nat as Hpos by lia.
  set (n := Nat.max 1 ((length matches + page_size - 1) / page_size)) in *.
  assert (Z.to_nat (Z.max 1 (ceilinged_divide (Z.of_nat (length matches)) (Z.of_nat page_size))) = n) as Hn.
  { rewrite ceilinged_divide_spec by (unfold page_size; lia). unfold n.
    replace (Z.of_nat (length matches) + Z.of_nat page_size - 1)
      with (Z.of_nat (length matches + page_size - 1)) by (unfold page_size; lia).
    rewrite <-Nat2Z.inj_div. lia. }
  unfold silent_pages. rewrite Hn. set (part := λ page, match silent_page subscription matches n page with
    | posted_silent_notify _ progress history => (progress, history)
    | _ => (PrimFloat.one, []) end).
  exists (part <$> seq 0 n). split_and!.
  - rewrite <-list_fmap_compose. apply list_fmap_ext. by intros.
  - rewrite <-list_fmap_compose. transitivity (concat (fmap (M:=list) (fmap (M:=list) match_json) (pages page_size matches))).
    + unfold pages. destruct (Nat.eq_dec (length matches) 0%nat) as [Hempty|Hempty].
      * apply nil_length_inv in Hempty as ->. unfold n. vm_compute. done.
      * assert (n = (length matches + page_size - 1) / page_size)%nat as ->.
        { unfold n. assert (1 <= (length matches + page_size - 1) / page_size)%nat; [|lia].
          apply Nat.div_le_lower_bound; unfold page_size; lia. }
        f_equal. rewrite <-list_fmap_compose. apply list_fmap_ext. intros i k _. simpl.
        f_equal. apply page_entries.
    + rewrite concat_fmap. f_equal. by apply concat_pages.
  - apply Forall_fmap, Forall_true. intros page. simpl. rewrite length_fmap, page_entries.
    rewrite length_take. lia.
  - clearbody n. destruct n as [|m]; [lia|]. rewrite seq_S, fmap_app, last_app. simpl. by rewrite Nat.eqb_refl.
Qed.

(** What a scan sends a subscription, and where it leaves it: nothing if it is canceled
    or fails, and otherwise the matches of the rows from the cursor to the end, which is
    the cursor thereafter; a scan that is not the first is silent without a match. *)
Definition scanned (q : silent_store) (initial : bool) (last : Z) (sub sub' : silent_subscription)
    (sent : list silent_posted) : Prop :=
  (sub' = sub ∧ sent = []) ∨
  (sub' = set_cursor last sub ∧
   let matches := seqZ (subscription_cursor sub) (last - subscription_cursor sub) ≫=
     row_matches q (scanner_keys (subscription_scanner sub)) (subscription_cut sub) in
   (initial = false ∧ matches = [] ∧ sent = []) ∨ delivers (subscription_object sub) matches sent).

Lemma scan_silent_scanned q stopping sub last initial :
  scanned q initial last sub (scan_silent q stopping sub last initial).1
    (scan_silent q stopping sub last initial).2.
Proof.
  unfold scanned, scan_silent. destruct (get_silent_matches _ _ _ _ _ _) as [matches|] eqn:Hrows; [|by left].
  apply get_silent_matches_rows in Hrows as <-. right. split; [done|]. simpl.
  destruct initial, matches as [|m rest]; simpl; try (right; apply silent_pages_deliver). by left.
Qed.

(** What a scan does with the subscription of a key. *)
Definition scanned_at (q : silent_store) (last : Z) (subs subs' : gmap string silent_subscription)
    (key : string) (out : list silent_posted) : Prop :=
  match subs !! key, subs' !! key with
  | Some sub, Some sub' => scanned q false last sub sub' out
  | None, None => out = []
  | _, _ => False
  end.

Lemma scan_each_spec q stopping last keys subs :
  NoDup keys →
  let '(subs', sent) := scan_each q stopping last keys subs in
  (∃ outs, sent = concat outs ∧ Forall2 (scanned_at q last subs subs') keys outs) ∧
  (∀ key, key ∉ keys → subs' !! key = subs !! key).
Proof.
  revert subs. induction keys as [|key keys IH]; intros subs Hdup; simpl; [split; [by exists []|done]|].
  apply NoDup_cons in Hdup as [Hkey Hdup]. destruct (subs !! key) as [sub|] eqn:Hsub.
  - pose proof (scan_silent_scanned q stopping sub last false) as Hscan.
    destruct (scan_silent q stopping sub last false) as [sub' out].
    specialize (IH (<[key := sub']> subs) Hdup).
    destruct (scan_each q stopping last keys _) as [subs' rest].
    destruct IH as ((outs & -> & Houts) & Hframe). split.
    + exists (out :: outs). split; [done|]. constructor.
      * unfold scanned_at. by rewrite Hsub, Hframe, lookup_insert_eq.
      * apply Forall2_same_length_lookup_2; [by eapply Forall2_length|]. intros i k o Hk Ho.
        pose proof (Forall2_lookup_lr _ _ _ _ _ _ Houts Hk Ho) as Hat. unfold scanned_at in *.
        rewrite lookup_insert_ne in Hat; [done|]. intros ->. by apply list_elem_of_lookup_2 in Hk.
    + intros k Hk. rewrite Hframe by set_solver. rewrite lookup_insert_ne; [done|]. set_solver.
  - specialize (IH subs Hdup). destruct (scan_each q stopping last keys subs) as [subs' rest].
    destruct IH as ((outs & -> & Houts) & Hframe). split.
    + exists ([] :: outs). split; [done|]. constructor; [|done].
      unfold scanned_at. by rewrite Hsub, Hframe, Hsub.
    + intros k Hk. apply Hframe. set_solver.
Qed.

Lemma map_order_NoDup subs : NoDup (map_order subs).
Proof. unfold map_order. rewrite merge_sort_Permutation. apply NoDup_elements. Qed.

Lemma scan_subscriptions_spec q stopping s s' sent :
  scan_subscriptions q stopping s = (s', sent) →
  ∃ outs, sent = concat outs ∧
    Forall2 (scanned_at q (get_silent_frontier q (lowest_cursor (silent_subscriptions s)))
      (silent_subscriptions s) (silent_subscriptions s')) (map_order (silent_subscriptions s)) outs.
Proof.
  unfold scan_subscriptions. destruct (Nat.eqb_spec (size (silent_subscriptions s)) 0) as [Hzero|_].
  - intros [= <- <-]. apply map_size_empty_inv in Hzero. exists []. split; [done|].
    rewrite Hzero. unfold map_order. rewrite dom_empty_L, elements_empty. constructor.
  - pose proof (scan_each_spec q stopping (get_silent_frontier q (lowest_cursor (silent_subscriptions s)))
      (map_order (silent_subscriptions s)) (silent_subscriptions s) (map_order_NoDup _)) as Hspec.
    destruct (scan_each _ _ _ _ _) as [subs' out]. intros [= <- <-]. by destruct Hspec as [Hspec _].
Qed.

(** A subscription is refused exactly at the maximum; otherwise it is answered, and then
    its history from the floor of its start is delivered. *)
Lemma do_silent_subscribe_spec maximum_silent q stopping address sub s s' sent :
  do_silent_subscribe maximum_silent q stopping address sub s = (s', sent) →
  let held := silent_subscriptions s !! address in
  if bool_decide (held = None) && (maximum_silent <=? Z.of_nat (size (silent_subscriptions s)))
  then s' = s ∧ sent = [posted_silent_subscribe excessive_resource_usage []]
  else ∃ first sub' pages,
    silent_subscriptions s' = <[address := sub']> (silent_subscriptions s) ∧
    sent = posted_silent_subscribe (Error.make Error.success) (subscription_object first) :: pages ∧
    subscription_cursor first =
      get_silent_floor q (cut_start (subscription_cut first)) (cut_time (subscription_cut first)) ∧
    scanned q true (get_silent_frontier q (subscription_cursor first)) first sub' pages ∧
    cut_start (subscription_cut first) = match held with
      | Some current =>
          if Bool.eqb (cut_time (subscription_cut current)) (cut_time (subscription_cut sub))
          then Z.min (cut_start (subscription_cut current)) (cut_start (subscription_cut sub))
          else cut_start (subscription_cut sub)
      | None => cut_start (subscription_cut sub)
      end.
Proof.
  intros Hrun held. unfold do_silent_subscribe in Hrun. fold held in Hrun.
  destruct (bool_decide _ && _); [by injection Hrun as <- <-|].
  set (kept := match held with Some current => resubscribe current sub | None => sub end) in Hrun.
  set (first := set_cursor _ kept) in Hrun.
  pose proof (scan_silent_scanned q stopping first (get_silent_frontier q (subscription_cursor first)) true) as Hscan.
  destruct (scan_silent _ _ _ _ _) as [sub' pages]. injection Hrun as <- <-. exists first, sub', pages.
  split_and!; [done|done|done|done|]. unfold first, kept, resubscribe. simpl.
  destruct held; [|done]. by destruct (Bool.eqb _ _).
Qed.

End Delivery.


(** ** Example

    Rows that are written in any order: a frontier ends at the first that is not. *)

Fixpoint written_rows (rows : list (option (list silent_match))) : Z :=
  match rows with
  | Some _ :: rows => 1 + written_rows rows
  | _ => 0
  end.

Definition example_row (rows : list (option (list silent_match))) (cut : silent_cut) (row : Z) :
    list silent_match :=
  filter (λ m, cut_start cut <= match_height m) (default [] (mjoin (rows !! Z.to_nat row))).

#[local] Instance example_silent_archive : SilentArchive := {
  silent_store := list (option (list silent_match));
  silent_enabled _ := true;
  get_silent_floor _ start _ := start;
  get_silent_frontier q low := low + written_rows (drop (Z.to_nat low) q);
  silent_keys := data_chunk;
  get_silent_matches q stopping _ cursor last cut :=
    if stopping then None else Some (seqZ cursor (last - cursor) ≫= example_row q cut);
}.

#[local] Instance example_silent_wallet : SilentWallet := {
  scanner := data_chunk;
  to_scanner scan spend _ := Some scan;
  scanner_keys s := s;
  verify_secret _ := true;
  secret_to_public s := Some s;
  silent_address key spend prefix := encode_base16 key;
  distinct_labels := remove_dups;
  split_parts text _ := split_at "-" text;
  locktime_threshold := 500000000;
  ceilinged_divide a b := (a + b - 1) / b;
}.

#[local] Instance example_silent_laws : SilentLaws.
Proof.
  refine {| row_matches q _ := example_row q |}.
  - intros q [] keys cursor last cut matches; simpl; [done|]. by intros [= <-].
  - done.
Defined.

Definition example_match (n : Z) : silent_match := SilentMatch n [n] [n].

(** A request with a scan secret and a spend key of repeated bytes, from a start. *)
Definition example_secret : string := String.concat "" (replicate 32 "01").
Definition example_spend : string := String.concat "" (replicate 33 "02").

#[local] Existing Instance reference_text.
#[local] Existing Instance BitcoindParsers.example_integers.

Definition example_rows : list (option (list silent_match)) :=
  [Some [example_match 0]; None; Some [example_match 2]].

Definition example_reaction : silent_reaction :=
  handle_blockchain_silent_payments_subscribe "sp" example_rows false example_secret example_spend null_t [].

Definition example_job : silent_job := default silent_scan (head (silent_reaction_jobs example_reaction)).

Definition example_run (job : silent_job) (q : list (option (list silent_match))) (s : silent_state) :
    silent_state * list silent_posted :=
  match job with
  | silent_subscribe address subscription => do_silent_subscribe 5 q false address subscription s
  | silent_unsubscribe address => do_silent_unsubscribe address s
  | silent_scan => do_silent q false s
  end.

Definition example_subscribed : silent_state * list silent_posted :=
  example_run example_job example_rows (SilentState ∅ false false).

(** The subscription is answered and its history delivered up to the missing row. *)
Example subscribed_history :
  match example_subscribed.2 with
  | [posted_silent_subscribe ec _; posted_silent_notify _ progress history] =>
      ec = Error.make Error.success ∧ progress = PrimFloat.one ∧ history = [match_json (example_match 0)]
  | _ => False
  end.
Proof. vm_compute. done. Qed.

Definition example_system : silent_system :=
  SilentSystem example_rows [] false example_subscribed.1 example_subscribed.2.

Lemma example_system_reachable : silent_reachable 5 true example_system.
Proof.
  exists example_rows. eapply rtc_l.
  { apply (silent_step_request _ _ _ "sp" false example_secret example_spend null_t [] example_reaction).
    apply list_elem_of_here. }
  eapply rtc_l; [|apply rtc_refl].
  assert (match example_job with silent_subscribe _ _ => True | _ => False end) as Hkind by (vm_compute; done).
  destruct example_job as [address sub| |] eqn:Hjob; [|done..]. clear Hkind.
  refine (silent_step_subscribe 5 true (SilentSystem example_rows (silent_reaction_jobs example_reaction)
    false (SilentState ∅ false false) []) false address sub [] example_subscribed.1 example_subscribed.2 _ eq_refl _).
  - unfold example_job in Hjob. cbn [silent_jobs].
    destruct example_reaction as [|ec|job]; [by inversion Hjob..|]. simpl in *. by rewrite Hjob.
  - unfold example_subscribed. rewrite Hjob. unfold example_run. by destruct (do_silent_subscribe _ _ _ _ _ _).
Qed.

(** A scan moves every cursor to the frontier of the lowest one, also a cursor that is
    beyond it: a subscription from row 2 is sent the match of row 2 when it subscribes,
    is moved back by the missing row 1 of another, and once that row is written is sent
    the same match again. *)
Definition later_subscription : silent_subscription :=
  SilentSubscription [9] [("address", string_t "later")] (SilentCut 2 max_size_t false) 0.

Definition full_rows : list (option (list silent_match)) :=
  [Some [example_match 0]; Some [example_match 1]; Some [example_match 2]].

Definition histories (sent : list silent_posted) : list (option value_t * array) :=
  omap (λ p, match p with
             | posted_silent_notify o _ history => Some (find_field "address" o, history)
             | _ => None
             end) sent.

Example silent_cursor_regresses :
  let later := Some (string_t "later") in
  let repeated := (later, [match_json (example_match 2)]) in
  let '(s, first) := example_run (silent_subscribe "later" later_subscription) example_rows example_subscribed.1 in
  let '(s, second) := example_run silent_scan example_rows s in
  let '(s, third) := example_run silent_scan full_rows s in
  histories first = [repeated] ∧ second = [] ∧
  last (histories third) = Some repeated.
Proof. vm_compute. done. Qed.

