(* ===== verification/BitcoindUtility.v ===== *)
(** Utility methods of the bitcoind service
    (src/protocols/bitcoind/protocol_bitcoind_utility.cpp): scripts, addresses,
    descriptors, signed messages, indexes and fee estimates. *)
From stdpp Require Import list_numbers.
From S2P Require Import Prelude Rpc Errors System FeeHistogram ElectrumSubscribe BtcdFilter Dispatch Descriptor Archive BitcoindParsers BitcoindBlockchain ElectrumServer.

(** ** The libraries *)

(** [wallet::descriptor] (with the scripts of an index), [wallet::witness_address],
    [wallet::payment_address] of a script, and the patterns and flags of scripts. *)
Class UtilityWallet `{ScanDescriptors} `{!Wallet} := {
  scripts_at : wallet_descriptor → Z → list script;
  descriptor_encoded : wallet_descriptor → string;
  descriptor_text_checksum : wallet_descriptor → string;
  solvable : wallet_descriptor → bool;
  has_private_keys : wallet_descriptor → bool;
  is_version0_p2sh : witness_address → bool;
  witness_text : witness_address → string;
  witness_number : witness_address → Z;
  witness_program : witness_address → data_chunk;
  is_underflow : script → bool;
  is_pay_witness_pattern : script → bool;
  is_pay_null_data_pattern : script → bool;
  (** Whether the payment address of a script is valid, for a prefix. *)
  pays_script : script → Z → bool;
  (** [decode_base64] and [verify_message]. *)
  decode_base64 : string → option data_chunk;
  message_signature_size : nat;
  verify_message : string → payment_address → data_chunk → bool;
  ascii_to_lower : string → string;
}.

(** [node::estimator::maximum_horizon]. *)
Class Estimator := { maximum_horizon : Z }.

Section Utility.
Context `{Text} `{SizeMath} `{Integers} `{EstimateErrors} `{Estimator} `{UtilityWallet}
  `{!DescriptorScripts} `{ChainArchive} `{!BlockArchive} `{!TxArchive}.
Context (p2kh p2sh : Z) (witness : string) (script_model : script → object).

Definition invalid_address : handled := failed BitcoindError.invalid_address_or_key.
Definition invalid_parameter : handled := failed BitcoindError.invalid_parameter.

(** ** Scripts and addresses *)

(** [script_public_key], an object. *)
Definition script_fields (s : script) : object :=
  inject_script_context p2kh p2sh witness (script_model s) s.

Definition handle_decode_script (stopped : bool) (hexstring : string) : handled :=
  if stopped then (false, [])
  else
    match decode_base16 hexstring with
    | None => invalid_parameter
    | Some data =>
        let script := to_script data in
        let result := erase_field "hex" (script_fields script) in
        if negb (script_valid script) || is_underflow script then
          let body := "raw(" +:+ encode_base16 data +:+ ")" in
          let result := set_field "desc" (string_t (body +:+ "#" +:+ descriptor_checksum body)) result in
          replied (reply_value (object_t (erase_field "address" result)))
        else
          let result :=
            if pays_script script p2sh
            then try_emplace "p2sh" (string_t (script_payment script p2sh)) result else result in
          let result :=
            if negb (is_pay_witness_pattern script) && negb (is_pay_null_data_pattern script) then
              let wsh := to_pay_witness (sha256_hash (script_data script)) in
              let segwit :=
                try_emplace "p2sh-segwit" (string_t (script_payment wsh p2sh)) (script_fields wsh) in
              try_emplace "segwit" (object_t segwit) result
            else result in
          replied (reply_value (object_t result))
    end.

Definition handle_validate_address (stopped : bool) (address : string) : handled :=
  if stopped then (false, [])
  else
    let witnessed :=
      match to_witness_address address with
      | Some parsed =>
          if witness_prefix parsed == witness then
            [("isvalid", boolean_t true); ("address", string_t (witness_text parsed));
             ("scriptPubKey", string_t (encode_base16 (script_data (witness_script parsed))));
             ("isscript", boolean_t (is_version0_p2sh parsed)); ("iswitness", boolean_t true);
             ("witness_version", uint8_t (witness_number parsed));
             ("witness_program", string_t (encode_base16 (witness_program parsed)))]
          else [("isvalid", boolean_t false)]
      | None => [("isvalid", boolean_t false)]
      end in
    let result :=
      match to_payment_address address with
      | Some base58 =>
          let prefix := payment_prefix base58 in
          if (prefix =? p2kh) || (prefix =? p2sh) then
            [("isvalid", boolean_t true); ("address", string_t (encoded base58));
             ("scriptPubKey", string_t (encode_base16 (script_data (output_script base58 p2kh p2sh))));
             ("isscript", boolean_t (prefix =? p2sh)); ("iswitness", boolean_t false)]
          else witnessed
      | None => witnessed
      end in
    replied (reply_value (object_t result)).

(** [to_integer(uint8_t&, double)] is the argument [to_uint8]. *)
Definition handle_create_multisig (to_uint8 : double → option Z) (stopped : bool) (nrequired : double)
    (keys : array) (address_type : string) : handled :=
  let maximum_keys := 16 in
  if stopped then (false, [])
  else
    match to_uint8 nrequired with
    | None => invalid_parameter
    | Some required =>
        if (required =? 0) || (Z.of_nat (length keys) <? required) then invalid_parameter
        else if maximum_keys <? Z.of_nat (length keys) then invalid_parameter
        else if (address_type != "legacy") && (address_type != "p2sh-segwit") &&
                (address_type != "bech32") then invalid_address
        else
          match create_multisig required keys address_type p2sh witness with
          | [] => invalid_address
          | result => replied (reply_value (object_t result))
          end
    end.

(** ** Descriptors *)

Definition maximum_derivation : Z := 10000.

(** The address of an index, empty if there is not exactly one script with one. *)
Definition derived_address (parsed : wallet_descriptor) (index : Z) : string :=
  match scripts_at parsed index with
  | [script] => to_address script p2kh p2sh witness
  | _ => ""
  end.

(** The loop over the indexes, of 32 bits: no result if the fuel is spent, and then no
    addresses if one is empty. *)
Fixpoint derive_loop (fuel : nat) (parsed : wallet_descriptor) (index end_ : Z) (out : array) :
    option (option array) :=
  if index <=? end_ then
    match fuel with
    | O => None
    | S fuel =>
        let address := derived_address parsed index in
        if is_empty address then Some None
        else derive_loop fuel parsed ((index + 1) mod 2 ^ 32) end_ (out ++ [string_t address])%list
    end
  else Some (Some out).

Definition derive_range (range : option value_t) : option (Z * Z) :=
  match range with
  | None => Some (0, 0)
  | Some range => parse_scan_range 0 range
  end.

Definition handle_derive_addresses (fuel : nat) (stopped : bool) (expression : string)
    (range : option value_t) : option handled :=
  if stopped then Some (false, [])
  else
    match to_descriptor expression with
    | None => Some invalid_address
    | Some parsed =>
        if negb (Bool.eqb (ranged parsed) (bool_decide (is_Some range))) then Some invalid_parameter
        else
          match derive_range range with
          | None => Some invalid_parameter
          | Some (begin, end_) =>
              if maximum_derivation <=? floored_subtract end_ begin then Some invalid_parameter
              else
                match derive_loop fuel parsed begin end_ [] with
                | None => None
                | Some None => Some invalid_address
                | Some (Some out) => Some (replied (reply_value (array_t out)))
                end
          end
    end.

Definition handle_get_descriptor_info (stopped : bool) (expression : string) : handled :=
  if stopped then (false, [])
  else
    match to_descriptor expression with
    | None => invalid_address
    | Some parsed =>
        replied (reply_value (object_t
          [("descriptor", string_t (descriptor_encoded parsed));
           ("checksum", string_t (descriptor_text_checksum parsed));
           ("isrange", boolean_t (ranged parsed)); ("issolvable", boolean_t (solvable parsed));
           ("hasprivatekeys", boolean_t (has_private_keys parsed))]))
    end.

(** ** Messages and indexes *)

Definition handle_verify_message (stopped : bool) (address signature message : string) : handled :=
  if stopped then (false, [])
  else
    match to_payment_address address with
    | None => invalid_address
    | Some payment =>
        match decode_base64 signature with
        | None => failed BitcoindError.type_error
        | Some decoded =>
            if negb (length decoded =? message_signature_size)%nat then failed BitcoindError.type_error
            else replied (reply_value (boolean_t (verify_message message payment decoded)))
        end
    end.

(** Whether the confirmed chain is current is the argument [current]. *)
Definition handle_get_index_info (q : archive) (current stopped : bool) (index_name : string) : handled :=
  if stopped then (false, [])
  else
    let status := object_t
      [("synced", boolean_t (current && is_coalesced q));
       ("best_block_height", uint64_t (get_top_confirmed q))] in
    let asks name := is_empty index_name || (index_name == name) in
    let result := if asks "txindex" then try_emplace "txindex" status [] else [] in
    let result :=
      if filter_enabled q && asks "basic block filter index"
      then try_emplace "basic block filter index" status result else result in
    replied (reply_value (object_t result)).

(** ** Fee estimates *)

(** A handler replies, or starts an estimate of a horizon and a mode, for a target. *)
Inductive utility_reaction :=
  | utility_replies (h : handled)
  | utility_estimates (horizon : Z) (mode : mode_t) (target : Z).

Definition smart_mode (estimate_mode : string) : mode_t :=
  let lower := ascii_to_lower estimate_mode in
  if (lower == "unset") || (lower == "economical") then mode_economical
  else if lower == "conservative" then mode_conservative
  else mode_unknown.

Definition handle_estimate_smart_fee (stopped : bool) (conf_target : double) (estimate_mode : string) :
    utility_reaction :=
  if stopped then utility_replies (false, [])
  else
    match to_size conf_target with
    | None => utility_replies invalid_parameter
    | Some target =>
        if (target =? 0) || (maximum_horizon <? target) then utility_replies invalid_parameter
        else
          match smart_mode estimate_mode with
          | mode_unknown => utility_replies invalid_parameter
          | mode => utility_estimates (target - 1) mode target
          end
    end.

Definition fee_scale : double := to_floating 100000.

Definition unavailable (ec : code) : bool :=
  bool_decide (ec = estimate_false) || bool_decide (ec = estimate_disabled) ||
  bool_decide (ec = estimate_premature).

Definition complete_estimate (stopped : bool) (ec : code) (fee target : Z) : list reply :=
  if stopped then []
  else if negb (unavailable ec) && is_error ec then [bitcoind_error BitcoindError.internal_error]
  else if unavailable ec then
    [reply_value (object_t
      [("errors", array_t [string_t "Insufficient data or no feerate found"]);
       ("blocks", uint64_t target)])]
  else
    [reply_value (object_t
      [("feerate", number_t (PrimFloat.div (to_floating fee) fee_scale)); ("blocks", uint64_t target)])].

Definition handle_sign_message_with_priv_key (stopped : bool) : handled :=
  if stopped then (false, []) else failed BitcoindError.method_not_found.

(** ** The derivation *)

Lemma derive_loop_spec fuel parsed index end_ out :
  0 <= index → end_ < 2 ^ 32 - 1 → end_ - index < Z.of_nat fuel →
  derive_loop fuel parsed index end_ out =
    Some (if forallb (λ i, negb (is_empty (derived_address parsed i))) (indexes index end_)
          then Some (out ++ (string_t ∘ derived_address parsed <$> indexes index end_))%list
          else None).
Proof.
  revert index out. induction fuel as [|fuel IH]; intros index out Hindex Hend Hfuel; unfold indexes; simpl.
  - destruct (Z.leb_spec index end_); [lia|]. rewrite seqZ_nil by lia. simpl. by rewrite app_nil_r.
  - destruct (Z.leb_spec index end_) as [Hle|Hgt]; cycle 1.
    { rewrite seqZ_nil by lia. simpl. by rewrite app_nil_r. }
    rewrite seqZ_cons by lia. simpl. destruct (is_empty _); [done|]. simpl.
    rewrite Z.mod_small by lia. rewrite IH by lia. unfold indexes.
    replace (Z.pred (end_ - index + 1)) with (end_ - (index + 1) + 1) by lia.
    change (Z.succ index) with (index + 1). destruct (forallb _ _); [|done].
    by rewrite <-app_assoc.
Qed.

(** At the greatest index the loop starts over. *)
Lemma derive_loop_diverges fuel parsed index out :
  0 <= index < 2 ^ 32 → (∀ i, is_empty (derived_address parsed i) = false) →
  derive_loop fuel parsed index (2 ^ 32 - 1) out = None.
Proof.
  intros Hindex Hderives. revert index out Hindex.
  induction fuel as [|fuel IH]; intros index out Hindex; cbn [derive_loop];
    rewrite (proj2 (Z.leb_le index (2 ^ 32 - 1)) ltac:(lia)); [done|].
  rewrite Hderives. apply IH. apply Z.mod_pos_bound. lia.
Qed.

End Utility.

Lemma parse_scan_range_bounds `{IntegersLaws} begin range first last :
  0 <= begin < 2 ^ 32 → parse_scan_range begin range = Some (first, last) →
  0 <= first < 2 ^ 32 ∧ 0 <= last < 2 ^ 32.
Proof.
  intros Hbegin. unfold parse_scan_range. intros Hparse. repeat case_match; try done; simplify_option_eq;
    repeat match goal with Hrange : to_uint32 _ = Some _ |- _ => apply to_uint32_range in Hrange end; lia.
Qed.

(** ** Properties *)

(** C33: the derivation of addresses. An expression that is not a descriptor, a range
    for a descriptor without one or the reverse, and a range that is not parsed or has
    ten thousand indexes more than its first are refused. Otherwise, unless the range
    ends at the greatest 32-bit index, the loop ends within ten thousand derivations, its
    index does not wrap, and the answer has the address of each index of the range in
    order, or is an error if one has none; if it ends there and every index has an
    address, the loop never ends. *)
Theorem derive_addresses_correct `{Text} `{SizeMathLaws} `{IntegersLaws} `{EstimateErrors} `{UtilityWallet}
    `{!DescriptorScripts} p2kh p2sh witness expression range fuel :
  let handle fuel := handle_derive_addresses p2kh p2sh witness fuel false expression range in
  match to_descriptor expression with
  | None => handle fuel = Some (failed BitcoindError.invalid_address_or_key)
  | Some parsed =>
      let address := derived_address p2kh p2sh witness parsed in
      match derive_range range with
      | Some (begin, end_) =>
          if Bool.eqb (ranged parsed) (bool_decide (is_Some range)) && (end_ - begin <? maximum_derivation)
          then
            (end_ ≠ 2 ^ 32 - 1 → (Z.to_nat maximum_derivation <= fuel)%nat →
             handle fuel = Some (
               if forallb (λ i, negb (is_empty (address i))) (indexes begin end_)
               then replied (reply_value (array_t (string_t ∘ address <$> indexes begin end_)))
               else failed BitcoindError.invalid_address_or_key)) ∧
            (end_ = 2 ^ 32 - 1 → (∀ i, is_empty (address i) = false) → handle fuel = None)
          else handle fuel = Some (failed BitcoindError.invalid_parameter)
      | None => handle fuel = Some (failed BitcoindError.invalid_parameter)
      end
  end.
Proof.
  intros handle. unfold handle, handle_derive_addresses. destruct (to_descriptor expression) as [parsed|]; [|done].
  destruct (derive_range range) as [[begin end_]|] eqn:Hrange; cycle 1.
  { by destruct (Bool.eqb _ _). }
  assert (0 <= begin < 2 ^ 32 ∧ 0 <= end_ < 2 ^ 32) as [Hbegin Hend].
  { destruct range as [range|]; simpl in Hrange; [|by simplify_eq].
    by eapply parse_scan_range_bounds. }
  destruct (Bool.eqb _ _); cbn [negb andb]; [|done]. rewrite floored_subtract_spec.
  assert ((maximum_derivation <=? Z.max (end_ - begin) 0) = negb (end_ - begin <? maximum_derivation)) as ->.
  { unfold maximum_derivation. destruct (Z.ltb_spec (end_ - begin) 10000); simpl; [apply Z.leb_gt|apply Z.leb_le]; lia. }
  destruct (Z.ltb_spec (end_ - begin) maximum_derivation) as [Hsize|Hsize]; cbn [negb]; [|done]. split.
  - intros Hne Hfuel. rewrite derive_loop_spec; [|unfold maximum_derivation in *; lia..].
    by destruct (forallb _ _).
  - intros -> Hderives. by rewrite derive_loop_diverges.
Qed.

(** ** Example *)

#[local] Existing Instance reference_text.
#[local] Existing Instance reference_sizes.
#[local] Existing Instance reference_sizes_laws.

Definition greatest_index : double := to_floating (2 ^ 32 - 1).

#[local] Instance example_integers : Integers := {
  to_uint32 d := if PrimFloat.eqb d greatest_index then Some (2 ^ 32 - 1)
                 else if PrimFloat.eqb d PrimFloat.one then Some 1 else None;
  to_satoshis _ := None;
}.

#[local] Instance example_integers_laws : IntegersLaws.
Proof. split; intros d n; simpl; repeat case_match; intros; simplify_eq; lia. Qed.

#[local] Instance example_scripts : Scripts := {
  script := Z;
  to_script _ := 0;
  script_valid _ := true;
  script_hash _ := [];
  payment_address := unit;
  to_payment_address _ := None;
  output_script _ _ _ := 0;
  extract_output _ _ _ := None;
  encoded _ := "";
}.

#[local] Instance example_wallet : Wallet := {
  payment_prefix _ := 0;
  witness_address := unit;
  to_witness_address _ := None;
  witness_prefix _ := "";
  witness_script _ := 0;
  is_public_key _ := true;
  pay_public_key _ := 0;
  pay_key_hash _ := 0;
}.

#[local] Instance example_scan : ScanDescriptors := {
  wallet_descriptor := string;
  to_descriptor text := if is_empty text then None else Some text;
  ranged _ := true;
  signing := Z;
  signings _ index := [index];
  signing_script s := s;
}.

(** Each index has a witness script, of its own address. *)
#[local] Instance example_descriptors : DescriptorScripts := {
  public_key _ := [];
  multisig_required _ := 0;
  multisig_keys _ := [];
  script_data s := [s];
  witness_version s := Some (0, [s]);
  witness_encoded program _ witness := witness +:+ String.concat "" (to_decimal <$> program);
  is_compressed_key _ := true;
  to_pay_multisig _ _ := 0;
  to_pay_witness _ := 0;
  sha256_hash bytes := bytes;
  script_payment _ _ := "";
  script_witness _ _ := "";
  max_push_data_size := 520;
}.

#[local] Instance example_utility : UtilityWallet := {
  scripts_at _ index := [index];
  descriptor_encoded text := text;
  descriptor_text_checksum _ := "";
  solvable _ := true;
  has_private_keys _ := false;
  is_version0_p2sh _ := false;
  witness_text _ := "";
  witness_number _ := 0;
  witness_program _ := [];
  is_underflow _ := false;
  is_pay_witness_pattern _ := true;
  is_pay_null_data_pattern _ := false;
  pays_script _ _ := false;
  decode_base64 _ := None;
  message_signature_size := 65;
  verify_message _ _ _ := false;
  ascii_to_lower text := text;
}.

#[local] Instance example_estimates : EstimateErrors := {
  estimate_false := Code network_category 1;
  estimate_disabled := Code network_category 2;
  estimate_premature := Code network_category 3;
}.

(** Two indexes, and the range that does not end. *)
Lemma derive_addresses_correct_witness :
  handle_derive_addresses 0 5 "bc" (Z.to_nat maximum_derivation) false "wpkh" (Some (number_t PrimFloat.one)) =
    Some (replied (reply_value (array_t [string_t "bc0"; string_t "bc1"]))) ∧
  handle_derive_addresses 0 5 "bc" (Z.to_nat maximum_derivation) false "wpkh"
    (Some (array_t [number_t greatest_index; number_t greatest_index])) = None.
Proof.
  split.
  - refine (proj1 (derive_addresses_correct 0 5 "bc" "wpkh" (Some (number_t PrimFloat.one))
      (Z.to_nat maximum_derivation)) _ _); [discriminate|reflexivity].
  - refine (proj2 (derive_addresses_correct 0 5 "bc" "wpkh"
      (Some (array_t [number_t greatest_index; number_t greatest_index])) (Z.to_nat maximum_derivation)) _ _);
      [reflexivity|]. intros i. reflexivity.
Defined.
