(* ===== verification/BitcoindNetwork.v ===== *)
(** Network methods of the bitcoind service
    (src/protocols/bitcoind/protocol_bitcoind_network.cpp), with the capture of
    diagnostic rows and of totals (src/protocols/bitcoind/protocol_bitcoind.cpp).

    A handler replies or asks the network: it connects or terminates channels, captures
    a row of each channel, reads the totals of closed channels or dumps addresses. What
    the network answers returns to the channel's strand by a completion. *)
From S2P Require Import Prelude Rpc Errors System FeeHistogram ElectrumSubscribe Dispatch Archive BitcoindBlockchain.

(** ** The network library *)

(** The type of an address, by the alternatives of its variant. *)
Inductive network_id :=
  | unspecified_id | ipv4_id | ipv6_id | torv2_id | torv3_id | i2p_id | cjdns_id.

(** [config::endpoint] (a text that is not one throws), [config::address] and the codes
    that stop channels. *)
Class Peers := {
  endpoint : Type;
  to_endpoint : string → option endpoint;
  no_endpoint : endpoint;
  endpoint_text : endpoint → string;
  endpoint_network : endpoint → network_id;
  peer_address : Type;
  address_endpoint : peer_address → endpoint;
  address_host : peer_address → string;
  address_port : peer_address → Z;
  channel_dropped : code;
  channel_stopped : code;
  service_suspended : code;
  (** [service::node_network] and the other bits, in the order that they are named. *)
  service_bits : list Z;
  (** The encoded big endian bytes of services. *)
  services_text : Z → string;
  (** [peer::registry::commands()]. *)
  commands : list string;
  (** [duration_cast<microseconds>]. *)
  microseconds : Z → Z;
}.

(** [diagnostics::target] and [diagnostics::row]. *)
Inductive capture_target := target_all | target_inbound | target_manual | target_outbound.

#[global] Instance capture_target_eq_dec : EqDecision capture_target.
Proof. solve_decision. Defined.

Record row `{Peers} := Row {
  row_identifier : Z;
  row_address : option peer_address;
  row_endpoint : endpoint;
  row_binding : endpoint;
  row_local : option peer_address;
  row_group : capture_target;
  row_services : Z;
  row_relay : bool;
  row_minimum_fee : Z;
  row_version : Z;
  row_user_agent : string;
  row_start_height : Z;
  row_created : Z;
  row_time_offset : Z;
  row_last_write : Z;
  row_last_read : Z;
  row_bytes_sent : Z;
  row_bytes_received : Z;
  row_sent_by_message : list Z;
  row_received_by_message : list Z;
  row_encrypted : bool;
  row_ping_time : Z;
  row_minimum_ping_time : Z;
  row_pending_ping_time : Z;
}.

(** An address message item, with the host of its address. *)
Record address_item := AddressItem {
  item_timestamp : Z;
  item_services : Z;
  item_host : string;
  item_port : Z;
  item_network : network_id;
}.

(** The settings that are read. *)
Record section := Section_ { connections : Z; rate_limited : Z }.

Record network_settings `{Peers} := NetworkSettings {
  identifier : Z;
  protocol_maximum : Z;
  enable_relay : bool;
  gossip_ipv4 : bool;
  gossip_ipv6 : bool;
  gossip_tor : bool;
  gossip_i2p : bool;
  (** The socks proxy and the bridge, if configured. *)
  outbound_socks : option string;
  inbound_bridge : option string;
  inbound_selfs : list peer_address;
  inbound_self : option peer_address;
  inbound : section;
  outbound : section;
}.

Record server_version := ServerVersion { segments : Z * Z * Z; subversion : string }.

Arguments Row {_}.
Arguments NetworkSettings {_}.

(** ** Actions *)

Inductive network_action `{Peers} :=
  | network_reply (r : reply)
  | network_connect (peer : endpoint) (once : bool)
  (** The broadcast of a terminator, which stops the channels of an identifier or a peer
      and completes with an error if there are none. *)
  | network_terminate (reason : code) (id : Z) (peer : endpoint) (absent : code)
  (** A completion that is released without a broadcast. *)
  | network_release (absent : code)
  | network_capture (target : capture_target)
  | network_totals
  | network_dump
  | network_suspend (reason : code)
  | network_resume.

Section Network.
Context `{Text} `{SizeMath} `{Peers}.

Definition replying (r : reply) : bool * list network_action := (true, [network_reply r]).
Definition refusing (e : BitcoindError.error_t) : bool * list network_action := replying (bitcoind_error e).

(** ** Commands *)

Definition handle_add_node (stopped : bool) (node command : string) (v2transport : bool) :
    bool * list network_action :=
  if stopped then (false, [])
  else if v2transport then refusing BitcoindError.invalid_parameter
  else if (command != "add") && (command != "onetry") && (command != "remove")
  then refusing BitcoindError.misc_error
  else if command == "remove" then
    let absent := BitcoindError.make BitcoindError.client_node_not_added in
    match to_endpoint node with
    | Some peer => (true, [network_terminate channel_dropped 0 peer absent])
    | None =>
        (true, [network_release absent; network_reply (bitcoind_error BitcoindError.invalid_parameter)])
    end
  else
    match to_endpoint node with
    | Some peer =>
        (true, [network_connect peer (command == "onetry"); network_reply (reply_value null_t)])
    | None => refusing BitcoindError.invalid_parameter
    end.

(** [to_integer(uint64_t&, double)] is the argument [to_uint64]. *)
Definition handle_disconnect_node (to_uint64 : double → option Z) (stopped : bool)
    (address : option string) (nodeid : option double) : bool * list network_action :=
  let terminate id peer :=
    (true, [network_terminate channel_stopped id peer
      (BitcoindError.make BitcoindError.client_node_not_connected)]) in
  if stopped then (false, [])
  else
    match address, nodeid with
    | None, None | Some _, Some _ => refusing BitcoindError.invalid_parameter
    | None, Some nodeid =>
        match to_uint64 nodeid with
        | None => refusing BitcoindError.invalid_parameter
        | Some id => terminate id no_endpoint
        end
    | Some address, None =>
        match to_endpoint address with
        | None => refusing BitcoindError.invalid_parameter
        | Some peer => terminate 0 peer
        end
    end.

Definition do_send_stopped (ec absent : code) : list reply :=
  if is_error ec then [reply_error absent None] else [reply_value null_t].

(** The completion of a terminator, which posts its response unless stopped. *)
Definition handle_stopped (stopped : bool) (ec absent : code) : list reply :=
  if stopped then [] else do_send_stopped ec absent.

(** Whether the network resumes is the argument [resumes]. *)
Definition handle_set_network_active (resumes stopped state : bool) : bool * list network_action :=
  if stopped then (false, [])
  else if state then (true, [network_resume; network_reply (reply_value (boolean_t resumes))])
  else (true, [network_suspend service_suspended; network_reply (reply_value (boolean_t false))]).

Definition refused (e : BitcoindError.error_t) (stopped : bool) : bool * list network_action :=
  if stopped then (false, []) else refusing e.

Definition handle_clear_banned : bool → bool * list network_action := refused BitcoindError.database_error.
Definition handle_list_banned : bool → bool * list network_action := refused BitcoindError.database_error.
Definition handle_set_ban : bool → bool * list network_action := refused BitcoindError.database_error.
Definition handle_export_asmap : bool → bool * list network_action := refused BitcoindError.misc_error.

(** No operation. *)
Definition handle_ping (stopped : bool) : bool * list network_action :=
  if stopped then (false, []) else replying (reply_value null_t).

Definition handle_get_connection_count (channel_count : Z) (stopped : bool) : bool * list network_action :=
  if stopped then (false, []) else replying (reply_value (uint64_t channel_count)).

(** ** Information *)

Definition service_names : list string :=
  ["NETWORK"; "BLOOM"; "WITNESS"; "COMPACT_FILTERS"; "NETWORK_LIMITED"; "P2P_V2"].

Definition to_service_names (services : Z) : array :=
  omap (λ '(bit, name), if Z.land services bit =? 0 then None else Some (string_t name))
    (zip service_bits service_names).

Definition network_object (proxy : string) (name : string) (reachable : bool) : value_t :=
  object_t [("name", string_t name); ("limited", boolean_t (negb reachable));
            ("reachable", boolean_t reachable); ("proxy", string_t proxy);
            ("proxy_randomize_credentials", boolean_t false)].

Definition local_object (self : peer_address) : value_t :=
  object_t [("address", string_t (address_host self)); ("port", uint16_t (address_port self));
            ("score", int64_t 1)].

Definition handle_get_network_info (settings : server_version) (net : network_settings)
    (services : Z) (minimum_fee_rate minimum_bump_rate : double) (connections inbound_ : Z)
    (suspended stopped : bool) : bool * list network_action :=
  if stopped then (false, [])
  else
    let '(major, minor, patch) := segments settings in
    let proxied := bool_decide (is_Some (outbound_socks net)) in
    let bridged := bool_decide (is_Some (inbound_bridge net)) in
    let proxy := default "" (outbound_socks net) in
    let bridge := default proxy (inbound_bridge net) in
    let locals := (local_object <$> inbound_selfs net ++ option_list (inbound_self net))%list in
    replying (reply_value (object_t
      [("version", uint32_t (10000 * major + 100 * minor + patch));
       ("subversion", string_t (subversion settings));
       ("protocolversion", uint32_t (protocol_maximum net));
       ("localservices", string_t (services_text services));
       ("localservicesnames", array_t (to_service_names services));
       ("localrelay", boolean_t (enable_relay net)); ("timeoffset", int64_t 0);
       ("connections", uint64_t connections); ("connections_in", uint64_t inbound_);
       ("connections_out", uint64_t (floored_subtract connections inbound_));
       ("networkactive", boolean_t (negb suspended));
       ("networks", array_t
         [network_object proxy "ipv4" (gossip_ipv4 net); network_object proxy "ipv6" (gossip_ipv6 net);
          network_object proxy "onion" (gossip_tor net && proxied);
          network_object bridge "i2p" (gossip_i2p net && (proxied || bridged));
          network_object proxy "cjdns" (gossip_ipv6 net)]);
       ("relayfee", number_t minimum_fee_rate); ("incrementalfee", number_t minimum_bump_rate);
       ("localaddresses", array_t locals); ("warnings", array_t [])])).

Definition network_names : list string := [""; "ipv4"; "ipv6"; "onion"; "onion"; "i2p"; "cjdns"].

Definition network_index (n : network_id) : nat :=
  match n with
  | unspecified_id => 0 | ipv4_id => 1 | ipv6_id => 2 | torv2_id => 3
  | torv3_id => 4 | i2p_id => 5 | cjdns_id => 6
  end.

Definition to_network_name (n : network_id) : string := default "" (network_names !! network_index n).

Definition address_bucket (count : Z) : value_t :=
  object_t [("new", uint64_t count); ("tried", uint64_t 0); ("total", uint64_t count)].

Definition handle_get_addrman_info (counts : network_id → Z) (stopped : bool) : bool * list network_action :=
  if stopped then (false, [])
  else
    let total := (counts ipv4_id + counts ipv6_id + counts torv3_id + counts i2p_id + counts cjdns_id)
      mod 2 ^ 64 in
    replying (reply_value (object_t
      [("ipv4", address_bucket (counts ipv4_id)); ("ipv6", address_bucket (counts ipv6_id));
       ("onion", address_bucket (counts torv3_id)); ("i2p", address_bucket (counts i2p_id));
       ("cjdns", address_bucket (counts cjdns_id)); ("all_networks", address_bucket total)])).

(** ** Retained parameters

    The protocol retains the parameters of a request until its completion. *)
Record network_state := NetworkState {
  node_address_ : string;
  node_count_ : Z;
  node_network_ : string;
}.

Definition handle_get_added_node_info (stopped : bool) (node : option string) (s : network_state) :
    network_state * (bool * list network_action) :=
  if stopped then (s, (false, []))
  else
    (NetworkState (default "" node) (node_count_ s) (node_network_ s),
     (true, [network_capture target_manual])).

Definition added_node (node : string) : value_t :=
  object_t [("addednode", string_t node); ("connected", boolean_t true);
            ("addresses", array_t [object_t [("address", string_t node);
                                             ("connected", string_t "outbound")]])].

Definition do_send_added_node_info (s : network_state) (captured : list row) : list reply :=
  let wanted node := is_empty (node_address_ s) || (node_address_ s == node) in
  let out := omap (λ r,
    let node := endpoint_text (row_endpoint r) in
    if wanted node then Some (added_node node) else None) captured in
  if negb (is_empty (node_address_ s)) && (length out =? 0)%nat
  then [bitcoind_error BitcoindError.client_node_not_added]
  else [reply_value (array_t out)].

(** [to_integer(size_t&, double)] is [to_size]; a count that is parsed is retained even
    if the network is then refused. *)
Definition handle_get_node_addresses (stopped : bool) (count : double) (network : string)
    (s : network_state) : network_state * (bool * list network_action) :=
  if stopped then (s, (false, []))
  else
    match to_size count with
    | None => (s, refusing BitcoindError.invalid_parameter)
    | Some count =>
        if negb (is_empty network) && negb (bool_decide (network ∈ network_names))
        then (NetworkState (node_address_ s) count (node_network_ s),
              refusing BitcoindError.invalid_parameter)
        else (NetworkState (node_address_ s) count network, (true, [network_dump]))
    end.

Definition node_object (item : address_item) : value_t :=
  object_t [("time", uint32_t (item_timestamp item)); ("services", uint64_t (item_services item));
            ("address", string_t (item_host item)); ("port", uint16_t (item_port item));
            ("network", string_t (to_network_name (item_network item)))].

(** The loop over the items. *)
Fixpoint send_nodes_loop (s : network_state) (items : list address_item) (out : array) : array :=
  match items with
  | [] => out
  | item :: items =>
      if negb (node_count_ s =? 0) && (node_count_ s <=? Z.of_nat (length out)) then out
      else if negb (is_empty (node_network_ s)) && (node_network_ s != to_network_name (item_network item))
      then send_nodes_loop s items out
      else send_nodes_loop s items (out ++ [node_object item])%list
  end.

Definition do_send_nodes (s : network_state) (ec : code) (message : option (list address_item)) :
    list reply :=
  match message with
  | Some items =>
      if is_error ec then [reply_value (array_t [])]
      else [reply_value (array_t (send_nodes_loop s items []))]
  | None => [reply_value (array_t [])]
  end.

(** The completions of captures and dumps post their responses unless stopped. *)
Definition handle_captured {A} (stopped : bool) (send : A → list reply) (captured : A) : list reply :=
  if stopped then [] else send captured.

(** ** Totals *)

Definition capture_totals : list network_action := [network_capture target_all].

(** The rows captured, the totals of closed channels are read. *)
Definition handle_captured_totals (stopped : bool) : list network_action :=
  if stopped then [] else [network_totals].

Record totals_t := Totals { totals_sent : Z; totals_received : Z; totals_actives : list Z }.

(** What is counted of a row. *)
Definition add_row (actives : list Z) (counts : Z * Z) (r : row) : Z * Z :=
  if bool_decide (row_identifier r ∈ actives)
  then (ceilinged_add counts.1 (row_bytes_sent r), ceilinged_add counts.2 (row_bytes_received r))
  else counts.

(** The code and the totals that the handler is invoked with. *)
Definition do_invoke_totals (ec : code) (totals : totals_t) (captured : list row) : code * Z * Z :=
  if is_error ec then (ec, 0, 0)
  else
    let '(sent, received) :=
      foldl (add_row (totals_actives totals)) (totals_sent totals, totals_received totals) captured in
    (Error.make Error.success, sent, received).

(** The totals read, the handler is invoked unless stopped. *)
Definition handle_fetch_totals (stopped : bool) (ec : code) (totals : totals_t) (captured : list row)
    (handler : code → Z → Z → list reply) : list reply :=
  if stopped then []
  else let '(ec, sent, received) := do_invoke_totals ec totals captured in handler ec sent received.

Definition handle_get_net_totals (stopped : bool) : bool * list network_action :=
  if stopped then (false, []) else (true, capture_totals).

Definition timeframe : Z := 24 * 60 * 60.

(** Whether a section that connects is unlimited, and the bytes of a day. *)
Definition upload_target (net : network_settings) : Z :=
  let unlimited s := negb (connections s =? 0) && (rate_limited s =? 0) in
  let bytes s := ceilinged_multiply (connections s) (rate_limited s) in
  if unlimited (inbound net) || unlimited (outbound net) then 0
  else ceilinged_multiply (ceilinged_add (bytes (inbound net)) (bytes (outbound net))) timeframe.

(** The time is the argument [now]. *)
Definition do_send_net_totals (net : network_settings) (now : Z) (ec : code) (sent received : Z) :
    list reply :=
  if is_error ec then [bitcoind_error BitcoindError.misc_error]
  else
    let bytes := upload_target net in
    [reply_value (object_t
      [("totalbytesrecv", uint64_t received); ("totalbytessent", uint64_t sent);
       ("timemillis", int64_t (now * 1000));
       ("uploadtarget", object_t
         [("timeframe", uint64_t timeframe); ("target", uint64_t bytes);
          ("target_reached", boolean_t false); ("serve_historical_blocks", boolean_t true);
          ("bytes_left_in_cycle", uint64_t bytes); ("time_left_in_cycle", uint64_t timeframe)])])].

(** ** Peers *)

Definition to_connection_type (group : capture_target) : string :=
  match group with
  | target_inbound => "inbound"
  | target_manual => "manual"
  | _ => "outbound-full-relay"
  end.

Definition to_fee_rate (satoshis_per_kilobyte : Z) : double :=
  PrimFloat.div (to_floating satoshis_per_kilobyte) (to_floating 100000000).

Definition to_ping_seconds (span : Z) : double :=
  PrimFloat.div (to_floating (microseconds span)) (to_floating 1000000).

(** The commands of the counters that are not zero; [None] if there are more counters
    than commands. *)
Definition to_message_bytes (counts : list Z) : option object :=
  (λ entries, foldl (λ out '(command, count), try_emplace command (uint64_t count) out) [] entries) <$>
  mapM (λ '(index, count), (λ command, (command, count)) <$> commands !! index)
    (filter (λ entry, entry.2 ≠ 0) (zip (seq 0 (length counts)) counts)).

Definition handle_get_peer_info (stopped : bool) : bool * list network_action :=
  if stopped then (false, []) else (true, [network_capture target_all]).

Definition peer_object (r : row) : option value_t :=
  sent ← to_message_bytes (row_sent_by_message r);
  received ← to_message_bytes (row_received_by_message r);
  let peer := default (row_endpoint r) (address_endpoint <$> row_address r) in
  let info :=
    [("id", uint64_t (row_identifier r)); ("addr", string_t (endpoint_text peer));
     ("addrbind", string_t (endpoint_text (row_binding r)));
     ("network", string_t (to_network_name (endpoint_network peer)));
     ("services", string_t (services_text (row_services r)));
     ("servicesnames", array_t (to_service_names (row_services r)));
     ("relaytxes", boolean_t (row_relay r)); ("minfeefilter", number_t (to_fee_rate (row_minimum_fee r)));
     ("connection_type", string_t (to_connection_type (row_group r)));
     ("inbound", boolean_t (bool_decide (row_group r = target_inbound)));
     ("version", uint32_t (row_version r)); ("subver", string_t (row_user_agent r));
     ("startingheight", uint64_t (row_start_height r)); ("conntime", uint32_t (row_created r));
     ("timeoffset", int64_t (row_time_offset r)); ("lastsend", uint32_t (row_last_write r));
     ("lastrecv", uint32_t (row_last_read r)); ("bytessent", uint64_t (row_bytes_sent r));
     ("bytesrecv", uint64_t (row_bytes_received r)); ("bytessent_per_msg", object_t sent);
     ("bytesrecv_per_msg", object_t received);
     ("transport_protocol_type", string_t (if row_encrypted r then "v2" else "v1"))] in
  let info :=
    match row_local r with
    | Some address => try_emplace "addrlocal" (string_t (endpoint_text (address_endpoint address))) info
    | None => info
    end in
  let info :=
    if row_ping_time r =? 0 then info
    else try_emplace "minping" (number_t (to_ping_seconds (row_minimum_ping_time r)))
      (try_emplace "pingtime" (number_t (to_ping_seconds (row_ping_time r))) info) in
  let info :=
    if row_pending_ping_time r =? 0 then info
    else try_emplace "pingwait" (number_t (to_ping_seconds (row_pending_ping_time r))) info in
  Some (object_t info).

Definition do_send_peer_info (captured : list row) : option (list reply) :=
  (λ out, [reply_value (array_t out)]) <$> mapM peer_object captured.

End Network.

(** ** Lemmas of totals *)

(** What the rows of active channels add. *)
Definition active_sum `{Peers} (bytes : row → Z) (actives : list Z) (rows : list row) : Z :=
  sum_with bytes (filter (λ r, row_identifier r ∈ actives) rows).

Lemma active_sum_nonneg `{Peers} bytes actives rows :
  Forall (λ r, 0 <= bytes r) rows → 0 <= active_sum bytes actives rows.
Proof.
  intros Hrows. unfold active_sum. induction Hrows as [|r rows Hr _ IH]; [done|].
  rewrite filter_cons. destruct (decide _); unfold sum_with in *; simpl in *; lia.
Qed.

Lemma add_rows_spec `{SizeMathLaws} `{Peers} actives rows sent received :
  sent <= max_size_t → received <= max_size_t →
  Forall (λ r, 0 <= row_bytes_sent r ∧ 0 <= row_bytes_received r) rows →
  foldl (add_row actives) (sent, received) rows =
    (Z.min (sent + active_sum row_bytes_sent actives rows) max_size_t,
     Z.min (received + active_sum row_bytes_received actives rows) max_size_t).
Proof.
  intros Hsent Hreceived Hrows. revert sent received Hsent Hreceived.
  induction Hrows as [|r rows [Hs Hr] Hrows IH]; intros sent received Hsent Hreceived; simpl.
  { unfold active_sum, sum_with. simpl. f_equal; lia. }
  unfold add_row at 2. cbn [fst snd]. rewrite !ceilinged_add_spec.
  assert (0 <= active_sum row_bytes_sent actives rows ∧ 0 <= active_sum row_bytes_received actives rows) as [? ?].
  { split; apply active_sum_nonneg; eapply Forall_impl; [exact Hrows| |exact Hrows|]; by intros ? []. }
  unfold active_sum in *. rewrite filter_cons.
  case_bool_decide as Hactive; destruct (decide _) as [?|?]; try done; rewrite IH by lia; [|done].
  unfold sum_with in *. simpl. f_equal; lia.
Qed.

(** Saturation commutes with the sum and with the product. *)
Lemma saturated_product `{SizeMathLaws} a b c d t :
  0 <= a → 0 <= b → 0 <= c → 0 <= d → 1 <= t →
  ceilinged_multiply (ceilinged_add (ceilinged_multiply a b) (ceilinged_multiply c d)) t =
    Z.min ((a * b + c * d) * t) max_size_t.
Proof.
  intros Ha Hb Hc Hd Ht. rewrite !ceilinged_multiply_spec, ceilinged_add_spec.
  assert (0 <= a * b ∧ 0 <= c * d) as [Hab Hcd] by (split; by apply Z.mul_nonneg_nonneg).
  assert (0 <= max_size_t) as Hmax by (unfold max_size_t; lia). generalize max_size_t Hmax. intros m Hm.
  destruct (Z.le_gt_cases (a * b + c * d) m) as [Hle|Hgt].
  - rewrite (Z.min_l (a * b) m), (Z.min_l (c * d) m) by lia. by rewrite (Z.min_l (_ + _) m) by lia.
  - rewrite (Z.min_r (Z.min (a * b) m + Z.min (c * d) m) m) by lia. rewrite !Z.min_r; nia.
Qed.

(** The items of the wanted network, up to the count. *)
Definition wanted_item `{Peers} (s : network_state) (item : address_item) : bool :=
  is_empty (node_network_ s) || (node_network_ s == to_network_name (item_network item)).

Lemma send_nodes_loop_spec `{Peers} s items out :
  0 <= node_count_ s →
  send_nodes_loop s items out =
    (out ++ (node_object <$>
      (let wanted := filter (λ item, wanted_item s item = true) items in
       if node_count_ s =? 0 then wanted else take (Z.to_nat (node_count_ s) - length out) wanted)))%list.
Proof.
  intros Hcount. cbv zeta. revert out. induction items as [|item items IH]; intros out; cbn [send_nodes_loop].
  { cbn. destruct (_ =? 0); rewrite ?take_nil; by rewrite app_nil_r. }
  destruct (negb (node_count_ s =? 0) && (node_count_ s <=? Z.of_nat (length out))) eqn:Hfull.
  { apply andb_prop in Hfull as [Hpos Hle]. apply negb_true_iff in Hpos as ->. apply Z.leb_le in Hle.
    replace (Z.to_nat (node_count_ s) - length out)%nat with 0%nat by lia. by rewrite take_0, app_nil_r. }
  replace (negb (is_empty (node_network_ s)) && (node_network_ s != to_network_name (item_network item)))
    with (negb (wanted_item s item)) by (unfold wanted_item; by rewrite negb_orb).
  rewrite filter_cons. destruct (wanted_item s item); cbn [negb]; [|by rewrite decide_False, IH].
  rewrite decide_True, IH by done. rewrite length_app. simpl.
  destruct (Z.eqb_spec (node_count_ s) 0) as [Hzero|Hpos]; [by rewrite <-app_assoc|].
  simpl in Hfull. apply Z.leb_gt in Hfull.
  replace (Z.to_nat (node_count_ s) - length out)%nat with (S (Z.to_nat (node_count_ s) - (length out + 1))) by lia.
  simpl. by rewrite <-app_assoc.
Qed.

(** ** Properties *)

(** C34: the totals that are reported count closed channels and the rows of the channels
    that are active, each up to the greatest 64-bit number without wrapping, and nothing
    if they are not available. The upload target is zero if a section that connects is
    unlimited, and otherwise the bytes that all its connections can send in a day, up to
    the same number. The addresses that are dumped are those of the wanted network in
    order, as many as the count, or all of them if the count is zero. *)
Theorem network_reports_correct `{SizeMathLaws} `{Peers} totals rows net s items ec :
  0 <= totals_sent totals <= max_size_t → 0 <= totals_received totals <= max_size_t →
  Forall (λ r, 0 <= row_bytes_sent r ∧ 0 <= row_bytes_received r) rows →
  (∀ section, section ∈ [inbound net; outbound net] → 0 <= connections section ∧ 0 <= rate_limited section) →
  0 <= node_count_ s → is_error ec = false →
  (do_invoke_totals ec totals rows =
    (Error.make Error.success,
     Z.min (totals_sent totals + active_sum row_bytes_sent (totals_actives totals) rows) max_size_t,
     Z.min (totals_received totals + active_sum row_bytes_received (totals_actives totals) rows) max_size_t)) ∧
  (upload_target net =
    if existsb (λ section, negb (connections section =? 0) && (rate_limited section =? 0))
        [inbound net; outbound net]
    then 0
    else Z.min ((connections (inbound net) * rate_limited (inbound net) +
                 connections (outbound net) * rate_limited (outbound net)) * 86400) max_size_t) ∧
  (let wanted := filter (λ item, wanted_item s item = true) items in
   do_send_nodes s ec (Some items) =
    [reply_value (array_t (node_object <$>
      if node_count_ s =? 0 then wanted else take (Z.to_nat (node_count_ s)) wanted))]).
Proof.
  intros Hsent Hreceived Hrows Hsections Hcount Hok. split_and!.
  - unfold do_invoke_totals. rewrite Hok, add_rows_spec by (done || lia). done.
  - unfold upload_target. cbn [existsb]. rewrite orb_false_r. destruct (_ || _); [done|].
    destruct (Hsections (inbound net)) as [? ?]; [set_solver|].
    destruct (Hsections (outbound net)) as [? ?]; [set_solver|].
    by rewrite saturated_product by (done || unfold timeframe; lia).
  - intros wanted. unfold do_send_nodes. rewrite Hok, send_nodes_loop_spec by done. simpl.
    by rewrite Nat.sub_0_r.
Qed.

(** ** Example *)

#[local] Existing Instance reference_text.
#[local] Existing Instance reference_sizes.
#[local] Existing Instance reference_sizes_laws.

(** Endpoints that are their texts, of which the empty text is not one. *)
#[local] Instance example_peers : Peers := {
  endpoint := string;
  to_endpoint text := if is_empty text then None else Some text;
  no_endpoint := "";
  endpoint_text text := text;
  endpoint_network _ := ipv4_id;
  peer_address := string;
  address_endpoint text := text;
  address_host text := text;
  address_port _ := 8333;
  channel_dropped := Code network_category 1;
  channel_stopped := Code network_category 2;
  service_suspended := Code network_category 3;
  service_bits := [1; 4; 8; 64; 1024; 2048];
  services_text services := to_decimal services;
  commands := ["ping"; "pong"];
  microseconds span := span / 1000;
}.

Definition example_row (id sent received : Z) : row :=
  Row id None "a" "b" None target_manual 1033 true 0 70016 "" 0 0 0 0 0 sent received [sent; 0] [] false 0 0 0.

Definition example_network : network_settings :=
  NetworkSettings 1 70016 true true true false false None None [] None (Section_ 100 0) (Section_ 10 1000).

Definition example_items : list address_item :=
  [AddressItem 1 1 "h1" 1 ipv4_id; AddressItem 2 1 "h2" 2 torv2_id; AddressItem 3 1 "h3" 3 torv3_id;
   AddressItem 4 1 "h4" 4 torv3_id].

(** An unlimited inbound section; only the active channel of the rows is counted, and
    both tor versions are onion. *)
Lemma network_reports_correct_witness :
  do_invoke_totals (Error.make Error.success) (Totals 10 max_size_t [7]) [example_row 7 5 5; example_row 8 1 1] =
    (Error.make Error.success, 15, max_size_t) ∧
  upload_target example_network = 0 ∧
  do_send_nodes (NetworkState "" 2 "onion") (Error.make Error.success) (Some example_items) =
    [reply_value (array_t (node_object <$>
      [AddressItem 2 1 "h2" 2 torv2_id; AddressItem 3 1 "h3" 3 torv3_id]))].
Proof.
  refine (network_reports_correct (Totals 10 max_size_t [7]) [example_row 7 5 5; example_row 8 1 1]
    example_network (NetworkState "" 2 "onion") example_items (Error.make Error.success) _ _ _ _ _ _).
  - split; vm_compute; discriminate.
  - split; vm_compute; discriminate.
  - repeat constructor; discriminate.
  - intros section Hsection. apply list_elem_of_In in Hsection as [<-|[<-|[]]]; split; vm_compute; discriminate.
  - discriminate.
  - reflexivity.
Defined.
