(* ===== verification/BtcdUtility.v ===== *)
(** Getters and node commands of the btcd service
    (src/protocols/btcd/protocol_btcd_utility.cpp), over the capture of totals and the
    network of BitcoindNetwork.v. *)
From S2P Require Import Prelude Rpc Errors System FeeHistogram ElectrumSubscribe Dispatch Archive BitcoindBlockchain ElectrumServer BitcoindUtility BitcoindNetwork.

(** The headers that follow a locator up to a stop, at most a number of them. *)
Class BtcdArchive `{ChainArchive} := {
  get_headers : archive → list hash_digest → hash_digest → Z → list chain_header;
  header_to_data : chain_header → data_chunk;
  max_get_headers : Z;
}.

Section BtcdUtility.
Context `{Text} `{SizeMath} `{EstimateErrors} `{Estimator} `{ChainArchive} `{!BlockArchive}
  `{!ChainInfo} `{!BtcdArchive} `{Peers}.

(** [send_error(error::btcd::...)]. *)
Definition btcd_error (e : BtcdError.error_t) : reply := reply_error (BtcdError.make e) None.
Definition btcd_failed (e : BtcdError.error_t) : handled := replied (btcd_error e).

(** ** Estimates *)

(** A handler replies, or starts an estimate of a horizon in the basic mode. *)
Inductive btcd_reaction :=
  | btcd_replies (h : handled)
  | btcd_estimates (horizon : Z) (mode : mode_t).

Definition handle_estimate_fee (stopped : bool) (numblocks : double) : btcd_reaction :=
  if stopped then btcd_replies (false, [])
  else
    match to_size numblocks with
    | None => btcd_replies (btcd_failed BtcdError.invalid_params)
    | Some target =>
        if (target =? 0) || (maximum_horizon <? target)
        then btcd_replies (btcd_failed BtcdError.invalid_params)
        else btcd_estimates (target - 1) mode_basic
    end.

Definition complete_estimate (stopped : bool) (ec : code) (fee : Z) : list reply :=
  if stopped then []
  else if unavailable ec then [btcd_error BtcdError.misc_error]
  else if is_error ec then [btcd_error BtcdError.internal_error]
  else [reply_value (number_t (PrimFloat.div (to_floating fee) fee_scale))].

(** ** Chain *)

Definition handle_get_best_block (q : archive) (stopped : bool) : handled :=
  if stopped then (false, [])
  else replied (reply_value (object_t
    [("hash", string_t (encode_hash (get_top_confirmed_hash q)));
     ("height", uint64_t (get_top_confirmed q))])).

Definition handle_get_block_chain_info (s : fork_settings) (pruned current : bool) (q : archive)
    (stopped : bool) : handled :=
  if stopped then (false, [])
  else
    match chain_info q s pruned current with
    | None => btcd_failed BtcdError.internal_error
    | Some out => replied (reply_value (object_t out))
    end.

(** [to_integer(uint8_t&, double)] is the argument [to_uint8]; only the basic filter
    type is served. *)
Definition filter_request {A} (to_uint8 : double → option Z) (q : archive) (stopped : bool)
    (hash : string) (filtertype : double) (get : archive → header_link → option A)
    (text : A → string) : handled :=
  if stopped then (false, [])
  else
    match decode_hash hash with
    | None => btcd_failed BtcdError.deserialization_error
    | Some key =>
        let invalid := btcd_failed BtcdError.invalid_address_or_key in
        match to_uint8 filtertype with
        | Some 0 =>
            if negb (filter_enabled q) then invalid
            else
              match get q (to_header q key) with
              | Some value => replied (reply_value (string_t (text value)))
              | None => invalid
              end
        | _ => invalid
        end
    end.

Definition handle_get_cfilter (to_uint8 : double → option Z) (q : archive) (stopped : bool)
    (hash : string) (filtertype : double) : handled :=
  filter_request to_uint8 q stopped hash filtertype get_filter_body encode_base16.

Definition handle_get_cfilter_header (to_uint8 : double → option Z) (q : archive) (stopped : bool)
    (hash : string) (filtertype : double) : handled :=
  filter_request to_uint8 q stopped hash filtertype get_filter_head encode_hash.

Definition handle_get_difficulty (q : archive) (stopped : bool) : handled :=
  if stopped then (false, [])
  else
    match get_header q (to_top_confirmed q) with
    | None => btcd_failed BtcdError.internal_error
    | Some header => replied (reply_value (number_t (difficulty header)))
    end.

(** The loop over the locators: their hashes, unless one is not a hash. *)
Fixpoint read_locator (items : array) : option (list hash_digest) :=
  match items with
  | [] => Some []
  | string_t text :: items =>
      match decode_hash text, read_locator items with
      | Some hash, Some rest => Some (hash :: rest)
      | _, _ => None
      end
  | _ :: _ => None
  end.

Definition handle_get_headers (q : archive) (stopped : bool) (blocklocators : array)
    (hashstop : string) : handled :=
  let invalid := btcd_failed BtcdError.deserialization_error in
  if stopped then (false, [])
  else
    match read_locator blocklocators with
    | None => invalid
    | Some locator =>
        match (if is_empty hashstop then Some null_hash else decode_hash hashstop) with
        | None => invalid
        | Some stop =>
            let headers := get_headers q locator stop max_get_headers in
            replied (reply_value (array_t
              ((λ header, string_t (encode_base16 (header_to_data header))) <$> headers)))
        end
    end.

(** ** Network *)

Definition handle_get_current_net (net : network_settings) (stopped : bool) : handled :=
  if stopped then (false, []) else replied (reply_value (uint32_t (identifier net))).

(** [btcd::version]. *)
Definition btcd_major : Z := 0.
Definition btcd_minor : Z := 26.
Definition btcd_patch : Z := 2.

Definition btcd_version : Z := 1000000 * btcd_major + 10000 * btcd_minor + 100 * btcd_patch.

Definition handle_get_info (net : network_settings) (channel_count : Z) (minimum_fee_rate : double)
    (q : archive) (stopped : bool) : handled :=
  if stopped then (false, [])
  else
    let link := to_top_confirmed q in
    match get_header q link, get_height q link with
    | Some header, Some top =>
        replied (reply_value (object_t
          [("version", uint32_t btcd_version); ("protocolversion", uint32_t (protocol_maximum net));
           ("blocks", uint64_t top); ("timeoffset", int64_t 0); ("connections", uint64_t channel_count);
           ("proxy", string_t (default "" (outbound_socks net)));
           ("difficulty", number_t (difficulty header));
           ("testnet", boolean_t (chain_name q != "main")); ("relayfee", number_t minimum_fee_rate);
           ("errors", string_t "")]))
    | _, _ => btcd_failed BtcdError.internal_error
    end.

Definition handle_get_net_totals (stopped : bool) : bool * list network_action :=
  if stopped then (false, []) else (true, capture_totals).

(** The time is the argument [now]. *)
Definition do_send_net_totals (now : Z) (ec : code) (sent received : Z) : list reply :=
  if is_error ec then [btcd_error BtcdError.internal_error]
  else [reply_value (object_t
    [("totalbytesrecv", uint64_t received); ("totalbytessent", uint64_t sent);
     ("timemillis", int64_t (now * 1000))])].

Definition handle_node (stopped : bool) (subcmd target connectsubcmd : string) :
    bool * list network_action :=
  let invalid := network_reply (btcd_error BtcdError.invalid_parameter) in
  if stopped then (false, [])
  else
    let numeric := deserialize 64 target in
    if subcmd == "connect" then
      if (connectsubcmd != "temp") && (connectsubcmd != "perm") && negb (is_empty connectsubcmd)
      then (true, [invalid])
      else
        match to_endpoint target with
        | Some peer =>
            (true, [network_connect peer (connectsubcmd == "temp"); network_reply (reply_value null_t)])
        | None => (true, [invalid])
        end
    else if (subcmd != "remove") && (subcmd != "disconnect") then (true, [invalid])
    else
      let drop := subcmd == "remove" in
      let reason := if drop then channel_dropped else channel_stopped in
      let absent := BtcdError.make
        (if drop then BtcdError.client_node_not_added else BtcdError.client_node_not_connected) in
      match numeric with
      | Some id => (true, [network_terminate reason id no_endpoint absent])
      | None =>
          match to_endpoint target with
          | Some peer => (true, [network_terminate reason 0 peer absent])
          | None => (true, [network_release absent; invalid])
          end
      end.

(** The completion of a terminator is that of bitcoind, with the codes of btcd. *)
Definition btcd_handle_stopped (stopped : bool) (ec absent : code) : list reply :=
  if stopped then [] else if is_error ec then [reply_error absent None] else [reply_value null_t].

Definition handle_version (stopped : bool) : handled :=
  if stopped then (false, [])
  else replied (reply_value (object_t
    [("btcdjsonrpcapi", object_t
      [("versionstring", string_t "1.3.0"); ("major", int64_t 1); ("minor", int64_t 3);
       ("patch", int64_t 0); ("prerelease", string_t ""); ("buildmetadata", string_t "")])])).

End BtcdUtility.

(** ** Commands of nodes *)

Section Commands.
Context `{Peers}.

(** A command without the code of an absent node, in which the services differ. *)
Definition command_of (a : network_action) : network_action :=
  match a with
  | network_terminate reason id peer _ => network_terminate reason id peer (Error.make Error.success)
  | _ => a
  end.

(** The responses that an action makes: now, or by the completion of a terminator. *)
Definition responses (a : network_action) : nat :=
  match a with
  | network_reply _ | network_terminate _ _ _ _ => 1
  | _ => 0
  end.

Definition answers (actions : list network_action) : nat := sum_list (responses <$> actions).

End Commands.

(** The node commands of the two services are the same. For a text that is an endpoint
    and not a number, the btcd command connects, connects once, removes and disconnects
    exactly as addnode (add, onetry and remove) and disconnectnode do, and for a number
    it terminates the channel that disconnectnode terminates by the same number. Every
    request leads to exactly one reply or broadcast terminator, whose completion replies,
    with the error of an absent node exactly if the termination failed; what the
    completion that a malformed removal releases does is apart ([malformed_removal]). *)
Lemma node_commands_correct `{Text} `{Peers} to_uint64 text peer number id d :
  deserialize 64 text = None → to_endpoint text = Some peer →
  deserialize 64 number = Some id → to_uint64 d = Some id →
  (handle_node false "connect" text "perm" = handle_add_node false text "add" false ∧
   handle_node false "connect" text "temp" = handle_add_node false text "onetry" false ∧
   command_of <$> (handle_node false "remove" text "").2 =
     command_of <$> (handle_add_node false text "remove" false).2 ∧
   command_of <$> (handle_node false "disconnect" text "").2 =
     command_of <$> (handle_disconnect_node to_uint64 false (Some text) None).2 ∧
   command_of <$> (handle_node false "disconnect" number "").2 =
     command_of <$> (handle_disconnect_node to_uint64 false None (Some d)).2) ∧
  (∀ subcmd target connectsubcmd command v2transport address nodeid,
    answers (handle_node false subcmd target connectsubcmd).2 = 1%nat ∧
    answers (handle_add_node false target command v2transport).2 = 1%nat ∧
    answers (handle_disconnect_node to_uint64 false address nodeid).2 = 1%nat) ∧
  (∀ ec absent, let reply := if is_error ec then reply_error absent None else reply_value null_t in
    handle_stopped false ec absent = [reply] ∧ btcd_handle_stopped false ec absent = [reply]).
Proof.
  intros Htext Hpeer Hnumber Hd. split_and!.
  - unfold handle_node, handle_add_node. by rewrite Hpeer.
  - unfold handle_node, handle_add_node. by rewrite Hpeer.
  - unfold handle_node, handle_add_node. simpl. by rewrite Htext, Hpeer.
  - unfold handle_node, handle_disconnect_node. simpl. by rewrite Htext, Hpeer.
  - unfold handle_node, handle_disconnect_node. simpl. by rewrite Hnumber, Hd.
  - intros subcmd target connectsubcmd command v2transport address nodeid.
    unfold handle_node, handle_add_node, handle_disconnect_node. split_and!; by repeat case_match.
  - intros ec absent. unfold handle_stopped, do_send_stopped, btcd_handle_stopped. by destruct (is_error ec).
Qed.

(** ** Examples *)

#[local] Existing Instance reference_text.
#[local] Existing Instance BitcoindNetwork.example_peers.

Lemma node_commands_correct_witness :
  handle_node false "connect" "host" "temp" = handle_add_node false "host" "onetry" false ∧
  (handle_node false "disconnect" "12" "").2 =
    [network_terminate channel_stopped 12 no_endpoint (BtcdError.make BtcdError.client_node_not_connected)].
Proof.
  split; [|reflexivity].
  refine (proj1 (proj2 (proj1 (node_commands_correct (λ _, Some 12) "host" "host" "12" 12 PrimFloat.one
    _ _ _ _)))); reflexivity.
Defined.

(** A removal of a text that is not an endpoint replies, and also releases the completion
    that it has made. If a released completion completes, as that of a capture does
    when its last channel releases it, the response is sent twice, and over http the
    second has no request. *)
Example malformed_removal `{Text} serialize version id http :
  let absent := BitcoindError.make BitcoindError.client_node_not_added in
  let invalid := bitcoind_error BitcoindError.invalid_parameter in
  (handle_add_node false "" "remove" false).2 = [network_release absent; network_reply invalid] ∧
  (c ← fst <$> respond false serialize invalid (Context_ version id (Some http));
   respond false serialize (reply_error absent None) c) = None.
Proof. split; [reflexivity|]. unfold respond, send_error, send_rpc. simpl. by destruct (_ && _). Qed.
