(* ===== verification/BitcoindInterfaces.v ===== *)
(** The interfaces of the bitcoind service: the methods that each subgroup protocol
    serves, with their parameters (src/include/bitcoin/server/interfaces/bitcoind_*.hpp,
    one definition for each file). *)
From S2P Require Import Prelude Rpc System FeeHistogram.

(** The native type of a parameter. *)
Inductive parameter_type :=
  | type_boolean | type_number | type_string | type_array | type_object | type_value.

(** A parameter that is required, that may be null or missing, or that has a default
    ([nullopt] also takes null). *)
Inductive parameter :=
  | Required (type : parameter_type)
  | Nullable (type : parameter_type)
  | Nullopt (default_ : value_t)
  | Optional (default_ : value_t).

(** [method<name, types...>{ names... }], not implemented if it is marked so. *)
Record rpc_method := Method {
  method_name : string;
  implemented : bool;
  rpc_parameters : list (string * parameter);
}.

(** [bitcoind_blockchain_methods]. *)
Definition bitcoind_blockchain_methods : list rpc_method :=
  [Method "getbestblockhash" true [];
   Method "getblock" true [("blockhash", Required type_string);
      ("verbosity", Nullopt (number_t (to_floating 1)))];
   Method "getblockchaininfo" true [];
   Method "getblockcount" true [];
   Method "getblockfilter" true [("blockhash", Required type_string);
      ("filtertype", Nullopt (string_t "basic"))];
   Method "getblockhash" true [("height", Required type_number)];
   Method "getblockheader" true [("blockhash", Required type_string);
      ("verbose", Nullopt (boolean_t true))];
   Method "getblockstats" true [("hash_or_height", Required type_value);
      ("stats", Nullopt (array_t []))];
   Method "getchaintxstats" true [("nblocks", Nullopt (number_t (to_floating (-1))));
      ("blockhash", Nullopt (string_t ""))];
   Method "gettxout" true [("txid", Required type_string); ("n", Required type_number);
      ("include_mempool", Nullopt (boolean_t true))];
   Method "gettxoutsetinfo" true [("hash_type", Nullopt (string_t "hash_serialized_3"));
      ("hash_or_height", Nullopt (null_t)); ("use_index", Nullopt (boolean_t true))];
   Method "pruneblockchain" false [("height", Required type_number)];
   Method "savemempool" true [];
   Method "scantxoutset" true [("action", Required type_string);
      ("scanobjects", Nullopt (array_t []))];
   Method "verifychain" true [("checklevel", Nullopt (number_t (to_floating 3)));
      ("nblocks", Nullopt (number_t (to_floating 6)))];
   Method "dumptxoutset" false [("path", Required type_string); ("type", Nullopt (string_t ""));
      ("options", Nullable type_value)];
   Method "loadtxoutset" false [("path", Required type_string)];
   Method "gettxoutproof" true [("txids", Required type_array);
      ("blockhash", Nullopt (string_t ""))];
   Method "verifytxoutproof" true [("proof", Required type_string)];
   Method "getblockfrompeer" false [("blockhash", Required type_string);
      ("peer_id", Required type_number)];
   Method "getchainstates" true [];
   Method "getchaintips" true [];
   Method "getdeploymentinfo" true [("blockhash", Nullopt (string_t ""))];
   Method "getdescriptoractivity" true [("blockhashes", Nullopt (array_t []));
      ("scanobjects", Nullopt (array_t [])); ("include_mempool", Nullopt (boolean_t true))];
   Method "getdifficulty" true [];
   Method "preciousblock" true [("blockhash", Required type_string)];
   Method "scanblocks" true [("action", Required type_string);
      ("scanobjects", Nullopt (array_t []));
      ("start_height", Nullopt (number_t (to_floating 0)));
      ("stop_height", Nullopt (number_t (to_floating (-1))));
      ("filtertype", Nullopt (string_t "basic")); ("options", Nullopt (object_t []))];
   Method "waitforblock" true [("blockhash", Required type_string);
      ("timeout", Nullopt (number_t (to_floating 0)))];
   Method "waitforblockheight" true [("height", Required type_number);
      ("timeout", Nullopt (number_t (to_floating 0)))];
   Method "waitfornewblock" true [("timeout", Nullopt (number_t (to_floating 0)));
      ("current_tip", Nullopt (string_t ""))];
   Method "getmempoolancestors" true [("txid", Required type_string);
      ("verbose", Nullopt (boolean_t false))];
   Method "getmempoolcluster" false [("txid", Required type_string)];
   Method "getmempooldescendants" true [("txid", Required type_string);
      ("verbose", Nullopt (boolean_t false))];
   Method "getmempoolentry" true [("txid", Required type_string)];
   Method "getmempoolinfo" true [];
   Method "getrawmempool" true [("verbose", Nullopt (boolean_t false));
      ("mempool_sequence", Nullopt (boolean_t false))];
   Method "gettxspendingprevout" true [("outputs", Required type_array);
      ("options", Nullable type_object)];
   Method "importmempool" true [("filepath", Required type_string);
      ("options", Nullable type_object)]].

(** [bitcoind_control_methods]. *)
Definition bitcoind_control_methods : list rpc_method :=
  [Method "help" true [("command", Nullopt (string_t ""))];
   Method "stop" false [("wait", Nullable type_number)];
   Method "getmemoryinfo" true [("mode", Nullopt (string_t "stats"))];
   Method "getopenrpcinfo" true [("show_hidden", Nullopt (boolean_t false))];
   Method "getrpcinfo" true [];
   Method "logging" true [("include", Nullopt (array_t [])); ("exclude", Nullopt (array_t []))];
   Method "uptime" true [];
   Method "rpc.discover" true [("show_hidden", Nullopt (boolean_t false))]].

(** [bitcoind_mining_methods]. *)
Definition bitcoind_mining_methods : list rpc_method :=
  [Method "getnetworkhashps" true [("nblocks", Nullopt (number_t (to_floating 120)));
      ("height", Nullopt (number_t (to_floating (-1))))];
   Method "getmininginfo" true [];
   Method "submitblock" true [("hexdata", Required type_string); ("dummy", Nullopt (string_t ""))];
   Method "submitheader" true [("hexdata", Required type_string)];
   Method "getblocktemplate" false [("template_request", Required type_object)];
   Method "getprioritisedtransactions" false [];
   Method "prioritisetransaction" false [("txid", Required type_string);
      ("dummy", Nullable type_number); ("fee_delta", Nullopt (number_t (to_floating 0)))]].

(** [bitcoind_network_methods]. *)
Definition bitcoind_network_methods : list rpc_method :=
  [Method "getnetworkinfo" true [];
   Method "clearbanned" false [];
   Method "listbanned" false [];
   Method "setban" false [("subnet", Required type_string); ("command", Required type_string);
      ("bantime", Nullopt (number_t (to_floating 0))); ("absolute", Nullopt (boolean_t false))];
   Method "addnode" true [("node", Required type_string); ("command", Required type_string);
      ("v2transport", Nullopt (boolean_t false))];
   Method "disconnectnode" true [("address", Nullable type_string);
      ("nodeid", Nullable type_number)];
   Method "exportasmap" true [("path", Required type_string)];
   Method "getaddednodeinfo" true [("node", Nullable type_string)];
   Method "getaddrmaninfo" true [];
   Method "getconnectioncount" true [];
   Method "getnettotals" true [];
   Method "getnodeaddresses" true [("count", Nullopt (number_t (to_floating 1)));
      ("network", Nullopt (string_t ""))];
   Method "getpeerinfo" true [];
   Method "ping" true [];
   Method "setnetworkactive" true [("state", Required type_boolean)]].

(** [bitcoind_notifications_methods]. *)
Definition bitcoind_notifications_methods : list rpc_method :=
  [Method "getzmqnotifications" true []].

(** [bitcoind_test_methods]. *)
Definition bitcoind_test_methods : list rpc_method :=
  [Method "addconnection" false [("address", Required type_string);
      ("connection_type", Required type_string); ("v2transport", Required type_boolean)];
   Method "addpeeraddress" false [("address", Required type_string);
      ("port", Required type_number); ("tried", Nullopt (boolean_t false))];
   Method "echo" false [("arg0", Nullable type_value); ("arg1", Nullable type_value);
      ("arg2", Nullable type_value); ("arg3", Nullable type_value);
      ("arg4", Nullable type_value); ("arg5", Nullable type_value);
      ("arg6", Nullable type_value); ("arg7", Nullable type_value);
      ("arg8", Nullable type_value); ("arg9", Nullable type_value)];
   Method "echoipc" false [("arg", Required type_string)];
   Method "echojson" false [("arg0", Nullable type_value); ("arg1", Nullable type_value);
      ("arg2", Nullable type_value); ("arg3", Nullable type_value);
      ("arg4", Nullable type_value); ("arg5", Nullable type_value);
      ("arg6", Nullable type_value); ("arg7", Nullable type_value);
      ("arg8", Nullable type_value); ("arg9", Nullable type_value)];
   Method "estimaterawfee" false [("conf_target", Required type_number);
      ("threshold", Nullopt (number_t (PrimFloat.div (to_floating 95) (to_floating 100))))];
   Method "generate" false [];
   Method "generateblock" false [("output", Required type_string);
      ("transactions", Required type_array); ("submit", Nullopt (boolean_t true))];
   Method "generatetoaddress" false [("nblocks", Required type_number);
      ("address", Required type_string); ("maxtries", Nullopt (number_t (to_floating 1000000)))];
   Method "generatetodescriptor" false [("num_blocks", Required type_number);
      ("descriptor", Required type_string); ("maxtries", Nullopt (number_t (to_floating 1000000)))];
   Method "getmempoolfeeratediagram" false [];
   Method "getorphantxs" false [("verbosity", Nullopt (number_t (to_floating 0)))];
   Method "getrawaddrman" false [];
   Method "invalidateblock" false [("blockhash", Required type_string)];
   Method "mockscheduler" false [("delta_time", Required type_number)];
   Method "reconsiderblock" false [("blockhash", Required type_string)];
   Method "sendmsgtopeer" false [("peer_id", Required type_number);
      ("msg_type", Required type_string); ("msg", Required type_string)];
   Method "setmocktime" false [("timestamp", Required type_number)];
   Method "syncwithvalidationinterfacequeue" false []].

(** [bitcoind_transaction_methods]. *)
Definition bitcoind_transaction_methods : list rpc_method :=
  [Method "createrawtransaction" true [("inputs", Required type_array);
      ("outputs", Required type_value); ("locktime", Nullopt (number_t (to_floating 0)));
      ("replaceable", Nullopt (boolean_t true)); ("version", Nullopt (number_t (to_floating 2)))];
   Method "decoderawtransaction" true [("hexstring", Required type_string);
      ("iswitness", Nullable type_boolean)];
   Method "getrawtransaction" true [("txid", Required type_string);
      ("verbosity", Nullopt (number_t (to_floating 0))); ("blockhash", Nullopt (string_t ""))];
   Method "sendrawtransaction" true [("hexstring", Required type_string);
      ("maxfeerate", Nullopt (number_t (PrimFloat.div (to_floating 1) (to_floating 10))));
      ("maxburnamount", Nullopt (number_t (to_floating 0)))];
   Method "testmempoolaccept" true [("rawtxs", Required type_array);
      ("maxfeerate", Nullopt (number_t (PrimFloat.div (to_floating 1) (to_floating 10))))];
   Method "analyzepsbt" true [("psbt", Required type_string)];
   Method "combinepsbt" true [("txs", Required type_array)];
   Method "converttopsbt" true [("hexstring", Required type_string);
      ("permitsigdata", Nullopt (boolean_t false)); ("iswitness", Nullable type_boolean);
      ("psbt_version", Nullopt (number_t (to_floating 2)))];
   Method "createpsbt" true [("inputs", Required type_array); ("outputs", Required type_value);
      ("locktime", Nullopt (number_t (to_floating 0)));
      ("replaceable", Nullopt (boolean_t true)); ("version", Nullopt (number_t (to_floating 2)));
      ("psbt_version", Nullopt (number_t (to_floating 2)))];
   Method "decodepsbt" true [("psbt", Required type_string)];
   Method "finalizepsbt" true [("psbt", Required type_string);
      ("extract", Nullopt (boolean_t true))];
   Method "joinpsbts" true [("txs", Required type_array)];
   Method "descriptorprocesspsbt" false [("psbt", Required type_string);
      ("descriptors", Required type_array); ("sighashtype", Nullable type_string);
      ("bip32derivs", Nullopt (boolean_t true)); ("finalize", Nullopt (boolean_t true))];
   Method "utxoupdatepsbt" true [("psbt", Required type_string);
      ("descriptors", Nullopt (array_t []))];
   Method "abortprivatebroadcast" false [("id", Required type_string)];
   Method "getprivatebroadcastinfo" false [];
   Method "submitpackage" true [("package", Required type_array);
      ("maxfeerate", Nullopt (number_t (PrimFloat.div (to_floating 1) (to_floating 10))));
      ("maxburnamount", Nullopt (number_t (to_floating 0)))];
   Method "combinerawtransaction" true [("txs", Required type_array)];
   Method "signrawtransactionwithkey" false [("hexstring", Required type_string);
      ("privkeys", Required type_array); ("prevtxs", Nullable type_array);
      ("sighashtype", Nullable type_string)]].

(** [bitcoind_utility_methods]. *)
Definition bitcoind_utility_methods : list rpc_method :=
  [Method "decodescript" true [("hexstring", Required type_string)];
   Method "validateaddress" true [("address", Required type_string)];
   Method "createmultisig" true [("nrequired", Required type_number);
      ("keys", Required type_array); ("address_type", Nullopt (string_t "legacy"))];
   Method "deriveaddresses" true [("descriptor", Required type_string);
      ("range", Nullable type_value)];
   Method "getdescriptorinfo" true [("descriptor", Required type_string)];
   Method "verifymessage" true [("address", Required type_string);
      ("signature", Required type_string); ("message", Required type_string)];
   Method "getindexinfo" true [("index_name", Nullopt (string_t ""))];
   Method "estimatesmartfee" true [("conf_target", Required type_number);
      ("estimate_mode", Nullopt (string_t "economical")); ("options", Nullable type_object)];
   Method "signmessagewithprivkey" false [("privkey", Required type_string);
      ("message", Required type_string)]].

(** [bitcoind_wallet_methods]. *)
Definition bitcoind_wallet_methods : list rpc_method :=
  [Method "enumeratesigners" false [];
   Method "abandontransaction" false [("txid", Required type_string)];
   Method "abortrescan" false [];
   Method "addhdkey" false [("hdkey", Nullable type_string)];
   Method "backupwallet" false [("destination", Required type_string)];
   Method "bumpfee" false [("txid", Required type_string); ("options", Nullable type_object)];
   Method "createwallet" false [("wallet_name", Required type_string);
      ("disable_private_keys", Nullopt (boolean_t false)); ("blank", Nullopt (boolean_t false));
      ("passphrase", Nullable type_string); ("avoid_reuse", Nullopt (boolean_t false));
      ("descriptors", Nullopt (boolean_t true)); ("load_on_startup", Nullable type_boolean);
      ("external_signer", Nullopt (boolean_t false))];
   Method "createwalletdescriptor" false [("type", Required type_string);
      ("options", Nullable type_object)];
   Method "encryptwallet" false [("passphrase", Required type_string)];
   Method "exportwatchonlywallet" false [("destination", Required type_string)];
   Method "getaddressesbylabel" false [("label", Required type_string)];
   Method "getaddressinfo" false [("address", Required type_string)];
   Method "getbalance" false [("dummy", Nullable type_string);
      ("minconf", Nullopt (number_t (to_floating 0)));
      ("include_watchonly", Nullopt (boolean_t false)); ("avoid_reuse", Nullopt (boolean_t true))];
   Method "getbalances" false [];
   Method "gethdkeys" false [("options", Nullable type_object)];
   Method "getnewaddress" false [("label", Nullopt (string_t ""));
      ("address_type", Nullable type_string)];
   Method "getrawchangeaddress" false [("address_type", Nullable type_string)];
   Method "getreceivedbyaddress" false [("address", Required type_string);
      ("minconf", Nullopt (number_t (to_floating 1)));
      ("include_immature_coinbase", Nullopt (boolean_t false))];
   Method "getreceivedbylabel" false [("label", Required type_string);
      ("minconf", Nullopt (number_t (to_floating 1)));
      ("include_immature_coinbase", Nullopt (boolean_t false))];
   Method "gettransaction" false [("txid", Required type_string);
      ("include_watchonly", Nullopt (boolean_t false)); ("verbose", Nullopt (boolean_t false))];
   Method "getwalletinfo" false [];
   Method "importdescriptors" false [("requests", Required type_array)];
   Method "importprunedfunds" false [("rawtransaction", Required type_string);
      ("txoutproof", Required type_string)];
   Method "keypoolrefill" false [("newsize", Nullable type_number)];
   Method "listaddressgroupings" false [];
   Method "listdescriptors" false [("private", Nullopt (boolean_t false))];
   Method "listlabels" false [("purpose", Nullable type_string)];
   Method "listlockunspent" false [];
   Method "listreceivedbyaddress" false [("minconf", Nullopt (number_t (to_floating 1)));
      ("include_empty", Nullopt (boolean_t false));
      ("include_watchonly", Nullopt (boolean_t false)); ("address_filter", Nullable type_string);
      ("include_immature_coinbase", Nullopt (boolean_t false))];
   Method "listreceivedbylabel" false [("minconf", Nullopt (number_t (to_floating 1)));
      ("include_empty", Nullopt (boolean_t false));
      ("include_watchonly", Nullopt (boolean_t false));
      ("include_immature_coinbase", Nullopt (boolean_t false))];
   Method "listsinceblock" false [("blockhash", Nullable type_string);
      ("target_confirmations", Nullopt (number_t (to_floating 1)));
      ("include_watchonly", Nullopt (boolean_t false));
      ("include_removed", Nullopt (boolean_t true));
      ("include_change", Nullopt (boolean_t false)); ("label", Nullable type_string)];
   Method "listtransactions" false [("label", Nullable type_string);
      ("count", Nullopt (number_t (to_floating 10)));
      ("skip", Nullopt (number_t (to_floating 0)));
      ("include_watchonly", Nullopt (boolean_t false))];
   Method "listunspent" false [("minconf", Nullopt (number_t (to_floating 1)));
      ("maxconf", Nullopt (number_t (to_floating 9999999))); ("addresses", Nullopt (array_t []));
      ("include_unsafe", Nullopt (boolean_t true)); ("query_options", Nullable type_object)];
   Method "listwalletdir" false [];
   Method "listwallets" false [];
   Method "loadwallet" false [("filename", Required type_string);
      ("load_on_startup", Nullable type_boolean)];
   Method "lockunspent" false [("unlock", Required type_boolean);
      ("transactions", Nullopt (array_t [])); ("persistent", Nullopt (boolean_t false))];
   Method "migratewallet" false [("wallet_name", Nullable type_string);
      ("passphrase", Nullable type_string); ("load_wallet", Nullopt (boolean_t true))];
   Method "psbtbumpfee" false [("txid", Required type_string); ("options", Nullable type_object)];
   Method "removeprunedfunds" false [("txid", Required type_string)];
   Method "rescanblockchain" false [("start_height", Nullopt (number_t (to_floating 0)));
      ("stop_height", Nullable type_number)];
   Method "restorewallet" false [("wallet_name", Required type_string);
      ("backup_file", Required type_string); ("load_on_startup", Nullable type_boolean)];
   Method "send" false [("outputs", Required type_value); ("conf_target", Nullable type_number);
      ("estimate_mode", Nullopt (string_t "unset")); ("fee_rate", Nullable type_number);
      ("options", Nullable type_object); ("version", Nullopt (number_t (to_floating 2)))];
   Method "sendall" false [("recipients", Required type_array);
      ("conf_target", Nullable type_number); ("estimate_mode", Nullopt (string_t "unset"));
      ("fee_rate", Nullable type_number); ("options", Nullable type_object)];
   Method "sendmany" false [("dummy", Nullopt (string_t "")); ("amounts", Nullopt (object_t []));
      ("minconf", Nullable type_number); ("comment", Nullable type_string);
      ("subtractfeefrom", Nullable type_array); ("replaceable", Nullable type_boolean);
      ("conf_target", Nullable type_number); ("estimate_mode", Nullopt (string_t "unset"));
      ("fee_rate", Nullable type_number); ("verbose", Nullopt (boolean_t false))];
   Method "sendtoaddress" false [("address", Required type_string);
      ("amount", Required type_number); ("comment", Nullable type_string);
      ("comment_to", Nullable type_string); ("subtractfeefromamount", Nullopt (boolean_t false));
      ("replaceable", Nullable type_boolean); ("conf_target", Nullable type_number);
      ("estimate_mode", Nullopt (string_t "unset")); ("avoid_reuse", Nullopt (boolean_t true));
      ("fee_rate", Nullable type_number); ("verbose", Nullopt (boolean_t false))];
   Method "setlabel" false [("address", Required type_string); ("label", Required type_string)];
   Method "setwalletflag" false [("flag", Required type_string);
      ("value", Nullopt (boolean_t true))];
   Method "signmessage" false [("address", Required type_string);
      ("message", Required type_string)];
   Method "signrawtransactionwithwallet" false [("hexstring", Required type_string);
      ("prevtxs", Nullable type_array); ("sighashtype", Nullable type_string)];
   Method "simulaterawtransaction" false [("rawtxs", Nullable type_array);
      ("options", Nullable type_object)];
   Method "unloadwallet" false [("wallet_name", Nullable type_string);
      ("load_on_startup", Nullable type_boolean)];
   Method "walletcreatefundedpsbt" false [("inputs", Nullable type_array);
      ("outputs", Nullopt (null_t)); ("locktime", Nullopt (number_t (to_floating 0)));
      ("options", Nullable type_object); ("bip32derivs", Nullopt (boolean_t true));
      ("version", Nullopt (number_t (to_floating 2)));
      ("psbt_version", Nullopt (number_t (to_floating 2)))];
   Method "walletdisplayaddress" false [("address", Required type_string)];
   Method "walletlock" false [];
   Method "walletpassphrase" false [("passphrase", Required type_string);
      ("timeout", Required type_number)];
   Method "walletpassphrasechange" false [("oldpassphrase", Required type_string);
      ("newpassphrase", Required type_string)];
   Method "walletprocesspsbt" false [("psbt", Required type_string);
      ("sign", Nullopt (boolean_t true)); ("sighashtype", Nullable type_string);
      ("bip32derivs", Nullopt (boolean_t true)); ("finalize", Nullopt (boolean_t true))]].

(** The interfaces, in the order in which they are searched. *)
Definition bitcoind_interfaces : list (list rpc_method) :=
  [bitcoind_blockchain_methods; bitcoind_control_methods; bitcoind_mining_methods;
   bitcoind_network_methods; bitcoind_notifications_methods; bitcoind_test_methods;
   bitcoind_transaction_methods; bitcoind_utility_methods; bitcoind_wallet_methods].

(** No method is of two interfaces, or twice of one, and no method has two parameters of
    one name. *)
Lemma interface_names_distinct : NoDup (method_name <$> concat bitcoind_interfaces).
Proof. apply (bool_decide_unpack _). vm_compute. exact I. Qed.

Lemma parameter_names_distinct :
  Forall (λ m, NoDup (rpc_parameters m).*1) (concat bitcoind_interfaces).
Proof. apply (bool_decide_unpack _). vm_compute. exact I. Qed.
