(* ===== verification/Subscriptions.v ===== *)
(** The methods that each protocol publishes, the handlers that it declares for them, and
    those that its [start] subscribes (src/include/bitcoin/server/interfaces,
    src/include/bitcoin/server/protocols and src/protocols): one definition for each
    list of a file. *)
From S2P Require Import Prelude Rpc BitcoindInterfaces.

(** ** Tables *)

(** The types of values. *)
Inductive value_type :=
  | boolean | number | text | array | object | value | uint8 | uint32 | uint64 | hash.

#[global] Instance value_type_eq : EqDecision value_type.
Proof. solve_decision. Defined.

(** A parameter is required ([Given]), may be missing or null ([Nullable]), or has a
    default if it is missing ([Optional]), or also if it is null ([Nullopt]). *)
Inductive published_parameter :=
  | Given (type : value_type)
  | Nullable (type : value_type)
  | Optional (type : value_type)
  | Nullopt (type : value_type).

(** A method by the alias of its type and by its name, and whether it is implemented. *)
Record published := Published {
  alias : string;
  name : string;
  implemented : bool;
  parameters : list published_parameter;
}.

(** An argument of a handler, after the code and the type of the method. *)
Inductive argument := By_value (type : value_type) | By_optional (type : value_type).

Record handler := Handler {
  handler_name : string;
  handled : string;
  arguments : list argument;
}.

(** A subscribed handler, with the number of the placeholders that it is bound with. *)
Abbreviation subscription := (string * nat)%type.

Record rpc_protocol := Protocol {
  methods : list published;
  handlers : list handler;
  subscriptions : list subscription;
}.

(** ** Protocols *)

(** *** admin *)

Definition admin_published : list published :=
  [Published "log_subscribe" "log_subscribe" true [Given uint8; Optional uint64];
   Published "event_subscribe" "event_subscribe" true [Given uint8; Optional uint64]].

Definition admin_handlers : list handler :=
  [Handler "handle_get_log_subscribe" "log_subscribe" [By_value uint8; By_value uint64];
   Handler "handle_get_event_subscribe" "event_subscribe" [By_value uint8; By_value uint64]].

Definition admin_subscriptions : list subscription :=
  [("handle_get_log_subscribe", 4%nat); ("handle_get_event_subscribe", 4%nat)].

Definition admin_protocol : rpc_protocol :=
  Protocol admin_published admin_handlers admin_subscriptions.

(** *** bitcoind blockchain *)

Definition blockchain_published : list published :=
  [Published "get_best_block_hash" "getbestblockhash" true [];
   Published "get_block" "getblock" true [Given text; Nullopt number];
   Published "get_block_chain_info" "getblockchaininfo" true [];
   Published "get_block_count" "getblockcount" true [];
   Published "get_block_filter" "getblockfilter" true [Given text; Nullopt text];
   Published "get_block_hash" "getblockhash" true [Given number];
   Published "get_block_header" "getblockheader" true [Given text; Nullopt boolean];
   Published "get_block_stats" "getblockstats" true [Given value; Nullopt array];
   Published "get_chain_tx_stats" "getchaintxstats" true [Nullopt number; Nullopt text];
   Published "get_tx_out" "gettxout" true [Given text; Given number; Nullopt boolean];
   Published "get_tx_out_set_info" "gettxoutsetinfo" true [Nullopt text; Nullopt value; Nullopt boolean];
   Published "prune_block_chain" "pruneblockchain" false [Given number];
   Published "save_mempool" "savemempool" true [];
   Published "scan_tx_out_set" "scantxoutset" true [Given text; Nullopt array];
   Published "verify_chain" "verifychain" true [Nullopt number; Nullopt number];
   Published "dump_tx_out_set" "dumptxoutset" false [Given text; Nullopt text; Nullable value];
   Published "load_tx_out_set" "loadtxoutset" false [Given text];
   Published "get_tx_out_proof" "gettxoutproof" true [Given array; Nullopt text];
   Published "verify_tx_out_proof" "verifytxoutproof" true [Given text];
   Published "get_block_from_peer" "getblockfrompeer" false [Given text; Given number];
   Published "get_chain_states" "getchainstates" true [];
   Published "get_chain_tips" "getchaintips" true [];
   Published "get_deployment_info" "getdeploymentinfo" true [Nullopt text];
   Published "get_descriptor_activity" "getdescriptoractivity" true [Nullopt array; Nullopt array; Nullopt boolean];
   Published "get_difficulty" "getdifficulty" true [];
   Published "precious_block" "preciousblock" true [Given text];
   Published "scan_blocks" "scanblocks" true [Given text; Nullopt array; Nullopt number; Nullopt number; Nullopt text; Nullopt object];
   Published "wait_for_block" "waitforblock" true [Given text; Nullopt number];
   Published "wait_for_block_height" "waitforblockheight" true [Given number; Nullopt number];
   Published "wait_for_new_block" "waitfornewblock" true [Nullopt number; Nullopt text];
   Published "get_mempool_ancestors" "getmempoolancestors" true [Given text; Nullopt boolean];
   Published "get_mempool_cluster" "getmempoolcluster" false [Given text];
   Published "get_mempool_descendants" "getmempooldescendants" true [Given text; Nullopt boolean];
   Published "get_mempool_entry" "getmempoolentry" true [Given text];
   Published "get_mempool_info" "getmempoolinfo" true [];
   Published "get_raw_mempool" "getrawmempool" true [Nullopt boolean; Nullopt boolean];
   Published "get_tx_spending_prevout" "gettxspendingprevout" true [Given array; Nullable object];
   Published "import_mempool" "importmempool" true [Given text; Nullable object]].

Definition blockchain_handlers : list handler :=
  [Handler "handle_get_best_block_hash" "get_best_block_hash" [];
   Handler "handle_get_block" "get_block" [By_value text; By_value number];
   Handler "handle_get_block_chain_info" "get_block_chain_info" [];
   Handler "handle_get_block_count" "get_block_count" [];
   Handler "handle_get_block_filter" "get_block_filter" [By_value text; By_value text];
   Handler "handle_get_block_hash" "get_block_hash" [By_value number];
   Handler "handle_get_block_header" "get_block_header" [By_value text; By_value boolean];
   Handler "handle_get_block_stats" "get_block_stats" [By_value value; By_value array];
   Handler "handle_get_chain_tx_stats" "get_chain_tx_stats" [By_value number; By_value text];
   Handler "handle_get_tx_out" "get_tx_out" [By_value text; By_value number; By_value boolean];
   Handler "handle_get_tx_out_set_info" "get_tx_out_set_info" [By_value text; By_value value; By_value boolean];
   Handler "handle_prune_block_chain" "prune_block_chain" [By_value number];
   Handler "handle_save_mempool" "save_mempool" [];
   Handler "handle_scan_tx_out_set" "scan_tx_out_set" [By_value text; By_value array];
   Handler "handle_verify_chain" "verify_chain" [By_value number; By_value number];
   Handler "handle_dump_tx_out_set" "dump_tx_out_set" [];
   Handler "handle_load_tx_out_set" "load_tx_out_set" [];
   Handler "handle_get_tx_out_proof" "get_tx_out_proof" [By_value array; By_value text];
   Handler "handle_verify_tx_out_proof" "verify_tx_out_proof" [By_value text];
   Handler "handle_get_block_from_peer" "get_block_from_peer" [];
   Handler "handle_get_chain_states" "get_chain_states" [];
   Handler "handle_get_chain_tips" "get_chain_tips" [];
   Handler "handle_get_deployment_info" "get_deployment_info" [By_value text];
   Handler "handle_get_descriptor_activity" "get_descriptor_activity" [By_value array; By_value array; By_value boolean];
   Handler "handle_get_difficulty" "get_difficulty" [];
   Handler "handle_precious_block" "precious_block" [By_value text];
   Handler "handle_scan_blocks" "scan_blocks" [By_value text; By_value array; By_value number; By_value number; By_value text; By_value object];
   Handler "handle_wait_for_block" "wait_for_block" [By_value text; By_value number];
   Handler "handle_wait_for_block_height" "wait_for_block_height" [By_value number; By_value number];
   Handler "handle_wait_for_new_block" "wait_for_new_block" [By_value number; By_value text];
   Handler "handle_get_mempool_ancestors" "get_mempool_ancestors" [By_value text; By_value boolean];
   Handler "handle_get_mempool_cluster" "get_mempool_cluster" [];
   Handler "handle_get_mempool_descendants" "get_mempool_descendants" [By_value text; By_value boolean];
   Handler "handle_get_mempool_entry" "get_mempool_entry" [By_value text];
   Handler "handle_get_mempool_info" "get_mempool_info" [];
   Handler "handle_get_raw_mempool" "get_raw_mempool" [By_value boolean; By_value boolean];
   Handler "handle_get_tx_spending_prevout" "get_tx_spending_prevout" [By_value array; By_optional object];
   Handler "handle_import_mempool" "import_mempool" [By_value text; By_optional object]].

Definition blockchain_subscriptions : list subscription :=
  [("handle_get_best_block_hash", 2%nat); ("handle_get_block", 4%nat);
   ("handle_get_block_chain_info", 2%nat); ("handle_get_block_count", 2%nat);
   ("handle_get_block_filter", 4%nat); ("handle_get_block_hash", 3%nat);
   ("handle_get_block_header", 4%nat); ("handle_get_block_stats", 4%nat);
   ("handle_get_chain_tx_stats", 4%nat); ("handle_get_tx_out", 5%nat);
   ("handle_get_tx_out_set_info", 5%nat); ("handle_prune_block_chain", 3%nat);
   ("handle_save_mempool", 2%nat); ("handle_scan_tx_out_set", 4%nat);
   ("handle_verify_chain", 4%nat); ("handle_dump_tx_out_set", 2%nat);
   ("handle_load_tx_out_set", 2%nat); ("handle_get_tx_out_proof", 4%nat);
   ("handle_verify_tx_out_proof", 3%nat); ("handle_get_block_from_peer", 2%nat);
   ("handle_get_chain_states", 2%nat); ("handle_get_chain_tips", 2%nat);
   ("handle_get_deployment_info", 3%nat); ("handle_get_descriptor_activity", 5%nat);
   ("handle_get_difficulty", 2%nat); ("handle_precious_block", 3%nat);
   ("handle_scan_blocks", 8%nat); ("handle_wait_for_block", 4%nat);
   ("handle_wait_for_block_height", 4%nat); ("handle_wait_for_new_block", 4%nat);
   ("handle_get_mempool_ancestors", 4%nat); ("handle_get_mempool_cluster", 2%nat);
   ("handle_get_mempool_descendants", 4%nat); ("handle_get_mempool_entry", 3%nat);
   ("handle_get_mempool_info", 2%nat); ("handle_get_raw_mempool", 4%nat);
   ("handle_get_tx_spending_prevout", 4%nat); ("handle_import_mempool", 4%nat)].

Definition blockchain_protocol : rpc_protocol :=
  Protocol blockchain_published blockchain_handlers blockchain_subscriptions.

(** *** bitcoind control *)

Definition control_published : list published :=
  [Published "help" "help" true [Nullopt text]; Published "stop" "stop" false [Nullable number];
   Published "get_memory_info" "getmemoryinfo" true [Nullopt text];
   Published "get_openrpc_info" "getopenrpcinfo" true [Nullopt boolean];
   Published "get_rpc_info" "getrpcinfo" true [];
   Published "logging" "logging" true [Nullopt array; Nullopt array];
   Published "uptime" "uptime" true [];
   Published "rpc_discover" "rpc.discover" true [Nullopt boolean]].

Definition control_handlers : list handler :=
  [Handler "handle_help" "help" [By_value text]; Handler "handle_stop" "stop" [];
   Handler "handle_get_memory_info" "get_memory_info" [By_value text];
   Handler "handle_get_openrpc_info" "get_openrpc_info" [By_value boolean];
   Handler "handle_get_rpc_info" "get_rpc_info" [];
   Handler "handle_logging" "logging" [By_value array; By_value array];
   Handler "handle_uptime" "uptime" [];
   Handler "handle_rpc_discover" "rpc_discover" [By_value boolean]].

Definition control_subscriptions : list subscription :=
  [("handle_help", 3%nat); ("handle_stop", 2%nat); ("handle_get_memory_info", 3%nat);
   ("handle_get_openrpc_info", 3%nat); ("handle_get_rpc_info", 2%nat); ("handle_logging", 4%nat);
   ("handle_uptime", 2%nat); ("handle_rpc_discover", 3%nat)].

Definition control_protocol : rpc_protocol :=
  Protocol control_published control_handlers control_subscriptions.

(** *** bitcoind mining *)

Definition mining_published : list published :=
  [Published "get_network_hash_ps" "getnetworkhashps" true [Nullopt number; Nullopt number];
   Published "get_mining_info" "getmininginfo" true [];
   Published "submit_block" "submitblock" true [Given text; Nullopt text];
   Published "submit_header" "submitheader" true [Given text];
   Published "get_block_template" "getblocktemplate" false [Given object];
   Published "get_prioritised_transactions" "getprioritisedtransactions" false [];
   Published "prioritise_transaction" "prioritisetransaction" false [Given text; Nullable number; Nullopt number]].

Definition mining_handlers : list handler :=
  [Handler "handle_get_network_hash_ps" "get_network_hash_ps" [By_value number; By_value number];
   Handler "handle_get_mining_info" "get_mining_info" [];
   Handler "handle_submit_block" "submit_block" [By_value text; By_value text];
   Handler "handle_submit_header" "submit_header" [By_value text];
   Handler "handle_get_block_template" "get_block_template" [];
   Handler "handle_get_prioritised_transactions" "get_prioritised_transactions" [];
   Handler "handle_prioritise_transaction" "prioritise_transaction" []].

Definition mining_subscriptions : list subscription :=
  [("handle_get_network_hash_ps", 4%nat); ("handle_get_mining_info", 2%nat);
   ("handle_submit_block", 4%nat); ("handle_submit_header", 3%nat);
   ("handle_get_block_template", 2%nat); ("handle_get_prioritised_transactions", 2%nat);
   ("handle_prioritise_transaction", 2%nat)].

Definition mining_protocol : rpc_protocol :=
  Protocol mining_published mining_handlers mining_subscriptions.

(** *** bitcoind network *)

Definition network_published : list published :=
  [Published "get_network_info" "getnetworkinfo" true [];
   Published "clear_banned" "clearbanned" false []; Published "list_banned" "listbanned" false [];
   Published "set_ban" "setban" false [Given text; Given text; Nullopt number; Nullopt boolean];
   Published "add_node" "addnode" true [Given text; Given text; Nullopt boolean];
   Published "disconnect_node" "disconnectnode" true [Nullable text; Nullable number];
   Published "export_asmap" "exportasmap" true [Given text];
   Published "get_added_node_info" "getaddednodeinfo" true [Nullable text];
   Published "get_addrman_info" "getaddrmaninfo" true [];
   Published "get_connection_count" "getconnectioncount" true [];
   Published "get_net_totals" "getnettotals" true [];
   Published "get_node_addresses" "getnodeaddresses" true [Nullopt number; Nullopt text];
   Published "get_peer_info" "getpeerinfo" true []; Published "ping" "ping" true [];
   Published "set_network_active" "setnetworkactive" true [Given boolean]].

Definition network_handlers : list handler :=
  [Handler "handle_get_network_info" "get_network_info" [];
   Handler "handle_clear_banned" "clear_banned" []; Handler "handle_list_banned" "list_banned" [];
   Handler "handle_set_ban" "set_ban" [];
   Handler "handle_add_node" "add_node" [By_value text; By_value text; By_value boolean];
   Handler "handle_disconnect_node" "disconnect_node" [By_optional text; By_optional number];
   Handler "handle_export_asmap" "export_asmap" [By_value text];
   Handler "handle_get_added_node_info" "get_added_node_info" [By_optional text];
   Handler "handle_get_addrman_info" "get_addrman_info" [];
   Handler "handle_get_node_addresses" "get_node_addresses" [By_value number; By_value text];
   Handler "handle_ping" "ping" [];
   Handler "handle_set_network_active" "set_network_active" [By_value boolean];
   Handler "handle_get_connection_count" "get_connection_count" [];
   Handler "handle_get_net_totals" "get_net_totals" [];
   Handler "handle_get_peer_info" "get_peer_info" []].

Definition network_subscriptions : list subscription :=
  [("handle_get_network_info", 2%nat); ("handle_clear_banned", 2%nat);
   ("handle_list_banned", 2%nat); ("handle_set_ban", 2%nat); ("handle_add_node", 5%nat);
   ("handle_disconnect_node", 4%nat); ("handle_export_asmap", 3%nat);
   ("handle_get_added_node_info", 3%nat); ("handle_get_addrman_info", 2%nat);
   ("handle_get_connection_count", 2%nat); ("handle_get_net_totals", 2%nat);
   ("handle_get_node_addresses", 4%nat); ("handle_get_peer_info", 2%nat); ("handle_ping", 2%nat);
   ("handle_set_network_active", 3%nat)].

Definition network_protocol : rpc_protocol :=
  Protocol network_published network_handlers network_subscriptions.

(** *** bitcoind notifications *)

Definition notifications_published : list published :=
  [Published "get_zmq_notifications" "getzmqnotifications" true []].

Definition notifications_handlers : list handler :=
  [Handler "handle_get_zmq_notifications" "get_zmq_notifications" []].

Definition notifications_subscriptions : list subscription :=
  [("handle_get_zmq_notifications", 2%nat)].

Definition notifications_protocol : rpc_protocol :=
  Protocol notifications_published notifications_handlers notifications_subscriptions.

(** *** bitcoind rest *)

Definition rest_published : list published :=
  [Published "block" "block" true [Given uint8; Given hash];
   Published "block_hash" "block_hash" true [Given uint8; Given uint32];
   Published "block_txs" "block_txs" true [Given uint8; Given hash];
   Published "block_headers" "block_headers" true [Given uint8; Given hash; Given uint32];
   Published "block_part" "block_part" true [Given uint8; Given hash; Given uint32; Given uint32];
   Published "block_spent_tx_outputs" "block_spent_tx_outputs" true [Given uint8; Given hash];
   Published "block_filter" "block_filter" true [Given uint8; Given hash; Given uint8];
   Published "block_filter_headers" "block_filter_headers" true [Given uint8; Given hash; Given uint8; Given uint32];
   Published "get_utxos" "get_utxos" true [Given uint8; Given array; Nullopt boolean];
   Published "mempool" "mempool" true [Nullopt boolean; Nullopt boolean];
   Published "chain_information" "chain_information" true [];
   Published "mempool_information" "mempool_information" true [];
   Published "fork_information" "fork_information" true [Nullable hash];
   Published "tx" "tx" true [Given uint8; Given hash];
   Published "deployment_info" "deployment_info" true [Nullable hash]].

Definition rest_handlers : list handler :=
  [Handler "handle_get_block" "block" [By_value uint8; By_value hash];
   Handler "handle_get_tx" "tx" [By_value uint8; By_value hash];
   Handler "handle_get_block_hash" "block_hash" [By_value uint8; By_value uint32];
   Handler "handle_get_block_txs" "block_txs" [By_value uint8; By_value hash];
   Handler "handle_get_block_headers" "block_headers" [By_value uint8; By_value hash; By_value uint32];
   Handler "handle_get_block_part" "block_part" [By_value uint8; By_value hash; By_value uint32; By_value uint32];
   Handler "handle_get_block_spent_tx_outputs" "block_spent_tx_outputs" [By_value uint8; By_value hash];
   Handler "handle_get_block_filter" "block_filter" [By_value uint8; By_value hash; By_value uint8];
   Handler "handle_get_block_filter_headers" "block_filter_headers" [By_value uint8; By_value hash; By_value uint8; By_value uint32];
   Handler "handle_get_chain_information" "chain_information" [];
   Handler "handle_get_utxos" "get_utxos" [By_value uint8; By_value array; By_value boolean];
   Handler "handle_get_mempool" "mempool" [By_value boolean; By_value boolean];
   Handler "handle_get_mempool_information" "mempool_information" [];
   Handler "handle_get_deployment_info" "deployment_info" [By_optional hash]].

Definition rest_subscriptions : list subscription :=
  [("handle_get_block", 4%nat); ("handle_get_block_hash", 4%nat); ("handle_get_block_txs", 4%nat);
   ("handle_get_block_headers", 5%nat); ("handle_get_block_part", 6%nat);
   ("handle_get_block_spent_tx_outputs", 4%nat); ("handle_get_block_filter", 5%nat);
   ("handle_get_block_filter_headers", 6%nat); ("handle_get_chain_information", 2%nat);
   ("handle_get_tx", 4%nat); ("handle_get_utxos", 5%nat); ("handle_get_mempool", 4%nat);
   ("handle_get_mempool_information", 2%nat); ("handle_get_deployment_info", 3%nat)].

Definition rest_protocol : rpc_protocol :=
  Protocol rest_published rest_handlers rest_subscriptions.

(** *** bitcoind test *)

Definition test_methods_published : list published :=
  [Published "add_connection" "addconnection" false [Given text; Given text; Given boolean];
   Published "add_peer_address" "addpeeraddress" false [Given text; Given number; Nullopt boolean];
   Published "echo" "echo" false [Nullable value; Nullable value; Nullable value; Nullable value; Nullable value; Nullable value; Nullable value; Nullable value; Nullable value; Nullable value];
   Published "echo_ipc" "echoipc" false [Given text];
   Published "echo_json" "echojson" false [Nullable value; Nullable value; Nullable value; Nullable value; Nullable value; Nullable value; Nullable value; Nullable value; Nullable value; Nullable value];
   Published "estimate_raw_fee" "estimaterawfee" false [Given number; Nullopt number];
   Published "generate" "generate" false [];
   Published "generate_block" "generateblock" false [Given text; Given array; Nullopt boolean];
   Published "generate_to_address" "generatetoaddress" false [Given number; Given text; Nullopt number];
   Published "generate_to_descriptor" "generatetodescriptor" false [Given number; Given text; Nullopt number];
   Published "get_mempool_fee_rate_diagram" "getmempoolfeeratediagram" false [];
   Published "get_orphan_txs" "getorphantxs" false [Nullopt number];
   Published "get_raw_addrman" "getrawaddrman" false [];
   Published "invalidate_block" "invalidateblock" false [Given text];
   Published "mock_scheduler" "mockscheduler" false [Given number];
   Published "reconsider_block" "reconsiderblock" false [Given text];
   Published "send_msg_to_peer" "sendmsgtopeer" false [Given number; Given text; Given text];
   Published "set_mock_time" "setmocktime" false [Given number];
   Published "sync_with_validation_interface_queue" "syncwithvalidationinterfacequeue" false []].

Definition test_methods_handlers : list handler :=
  [Handler "handle_add_connection" "add_connection" [];
   Handler "handle_add_peer_address" "add_peer_address" []; Handler "handle_echo" "echo" [];
   Handler "handle_echo_ipc" "echo_ipc" []; Handler "handle_echo_json" "echo_json" [];
   Handler "handle_estimate_raw_fee" "estimate_raw_fee" [];
   Handler "handle_generate" "generate" []; Handler "handle_generate_block" "generate_block" [];
   Handler "handle_generate_to_address" "generate_to_address" [];
   Handler "handle_generate_to_descriptor" "generate_to_descriptor" [];
   Handler "handle_get_mempool_fee_rate_diagram" "get_mempool_fee_rate_diagram" [];
   Handler "handle_get_orphan_txs" "get_orphan_txs" [];
   Handler "handle_get_raw_addrman" "get_raw_addrman" [];
   Handler "handle_invalidate_block" "invalidate_block" [];
   Handler "handle_mock_scheduler" "mock_scheduler" [];
   Handler "handle_reconsider_block" "reconsider_block" [];
   Handler "handle_send_msg_to_peer" "send_msg_to_peer" [];
   Handler "handle_set_mock_time" "set_mock_time" [];
   Handler "handle_sync_with_validation_interface_queue" "sync_with_validation_interface_queue" []].

Definition test_methods_subscriptions : list subscription :=
  [("handle_add_connection", 2%nat); ("handle_add_peer_address", 2%nat); ("handle_echo", 2%nat);
   ("handle_echo_ipc", 2%nat); ("handle_echo_json", 2%nat); ("handle_estimate_raw_fee", 2%nat);
   ("handle_generate", 2%nat); ("handle_generate_block", 2%nat);
   ("handle_generate_to_address", 2%nat); ("handle_generate_to_descriptor", 2%nat);
   ("handle_get_mempool_fee_rate_diagram", 2%nat); ("handle_get_orphan_txs", 2%nat);
   ("handle_get_raw_addrman", 2%nat); ("handle_invalidate_block", 2%nat);
   ("handle_mock_scheduler", 2%nat); ("handle_reconsider_block", 2%nat);
   ("handle_send_msg_to_peer", 2%nat); ("handle_set_mock_time", 2%nat);
   ("handle_sync_with_validation_interface_queue", 2%nat)].

Definition test_methods_protocol : rpc_protocol :=
  Protocol test_methods_published test_methods_handlers test_methods_subscriptions.

(** *** bitcoind transaction *)

Definition transaction_published : list published :=
  [Published "create_raw_transaction" "createrawtransaction" true [Given array; Given value; Nullopt number; Nullopt boolean; Nullopt number];
   Published "decode_raw_transaction" "decoderawtransaction" true [Given text; Nullable boolean];
   Published "get_raw_transaction" "getrawtransaction" true [Given text; Nullopt number; Nullopt text];
   Published "send_raw_transaction" "sendrawtransaction" true [Given text; Nullopt number; Nullopt number];
   Published "test_mempool_accept" "testmempoolaccept" true [Given array; Nullopt number];
   Published "analyze_psbt" "analyzepsbt" true [Given text];
   Published "combine_psbt" "combinepsbt" true [Given array];
   Published "convert_to_psbt" "converttopsbt" true [Given text; Nullopt boolean; Nullable boolean; Nullopt number];
   Published "create_psbt" "createpsbt" true [Given array; Given value; Nullopt number; Nullopt boolean; Nullopt number; Nullopt number];
   Published "decode_psbt" "decodepsbt" true [Given text];
   Published "finalize_psbt" "finalizepsbt" true [Given text; Nullopt boolean];
   Published "join_psbts" "joinpsbts" true [Given array];
   Published "descriptor_process_psbt" "descriptorprocesspsbt" false [Given text; Given array; Nullable text; Nullopt boolean; Nullopt boolean];
   Published "utxo_update_psbt" "utxoupdatepsbt" true [Given text; Nullopt array];
   Published "abort_private_broadcast" "abortprivatebroadcast" false [Given text];
   Published "get_private_broadcast_info" "getprivatebroadcastinfo" false [];
   Published "submit_package" "submitpackage" true [Given array; Nullopt number; Nullopt number];
   Published "combine_raw_transaction" "combinerawtransaction" true [Given array];
   Published "sign_raw_transaction_with_key" "signrawtransactionwithkey" false [Given text; Given array; Nullable array; Nullable text]].

Definition transaction_handlers_1 : list handler :=
  [Handler "handle_create_raw_transaction" "create_raw_transaction" [By_value array; By_value value; By_value number; By_value boolean; By_value number];
   Handler "handle_decode_raw_transaction" "decode_raw_transaction" [By_value text; By_optional boolean];
   Handler "handle_get_raw_transaction" "get_raw_transaction" [By_value text; By_value number; By_value text];
   Handler "handle_send_raw_transaction" "send_raw_transaction" [By_value text; By_value number; By_value number];
   Handler "handle_test_mempool_accept" "test_mempool_accept" [By_value array; By_value number];
   Handler "handle_analyze_psbt" "analyze_psbt" [By_value text];
   Handler "handle_combine_psbt" "combine_psbt" [By_value array];
   Handler "handle_convert_to_psbt" "convert_to_psbt" [By_value text; By_value boolean; By_optional boolean; By_value number];
   Handler "handle_create_psbt" "create_psbt" [By_value array; By_value value; By_value number; By_value boolean; By_value number; By_value number];
   Handler "handle_decode_psbt" "decode_psbt" [By_value text];
   Handler "handle_finalize_psbt" "finalize_psbt" [By_value text; By_value boolean];
   Handler "handle_join_psbts" "join_psbts" [By_value array];
   Handler "handle_descriptor_process_psbt" "descriptor_process_psbt" [];
   Handler "handle_utxo_update_psbt" "utxo_update_psbt" [By_value text; By_value array]].

Definition transaction_handlers_2 : list handler :=
  [Handler "handle_abort_private_broadcast" "abort_private_broadcast" [];
   Handler "handle_get_private_broadcast_info" "get_private_broadcast_info" [];
   Handler "handle_submit_package" "submit_package" [By_value array; By_value number; By_value number];
   Handler "handle_combine_raw_transaction" "combine_raw_transaction" [By_value array];
   Handler "handle_sign_raw_transaction_with_key" "sign_raw_transaction_with_key" []].

Definition transaction_subscriptions : list subscription :=
  [("handle_create_raw_transaction", 7%nat); ("handle_decode_raw_transaction", 4%nat);
   ("handle_get_raw_transaction", 5%nat); ("handle_send_raw_transaction", 5%nat);
   ("handle_test_mempool_accept", 4%nat); ("handle_analyze_psbt", 3%nat);
   ("handle_combine_psbt", 3%nat); ("handle_convert_to_psbt", 6%nat);
   ("handle_create_psbt", 8%nat); ("handle_decode_psbt", 3%nat); ("handle_finalize_psbt", 4%nat);
   ("handle_join_psbts", 3%nat); ("handle_descriptor_process_psbt", 2%nat);
   ("handle_utxo_update_psbt", 4%nat); ("handle_abort_private_broadcast", 2%nat);
   ("handle_get_private_broadcast_info", 2%nat); ("handle_submit_package", 5%nat);
   ("handle_combine_raw_transaction", 3%nat); ("handle_sign_raw_transaction_with_key", 2%nat)].

Definition transaction_protocol : rpc_protocol :=
  Protocol transaction_published (transaction_handlers_1 ++ transaction_handlers_2)%list transaction_subscriptions.

(** *** bitcoind utility *)

Definition utility_published : list published :=
  [Published "decode_script" "decodescript" true [Given text];
   Published "validate_address" "validateaddress" true [Given text];
   Published "create_multisig" "createmultisig" true [Given number; Given array; Nullopt text];
   Published "derive_addresses" "deriveaddresses" true [Given text; Nullable value];
   Published "get_descriptor_info" "getdescriptorinfo" true [Given text];
   Published "verify_message" "verifymessage" true [Given text; Given text; Given text];
   Published "get_index_info" "getindexinfo" true [Nullopt text];
   Published "estimate_smart_fee" "estimatesmartfee" true [Given number; Nullopt text; Nullable object];
   Published "sign_message_with_priv_key" "signmessagewithprivkey" false [Given text; Given text]].

Definition utility_handlers : list handler :=
  [Handler "handle_decode_script" "decode_script" [By_value text];
   Handler "handle_validate_address" "validate_address" [By_value text];
   Handler "handle_create_multisig" "create_multisig" [By_value number; By_value array; By_value text];
   Handler "handle_derive_addresses" "derive_addresses" [By_value text; By_optional value];
   Handler "handle_get_descriptor_info" "get_descriptor_info" [By_value text];
   Handler "handle_verify_message" "verify_message" [By_value text; By_value text; By_value text];
   Handler "handle_get_index_info" "get_index_info" [By_value text];
   Handler "handle_estimate_smart_fee" "estimate_smart_fee" [By_value number; By_value text; By_optional object];
   Handler "handle_sign_message_with_priv_key" "sign_message_with_priv_key" []].

Definition utility_subscriptions : list subscription :=
  [("handle_decode_script", 3%nat); ("handle_validate_address", 3%nat);
   ("handle_create_multisig", 5%nat); ("handle_derive_addresses", 4%nat);
   ("handle_get_descriptor_info", 3%nat); ("handle_verify_message", 5%nat);
   ("handle_get_index_info", 3%nat); ("handle_estimate_smart_fee", 5%nat);
   ("handle_sign_message_with_priv_key", 2%nat)].

Definition utility_protocol : rpc_protocol :=
  Protocol utility_published utility_handlers utility_subscriptions.

(** *** bitcoind wallet *)

Definition wallet_published : list published :=
  [Published "enumerate_signers" "enumeratesigners" false [];
   Published "abandon_transaction" "abandontransaction" false [Given text];
   Published "abort_rescan" "abortrescan" false [];
   Published "add_hd_key" "addhdkey" false [Nullable text];
   Published "backup_wallet" "backupwallet" false [Given text];
   Published "bump_fee" "bumpfee" false [Given text; Nullable object];
   Published "create_wallet" "createwallet" false [Given text; Nullopt boolean; Nullopt boolean; Nullable text; Nullopt boolean; Nullopt boolean; Nullable boolean; Nullopt boolean];
   Published "create_wallet_descriptor" "createwalletdescriptor" false [Given text; Nullable object];
   Published "encrypt_wallet" "encryptwallet" false [Given text];
   Published "export_watchonly_wallet" "exportwatchonlywallet" false [Given text];
   Published "get_addresses_by_label" "getaddressesbylabel" false [Given text];
   Published "get_address_info" "getaddressinfo" false [Given text];
   Published "get_balance" "getbalance" false [Nullable text; Nullopt number; Nullopt boolean; Nullopt boolean];
   Published "get_balances" "getbalances" false [];
   Published "get_hd_keys" "gethdkeys" false [Nullable object];
   Published "get_new_address" "getnewaddress" false [Nullopt text; Nullable text];
   Published "get_raw_change_address" "getrawchangeaddress" false [Nullable text];
   Published "get_received_by_address" "getreceivedbyaddress" false [Given text; Nullopt number; Nullopt boolean];
   Published "get_received_by_label" "getreceivedbylabel" false [Given text; Nullopt number; Nullopt boolean];
   Published "get_transaction" "gettransaction" false [Given text; Nullopt boolean; Nullopt boolean];
   Published "get_wallet_info" "getwalletinfo" false [];
   Published "import_descriptors" "importdescriptors" false [Given array];
   Published "import_pruned_funds" "importprunedfunds" false [Given text; Given text];
   Published "keypool_refill" "keypoolrefill" false [Nullable number];
   Published "list_address_groupings" "listaddressgroupings" false [];
   Published "list_descriptors" "listdescriptors" false [Nullopt boolean];
   Published "list_labels" "listlabels" false [Nullable text];
   Published "list_lock_unspent" "listlockunspent" false [];
   Published "list_received_by_address" "listreceivedbyaddress" false [Nullopt number; Nullopt boolean; Nullopt boolean; Nullable text; Nullopt boolean];
   Published "list_received_by_label" "listreceivedbylabel" false [Nullopt number; Nullopt boolean; Nullopt boolean; Nullopt boolean];
   Published "list_since_block" "listsinceblock" false [Nullable text; Nullopt number; Nullopt boolean; Nullopt boolean; Nullopt boolean; Nullable text];
   Published "list_transactions" "listtransactions" false [Nullable text; Nullopt number; Nullopt number; Nullopt boolean];
   Published "list_unspent" "listunspent" false [Nullopt number; Nullopt number; Nullopt array; Nullopt boolean; Nullable object];
   Published "list_wallet_dir" "listwalletdir" false [];
   Published "list_wallets" "listwallets" false [];
   Published "load_wallet" "loadwallet" false [Given text; Nullable boolean];
   Published "lock_unspent" "lockunspent" false [Given boolean; Nullopt array; Nullopt boolean];
   Published "migrate_wallet" "migratewallet" false [Nullable text; Nullable text; Nullopt boolean];
   Published "psbt_bump_fee" "psbtbumpfee" false [Given text; Nullable object];
   Published "remove_pruned_funds" "removeprunedfunds" false [Given text];
   Published "rescan_block_chain" "rescanblockchain" false [Nullopt number; Nullable number];
   Published "restore_wallet" "restorewallet" false [Given text; Given text; Nullable boolean];
   Published "send" "send" false [Given value; Nullable number; Nullopt text; Nullable number; Nullable object; Nullopt number];
   Published "send_all" "sendall" false [Given array; Nullable number; Nullopt text; Nullable number; Nullable object];
   Published "send_many" "sendmany" false [Nullopt text; Nullopt object; Nullable number; Nullable text; Nullable array; Nullable boolean; Nullable number; Nullopt text; Nullable number; Nullopt boolean];
   Published "send_to_address" "sendtoaddress" false [Given text; Given number; Nullable text; Nullable text; Nullopt boolean; Nullable boolean; Nullable number; Nullopt text; Nullopt boolean; Nullable number; Nullopt boolean];
   Published "set_label" "setlabel" false [Given text; Given text];
   Published "set_wallet_flag" "setwalletflag" false [Given text; Nullopt boolean];
   Published "sign_message" "signmessage" false [Given text; Given text];
   Published "sign_raw_transaction_with_wallet" "signrawtransactionwithwallet" false [Given text; Nullable array; Nullable text];
   Published "simulate_raw_transaction" "simulaterawtransaction" false [Nullable array; Nullable object];
   Published "unload_wallet" "unloadwallet" false [Nullable text; Nullable boolean];
   Published "wallet_create_funded_psbt" "walletcreatefundedpsbt" false [Nullable array; Nullopt value; Nullopt number; Nullable object; Nullopt boolean; Nullopt number; Nullopt number];
   Published "wallet_display_address" "walletdisplayaddress" false [Given text];
   Published "wallet_lock" "walletlock" false [];
   Published "wallet_passphrase" "walletpassphrase" false [Given text; Given number];
   Published "wallet_passphrase_change" "walletpassphrasechange" false [Given text; Given text];
   Published "wallet_process_psbt" "walletprocesspsbt" false [Given text; Nullopt boolean; Nullable text; Nullopt boolean; Nullopt boolean]].

Definition wallet_handlers : list handler :=
  [Handler "handle_enumerate_signers" "enumerate_signers" [];
   Handler "handle_abandon_transaction" "abandon_transaction" [];
   Handler "handle_abort_rescan" "abort_rescan" []; Handler "handle_add_hd_key" "add_hd_key" [];
   Handler "handle_backup_wallet" "backup_wallet" []; Handler "handle_bump_fee" "bump_fee" [];
   Handler "handle_create_wallet" "create_wallet" [];
   Handler "handle_create_wallet_descriptor" "create_wallet_descriptor" [];
   Handler "handle_encrypt_wallet" "encrypt_wallet" [];
   Handler "handle_export_watchonly_wallet" "export_watchonly_wallet" [];
   Handler "handle_get_addresses_by_label" "get_addresses_by_label" [];
   Handler "handle_get_address_info" "get_address_info" [];
   Handler "handle_get_balance" "get_balance" []; Handler "handle_get_balances" "get_balances" [];
   Handler "handle_get_hd_keys" "get_hd_keys" [];
   Handler "handle_get_new_address" "get_new_address" [];
   Handler "handle_get_raw_change_address" "get_raw_change_address" [];
   Handler "handle_get_received_by_address" "get_received_by_address" [];
   Handler "handle_get_received_by_label" "get_received_by_label" [];
   Handler "handle_get_transaction" "get_transaction" [];
   Handler "handle_get_wallet_info" "get_wallet_info" [];
   Handler "handle_import_descriptors" "import_descriptors" [];
   Handler "handle_import_pruned_funds" "import_pruned_funds" [];
   Handler "handle_keypool_refill" "keypool_refill" [];
   Handler "handle_list_address_groupings" "list_address_groupings" [];
   Handler "handle_list_descriptors" "list_descriptors" [];
   Handler "handle_list_labels" "list_labels" [];
   Handler "handle_list_lock_unspent" "list_lock_unspent" [];
   Handler "handle_list_received_by_address" "list_received_by_address" [];
   Handler "handle_list_received_by_label" "list_received_by_label" [];
   Handler "handle_list_since_block" "list_since_block" [];
   Handler "handle_list_transactions" "list_transactions" [];
   Handler "handle_list_unspent" "list_unspent" [];
   Handler "handle_list_wallet_dir" "list_wallet_dir" [];
   Handler "handle_list_wallets" "list_wallets" []; Handler "handle_load_wallet" "load_wallet" [];
   Handler "handle_lock_unspent" "lock_unspent" [];
   Handler "handle_migrate_wallet" "migrate_wallet" [];
   Handler "handle_psbt_bump_fee" "psbt_bump_fee" [];
   Handler "handle_remove_pruned_funds" "remove_pruned_funds" [];
   Handler "handle_rescan_block_chain" "rescan_block_chain" [];
   Handler "handle_restore_wallet" "restore_wallet" []; Handler "handle_wallet_send" "send" [];
   Handler "handle_send_all" "send_all" []; Handler "handle_send_many" "send_many" [];
   Handler "handle_send_to_address" "send_to_address" [];
   Handler "handle_set_label" "set_label" [];
   Handler "handle_set_wallet_flag" "set_wallet_flag" [];
   Handler "handle_sign_message" "sign_message" [];
   Handler "handle_sign_raw_transaction_with_wallet" "sign_raw_transaction_with_wallet" [];
   Handler "handle_simulate_raw_transaction" "simulate_raw_transaction" [];
   Handler "handle_unload_wallet" "unload_wallet" [];
   Handler "handle_wallet_create_funded_psbt" "wallet_create_funded_psbt" [];
   Handler "handle_wallet_display_address" "wallet_display_address" [];
   Handler "handle_wallet_lock" "wallet_lock" [];
   Handler "handle_wallet_passphrase" "wallet_passphrase" [];
   Handler "handle_wallet_passphrase_change" "wallet_passphrase_change" [];
   Handler "handle_wallet_process_psbt" "wallet_process_psbt" []].

Definition wallet_subscriptions : list subscription :=
  [("handle_enumerate_signers", 2%nat); ("handle_abandon_transaction", 2%nat);
   ("handle_abort_rescan", 2%nat); ("handle_add_hd_key", 2%nat); ("handle_backup_wallet", 2%nat);
   ("handle_bump_fee", 2%nat); ("handle_create_wallet", 2%nat);
   ("handle_create_wallet_descriptor", 2%nat); ("handle_encrypt_wallet", 2%nat);
   ("handle_export_watchonly_wallet", 2%nat); ("handle_get_addresses_by_label", 2%nat);
   ("handle_get_address_info", 2%nat); ("handle_get_balance", 2%nat);
   ("handle_get_balances", 2%nat); ("handle_get_hd_keys", 2%nat);
   ("handle_get_new_address", 2%nat); ("handle_get_raw_change_address", 2%nat);
   ("handle_get_received_by_address", 2%nat); ("handle_get_received_by_label", 2%nat);
   ("handle_get_transaction", 2%nat); ("handle_get_wallet_info", 2%nat);
   ("handle_import_descriptors", 2%nat); ("handle_import_pruned_funds", 2%nat);
   ("handle_keypool_refill", 2%nat); ("handle_list_address_groupings", 2%nat);
   ("handle_list_descriptors", 2%nat); ("handle_list_labels", 2%nat);
   ("handle_list_lock_unspent", 2%nat); ("handle_list_received_by_address", 2%nat);
   ("handle_list_received_by_label", 2%nat); ("handle_list_since_block", 2%nat);
   ("handle_list_transactions", 2%nat); ("handle_list_unspent", 2%nat);
   ("handle_list_wallet_dir", 2%nat); ("handle_list_wallets", 2%nat);
   ("handle_load_wallet", 2%nat); ("handle_lock_unspent", 2%nat); ("handle_migrate_wallet", 2%nat);
   ("handle_psbt_bump_fee", 2%nat); ("handle_remove_pruned_funds", 2%nat);
   ("handle_rescan_block_chain", 2%nat); ("handle_restore_wallet", 2%nat);
   ("handle_wallet_send", 2%nat); ("handle_send_all", 2%nat); ("handle_send_many", 2%nat);
   ("handle_send_to_address", 2%nat); ("handle_set_label", 2%nat);
   ("handle_set_wallet_flag", 2%nat); ("handle_sign_message", 2%nat);
   ("handle_sign_raw_transaction_with_wallet", 2%nat); ("handle_simulate_raw_transaction", 2%nat);
   ("handle_unload_wallet", 2%nat); ("handle_wallet_create_funded_psbt", 2%nat);
   ("handle_wallet_display_address", 2%nat); ("handle_wallet_lock", 2%nat);
   ("handle_wallet_passphrase", 2%nat); ("handle_wallet_passphrase_change", 2%nat);
   ("handle_wallet_process_psbt", 2%nat)].

Definition wallet_protocol : rpc_protocol :=
  Protocol wallet_published wallet_handlers wallet_subscriptions.

(** *** btcd *)

Definition btcd_published : list published :=
  [Published "authenticate" "authenticate" true [Given text; Given text];
   Published "node" "node" true [Given text; Given text; Nullopt text];
   Published "session" "session" true [];
   Published "estimate_fee" "estimatefee" true [Given number];
   Published "get_best_block" "getbestblock" true [];
   Published "get_block_chain_info" "getblockchaininfo" true [];
   Published "get_cfilter" "getcfilter" true [Given text; Given number];
   Published "get_cfilter_header" "getcfilterheader" true [Given text; Given number];
   Published "get_current_net" "getcurrentnet" true [];
   Published "get_difficulty" "getdifficulty" true [];
   Published "get_headers" "getheaders" true [Given array; Given text];
   Published "get_info" "getinfo" true []; Published "get_net_totals" "getnettotals" true [];
   Published "search_raw_transactions" "searchrawtransactions" true [Given text; Nullopt number; Nullopt number; Nullopt number; Nullopt number; Nullopt boolean; Nullopt array];
   Published "version" "version" true []; Published "notify_blocks" "notifyblocks" true [];
   Published "stop_notify_blocks" "stopnotifyblocks" true [];
   Published "notify_new_transactions" "notifynewtransactions" true [Nullopt boolean];
   Published "stop_notify_new_transactions" "stopnotifynewtransactions" true [];
   Published "load_tx_filter" "loadtxfilter" true [Given boolean; Given value; Given value];
   Published "rescan_blocks" "rescanblocks" true [Given value];
   Published "notify_received" "notifyreceived" true [Given value];
   Published "stop_notify_received" "stopnotifyreceived" true [Given value];
   Published "notify_spent" "notifyspent" true [Given value];
   Published "stop_notify_spent" "stopnotifyspent" true [Given value];
   Published "rescan" "rescan" true [Given text; Given value; Given value; Nullopt text]].

Definition btcd_handlers_1 : list handler :=
  [Handler "handle_authenticate" "authenticate" [By_value text; By_value text];
   Handler "handle_session" "session" [];
   Handler "handle_estimate_fee" "estimate_fee" [By_value number];
   Handler "handle_get_best_block" "get_best_block" [];
   Handler "handle_get_block_chain_info" "get_block_chain_info" [];
   Handler "handle_get_cfilter" "get_cfilter" [By_value text; By_value number];
   Handler "handle_get_cfilter_header" "get_cfilter_header" [By_value text; By_value number];
   Handler "handle_get_current_net" "get_current_net" [];
   Handler "handle_get_difficulty" "get_difficulty" [];
   Handler "handle_get_headers" "get_headers" [By_value array; By_value text];
   Handler "handle_get_info" "get_info" []; Handler "handle_get_net_totals" "get_net_totals" []].

Definition btcd_handlers_2 : list handler :=
  [Handler "handle_node" "node" [By_value text; By_value text; By_value text]].

Definition btcd_handlers_3 : list handler :=
  [Handler "handle_search_raw_transactions" "search_raw_transactions" [By_value text; By_value number; By_value number; By_value number; By_value number; By_value boolean; By_value array];
   Handler "handle_version" "version" []; Handler "handle_notify_blocks" "notify_blocks" [];
   Handler "handle_stop_notify_blocks" "stop_notify_blocks" [];
   Handler "handle_notify_new_transactions" "notify_new_transactions" [By_value boolean];
   Handler "handle_stop_notify_new_transactions" "stop_notify_new_transactions" [];
   Handler "handle_load_tx_filter" "load_tx_filter" [By_value boolean; By_value value; By_value value];
   Handler "handle_rescan_blocks" "rescan_blocks" [By_value value];
   Handler "handle_notify_received" "notify_received" [By_value value];
   Handler "handle_stop_notify_received" "stop_notify_received" [By_value value];
   Handler "handle_notify_spent" "notify_spent" [By_value value];
   Handler "handle_stop_notify_spent" "stop_notify_spent" [By_value value];
   Handler "handle_rescan" "rescan" [By_value text; By_value value; By_value value; By_value text]].

Definition btcd_subscriptions : list subscription :=
  [("handle_authenticate", 4%nat); ("handle_session", 2%nat); ("handle_estimate_fee", 3%nat);
   ("handle_get_best_block", 2%nat); ("handle_get_block_chain_info", 2%nat);
   ("handle_get_cfilter", 4%nat); ("handle_get_cfilter_header", 4%nat);
   ("handle_get_current_net", 2%nat); ("handle_get_difficulty", 2%nat);
   ("handle_get_headers", 4%nat); ("handle_get_info", 2%nat); ("handle_get_net_totals", 2%nat);
   ("handle_node", 5%nat); ("handle_search_raw_transactions", 9%nat); ("handle_version", 2%nat);
   ("handle_notify_blocks", 2%nat); ("handle_stop_notify_blocks", 2%nat);
   ("handle_notify_new_transactions", 3%nat); ("handle_stop_notify_new_transactions", 2%nat);
   ("handle_load_tx_filter", 5%nat); ("handle_rescan_blocks", 3%nat);
   ("handle_notify_received", 3%nat); ("handle_stop_notify_received", 3%nat);
   ("handle_notify_spent", 3%nat); ("handle_stop_notify_spent", 3%nat); ("handle_rescan", 6%nat)].

Definition btcd_protocol : rpc_protocol :=
  Protocol btcd_published (btcd_handlers_1 ++ btcd_handlers_2 ++ btcd_handlers_3)%list btcd_subscriptions.

(** *** electrum *)

Definition electrum_published : list published :=
  [Published "blockchain_number_of_blocks_subscribe" "blockchain.numblocks.subscribe" true [];
   Published "blockchain_block_get_chunk" "blockchain.block.get_chunk" true [Given number];
   Published "blockchain_block_get_header" "blockchain.block.get_header" true [Given number];
   Published "blockchain_block_header" "blockchain.block.header" true [Given number; Optional number];
   Published "blockchain_block_headers" "blockchain.block.headers" true [Given number; Given number; Optional number];
   Published "blockchain_headers_subscribe" "blockchain.headers.subscribe" true [Optional boolean];
   Published "blockchain_estimate_fee" "blockchain.estimatefee" true [Given number; Optional text];
   Published "blockchain_relay_fee" "blockchain.relayfee" true [];
   Published "blockchain_utxo_get_address" "blockchain.utxo.get_address" true [Given text; Given number];
   Published "blockchain_outpoint_get_status" "blockchain.outpoint.get_status" true [Given text; Given number; Optional text];
   Published "blockchain_outpoint_subscribe" "blockchain.outpoint.subscribe" true [Given text; Given number; Optional text];
   Published "blockchain_outpoint_unsubscribe" "blockchain.outpoint.unsubscribe" true [Given text; Given number];
   Published "blockchain_address_get_balance" "blockchain.address.get_balance" true [Given text];
   Published "blockchain_address_get_history" "blockchain.address.get_history" true [Given text];
   Published "blockchain_address_get_mempool" "blockchain.address.get_mempool" true [Given text];
   Published "blockchain_address_list_unspent" "blockchain.address.listunspent" true [Given text];
   Published "blockchain_address_subscribe" "blockchain.address.subscribe" true [Given text];
   Published "blockchain_scripthash_get_balance" "blockchain.scripthash.get_balance" true [Given text];
   Published "blockchain_scripthash_get_history" "blockchain.scripthash.get_history" true [Given text];
   Published "blockchain_scripthash_get_mempool" "blockchain.scripthash.get_mempool" true [Given text];
   Published "blockchain_scripthash_list_unspent" "blockchain.scripthash.listunspent" true [Given text];
   Published "blockchain_scripthash_subscribe" "blockchain.scripthash.subscribe" true [Given text];
   Published "blockchain_scripthash_unsubscribe" "blockchain.scripthash.unsubscribe" true [Given text];
   Published "blockchain_scriptpubkey_get_balance" "blockchain.scriptpubkey.get_balance" true [Given text];
   Published "blockchain_scriptpubkey_get_history" "blockchain.scriptpubkey.get_history" true [Given text];
   Published "blockchain_scriptpubkey_get_mempool" "blockchain.scriptpubkey.get_mempool" true [Given text];
   Published "blockchain_scriptpubkey_list_unspent" "blockchain.scriptpubkey.listunspent" true [Given text];
   Published "blockchain_scriptpubkey_subscribe" "blockchain.scriptpubkey.subscribe" true [Given text];
   Published "blockchain_scriptpubkey_unsubscribe" "blockchain.scriptpubkey.unsubscribe" true [Given text];
   Published "blockchain_transaction_broadcast" "blockchain.transaction.broadcast" true [Given text];
   Published "blockchain_transaction_broadcast_package" "blockchain.transaction.broadcast_package" true [Given value; Optional boolean];
   Published "blockchain_transaction_get" "blockchain.transaction.get" true [Given text; Optional boolean];
   Published "blockchain_transaction_get_merkle" "blockchain.transaction.get_merkle" true [Given text; Given number];
   Published "blockchain_transaction_id_from_position" "blockchain.transaction.id_from_pos" true [Given number; Given number; Optional boolean];
   Published "blockchain_transaction_testmempoolaccept" "blockchain.transaction.testmempoolaccept" true [Given value];
   Published "server_add_peer" "server.add_peer" true [Given object];
   Published "server_banner" "server.banner" true [];
   Published "server_donation_address" "server.donation_address" true [];
   Published "server_features" "server.features" true [];
   Published "server_peers_subscribe" "server.peers.subscribe" true [];
   Published "server_ping" "server.ping" true [Optional number; Optional text];
   Published "mempool_get_fee_histogram" "mempool.get_fee_histogram" true [];
   Published "mempool_get_info" "mempool.get_info" true [];
   Published "mempool_recent" "mempool.recent" true []].

Definition electrum_handlers : list handler :=
  [Handler "handle_blockchain_number_of_blocks_subscribe" "blockchain_number_of_blocks_subscribe" [];
   Handler "handle_blockchain_block_get_chunk" "blockchain_block_get_chunk" [By_value number];
   Handler "handle_blockchain_block_get_header" "blockchain_block_get_header" [By_value number];
   Handler "handle_blockchain_block_header" "blockchain_block_header" [By_value number; By_value number];
   Handler "handle_blockchain_block_headers" "blockchain_block_headers" [By_value number; By_value number; By_value number];
   Handler "handle_blockchain_headers_subscribe" "blockchain_headers_subscribe" [By_value boolean];
   Handler "handle_blockchain_estimate_fee" "blockchain_estimate_fee" [By_value number; By_value text];
   Handler "handle_blockchain_relay_fee" "blockchain_relay_fee" [];
   Handler "handle_blockchain_utxo_get_address" "blockchain_utxo_get_address" [By_value text; By_value number];
   Handler "handle_blockchain_outpoint_get_status" "blockchain_outpoint_get_status" [By_value text; By_value number; By_value text];
   Handler "handle_blockchain_outpoint_subscribe" "blockchain_outpoint_subscribe" [By_value text; By_value number; By_value text];
   Handler "handle_blockchain_outpoint_unsubscribe" "blockchain_outpoint_unsubscribe" [By_value text; By_value number];
   Handler "handle_blockchain_address_get_balance" "blockchain_address_get_balance" [By_value text];
   Handler "handle_blockchain_address_get_history" "blockchain_address_get_history" [By_value text];
   Handler "handle_blockchain_address_get_mempool" "blockchain_address_get_mempool" [By_value text];
   Handler "handle_blockchain_address_list_unspent" "blockchain_address_list_unspent" [By_value text];
   Handler "handle_blockchain_address_subscribe" "blockchain_address_subscribe" [By_value text];
   Handler "handle_blockchain_scripthash_get_balance" "blockchain_scripthash_get_balance" [By_value text];
   Handler "handle_blockchain_scripthash_get_history" "blockchain_scripthash_get_history" [By_value text];
   Handler "handle_blockchain_scripthash_get_mempool" "blockchain_scripthash_get_mempool" [By_value text];
   Handler "handle_blockchain_scripthash_list_unspent" "blockchain_scripthash_list_unspent" [By_value text];
   Handler "handle_blockchain_scripthash_subscribe" "blockchain_scripthash_subscribe" [By_value text];
   Handler "handle_blockchain_scripthash_unsubscribe" "blockchain_scripthash_unsubscribe" [By_value text];
   Handler "handle_blockchain_scriptpubkey_get_balance" "blockchain_scriptpubkey_get_balance" [By_value text];
   Handler "handle_blockchain_scriptpubkey_get_history" "blockchain_scriptpubkey_get_history" [By_value text];
   Handler "handle_blockchain_scriptpubkey_get_mempool" "blockchain_scriptpubkey_get_mempool" [By_value text];
   Handler "handle_blockchain_scriptpubkey_list_unspent" "blockchain_scriptpubkey_list_unspent" [By_value text];
   Handler "handle_blockchain_scriptpubkey_subscribe" "blockchain_scriptpubkey_subscribe" [By_value text];
   Handler "handle_blockchain_scriptpubkey_unsubscribe" "blockchain_scriptpubkey_unsubscribe" [By_value text];
   Handler "handle_blockchain_transaction_broadcast" "blockchain_transaction_broadcast" [By_value text];
   Handler "handle_blockchain_transaction_broadcast_package" "blockchain_transaction_broadcast_package" [By_value value; By_value boolean];
   Handler "handle_blockchain_transaction_get" "blockchain_transaction_get" [By_value text; By_value boolean];
   Handler "handle_blockchain_transaction_get_merkle" "blockchain_transaction_get_merkle" [By_value text; By_value number];
   Handler "handle_blockchain_transaction_testmempoolaccept" "blockchain_transaction_testmempoolaccept" [By_value value];
   Handler "handle_blockchain_transaction_id_from_position" "blockchain_transaction_id_from_position" [By_value number; By_value number; By_value boolean];
   Handler "handle_server_add_peer" "server_add_peer" [By_value object];
   Handler "handle_server_banner" "server_banner" [];
   Handler "handle_server_donation_address" "server_donation_address" [];
   Handler "handle_server_features" "server_features" [];
   Handler "handle_server_peers_subscribe" "server_peers_subscribe" [];
   Handler "handle_server_ping" "server_ping" [By_value number; By_value text];
   Handler "handle_mempool_get_fee_histogram" "mempool_get_fee_histogram" [];
   Handler "handle_mempool_recent" "mempool_recent" [];
   Handler "handle_mempool_get_info" "mempool_get_info" []].

Definition electrum_subscriptions : list subscription :=
  [("handle_blockchain_number_of_blocks_subscribe", 2%nat);
   ("handle_blockchain_block_get_chunk", 3%nat); ("handle_blockchain_block_get_header", 3%nat);
   ("handle_blockchain_block_header", 4%nat); ("handle_blockchain_block_headers", 5%nat);
   ("handle_blockchain_headers_subscribe", 3%nat); ("handle_blockchain_estimate_fee", 4%nat);
   ("handle_blockchain_relay_fee", 2%nat); ("handle_blockchain_utxo_get_address", 4%nat);
   ("handle_blockchain_outpoint_get_status", 5%nat);
   ("handle_blockchain_outpoint_subscribe", 5%nat);
   ("handle_blockchain_outpoint_unsubscribe", 4%nat);
   ("handle_blockchain_address_get_balance", 3%nat);
   ("handle_blockchain_address_get_history", 3%nat);
   ("handle_blockchain_address_get_mempool", 3%nat);
   ("handle_blockchain_address_list_unspent", 3%nat);
   ("handle_blockchain_address_subscribe", 3%nat);
   ("handle_blockchain_scripthash_get_balance", 3%nat);
   ("handle_blockchain_scripthash_get_history", 3%nat);
   ("handle_blockchain_scripthash_get_mempool", 3%nat);
   ("handle_blockchain_scripthash_list_unspent", 3%nat);
   ("handle_blockchain_scripthash_subscribe", 3%nat);
   ("handle_blockchain_scripthash_unsubscribe", 3%nat);
   ("handle_blockchain_scriptpubkey_get_balance", 3%nat);
   ("handle_blockchain_scriptpubkey_get_history", 3%nat);
   ("handle_blockchain_scriptpubkey_get_mempool", 3%nat);
   ("handle_blockchain_scriptpubkey_list_unspent", 3%nat);
   ("handle_blockchain_scriptpubkey_subscribe", 3%nat);
   ("handle_blockchain_scriptpubkey_unsubscribe", 3%nat);
   ("handle_blockchain_transaction_broadcast", 3%nat);
   ("handle_blockchain_transaction_broadcast_package", 4%nat);
   ("handle_blockchain_transaction_get", 4%nat);
   ("handle_blockchain_transaction_get_merkle", 4%nat);
   ("handle_blockchain_transaction_id_from_position", 5%nat);
   ("handle_blockchain_transaction_testmempoolaccept", 3%nat); ("handle_server_add_peer", 3%nat);
   ("handle_server_banner", 2%nat); ("handle_server_donation_address", 2%nat);
   ("handle_server_features", 2%nat); ("handle_server_peers_subscribe", 2%nat);
   ("handle_server_ping", 4%nat); ("handle_mempool_get_fee_histogram", 2%nat);
   ("handle_mempool_get_info", 2%nat); ("handle_mempool_recent", 2%nat)].

Definition electrum_protocol : rpc_protocol :=
  Protocol electrum_published electrum_handlers electrum_subscriptions.

(** *** electrum handshake *)

Definition electrum_handshake_published : list published :=
  [Published "server_version" "server.version" true [Optional text; Optional value]].

Definition electrum_handshake_handlers : list handler :=
  [Handler "handle_server_version" "server_version" [By_value text; By_value value]].

Definition electrum_handshake_subscriptions : list subscription :=
  [("handle_server_version", 4%nat)].

Definition electrum_handshake_protocol : rpc_protocol :=
  Protocol electrum_handshake_published electrum_handshake_handlers electrum_handshake_subscriptions.

(** *** esplora *)

Definition esplora_published : list published :=
  [Published "tx" "tx" true [Given uint8; Given hash];
   Published "tx_status" "tx_status" true [Given uint8; Given hash];
   Published "tx_merkleblock_proof" "tx_merkleblock_proof" true [Given uint8; Given hash];
   Published "tx_merkle_proof" "tx_merkle_proof" true [Given uint8; Given hash];
   Published "tx_outspend" "tx_outspend" true [Given uint8; Given hash; Given uint32];
   Published "tx_outspends" "tx_outspends" true [Given uint8; Given hash];
   Published "broadcast" "broadcast" true [Given uint8; Given text];
   Published "broadcast_package" "broadcast_package" true [Given uint8; Given array];
   Published "address" "address" true [Given uint8; Nullable hash; Nullable text];
   Published "address_txs" "address_txs" true [Given uint8; Nullable hash; Nullable text];
   Published "address_txs_chain" "address_txs_chain" true [Given uint8; Nullable hash; Nullable text; Nullable hash];
   Published "address_txs_mempool" "address_txs_mempool" true [Given uint8; Nullable hash; Nullable text];
   Published "address_utxo" "address_utxo" true [Given uint8; Nullable hash; Nullable text];
   Published "block" "block" true [Given uint8; Given hash];
   Published "block_header" "block_header" true [Given uint8; Given hash];
   Published "block_status" "block_status" true [Given uint8; Given hash];
   Published "block_txs" "block_txs" true [Given uint8; Given hash; Optional uint32];
   Published "block_txids" "block_txids" true [Given uint8; Given hash];
   Published "block_txid" "block_txid" true [Given uint8; Given hash; Given uint32];
   Published "block_height" "block_height" true [Given uint8; Given uint32];
   Published "blocks" "blocks" true [Given uint8; Nullable uint32];
   Published "tip_height" "tip_height" true [Given uint8];
   Published "tip_hash" "tip_hash" true [Given uint8];
   Published "mempool" "mempool" true [Given uint8];
   Published "mempool_txids" "mempool_txids" true [Given uint8];
   Published "mempool_recent" "mempool_recent" true [Given uint8];
   Published "fee_estimates" "fee_estimates" true [Given uint8]].

Definition esplora_handlers : list handler :=
  [Handler "handle_get_address" "address" [By_value uint8; By_optional hash; By_optional text];
   Handler "handle_get_address_txs" "address_txs" [By_value uint8; By_optional hash; By_optional text];
   Handler "handle_get_address_txs_chain" "address_txs_chain" [By_value uint8; By_optional hash; By_optional text; By_optional hash];
   Handler "handle_get_address_txs_mempool" "address_txs_mempool" [By_value uint8; By_optional hash; By_optional text];
   Handler "handle_get_address_utxo" "address_utxo" [By_value uint8; By_optional hash; By_optional text];
   Handler "handle_get_tx" "tx" [By_value uint8; By_value hash];
   Handler "handle_get_tx_status" "tx_status" [By_value uint8; By_value hash];
   Handler "handle_get_tx_merkleblock_proof" "tx_merkleblock_proof" [By_value uint8; By_value hash];
   Handler "handle_get_tx_merkle_proof" "tx_merkle_proof" [By_value uint8; By_value hash];
   Handler "handle_get_tx_outspend" "tx_outspend" [By_value uint8; By_value hash; By_value uint32];
   Handler "handle_get_tx_outspends" "tx_outspends" [By_value uint8; By_value hash];
   Handler "handle_broadcast" "broadcast" [By_value uint8; By_value text];
   Handler "handle_broadcast_package" "broadcast_package" [By_value uint8; By_value array];
   Handler "handle_get_block" "block" [By_value uint8; By_value hash];
   Handler "handle_get_block_txs" "block_txs" [By_value uint8; By_value hash; By_value uint32];
   Handler "handle_get_block_header" "block_header" [By_value uint8; By_value hash];
   Handler "handle_get_block_status" "block_status" [By_value uint8; By_value hash];
   Handler "handle_get_block_txids" "block_txids" [By_value uint8; By_value hash];
   Handler "handle_get_block_txid" "block_txid" [By_value uint8; By_value hash; By_value uint32];
   Handler "handle_get_block_height" "block_height" [By_value uint8; By_value uint32];
   Handler "handle_get_blocks" "blocks" [By_value uint8; By_optional uint32];
   Handler "handle_get_tip_height" "tip_height" [By_value uint8];
   Handler "handle_get_tip_hash" "tip_hash" [By_value uint8];
   Handler "handle_get_mempool" "mempool" [By_value uint8];
   Handler "handle_get_mempool_txids" "mempool_txids" [By_value uint8];
   Handler "handle_get_mempool_recent" "mempool_recent" [By_value uint8];
   Handler "handle_get_fee_estimates" "fee_estimates" [By_value uint8]].

Definition esplora_subscriptions : list subscription :=
  [("handle_get_address", 5%nat); ("handle_get_address_txs", 5%nat);
   ("handle_get_address_txs_chain", 6%nat); ("handle_get_address_txs_mempool", 5%nat);
   ("handle_get_address_utxo", 5%nat); ("handle_get_tx", 4%nat); ("handle_get_tx_status", 4%nat);
   ("handle_get_tx_merkleblock_proof", 4%nat); ("handle_get_tx_merkle_proof", 4%nat);
   ("handle_get_tx_outspend", 5%nat); ("handle_get_tx_outspends", 4%nat);
   ("handle_broadcast", 4%nat); ("handle_broadcast_package", 4%nat); ("handle_get_block", 4%nat);
   ("handle_get_block_txs", 5%nat); ("handle_get_block_header", 4%nat);
   ("handle_get_block_status", 4%nat); ("handle_get_block_txids", 4%nat);
   ("handle_get_block_txid", 5%nat); ("handle_get_block_height", 4%nat);
   ("handle_get_blocks", 4%nat); ("handle_get_tip_height", 3%nat); ("handle_get_tip_hash", 3%nat);
   ("handle_get_mempool", 3%nat); ("handle_get_mempool_txids", 3%nat);
   ("handle_get_mempool_recent", 3%nat); ("handle_get_fee_estimates", 3%nat)].

Definition esplora_protocol : rpc_protocol :=
  Protocol esplora_published esplora_handlers esplora_subscriptions.

(** *** native *)

Definition native_published : list published :=
  [Published "configuration" "configuration" true [Given uint8; Given uint8];
   Published "top" "top" true [Given uint8; Given uint8];
   Published "top_subscribe" "top_subscribe" true [Given uint8; Given uint8; Optional boolean];
   Published "block" "block" true [Given uint8; Given uint8; Nullable hash; Nullable uint32; Optional boolean];
   Published "block_header" "block_header" true [Given uint8; Given uint8; Nullable hash; Nullable uint32];
   Published "block_header_context" "block_header_context" true [Given uint8; Given uint8; Nullable hash; Nullable uint32];
   Published "block_details" "block_details" true [Given uint8; Given uint8; Nullable hash; Nullable uint32];
   Published "block_txs" "block_txs" true [Given uint8; Given uint8; Nullable hash; Nullable uint32];
   Published "block_filter" "block_filter" true [Given uint8; Given uint8; Given uint8; Nullable hash; Nullable uint32];
   Published "block_filter_hash" "block_filter_hash" true [Given uint8; Given uint8; Given uint8; Nullable hash; Nullable uint32];
   Published "block_filter_header" "block_filter_header" true [Given uint8; Given uint8; Given uint8; Nullable hash; Nullable uint32];
   Published "block_tx" "block_tx" true [Given uint8; Given uint8; Given uint32; Nullable hash; Nullable uint32; Optional boolean];
   Published "block_subscribe" "block_subscribe" true [Given uint8; Given uint8; Optional boolean];
   Published "tx" "tx" true [Given uint8; Given uint8; Given hash; Optional boolean];
   Published "tx_header" "tx_header" true [Given uint8; Given uint8; Given hash];
   Published "tx_details" "tx_details" true [Given uint8; Given uint8; Given hash];
   Published "tx_subscribe" "tx_subscribe" true [Given uint8; Given uint8; Optional boolean];
   Published "inputs" "inputs" true [Given uint8; Given uint8; Given hash; Optional boolean];
   Published "input" "input" true [Given uint8; Given uint8; Given hash; Given uint32; Optional boolean];
   Published "input_script" "input_script" true [Given uint8; Given uint8; Given hash; Given uint32];
   Published "input_witness" "input_witness" true [Given uint8; Given uint8; Given hash; Given uint32];
   Published "outputs" "outputs" true [Given uint8; Given uint8; Given hash];
   Published "output" "output" true [Given uint8; Given uint8; Given hash; Given uint32];
   Published "output_script" "output_script" true [Given uint8; Given uint8; Given hash; Given uint32];
   Published "output_spender" "output_spender" true [Given uint8; Given uint8; Given hash; Given uint32];
   Published "output_spenders" "output_spenders" true [Given uint8; Given uint8; Given hash; Given uint32];
   Published "output_subscribe" "output_subscribe" true [Given uint8; Given uint8; Given hash; Given uint32; Optional boolean];
   Published "address" "address" true [Given uint8; Given uint8; Given hash; Optional boolean];
   Published "address_confirmed" "address_confirmed" true [Given uint8; Given uint8; Given hash; Optional boolean];
   Published "address_unconfirmed" "address_unconfirmed" true [Given uint8; Given uint8; Given hash; Optional boolean];
   Published "address_balance" "address_balance" true [Given uint8; Given uint8; Given hash; Optional boolean];
   Published "address_subscribe" "address_subscribe" true [Given uint8; Given uint8; Given hash; Optional boolean; Optional boolean]].

Definition native_handlers : list handler :=
  [Handler "handle_get_configuration" "configuration" [By_value uint8; By_value uint8];
   Handler "handle_get_top" "top" [By_value uint8; By_value uint8];
   Handler "handle_get_top_subscribe" "top_subscribe" [By_value uint8; By_value uint8; By_value boolean];
   Handler "handle_get_block" "block" [By_value uint8; By_value uint8; By_optional hash; By_optional uint32; By_value boolean];
   Handler "handle_get_block_header" "block_header" [By_value uint8; By_value uint8; By_optional hash; By_optional uint32];
   Handler "handle_get_block_header_context" "block_header_context" [By_value uint8; By_value uint8; By_optional hash; By_optional uint32];
   Handler "handle_get_block_details" "block_details" [By_value uint8; By_value uint8; By_optional hash; By_optional uint32];
   Handler "handle_get_block_txs" "block_txs" [By_value uint8; By_value uint8; By_optional hash; By_optional uint32];
   Handler "handle_get_block_filter" "block_filter" [By_value uint8; By_value uint8; By_value uint8; By_optional hash; By_optional uint32];
   Handler "handle_get_block_filter_hash" "block_filter_hash" [By_value uint8; By_value uint8; By_value uint8; By_optional hash; By_optional uint32];
   Handler "handle_get_block_filter_header" "block_filter_header" [By_value uint8; By_value uint8; By_value uint8; By_optional hash; By_optional uint32];
   Handler "handle_get_block_tx" "block_tx" [By_value uint8; By_value uint8; By_value uint32; By_optional hash; By_optional uint32; By_value boolean];
   Handler "handle_get_block_subscribe" "block_subscribe" [By_value uint8; By_value uint8; By_value boolean];
   Handler "handle_get_tx" "tx" [By_value uint8; By_value uint8; By_value hash; By_value boolean];
   Handler "handle_get_tx_header" "tx_header" [By_value uint8; By_value uint8; By_value hash];
   Handler "handle_get_tx_details" "tx_details" [By_value uint8; By_value uint8; By_value hash];
   Handler "handle_get_tx_subscribe" "tx_subscribe" [By_value uint8; By_value uint8; By_value boolean];
   Handler "handle_get_inputs" "inputs" [By_value uint8; By_value uint8; By_value hash; By_value boolean];
   Handler "handle_get_input" "input" [By_value uint8; By_value uint8; By_value hash; By_value uint32; By_value boolean];
   Handler "handle_get_input_script" "input_script" [By_value uint8; By_value uint8; By_value hash; By_value uint32];
   Handler "handle_get_input_witness" "input_witness" [By_value uint8; By_value uint8; By_value hash; By_value uint32];
   Handler "handle_get_outputs" "outputs" [By_value uint8; By_value uint8; By_value hash];
   Handler "handle_get_output" "output" [By_value uint8; By_value uint8; By_value hash; By_value uint32];
   Handler "handle_get_output_script" "output_script" [By_value uint8; By_value uint8; By_value hash; By_value uint32];
   Handler "handle_get_output_spender" "output_spender" [By_value uint8; By_value uint8; By_value hash; By_value uint32];
   Handler "handle_get_output_spenders" "output_spenders" [By_value uint8; By_value uint8; By_value hash; By_value uint32];
   Handler "handle_get_output_subscribe" "output_subscribe" [By_value uint8; By_value uint8; By_value hash; By_value uint32; By_value boolean];
   Handler "handle_get_address" "address" [By_value uint8; By_value uint8; By_value hash; By_value boolean];
   Handler "handle_get_address_confirmed" "address_confirmed" [By_value uint8; By_value uint8; By_value hash; By_value boolean];
   Handler "handle_get_address_unconfirmed" "address_unconfirmed" [By_value uint8; By_value uint8; By_value hash; By_value boolean];
   Handler "handle_get_address_balance" "address_balance" [By_value uint8; By_value uint8; By_value hash; By_value boolean];
   Handler "handle_get_address_subscribe" "address_subscribe" [By_value uint8; By_value uint8; By_value hash; By_value boolean; By_value boolean]].

Definition native_subscriptions : list subscription :=
  [("handle_get_configuration", 4%nat); ("handle_get_top", 4%nat);
   ("handle_get_top_subscribe", 5%nat); ("handle_get_block", 7%nat);
   ("handle_get_block_header", 6%nat); ("handle_get_block_header_context", 6%nat);
   ("handle_get_block_details", 6%nat); ("handle_get_block_txs", 6%nat);
   ("handle_get_block_filter", 7%nat); ("handle_get_block_filter_hash", 7%nat);
   ("handle_get_block_filter_header", 7%nat); ("handle_get_block_tx", 8%nat);
   ("handle_get_block_subscribe", 5%nat); ("handle_get_tx", 6%nat);
   ("handle_get_tx_header", 5%nat); ("handle_get_tx_details", 5%nat);
   ("handle_get_tx_subscribe", 5%nat); ("handle_get_inputs", 6%nat); ("handle_get_input", 7%nat);
   ("handle_get_input_script", 6%nat); ("handle_get_input_witness", 6%nat);
   ("handle_get_outputs", 5%nat); ("handle_get_output", 6%nat);
   ("handle_get_output_script", 6%nat); ("handle_get_output_spender", 6%nat);
   ("handle_get_output_spenders", 6%nat); ("handle_get_output_subscribe", 7%nat);
   ("handle_get_address", 6%nat); ("handle_get_address_confirmed", 6%nat);
   ("handle_get_address_unconfirmed", 6%nat); ("handle_get_address_balance", 6%nat);
   ("handle_get_address_subscribe", 7%nat)].

Definition native_protocol : rpc_protocol :=
  Protocol native_published native_handlers native_subscriptions.

(** *** sparrow *)

Definition sparrow_published : list published :=
  [Published "blockchain_block_stats" "blockchain.block.stats" true [Given number];
   Published "blockchain_silent_payments_subscribe" "blockchain.silentpayments.subscribe" true [Given text; Given text; Optional value; Optional array];
   Published "blockchain_silent_payments_unsubscribe" "blockchain.silentpayments.unsubscribe" true [Given text; Given text]].

Definition sparrow_handlers : list handler :=
  [Handler "handle_blockchain_block_stats" "blockchain_block_stats" [By_value number];
   Handler "handle_blockchain_silent_payments_subscribe" "blockchain_silent_payments_subscribe" [By_value text; By_value text; By_value value; By_value array];
   Handler "handle_blockchain_silent_payments_unsubscribe" "blockchain_silent_payments_unsubscribe" [By_value text; By_value text]].

Definition sparrow_subscriptions : list subscription :=
  [("handle_blockchain_block_stats", 3%nat);
   ("handle_blockchain_silent_payments_subscribe", 6%nat);
   ("handle_blockchain_silent_payments_unsubscribe", 4%nat)].

Definition sparrow_protocol : rpc_protocol :=
  Protocol sparrow_published sparrow_handlers sparrow_subscriptions.

(** ** Every method has one handler *)

Definition protocols : list rpc_protocol :=
  [admin_protocol; blockchain_protocol; control_protocol; mining_protocol; network_protocol;
   notifications_protocol; rest_protocol; test_methods_protocol; transaction_protocol;
   utility_protocol; wallet_protocol; btcd_protocol; electrum_protocol;
   electrum_handshake_protocol; esplora_protocol; native_protocol; sparrow_protocol].

(** The argument takes the values of the parameter. *)
Definition fits (p : published_parameter) (a : argument) : bool :=
  match p, a with
  | Given t, By_value u | Optional t, By_value u | Nullopt t, By_value u | Nullable t, By_optional u =>
      bool_decide (t = u)
  | _, _ => false
  end.

Fixpoint all_fit (ps : list published_parameter) (args : list argument) : bool :=
  match ps, args with
  | [], [] => true
  | p :: ps, a :: args => fits p a && all_fit ps args
  | _, _ => false
  end.

(** One handler is declared for the method, with its parameters, or with none if it is
    not implemented, and subscribed once, with a placeholder for each argument, the code and
    the method. *)
Definition served (p : rpc_protocol) (m : published) : bool :=
  match List.filter (λ h, handled h == alias m) (handlers p) with
  | [h] =>
      (all_fit (parameters m) (arguments h) ||
       negb (implemented m) && match arguments h with [] => true | _ => false end) &&
      match List.filter (λ s, fst s == handler_name h) (subscriptions p) with
      | [(_, placeholders)] => (placeholders =? 2 + length (arguments h))%nat
      | _ => false
      end
  | _ => false
  end.

(** The method of the rest interface that no request names, as no target parses to it. *)
Definition unserved (m : published) : bool := alias m == "fork_information".

