(* ===== verification/Sessions.v ===== *)
(** The sessions of the server with the protocols that they attach
    (src/include/bitcoin/server/sessions, src/sessions), and the json-rpc channel that
    answers their requests (src/include/bitcoin/server/channels/channel_rpc.hpp). *)
From S2P Require Import Prelude Rpc Errors Dispatch BitcoindInterfaces Subscriptions.

(** ** Protocols and channels of the sessions *)

(** The socket types of ZeroMQ that a channel may declare. *)
Inductive role_t := undefined | publisher.

(** The traits that a session reads of its first protocol: whether its connections wait
    for the chain to be current, and the channel's role. *)
Record traits := Traits {
  delayed : bool;
  channel_role : option role_t;
}.

Definition default_traits : traits := Traits true None.
Definition admin_traits : traits := Traits false None.
Definition native_traits : traits := Traits false None.
Definition zmq_traits : traits := Traits true (Some publisher).

(** Inbound connections are accepted if the interface does not wait, or the confirmed
    chain is recent. *)
Definition enabled (first : traits) (delay_inbound recent : bool) : bool :=
  negb (delayed first && delay_inbound) || recent.

Definition role (first : traits) : role_t := default undefined (channel_role first).

(** The protocols start on the channel in the order of the session; a handshake's
    protocol is attached before, and shakes. *)
Inductive attachment {P : Type} := attach_start (p : P) | attach_shake (p : P).
Arguments attachment : clear implicits.

Definition attach_protocols {P} (ps : list P) : list (attachment P) := attach_start <$> ps.
Definition attach_handshake {P} (handshake : P) : list (attachment P) := [attach_shake handshake].

(** [server::session] forwards to the node. *)
Section Node.
Context {node counts handler : Type}.
Context (node_address_counts : node → counts) (node_dump_addresses node_fetch_totals : node → handler → node)
  (node_demand_wire_tx node_demand_wire_block : node → bool → node).

Definition address_counts (n : node) : counts := node_address_counts n.
Definition dump_addresses (h : handler) (n : node) : node := node_dump_addresses n h.
Definition fetch_totals (h : handler) (n : node) : node := node_fetch_totals n h.
Definition demand_wire_tx (demand : bool) (n : node) : node := node_demand_wire_tx n demand.
Definition demand_wire_block (demand : bool) (n : node) : node := node_demand_wire_block n demand.

End Node.

(** ** The json-rpc channel *)

(** An error or a result, under the version and the identity of the request, or a
    notification. *)
Record rpc_response := RpcResponse {
  response_jsonrpc : version_t;
  response_id : option value_t;
  content : (Z * string) + value_t;
}.

Inductive rpc_sent :=
  | sent_response (r : rpc_response)
  | sent_request (r : request_t)
  (** The handler is called, and nothing is sent. *)
  | completed (ec : code).

(** The channel, by its transport and the cached context of the last request. *)
Record channel_rpc := ChannelRpc {
  websocket : bool;
  downgraded : bool;
  version_ : version_t;
  identity_ : option value_t;
}.

Definition new_channel (websocket downgraded : bool) : channel_rpc :=
  ChannelRpc websocket downgraded version_undefined None.

(** The body of a request is json-rpc, or another. *)
Definition dispatch (body : option request_t) (c : channel_rpc) : channel_rpc :=
  match body with
  | Some message => ChannelRpc (websocket c) (downgraded c) (jsonrpc message) (id message)
  | None => c
  end.

Definition send_error (error : Z * string) (c : channel_rpc) : rpc_sent :=
  sent_response (RpcResponse (version_ c) (identity_ c) (inl error)).

(** [message] is the text of the code. *)
Definition send_code (message : code → string) (ec : code) (c : channel_rpc) : rpc_sent :=
  send_error (Errors.value ec, message ec) c.

Definition send_result (result : value_t) (c : channel_rpc) : rpc_sent :=
  sent_response (RpcResponse (version_ c) (identity_ c) (inr result)).

Definition send_notification (method_ : string) (params_ : params_t) (c : channel_rpc) : rpc_sent :=
  if negb (websocket c) && negb (downgraded c) then completed (Error.make Error.success)
  else sent_request (Request (version_ c) None method_ (Some params_)).

(** A response names the last request that was dispatched, whatever came before it. *)
Lemma response_identity bodies message c result error text ec :
  let c := dispatch (Some message) (foldl (λ c body, dispatch body c) c bodies) in
  send_result result c = sent_response (RpcResponse (jsonrpc message) (id message) (inr result)) ∧
  send_error error c = sent_response (RpcResponse (jsonrpc message) (id message) (inl error)) ∧
  send_code text ec c =
    sent_response (RpcResponse (jsonrpc message) (id message) (inl (Errors.value ec, text ec))).
Proof. done. Qed.

(** ** What a session serves *)

(** Whether an interface publishes a name ([dispatcher::contains]). *)
Definition contains (p : rpc_protocol) (n : string) : bool :=
  existsb (λ m, Subscriptions.name m == n) (methods p).

(** The subgroups of the bitcoind interface, in the order of the sessions. *)
Definition bitcoind_subgroups : list rpc_protocol :=
  [blockchain_protocol; control_protocol; mining_protocol; network_protocol; notifications_protocol;
   test_methods_protocol; transaction_protocol; utility_protocol; wallet_protocol].

Definition bitcoind_names : list string := bitcoind_subgroups ≫= λ p, Subscriptions.name <$> methods p.
Definition btcd_names : list string := Subscriptions.name <$> methods btcd_protocol.

(** The methods of bitcoind that btcd serves instead. *)
Definition overridden : list string := List.filter (contains btcd_protocol) bitcoind_names.

Lemma publishes_spec p n : contains p n = true ↔ n ∈ Subscriptions.name <$> methods p.
Proof.
  unfold contains. rewrite existsb_exists, list_elem_of_fmap. split.
  - intros (m & Hm & Hn%String.eqb_eq). exists m. split; [done|]. by apply list_elem_of_In.
  - intros (m & -> & Hm). exists m. split; [by apply list_elem_of_In|]. apply String.eqb_refl.
Qed.

(** The owner of a name is the first interface that publishes it. *)
Lemma owner_some ps first n k :
  owner (contains <$> ps) first n = Some k →
  ∃ i p, k = (first + i)%nat ∧ ps !! i = Some p ∧ n ∈ Subscriptions.name <$> methods p.
Proof.
  revert first. induction ps as [|p ps IH]; intros first; [done|]. rewrite fmap_cons. cbn [owner].
  destruct (contains p n) eqn:Hp.
  - intros [= <-]. exists 0%nat, p. split_and!; [lia|done|by apply publishes_spec].
  - intros (i & q & -> & Hq & Hn)%IH. exists (S i), q. split_and!; [lia|done..].
Qed.

Lemma owner_none ps first n :
  owner (contains <$> ps) first n = None ↔ n ∉ ps ≫= λ p, Subscriptions.name <$> methods p.
Proof.
  revert first. induction ps as [|p ps IH]; intros first; [set_solver|].
  rewrite fmap_cons, bind_cons, elem_of_app. cbn [owner]. destruct (contains p n) eqn:Hp.
  - split; [done|]. intros []. left. by apply publishes_spec.
  - rewrite IH. split; [|tauto]. intros Hps [Hn|Hn]; [|done]. apply publishes_spec in Hn. congruence.
Qed.

(** If no two interfaces share a name, any interface that publishes it is its owner. *)
Lemma owner_unique ps first n i p :
  NoDup (ps ≫= λ p, Subscriptions.name <$> methods p) →
  ps !! i = Some p → n ∈ Subscriptions.name <$> methods p →
  owner (contains <$> ps) first n = Some (first + i)%nat.
Proof.
  revert first i. induction ps as [|q ps IH]; intros first i; [done|].
  rewrite fmap_cons, bind_cons. cbn [owner]. intros (_ & Hdisjoint & Hps)%NoDup_app Hi Hn. destruct i as [|i]; simplify_eq/=.
  - apply publishes_spec in Hn as ->. f_equal. lia.
  - destruct (contains q n) eqn:Hq.
    + apply publishes_spec in Hq. destruct (Hdisjoint n Hq). apply list_elem_of_bind.
      exists p. split; [done|]. by eapply list_elem_of_lookup_2.
    + rewrite (IH (S first) i Hps Hi Hn). f_equal. lia.
Qed.

Lemma bitcoind_names_distinct : NoDup bitcoind_names.
Proof. apply (bool_decide_unpack _). vm_compute. exact I. Qed.

(** What the json-rpc sessions serve. In a bitcoind session a method goes to the one
    subgroup that publishes it, and is not found exactly if none does. In a btcd session
    its own methods go to the btcd protocol, three of which it serves instead of
    bitcoind, and the others as in a bitcoind session. The handshake, electrum and
    sparrow interfaces have no method in common, so each serves its own. *)
Lemma sessions_serve n :
  (∀ k, owner (contains <$> bitcoind_subgroups) 0 n = Some k ↔
    ∃ p, bitcoind_subgroups !! k = Some p ∧ n ∈ Subscriptions.name <$> methods p) ∧
  (owner (contains <$> bitcoind_subgroups) 0 n = None ↔ n ∉ bitcoind_names) ∧
  (overridden = ["getblockchaininfo"; "getdifficulty"; "getnettotals"] ∧
   owner (contains <$> btcd_protocol :: bitcoind_subgroups) 0 n =
     if bool_decide (n ∈ btcd_names) then Some 0%nat
     else S <$> owner (contains <$> bitcoind_subgroups) 0 n) ∧
  NoDup ((Subscriptions.name <$> methods electrum_handshake_protocol) ++
         (Subscriptions.name <$> methods electrum_protocol) ++
         (Subscriptions.name <$> methods sparrow_protocol)).
Proof.
  split_and!.
  - intros k. split.
    + intros (i & p & -> & Hp & Hn)%owner_some. by exists p.
    + intros (p & Hp & Hn). by apply (owner_unique _ 0 n k p bitcoind_names_distinct).
  - apply owner_none.
  - vm_compute. reflexivity.
  - rewrite fmap_cons. cbn [owner]. case_bool_decide as Hn.
    + by apply publishes_spec in Hn as ->.
    + destruct (contains btcd_protocol n) eqn:Hc; [by apply publishes_spec in Hc|].
      assert (∀ cs first, owner cs (S first) n = S <$> owner cs first n) as Hshift; [|apply Hshift].
      induction cs as [|c cs IH]; intros first; simpl; [done|]. by destruct (c n).
  - apply (bool_decide_unpack _). vm_compute. exact I.
Qed.
