(* ===== verification/BitcoindRefusals.v ===== *)
(** Methods of the bitcoind service that are claimed and refused: those of the wallet
    (src/protocols/bitcoind/protocol_bitcoind_wallet.cpp) and of regression tests
    (src/protocols/bitcoind/protocol_bitcoind_test.cpp). Each interface has one handler
    for each of its methods, as a request of a method without one would get no response;
    [wallet_handlers] and [test_handlers] are what the protocols subscribe. *)
From S2P Require Import Prelude Rpc Errors System Dispatch Archive.

(** The body of a refusal. *)
Definition refuses (e : BitcoindError.error_t) (stopped : bool) : handled :=
  if stopped then (false, []) else failed e.

(** ** Wallet *)

Definition handle_enumerate_signers : bool → handled := refuses BitcoindError.method_not_found.
Definition handle_abandon_transaction : bool → handled := refuses BitcoindError.method_not_found.
Definition handle_abort_rescan : bool → handled := refuses BitcoindError.method_not_found.
Definition handle_add_hd_key : bool → handled := refuses BitcoindError.method_not_found.
Definition handle_backup_wallet : bool → handled := refuses BitcoindError.method_not_found.
Definition handle_bump_fee : bool → handled := refuses BitcoindError.method_not_found.
Definition handle_create_wallet : bool → handled := refuses BitcoindError.method_not_found.
Definition handle_create_wallet_descriptor : bool → handled := refuses BitcoindError.method_not_found.
Definition handle_encrypt_wallet : bool → handled := refuses BitcoindError.method_not_found.
Definition handle_export_watchonly_wallet : bool → handled := refuses BitcoindError.method_not_found.
Definition handle_get_addresses_by_label : bool → handled := refuses BitcoindError.method_not_found.
Definition handle_get_address_info : bool → handled := refuses BitcoindError.method_not_found.
Definition handle_get_balance : bool → handled := refuses BitcoindError.method_not_found.
Definition handle_get_balances : bool → handled := refuses BitcoindError.method_not_found.
Definition handle_get_hd_keys : bool → handled := refuses BitcoindError.method_not_found.
Definition handle_get_new_address : bool → handled := refuses BitcoindError.method_not_found.
Definition handle_get_raw_change_address : bool → handled := refuses BitcoindError.method_not_found.
Definition handle_get_received_by_address : bool → handled := refuses BitcoindError.method_not_found.
Definition handle_get_received_by_label : bool → handled := refuses BitcoindError.method_not_found.
Definition handle_get_transaction : bool → handled := refuses BitcoindError.method_not_found.
Definition handle_get_wallet_info : bool → handled := refuses BitcoindError.method_not_found.
Definition handle_import_descriptors : bool → handled := refuses BitcoindError.method_not_found.
Definition handle_import_pruned_funds : bool → handled := refuses BitcoindError.method_not_found.
Definition handle_keypool_refill : bool → handled := refuses BitcoindError.method_not_found.
Definition handle_list_address_groupings : bool → handled := refuses BitcoindError.method_not_found.
Definition handle_list_descriptors : bool → handled := refuses BitcoindError.method_not_found.
Definition handle_list_labels : bool → handled := refuses BitcoindError.method_not_found.
Definition handle_list_lock_unspent : bool → handled := refuses BitcoindError.method_not_found.
Definition handle_list_received_by_address : bool → handled := refuses BitcoindError.method_not_found.
Definition handle_list_received_by_label : bool → handled := refuses BitcoindError.method_not_found.
Definition handle_list_since_block : bool → handled := refuses BitcoindError.method_not_found.
Definition handle_list_transactions : bool → handled := refuses BitcoindError.method_not_found.
Definition handle_list_unspent : bool → handled := refuses BitcoindError.method_not_found.
Definition handle_list_wallet_dir : bool → handled := refuses BitcoindError.method_not_found.
Definition handle_list_wallets : bool → handled := refuses BitcoindError.method_not_found.
Definition handle_load_wallet : bool → handled := refuses BitcoindError.method_not_found.
Definition handle_lock_unspent : bool → handled := refuses BitcoindError.method_not_found.
Definition handle_migrate_wallet : bool → handled := refuses BitcoindError.method_not_found.
Definition handle_psbt_bump_fee : bool → handled := refuses BitcoindError.method_not_found.
Definition handle_remove_pruned_funds : bool → handled := refuses BitcoindError.method_not_found.
Definition handle_rescan_block_chain : bool → handled := refuses BitcoindError.method_not_found.
Definition handle_restore_wallet : bool → handled := refuses BitcoindError.method_not_found.
Definition handle_wallet_send : bool → handled := refuses BitcoindError.method_not_found.
Definition handle_send_all : bool → handled := refuses BitcoindError.method_not_found.
Definition handle_send_many : bool → handled := refuses BitcoindError.method_not_found.
Definition handle_send_to_address : bool → handled := refuses BitcoindError.method_not_found.
Definition handle_set_label : bool → handled := refuses BitcoindError.method_not_found.
Definition handle_set_wallet_flag : bool → handled := refuses BitcoindError.method_not_found.
Definition handle_sign_message : bool → handled := refuses BitcoindError.method_not_found.
Definition handle_sign_raw_transaction_with_wallet : bool → handled := refuses BitcoindError.method_not_found.
Definition handle_simulate_raw_transaction : bool → handled := refuses BitcoindError.method_not_found.
Definition handle_unload_wallet : bool → handled := refuses BitcoindError.method_not_found.
Definition handle_wallet_create_funded_psbt : bool → handled := refuses BitcoindError.method_not_found.
Definition handle_wallet_display_address : bool → handled := refuses BitcoindError.method_not_found.
Definition handle_wallet_lock : bool → handled := refuses BitcoindError.method_not_found.
Definition handle_wallet_passphrase : bool → handled := refuses BitcoindError.method_not_found.
Definition handle_wallet_passphrase_change : bool → handled := refuses BitcoindError.method_not_found.
Definition handle_wallet_process_psbt : bool → handled := refuses BitcoindError.method_not_found.

Definition wallet_handlers : list (string * (bool → handled)) :=
  [("enumeratesigners", handle_enumerate_signers);
   ("abandontransaction", handle_abandon_transaction);
   ("abortrescan", handle_abort_rescan);
   ("addhdkey", handle_add_hd_key);
   ("backupwallet", handle_backup_wallet);
   ("bumpfee", handle_bump_fee);
   ("createwallet", handle_create_wallet);
   ("createwalletdescriptor", handle_create_wallet_descriptor);
   ("encryptwallet", handle_encrypt_wallet);
   ("exportwatchonlywallet", handle_export_watchonly_wallet);
   ("getaddressesbylabel", handle_get_addresses_by_label);
   ("getaddressinfo", handle_get_address_info);
   ("getbalance", handle_get_balance);
   ("getbalances", handle_get_balances);
   ("gethdkeys", handle_get_hd_keys);
   ("getnewaddress", handle_get_new_address);
   ("getrawchangeaddress", handle_get_raw_change_address);
   ("getreceivedbyaddress", handle_get_received_by_address);
   ("getreceivedbylabel", handle_get_received_by_label);
   ("gettransaction", handle_get_transaction);
   ("getwalletinfo", handle_get_wallet_info);
   ("importdescriptors", handle_import_descriptors);
   ("importprunedfunds", handle_import_pruned_funds);
   ("keypoolrefill", handle_keypool_refill);
   ("listaddressgroupings", handle_list_address_groupings);
   ("listdescriptors", handle_list_descriptors);
   ("listlabels", handle_list_labels);
   ("listlockunspent", handle_list_lock_unspent);
   ("listreceivedbyaddress", handle_list_received_by_address);
   ("listreceivedbylabel", handle_list_received_by_label);
   ("listsinceblock", handle_list_since_block);
   ("listtransactions", handle_list_transactions);
   ("listunspent", handle_list_unspent);
   ("listwalletdir", handle_list_wallet_dir);
   ("listwallets", handle_list_wallets);
   ("loadwallet", handle_load_wallet);
   ("lockunspent", handle_lock_unspent);
   ("migratewallet", handle_migrate_wallet);
   ("psbtbumpfee", handle_psbt_bump_fee);
   ("removeprunedfunds", handle_remove_pruned_funds);
   ("rescanblockchain", handle_rescan_block_chain);
   ("restorewallet", handle_restore_wallet);
   ("send", handle_wallet_send);
   ("sendall", handle_send_all);
   ("sendmany", handle_send_many);
   ("sendtoaddress", handle_send_to_address);
   ("setlabel", handle_set_label);
   ("setwalletflag", handle_set_wallet_flag);
   ("signmessage", handle_sign_message);
   ("signrawtransactionwithwallet", handle_sign_raw_transaction_with_wallet);
   ("simulaterawtransaction", handle_simulate_raw_transaction);
   ("unloadwallet", handle_unload_wallet);
   ("walletcreatefundedpsbt", handle_wallet_create_funded_psbt);
   ("walletdisplayaddress", handle_wallet_display_address);
   ("walletlock", handle_wallet_lock);
   ("walletpassphrase", handle_wallet_passphrase);
   ("walletpassphrasechange", handle_wallet_passphrase_change);
   ("walletprocesspsbt", handle_wallet_process_psbt)].

(** ** Tests *)

Definition handle_add_connection : bool → handled := refuses BitcoindError.method_not_found.
Definition handle_add_peer_address : bool → handled := refuses BitcoindError.method_not_found.
Definition handle_echo : bool → handled := refuses BitcoindError.method_not_found.
Definition handle_echo_ipc : bool → handled := refuses BitcoindError.method_not_found.
Definition handle_echo_json : bool → handled := refuses BitcoindError.method_not_found.
Definition handle_estimate_raw_fee : bool → handled := refuses BitcoindError.method_not_found.
Definition handle_generate : bool → handled := refuses BitcoindError.method_not_found.
Definition handle_generate_block : bool → handled := refuses BitcoindError.method_not_found.
Definition handle_generate_to_address : bool → handled := refuses BitcoindError.method_not_found.
Definition handle_generate_to_descriptor : bool → handled := refuses BitcoindError.method_not_found.
Definition handle_get_mempool_fee_rate_diagram : bool → handled := refuses BitcoindError.method_not_found.
Definition handle_get_orphan_txs : bool → handled := refuses BitcoindError.method_not_found.
Definition handle_get_raw_addrman : bool → handled := refuses BitcoindError.method_not_found.
Definition handle_invalidate_block : bool → handled := refuses BitcoindError.method_not_found.
Definition handle_mock_scheduler : bool → handled := refuses BitcoindError.method_not_found.
Definition handle_reconsider_block : bool → handled := refuses BitcoindError.method_not_found.
Definition handle_send_msg_to_peer : bool → handled := refuses BitcoindError.method_not_found.
Definition handle_set_mock_time : bool → handled := refuses BitcoindError.method_not_found.
Definition handle_sync_with_validation_interface_queue : bool → handled := refuses BitcoindError.method_not_found.

Definition test_handlers : list (string * (bool → handled)) :=
  [("addconnection", handle_add_connection);
   ("addpeeraddress", handle_add_peer_address);
   ("echo", handle_echo);
   ("echoipc", handle_echo_ipc);
   ("echojson", handle_echo_json);
   ("estimaterawfee", handle_estimate_raw_fee);
   ("generate", handle_generate);
   ("generateblock", handle_generate_block);
   ("generatetoaddress", handle_generate_to_address);
   ("generatetodescriptor", handle_generate_to_descriptor);
   ("getmempoolfeeratediagram", handle_get_mempool_fee_rate_diagram);
   ("getorphantxs", handle_get_orphan_txs);
   ("getrawaddrman", handle_get_raw_addrman);
   ("invalidateblock", handle_invalidate_block);
   ("mockscheduler", handle_mock_scheduler);
   ("reconsiderblock", handle_reconsider_block);
   ("sendmsgtopeer", handle_send_msg_to_peer);
   ("setmocktime", handle_set_mock_time);
   ("syncwithvalidationinterfacequeue", handle_sync_with_validation_interface_queue)].
