(* ===== verification/BitcoindMining.v ===== *)
(** Mining methods of the bitcoind service
    (src/protocols/bitcoind/protocol_bitcoind_mining.cpp). Blocks are not assembled, so
    templates, priorities and blocks are refused; a header is organized by the node,
    whose code returns by a completion. *)
From S2P Require Import Prelude Rpc Errors System FeeHistogram ElectrumSubscribe Dispatch Archive BitcoindBlockchain.

(** What the handlers read of the archive and of chain state: accumulated work is a
    256-bit integer. *)
Class MiningArchive `{BlockArchive} := {
  branch_work : archive → header_link → option Z;
  (** [convert_to<double>()]. *)
  work_to_double : Z → double;
  (** The bits that a next block requires, from the chain state of a block. *)
  next_work_required : archive → hash_digest → option Z;
  (** The difficulty of a header of bits. *)
  bits_difficulty : Z → double;
  (** [chain::header], if it is valid. *)
  read_header : data_chunk → option chain_header;
}.

(** The settings of the network. *)
Record mining_settings := MiningSettings {
  retargeting_interval : Z;
  max_money : Z;
  block_spacing_seconds : Z;
}.

Section Mining.
Context `{Text} `{SizeMath} `{MiningArchive} `{!ChainInfo} `{Scripts} `{!TxArchive}.
Context (bitcoin : mining_settings).

(** ** Hash rate *)

Definition max_uint32 : Z := 2 ^ 32 - 1.

(** The loop over the ancestors: the least and the greatest timestamp. *)
Fixpoint timespan (q : archive) (branch : list header_link) (minimum maximum : Z) : option (Z * Z) :=
  match branch with
  | [] => Some (minimum, maximum)
  | ancestor :: branch =>
      match get_header q ancestor with
      | None => None
      | Some header =>
          timespan q branch (Z.min minimum (timestamp header)) (Z.max maximum (timestamp header))
      end
  end.

(** The block at which the window ends; a negative height is the top. *)
Definition hash_target (top : Z) (height : double) : option Z :=
  if PrimFloat.ltb height PrimFloat.zero then Some top
  else (λ target, Z.min target top) <$> to_size height.

(** The blocks of the window; it is that since the last retarget if not positive. *)
Definition hash_window (target : Z) (nblocks : double) : option Z :=
  (λ window, Z.min window target) <$>
  if PrimFloat.leb nblocks PrimFloat.zero then Some (target mod retargeting_interval bitcoin + 1)
  else to_size nblocks.

(** The rate over a branch of which the last block is the oldest. *)
Definition branch_rate (q : archive) (branch : list header_link) : handled :=
  match timespan q branch max_uint32 0 with
  | None => failed BitcoindError.internal_error
  | Some (minimum, maximum) =>
      if minimum =? maximum then replied (reply_value (uint64_t 0))
      else
        match last branch ≫= branch_work q, head branch ≫= branch_work q with
        | Some start_work, Some end_work =>
            let work := work_to_double ((end_work - start_work) mod 2 ^ 256) in
            let seconds := (maximum - minimum) mod 2 ^ 32 in
            replied (reply_value (number_t (PrimFloat.div work (to_floating seconds))))
        | _, _ => failed BitcoindError.internal_error
        end
  end.

Definition handle_get_network_hash_ps (q : archive) (stopped : bool) (nblocks height : double) : handled :=
  if stopped then (false, [])
  else
    match hash_target (get_top_confirmed q) height with
    | None => failed BitcoindError.invalid_parameter
    | Some target =>
        match hash_window target nblocks with
        | None => failed BitcoindError.invalid_parameter
        | Some window =>
            if window =? 0 then replied (reply_value (uint64_t 0))
            else
              match get_ancestry q (to_confirmed q target) (window + 1) with
              | None => failed BitcoindError.internal_error
              | Some branch => branch_rate q branch
              end
        end
    end.

(** ** Information *)

Definition handle_get_mining_info (q : archive) (stopped : bool) : handled :=
  if stopped then (false, [])
  else
    let link := to_top_confirmed q in
    match get_header q link, get_height q link with
    | Some top, Some height =>
        match next_work_required q (get_header_key q link) with
        | None => failed BitcoindError.internal_error
        | Some next_bits =>
            let next_block := object_t
              [("height", uint64_t (height + 1)); ("bits", string_t (bits_text next_bits));
               ("difficulty", number_t (bits_difficulty next_bits));
               ("target", string_t (target_text next_bits))] in
            let rate :=
              PrimFloat.div (PrimFloat.mul (difficulty top) (to_floating (2 ^ 32)))
                (to_floating (block_spacing_seconds bitcoin)) in
            let minimum_fee :=
              PrimFloat.div (to_floating (max_money bitcoin)) (to_floating satoshi_per_bitcoin) in
            replied (reply_value (object_t
              [("blocks", uint64_t height); ("bits", string_t (bits_text (header_bits top)));
               ("difficulty", number_t (difficulty top));
               ("target", string_t (target_text (header_bits top))); ("networkhashps", number_t rate);
               ("pooledtx", uint64_t 0); ("blockmintxfee", number_t minimum_fee);
               ("chain", string_t (chain_name q)); ("next", next_block); ("warnings", array_t [])]))
        end
    | _, _ => failed BitcoindError.internal_error
    end.

(** ** Submission *)

(** A handler replies, or organizes a header. *)
Inductive mining_reaction :=
  | mining_replies (h : handled)
  | mining_organizes (header : chain_header).

Definition handle_submit_header (q : archive) (stopped : bool) (hexdata : string) : mining_reaction :=
  if stopped then mining_replies (false, [])
  else
    match decode_base16 hexdata ≫= read_header with
    | None => mining_replies (failed BitcoindError.deserialization_error)
    | Some header =>
        if negb (is_terminal (to_header q (header_hash header)))
        then mining_replies (replied (reply_value null_t))
        else mining_organizes header
    end.

Definition do_submit_header (ec : code) : list reply :=
  if is_error ec
  then [reply_error (BitcoindError.translate ec BitcoindError.verify_error) None]
  else [reply_value null_t].

(** The completion, which posts its response unless stopped. *)
Definition handle_organize_header (stopped : bool) (ec : code) : list reply :=
  if stopped then [] else do_submit_header ec.

Definition mempool_refuses (stopped : bool) : handled :=
  if stopped then (false, []) else failed BitcoindError.client_mempool_disabled.

Definition handle_submit_block : bool → handled := mempool_refuses.
Definition handle_get_block_template : bool → handled := mempool_refuses.
Definition handle_get_prioritised_transactions : bool → handled := mempool_refuses.
Definition handle_prioritise_transaction : bool → handled := mempool_refuses.

End Mining.
