(* ===== verification/BitcoindControl.v ===== *)
(** Control methods of the bitcoind service
    (src/protocols/bitcoind/protocol_bitcoind_control.cpp): help and discovery, which
    describe the interfaces of BitcoindInterfaces.v, logging and uptime. *)
From S2P Require Import Prelude Rpc Errors System FeeHistogram ElectrumSubscribe Dispatch Archive BitcoindBlockchain ElectrumTransactions BitcoindTransaction Psbt BitcoindInterfaces BitcoindRefusals BitcoindNetwork BitcoindMining BitcoindUtility.

Section Control.

(** [is_defaulted] of the native type of a parameter. *)
Context (is_defaulted : parameter → bool).

(** ** Help *)

Definition usage_parameter (out : string) (p : string * parameter) : string :=
  out +:+ (if is_defaulted p.2 then " ( " +:+ p.1 +:+ " )" else " " +:+ p.1).

Definition append_usage (command out : string) (entry : rpc_method) : string :=
  if negb (implemented entry) || (method_name entry != command) then out
  else foldl usage_parameter command (rpc_parameters entry).

Definition find_usage (command out : string) (methods : list rpc_method) : string :=
  foldl (append_usage command) out methods.

(** The names that the protocols have registered with the channel are [help_names]. *)
Definition handle_help (help_names : string) (stopped : bool) (command : string) : handled :=
  if stopped then (false, [])
  else if is_empty command then replied (reply_value (string_t help_names))
  else
    let usage := foldl (find_usage command) "" bitcoind_interfaces in
    let usage := if is_empty usage then "help: unknown command: " +:+ command else usage in
    replied (reply_value (string_t usage)).

Definition handle_stop (stopped : bool) : handled :=
  if stopped then (false, []) else failed BitcoindError.method_not_found.

Definition handle_get_memory_info (stopped : bool) (mode : string) : handled :=
  if stopped then (false, [])
  else if mode != "stats" then failed BitcoindError.invalid_parameter
  else
    let locked := object_t
      [("used", uint64_t 0); ("free", uint64_t 0); ("total", uint64_t 0); ("locked", uint64_t 0);
       ("chunks_used", uint64_t 0); ("chunks_free", uint64_t 0)] in
    replied (reply_value (object_t [("locked", locked)])).

(** ** Discovery *)

Definition describe_parameter (p : string * parameter) : value_t :=
  object_t [("name", string_t p.1); ("required", boolean_t (negb (is_defaulted p.2)))].

Definition describe_method (entry : rpc_method) : value_t :=
  object_t [("name", string_t (method_name entry));
            ("params", array_t (describe_parameter <$> rpc_parameters entry))].

Definition append_method (out : array) (entry : rpc_method) : array :=
  if negb (implemented entry) then out else (out ++ [describe_method entry])%list.

Definition append_methods (out : array) (methods : list rpc_method) : array :=
  foldl append_method out methods.

(** The text of the version is [version_text]. *)
Definition send_openrpc (settings : server_version) (version_text : string) : reply :=
  reply_value (object_t
    [("openrpc", string_t "1.2.6");
     ("info", object_t [("title", string_t (subversion settings)); ("version", string_t version_text)]);
     ("methods", array_t (foldl append_methods [] bitcoind_interfaces))]).

Definition handle_get_openrpc_info (settings : server_version) (version_text : string) (stopped : bool) :
    handled :=
  if stopped then (false, []) else replied (send_openrpc settings version_text).

Definition handle_rpc_discover (settings : server_version) (version_text : string) (stopped : bool) :
    handled :=
  if stopped then (false, []) else replied (send_openrpc settings version_text).

(** ** Status *)

Definition handle_get_rpc_info (log_file : string) (stopped : bool) : handled :=
  if stopped then (false, [])
  else replied (reply_value (object_t
    [("active_commands", array_t []); ("logpath", string_t log_file)])).

(** The levels, with whether each is compiled in and whether it is configured. *)
Record log_levels := LogLevels {
  application : bool; news : bool; session : bool; protocol_level : bool; proxy_level : bool;
  remote : bool; fault_level : bool; quitting : bool; objects : bool; verbose : bool;
}.

Definition handle_logging (defined out : log_levels) (stopped : bool) (include exclude : array) : handled :=
  if stopped then (false, [])
  else if negb (length include =? 0)%nat || negb (length exclude =? 0)%nat
  then failed BitcoindError.invalid_parameter
  else
    let level (flag : log_levels → bool) := boolean_t (flag defined && flag out) in
    replied (reply_value (object_t
      [("application", level application); ("news", level news); ("session", level session);
       ("protocol", level protocol_level); ("proxy", level proxy_level); ("remote", level remote);
       ("fault", level fault_level); ("quitting", level quitting); ("objects", level objects);
       ("verbose", level verbose)])).

(** The times are the arguments [now] and [start]. *)
Definition handle_uptime `{SizeMath} (now start : Z) (stopped : bool) : handled :=
  if stopped then (false, [])
  else replied (reply_value (uint64_t (floored_subtract (now mod 2 ^ 64) (start mod 2 ^ 64)))).

(** ** Lemmas *)

(** The usage of a method. *)
Definition usage_of (entry : rpc_method) : string :=
  foldl usage_parameter (method_name entry) (rpc_parameters entry).

Definition serves_command (command : string) (entry : rpc_method) : bool :=
  implemented entry && (method_name entry == command).

Lemma append_usage_eq command out entry :
  append_usage command out entry = if serves_command command entry then usage_of entry else out.
Proof.
  unfold append_usage, serves_command, usage_of. destruct (implemented entry); simpl; [|done].
  by destruct (String.eqb_spec (method_name entry) command) as [->|].
Qed.

Lemma foldl_concat {A B} (f : A → B → A) (ls : list (list B)) a :
  foldl (foldl f) a ls = foldl f a (concat ls).
Proof. revert a. induction ls as [|l ls IH]; intros a; simpl; [done|]. by rewrite IH, foldl_app. Qed.

(** The usage that is found is that of the only method of the name. *)
Lemma find_usage_spec command out methods :
  NoDup (method_name <$> methods) →
  find_usage command out methods =
    from_option usage_of out (List.find (serves_command command) methods).
Proof.
  unfold find_usage. revert out. induction methods as [|m methods IH]; intros out Hdup; [done|].
  rewrite fmap_cons, NoDup_cons in Hdup. destruct Hdup as [Hm Hdup]. simpl.
  rewrite append_usage_eq, IH by done. destruct (serves_command command m) eqn:Hserves; [|done].
  destruct (List.find (serves_command command) methods) as [m'|] eqn:Hfind; [|done].
  apply List.find_some in Hfind as [Hin Hserves']. exfalso. apply Hm.
  apply andb_prop in Hserves as [_ <-%String.eqb_eq]. apply andb_prop in Hserves' as [_ Hname%String.eqb_eq].
  rewrite <-Hname. apply list_elem_of_fmap_2. by apply list_elem_of_In.
Qed.

Lemma append_methods_spec out methods :
  append_methods out methods =
    (out ++ (describe_method <$> filter (λ m, implemented m = true) methods))%list.
Proof.
  unfold append_methods. revert out. induction methods as [|m methods IH]; intros out; simpl.
  { by rewrite app_nil_r. }
  rewrite IH. unfold append_method. rewrite filter_cons. destruct (implemented m); simpl; [|done].
  by rewrite <-app_assoc.
Qed.

Lemma usage_nonempty entry : is_empty (method_name entry) = false → is_empty (usage_of entry) = false.
Proof.
  unfold usage_of. generalize (method_name entry). induction (rpc_parameters entry) as [|p ps IH]; [done|].
  intros out Hout. apply IH. unfold usage_parameter. by destruct out.
Qed.

End Control.

(** ** Refused methods *)

Section Refused.
Context `{Peers}.

Definition network_replies (handler : bool → bool * list network_action) (stopped : bool) : handled :=
  let '(kept, actions) := handler stopped in
  (kept, omap (λ a, match a with network_reply r => Some r | _ => None end) actions).

(** The handlers of every protocol that always reply an error, by their methods. *)
Definition refusals : list (string * (bool → handled)) :=
  ([("pruneblockchain", handle_prune_block_chain); ("dumptxoutset", handle_dump_tx_out_set);
    ("loadtxoutset", handle_load_tx_out_set); ("getblockfrompeer", handle_get_block_from_peer);
    ("getmempoolcluster", handle_get_mempool_cluster); ("stop", handle_stop);
    ("submitblock", handle_submit_block); ("getblocktemplate", handle_get_block_template);
    ("getprioritisedtransactions", handle_get_prioritised_transactions);
    ("prioritisetransaction", handle_prioritise_transaction);
    ("clearbanned", network_replies handle_clear_banned);
    ("listbanned", network_replies handle_list_banned); ("setban", network_replies handle_set_ban);
    ("exportasmap", network_replies handle_export_asmap);
    ("descriptorprocesspsbt", handle_descriptor_process_psbt);
    ("abortprivatebroadcast", handle_abort_private_broadcast);
    ("getprivatebroadcastinfo", handle_get_private_broadcast_info);
    ("signrawtransactionwithkey", handle_sign_raw_transaction_with_key);
    ("signmessagewithprivkey", handle_sign_message_with_priv_key)] ++
   test_handlers ++ wallet_handlers)%list.

(** Whether a handler is a refusal. *)
Definition is_refusal (h : bool → handled) : Prop := h true = (false, []) ∧ ∃ e, h false = failed e.

Lemma refusals_refuse : Forall (λ entry, is_refusal entry.2) refusals.
Proof. repeat constructor; by eexists. Qed.

(** The methods that are advertised but refused. *)
Definition advertised_refusals : list string := ["submitblock"; "exportasmap"].

Lemma refusals_unimplemented :
  Forall (λ m, (implemented m = false ∨ method_name m ∈ advertised_refusals) ↔
    method_name m ∈ refusals.*1) (concat bitcoind_interfaces).
Proof. apply (bool_decide_unpack _). vm_compute. exact I. Qed.

End Refused.

(** Help and discovery describe the interfaces. Without a command, help gives the
    names of the protocols; for a command, it gives the usage of the one
    implemented method of that name, and otherwise, also for a method that is not
    implemented, reports it as unknown; discovery lists exactly the implemented
    methods, in order. Every method that is not implemented has a handler, which always
    replies an error, and so have, although they are described, submitblock and
    exportasmap, but no other. *)
Theorem control_describes_interfaces `{Peers} is_defaulted help_names settings version_text :
  (∀ command,
    handle_help is_defaulted help_names false command =
      replied (reply_value (string_t
        (if is_empty command then help_names
         else
           match List.find (serves_command command) (concat bitcoind_interfaces) with
           | Some m => usage_of is_defaulted m
           | None => "help: unknown command: " +:+ command
           end)))) ∧
  handle_rpc_discover is_defaulted settings version_text false =
    replied (reply_value (object_t
      [("openrpc", string_t "1.2.6");
       ("info", object_t [("title", string_t (subversion settings)); ("version", string_t version_text)]);
       ("methods", array_t (describe_method is_defaulted <$>
         filter (λ m, implemented m = true) (concat bitcoind_interfaces)))])) ∧
  Forall (λ m, (implemented m = false ∨ method_name m ∈ ["submitblock"; "exportasmap"]) ↔
    method_name m ∈ refusals.*1) (concat bitcoind_interfaces) ∧
  Forall (λ entry, is_refusal entry.2) refusals.
Proof.
  split_and!; [| |apply refusals_unimplemented|apply refusals_refuse].
  - intros command. unfold handle_help. destruct (is_empty command) eqn:Hcommand; [done|].
    unfold find_usage. rewrite foldl_concat. fold (find_usage is_defaulted command "" (concat bitcoind_interfaces)).
    rewrite find_usage_spec by apply interface_names_distinct.
    destruct (List.find _ _) as [m|] eqn:Hfind; [|done]. simpl.
    apply List.find_some in Hfind as [_ Hserves]. apply andb_prop in Hserves as [_ Hname%String.eqb_eq].
    rewrite usage_nonempty; [done|]. by rewrite Hname.
  - unfold handle_rpc_discover, send_openrpc, append_methods. rewrite foldl_concat.
    fold (append_methods is_defaulted [] (concat bitcoind_interfaces)). by rewrite append_methods_spec.
Qed.
