(* ===== verification/Zmq.v ===== *)
(** The zmq service of bitcoind notifications
    (src/protocols/bitcoind/protocol_bitcoind_zmq.cpp), and the method that lists its
    endpoints (src/protocols/bitcoind/protocol_bitcoind_notifications.cpp).

    Requests, broadcasts and the jobs that events post run on the channel's strand; an
    event reads the subscription flags on its own thread. A channel demands the wire
    form of blocks and transactions of the node while it is subscribed to them. *)
From S2P Require Import Prelude Rpc Errors System FeeHistogram ElectrumSubscribe Dispatch Archive MempoolFile.

(** ** Notifications of endpoints *)

Definition topic_hash_block : string := "hashblock".
Definition topic_raw_block : string := "rawblock".
Definition topic_hash_tx : string := "hashtx".
Definition topic_raw_tx : string := "rawtx".
Definition topic_sequence : string := "sequence".

Definition zmq_notification (bind topic : string) : value_t :=
  object_t [("type", string_t ("pub" +:+ topic)); ("address", string_t ("tcp://" +:+ bind));
            ("hwm", int64_t 0)].

Definition add_zmq_notifications (notifications : array) (bindings : list string) : array :=
  foldl (λ out bind, out ++ (zmq_notification bind <$>
    [topic_hash_block; topic_raw_block; topic_hash_tx; topic_raw_tx; topic_sequence]))%list
    notifications bindings.

(** The texts of the clear and of the secured bindings are the arguments. *)
Definition handle_get_zmq_notifications (binds safes : list string) (stopped : bool) : handled :=
  if stopped then (false, [])
  else replied (reply_value (array_t (add_zmq_notifications (add_zmq_notifications [] binds) safes))).

(** ** State *)

(** [wire_tx] and [wire_block], and the transactions of a stored block. *)
Class ZmqArchive `{TxArchive} := {
  wire_tx : Type;
  block_transactions : archive → header_link → list tx_link;
}.

Section Zmq.
Context `{ZmqArchive}.

Inductive zmq_label := block_connected | block_disconnected | transaction_accepted | transaction_removed.

(** The characters of the labels. *)
Definition label_value (l : zmq_label) : Z :=
  match l with
  | block_connected => 67 | block_disconnected => 68
  | transaction_accepted => 65 | transaction_removed => 82
  end.

(** The flags of the topics and the counters, of 32 bits but for the pool. *)
Record zmq_state := Zmq {
  subscribed_hash_block : bool;
  subscribed_raw_block : bool;
  subscribed_hash_tx : bool;
  subscribed_raw_tx : bool;
  subscribed_sequence : bool;
  zmq_subscriptions : Z;
  sequences : Z;
  hash_blocks : Z;
  raw_blocks : Z;
  hash_txs : Z;
  raw_txs : Z;
  pool : Z;
  zmq_stopped : bool;
}.

Definition zmq_start : zmq_state := Zmq false false false false false 0 0 0 0 0 0 0 false.

Inductive zmq_body :=
  | body_chunk (data : data_chunk)
  | body_tx (tx : wire_tx)
  | body_block (txs : list wire_tx).

Inductive zmq_effect :=
  | zmq_publish (topic : string) (sequence : Z) (body : zmq_body)
  | demand_wire_tx (demand : bool)
  | demand_wire_block (demand : bool)
  | zmq_stop.

(** What a step does: the state and the effects. *)
Abbreviation zmq_result := (zmq_state * list zmq_effect)%type.

Definition next32 (n : Z) : Z := (n + 1) mod 2 ^ 32.

Definition set_flags (hash_block raw_block hash_tx raw_tx sequence : bool) (s : zmq_state) : zmq_state :=
  Zmq hash_block raw_block hash_tx raw_tx sequence (zmq_subscriptions s) (sequences s) (hash_blocks s)
    (raw_blocks s) (hash_txs s) (raw_txs s) (pool s) (zmq_stopped s).

Definition set_count (n : Z) (s : zmq_state) : zmq_state :=
  Zmq (subscribed_hash_block s) (subscribed_raw_block s) (subscribed_hash_tx s) (subscribed_raw_tx s)
    (subscribed_sequence s) n (sequences s) (hash_blocks s) (raw_blocks s) (hash_txs s) (raw_txs s)
    (pool s) (zmq_stopped s).

(** The counters of the topics and of the pool. *)
Definition set_counters (sequences_ hash_blocks_ raw_blocks_ hash_txs_ raw_txs_ pool_ : Z) (s : zmq_state) :
    zmq_state :=
  Zmq (subscribed_hash_block s) (subscribed_raw_block s) (subscribed_hash_tx s) (subscribed_raw_tx s)
    (subscribed_sequence s) (zmq_subscriptions s) sequences_ hash_blocks_ raw_blocks_ hash_txs_ raw_txs_
    pool_ (zmq_stopped s).

(** ** Subscriptions *)

(** [set_subscription]: the flag, and whether it has changed. *)
Definition set_subscription (subscribed : bool) (topic prefix : string) (cancel : bool) : bool * bool :=
  if String.prefix prefix topic then (negb cancel, Bool.eqb subscribed cancel) else (subscribed, false).

Definition zmq_subscribe (maximum_subscriptions : Z) (prefix : string) (cancel : bool) (s : zmq_state) :
    zmq_result :=
  if zmq_stopped s then (s, [])
  else
    let n := zmq_subscriptions s in
    let count := if cancel then (if n =? 0 then n else n - 1) else next32 n in
    let s := set_count count s in
    if negb cancel && (maximum_subscriptions <? count) then (s, [zmq_stop])
    else
      let '(hash_block, _) := set_subscription (subscribed_hash_block s) topic_hash_block prefix cancel in
      let '(hash_tx, _) := set_subscription (subscribed_hash_tx s) topic_hash_tx prefix cancel in
      let '(sequence, _) := set_subscription (subscribed_sequence s) topic_sequence prefix cancel in
      let '(raw_block, block_changed) :=
        set_subscription (subscribed_raw_block s) topic_raw_block prefix cancel in
      let '(raw_tx, tx_changed) := set_subscription (subscribed_raw_tx s) topic_raw_tx prefix cancel in
      (set_flags hash_block raw_block hash_tx raw_tx sequence s,
       ((if block_changed then [demand_wire_block (negb cancel)] else []) ++
        (if tx_changed then [demand_wire_tx (negb cancel); demand_wire_block (negb cancel)] else []))%list).

(** The release of the demands when the channel stops. *)
Definition zmq_stopping (s : zmq_state) : zmq_result :=
  (Zmq (subscribed_hash_block s) false (subscribed_hash_tx s) false (subscribed_sequence s)
     (zmq_subscriptions s) (sequences s) (hash_blocks s) (raw_blocks s) (hash_txs s) (raw_txs s) (pool s) true,
   ((if subscribed_raw_tx s then [demand_wire_tx false; demand_wire_block false] else []) ++
    (if subscribed_raw_block s then [demand_wire_block false] else []))%list).

(** ** Broadcasts *)

Definition publish_raw_tx (tx : wire_tx) (s : zmq_state) : zmq_result :=
  (set_counters (sequences s) (hash_blocks s) (raw_blocks s) (hash_txs s) (next32 (raw_txs s)) (pool s) s,
   [zmq_publish topic_raw_tx (raw_txs s) (body_tx tx)]).

Definition publish_raw_block (txs : list wire_tx) (s : zmq_state) : zmq_result :=
  (set_counters (sequences s) (hash_blocks s) (next32 (raw_blocks s)) (hash_txs s) (raw_txs s) (pool s) s,
   [zmq_publish topic_raw_block (raw_blocks s) (body_block txs)]).

(** Steps in sequence. *)
Definition then_ (r : zmq_result) (f : zmq_state → zmq_result) : zmq_result :=
  let '(s, effects) := r in let '(s, more) := f s in (s, effects ++ more)%list.

Definition each_ {A} (f : A → zmq_state → zmq_result) (xs : list A) (s : zmq_state) : zmq_result :=
  foldl (λ r x, then_ r (f x)) (s, []) xs.

Definition handle_wire_tx (tx : wire_tx) (s : zmq_state) : zmq_result :=
  if zmq_stopped s then (s, [])
  else if subscribed_raw_tx s then publish_raw_tx tx s else (s, []).

Definition handle_wire_block (txs : list wire_tx) (organized : bool) (s : zmq_state) : zmq_result :=
  if zmq_stopped s then (s, [])
  else
    then_ (if subscribed_raw_tx s then each_ publish_raw_tx txs s else (s, []))
      (λ s, if organized && subscribed_raw_block s then publish_raw_block txs s else (s, [])).

(** ** Events *)

Definition blocks (s : zmq_state) : bool := subscribed_hash_block s || subscribed_sequence s.
Definition transactions (s : zmq_state) : bool := subscribed_hash_tx s.

Inductive zmq_job :=
  | job_organized (link : header_link)
  | job_reorganized (link : header_link)
  | job_transaction (link : tx_link).

(** Links of events are of headers and of transactions. *)
Inductive zmq_event :=
  | event_organized (link : header_link)
  | event_transaction (link : tx_link)
  | event_reorganized (link : header_link)
  | event_other.

(** [handle_chase]: whether the subscription is kept, and the job that is posted. *)
Definition zmq_chase (current : bool) (event : zmq_event) (s : zmq_state) : bool * list zmq_job :=
  if zmq_stopped s then (false, [])
  else
    (true,
     match event with
     | event_organized link => if (blocks s || transactions s) && current then [job_organized link] else []
     | event_transaction link =>
         if transactions s || subscribed_sequence s then [job_transaction link] else []
     | event_reorganized link =>
         if (blocks s || transactions s) && current then [job_reorganized link] else []
     | event_other => []
     end).

(** ** Jobs *)

Definition sequence_body (l : zmq_label) (hash : hash_digest) (pool_ : Z) : data_chunk :=
  let tx := match l with transaction_accepted | transaction_removed => true | _ => false end in
  (reverse hash ++ [label_value l] ++ if tx then to_little_endian 8 pool_ else [])%list.

Definition publish_hash_tx (hash : hash_digest) (s : zmq_state) : zmq_result :=
  (set_counters (sequences s) (hash_blocks s) (raw_blocks s) (next32 (hash_txs s)) (raw_txs s) (pool s) s,
   [zmq_publish topic_hash_tx (hash_txs s) (body_chunk (reverse hash))]).

Definition publish_hash_block (hash : hash_digest) (s : zmq_state) : zmq_result :=
  (set_counters (sequences s) (next32 (hash_blocks s)) (raw_blocks s) (hash_txs s) (raw_txs s) (pool s) s,
   [zmq_publish topic_hash_block (hash_blocks s) (body_chunk (reverse hash))]).

Definition publish_sequence (l : zmq_label) (hash : hash_digest) (s : zmq_state) : zmq_result :=
  let tx := match l with transaction_accepted => true | _ => false end in
  let pool_ := if tx then pool s else 0 in
  (set_counters (next32 (sequences s)) (hash_blocks s) (raw_blocks s) (hash_txs s) (raw_txs s)
     (if tx then (pool s + 1) mod 2 ^ 64 else pool s) s,
   [zmq_publish topic_sequence (sequences s) (body_chunk (sequence_body l hash pool_))]).

(** [publish] of a transaction. *)
Definition publish_tx (q : archive) (sequenced : bool) (link : tx_link) (s : zmq_state) : zmq_result :=
  let hash := get_tx_key q link in
  if bool_decide (hash = null_hash) then (s, [])
  else
    then_ (if subscribed_hash_tx s then publish_hash_tx hash s else (s, []))
      (λ s, if sequenced && subscribed_sequence s then publish_sequence transaction_accepted hash s
            else (s, [])).

Definition do_organized (q : archive) (link : header_link) (s : zmq_state) : zmq_result :=
  let hash := get_header_key q link in
  if zmq_stopped s || bool_decide (hash = null_hash) then (s, [])
  else
    then_ (then_ (if transactions s then each_ (publish_tx q false) (block_transactions q link) s else (s, []))
        (λ s, if subscribed_hash_block s then publish_hash_block hash s else (s, [])))
      (λ s, if subscribed_sequence s then publish_sequence block_connected hash s else (s, [])).

Definition do_reorganized (q : archive) (link : header_link) (s : zmq_state) : zmq_result :=
  let hash := get_header_key q link in
  if zmq_stopped s || bool_decide (hash = null_hash) then (s, [])
  else
    then_ (if transactions s then each_ (publish_tx q false) (block_transactions q link) s else (s, []))
      (λ s, if subscribed_sequence s then publish_sequence block_disconnected hash s else (s, [])).

Definition do_transaction (q : archive) (link : tx_link) (s : zmq_state) : zmq_result :=
  if zmq_stopped s then (s, []) else publish_tx q true link s.

(** ** Runs *)

(** What the strand runs, in any order: requests, broadcasts, jobs and the stop. *)
Inductive zmq_input :=
  | input_subscribe (prefix : string) (cancel : bool)
  | input_wire_tx (tx : wire_tx)
  | input_wire_block (txs : list wire_tx) (organized : bool)
  | input_job (q : archive) (job : zmq_job)
  | input_stopping.

Context (maximum_subscriptions : Z).

Definition zmq_step (i : zmq_input) (s : zmq_state) : zmq_result :=
  match i with
  | input_subscribe prefix cancel => zmq_subscribe maximum_subscriptions prefix cancel s
  | input_wire_tx tx => handle_wire_tx tx s
  | input_wire_block txs organized => handle_wire_block txs organized s
  | input_job q (job_organized link) => do_organized q link s
  | input_job q (job_reorganized link) => do_reorganized q link s
  | input_job q (job_transaction link) => do_transaction q link s
  | input_stopping => zmq_stopping s
  end.

Definition zmq_run (inputs : list zmq_input) : zmq_result := each_ zmq_step inputs zmq_start.

(** ** Balances and numbers *)

Definition topics : list string :=
  [topic_hash_block; topic_raw_block; topic_hash_tx; topic_raw_tx; topic_sequence].

(** The flag and the counter of a topic. *)
Definition topic_flag (s : zmq_state) (topic : string) : bool :=
  if topic == topic_hash_block then subscribed_hash_block s
  else if topic == topic_raw_block then subscribed_raw_block s
  else if topic == topic_hash_tx then subscribed_hash_tx s
  else if topic == topic_raw_tx then subscribed_raw_tx s
  else subscribed_sequence s.

Definition topic_counter (s : zmq_state) (topic : string) : Z :=
  if topic == topic_hash_block then hash_blocks s
  else if topic == topic_raw_block then raw_blocks s
  else if topic == topic_hash_tx then hash_txs s
  else if topic == topic_raw_tx then raw_txs s
  else sequences s.

Definition signed (demand : bool) : Z := if demand then 1 else -1.

(** The demands that are held of the node: those made less those released. *)
Definition tx_demands (effects : list zmq_effect) : Z :=
  sum_with (λ e, match e with demand_wire_tx demand => signed demand | _ => 0 end) effects.

Definition block_demands (effects : list zmq_effect) : Z :=
  sum_with (λ e, match e with demand_wire_block demand => signed demand | _ => 0 end) effects.

(** The sequence numbers that are published of a topic. *)
Definition numbers (topic : string) (effects : list zmq_effect) : list Z :=
  omap (λ e, match e with
             | zmq_publish t n _ => if t == topic then Some n else None
             | _ => None
             end) effects.

(** [n] numbers from a counter on, of 32 bits. *)
Definition consecutive (counter : Z) (n : nat) : list Z :=
  (λ k, (counter + Z.of_nat k) mod 2 ^ 32) <$> seq 0 n.

(** Steps from a state that lead to another with effects: the demands follow the raw
    flags, and the numbers of each topic its counter. *)
Record zmq_ok (s : zmq_state) (effects : list zmq_effect) (s' : zmq_state) : Prop := {
  ok_tx_demands : tx_demands effects = Z.b2z (subscribed_raw_tx s') - Z.b2z (subscribed_raw_tx s);
  ok_block_demands : block_demands effects =
    Z.b2z (subscribed_raw_block s') + Z.b2z (subscribed_raw_tx s') -
    Z.b2z (subscribed_raw_block s) - Z.b2z (subscribed_raw_tx s);
  ok_numbers : Forall (λ topic,
    numbers topic effects = consecutive (topic_counter s topic) (length (numbers topic effects)) ∧
    topic_counter s' topic =
      (topic_counter s topic + Z.of_nat (length (numbers topic effects))) mod 2 ^ 32) topics;
  ok_stopped : zmq_stopped s = true → zmq_stopped s' = true;
}.

Definition counters_ok (s : zmq_state) : Prop := Forall (λ topic, 0 <= topic_counter s topic < 2 ^ 32) topics.

Definition result_ok (s : zmq_state) (r : zmq_result) : Prop := counters_ok s → zmq_ok s r.2 r.1.

Lemma consecutive_app c n m :
  (consecutive c n ++ consecutive ((c + Z.of_nat n) mod 2 ^ 32) m)%list = consecutive c (n + m).
Proof.
  unfold consecutive. rewrite seq_app, fmap_app. f_equal. simpl.
  replace (seq n m) with (Nat.add n <$> seq 0 m) by (rewrite fmap_add_seq; f_equal; lia).
  rewrite <-list_fmap_compose. apply list_fmap_ext. intros i k _. simpl.
  rewrite Zplus_mod_idemp_l. f_equal. lia.
Qed.

Lemma counters_ok_step s e s' : zmq_ok s e s' → counters_ok s'.
Proof.
  intros [_ _ Hnumbers _]. eapply Forall_impl; [exact Hnumbers|]. intros topic [_ ->].
  by apply Z.mod_pos_bound.
Qed.

Lemma zmq_ok_refl s : counters_ok s → zmq_ok s [] s.
Proof.
  intros Hs. split; [by rewrite Z.sub_diag|unfold block_demands; simpl; lia| |done].
  eapply Forall_impl; [exact Hs|]. intros topic Htopic. split; [done|]. simpl.
  rewrite Z.add_0_r, Z.mod_small; [done|]. exact Htopic.
Qed.

Lemma zmq_ok_trans s e s' e' s'' : zmq_ok s e s' → zmq_ok s' e' s'' → zmq_ok s (e ++ e') s''.
Proof.
  intros [Htx Hblock Hnumbers Hstop] [Htx' Hblock' Hnumbers' Hstop']. split.
  - unfold tx_demands in *. rewrite sum_with_app. lia.
  - unfold block_demands in *. rewrite sum_with_app. lia.
  - apply Forall_forall. intros topic Htopic. rewrite Forall_forall in Hnumbers, Hnumbers'.
    specialize (Hnumbers topic Htopic) as [Hn Hc]. specialize (Hnumbers' topic Htopic) as [Hn' Hc'].
    assert (numbers topic (e ++ e') = numbers topic e ++ numbers topic e')%list as -> by apply omap_app.
    rewrite length_app. split.
    + rewrite <-consecutive_app, <-Hc. congruence.
    + rewrite Hc', Hc, Zplus_mod_idemp_l. f_equal. lia.
  - auto.
Qed.

Lemma then_ok s r f : result_ok s r → (∀ s', result_ok s' (f s')) → result_ok s (then_ r f).
Proof.
  intros Hr Hf Hs. specialize (Hr Hs). unfold then_. destruct r as [s' e]. simpl in *.
  specialize (Hf s' (counters_ok_step _ _ _ Hr)). destruct (f s') as [s'' e']. simpl in *.
  by eapply zmq_ok_trans.
Qed.

Lemma each_ok {A} (f : A → zmq_state → zmq_result) xs s :
  (∀ x s', result_ok s' (f x s')) → result_ok s (each_ f xs s).
Proof.
  intros Hf. unfold each_. assert (result_ok s (s, [])) as Hstart by (intros Hs; by apply zmq_ok_refl).
  revert Hstart. generalize (s, [] : list zmq_effect). induction xs as [|x xs IH]; intros r Hr; simpl; [done|].
  apply IH, then_ok; [done|]. apply Hf.
Qed.

Lemma quiet_ok s : result_ok s (s, []).
Proof. intros Hs. by apply zmq_ok_refl. Qed.

Ltac zmq_topics :=
  intros Hs; pose proof Hs as Hcounters; unfold counters_ok, topics in Hcounters;
  rewrite !Forall_cons in Hcounters; destruct Hcounters as (Hc1 & Hc2 & Hc3 & Hc4 & Hc5 & _);
  cbn in Hc1, Hc2, Hc3, Hc4, Hc5;
  split; [cbn; lia|cbn; lia| |done];
  unfold topics; rewrite !Forall_cons; split_and!; try done; cbn;
  rewrite ?Z.add_0_r, ?Z.mod_small by lia; try done.

Lemma publish_raw_tx_ok tx s : result_ok s (publish_raw_tx tx s).
Proof. zmq_topics. Qed.
Lemma publish_raw_block_ok txs s : result_ok s (publish_raw_block txs s).
Proof. zmq_topics. Qed.
Lemma publish_hash_tx_ok hash s : result_ok s (publish_hash_tx hash s).
Proof. zmq_topics. Qed.
Lemma publish_hash_block_ok hash s : result_ok s (publish_hash_block hash s).
Proof. zmq_topics. Qed.
Lemma publish_sequence_ok l hash s : result_ok s (publish_sequence l hash s).
Proof. zmq_topics. Qed.

Lemma publish_tx_ok q sequenced link s : result_ok s (publish_tx q sequenced link s).
Proof.
  unfold publish_tx. case_bool_decide; [apply quiet_ok|]. apply then_ok.
  - destruct (subscribed_hash_tx s); [apply publish_hash_tx_ok|apply quiet_ok].
  - intros s'. destruct (_ && _); [apply publish_sequence_ok|apply quiet_ok].
Qed.

(** The flags of a subscription, case by case of the topics that its prefix matches. *)
Lemma zmq_subscribe_ok maximum prefix cancel s : result_ok s (zmq_subscribe maximum prefix cancel s).
Proof.
  unfold zmq_subscribe. destruct (zmq_stopped s) eqn:Hstopped; [apply quiet_ok|].
  destruct (negb cancel && _); [zmq_topics|].
  unfold set_subscription. generalize (String.prefix prefix topic_hash_block) (String.prefix prefix topic_hash_tx)
    (String.prefix prefix topic_sequence) (String.prefix prefix topic_raw_block) (String.prefix prefix topic_raw_tx).
  intros p1 p2 p3 p4 p5. destruct s as [f1 f2 f3 f4 f5 n c1 c2 c3 c4 c5 c6 stopped]. simpl in Hstopped |- *.
  subst stopped. destruct (if p1 then _ else _) as [? ?], (if p2 then _ else _) as [? ?],
    (if p3 then _ else _) as [? ?]. destruct p4, p5, cancel, f2, f4; zmq_topics.
Qed.

Lemma zmq_stopping_ok s : result_ok s (zmq_stopping s).
Proof.
  destruct s as [f1 f2 f3 f4 f5 n c1 c2 c3 c4 c5 c6 stopped]. unfold zmq_stopping. cbn. destruct f2, f4; zmq_topics.
Qed.

Lemma zmq_step_ok i s : result_ok s (zmq_step i s).
Proof.
  destruct i as [prefix cancel|tx|txs organized|q [link|link|link]|]; simpl.
  - apply zmq_subscribe_ok.
  - unfold handle_wire_tx. destruct (zmq_stopped s), (subscribed_raw_tx s);
      try apply quiet_ok; apply publish_raw_tx_ok.
  - unfold handle_wire_block. destruct (zmq_stopped s); [apply quiet_ok|]. apply then_ok.
    + destruct (subscribed_raw_tx s); [|apply quiet_ok]. apply each_ok. intros. apply publish_raw_tx_ok.
    + intros s'. destruct (_ && _); [apply publish_raw_block_ok|apply quiet_ok].
  - unfold do_organized. destruct (_ || _); [apply quiet_ok|]. apply then_ok; [apply then_ok|].
    + destruct (transactions s); [|apply quiet_ok]. apply each_ok. intros. apply publish_tx_ok.
    + intros s'. destruct (subscribed_hash_block s'); [apply publish_hash_block_ok|apply quiet_ok].
    + intros s'. destruct (subscribed_sequence s'); [apply publish_sequence_ok|apply quiet_ok].
  - unfold do_reorganized. destruct (_ || _); [apply quiet_ok|]. apply then_ok.
    + destruct (transactions s); [|apply quiet_ok]. apply each_ok. intros. apply publish_tx_ok.
    + intros s'. destruct (subscribed_sequence s'); [apply publish_sequence_ok|apply quiet_ok].
  - unfold do_transaction. destruct (zmq_stopped s); [apply quiet_ok|apply publish_tx_ok].
  - apply zmq_stopping_ok.
Qed.

(** A channel that has stopped is subscribed to no wire form. *)
Definition released (s : zmq_state) : Prop :=
  zmq_stopped s = true → subscribed_raw_block s = false ∧ subscribed_raw_tx s = false.

(** What is published is of a topic that is subscribed, and no step but a request or
    the stop changes a flag. *)
Definition same_flags (s s' : zmq_state) : Prop :=
  subscribed_hash_block s' = subscribed_hash_block s ∧ subscribed_raw_block s' = subscribed_raw_block s ∧
  subscribed_hash_tx s' = subscribed_hash_tx s ∧ subscribed_raw_tx s' = subscribed_raw_tx s ∧
  subscribed_sequence s' = subscribed_sequence s ∧ zmq_stopped s' = zmq_stopped s.

Definition publishes_subscribed (s : zmq_state) (r : zmq_result) : Prop :=
  same_flags s r.1 ∧
  Forall (λ e, match e with zmq_publish t _ _ => topic_flag s t = true | _ => False end) r.2.

Lemma same_flags_topic s s' t : same_flags s s' → topic_flag s' t = topic_flag s t.
Proof. intros (F1 & F2 & F3 & F4 & F5 & _). unfold topic_flag. by rewrite F1, F2, F3, F4, F5. Qed.

Lemma same_flags_trans s s' s'' : same_flags s s' → same_flags s' s'' → same_flags s s''.
Proof. unfold same_flags. intuition congruence. Qed.

Lemma then_subscribed s r f :
  publishes_subscribed s r → (∀ s', publishes_subscribed s' (f s')) → publishes_subscribed s (then_ r f).
Proof.
  intros [Hr He] Hf. unfold then_. destruct r as [s' e]. simpl in *. specialize (Hf s') as [Hr' He'].
  destruct (f s') as [s'' e']. split; simpl in *; [by eapply same_flags_trans|].
  apply Forall_app. split; [done|]. eapply Forall_impl; [exact He'|]. intros [t n b| | |]; try done.
  by rewrite (same_flags_topic _ _ _ Hr).
Qed.

Lemma each_subscribed {A} (f : A → zmq_state → zmq_result) (P : zmq_state → Prop) xs s :
  P s → (∀ s s', same_flags s s' → P s → P s') → (∀ x s', P s' → publishes_subscribed s' (f x s')) →
  publishes_subscribed s (each_ f xs s).
Proof.
  intros Hs Hsame Hf. unfold each_. assert (publishes_subscribed s (s, [])) as Hstart by (by split).
  revert Hstart. generalize (s, [] : list zmq_effect). induction xs as [|x xs IH]; intros r Hr; simpl; [done|].
  apply IH. destruct r as [s' e]. destruct Hr as [Hr He]. simpl in *.
  destruct (Hf x s') as [Hr' He']; [by eapply Hsame|]. destruct (f x s') as [s'' e'].
  split; simpl in *; [by eapply same_flags_trans|]. apply Forall_app. split; [done|].
  eapply Forall_impl; [exact He'|]. intros [t n b| | |]; try done. by rewrite (same_flags_topic _ _ _ Hr).
Qed.

Lemma quiet_subscribed s : publishes_subscribed s (s, []).
Proof. by split. Qed.

Lemma publish_tx_subscribed q sequenced link s : publishes_subscribed s (publish_tx q sequenced link s).
Proof.
  unfold publish_tx. case_bool_decide; [apply quiet_subscribed|]. apply then_subscribed.
  - destruct (subscribed_hash_tx s) eqn:Hflag; [|apply quiet_subscribed]. split; [done|]. by repeat constructor.
  - intros s'. destruct (subscribed_sequence s') eqn:Hflag, sequenced; try apply quiet_subscribed.
    split; [done|]. by repeat constructor.
Qed.

Lemma flagged_subscribed s (flag : bool) r :
  (flag = true → publishes_subscribed s r) → publishes_subscribed s (if flag then r else (s, [])).
Proof. destruct flag; [auto|intros _; apply quiet_subscribed]. Qed.

(** Whether an input is a broadcast or a job. *)
Definition publishing (i : zmq_input) : bool :=
  match i with input_wire_tx _ | input_wire_block _ _ | input_job _ _ => true | _ => false end.

Lemma zmq_step_subscribed i s :
  publishing i = true → publishes_subscribed s (zmq_step i s).
Proof.
  destruct i as [prefix cancel|tx|txs organized|q [link|link|link]|]; simpl; try done; intros _.
  - unfold handle_wire_tx. destruct (zmq_stopped s); [apply quiet_subscribed|].
    apply flagged_subscribed. intros Hflag. split; [done|]. by repeat constructor.
  - unfold handle_wire_block. destruct (zmq_stopped s); [apply quiet_subscribed|]. apply then_subscribed.
    + apply flagged_subscribed. intros Hflag.
      apply (each_subscribed _ (λ s, subscribed_raw_tx s = true)); [done| |].
      * intros s1 s2 (_ & _ & _ & Hsame & _) ?. congruence.
      * intros x s' Hs'. split; [done|]. by repeat constructor.
    + intros s'. destruct organized; [|apply quiet_subscribed]. simpl. apply flagged_subscribed.
      intros Hflag. split; [done|]. by repeat constructor.
  - unfold do_organized. destruct (_ || _); [apply quiet_subscribed|].
    apply then_subscribed; [apply then_subscribed|].
    + apply flagged_subscribed. intros _. apply (each_subscribed _ (λ _, True)); [done|done|].
      intros. apply publish_tx_subscribed.
    + intros s'. apply flagged_subscribed. intros Hflag. split; [done|]. by repeat constructor.
    + intros s'. apply flagged_subscribed. intros Hflag. split; [done|]. by repeat constructor.
  - unfold do_reorganized. destruct (_ || _); [apply quiet_subscribed|]. apply then_subscribed.
    + apply flagged_subscribed. intros _. apply (each_subscribed _ (λ _, True)); [done|done|].
      intros. apply publish_tx_subscribed.
    + intros s'. apply flagged_subscribed. intros Hflag. split; [done|]. by repeat constructor.
  - unfold do_transaction. destruct (zmq_stopped s); [apply quiet_subscribed|apply publish_tx_subscribed].
Qed.

Lemma zmq_step_released i s : released s → released (zmq_step i s).1.
Proof.
  destruct (publishing i) eqn:Hkind.
  - pose proof (zmq_step_subscribed i s Hkind) as [(_ & F2 & _ & F4 & _ & F6) _].
    unfold released. by rewrite F2, F4, F6.
  - destruct i as [prefix cancel| | | |]; try done. simpl. unfold released, zmq_subscribe.
    intros Hs. destruct (zmq_stopped s) eqn:Hstopped; [simpl; by rewrite Hstopped|].
    destruct (_ && _); [simpl; congruence|]. unfold set_subscription.
    repeat case_match; simplify_eq; simpl; congruence.
Qed.

Lemma zmq_run_ok inputs :
  zmq_ok zmq_start (zmq_run inputs).2 (zmq_run inputs).1 ∧
  released (zmq_run inputs).1.
Proof.
  split.
  - apply each_ok; [intros; apply zmq_step_ok|]. by repeat constructor.
  - unfold zmq_run, each_. assert (released (zmq_start, [] : list zmq_effect).1) as Hstart by done.
    revert Hstart. generalize (zmq_start, [] : list zmq_effect).
    induction inputs as [|i inputs IH]; intros [s e] Hs; simpl; [done|]. apply IH.
    pose proof (zmq_step_released i s Hs) as Hstep. by destruct (zmq_step i s).
Qed.

End Zmq.

(** ** Properties *)

(** C12: whatever requests, broadcasts and jobs a channel runs, in any order, it holds
    of the node exactly one demand for transactions while it is subscribed to raw
    transactions, and one demand for blocks for each of raw blocks and raw transactions,
    and none once it has stopped; the sequence numbers of each topic count its
    notifications from zero, without a gap, modulo 2^32; and a broadcast or a job
    publishes only what is subscribed and changes no subscription. *)
Theorem zmq_correct `{ZmqArchive} maximum_subscriptions inputs :
  let '(s, effects) := zmq_run maximum_subscriptions inputs in
  tx_demands effects = (if zmq_stopped s then 0 else Z.b2z (subscribed_raw_tx s)) ∧
  block_demands effects =
    (if zmq_stopped s then 0 else Z.b2z (subscribed_raw_block s) + Z.b2z (subscribed_raw_tx s)) ∧
  Forall (λ topic, numbers topic effects = consecutive 0 (length (numbers topic effects))) topics ∧
  ∀ i, if publishing i then publishes_subscribed s (zmq_step maximum_subscriptions i s) else True.
Proof.
  pose proof (zmq_run_ok maximum_subscriptions inputs) as [[Htx Hblock Hnumbers _] Hreleased].
  destruct (zmq_run maximum_subscriptions inputs) as [s effects]. simpl in *. split_and!.
  - rewrite Htx. destruct (zmq_stopped s) eqn:Hstopped; [|lia].
    destruct (Hreleased Hstopped) as [_ ->]. done.
  - rewrite Hblock. destruct (zmq_stopped s) eqn:Hstopped; [|lia].
    destruct (Hreleased Hstopped) as [-> ->]. done.
  - eapply Forall_impl; [exact Hnumbers|]. intros topic [Hn _]. rewrite Hn at 1. unfold topic_counter.
    simpl. by repeat case_match.
  - intros i. destruct (publishing i) eqn:Hi; [|done]. by apply zmq_step_subscribed.
Qed.

(** A flag is set and cleared by any prefix of its topic, so that the cancellation of one
    prefix ends a topic to which another prefix remains subscribed. *)
Example overlapping_prefixes `{ZmqArchive} :
  let '(s, _) := zmq_run 10 [input_subscribe "raw" false; input_subscribe "rawtx" false; input_subscribe "raw" true] in
  zmq_subscriptions s = 1 ∧ subscribed_raw_tx s = false.
Proof. vm_compute. done. Qed.
