(* ===== verification/Options.v ===== *)
(** The settings of the server (src/parser.cpp): the values that the parser
    constructs for a chain, the options of the command line and of the settings file
    with the members that they write, and the order in which they are applied.

    A member of the configuration is named by its path. The parsing of a text to a
    value is that of the options library, as is the command line and file syntax. *)
From stdpp Require Import functions sorting.
From S2P Require Import Prelude.

Inductive selection := mainnet | testnet3 | regtest | testnet4 | none.

#[export] Instance selection_eq_dec : EqDecision selection.
Proof. solve_decision. Defined.

(** The values that the sources name; [real_v m p] is [m / 10 ^ p]. *)
Inductive setting_value :=
  | flag_v (value : bool)
  | number_v (value : Z)
  | real_v (mantissa places : Z)
  | text_v (value : string)
  | endpoints_v (value : list (string * Z)).

#[export] Instance setting_value_eq_dec : EqDecision setting_value.
Proof. solve_decision. Defined.

(** ** The options *)

(** An option of a name writes values of a type to a member; the value of a [secret]
    is not displayed. An option that a build macro guards exists in that build. *)
Record setting_option := Setting {
  option_name : string;
  option_type : string;
  option_member : string;
  option_secret : bool;
  option_build : option string;
}.

(** The options of the command line, by their long names. *)
Definition load_options : list setting_option :=
  [Setting "config" "config::path" "file" false None;
   Setting "accept" "bool" "accept" false None;
   Setting "help" "bool" "help" false None;
   Setting "hardware" "bool" "hardware" false None;
   Setting "settings" "bool" "settings" false None;
   Setting "version" "bool" "version" false None;
   Setting "newstore" "bool" "newstore" false None;
   Setting "backup" "bool" "backup" false None;
   Setting "restore" "bool" "restore" false None;
   Setting "daemon" "bool" "daemon" false None;
   Setting "user" "network::config::credential" "user" false None;
   Setting "flags" "bool" "flags" false None;
   Setting "buckets" "bool" "buckets" false None;
   Setting "collisions" "bool" "collisions" false None;
   Setting "information" "bool" "information" false None;
   Setting "get" "config::hash256" "get" false (Some "WITH_BUILTIN_TESTS");
   Setting "put" "config::hash256" "put" false (Some "WITH_BUILTIN_TESTS")].

Definition forks_options : list setting_option :=
  [Setting "forks.difficult" "bool" "bitcoin.forks.difficult" false None;
   Setting "forks.retarget" "bool" "bitcoin.forks.retarget" false None;
   Setting "forks.bip16" "bool" "bitcoin.forks.bip16" false None;
   Setting "forks.bip30" "bool" "bitcoin.forks.bip30" false None;
   Setting "forks.bip34" "bool" "bitcoin.forks.bip34" false None;
   Setting "forks.bip42" "bool" "bitcoin.forks.bip42" false None;
   Setting "forks.bip66" "bool" "bitcoin.forks.bip66" false None;
   Setting "forks.bip65" "bool" "bitcoin.forks.bip65" false None;
   Setting "forks.bip90" "bool" "bitcoin.forks.bip90" false None;
   Setting "forks.bip68" "bool" "bitcoin.forks.bip68" false None;
   Setting "forks.bip112" "bool" "bitcoin.forks.bip112" false None;
   Setting "forks.bip113" "bool" "bitcoin.forks.bip113" false None;
   Setting "forks.bip141" "bool" "bitcoin.forks.bip141" false None;
   Setting "forks.bip143" "bool" "bitcoin.forks.bip143" false None;
   Setting "forks.bip147" "bool" "bitcoin.forks.bip147" false None;
   Setting "forks.bip341" "bool" "bitcoin.forks.bip341" false None;
   Setting "forks.bip342" "bool" "bitcoin.forks.bip342" false None;
   Setting "forks.time_warp_patch" "bool" "bitcoin.forks.time_warp_patch" false None;
   Setting "forks.block_storm_patch" "bool" "bitcoin.forks.block_storm_patch" false None;
   Setting "forks.ltc_time_warp_patch" "bool" "bitcoin.forks.ltc_time_warp_patch" false None;
   Setting "forks.ltc_retarget_overflow_patch" "bool"
      "bitcoin.forks.ltc_retarget_overflow_patch" false None;
   Setting "forks.ltc_scrypt_proof_of_work" "bool"
      "bitcoin.forks.ltc_scrypt_proof_of_work" false None].

Definition bitcoin_options : list setting_option :=
  [Setting "bitcoin.initial_block_subsidy_bitcoin" "uint64_t"
      "bitcoin.initial_subsidy_bitcoin" false None;
   Setting "bitcoin.subsidy_interval" "uint32_t" "bitcoin.subsidy_interval_blocks" false None;
   Setting "bitcoin.timestamp_limit_seconds" "uint32_t"
      "bitcoin.timestamp_limit_seconds" false None;
   Setting "bitcoin.retargeting_factor" "uint32_t" "bitcoin.retargeting_factor" false None;
   Setting "bitcoin.retargeting_interval_seconds" "uint32_t"
      "bitcoin.retargeting_interval_seconds" false None;
   Setting "bitcoin.block_spacing_seconds" "uint32_t"
      "bitcoin.block_spacing_seconds" false None;
   Setting "bitcoin.proof_of_work_limit" "uint32_t" "bitcoin.proof_of_work_limit" false None;
   Setting "bitcoin.genesis_block" "config::block" "bitcoin.genesis_block" false None;
   Setting "bitcoin.checkpoint" "chain::checkpoints" "bitcoin.checkpoints" false None;
   Setting "bitcoin.bip16_activation_time" "uint32_t"
      "bitcoin.bip16_activation_time" false None;
   Setting "bitcoin.bip34_activation_threshold" "size_t"
      "bitcoin.bip34_activation_threshold" false None;
   Setting "bitcoin.bip34_enforcement_threshold" "size_t"
      "bitcoin.bip34_enforcement_threshold" false None;
   Setting "bitcoin.bip34_activation_sample" "size_t"
      "bitcoin.bip34_activation_sample" false None;
   Setting "bitcoin.bip34_freeze" "size_t" "bitcoin.bip90_bip34_height" false None;
   Setting "bitcoin.bip65_freeze" "size_t" "bitcoin.bip90_bip65_height" false None;
   Setting "bitcoin.bip66_freeze" "size_t" "bitcoin.bip90_bip66_height" false None;
   Setting "bitcoin.bip30_reactivate_height" "size_t"
      "bitcoin.bip30_reactivate_height" false None;
   Setting "bitcoin.bip30_deactivate_checkpoint" "chain::checkpoint"
      "bitcoin.bip30_deactivate_checkpoint" false None;
   Setting "bitcoin.bip9_bit0_active_checkpoint" "chain::checkpoint"
      "bitcoin.bip9_bit0_active_checkpoint" false None;
   Setting "bitcoin.bip9_bit1_active_checkpoint" "chain::checkpoint"
      "bitcoin.bip9_bit1_active_checkpoint" false None;
   Setting "bitcoin.bip9_bit2_active_checkpoint" "chain::checkpoint"
      "bitcoin.bip9_bit2_active_checkpoint" false None;
   Setting "bitcoin.minimum_work" "config::hash256" "bitcoin.minimum_work" false None].

Definition network_options : list setting_option :=
  [Setting "network.threads" "uint32_t" "network.threads" false None;
   Setting "network.retry_timeout_seconds" "uint32_t"
      "network.retry_timeout_seconds" false None;
   Setting "network.connect_timeout_seconds" "uint32_t"
      "network.connect_timeout_seconds" false None;
   Setting "network.rate_limit" "uint32_t" "network.rate_limit" false None;
   Setting "network.blacklist" "network::config::authorities" "network.blacklists" false None;
   Setting "network.whitelist" "network::config::authorities" "network.whitelists" false None].

Definition peer_options : list setting_option :=
  [Setting "peer.address_upper" "uint16_t" "network.address_upper" false None;
   Setting "peer.address_lower" "uint16_t" "network.address_lower" false None;
   Setting "peer.protocol_maximum" "uint32_t" "network.protocol_maximum" false None;
   Setting "peer.protocol_minimum" "uint32_t" "network.protocol_minimum" false None;
   Setting "peer.invalid_services" "uint64_t" "network.invalid_services" false None;
   Setting "peer.enable_address" "bool" "network.enable_address" false None;
   Setting "peer.enable_address_v2" "bool" "network.enable_address_v2" false None;
   Setting "peer.enable_witness_tx" "bool" "network.enable_witness_tx" false None;
   Setting "peer.enable_compact" "bool" "network.enable_compact" false None;
   Setting "peer.enable_alert" "bool" "network.enable_alert" false None;
   Setting "peer.enable_reject" "bool" "network.enable_reject" false None;
   Setting "peer.enable_not_found" "bool" "network.enable_not_found" false None;
   Setting "peer.enable_memory_pool" "bool" "network.enable_memory_pool" false None;
   Setting "peer.enable_relay" "bool" "network.enable_relay" false None;
   Setting "peer.validate_checksum" "bool" "network.validate_checksum" false None;
   Setting "peer.gossip_ipv4" "bool" "network.gossip_ipv4" false None;
   Setting "peer.gossip_ipv6" "bool" "network.gossip_ipv6" false None;
   Setting "peer.gossip_tor" "bool" "network.gossip_tor" false None;
   Setting "peer.gossip_i2p" "bool" "network.gossip_i2p" false None;
   Setting "peer.identifier" "uint32_t" "network.identifier" false None;
   Setting "peer.handshake_timeout_seconds" "uint32_t"
      "network.handshake_timeout_seconds" false None;
   Setting "peer.channel_heartbeat_minutes" "uint32_t"
      "network.channel_heartbeat_minutes" false None;
   Setting "peer.maximum_skew_minutes" "uint32_t" "network.maximum_skew_minutes" false None;
   Setting "peer.user_agent" "std::string" "network.user_agent" false None;
   Setting "peer.path" "config::path" "network.path" false None].

Definition outbound_options : list setting_option :=
  [Setting "outbound.bind" "network::config::authorities" "network.outbound.binds" false None;
   Setting "outbound.connections" "uint16_t" "network.outbound.connections" false None;
   Setting "outbound.current_connections" "uint16_t" "node.current_connections" false None;
   Setting "outbound.rate_limit" "uint32_t" "network.outbound.rate_limit" false None;
   Setting "outbound.connect_timeout_seconds" "uint32_t"
      "network.outbound.connect_timeout_seconds" false None;
   Setting "outbound.inactivity_minutes" "uint32_t"
      "network.outbound.inactivity_minutes" false None;
   Setting "outbound.expiration_minutes" "uint32_t"
      "network.outbound.expiration_minutes" false None;
   Setting "outbound.minimum_buffer" "uint32_t" "network.outbound.minimum_buffer" false None;
   Setting "outbound.maximum_backlog" "uint32_t" "network.outbound.maximum_backlog" false None;
   Setting "outbound.maximum_request" "uint32_t" "network.outbound.maximum_request" false None;
   Setting "outbound.seed" "network::config::endpoints" "network.outbound.seeds" false None;
   Setting "outbound.connect_batch_size" "uint16_t"
      "network.outbound.connect_batch_size" false None;
   Setting "outbound.host_pool_capacity" "uint32_t"
      "network.outbound.host_pool_capacity" false None;
   Setting "outbound.seeding_timeout_seconds" "uint32_t"
      "network.outbound.seeding_timeout_seconds" false None;
   Setting "outbound.username" "std::string" "network.outbound.username" false None;
   Setting "outbound.password" "std::string" "network.outbound.password" true None;
   Setting "outbound.socks" "config::endpoint" "network.outbound.socks" false None].

Definition inbound_options : list setting_option :=
  [Setting "inbound.bind" "network::config::authorities" "network.inbound.binds" false None;
   Setting "inbound.connections" "uint16_t" "network.inbound.connections" false None;
   Setting "inbound.rate_limit" "uint32_t" "network.inbound.rate_limit" false None;
   Setting "inbound.connect_timeout_seconds" "uint32_t"
      "network.inbound.connect_timeout_seconds" false None;
   Setting "inbound.inactivity_minutes" "uint32_t"
      "network.inbound.inactivity_minutes" false None;
   Setting "inbound.expiration_minutes" "uint32_t"
      "network.inbound.expiration_minutes" false None;
   Setting "inbound.minimum_buffer" "uint32_t" "network.inbound.minimum_buffer" false None;
   Setting "inbound.maximum_backlog" "uint32_t" "network.inbound.maximum_backlog" false None;
   Setting "inbound.maximum_request" "uint32_t" "network.inbound.maximum_request" false None;
   Setting "inbound.enable_loopback" "bool" "network.inbound.enable_loopback" false None;
   Setting "inbound.self" "network::config::addresses" "network.inbound.selfs" false None;
   Setting "inbound.username" "std::string" "network.inbound.username" false None;
   Setting "inbound.password" "std::string" "network.inbound.password" true None;
   Setting "inbound.sam" "config::endpoint" "network.inbound.bridge" false None;
   Setting "inbound.key_path" "config::path" "network.inbound.key_path" false None].

Definition manual_options : list setting_option :=
  [Setting "manual.bind" "network::config::authorities" "network.manual.binds" false None;
   Setting "manual.rate_limit" "uint32_t" "network.manual.rate_limit" false None;
   Setting "manual.connect_timeout_seconds" "uint32_t"
      "network.manual.connect_timeout_seconds" false None;
   Setting "manual.inactivity_minutes" "uint32_t"
      "network.manual.inactivity_minutes" false None;
   Setting "manual.expiration_minutes" "uint32_t"
      "network.manual.expiration_minutes" false None;
   Setting "manual.minimum_buffer" "uint32_t" "network.manual.minimum_buffer" false None;
   Setting "manual.maximum_backlog" "uint32_t" "network.manual.maximum_backlog" false None;
   Setting "manual.maximum_request" "uint32_t" "network.manual.maximum_request" false None;
   Setting "manual.peer" "network::config::endpoints" "network.manual.peers" false None;
   Setting "manual.username" "std::string" "network.manual.username" false None;
   Setting "manual.password" "std::string" "network.manual.password" true None;
   Setting "manual.socks" "config::endpoint" "network.manual.socks" false None].

Definition wallet_options : list setting_option :=
  [Setting "wallet.p2kh_prefix" "config::byte" "server.wallet.p2kh_prefix" false None;
   Setting "wallet.p2sh_prefix" "config::byte" "server.wallet.p2sh_prefix" false None;
   Setting "wallet.wif_prefix" "config::byte" "server.wallet.wif_prefix" false None;
   Setting "wallet.witness_prefix" "std::string" "server.wallet.witness_prefix" false None;
   Setting "wallet.silent_prefix" "std::string" "server.wallet.silent_prefix" false None;
   Setting "wallet.hd_private_prefix" "uint32_t" "server.wallet.hd_private_prefix" false None;
   Setting "wallet.hd_public_prefix" "uint32_t" "server.wallet.hd_public_prefix" false None].

Definition admin_options : list setting_option :=
  [Setting "admin.bind" "network::config::authorities" "server.admin.binds" false None;
   Setting "admin.safe" "network::config::authorities" "server.admin.safes" false None;
   Setting "admin.cert_auth" "config::path" "server.admin.cert_auth" false None;
   Setting "admin.cert_path" "config::path" "server.admin.cert_path" false None;
   Setting "admin.key_path" "config::path" "server.admin.key_path" false None;
   Setting "admin.key_pass" "std::string" "server.admin.key_pass" true None;
   Setting "admin.credential" "network::config::credentials"
      "server.admin.credentials" true None;
   Setting "admin.connections" "uint16_t" "server.admin.connections" false None;
   Setting "admin.rate_limit" "uint32_t" "server.admin.rate_limit" false None;
   Setting "admin.connect_timeout_seconds" "uint32_t"
      "server.admin.connect_timeout_seconds" false None;
   Setting "admin.inactivity_minutes" "uint32_t" "server.admin.inactivity_minutes" false None;
   Setting "admin.expiration_minutes" "uint32_t" "server.admin.expiration_minutes" false None;
   Setting "admin.minimum_buffer" "uint32_t" "server.admin.minimum_buffer" false None;
   Setting "admin.maximum_backlog" "uint32_t" "server.admin.maximum_backlog" false None;
   Setting "admin.maximum_buffer" "uint32_t" "server.admin.maximum_buffer" false None;
   Setting "admin.maximum_request" "uint32_t" "server.admin.maximum_request" false None;
   Setting "admin.server" "std::string" "server.admin.server" false None;
   Setting "admin.host" "network::config::endpoints" "server.admin.hosts" false None;
   Setting "admin.origin" "network::config::endpoints" "server.admin.origins" false None;
   Setting "admin.allow_opaque_origin" "bool" "server.admin.allow_opaque_origin" false None;
   Setting "admin.path" "config::path" "server.admin.path" false None;
   Setting "admin.default" "std::string" "server.admin.default_" false None].

Definition native_options : list setting_option :=
  [Setting "native.bind" "network::config::authorities" "server.native.binds" false None;
   Setting "native.safe" "network::config::authorities" "server.native.safes" false None;
   Setting "native.cert_auth" "config::path" "server.native.cert_auth" false None;
   Setting "native.cert_path" "config::path" "server.native.cert_path" false None;
   Setting "native.key_path" "config::path" "server.native.key_path" false None;
   Setting "native.key_pass" "std::string" "server.native.key_pass" true None;
   Setting "native.credential" "network::config::credentials"
      "server.native.credentials" true None;
   Setting "native.connections" "uint16_t" "server.native.connections" false None;
   Setting "native.rate_limit" "uint32_t" "server.native.rate_limit" false None;
   Setting "native.connect_timeout_seconds" "uint32_t"
      "server.native.connect_timeout_seconds" false None;
   Setting "native.inactivity_minutes" "uint32_t" "server.native.inactivity_minutes" false None;
   Setting "native.expiration_minutes" "uint32_t" "server.native.expiration_minutes" false None;
   Setting "native.minimum_buffer" "uint32_t" "server.native.minimum_buffer" false None;
   Setting "native.maximum_backlog" "uint32_t" "server.native.maximum_backlog" false None;
   Setting "native.maximum_buffer" "uint32_t" "server.native.maximum_buffer" false None;
   Setting "native.maximum_request" "uint32_t" "server.native.maximum_request" false None;
   Setting "native.server" "std::string" "server.native.server" false None;
   Setting "native.host" "network::config::endpoints" "server.native.hosts" false None;
   Setting "native.origin" "network::config::endpoints" "server.native.origins" false None;
   Setting "native.allow_opaque_origin" "bool" "server.native.allow_opaque_origin" false None;
   Setting "native.path" "config::path" "server.native.path" false None;
   Setting "native.default" "std::string" "server.native.default_" false None;
   Setting "native.websocket" "bool" "server.native.websocket" false None].

Definition bitcoind_options : list setting_option :=
  [Setting "bitcoind.bind" "network::config::authorities" "server.bitcoind.binds" false None;
   Setting "bitcoind.safe" "network::config::authorities" "server.bitcoind.safes" false None;
   Setting "bitcoind.cert_auth" "config::path" "server.bitcoind.cert_auth" false None;
   Setting "bitcoind.cert_path" "config::path" "server.bitcoind.cert_path" false None;
   Setting "bitcoind.key_path" "config::path" "server.bitcoind.key_path" false None;
   Setting "bitcoind.key_pass" "std::string" "server.bitcoind.key_pass" true None;
   Setting "bitcoind.credential" "network::config::credentials"
      "server.bitcoind.credentials" true None;
   Setting "bitcoind.connections" "uint16_t" "server.bitcoind.connections" false None;
   Setting "bitcoind.rate_limit" "uint32_t" "server.bitcoind.rate_limit" false None;
   Setting "bitcoind.connect_timeout_seconds" "uint32_t"
      "server.bitcoind.connect_timeout_seconds" false None;
   Setting "bitcoind.inactivity_minutes" "uint32_t"
      "server.bitcoind.inactivity_minutes" false None;
   Setting "bitcoind.expiration_minutes" "uint32_t"
      "server.bitcoind.expiration_minutes" false None;
   Setting "bitcoind.minimum_buffer" "uint32_t" "server.bitcoind.minimum_buffer" false None;
   Setting "bitcoind.maximum_backlog" "uint32_t" "server.bitcoind.maximum_backlog" false None;
   Setting "bitcoind.maximum_buffer" "uint32_t" "server.bitcoind.maximum_buffer" false None;
   Setting "bitcoind.maximum_request" "uint32_t" "server.bitcoind.maximum_request" false None;
   Setting "bitcoind.server" "std::string" "server.bitcoind.server" false None;
   Setting "bitcoind.version" "version" "server.bitcoind.version" false None;
   Setting "bitcoind.subversion" "std::string" "server.bitcoind.subversion" false None;
   Setting "bitcoind.host" "network::config::endpoints" "server.bitcoind.hosts" false None;
   Setting "bitcoind.origin" "network::config::endpoints" "server.bitcoind.origins" false None;
   Setting "bitcoind.allow_opaque_origin" "bool"
      "server.bitcoind.allow_opaque_origin" false None].

Definition bitcoind_zmq_options : list setting_option :=
  [Setting "bitcoind_zmq.bind" "network::config::authorities"
      "server.bitcoind_zmq.binds" false None;
   Setting "bitcoind_zmq.safe" "network::config::authorities"
      "server.bitcoind_zmq.safes" false None;
   Setting "bitcoind_zmq.cert" "std::vector<config::base85>"
      "server.bitcoind_zmq.certs" false None;
   Setting "bitcoind_zmq.connections" "uint16_t" "server.bitcoind_zmq.connections" false None;
   Setting "bitcoind_zmq.rate_limit" "uint32_t" "server.bitcoind_zmq.rate_limit" false None;
   Setting "bitcoind_zmq.connect_timeout_seconds" "uint32_t"
      "server.bitcoind_zmq.connect_timeout_seconds" false None;
   Setting "bitcoind_zmq.minimum_buffer" "uint32_t"
      "server.bitcoind_zmq.minimum_buffer" false None;
   Setting "bitcoind_zmq.maximum_backlog" "uint32_t"
      "server.bitcoind_zmq.maximum_backlog" false None;
   Setting "bitcoind_zmq.maximum_request" "uint32_t"
      "server.bitcoind_zmq.maximum_request" false None;
   Setting "bitcoind_zmq.maximum_subscriptions" "uint32_t"
      "server.bitcoind_zmq.maximum_subscriptions" false None;
   Setting "bitcoind_zmq.key" "config::base85" "server.bitcoind_zmq.key" true None].

Definition btcd_options : list setting_option :=
  [Setting "btcd.bind" "network::config::authorities" "server.btcd.binds" false None;
   Setting "btcd.safe" "network::config::authorities" "server.btcd.safes" false None;
   Setting "btcd.cert_auth" "config::path" "server.btcd.cert_auth" false None;
   Setting "btcd.cert_path" "config::path" "server.btcd.cert_path" false None;
   Setting "btcd.key_path" "config::path" "server.btcd.key_path" false None;
   Setting "btcd.key_pass" "std::string" "server.btcd.key_pass" true None;
   Setting "btcd.credential" "network::config::credentials" "server.btcd.credentials" true None;
   Setting "btcd.connections" "uint16_t" "server.btcd.connections" false None;
   Setting "btcd.rate_limit" "uint32_t" "server.btcd.rate_limit" false None;
   Setting "btcd.connect_timeout_seconds" "uint32_t"
      "server.btcd.connect_timeout_seconds" false None;
   Setting "btcd.inactivity_minutes" "uint32_t" "server.btcd.inactivity_minutes" false None;
   Setting "btcd.expiration_minutes" "uint32_t" "server.btcd.expiration_minutes" false None;
   Setting "btcd.minimum_buffer" "uint32_t" "server.btcd.minimum_buffer" false None;
   Setting "btcd.maximum_backlog" "uint32_t" "server.btcd.maximum_backlog" false None;
   Setting "btcd.maximum_buffer" "uint32_t" "server.btcd.maximum_buffer" false None;
   Setting "btcd.maximum_request" "uint32_t" "server.btcd.maximum_request" false None;
   Setting "btcd.server" "std::string" "server.btcd.server" false None;
   Setting "btcd.maximum_filters" "uint32_t" "server.btcd.maximum_filters" false None;
   Setting "btcd.maximum_history" "uint32_t" "server.btcd.maximum_history" false None;
   Setting "btcd.host" "network::config::endpoints" "server.btcd.hosts" false None;
   Setting "btcd.origin" "network::config::endpoints" "server.btcd.origins" false None;
   Setting "btcd.allow_opaque_origin" "bool" "server.btcd.allow_opaque_origin" false None].

Definition electrum_options : list setting_option :=
  [Setting "electrum.bind" "network::config::authorities" "server.electrum.binds" false None;
   Setting "electrum.safe" "network::config::authorities" "server.electrum.safes" false None;
   Setting "electrum.cert_auth" "config::path" "server.electrum.cert_auth" false None;
   Setting "electrum.cert_path" "config::path" "server.electrum.cert_path" false None;
   Setting "electrum.key_path" "config::path" "server.electrum.key_path" false None;
   Setting "electrum.key_pass" "std::string" "server.electrum.key_pass" true None;
   Setting "electrum.credential" "network::config::credentials"
      "server.electrum.credentials" true None;
   Setting "electrum.connections" "uint16_t" "server.electrum.connections" false None;
   Setting "electrum.rate_limit" "uint32_t" "server.electrum.rate_limit" false None;
   Setting "electrum.connect_timeout_seconds" "uint32_t"
      "server.electrum.connect_timeout_seconds" false None;
   Setting "electrum.inactivity_minutes" "uint32_t"
      "server.electrum.inactivity_minutes" false None;
   Setting "electrum.expiration_minutes" "uint32_t"
      "server.electrum.expiration_minutes" false None;
   Setting "electrum.minimum_buffer" "uint32_t" "server.electrum.minimum_buffer" false None;
   Setting "electrum.maximum_backlog" "uint32_t" "server.electrum.maximum_backlog" false None;
   Setting "electrum.maximum_buffer" "uint32_t" "server.electrum.maximum_buffer" false None;
   Setting "electrum.maximum_request" "uint32_t" "server.electrum.maximum_request" false None;
   Setting "electrum.maximum_headers" "uint32_t" "server.electrum.maximum_headers" false None;
   Setting "electrum.maximum_history" "uint32_t" "server.electrum.maximum_history" false None;
   Setting "electrum.maximum_subscriptions" "uint32_t"
      "server.electrum.maximum_subscriptions" false None;
   Setting "electrum.ping_interval_seconds" "uint32_t"
      "server.electrum.ping_interval_seconds" false None;
   Setting "electrum.ping_size" "uint32_t" "server.electrum.ping_size" false None;
   Setting "electrum.protocol_minimum" "version" "server.electrum.protocol_minimum" false None;
   Setting "electrum.protocol_maximum" "version" "server.electrum.protocol_maximum" false None;
   Setting "electrum.server_name" "std::string" "server.electrum.server_name" false None;
   Setting "electrum.donation_address" "std::string"
      "server.electrum.donation_address" false None;
   Setting "electrum.banner_message" "std::string" "server.electrum.banner_message" false None;
   Setting "electrum.self_bind" "network::config::endpoints"
      "server.electrum.self_binds" false None;
   Setting "electrum.self_safe" "network::config::endpoints"
      "server.electrum.self_safes" false None;
   Setting "electrum.more_bind" "network::config::endpoints"
      "server.electrum.more_binds" false None;
   Setting "electrum.more_safe" "network::config::endpoints"
      "server.electrum.more_safes" false None].

Definition sparrow_options : list setting_option :=
  [Setting "sparrow.bind" "network::config::authorities" "server.sparrow.binds" false None;
   Setting "sparrow.safe" "network::config::authorities" "server.sparrow.safes" false None;
   Setting "sparrow.cert_auth" "config::path" "server.sparrow.cert_auth" false None;
   Setting "sparrow.cert_path" "config::path" "server.sparrow.cert_path" false None;
   Setting "sparrow.key_path" "config::path" "server.sparrow.key_path" false None;
   Setting "sparrow.key_pass" "std::string" "server.sparrow.key_pass" true None;
   Setting "sparrow.credential" "network::config::credentials"
      "server.sparrow.credentials" true None;
   Setting "sparrow.connections" "uint16_t" "server.sparrow.connections" false None;
   Setting "sparrow.rate_limit" "uint32_t" "server.sparrow.rate_limit" false None;
   Setting "sparrow.connect_timeout_seconds" "uint32_t"
      "server.sparrow.connect_timeout_seconds" false None;
   Setting "sparrow.inactivity_minutes" "uint32_t"
      "server.sparrow.inactivity_minutes" false None;
   Setting "sparrow.expiration_minutes" "uint32_t"
      "server.sparrow.expiration_minutes" false None;
   Setting "sparrow.minimum_buffer" "uint32_t" "server.sparrow.minimum_buffer" false None;
   Setting "sparrow.maximum_backlog" "uint32_t" "server.sparrow.maximum_backlog" false None;
   Setting "sparrow.maximum_buffer" "uint32_t" "server.sparrow.maximum_buffer" false None;
   Setting "sparrow.maximum_request" "uint32_t" "server.sparrow.maximum_request" false None;
   Setting "sparrow.maximum_headers" "uint32_t" "server.sparrow.maximum_headers" false None;
   Setting "sparrow.maximum_history" "uint32_t" "server.sparrow.maximum_history" false None;
   Setting "sparrow.maximum_subscriptions" "uint32_t"
      "server.sparrow.maximum_subscriptions" false None;
   Setting "sparrow.ping_interval_seconds" "uint32_t"
      "server.sparrow.ping_interval_seconds" false None;
   Setting "sparrow.ping_size" "uint32_t" "server.sparrow.ping_size" false None;
   Setting "sparrow.protocol_minimum" "version" "server.sparrow.protocol_minimum" false None;
   Setting "sparrow.protocol_maximum" "version" "server.sparrow.protocol_maximum" false None;
   Setting "sparrow.server_name" "std::string" "server.sparrow.server_name" false None;
   Setting "sparrow.donation_address" "std::string"
      "server.sparrow.donation_address" false None;
   Setting "sparrow.banner_message" "std::string" "server.sparrow.banner_message" false None;
   Setting "sparrow.self_bind" "network::config::endpoints"
      "server.sparrow.self_binds" false None;
   Setting "sparrow.self_safe" "network::config::endpoints"
      "server.sparrow.self_safes" false None;
   Setting "sparrow.more_bind" "network::config::endpoints"
      "server.sparrow.more_binds" false None;
   Setting "sparrow.more_safe" "network::config::endpoints"
      "server.sparrow.more_safes" false None].

Definition esplora_options : list setting_option :=
  [Setting "esplora.bind" "network::config::authorities" "server.esplora.binds" false None;
   Setting "esplora.safe" "network::config::authorities" "server.esplora.safes" false None;
   Setting "esplora.cert_auth" "config::path" "server.esplora.cert_auth" false None;
   Setting "esplora.cert_path" "config::path" "server.esplora.cert_path" false None;
   Setting "esplora.key_path" "config::path" "server.esplora.key_path" false None;
   Setting "esplora.key_pass" "std::string" "server.esplora.key_pass" true None;
   Setting "esplora.credential" "network::config::credentials"
      "server.esplora.credentials" true None;
   Setting "esplora.connections" "uint16_t" "server.esplora.connections" false None;
   Setting "esplora.rate_limit" "uint32_t" "server.esplora.rate_limit" false None;
   Setting "esplora.connect_timeout_seconds" "uint32_t"
      "server.esplora.connect_timeout_seconds" false None;
   Setting "esplora.inactivity_minutes" "uint32_t"
      "server.esplora.inactivity_minutes" false None;
   Setting "esplora.expiration_minutes" "uint32_t"
      "server.esplora.expiration_minutes" false None;
   Setting "esplora.minimum_buffer" "uint32_t" "server.esplora.minimum_buffer" false None;
   Setting "esplora.maximum_backlog" "uint32_t" "server.esplora.maximum_backlog" false None;
   Setting "esplora.maximum_buffer" "uint32_t" "server.esplora.maximum_buffer" false None;
   Setting "esplora.maximum_request" "uint32_t" "server.esplora.maximum_request" false None;
   Setting "esplora.server" "std::string" "server.esplora.server" false None;
   Setting "esplora.maximum_history" "uint32_t" "server.esplora.maximum_history" false None;
   Setting "esplora.host" "network::config::endpoints" "server.esplora.hosts" false None;
   Setting "esplora.origin" "network::config::endpoints" "server.esplora.origins" false None;
   Setting "esplora.allow_opaque_origin" "bool" "server.esplora.allow_opaque_origin" false None].

Definition stratum_v1_options : list setting_option :=
  [Setting "stratum_v1.bind" "network::config::authorities"
      "server.stratum_v1.binds" false (Some "WITH_STRATUM");
   Setting "stratum_v1.safe" "network::config::authorities"
      "server.stratum_v1.safes" false (Some "WITH_STRATUM");
   Setting "stratum_v1.cert_path" "config::path"
      "server.stratum_v1.cert_path" false (Some "WITH_STRATUM");
   Setting "stratum_v1.key_path" "config::path"
      "server.stratum_v1.key_path" false (Some "WITH_STRATUM");
   Setting "stratum_v1.connections" "uint16_t"
      "server.stratum_v1.connections" false (Some "WITH_STRATUM");
   Setting "stratum_v1.rate_limit" "uint32_t"
      "server.stratum_v1.rate_limit" false (Some "WITH_STRATUM");
   Setting "stratum_v1.connect_timeout_seconds" "uint32_t"
      "server.stratum_v1.connect_timeout_seconds" false (Some "WITH_STRATUM");
   Setting "stratum_v1.inactivity_minutes" "uint32_t"
      "server.stratum_v1.inactivity_minutes" false (Some "WITH_STRATUM");
   Setting "stratum_v1.expiration_minutes" "uint32_t"
      "server.stratum_v1.expiration_minutes" false (Some "WITH_STRATUM");
   Setting "stratum_v1.minimum_buffer" "uint32_t"
      "server.stratum_v1.minimum_buffer" false (Some "WITH_STRATUM");
   Setting "stratum_v1.maximum_backlog" "uint32_t"
      "server.stratum_v1.maximum_backlog" false (Some "WITH_STRATUM");
   Setting "stratum_v1.maximum_buffer" "uint32_t"
      "server.stratum_v1.maximum_buffer" false (Some "WITH_STRATUM");
   Setting "stratum_v1.maximum_request" "uint32_t"
      "server.stratum_v1.maximum_request" false (Some "WITH_STRATUM")].

Definition stratum_v2_options : list setting_option :=
  [Setting "stratum_v2.bind" "network::config::authorities"
      "server.stratum_v2.binds" false (Some "WITH_STRATUM");
   Setting "stratum_v2.connections" "uint16_t"
      "server.stratum_v2.connections" false (Some "WITH_STRATUM");
   Setting "stratum_v2.rate_limit" "uint32_t"
      "server.stratum_v2.rate_limit" false (Some "WITH_STRATUM");
   Setting "stratum_v2.connect_timeout_seconds" "uint32_t"
      "server.stratum_v2.connect_timeout_seconds" false (Some "WITH_STRATUM");
   Setting "stratum_v2.inactivity_minutes" "uint32_t"
      "server.stratum_v2.inactivity_minutes" false (Some "WITH_STRATUM");
   Setting "stratum_v2.expiration_minutes" "uint32_t"
      "server.stratum_v2.expiration_minutes" false (Some "WITH_STRATUM");
   Setting "stratum_v2.minimum_buffer" "uint32_t"
      "server.stratum_v2.minimum_buffer" false (Some "WITH_STRATUM");
   Setting "stratum_v2.maximum_backlog" "uint32_t"
      "server.stratum_v2.maximum_backlog" false (Some "WITH_STRATUM");
   Setting "stratum_v2.maximum_request" "uint32_t"
      "server.stratum_v2.maximum_request" false (Some "WITH_STRATUM")].

Definition node_options : list setting_option :=
  [Setting "node.threads" "uint32_t" "node.threads" false None;
   Setting "node.thread_priority" "bool" "node.thread_priority" false None;
   Setting "node.memory_priority" "bool" "node.memory_priority" false None;
   Setting "node.delay_inbound" "bool" "node.delay_inbound" false None;
   Setting "node.provide_blocks" "bool" "node.provide_blocks" false None;
   Setting "node.limited_blocks" "bool" "node.limited_blocks" false None;
   Setting "node.require_blocks" "bool" "node.require_blocks" false None;
   Setting "node.provide_witness" "bool" "node.provide_witness" false None;
   Setting "node.require_witness" "bool" "node.require_witness" false None;
   Setting "node.provide_filters" "bool" "node.provide_filters" false None;
   Setting "node.provide_privacy" "bool" "node.provide_privacy" false None;
   Setting "node.use_gpu" "bool" "node.use_gpu" false None;
   Setting "node.batch_verify" "uint64_t" "node.batch_verify" false None;
   Setting "node.batch_silent" "uint64_t" "node.batch_silent" false None;
   Setting "node.fee_estimate_horizon" "uint16_t" "node.fee_estimate_horizon" false None;
   Setting "node.minimum_fee_rate" "double" "node.minimum_fee_rate" false None;
   Setting "node.minimum_bump_rate" "double" "node.minimum_bump_rate" false None;
   Setting "node.allowed_deviation" "float" "node.allowed_deviation" false None;
   Setting "node.announcement_cache" "uint16_t" "node.announcement_cache" false None;
   Setting "node.maximum_height" "uint32_t" "node.maximum_height" false None;
   Setting "node.silent_start_height" "uint32_t" "node.silent_start_height" false None;
   Setting "node.maximum_concurrency" "uint32_t" "node.maximum_concurrency" false None;
   Setting "node.sample_period_seconds" "uint16_t" "node.sample_period_seconds" false None;
   Setting "node.compact_timeout_seconds" "uint16_t" "node.compact_timeout_seconds" false None;
   Setting "node.compact_missing_percent" "uint16_t" "node.compact_missing_percent" false None;
   Setting "node.currency_window_minutes" "uint32_t" "node.currency_window_minutes" false None].

Definition database_options : list setting_option :=
  [Setting "database.path" "config::path" "database.path" false None;
   Setting "database.turbo" "bool" "database.turbo" false None;
   Setting "database.gpu_scan_minimum" "uint32_t" "database.gpu_scan_minimum" false None;
   Setting "database.mark_unconfirmable" "bool" "database.mark_unconfirmable" false None;
   Setting "database.interval_depth" "uint16_t" "database.interval_depth" false None].

Definition table_header_options : list setting_option :=
  [Setting "table.header.buckets" "uint32_t" "database.header.buckets" false None;
   Setting "table.header.expected" "uint64_t" "database.header.expected" false None;
   Setting "table.header.size" "uint64_t" "database.header.size" false None;
   Setting "table.header.rate" "uint16_t" "database.header.rate" false None].

Definition table_input_options : list setting_option :=
  [Setting "table.input.size" "uint64_t" "database.input.size" false None;
   Setting "table.input.rate" "uint16_t" "database.input.rate" false None].

Definition table_output_options : list setting_option :=
  [Setting "table.output.size" "uint64_t" "database.output.size" false None;
   Setting "table.output.rate" "uint16_t" "database.output.rate" false None].

Definition table_ins_options : list setting_option :=
  [Setting "table.ins.buckets" "uint32_t" "database.ins.buckets" false None;
   Setting "table.ins.expected" "uint64_t" "database.ins.expected" false None;
   Setting "table.ins.size" "uint64_t" "database.ins.size" false None;
   Setting "table.ins.rate" "uint16_t" "database.ins.rate" false None].

Definition table_outs_options : list setting_option :=
  [Setting "table.outs.buckets" "uint32_t" "database.outs.buckets" false None;
   Setting "table.outs.expected" "uint64_t" "database.outs.expected" false None;
   Setting "table.outs.size" "uint64_t" "database.outs.size" false None;
   Setting "table.outs.rate" "uint16_t" "database.outs.rate" false None].

Definition table_tx_options : list setting_option :=
  [Setting "table.tx.buckets" "uint32_t" "database.tx.buckets" false None;
   Setting "table.tx.expected" "uint64_t" "database.tx.expected" false None;
   Setting "table.tx.size" "uint64_t" "database.tx.size" false None;
   Setting "table.tx.rate" "uint16_t" "database.tx.rate" false None].

Definition table_txs_options : list setting_option :=
  [Setting "table.txs.buckets" "uint32_t" "database.txs.buckets" false None;
   Setting "table.txs.size" "uint64_t" "database.txs.size" false None;
   Setting "table.txs.rate" "uint16_t" "database.txs.rate" false None].

Definition table_candidate_options : list setting_option :=
  [Setting "table.candidate.buckets" "uint32_t" "database.candidate.buckets" false None;
   Setting "table.candidate.rate" "uint16_t" "database.candidate.rate" false None].

Definition table_confirmed_options : list setting_option :=
  [Setting "table.confirmed.buckets" "uint32_t" "database.confirmed.buckets" false None;
   Setting "table.confirmed.rate" "uint16_t" "database.confirmed.rate" false None].

Definition table_strong_options : list setting_option :=
  [Setting "table.strong.buckets" "uint32_t" "database.strong.buckets" false None;
   Setting "table.strong.rate" "uint16_t" "database.strong.rate" false None].

Definition table_scan_options : list setting_option :=
  [Setting "table.scan.buckets" "uint32_t" "database.scan.buckets" false None;
   Setting "table.scan.size" "uint64_t" "database.scan.size" false None;
   Setting "table.scan.rate" "uint16_t" "database.scan.rate" false None].

Definition table_wtxid_options : list setting_option :=
  [Setting "table.wtxid.buckets" "uint32_t" "database.wtxid.buckets" false None;
   Setting "table.wtxid.expected" "uint64_t" "database.wtxid.expected" false None;
   Setting "table.wtxid.size" "uint64_t" "database.wtxid.size" false None;
   Setting "table.wtxid.rate" "uint16_t" "database.wtxid.rate" false None].

Definition table_ecdsa_options : list setting_option :=
  [Setting "table.ecdsa.size" "uint64_t" "database.ecdsa.size" false None;
   Setting "table.ecdsa.rate" "uint16_t" "database.ecdsa.rate" false None].

Definition table_schnorr_options : list setting_option :=
  [Setting "table.schnorr.size" "uint64_t" "database.schnorr.size" false None;
   Setting "table.schnorr.rate" "uint16_t" "database.schnorr.rate" false None].

Definition table_silent_options : list setting_option :=
  [Setting "table.silent.size" "uint64_t" "database.silent.size" false None;
   Setting "table.silent.rate" "uint16_t" "database.silent.rate" false None].

Definition table_prevalid_options : list setting_option :=
  [Setting "table.prevalid.size" "uint64_t" "database.prevalid.size" false None;
   Setting "table.prevalid.rate" "uint16_t" "database.prevalid.rate" false None].

Definition table_presilent_options : list setting_option :=
  [Setting "table.presilent.size" "uint64_t" "database.presilent.size" false None;
   Setting "table.presilent.rate" "uint16_t" "database.presilent.rate" false None].

Definition table_prevout_options : list setting_option :=
  [Setting "table.prevout.buckets" "uint32_t" "database.prevout.buckets" false None;
   Setting "table.prevout.size" "uint64_t" "database.prevout.size" false None;
   Setting "table.prevout.rate" "uint16_t" "database.prevout.rate" false None].

Definition table_duplicate_options : list setting_option :=
  [Setting "table.duplicate.buckets" "uint32_t" "database.duplicate.buckets" false None;
   Setting "table.duplicate.expected" "uint64_t" "database.duplicate.expected" false None;
   Setting "table.duplicate.size" "uint64_t" "database.duplicate.size" false None;
   Setting "table.duplicate.rate" "uint16_t" "database.duplicate.rate" false None].

Definition table_state_options : list setting_option :=
  [Setting "table.state.buckets" "uint32_t" "database.state.buckets" false None;
   Setting "table.state.rate" "uint16_t" "database.state.rate" false None].

Definition table_pool_options : list setting_option :=
  [Setting "table.pool.buckets" "uint32_t" "database.pool.buckets" false None;
   Setting "table.pool.expected" "uint64_t" "database.pool.expected" false None;
   Setting "table.pool.size" "uint64_t" "database.pool.size" false None;
   Setting "table.pool.rate" "uint16_t" "database.pool.rate" false None].

Definition table_spends_options : list setting_option :=
  [Setting "table.spends.size" "uint64_t" "database.spends.size" false None;
   Setting "table.spends.rate" "uint16_t" "database.spends.rate" false None].

Definition table_filter_bk_options : list setting_option :=
  [Setting "table.filter_bk.buckets" "uint32_t" "database.filter_bk.buckets" false None;
   Setting "table.filter_bk.size" "uint64_t" "database.filter_bk.size" false None;
   Setting "table.filter_bk.rate" "uint16_t" "database.filter_bk.rate" false None].

Definition table_filter_tx_options : list setting_option :=
  [Setting "table.filter_tx.buckets" "uint32_t" "database.filter_tx.buckets" false None;
   Setting "table.filter_tx.size" "uint64_t" "database.filter_tx.size" false None;
   Setting "table.filter_tx.rate" "uint16_t" "database.filter_tx.rate" false None].

Definition log_options : list setting_option :=
  [Setting "log.application" "bool" "log.application" false (Some "HAVE_LOGA");
   Setting "log.news" "bool" "log.news" false (Some "HAVE_LOGN");
   Setting "log.session" "bool" "log.session" false (Some "HAVE_LOGS");
   Setting "log.protocol" "bool" "log.protocol" false (Some "HAVE_LOGP");
   Setting "log.proxy" "bool" "log.proxy" false (Some "HAVE_LOGX");
   Setting "log.remote" "bool" "log.remote" false (Some "HAVE_LOGR");
   Setting "log.fault" "bool" "log.fault" false (Some "HAVE_LOGF");
   Setting "log.quitting" "bool" "log.quitting" false (Some "HAVE_LOGQ");
   Setting "log.objects" "bool" "log.objects" false (Some "HAVE_LOGO");
   Setting "log.verbose" "bool" "log.verbose" false (Some "HAVE_LOGV");
   Setting "log.maximum_size" "uint32_t" "log.maximum_size" false None;
   Setting "log.symbols" "config::path" "log.symbols" false (Some "HAVE_MSC");
   Setting "log.path" "config::path" "log.path" false None].

(** The options, in order. *)
Definition settings_options : list setting_option :=
  concat [forks_options; bitcoin_options; network_options; peer_options; outbound_options;
    inbound_options; manual_options; wallet_options; admin_options; native_options;
    bitcoind_options; bitcoind_zmq_options; btcd_options; electrum_options;
    sparrow_options; esplora_options; stratum_v1_options; stratum_v2_options; node_options;
    database_options; table_header_options; table_input_options; table_output_options;
    table_ins_options; table_outs_options; table_tx_options; table_txs_options;
    table_candidate_options; table_confirmed_options; table_strong_options;
    table_scan_options; table_wtxid_options; table_ecdsa_options; table_schnorr_options;
    table_silent_options; table_prevalid_options; table_presilent_options;
    table_prevout_options; table_duplicate_options; table_state_options;
    table_pool_options; table_spends_options; table_filter_bk_options;
    table_filter_tx_options; log_options].

(** The options of a build that defines the macros of [defined]. *)
Definition built (defined : list string) (o : setting_option) : bool :=
  match option_build o with Some macro => bool_decide (macro ∈ defined) | None => true end.

Definition load_settings (defined : list string) : list setting_option :=
  filter (built defined) settings_options.

Definition all_options (defined : list string) : list setting_option :=
  (filter (built defined) load_options ++ load_settings defined)%list.

(** ** Construction *)

(** The constants of libbitcoin-network, the bucket counts that the tables of
    libbitcoin-database derive of expected elements, the default ports of a service,
    and the options library: what a command line holds, and what it holds with the
    settings file that it may name, if one was read. *)
Class OptionLibrary := {
  headers_protocol : Z;
  maximum_protocol : Z;
  megabyte : Z;
  kilobyte : Z;
  max_payload : Z;
  table_derive_buckets : string → setting_value → Z → Z → setting_value;
  service_default_ports : string → (string → setting_value) → string → setting_value;
  load_command_variables : list string → string + gmap string (setting_value * bool);
  load_configuration_variables :
    gmap string (setting_value * bool) → string + (bool * gmap string (setting_value * bool));
  format_invalid_parameter : string → string;
}.

Section Parser.
Context `{OptionLibrary}.

(** The values of the members. *)
Abbreviation configuration := (string → setting_value).

Definition port (context : selection) (base : Z) : Z :=
  match context with
  | testnet3 => (base + 10000) `mod` 2 ^ 16
  | regtest => (base + 20000) `mod` 2 ^ 16
  | testnet4 => (base + 40000) `mod` 2 ^ 16
  | _ => base
  end.

Definition network_values : list (string * setting_value) :=
  [("network.enable_relay", flag_v true);
   ("network.enable_address", flag_v true);
   ("network.enable_not_found", flag_v true);
   ("network.enable_address_v2", flag_v true);
   ("network.enable_witness_tx", flag_v false);
   ("network.enable_compact", flag_v true);
   ("network.outbound.host_pool_capacity", number_v 10000);
   ("network.outbound.connections", number_v 100);
   ("network.inbound.connections", number_v 100);
   ("network.maximum_skew_minutes", number_v 120);
   ("network.protocol_minimum", number_v headers_protocol);
   ("network.protocol_maximum", number_v maximum_protocol)].

Definition seed_values : list (string * Z) :=
  [("seed.bitcoin.sipa.be", 8333);
   ("dnsseed.bluematt.me", 8333);
   ("seed.bitcoin.jonasschnelli.ch", 8333);
   ("seed.btc.petertodd.net", 8333);
   ("seed.bitcoin.sprovoost.nl", 8333);
   ("dnsseed.emzy.de", 8333);
   ("seed.bitcoin.wiz.biz", 8333);
   ("seed.mainnet.achownodes.xyz", 8333)].

Definition server_values : list (string * setting_value) :=
  [("server.admin.maximum_backlog", number_v (10 * megabyte));
   ("server.btcd.maximum_backlog", number_v (20 * megabyte));
   ("server.bitcoind_zmq.maximum_backlog", number_v (32 * megabyte));
   ("server.bitcoind_zmq.inactivity_minutes", number_v 0);
   ("server.bitcoind_zmq.expiration_minutes", number_v 0);
   ("server.bitcoind.maximum_request", number_v (2 * max_payload + 4 * kilobyte));
   ("server.btcd.maximum_request", number_v (2 * max_payload + 4 * kilobyte));
   ("server.electrum.maximum_request", number_v (2 * max_payload + 4 * kilobyte));
   ("server.sparrow.maximum_request", number_v (2 * max_payload + 4 * kilobyte));
   ("server.esplora.maximum_request", number_v (2 * max_payload + 4 * kilobyte))].

Definition port_values (context : selection) : list (string * setting_value) :=
  [("server.admin.bind_port", number_v (port context 8080));
   ("server.admin.safe_port", number_v (port context 8043));
   ("server.native.bind_port", number_v (port context 8180));
   ("server.native.safe_port", number_v (port context 8143));
   ("server.bitcoind.bind_port", number_v (port context 8280));
   ("server.bitcoind.safe_port", number_v (port context 8243));
   ("server.bitcoind_zmq.bind_port", number_v (port context 8380));
   ("server.bitcoind_zmq.safe_port", number_v (port context 8343));
   ("server.btcd.bind_port", number_v (port context 8480));
   ("server.btcd.safe_port", number_v (port context 8443));
   ("server.electrum.bind_port", number_v (port context 8580));
   ("server.electrum.safe_port", number_v (port context 8543));
   ("server.sparrow.bind_port", number_v (port context 8680));
   ("server.sparrow.safe_port", number_v (port context 8643));
   ("server.esplora.bind_port", number_v (port context 8780));
   ("server.esplora.safe_port", number_v (port context 8743));
   ("server.stratum_v1.bind_port", number_v (port context 8880));
   ("server.stratum_v1.safe_port", number_v (port context 8843));
   ("server.stratum_v2.bind_port", number_v (port context 8980))].

Definition node_values : list (string * setting_value) :=
  [("node.minimum_fee_rate", real_v 1 6);
   ("node.batch_verify", number_v 1000000);
   ("node.batch_silent", number_v 1000000)].

Definition database_values : list (string * setting_value) :=
  [("database.turbo", flag_v true);
   ("database.interval_depth", number_v 11);
   ("database.header.expected", number_v 962953);
   ("database.header.size", number_v 124220679);
   ("database.header.rate", number_v 1);
   ("database.txs.buckets", number_v 950001);
   ("database.txs.size", number_v 54471017);
   ("database.txs.rate", number_v 1);
   ("database.tx.expected", number_v 1359871695);
   ("database.tx.size", number_v 870317885);
   ("database.tx.rate", number_v 1);
   ("database.ins.expected", number_v 3363467251);
   ("database.ins.size", number_v 1749002971);
   ("database.ins.rate", number_v 1);
   ("database.outs.expected", number_v 3741929086);
   ("database.outs.size", number_v 336773618);
   ("database.outs.rate", number_v 1);
   ("database.input.size", number_v 67269346);
   ("database.input.rate", number_v 1);
   ("database.output.size", number_v 1278023220);
   ("database.output.rate", number_v 1);
   ("database.candidate.buckets", number_v 950001);
   ("database.candidate.rate", number_v 1);
   ("database.confirmed.buckets", number_v 950001);
   ("database.confirmed.rate", number_v 1);
   ("database.strong.buckets", number_v 1359871695);
   ("database.strong.rate", number_v 1);
   ("database.scan.buckets", number_v 950001);
   ("database.scan.size", number_v 0);
   ("database.scan.rate", number_v 1);
   ("database.ecdsa.size", number_v 0);
   ("database.ecdsa.rate", number_v 1);
   ("database.schnorr.size", number_v 0);
   ("database.schnorr.rate", number_v 1);
   ("database.silent.size", number_v 0);
   ("database.silent.rate", number_v 1);
   ("database.prevalid.size", number_v 0);
   ("database.prevalid.rate", number_v 1);
   ("database.presilent.size", number_v 0);
   ("database.presilent.rate", number_v 1);
   ("database.prevout.buckets", number_v 0);
   ("database.prevout.size", number_v 0);
   ("database.prevout.rate", number_v 1);
   ("database.duplicate.buckets", number_v 1024);
   ("database.duplicate.expected", number_v 0);
   ("database.duplicate.size", number_v 0);
   ("database.duplicate.rate", number_v 1);
   ("database.state.buckets", number_v 950001);
   ("database.state.rate", number_v 1);
   ("database.pool.expected", number_v 10000000);
   ("database.pool.size", number_v 0);
   ("database.pool.rate", number_v 1);
   ("database.wtxid.expected", number_v 10000000);
   ("database.wtxid.size", number_v 0);
   ("database.wtxid.rate", number_v 1);
   ("database.spends.size", number_v 0);
   ("database.spends.rate", number_v 1);
   ("database.filter_bk.buckets", number_v 0);
   ("database.filter_bk.size", number_v 0);
   ("database.filter_bk.rate", number_v 1);
   ("database.filter_tx.buckets", number_v 0);
   ("database.filter_tx.size", number_v 0);
   ("database.filter_tx.rate", number_v 1)].

Definition assign (c : configuration) (a : string * setting_value) : configuration :=
  <[a.1 := a.2]> c.

(** The members that the parser assigns, in order; the others keep the values of
    the libraries. *)
Definition parser_values (context : selection) : list (string * setting_value) :=
  (network_values ++ [("network.outbound.seeds", endpoints_v seed_values)] ++ server_values
    ++ port_values context ++ node_values ++ database_values)%list.

Definition construct (context : selection) (c : configuration) : configuration :=
  foldl assign c (parser_values context).

(** ** Parsing *)

(** The values of the variables; a value is marked that is the default of an option. *)
Abbreviation variables := (gmap string (setting_value * bool)).

Definition is_configured (v : variables) (name : string) : bool :=
  match v !! name with Some (_, defaulted) => negb defaulted | None => false end.

Definition find_option (options : list setting_option) (name : string) : option setting_option :=
  head (filter (λ o, option_name o = name) options).

Definition by_name (a b : string * (setting_value * bool)) : Prop := String.leb a.1 b.1 = true.

#[global] Instance by_name_dec : RelDecision by_name.
Proof. intros a b. unfold by_name. apply _. Defined.

(** The variables are written to the members of their options, by their names. *)
Definition notify_one (options : list setting_option) (c : configuration)
    (v : string * (setting_value * bool)) : configuration :=
  match find_option options v.1 with
  | Some o => <[option_member o := v.2.1]> c
  | None => c
  end.

Definition notify (options : list setting_option) (v : variables) (c : configuration) :
    configuration :=
  foldl (notify_one options) c (merge_sort by_name (map_to_list v)).

(** The tables with derived bucket counts, and the targets. *)
Definition contested : Z := 75.
Definition target : Z := 25.
Definition address_contested : Z := 500.
Definition address_target : Z := 50.

Definition derived_tables : list (string * (Z * Z)) :=
  [("header", (contested, target)); ("tx", (contested, target)); ("ins", (contested, target));
   ("outs", (address_contested, address_target)); ("pool", (contested, target));
   ("wtxid", (contested, target))].

Definition derive_table (v : variables) (c : configuration) (t : string * (Z * Z)) :
    configuration :=
  if is_configured v ("table." +:+ t.1 +:+ ".buckets") then c
  else <["database." +:+ t.1 +:+ ".buckets" :=
    table_derive_buckets t.1 (c ("database." +:+ t.1 +:+ ".expected")) t.2.1 t.2.2]> c.

Definition derive_buckets (v : variables) (c : configuration) : configuration :=
  foldl (derive_table v) c derived_tables.

Definition services : list string :=
  ["admin"; "native"; "bitcoind"; "bitcoind_zmq"; "btcd"; "electrum"; "sparrow"; "esplora";
   "stratum_v1"; "stratum_v2"].

Definition derive_ports (c : configuration) : configuration :=
  foldl (λ c service, service_default_ports service c) c services.

(** The help option is flagged, by its presence on the command line. *)
Definition get_option (v : variables) (name : string) : bool :=
  match v !! name with Some (flag_v value, _) => value | _ => false end.

Definition load_variables (args : list string) : string + (bool * variables) :=
  match load_command_variables args with
  | inl e => inl e
  | inr command =>
      if get_option command "help" then inr (false, command)
      else load_configuration_variables command
  end.

(** The text of the error, or the configuration. *)
Definition parse (defined : list string) (args : list string) (c : configuration) :
    string + configuration :=
  match load_variables args with
  | inl e => inl (format_invalid_parameter e)
  | inr (file, v) =>
      let c := derive_ports (derive_buckets v (notify (all_options defined) v c)) in
      inr (if file then c else <["file" := text_v ""]> c)
  end.

End Parser.

(** ** Writes *)

Section ParserFacts.
Context `{OptionLibrary}.

Lemma assigns_lookup (m : string) x ws (c : string → setting_value) :
  (∀ x', (m, x') ∈ ws → x' = x) → (m, x) ∈ ws → foldl assign c ws m = x.
Proof.
  induction ws as [|[n y] ws IH] using rev_ind; intros Hu Hin; [by apply not_elem_of_nil in Hin|].
  rewrite foldl_app. simpl. unfold assign at 1. simpl.
  destruct (decide (m = n)) as [->|Hne].
  - rewrite fn_lookup_insert. apply Hu, elem_of_app. right. by apply list_elem_of_singleton.
  - rewrite fn_lookup_insert_ne by done. apply IH.
    + intros x' Hx. apply Hu, elem_of_app. by left.
    + apply elem_of_app in Hin as [Hin|Hin]; [done|].
      apply list_elem_of_singleton in Hin. by simplify_eq.
Qed.

Lemma assigns_other (m : string) ws (c : string → setting_value) :
  (∀ x, (m, x) ∉ ws) → foldl assign c ws m = c m.
Proof.
  induction ws as [|[n y] ws IH] using rev_ind; intros Hn; [done|].
  rewrite foldl_app. simpl. unfold assign at 1. simpl.
  rewrite fn_lookup_insert_ne.
  - apply IH. intros x Hx. apply (Hn x), elem_of_app. by left.
  - intros ->. apply (Hn y), elem_of_app. right. by apply list_elem_of_singleton.
Qed.

Lemma assigns_distinct ws (c : string → setting_value) :
  NoDup ws.*1 → Forall (λ a, foldl assign c ws a.1 = a.2) ws.
Proof.
  intros Hnd. apply Forall_forall. intros [m x] Hin. apply assigns_lookup; [|done].
  intros x' Hin'. assert ((m, x') = (m, x)) by (by apply (NoDup_map_unique fst ws)).
  by simplify_eq/=.
Qed.

(** ** Options are distinct *)

Lemma options_distinct :
  NoDup (option_name <$> (load_options ++ settings_options)%list) ∧
  NoDup (option_member <$> (load_options ++ settings_options)%list).
Proof. split; apply (bool_decide_unpack _); vm_compute; exact I. Qed.

Lemma all_options_distinct defined :
  NoDup (option_name <$> all_options defined) ∧ NoDup (option_member <$> all_options defined).
Proof.
  destruct options_distinct as [Hn Hm]. unfold all_options, load_settings.
  rewrite <- filter_app.
  split; (eapply sublist_NoDup; [|apply fmap_sublist, sublist_filter]); done.
Qed.

Lemma find_option_Some options name o :
  find_option options name = Some o → o ∈ options ∧ option_name o = name.
Proof.
  unfold find_option. intros Hh. destruct (filter _ options) as [|o' l] eqn:E; [done|].
  simplify_eq/=.
  assert (o ∈ filter (λ o, option_name o = name) options) as Hin by (rewrite E; left).
  apply list_elem_of_filter in Hin. tauto.
Qed.

Lemma find_option_name options o :
  NoDup (option_name <$> options) → o ∈ options →
  find_option options (option_name o) = Some o.
Proof.
  intros Hnd Hin. unfold find_option.
  destruct (filter _ options) as [|o' l] eqn:E.
  - exfalso. assert (o ∈ filter (λ o', option_name o' = option_name o) options) as Hf
      by (by apply list_elem_of_filter). rewrite E in Hf. by apply not_elem_of_nil in Hf.
  - simpl. f_equal.
    assert (o' ∈ filter (λ o', option_name o' = option_name o) options) as Hf
      by (rewrite E; left).
    apply list_elem_of_filter in Hf as [Hname Hin'].
    by apply (NoDup_map_unique option_name options).
Qed.

(** ** The variables *)

Definition written (options : list setting_option) (v : string * (setting_value * bool)) :
    option (string * setting_value) :=
  (λ o, (option_member o, v.2.1)) <$> find_option options v.1.

Lemma notify_writes options vs (c : string → setting_value) :
  foldl (notify_one options) c vs = foldl assign c (omap (written options) vs).
Proof.
  revert c. induction vs as [|v vs IH]; intros c; [done|].
  simpl. rewrite IH. unfold notify_one, written.
  by destruct (find_option options v.1).
Qed.

Lemma notify_member options v (c : string → setting_value) o :
  NoDup (option_name <$> options) → NoDup (option_member <$> options) → o ∈ options →
  notify options v c (option_member o) =
    match v !! option_name o with Some (x, _) => x | None => c (option_member o) end.
Proof.
  intros Hn Hm Ho. unfold notify. rewrite notify_writes.
  set (ws := omap _ _).
  assert (∀ x, (option_member o, x) ∈ ws ↔ ∃ b, v !! option_name o = Some (x, b)) as Hws.
  { intros x. unfold ws. rewrite list_elem_of_omap. split.
    - intros ([n [y b]] & Hin & Hw). rewrite merge_sort_Permutation in Hin.
      apply elem_of_map_to_list in Hin. unfold written in Hw. simpl in Hw.
      apply fmap_Some in Hw as (o' & Ho' & He). simplify_eq.
      apply find_option_Some in Ho' as [Hin' <-].
      assert (o' = o) as -> by (by apply (NoDup_map_unique option_member options)).
      by exists b.
    - intros [b Hb]. exists (option_name o, (x, b)). split.
      + rewrite merge_sort_Permutation. by apply elem_of_map_to_list.
      + unfold written. simpl. by rewrite find_option_name. }
  destruct (v !! option_name o) as [[x b]|] eqn:E.
  - apply assigns_lookup; [|apply Hws; by exists b].
    intros x' Hx. apply Hws in Hx as [b' Hb]. congruence.
  - apply assigns_other. intros x Hx. apply Hws in Hx as [b Hb]. congruence.
Qed.

(** ** Derived members *)

Definition buckets_member (table : string) : string := "database." +:+ table +:+ ".buckets".
Definition expected_member (table : string) : string := "database." +:+ table +:+ ".expected".

Lemma derive_other v m ts (c : string → setting_value) :
  Forall (λ t, buckets_member t.1 ≠ m) ts → foldl (derive_table v) c ts m = c m.
Proof.
  revert c. induction ts as [|t ts IH]; intros c Hf; [done|].
  inversion_clear Hf as [|? ? Ht Hts]. simpl. rewrite IH by done. unfold derive_table.
  destruct (is_configured v _); [done|]. by rewrite fn_lookup_insert_ne.
Qed.

Lemma derive_buckets_other v m (c : string → setting_value) :
  bool_decide (m ∈ (buckets_member ∘ fst <$> derived_tables)) = false →
  derive_buckets v c m = c m.
Proof.
  intros Hm. apply derive_other, Forall_forall. intros t Ht He.
  apply bool_decide_eq_false in Hm. apply Hm. apply list_elem_of_fmap. by exists t.
Qed.

Lemma derive_buckets_table v t (c : string → setting_value) :
  t ∈ derived_tables →
  derive_buckets v c (buckets_member t.1) =
    if is_configured v ("table." +:+ t.1 +:+ ".buckets") then c (buckets_member t.1)
    else table_derive_buckets t.1 (c (expected_member t.1)) t.2.1 t.2.2.
Proof.
  intros Ht. unfold derive_buckets.
  assert (∃ pre post, derived_tables = pre ++ t :: post ∧
    Forall (λ t', buckets_member t'.1 ≠ buckets_member t.1 ∧
      buckets_member t'.1 ≠ expected_member t.1) pre ∧
    Forall (λ t', buckets_member t'.1 ≠ buckets_member t.1) post)%list as (pre & post & -> & Hpre & Hpost).
  { unfold derived_tables in *. repeat (apply elem_of_cons in Ht as [->|Ht]);
      [..|by apply not_elem_of_nil in Ht];
      [exists [] | exists (take 1 derived_tables) | exists (take 2 derived_tables)
      | exists (take 3 derived_tables) | exists (take 4 derived_tables)
      | exists (take 5 derived_tables)]; eexists; (split; [reflexivity|]);
      split; repeat constructor; done. }
  apply Forall_and in Hpre as [Hb He].
  rewrite foldl_app. simpl. rewrite (derive_other v _ post) by done.
  unfold derive_table at 1. fold (buckets_member t.1) (expected_member t.1).
  destruct (is_configured v _).
  - by apply derive_other.
  - rewrite fn_lookup_insert. f_equal. by apply derive_other.
Qed.

(** The members of the bindings of the services. *)
Definition binding_members : list string :=
  concat ((λ service, ["server." +:+ service +:+ ".binds"; "server." +:+ service +:+ ".safes"])
    <$> services).

(** The default ports of a service are set in the bindings of the service. *)
Definition ports_in_bindings : Prop :=
  ∀ service (c : string → setting_value) m,
    m ≠ "server." +:+ service +:+ ".binds" → m ≠ "server." +:+ service +:+ ".safes" →
    service_default_ports service c m = c m.

Lemma derive_ports_other (c : string → setting_value) m :
  ports_in_bindings → bool_decide (m ∈ binding_members) = false → derive_ports c m = c m.
Proof.
  intros Hports Hm%bool_decide_eq_false. unfold derive_ports, binding_members in *.
  revert c Hm. induction services as [|s ss IH]; intros c Hm; [done|].
  simpl in *. rewrite IH by set_solver. apply Hports; set_solver.
Qed.

(** The value that a configuration gives to the member of an option: its own, or else
    that of the constructed configuration. *)
Definition option_value (v : gmap string (setting_value * bool)) (c : string → setting_value)
    (name member : string) : setting_value :=
  match v !! name with Some (x, _) => x | None => c member end.

(** The file, the bindings and the derived counts are not determined by their option
    alone. *)
Definition determined (o : setting_option) : bool :=
  bool_decide (option_member o ≠ "file") && negb (bool_decide (option_member o ∈ binding_members))
    && negb (bool_decide (option_member o ∈ (buckets_member ∘ fst <$> derived_tables))).

Lemma all_options_member defined o :
  o ∈ (load_options ++ settings_options)%list → option_build o = None → o ∈ all_options defined.
Proof.
  intros Hin Hb. unfold all_options, load_settings. rewrite <- filter_app.
  apply list_elem_of_filter. split; [|done]. unfold built. by rewrite Hb.
Qed.

Lemma notify_named defined v (c : string → setting_value) name member :
  existsb (λ o, String.eqb (option_name o) name && String.eqb (option_member o) member &&
    bool_decide (option_build o = None)) (load_options ++ settings_options)%list = true →
  notify (all_options defined) v c member = option_value v c name member.
Proof.
  intros Ho. apply existsb_exists in Ho as (o & Hin & Hb).
  apply andb_true_iff in Hb as [Hnm Hb%bool_decide_eq_true].
  apply andb_true_iff in Hnm as [Hn%String.eqb_eq Hm%String.eqb_eq]. subst name member.
  apply notify_member; [apply all_options_distinct..|].
  apply all_options_member; [by apply list_elem_of_In|done].
Qed.

(** The configuration before the file is cleared. *)
Lemma derived_table_value defined v (c : string → setting_value) t :
  ports_in_bindings → t ∈ derived_tables →
  derive_ports (derive_buckets v (notify (all_options defined) v c)) (buckets_member t.1) =
    if is_configured v ("table." +:+ t.1 +:+ ".buckets")
    then option_value v c ("table." +:+ t.1 +:+ ".buckets") (buckets_member t.1)
    else table_derive_buckets t.1
      (option_value v c ("table." +:+ t.1 +:+ ".expected") (expected_member t.1)) t.2.1 t.2.2.
Proof.
  intros Hp Ht.
  assert (bool_decide (buckets_member t.1 ∈ binding_members) = false) as Hb.
  { unfold derived_tables in Ht. repeat (apply elem_of_cons in Ht as [->|Ht]; [vm_compute; reflexivity|]).
    by apply not_elem_of_nil in Ht. }
  rewrite derive_ports_other by done. rewrite derive_buckets_table by done.
  rewrite (notify_named defined v c ("table." +:+ t.1 +:+ ".buckets") (buckets_member t.1)),
    (notify_named defined v c ("table." +:+ t.1 +:+ ".expected") (expected_member t.1)); [done|..];
    unfold derived_tables in Ht;
    repeat (apply elem_of_cons in Ht as [->|Ht]; [vm_compute; reflexivity|]);
    by apply not_elem_of_nil in Ht.
Qed.

Lemma determined_value defined v (c : string → setting_value) o :
  ports_in_bindings → o ∈ all_options defined → determined o = true →
  derive_ports (derive_buckets v (notify (all_options defined) v c)) (option_member o) =
    option_value v c (option_name o) (option_member o).
Proof.
  intros Hp Ho Hd. apply andb_true_iff in Hd as [[_ Hb%negb_true_iff]%andb_true_iff Ht%negb_true_iff].
  rewrite derive_ports_other, derive_buckets_other by done.
  apply notify_member; [apply all_options_distinct..|done].
Qed.

Lemma ports_valid context :
  NoDup (port_values context).*2 ∧
  Forall (λ a, match a.2 with number_v n => 0 < n < 2 ^ 16 | _ => False end) (port_values context).
Proof.
  split.
  - destruct context; apply (bool_decide_unpack _); vm_compute; exact I.
  - destruct context; repeat constructor.
Qed.

Lemma parser_values_distinct context : NoDup (parser_values context).*1.
Proof. apply (bool_decide_unpack _). destruct context; vm_compute; exact I. Qed.

(** C35: the options of a build are named apart and write members apart. The ports of
    the services of a chain are valid and distinct. A configuration is parsed whenever
    its variables are loaded, and each of its members has the value that its own option
    configures, or else the value that the parser constructs for the chain; the bucket
    count of a derived table is what is configured, zero included, or else is derived of
    the expected count that is configured or constructed. The path of the configuration
    file is cleared where no file was read. *)
Theorem parse_correct defined :
  ports_in_bindings →
  NoDup (option_name <$> all_options defined) ∧ NoDup (option_member <$> all_options defined) ∧
  (∀ context, NoDup (port_values context).*2 ∧
    Forall (λ a, match a.2 with number_v n => 0 < n < 2 ^ 16 | _ => False end)
      (port_values context)) ∧
  ∀ context base args,
    let constructed := construct context base in
    Forall (λ a, constructed a.1 = a.2) (parser_values context) ∧
    match load_variables args, parse defined args constructed with
    | inl e, inl text => text = format_invalid_parameter e
    | inr (file, v), inr c =>
        c "file" = (if file then option_value v constructed "config" "file" else text_v "") ∧
        Forall (λ o, if determined o
          then c (option_member o) = option_value v constructed (option_name o) (option_member o)
          else True) (all_options defined) ∧
        Forall (λ t, c (buckets_member t.1) =
          if is_configured v ("table." +:+ t.1 +:+ ".buckets")
          then option_value v constructed ("table." +:+ t.1 +:+ ".buckets") (buckets_member t.1)
          else table_derive_buckets t.1
            (option_value v constructed ("table." +:+ t.1 +:+ ".expected") (expected_member t.1))
            t.2.1 t.2.2) derived_tables
    | _, _ => False
    end.
Proof.
  intros Hp. split; [apply all_options_distinct|]. split; [apply all_options_distinct|].
  split; [apply ports_valid|]. intros context base args constructed.
  split; [apply assigns_distinct, parser_values_distinct|].
  unfold parse. destruct (load_variables args) as [e|[file v]]; [done|].
  set (c := derive_ports _).
  assert (∀ m, m ≠ "file" → (if file then c else <["file" := text_v ""]> c) m = c m) as Hfile.
  { intros m Hm. destruct file; [done|]. by rewrite fn_lookup_insert_ne. }
  split; [|split].
  - destruct file; [|by rewrite fn_lookup_insert]. unfold c.
    rewrite derive_ports_other, derive_buckets_other by done. by apply notify_named.
  - apply Forall_forall. intros o Ho. destruct (determined o) eqn:Hd; [|done].
    rewrite Hfile; [by apply determined_value|].
    apply andb_true_iff in Hd as [[Hd%bool_decide_eq_true _]%andb_true_iff _]. done.
  - apply Forall_forall. intros t Ht. rewrite Hfile; [by apply derived_table_value|done].
Qed.

End ParserFacts.

(** ** Witness *)

(** An options library that reads [name=value] from the arguments, of numbers alone, and
    derives a quarter of the expected count. *)
Definition sample_variables (args : list string) : gmap string (setting_value * bool) :=
  list_to_map ((λ a, match Ascii.eqb "h"%char <$> String.get 0 a with
    | Some true => ("help", (flag_v true, false)) | _ => (a, (number_v 7, false)) end) <$> args).

#[local] Instance sample_library : OptionLibrary := {|
  headers_protocol := 31800; maximum_protocol := 70016; megabyte := 1000000; kilobyte := 1000;
  max_payload := 4000000;
  table_derive_buckets t v _ _ := match v with number_v n => number_v (n / 4) | _ => v end;
  service_default_ports _ c := c;
  load_command_variables args := if decide (args = []) then inl "none" else inr (sample_variables args);
  load_configuration_variables v := inr (true, v);
  format_invalid_parameter e := "invalid: " +:+ e;
|}.

(** A member is read of the result. *)
Definition sample_member (args : list string) (m : string) : option setting_value :=
  match parse [] args (construct testnet4 (λ _, number_v 0)) with
  | inl _ => None
  | inr c => Some (c m)
  end.

Lemma parse_correct_witness :
  (∀ args, match load_variables args, parse [] args (construct testnet4 (λ _, number_v 0)) with
    | inl _, inl _ | inr _, inr _ => True | _, _ => False end) ∧
  sample_member [] "node.threads" = None ∧
  sample_member ["table.tx.expected"] "database.tx.buckets" = Some (number_v 1) ∧
  sample_member ["table.tx.buckets"] "database.tx.buckets" = Some (number_v 7) ∧
  sample_member ["node.threads"] "database.header.buckets" = Some (number_v 240738) ∧
  sample_member ["help"] "file" = Some (text_v "") ∧
  sample_member ["node.threads"] "server.electrum.bind_port" = Some (number_v 48580).
Proof.
  split; [|repeat split; vm_compute; reflexivity].
  assert (ports_in_bindings) as Hp by (intros ????; reflexivity).
  destruct (parse_correct [] Hp) as (_ & _ & _ & Hparse). intros args.
  destruct (Hparse testnet4 (λ _, number_v 0) args) as [_ Hm].
  destruct (load_variables args) as [?|[??]], (parse _ args _); done.
Defined.
