(* ===== verification/ServerNode.v ===== *)
(** The startup of the server (src/server_node.cpp), the settings that it reads
    (src/settings.cpp, src/configuration.cpp), and the stratum service, which is not
    implemented (src/protocols/stratum_v1/protocol_stratum_v1.cpp).

    The start of a session is that of libbitcoin-network; it completes with a code, to
    the function that is bound, on the strand of the network. *)
From S2P Require Import Prelude Errors Options.

(** ** Startup *)

Inductive session_t :=
  | session_admin | session_native | session_bitcoind | session_btcd | session_electrum
  | session_sparrow | session_esplora | session_stratum_v1 | session_stratum_v2
  | session_bitcoind_zmq.

(** The functions of the node that a start is bound to, and the caller's handler. *)
Inductive bound :=
  | start_admin_ | start_native_ | start_bitcoind_ | start_btcd_ | start_electrum_
  | start_sparrow_ | start_esplora_ | start_stratum_v1_ | start_stratum_v2_
  | start_bitcoind_zmq_ | handler_.

(** The sessions that are attached and started, in order, the function that waits for
    a completion, and the codes that the caller's handler is invoked with. *)
Record server_node := ServerNode {
  attached : list session_t;
  waiting : option bound;
  handled_codes : list code;
}.

Definition handle (ec : code) (n : server_node) : server_node :=
  ServerNode (attached n) (waiting n) (handled_codes n ++ [ec])%list.

(** [attach_<session>()->start(bind(next))]. *)
Definition attach_start (session : session_t) (next : bound) (n : server_node) : server_node :=
  ServerNode (attached n ++ [session])%list (Some next) (handled_codes n).

Definition start_admin (ec : code) (n : server_node) : server_node :=
  if is_error ec then handle ec n else attach_start session_admin start_native_ n.

Definition start_native (ec : code) (n : server_node) : server_node :=
  if is_error ec then handle ec n else attach_start session_native start_bitcoind_ n.

Definition start_bitcoind (ec : code) (n : server_node) : server_node :=
  if is_error ec then handle ec n else attach_start session_bitcoind start_btcd_ n.

Definition start_btcd (ec : code) (n : server_node) : server_node :=
  if is_error ec then handle ec n else attach_start session_btcd start_electrum_ n.

Definition start_electrum (ec : code) (n : server_node) : server_node :=
  if is_error ec then handle ec n else attach_start session_electrum start_sparrow_ n.

Definition start_sparrow (ec : code) (n : server_node) : server_node :=
  if is_error ec then handle ec n else attach_start session_sparrow start_esplora_ n.

Definition start_esplora (ec : code) (n : server_node) : server_node :=
  if is_error ec then handle ec n else attach_start session_esplora start_stratum_v1_ n.

Definition start_stratum_v1 (ec : code) (n : server_node) : server_node :=
  if is_error ec then handle ec n else attach_start session_stratum_v1 start_stratum_v2_ n.

Definition start_stratum_v2 (ec : code) (n : server_node) : server_node :=
  if is_error ec then handle ec n else attach_start session_stratum_v2 start_bitcoind_zmq_ n.

Definition start_bitcoind_zmq (ec : code) (n : server_node) : server_node :=
  if is_error ec then handle ec n else attach_start session_bitcoind_zmq handler_ n.

Definition invoke (f : bound) (ec : code) (n : server_node) : server_node :=
  match f with
  | start_admin_ => start_admin ec n
  | start_native_ => start_native ec n
  | start_bitcoind_ => start_bitcoind ec n
  | start_btcd_ => start_btcd ec n
  | start_electrum_ => start_electrum ec n
  | start_sparrow_ => start_sparrow ec n
  | start_esplora_ => start_esplora ec n
  | start_stratum_v1_ => start_stratum_v1 ec n
  | start_stratum_v2_ => start_stratum_v2 ec n
  | start_bitcoind_zmq_ => start_bitcoind_zmq ec n
  | handler_ => handle ec n
  end.

(** The services are started when the node, of libbitcoin-node, is running. *)
Definition do_run : server_node := ServerNode [] (Some start_admin_) [].

(** The completion of the start that is waited for. *)
Definition complete (n : server_node) (ec : code) : server_node :=
  match waiting n with
  | Some f => invoke f ec (ServerNode (attached n) None (handled_codes n))
  | None => n
  end.

(** The node after the completions, in order. *)
Definition run (completions : list code) : server_node := foldl complete do_run completions.

Definition sessions : list session_t :=
  [session_admin; session_native; session_bitcoind; session_btcd; session_electrum;
   session_sparrow; session_esplora; session_stratum_v1; session_stratum_v2;
   session_bitcoind_zmq].

Lemma complete_idle attached codes completions :
  foldl complete (ServerNode attached None codes) completions = ServerNode attached None codes.
Proof. induction completions as [|ec l IH]; [done|]. simpl. exact IH. Qed.

(** The session that a function starts, and the function that the start is bound to. *)
Definition starts (f : bound) : option (session_t * bound) :=
  match f with
  | start_admin_ => Some (session_admin, start_native_)
  | start_native_ => Some (session_native, start_bitcoind_)
  | start_bitcoind_ => Some (session_bitcoind, start_btcd_)
  | start_btcd_ => Some (session_btcd, start_electrum_)
  | start_electrum_ => Some (session_electrum, start_sparrow_)
  | start_sparrow_ => Some (session_sparrow, start_esplora_)
  | start_esplora_ => Some (session_esplora, start_stratum_v1_)
  | start_stratum_v1_ => Some (session_stratum_v1, start_stratum_v2_)
  | start_stratum_v2_ => Some (session_stratum_v2, start_bitcoind_zmq_)
  | start_bitcoind_zmq_ => Some (session_bitcoind_zmq, handler_)
  | handler_ => None
  end.

Lemma complete_waiting attached f codes ec :
  complete (ServerNode attached (Some f) codes) ec =
    if is_error ec then ServerNode attached None (codes ++ [ec])%list
    else match starts f with
      | Some (s, g) => ServerNode (attached ++ [s])%list (Some g) codes
      | None => ServerNode attached None (codes ++ [ec])%list
      end.
Proof.
  unfold complete. simpl. destruct f; simpl; try (by destruct (is_error ec));
    match goal with |- ?f ec _ = _ => unfold f end; by destruct (is_error ec).
Qed.

Lemma find_error ec l :
  list_find is_error (ec :: l) =
    if is_error ec then Some (0%nat, ec) else prod_map S id <$> list_find is_error l.
Proof. simpl. by destruct (is_error ec). Qed.

(** ** Settings *)

(** The services, whose contexts [initialize_context] of libbitcoin-network reads; its
    code is the argument. The name of a failed service is retained. *)
Definition initialize_service (initialize_context : string → code) (service : string)
    (failure : string) : code * string :=
  let ec := initialize_context service in
  (ec, if is_error ec then service else failure).

(** The services in the order of [settings::initialize]. *)
Fixpoint initialize_services (initialize_context : string → code) (first : string)
    (rest : list string) (failure : string) : code * string :=
  let '(ec, failure) := initialize_service initialize_context first failure in
  match rest with
  | [] => (ec, failure)
  | next :: rest =>
      if is_error ec then (ec, failure)
      else initialize_services initialize_context next rest failure
  end.

Definition settings_initialize (initialize_context : string → code) (failure : string) :
    code * string :=
  initialize_services initialize_context "admin"
    ["native"; "bitcoind"; "btcd"; "electrum"; "sparrow"; "esplora"; "stratum_v1"; "stratum_v2";
     "bitcoind_zmq"] failure.

(** [configuration::initialize], after that of the node. *)
Definition configuration_initialize (node_initialize : code) (initialize_context : string → code)
    (failure : string) : code * string :=
  if is_error node_initialize then (node_initialize, failure)
  else settings_initialize initialize_context failure.

(** The prefixes of addresses and keys, [wallet::context] of libbitcoin-system. *)
Record wallet_context := WalletContext {
  hd_prv : Z;
  hd_pub : Z;
  p2w : string;
  p2kh : Z;
  p2sh : Z;
  wif : Z;
  sp : string;
}.

Class WalletContexts := {
  ctx_btc_main : wallet_context;
  ctx_btc_test : wallet_context;
  ctx_btc_regtest : wallet_context;
}.

Record wallet_settings := WalletSettings {
  p2kh_prefix : Z;
  p2sh_prefix : Z;
  wif_prefix : Z;
  witness_prefix : string;
  silent_prefix : string;
  hd_private_prefix : Z;
  hd_public_prefix : Z;
}.

Definition to_wallet_context `{WalletContexts} (context : selection) : wallet_context :=
  match context with
  | testnet3 | testnet4 => ctx_btc_test
  | regtest => ctx_btc_regtest
  | mainnet | none => ctx_btc_main
  end.

Definition make_wallet_settings `{WalletContexts} (context : selection) : wallet_settings :=
  let value := to_wallet_context context in
  WalletSettings (p2kh value) (p2sh value) (wif value) (p2w value) (sp value) (hd_prv value)
    (hd_pub value).

Definition to_context (s : wallet_settings) : wallet_context :=
  WalletContext (hd_private_prefix s) (hd_public_prefix s) (witness_prefix s) (p2kh_prefix s)
    (p2sh_prefix s) (wif_prefix s) (silent_prefix s).

(** The settings of the log: the levels that libbitcoin-network compiles, or off. *)
Record log_settings := LogSettings {
  log_application : bool;
  log_news : bool;
  log_session : bool;
  log_protocol : bool;
  log_proxy : bool;
  log_remote : bool;
  log_fault : bool;
  log_quitting : bool;
  log_objects : bool;
  log_verbose : bool;
  log_maximum_size : Z;
}.

Definition make_log_settings (application news session remote fault : bool) : log_settings :=
  LogSettings application news session false false remote fault false false false 1000000.

(** ** Stratum *)

(** A handler returns whether its subscription is kept, and the codes that it sends. *)
Definition not_implemented_reply (stopped : bool) : bool * list code :=
  if stopped then (false, []) else (true, [Error.make Error.not_implemented]).

Definition handle_mining_subscribe (stopped : bool) (user_agent : string) (extranonce1_size : Z) :=
  not_implemented_reply stopped.
Definition handle_mining_authorize (stopped : bool) (username password : string) :=
  not_implemented_reply stopped.
Definition handle_mining_submit (stopped : bool) (worker_name job_id extranonce2 : string)
    (ntime : Z) (nonce : string) :=
  not_implemented_reply stopped.
Definition handle_mining_extranonce_subscribe (stopped : bool) := not_implemented_reply stopped.
Definition handle_mining_extranonce_unsubscribe (stopped : bool) (id : Z) :=
  not_implemented_reply stopped.
Definition handle_mining_configure {A} (stopped : bool) (extensions : A) :=
  not_implemented_reply stopped.
Definition handle_mining_set_difficulty (stopped : bool) (difficulty : Z) :=
  not_implemented_reply stopped.
Definition handle_mining_notify {A} (stopped : bool) (job_id prevhash coinb1 coinb2 : string)
    (merkle_branch : A) (version nbits ntime : Z) (clean_jobs hash_lock clean : bool) :=
  not_implemented_reply stopped.
Definition handle_client_reconnect (stopped : bool) (url : string) (port id : Z) :=
  not_implemented_reply stopped.
Definition handle_client_hello {A} (stopped : bool) (protocol : A) := not_implemented_reply stopped.
Definition handle_client_rejected (stopped : bool) (job_id reject_reason : string) :=
  not_implemented_reply stopped.

(** ** Theorems *)

Lemma wallet_settings_context `{WalletContexts} (context : selection) :
  to_context (make_wallet_settings context) = to_wallet_context context.
Proof. unfold to_context, make_wallet_settings. simpl. by destruct (to_wallet_context context). Qed.

Lemma last_cons_default {A} (x d : A) l : List.last (x :: l) d = List.last l x.
Proof.
  revert x d. induction l as [|y l IH]; intros x d; [done|].
  change (List.last (y :: l) d = List.last (y :: l) x). by rewrite !IH.
Qed.

(** The first service that fails stops the initialization, and is named. *)
Lemma initialize_services_correct initialize_context first rest failure :
  match list_find (λ s, is_error (initialize_context s)) (first :: rest) with
  | Some (_, s) =>
      initialize_services initialize_context first rest failure = (initialize_context s, s)
  | None =>
      initialize_services initialize_context first rest failure =
        (initialize_context (List.last rest first), failure)
  end.
Proof.
  revert first. induction rest as [|next rest IH]; intros first.
  - simpl. by destruct (is_error (initialize_context first)).
  - specialize (IH next).
    assert (initialize_services initialize_context first (next :: rest) failure =
      if is_error (initialize_context first) then (initialize_context first, first)
      else initialize_services initialize_context next rest failure) as ->
      by (simpl; by destruct (is_error _)).
    change (list_find ?P (first :: next :: rest)) with
      (if decide (Is_true (is_error (initialize_context first))) then Some (0%nat, first) 
        else prod_map S id <$> list_find P (next :: rest)).
    destruct (is_error (initialize_context first)); [done|].
    simpl decide. cbv iota. destruct (list_find _ (next :: rest)) as [[i s]|]; [exact IH|].
    rewrite last_cons_default. exact IH.
Qed.

(** The next completion is an error, or the sequence goes on. *)
Ltac next_completion cs :=
  destruct cs as [|?c cs]; [reflexivity|];
  change (take (S ?n) (?c :: ?l)) with (c :: take n l);
  rewrite find_error; cbn [foldl]; rewrite complete_waiting; cbn [starts];
  match goal with |- context [is_error ?c] => destruct (is_error c); [apply complete_idle|] end.

(** C36: whatever the completions of the node and of the sessions are, the sessions are
    attached in order, each after the completion without error of all that precede it;
    an error is passed to the handler, and nothing is attached after it. Without one,
    the handler is invoked with the completion of the last session. It is never invoked
    twice, and no start remains to be waited for once it is. *)
Theorem startup_correct (completions : list code) :
  run completions =
    match list_find is_error (take 11 completions) with
    | Some (i, ec) => ServerNode (take i sessions) None [ec]
    | None => ServerNode (take (length completions) sessions)
        ([start_admin_; start_native_; start_bitcoind_; start_btcd_; start_electrum_;
          start_sparrow_; start_esplora_; start_stratum_v1_; start_stratum_v2_;
          start_bitcoind_zmq_; handler_] !! length completions)
        (option_list (completions !! 10%nat))
    end.
Proof.
  unfold run, do_run.
  do 11 next_completion completions.
  rewrite complete_idle. simpl. reflexivity.
Qed.
