(* ===== verification/Localize.v ===== *)
(** The texts of the console (src/console/localize.hpp) and their formatting.

    Texts that pad or round their arguments, those of the scans' tables, are left
    out, with the titles of windows and of Windows services. *)
From S2P Require Import Prelude.

Definition newline : string := String "010" "".

(** The lines of a text, without a final newline. *)
Definition unlines (lines : list string) : string := String.concat newline lines.

Definition head_text (args : list string) : string := default "" (head args).

(** [std::format] of a text whose fields are [{}] and [{:d}], with the texts of the
    arguments; a field without an argument is not compiled. *)
Fixpoint format_from (skipping : bool) (text : string) (args : list string) : string :=
  match text with
  | "" => ""
  | String c text =>
      if skipping then format_from (negb (Ascii.eqb c "}")) text args
      else if Ascii.eqb c "{" then
        (head_text args ++ format_from true text (tail args))%string
      else String c (format_from false text args)
  end.

Definition format (text : string) (args : list string) : string := format_from false text args.

(** The number of the fields of a text. *)
Fixpoint fields (text : string) : nat :=
  match text with
  | "" => 0
  | String c text => (if Ascii.eqb c "{" then 1 else 0) + fields text
  end.

(** ** The texts *)


(** Texts of Posix. *)
Definition BS_SERVICE_LABEL : string :=
  "org.libbitcoin.bs".
Definition BS_SERVICE_DESCRIPTION : string :=
  "Full node bitcoin server.".
Definition BS_OPERATION_INTERRUPT : string :=
  "Press CTRL-C to cancel operation.".
Definition BS_OPERATION_CANCELED : string :=
  "CTRL-C detected, canceling operation...".
Definition BS_PROMPT_SETOFF : string :=
  "--------------------------------------------------------------------------".

(** Texts of bitcoin.milestone. *)
Definition BS_MILESTONE_PROMPT1 : string :=
  "If you have previously validated you may want to utilize a milestone.".
Definition BS_MILESTONE_PROMPT2 : string :=
  "A milestone bypasses full validation of all previous blocks and itself.".
Definition BS_MILESTONE_PROMPT3 : string :=
  "The default milestone in this build is the following block hash:height".
Definition BS_BITCOIN_MILESTONE : string :=
  "bitcoin.milestone = {}".
Definition BS_MILESTONE_CHOICE1 : string :=
  "Press <enter> to continue with this default as a block you have validated.".
Definition BS_MILESTONE_CHOICE2 : string :=
  "Enter 'c' to stop so you can set a different milestone in configuration.".
Definition BS_MILESTONE_HALTED1 : string :=
  "Set a previously-validated milestone in your configuration file.".
Definition BS_MILESTONE_HALTED2 : string :=
  "Set to genesis-hash:0 if you have not validated previously.".

(** Texts of startup warnings. *)
Definition BS_WARNINGS_CHOICE1 : string :=
  "Press <enter> to continue despite the above warnings.".
Definition BS_WARNINGS_CHOICE2 : string :=
  "Enter 'c' to stop so you can address them.".
Definition BS_WARNINGS_HALTED : string :=
  "Address the warnings, or start with --accept to bypass this prompt.".

(** Texts of --settings. *)
Definition BS_SETTINGS_MESSAGE : string :=
  "These are the configuration settings that can be set.".
Definition BS_DETAIL_MESSAGE : string :=
  "Runs a full node bitcoin server.".

(** Texts of --initchain. *)
Definition BS_INITIALIZING_CHAIN : string :=
  "Initializing {} directory...".
Definition BS_INITCHAIN_DIRECTORY_ERROR : string :=
  "Failed creating directory {} with error '{}'.".
Definition BS_INITCHAIN_CREATING : string :=
  "Please wait while creating the database...".
Definition BS_INITCHAIN_CREATED : string :=
  "Created the database in {} secs.".
Definition BS_INITCHAIN_COMPLETE : string :=
  "Created and initialized the database.".
Definition BS_INITCHAIN_DATABASE_CREATE_FAILURE : string :=
  "Database creation failed with error '{}'.".
Definition BS_INITCHAIN_DATABASE_INITIALIZE : string :=
  "Storing genesis block.".
Definition BS_INITCHAIN_DATABASE_INITIALIZE_FAILURE : string :=
  "Failure storing genesis block.".

(** Texts of --restore. *)
Definition BS_SNAPSHOT_INVALID : string :=
  "Database snapshot disallowed due to corruption '{}'.".
Definition BS_RESTORING_CHAIN : string :=
  "Please wait while restoring from most recent snapshot...".
Definition BS_RESTORE_MISSING_FLUSH_LOCK : string :=
  "Database is not corrupted, flush lock file is absent.".
Definition BS_RESTORE_FAILURE : string :=
  "Database restore failed with error '{}'.".
Definition BS_RESTORE_COMPLETE : string :=
  "Restored the database in {} secs.".

(** Texts of --daemon. *)
Definition BS_DAEMON_UNSUPPORTED : string :=
  "Service installation is not supported on this platform.".
Definition BS_DAEMON_INVALID_USER : string :=
  "Service logon credential must not specify methods.".
Definition BS_DAEMON_UNKNOWN_USER : string :=
  "The service logon account does not exist.".
Definition BS_DAEMON_INSTALLED : string :=
  "Installed the service.".
Definition BS_DAEMON_UNINSTALLED : string :=
  "Uninstalled the service.".
Definition BS_DAEMON_ELEVATION : string :=
  "Service configuration requires elevation.".
Definition BS_DAEMON_EXISTS : string :=
  "The service is already installed.".
Definition BS_DAEMON_ABSENT : string :=
  "The service is not installed.".
Definition BS_DAEMON_INSTALL_FAILURE : string :=
  "Service installation failed with error {}.".
Definition BS_DAEMON_UNINSTALL_FAILURE : string :=
  "Service removal failed with error {}.".

(** Texts of --information. *)
Definition BS_INFORMATION_START : string := unlines
  ["Configuration...";
   "   dirty         :{:d}";
   "   interval      :{}"].
Definition BS_INFORMATION_SIZES : string := unlines
  ["Body sizes...";
   "   header        :{}";
   "   txs           :{}";
   "   tx            :{}";
   "   input         :{}";
   "   output        :{}";
   "   ins           :{}";
   "   outs          :{}";
   "   ecdsa0        :{}";
   "   ecdsa1        :{}";
   "   schnorr0      :{}";
   "   schnorr1      :{}";
   "   prevalid0     :{}";
   "   prevalid1     :{}";
   "   presilent0    :{}";
   "   presilent1    :{}";
   "   silent0       :{}";
   "   silent1       :{}";
   "   silent0_prefix:{}";
   "   silent1_prefix:{}";
   "   prevout       :{}";
   "   duplicate     :{}";
   "   strong        :{}";
   "   scan          :{}";
   "   scan_prefix   :{}";
   "   pool          :{}";
   "   wtxid         :{}";
   "   spends        :{}";
   "   filter_bk     :{}";
   "   filter_tx     :{}"].
Definition BS_INFORMATION_RECORDS : string := unlines
  ["Table records...";
   "   header        :{}";
   "   tx            :{}";
   "   ins           :{}";
   "   outs          :{}";
   "   ecdsa0        :{}";
   "   ecdsa1        :{}";
   "   schnorr0      :{}";
   "   schnorr1      :{}";
   "   prevalid0     :{}";
   "   prevalid1     :{}";
   "   presilent0    :{}";
   "   presilent1    :{}";
   "   silent0       :{}";
   "   silent1       :{}";
   "   silent0_prefix:{}";
   "   silent1_prefix:{}";
   "   duplicate     :{}";
   "   scan          :{}";
   "   scan_prefix   :{}";
   "   pool          :{}";
   "   wtxid         :{}";
   "   spends        :{}";
   "   filter_bk     :{}"].
Definition BS_INFORMATION_BUCKETS : string := unlines
  ["Head buckets...";
   "   header        :{}";
   "   txs           :{}";
   "   tx            :{}";
   "   ins           :{}";
   "   outs          :{}";
   "   candidate     :{}";
   "   confirmed     :{}";
   "   prevout       :{}";
   "   duplicate     :{}";
   "   strong        :{}";
   "   scan          :{}";
   "   state         :{}";
   "   pool          :{}";
   "   wtxid         :{}";
   "   filter_bk     :{}";
   "   filter_tx     :{}"].
Definition BS_INFORMATION_LOAD_FACTORS : string := unlines
  ["Load factors...";
   "   header        :{}";
   "   tx            :{}";
   "   ins           :{}";
   "   pool          :{}";
   "   wtxid         :{}"].
Definition BS_INFORMATION_LOAD_FACTORS_OUTS : string := unlines
  ["Load factors...";
   "   header        :{}";
   "   tx            :{}";
   "   ins           :{}";
   "   outs          :{}";
   "   pool          :{}";
   "   wtxid         :{}"].
Definition BS_INFORMATION_PROGRESS_START : string :=
  "Thinking...".
Definition BS_INFORMATION_INCOMPLETE : string :=
  "incomplete".
Definition BS_INFORMATION_PROGRESS : string := unlines
  ["Chain progress...";
   "   fork pt       :{}";
   "   top conf      :{}:{}";
   "   top cand      :{}:{}";
   "   top assoc     :{}";
   "   associated    :{}";
   "   wire conf     :{}";
   "   wire cand     :{}"].

(** Texts of --flags. *)
Definition BS_FLAGS_ERROR : string :=
  "Error: {}".
Definition BS_FLAGS_FORKED : string :=
  "Forked from [{}] to [{}] at [{}:{}]".
Definition BS_FLAGS_SCANNED : string :=
  "Scanned {} headers for rule forks in {} ms.".

(** Texts of --buckets. *)
Definition BS_BUCKETS_HEADER : string :=
  "table              buckets         records      load     fill   expect   secs".

(** Texts of --collisions. *)
Definition BS_COLLISIONS_HASH : string :=
  "hash".
Definition BS_COLLISIONS_LINK : string :=
  "link".
Definition BS_COLLISIONS_FILTERED : string := unlines
  ["";
   "{} ({} keyed, filter m {} k {} k_max {})";
   "           keys      load         fp      model       walk      model   secs"].
Definition BS_COLLISIONS_UNFILTERED : string := unlines
  ["";
   "{} ({} keyed, unfiltered)";
   "           keys      load   secs"].
Definition BS_COLLISIONS_LENGTHS : string :=
  "         length         buckets          expect".
Definition BS_COLLISIONS_DISTRIBUTION : string := unlines
  ["";
   "Distribution (measured, expected)...";
   "table              buckets            keys      load     fill   expect    disp  expect    walk  expect  max"].
Definition BS_COLLISIONS_FILTER : string := unlines
  ["";
   "Filter (measured vs model over growth, fp at load by k)...";
   "table        m   k opt         fp      model       walk      model      fp(k)    fp(opt)"].

(** Texts of --read. *)

(** Texts of --write. *)

(** Texts of run/general. *)
Definition BS_CREATE : string :=
  "create::{}({})".
Definition BS_OPEN : string :=
  "open::{}({})".
Definition BS_CLOSE : string :=
  "close::{}({})".
Definition BS_BACKUP : string :=
  "snapshot::{}({})".
Definition BS_RESTORE : string :=
  "restore::{}({})".
Definition BS_RELOAD : string :=
  "reload::{}({})".
Definition BS_CONDITION : string :=
  "condition::{}({})".
Definition BS_NODE_INTERRUPT : string :=
  "Press CTRL-C to stop the node.".
Definition BS_DATABASE_STARTED : string :=
  "Database is started.".
Definition BS_NETWORK_STARTING : string :=
  "Please wait while network is starting...".
Definition BS_NODE_START_FAIL : string :=
  "Node failed to start with error '{}'.".
Definition BS_NODE_UNAVAILABLE : string :=
  "Command not available until node started.".
Definition BS_NODE_INTERRUPTED : string :=
  "Node was interrupted by signal ({}).".
Definition BS_NODE_BACKUP_STARTED : string :=
  "Snapshot is started.".
Definition BS_NODE_BACKUP_FAIL : string :=
  "Snapshot failed with error '{}'.".
Definition BS_NODE_BACKUP_COMPLETE : string :=
  "Snapshot complete in {} secs.".
Definition BS_RELOAD_SPACE : string :=
  "Free [{}] bytes of disk space to restart.".
Definition BS_RELOAD_INVALID : string :=
  "Reload disallowed due to database corruption '{}'.".
Definition BS_NODE_RELOAD_STARTED : string :=
  "Reload from disk full is started.".
Definition BS_NODE_RELOAD_COMPLETE : string :=
  "Reload from disk full in {} secs.".
Definition BS_NODE_RELOAD_FAIL : string :=
  "Reload failed with error '{}'.".
Definition BS_NODE_UNRECOVERABLE : string :=
  "Node is not in recoverable condition.".
Definition BS_NODE_DISK_FULL : string :=
  "Node cannot resume because its disk is full.".
Definition BS_NODE_OK : string :=
  "Node is ok.".
Definition BS_NODE_REPORT_WORK : string :=
  "Requested channel work report [{}].".
Definition BS_NODE_STARTED : string :=
  "Node is started.".
Definition BS_NODE_RUNNING : string :=
  "Node is running.".
Definition BS_UNINITIALIZED_DATABASE : string :=
  "The {} database directory does not exist.".
Definition BS_UNINITIALIZED_CHAIN : string :=
  "The {} database is not initialized, delete and retry.".
Definition BS_DATABASE_START_FAIL : string :=
  "Database failed to start with error '{}'.".
Definition BS_DATABASE_SCHEMA_FAIL : string :=
  "Database schema failed to read with error '{}'.".
Definition BS_DATABASE_SCHEMA_MISMATCH : string :=
  "Database schema {} does not match compiled schema {}.".
Definition BS_DATABASE_ENVELOPE_OVERRIDE : string :=
  "Database envelope [{}] overrides configuration.".
Definition BS_DATABASE_STOPPING : string :=
  "Please wait while database is stopping...".
Definition BS_DATABASE_STOP_FAIL : string :=
  "Database failed to stop with error '{}'.".
Definition BS_DATABASE_TIMED_STOP : string :=
  "Database stopped successfully in {} secs.".
Definition BS_NETWORK_STOPPING : string :=
  "Please wait while network is stopping...".
Definition BS_NODE_STOP_CODE : string :=
  "Node stopped with code {}.".
Definition BS_NODE_STOPPED : string :=
  "Node stopped successfully.".
Definition BS_VERSION_HEADER : string :=
  "Version Information...".
Definition BS_HARDWARE_HEADER_ARM64 : string :=
  "Hardware configuration (arm64)...".
Definition BS_HARDWARE_HEADER_X64 : string :=
  "Hardware configuration (x64)...".
Definition BS_HARDWARE_PLATFORM : string :=
  "platform:{:d}.".
Definition BS_HARDWARE_COMPILED : string :=
  "platform:{:d} compiled:{:d}.".
Definition BS_HARDWARE_ENABLED : string :=
  "platform:{:d} enabled:{:d}.".
Definition BS_HARDWARE_INCOMPATIBLE : string :=
  "platform:{:d} compiled:{:d} (unsupported).".

(** Texts of warnings. *)
Definition BS_HARDWARE_SHA_UNCOMPILED : string :=
  "Available SHA hardware acceleration is not compiled into this build.".
Definition BS_HARDWARE_AVX2_UNCOMPILED : string :=
  "Available AVX2 hardware acceleration is not compiled into this build.".
Definition BS_HARDWARE_GPU_UNCOMPILED : string :=
  "Available cuda hardware acceleration is not compiled into this build.".
Definition BS_HARDWARE_UNSUPPORTED : string :=
  "A cuda device is present but unsupported by the compiled acceleration.".
Definition BS_HARDWARE_UNCONFIGURED : string :=
  "A cuda device is present but batching is not configured.".
Definition BS_MEMORY_BELOW_MINIMUM : string :=
  "Memory is below the minimum recommended for initial block download.".
Definition BS_MEMORY_BELOW_VALIDATION : string :=
  "Memory is below the minimum recommended for full validation.".
Definition BS_MEMORY_BELOW_RECOMMENDED : string :=
  "Memory is below the amount recommended for initial block download.".
Definition BS_MEMORY_PHYSICAL : string :=
  "Physical memory: {} GiB.".
Definition BS_SPACE_BELOW_REQUIRED : string :=
  "Free disk space is below that required to complete initial block download.".
Definition BS_SPACE_AVAILABLE : string :=
  "Free disk space: {} GiB.".
Definition BS_STORAGE_NOT_INTERNAL : string :=
  "The database is not on an internal solid state drive.".
Definition BS_LOG_TABLE_HEADER : string :=
  "Log system configuration...".
Definition BS_LOG_TABLE : string :=
  "compiled:{:d} enabled:{:d}.".
Definition BS_LOG_INITIALIZE_FAILURE : string :=
  "Failed to initialize logging, check configured path.".
Definition BS_USING_CONFIG_FILE : string :=
  "Using config file: {}".
Definition BS_USING_DEFAULT_CONFIG : string :=
  "Using default configuration settings.".
Definition BS_LOG_HEADER : string :=
  "====================== startup =======================".
Definition BS_NODE_FOOTER : string :=
  "====================== shutdown ======================".
Definition BS_NODE_TERMINATE : string :=
  "Press <enter> to exit...".
