(* ===== verification/Console.v ===== *)
(** The console's commands as programs over the store, the node and the system.

    A program calls operations, whose answers the outside gives: those of the store
    ([database::store], [node::query]), of the node, of the log and of the operating
    system. A program that is [safe] uses them in an order that they allow, whatever
    they answer: the store is read while it is open, is opened once and closed, and the
    node is closed before the store that it uses. *)
From Stdlib Require Import Floats.
From S2P Require Import Prelude Rpc Errors Localize.

(** ** Operations *)

(** A field of a row that is padded or rounded. *)
Inductive field := text_field (text : string) | real_field (value : PrimFloat.float).

(** The key of a row of a hash table: an array of bytes, a point or a search key. *)
Inductive table_key :=
  | array_key (value : string)
  | point_key (hash : string) (index : Z)
  | search_key (value : string).

Inductive op :=
  (** The log and the console, in executor_logging.cpp and executor_runner.cpp. *)
  | log_stop
  | log_stop_with (text : string)
  | logger (text : string)
  | log_row (text : string) (fields : list field)
  | wait_stopped
  | create_log_directory
  | create_sinks
  | subscribe_log
  | subscribe_events
  | set_console_echo
  | unset_console_echo
  | capture_subscribe
  | capture_start
  | capture_stop
  | print_help
  | print_settings
  | canceled
  | interactive
  | now
  | stop_node
  | wait_for_stopping
  | get_signal
  | get_toggle (level : Z)
  | set_toggle (level : Z) (value : bool)
  | get_result
  (** The file system and the machine. *)
  | create_directory_ex (path : string)
  | is_directory (path : string)
  | platform (feature : string)
  | physical_memory
  | module_path
  | path_exists (path : string)
  | open_file (path : string)
  | write_file (path text : string)
  | create_directories (path : string)
  | create_symlink (target path : string)
  | remove_file (path : string)
  | space (path : string)
  | solid_state (path : string)
  | internal_storage (path : string)
  (** The configuration, which the envelope of the store may change. *)
  | milestone_setting
  | limited_blocks_setting
  (** The store, closed or open: its envelope's schema is in its own file. *)
  | read_schema
  | store_create
  | store_open
  | store_restore
  (** The open store. *)
  | store_close
  | store_snapshot
  | get_fault
  | apply_envelope_
  | is_dirty
  | report
  | initialize
  | is_initialized
  | is_full
  | is_fault
  | get_space
  | store_size
  | query_size (name : string)
  | query_text (name : string)
  | query_flag (name : string)
  | candidate_context (height : Z)
  | candidate_key (height : Z)
  | bucket_terminal (table : string) (bucket : Z)
  | row_key (table : string) (index : Z)
  | read_test (hash : string)
  | write_test (hash : string)
  (** The node. *)
  | has_node
  | make_node
  | node_subscribe_connect
  | node_subscribe_close
  | node_start
  | node_close
  | node_snapshot
  | node_reload
  | node_resume
  | node_suspend
  | node_report (sequence : Z).

(** The events that an operation of the store reports, each with its table, by the
    names in [events] and [tables]. *)
Abbreviation table_events := (list (string * string)).

Definition answer (o : op) : Type :=
  match o with
  | create_sinks | canceled | interactive | get_toggle _ | get_result | is_directory _ | platform _
  | solid_state _ | internal_storage _ | is_dirty | initialize | is_initialized | is_full | is_fault
  | query_flag _ | has_node | path_exists _ | open_file _ | write_file _ _ | create_directories _
  | create_symlink _ _ | remove_file _ | limited_blocks_setting | bucket_terminal _ _ => bool
  | now | physical_memory | get_space | store_size | query_size _ => Z
  | space _ => option Z
  | get_signal => Z
  | row_key _ _ => table_key
  | milestone_setting => string * Z
  | candidate_context _ => option (Z * Z)
  | query_text _ | module_path | candidate_key _ => string
  | create_directory_ex _ | get_fault => code * string
  | read_schema => (code * string) * string
  | store_create | store_open | store_restore | store_close | store_snapshot | node_snapshot
  | node_reload => (code * string) * table_events
  | apply_envelope_ => list string
  | report => list (string * string)
  | _ => unit
  end.

(** ** Programs *)

Inductive prog (A : Type) : Type :=
  | ret (result : A)
  | call (o : op) (next : answer o → prog A).

Arguments ret {A} _.
Arguments call {A} _ _.

Fixpoint bind {A B} (p : prog A) (k : A → prog B) : prog B :=
  match p with
  | ret a => k a
  | call o next => call o (λ b, bind (next b) k)
  end.

Definition perform (o : op) : prog (answer o) := call o ret.

Notation "x <- p ;; q" := (bind p (λ x, q)) (at level 100, p at next level, right associativity) : server_scope.
Notation "'let*' pat := p 'in' q" := (bind p (λ x, match x with pat => q end))
  (at level 100, pat strict pattern, p at level 90, q at level 200) : server_scope.
Notation "p ;; q" := (bind p (λ _, q)) (at level 100, right associativity) : server_scope.

Definition ok (b : bool) : prog bool := ret b.

(** A loop over a list. *)
Fixpoint for_each {A} (xs : list A) (body : A → prog unit) : prog unit :=
  match xs with
  | [] => ret tt
  | x :: xs => body x;; for_each xs body
  end.

(** A loop that collects. *)
Fixpoint collect {A B} (xs : list A) (body : A → prog B) : prog (list B) :=
  match xs with
  | [] => ret []
  | x :: xs => y <- body x;; ys <- collect xs body;; ret (y :: ys)
  end.

(** The operations of a run, in order, with the answers that the outside gives to the
    n-th of them. *)
Fixpoint run_prog {A} (outside : nat → ∀ o, answer o) (n : nat) (p : prog A) : A * list op :=
  match p with
  | ret a => (a, [])
  | call o next =>
      let '(a, ops) := run_prog outside (S n) (next (outside n o)) in (a, o :: ops)
  end.

(** A run of a sequence is a run of its parts. *)
Lemma run_prog_bind {A B} outside n (p : prog A) (k : A → prog B) :
  let '(a, ops) := run_prog outside n p in
  run_prog outside n (bind p k) =
    let '(b, ops') := run_prog outside (n + length ops) (k a) in (b, (ops ++ ops')%list).
Proof.
  revert n. induction p as [a|o next IH]; intros n; simpl.
  - rewrite Nat.add_0_r. by destruct (run_prog outside n (k a)).
  - specialize (IH (outside n o) (S n)).
    destruct (run_prog outside (S n) (next (outside n o))) as [a ops]. rewrite IH. simpl.
    rewrite Nat.add_succ_r. by destruct (run_prog outside (S (n + length ops)) (k a)).
Qed.

Lemma run_prog_bind_result {A B} outside n (p : prog A) (k : A → prog B) :
  (run_prog outside n (bind p k)).1 =
    (run_prog outside (n + length (run_prog outside n p).2) (k (run_prog outside n p).1)).1.
Proof.
  pose proof (run_prog_bind outside n p k) as Hbind. destruct (run_prog outside n p) as [a ops]. simpl.
  rewrite Hbind. by destruct (run_prog outside (n + length ops) (k a)).
Qed.

(** The lines of a run. *)
Definition logged (ops : list op) : list string :=
  omap (λ o, match o with
             | logger text | log_stop_with text => Some text
             | _ => None
             end) ops.

(** ** The order of the operations *)

Inductive store_status := store_closed | store_opened | store_unclosed.
Inductive node_status := node_absent | node_made | node_started | node_closed.

Record status := Status {
  store_is : store_status;
  node_is : node_status;
}.

Definition at_rest : status := Status store_closed node_absent.

Definition with_store (store : store_status) (s : status) : status := Status store (node_is s).
Definition with_node (node : node_status) (s : status) : status := Status (store_is s) node.

(** What an operation needs, and what it leads to by its answer. A store that creates,
    opens or restores is open, unless it fails; a snapshot or a query does not change
    it; one that fails to close is neither open nor closed. *)
Definition next_status (s : status) (o : op) : answer o → option status :=
  match o return answer o → option status with
  | store_create | store_open | store_restore => λ a,
      match store_is s with
      | store_closed => Some (if is_error a.1.1 then s else with_store store_opened s)
      | _ => None
      end
  | store_close => λ a,
      match store_is s, node_is s with
      | store_opened, (node_absent | node_closed) =>
          Some (with_store (if is_error a.1.1 then store_unclosed else store_closed) s)
      | _, _ => None
      end
  | store_snapshot | get_fault | apply_envelope_ | report | is_dirty | initialize | is_initialized
  | is_full | is_fault | get_space | store_size | query_size _ | query_text _ | query_flag _
  | candidate_context _ | candidate_key _ | bucket_terminal _ _ | row_key _ _ | read_test _
  | write_test _ => λ _,
      match store_is s with
      | store_opened => Some s
      | _ => None
      end
  | make_node => λ _,
      match store_is s, node_is s with
      | store_opened, node_absent => Some (with_node node_made s)
      | _, _ => None
      end
  | node_subscribe_connect | node_subscribe_close => λ _,
      match node_is s with
      | node_made => Some s
      | _ => None
      end
  | node_start => λ _,
      match node_is s with
      | node_made => Some (with_node node_started s)
      | _ => None
      end
  | node_close => λ _,
      match node_is s with
      | node_started => Some (with_node node_closed s)
      | _ => None
      end
  | node_snapshot | node_reload | node_resume | node_suspend | node_report _ => λ _,
      match node_is s with
      | node_absent => None
      | _ => Some s
      end
  | _ => λ _, Some s
  end.

(** The member [node_] is set when the node is made. *)
Definition possible (s : status) (o : op) : answer o → bool :=
  match o return answer o → bool with
  | has_node => λ a, Bool.eqb a (match node_is s with node_absent => false | _ => true end)
  | _ => λ _, true
  end.

(** Whatever the outside answers, each operation is allowed, and the result and the
    status at the end are as stated. *)
Fixpoint safe {A} (p : prog A) (s : status) (Q : A → status → Prop) : Prop :=
  match p with
  | ret a => Q a s
  | call o next =>
      ∀ b, possible s o b = true →
        match next_status s o b with
        | Some s' => safe (next b) s' Q
        | None => False
        end
  end.

Section Safe.

Lemma safe_mono {A} (p : prog A) s (Q R : A → status → Prop) :
  (∀ a s, Q a s → R a s) → safe p s Q → safe p s R.
Proof.
  intros HQR. revert s. induction p as [a|o next IH]; intros s; simpl; [apply HQR|].
  intros Hp b Hb. specialize (Hp b Hb). destruct (next_status s o b); [|done]. by apply IH.
Qed.

Lemma safe_bind {A B} (p : prog A) (k : A → prog B) s Q :
  safe p s (λ a s', safe (k a) s' Q) → safe (bind p k) s Q.
Proof.
  revert s. induction p as [a|o next IH]; intros s; simpl; [done|].
  intros Hp b Hb. specialize (Hp b Hb). destruct (next_status s o b); [|done]. by apply IH.
Qed.

Lemma safe_call {A} o (k : answer o → prog A) s Q :
  (∀ b, possible s o b = true → ∃ s', next_status s o b = Some s' ∧ safe (k b) s' Q) →
  safe (bind (perform o) k) s Q.
Proof. intros Hk b Hb. destruct (Hk b Hb) as (s' & -> & Hs'). exact Hs'. Qed.

(** A part that keeps the status, in a program. *)
Lemma safe_then {A B} (p : prog A) (k : A → prog B) s Q :
  safe p s (λ _ s', s' = s) → (∀ a, safe (k a) s Q) → safe (bind p k) s Q.
Proof. intros Hp Hk. apply safe_bind. eapply safe_mono; [|exact Hp]. intros a s' ->. apply Hk. Qed.

Lemma safe_for_each {A} (xs : list A) body s :
  (∀ x, safe (body x) s (λ _ s', s' = s)) → safe (for_each xs body) s (λ _ s', s' = s).
Proof.
  intros Hbody. induction xs as [|x xs IH]; simpl; [done|]. by apply safe_then.
Qed.

Lemma safe_collect {A B} (xs : list A) (body : A → prog B) s :
  (∀ x, safe (body x) s (λ _ s', s' = s)) → safe (collect xs body) s (λ _ s', s' = s).
Proof.
  intros Hbody. induction xs as [|x xs IH]; simpl; [done|].
  apply safe_then; [done|]. intros y. by apply safe_then.
Qed.

End Safe.

(** The runs of a safe program, as sequences of operations with their answers. *)
Inductive runs {A} : prog A → status → A → status → list op → Prop :=
  | runs_ret a s : runs (ret a) s a s []
  | runs_call o next s b s' a s'' ops :
      possible s o b = true → next_status s o b = Some s' → runs (next b) s' a s'' ops →
      runs (call o next) s a s'' (o :: ops).

Lemma safe_runs {A} (p : prog A) s a s' ops Q : safe p s Q → runs p s a s' ops → Q a s'.
Proof.
  intros Hsafe Hruns. induction Hruns as [|o next s b s1 a s2 ops Hb Hnext _ IH]; [done|].
  apply IH. simpl in Hsafe. specialize (Hsafe b Hb). by rewrite Hnext in Hsafe.
Qed.

(** A run in a world that answers and changes. *)
Fixpoint run_in {W A} (respond : ∀ o, W → answer o * W) (p : prog A) (w : W) : A * W :=
  match p with
  | ret a => (a, w)
  | call o next => let '(b, w) := respond o w in run_in respond (next b) w
  end.

Lemma run_in_bind {W A B} (respond : ∀ o, W → answer o * W) (p : prog A) (k : A → prog B) w :
  run_in respond (bind p k) w = let '(a, w) := run_in respond p w in run_in respond (k a) w.
Proof.
  revert w. induction p as [a|o next IH]; intros w; simpl; [done|].
  destruct (respond o w) as [b w']. apply IH.
Qed.

(** The run in which the outside always answers an operation alike, if it is allowed. *)
Fixpoint follow {A} (outside : ∀ o, answer o) (p : prog A) (s : status) : option (A * status * list op) :=
  match p with
  | ret a => Some (a, s, [])
  | call o next =>
      if possible s o (outside o) then
        s' ← next_status s o (outside o);
        '(a, s'', ops) ← follow outside (next (outside o)) s';
        Some (a, s'', o :: ops)
      else None
  end.

Lemma follow_runs {A} outside (p : prog A) s a s' ops :
  follow outside p s = Some (a, s', ops) → runs p s a s' ops.
Proof.
  revert s ops. induction p as [b|o next IH]; intros s ops; simpl.
  - intros [= <- <- <-]. constructor.
  - destruct (possible s o (outside o)) eqn:Hpossible; [|done].
    destruct (next_status s o (outside o)) as [s1|] eqn:Hnext; [|done]. simpl.
    destruct (follow outside (next (outside o)) s1) as [[[b s2] rest]|] eqn:Hrest; [|done]. simpl.
    intros [= <- <- <-]. econstructor; [done..|]. by apply IH.
Qed.

(** A part that keeps the status of an open store, or any status. *)
Definition keeps {A} (p : prog A) (s : status) : Prop := safe p s (λ _ s', s' = s).

Lemma keeps_perform o s : (∀ b, possible s o b = true → next_status s o b = Some s) → keeps (perform o) s.
Proof. intros Ho b Hb. by rewrite Ho. Qed.

(** A part that keeps the status passes its cases one by one. *)
Ltac keep :=
  lazymatch goal with
  | |- ∀ _, _ => intro; keep
  | |- keeps _ _ => unfold keeps; keep
  | |- safe (ret _) _ _ => reflexivity
  | |- safe (ok _) _ _ => reflexivity
  | |- safe (for_each _ _) _ _ => apply safe_for_each; intro; keep
  | |- safe (collect _ _) _ _ => apply safe_collect; intro; keep
  | |- safe (bind _ _) _ _ => apply safe_then; [keep|intro; keep]
  | |- safe (if ?b then _ else _) _ _ => destruct b; keep
  | |- safe (match ?x with _ => _ end) _ _ => destruct x; keep
  | |- safe (let x := _ in _) _ _ => intro; keep
  | |- safe (perform _) _ _ => intros ? _; reflexivity
  | |- safe ?p ?s _ => change (keeps p s); eauto with keeps
  end.

Create HintDb keeps discriminated.
#[export] Hint Constants Opaque : keeps.

(** Pass a part that keeps the status; perform an operation that does not. *)
Tactic Notation "pass" simple_intropattern(p) := apply safe_then; [keep|intros p].
Tactic Notation "take" simple_intropattern(p) :=
  apply safe_call; intros p _; eexists; split; [reflexivity|].
