(* ===== verification/ExecutorStore.v ===== *)
(** Operations of the executor on the store, with what they log
    (src/console/executor_store.cpp, executor_dumps.cpp). *)
From stdpp Require Import pretty.
From S2P Require Import Prelude Rpc Errors Localize Console.

(** The codes of the store that the executor handles. *)
Class ExecutorErrors := {
  flush_lock : code;
  schema_version : code;
}.

Class ExecutorErrorsLaws `{ExecutorErrors} : Prop := {
  flush_lock_error : is_error flush_lock = true;
}.

(** The configuration that the executor reads and that the store does not change. *)
Record executor_config := ExecutorConfig {
  config_file : string;
  database_path : string;
  log_path : string;
  is_milestone_configured : bool;
  accept : bool;
  use_gpu : bool;
  (** [node::settings::use_gpu_], and whether it batches. *)
  gpu_used : bool;
  batch_verify : bool;
  batch_silent : bool;
  (** Whether the process runs under a service manager. *)
  service : bool;
}.

(** The text of a number, and of a flag under [{:d}]. *)
Definition number (n : Z) : string := pretty n.
Definition flag (b : bool) : string := if b then "1" else "0".

Section Store.
Context `{StoreErrors} `{ExecutorErrors}.
Context (config : executor_config).

(** What the handlers of an operation's events log, if details are wanted. *)
Definition log_details (details : bool) (text : string) (events : table_events) : prog unit :=
  for_each events (λ '(event, table),
    if details then perform (logger (format text [event; table])) else ret tt).

Definition log (text : string) : prog unit := perform (logger text).

Definition check_store_path (create : bool) : prog bool :=
  log (if is_empty (config_file config) then BS_USING_DEFAULT_CONFIG
       else format BS_USING_CONFIG_FILE [config_file config]);;
  if create then
    log (format BS_INITIALIZING_CHAIN [database_path config]);;
    let* (ec, message) := perform (create_directory_ex (database_path config)) in
    if is_error ec then
      log (format BS_INITCHAIN_DIRECTORY_ERROR [database_path config; message]);;
      ok false
    else ok true
  else
    found <- perform (is_directory (database_path config));;
    if negb found then
      log (format BS_UNINITIALIZED_DATABASE [database_path config]);;
      ok false
    else ok true.

Definition close_store (details : bool) : prog bool :=
  log BS_DATABASE_STOPPING;;
  start <- perform now;;
  let* (ec, message, events) := perform store_close in
  log_details details BS_CLOSE events;;
  if is_error ec then
    log (format BS_DATABASE_STOP_FAIL [message]);;
    ok false
  else
    finish <- perform now;;
    log (format BS_DATABASE_TIMED_STOP [number (finish - start)]);;
    ok true.

Definition initialize_store (details : bool) : prog bool :=
  log BS_INITCHAIN_DATABASE_INITIALIZE;;
  initialized <- perform initialize;;
  if negb initialized then
    log BS_INITCHAIN_DATABASE_INITIALIZE_FAILURE;;
    close_store details;;
    ok false
  else ok true.

Definition create_store (details : bool) : prog bool :=
  log BS_INITCHAIN_CREATING;;
  start <- perform now;;
  let* (ec, message, events) := perform store_create in
  log_details details BS_CREATE events;;
  if is_error ec then
    log (format BS_INITCHAIN_DATABASE_CREATE_FAILURE [message]);;
    ok false
  else
    initialized <- initialize_store details;;
    if negb initialized then ok false
    else
      finish <- perform now;;
      log (format BS_INITCHAIN_CREATED [number (finish - start)]);;
      ok true.

(** The configuration takes the envelope's values; their names are logged. *)
Definition apply_envelope : prog unit :=
  applied <- perform apply_envelope_;;
  for_each applied (λ name, log (format BS_DATABASE_ENVELOPE_OVERRIDE [name])).

(** [compiled] is the text of the schema that the build compiles. *)
Definition open_store_coded (compiled : string) (details : bool) : prog code :=
  let* (ec, message, events) := perform store_open in
  log_details details BS_OPEN events;;
  if is_error ec then
    log (format BS_DATABASE_START_FAIL [message]);;
    (if code_eqb ec schema_version then
       let* (read, message, schema) := perform read_schema in
       if is_error read then log (format BS_DATABASE_SCHEMA_FAIL [message])
       else log (format BS_DATABASE_SCHEMA_MISMATCH [schema; compiled])
     else ret tt);;
    ret ec
  else
    apply_envelope;;
    log BS_DATABASE_STARTED;;
    ret (Error.make Error.success).

Definition open_store (compiled : string) (details : bool) : prog bool :=
  ec <- open_store_coded compiled details;;
  ok (negb (is_error ec)).

(** A snapshot or a reload through the node, which is resumed after it. *)
Definition node_operation (take : prog ((code * string) * table_events))
    (started invalid event failed complete : string) (details : bool) : prog bool :=
  available <- perform has_node;;
  if negb available then
    log BS_NODE_UNAVAILABLE;;
    ok false
  else
    let* (fault, message) := perform get_fault in
    if is_error fault then
      log (format invalid [message]);;
      ok false
    else
      log started;;
      start <- perform now;;
      let* (ec, message, events) := take in
      log_details details event events;;
      if is_error ec then
        log (format failed [message]);;
        ok false
      else
        perform node_resume;;
        finish <- perform now;;
        log (format complete [number (finish - start)]);;
        ok true.

Definition reload_store (details : bool) : prog bool :=
  node_operation (perform node_reload) BS_NODE_RELOAD_STARTED BS_RELOAD_INVALID
    BS_RELOAD BS_NODE_RELOAD_FAIL BS_NODE_RELOAD_COMPLETE details.

Definition hot_backup_store (details : bool) : prog bool :=
  node_operation (perform node_snapshot) BS_NODE_BACKUP_STARTED BS_SNAPSHOT_INVALID
    BS_BACKUP BS_NODE_BACKUP_FAIL BS_NODE_BACKUP_COMPLETE details.

Definition cold_backup_store (details : bool) : prog bool :=
  log BS_NODE_BACKUP_STARTED;;
  start <- perform now;;
  let* (ec, message, events) := perform store_snapshot in
  log_details details BS_BACKUP events;;
  if is_error ec then
    log (format BS_NODE_BACKUP_FAIL [message]);;
    ok false
  else
    finish <- perform now;;
    log (format BS_NODE_BACKUP_COMPLETE [number (finish - start)]);;
    ok true.

Definition restore_store (details : bool) : prog bool :=
  log BS_RESTORING_CHAIN;;
  start <- perform now;;
  let* (ec, message, events) := perform store_restore in
  log_details details BS_RESTORE events;;
  if is_error ec then
    log (if code_eqb ec flush_lock then BS_RESTORE_MISSING_FLUSH_LOCK
         else format BS_RESTORE_FAILURE [message]);;
    ok false
  else
    initialized <- perform is_initialized;;
    usable <- (if negb initialized then initialize_store details else ok true);;
    if negb usable then ok false
    else
      apply_envelope;;
      finish <- perform now;;
      log (format BS_RESTORE_COMPLETE [number (finish - start)]);;
      ok true.

(** ** Dumps *)

(** The sizes, records and buckets that are dumped, by the queries' names. *)
Definition body_sizes : list string :=
  ["header"; "txs"; "tx"; "input"; "output"; "ins"; "outs"; "ecdsa0"; "ecdsa1"; "schnorr0"; "schnorr1";
   "prevalid0"; "prevalid1"; "presilent0"; "presilent1"; "silent0"; "silent1"; "silent0_prefix";
   "silent1_prefix"; "prevout"; "duplicate"; "strong"; "scan"; "scan_prefix"; "pool"; "wtxid";
   "spends"; "filter_bk"; "filter_tx"].

Definition table_records : list string :=
  ["header"; "tx"; "ins"; "outs"; "ecdsa0"; "ecdsa1"; "schnorr0"; "schnorr1"; "prevalid0";
   "prevalid1"; "presilent0"; "presilent1"; "silent0"; "silent1"; "silent0_prefix"; "silent1_prefix";
   "duplicate"; "scan"; "scan_prefix"; "pool"; "wtxid"; "spends"; "filter_bk"].

Definition table_buckets : list string :=
  ["header"; "txs"; "tx"; "ins"; "outs"; "candidate"; "confirmed"; "prevout"; "duplicate"; "strong";
   "scan"; "state"; "pool"; "wtxid"; "filter_bk"; "filter_tx"].

(** The query of a table, such as [header_body_size]. *)
Definition dump_sizes (text suffix : string) (tables : list string) : prog unit :=
  sizes <- collect tables (λ table, perform (query_size (table ++ suffix)%string));;
  log (format text (number <$> sizes)).

Definition dump_body_sizes : prog unit := dump_sizes BS_INFORMATION_SIZES "_body_size" body_sizes.
Definition dump_records : prog unit := dump_sizes BS_INFORMATION_RECORDS "_records" table_records.
Definition dump_buckets : prog unit := dump_sizes BS_INFORMATION_BUCKETS "_buckets" table_buckets.

(** The load factor of a table is the text of records over buckets, or of zero. *)
Definition load_factor (ratio : Z → Z → string) (table : string) : prog string :=
  records <- perform (query_size (table ++ "_records")%string);;
  buckets <- perform (query_size (table ++ "_buckets")%string);;
  ret (if buckets =? 0 then "0" else ratio records buckets).

Definition dump_load_factors (ratio : Z → Z → string) : prog unit :=
  header <- load_factor ratio "header";;
  tx <- load_factor ratio "tx";;
  ins <- load_factor ratio "ins";;
  pool <- load_factor ratio "pool";;
  wtxid <- load_factor ratio "wtxid";;
  address_enabled <- perform (query_flag "address_enabled");;
  if (address_enabled : bool) then
    outs <- load_factor ratio "outs";;
    log (format BS_INFORMATION_LOAD_FACTORS_OUTS [header; tx; ins; outs; pool; wtxid])
  else log (format BS_INFORMATION_LOAD_FACTORS [header; tx; ins; pool; wtxid]).

Definition max_size : Z := 2 ^ 64 - 1.

(** The progress of the chain; subtraction of sizes wraps. *)
Definition dump_progress : prog unit :=
  let wire (size : Z) := if size =? max_size then BS_INFORMATION_INCOMPLETE else number size in
  fork <- perform (query_size "get_fork");;
  top_confirmed <- perform (query_size "get_top_confirmed");;
  confirmed_hash <- perform (query_text "get_top_confirmed_hash");;
  top_candidate <- perform (query_size "get_top_candidate");;
  candidate_hash <- perform (query_text "get_top_candidate_hash");;
  associated <- perform (query_size "get_top_associated");;
  candidate <- perform (query_size "get_top_candidate");;
  unassociated <- perform (query_size "get_unassociated_count");;
  confirmed_size <- perform (query_size "get_confirmed_size");;
  candidate_size <- perform (query_size "get_candidate_size");;
  log (format BS_INFORMATION_PROGRESS
    [number fork; number top_confirmed; confirmed_hash; number top_candidate; candidate_hash;
     number associated; number ((candidate - unassociated) mod 2 ^ 64); wire confirmed_size;
     wire candidate_size]).

Definition dump_configuration : prog unit :=
  dirty <- perform is_dirty;;
  interval <- perform (query_size "interval_span");;
  log (format BS_INFORMATION_START [flag dirty; number interval]).

(** [versions] are the lines of the libraries and of the compiled schema. *)
Definition dump_version (versions : list string) (stored : bool) : prog unit :=
  log BS_VERSION_HEADER;;
  for_each versions log;;
  if stored then
    schema <- perform (query_text "envelope.schema");;
    log (format "database schema...... {}" [schema])
  else ret tt.

Definition dump_schema : prog unit :=
  found <- perform (is_directory (database_path config));;
  if negb found then ret tt
  else
    let* (ec, message, schema) := perform read_schema in
    if is_error ec then log (format BS_DATABASE_SCHEMA_FAIL [message])
    else log (format "database schema...... {}" [schema]).

(** Whether the machine has a feature, and whether it is compiled. *)
Definition log_feature (text label supported compiled : string) : prog unit :=
  has <- perform (platform supported);;
  built <- perform (platform compiled);;
  log (format (label ++ text) [flag has; flag built]).

Definition x64_features : list (string * string * string) :=
  [("aesni....... ", "try_aesni", "have_aesni"); ("vaes........ ", "try_vaes", "have_vaes");
   ("shani....... ", "try_shani", "have_shani"); ("sha512...... ", "try_sha512", "have_sha512");
   ("sse41....... ", "try_sse41", "have_sse41"); ("avx2........ ", "try_avx2", "have_avx2");
   ("avx512...... ", "try_avx512", "have_avx512"); ("avxifma..... ", "try_avxifma", "have_avxifma");
   ("avx512ifma.. ", "try_avx512ifma", "have_avx512ifma")].

(** The branch of x64. *)
Definition dump_hardware : prog unit :=
  log BS_HARDWARE_HEADER_X64;;
  for_each x64_features (λ '(label, supported, compiled),
    log_feature BS_HARDWARE_COMPILED label supported compiled);;
  cuda <- perform (platform "cuda_device");;
  compiled <- perform (platform "batched::compiled");;
  accelerated <- (if (cuda : bool) && (compiled : bool) && use_gpu config
                  then perform (platform "batched::accelerated") else ok true);;
  if negb accelerated
  then log (format ("cuda........ " ++ BS_HARDWARE_INCOMPATIBLE) [flag cuda; flag compiled])
  else
    log (format ("cuda........ " ++ BS_HARDWARE_COMPILED) [flag cuda; flag compiled]);;
    log_feature BS_HARDWARE_ENABLED "cuda ecc.... " "cuda_ecc" "cuda_ecc_enabled".

End Store.

(** ** What the operations do to the store *)

Section Safety.
Context `{StoreErrors} `{ExecutorErrors} (config : executor_config).

Lemma log_keeps text s : keeps (log text) s.
Proof. unfold log. keep. Qed.

Hint Resolve log_keeps : keeps.

Lemma log_details_keeps details text events s : keeps (log_details details text events) s.
Proof. unfold log_details. keep. Qed.

Lemma check_store_path_keeps create s : keeps (check_store_path config create) s.
Proof. unfold check_store_path. keep. Qed.

Lemma dump_keeps text suffix tables node : keeps (dump_sizes text suffix tables) (Status store_opened node).
Proof. unfold dump_sizes. keep. Qed.

Lemma dump_body_sizes_keeps node : keeps dump_body_sizes (Status store_opened node).
Proof. apply dump_keeps. Qed.

Lemma dump_records_keeps node : keeps dump_records (Status store_opened node).
Proof. apply dump_keeps. Qed.

Lemma dump_buckets_keeps node : keeps dump_buckets (Status store_opened node).
Proof. apply dump_keeps. Qed.

Lemma load_factor_keeps ratio table node : keeps (load_factor ratio table) (Status store_opened node).
Proof. unfold load_factor. keep. Qed.

Hint Resolve log_details_keeps check_store_path_keeps dump_keeps load_factor_keeps : keeps.

Lemma dump_load_factors_keeps ratio node : keeps (dump_load_factors ratio) (Status store_opened node).
Proof. unfold dump_load_factors. keep. Qed.

Lemma dump_progress_keeps node : keeps dump_progress (Status store_opened node).
Proof. unfold dump_progress. keep. Qed.

Lemma dump_configuration_keeps node : keeps dump_configuration (Status store_opened node).
Proof. unfold dump_configuration. keep. Qed.

(** The version of the stored schema is read of an open store only. *)
Lemma dump_version_keeps versions stored s :
  (stored = true → store_is s = store_opened) → keeps (dump_version versions stored) s.
Proof.
  intros Hs. destruct s as [[] node], stored; try discriminate (Hs eq_refl);
    unfold dump_version; keep.
Qed.

Lemma dump_schema_keeps s : keeps (dump_schema config) s.
Proof. unfold dump_schema. keep. Qed.

Lemma log_feature_keeps text label supported compiled s : keeps (log_feature text label supported compiled) s.
Proof. unfold log_feature. keep. Qed.

Hint Resolve log_feature_keeps : keeps.

Lemma dump_hardware_keeps s : keeps (dump_hardware config) s.
Proof. unfold dump_hardware. keep. Qed.

Lemma apply_envelope_keeps node : keeps apply_envelope (Status store_opened node).
Proof. unfold apply_envelope. keep. Qed.

(** A close of an open store that no node uses: closed, or not if it fails. *)
Lemma close_store_safe details node :
  node = node_absent ∨ node = node_closed →
  safe (close_store details) (Status store_opened node)
    (λ closed s, s = Status (if closed then store_closed else store_unclosed) node).
Proof.
  intros Hnode. unfold close_store. pass _.
  pass start. apply safe_bind. intros [[ec message] events] _.
  assert (next_status (Status store_opened node) store_close (ec, message, events) =
    Some (Status (if is_error ec then store_unclosed else store_closed) node)) as ->
    by (by destruct Hnode as [-> | ->]).
  pass _.
  destruct (is_error ec); apply safe_then; [keep|done|keep|intros finish]. by apply safe_then; [keep|].
Qed.

(** What opens the store leaves it open if it succeeds, and otherwise not. *)
Definition opens (succeeded : bool) (s : status) : Prop :=
  if succeeded then s = Status store_opened node_absent
  else s = Status store_closed node_absent ∨ s = Status store_unclosed node_absent.

Lemma initialize_store_safe details :
  safe (initialize_store details) (Status store_opened node_absent) opens.
Proof.
  unfold initialize_store. pass _. take initialized.
  destruct initialized; cbn [negb]; [done|]. pass _. apply safe_bind.
  eapply safe_mono; [|apply close_store_safe; by left]. intros [] s ->; simpl; auto.
Qed.

Lemma create_store_safe details : safe (create_store details) at_rest opens.
Proof.
  unfold create_store. pass _. pass start.
  take [[ec message] events]. cbn [fst]. pass _.
  destruct (is_error ec); [apply safe_then; [keep|intros _; by left]|].
  apply safe_bind. eapply safe_mono; [|apply initialize_store_safe].
  intros [] s Hs; cbn [negb]; [|exact Hs]. cbn in Hs. rewrite Hs. pass finish.
  by apply safe_then; [keep|].
Qed.

Hint Resolve apply_envelope_keeps : keeps.

Lemma open_store_coded_safe compiled details :
  safe (open_store_coded compiled details) at_rest
    (λ ec s, s = if is_error ec then at_rest else Status store_opened node_absent).
Proof.
  unfold open_store_coded. take [[ec message] events]. cbn [fst].
  pass _. destruct (is_error ec) eqn:Hec.
  - pass _. pass _. cbn [safe]. by rewrite Hec.
  - apply safe_then; [apply apply_envelope_keeps|intros _]. by apply safe_then; [keep|].
Qed.

Lemma open_store_safe compiled details : safe (open_store compiled details) at_rest opens.
Proof.
  unfold open_store. apply safe_bind. eapply safe_mono; [|apply open_store_coded_safe].
  intros ec s ->. destruct (is_error ec); [by left|done].
Qed.

Lemma restore_store_safe details : safe (restore_store details) at_rest opens.
Proof.
  unfold restore_store. pass _. pass start.
  take [[ec message] events]. cbn [fst]. pass _.
  destruct (is_error ec); [apply safe_then; [keep|intros _; by left]|].
  pass initialized. apply safe_bind.
  eapply (safe_mono _ _ opens).
  - intros [] s Hs; cbn [negb]; [|exact Hs]. cbn in Hs. rewrite Hs. apply safe_then; [apply apply_envelope_keeps|intros _].
    pass finish. by apply safe_then; [keep|].
  - destruct initialized; [done|apply initialize_store_safe].
Qed.

(** Snapshots and reloads of a running node keep the store open. *)
Lemma node_operation_keeps take started invalid event failed complete details :
  (∀ node, node ≠ node_absent → keeps take (Status store_opened node)) →
  ∀ node, keeps (node_operation take started invalid event failed complete details)
    (Status store_opened node).
Proof.
  intros Htake node. unfold node_operation, keeps. apply safe_call. intros available Ha.
  eexists. split; [reflexivity|]. cbn in Ha.
  destruct available, node; try discriminate; cbn [negb]; [..|keep]; pass [fault message];
    (destruct (is_error fault); [keep|]); pass _; pass start;
    (apply safe_then; [by apply Htake|intros [[ec text] events]]); keep.
Qed.

Lemma reload_store_keeps details node : keeps (reload_store details) (Status store_opened node).
Proof. apply node_operation_keeps. intros [] Hnode; [done|keep..]. Qed.

Lemma hot_backup_store_keeps details node : keeps (hot_backup_store details) (Status store_opened node).
Proof. apply node_operation_keeps. intros [] Hnode; [done|keep..]. Qed.

Lemma cold_backup_store_keeps details node : keeps (cold_backup_store details) (Status store_opened node).
Proof. unfold cold_backup_store. keep. Qed.

End Safety.

#[export] Hint Resolve log_keeps log_details_keeps check_store_path_keeps dump_keeps
  dump_body_sizes_keeps dump_records_keeps dump_buckets_keeps load_factor_keeps
  dump_load_factors_keeps dump_progress_keeps dump_configuration_keeps dump_schema_keeps
  log_feature_keeps dump_hardware_keeps apply_envelope_keeps reload_store_keeps hot_backup_store_keeps
  cold_backup_store_keeps : keeps.
