(* ===== verification/Daemon.v ===== *)
(** The installation of the server as a service of the operating system
    (src/console/executor_daemon.cpp), as it is on linux. *)
From S2P Require Import Prelude Rpc Errors Localize Console ExecutorStore.

(** [executor::name_], [parser::config_variable]. *)
Definition name_ : string := "bs".
Definition config_variable : string := "config".

Definition unit_path (name : string) : string := "/etc/systemd/system/" ++ name ++ ".service".
Definition enabled_path (name : string) : string :=
  "/etc/systemd/system/multi-user.target.wants/" ++ name ++ ".service".

(** [parent_path] of the two. *)
Definition unit_directory : string := "/etc/systemd/system".
Definition enabled_directory : string := "/etc/systemd/system/multi-user.target.wants".

Definition stop_timeout_seconds : Z := 600.

Definition unit_text (command account : string) : string :=
  let user := if is_empty account then [] else [("User=" ++ account)%string] in
  unlines
    (["[Unit]"; ("Description=" ++ BS_SERVICE_DESCRIPTION)%string; "After=network-online.target";
      "Wants=network-online.target"; ""; "[Service]"; "Type=notify"; ("ExecStart=" ++ command)%string] ++
     user ++
     [("TimeoutStopSec=" ++ number stop_timeout_seconds)%string; ""; "[Install]";
      "WantedBy=multi-user.target"; ""])%list.

Definition quote : string := String "034" "".

(** [qualified] is [system::qualified_path]. *)
Definition command_line (qualified : string → string) (config : string) : prog string :=
  module <- perform module_path;;
  ret (if is_empty module then ""
       else if is_empty config then quote ++ module ++ quote
       else quote ++ module ++ quote ++ " --" ++ config_variable ++ " " ++
              quote ++ qualified config ++ quote).

(** The codes that are reported, as errno values. *)
Definition ENOENT : Z := 2.
Definition EIO : Z := 5.
Definition EACCES : Z := 13.
Definition EEXIST : Z := 17.
Definition EINVAL : Z := 22.
Definition daemon_success : Z := 0.

Definition create_service (qualified : string → string) (config account : string) : prog Z :=
  command <- command_line qualified config;;
  if is_empty command then ret EINVAL
  else
    let unit := unit_path name_ in
    exists_ <- perform (path_exists unit);;
    if (exists_ : bool) then ret EEXIST
    else
      managed <- perform (is_directory unit_directory);;
      if negb managed then ret ENOENT
      else
        good <- perform (open_file unit);;
        if negb good then ret EACCES
        else
          good <- perform (write_file unit (unit_text command account));;
          if negb good then ret EIO
          else
            failed <- perform (create_directories enabled_directory);;
            if (failed : bool) then ret EACCES
            else
              failed <- perform (create_symlink unit (enabled_path name_));;
              ret (if (failed : bool) then EACCES else daemon_success).

Definition delete_service : prog Z :=
  let unit := unit_path name_ in
  exists_ <- perform (path_exists unit);;
  if negb exists_ then ret ENOENT
  else
    perform (remove_file (enabled_path name_));;
    removed <- perform (remove_file unit);;
    ret (if (removed : bool) then daemon_success else EACCES).

(** The credential of [--user]: a name, and the methods that it may not have. *)
Record credential := Credential {
  username : string;
  methods : list string;
}.

Definition do_daemon (qualified : string → string) (config : executor_config)
    (user : option credential) (install : bool) : prog bool :=
  perform log_stop;;
  if match user with Some u => negb (bool_decide (methods u = [])) | None => false end then
    log BS_DAEMON_INVALID_USER;;
    ok false
  else
    let account := match user with Some u => username u | None => "" end in
    result <- (if install then create_service qualified (config_file config) account
               else delete_service);;
    let report (text : string) := log text;; ok false in
    if result =? daemon_success then
      log (if install then BS_DAEMON_INSTALLED else BS_DAEMON_UNINSTALLED);;
      ok true
    else if result =? EACCES then report BS_DAEMON_ELEVATION
    else if result =? EEXIST then report BS_DAEMON_EXISTS
    else if result =? ENOENT then report BS_DAEMON_ABSENT
    else report (format (if install then BS_DAEMON_INSTALL_FAILURE else BS_DAEMON_UNINSTALL_FAILURE)
                   [number result]).

(** ** A file system *)

(** Entries by path, whether an account may write below the manager's directories, and
    whether links may be made there. *)
Inductive entry :=
  | entry_file (text : string)
  | entry_link (target : string)
  | entry_directory.

Record machine := Machine {
  entries : gmap string entry;
  elevated : bool;
  enabling : bool;
  module : string;
  lines_logged : list string;
}.

Definition with_entries (entries' : gmap string entry) (m : machine) : machine :=
  Machine entries' (elevated m) (enabling m) (module m) (lines_logged m).

(** [exists] follows links. *)
Definition path_found (m : machine) (path : string) : bool :=
  match entries m !! path with
  | Some (entry_link target) => bool_decide (is_Some (entries m !! target))
  | Some _ => true
  | None => false
  end.

(** How a machine answers the operations that the service commands use. Links are made
    where there is no entry; any other answer is arbitrary. *)
Definition respond (other : ∀ o, answer o) (o : op) (m : machine) : answer o * machine :=
  match o return answer o * machine with
  | logger text =>
      (tt, Machine (entries m) (elevated m) (enabling m) (module m) (lines_logged m ++ [text])%list)
  | module_path => (module m, m)
  | path_exists path => (path_found m path, m)
  | is_directory path =>
      (match entries m !! path with Some entry_directory => true | _ => false end, m)
  | open_file path =>
      if elevated m then (true, with_entries (<[path := entry_file ""]> (entries m)) m) else (false, m)
  | write_file path text => (true, with_entries (<[path := entry_file text]> (entries m)) m)
  | create_directories path =>
      if enabling m then
        (false, match entries m !! path with
                | Some _ => m
                | None => with_entries (<[path := entry_directory]> (entries m)) m
                end)
      else (true, m)
  | create_symlink target path =>
      match entries m !! path with
      | Some _ => (true, m)
      | None => (false, with_entries (<[path := entry_link target]> (entries m)) m)
      end
  | remove_file path =>
      match entries m !! path with
      | Some _ => if elevated m then (true, with_entries (delete path (entries m)) m) else (false, m)
      | None => (false, m)
      end
  | o => (other o, m)
  end.

Section Services.
Context (other : ∀ o, answer o) (qualified : string → string).

Local Abbreviation run := (run_in (respond other)).

Lemma run_perform {A} o (k : answer o → prog A) m :
  run (bind (perform o) k) m = let '(b, m) := respond other o m in run (k b) m.
Proof. done. Qed.

(** The command line does not change the machine. *)
Definition command_of (config : string) (m : machine) : string :=
  if is_empty (module m) then ""
  else if is_empty config then (quote ++ module m ++ quote)%string
  else (quote ++ module m ++ quote ++ " --" ++ config_variable ++ " " ++
          quote ++ qualified config ++ quote)%string.

Lemma run_command config m : run (command_line qualified config) m = (command_of config m, m).
Proof. done. Qed.

Lemma command_found config m : module m ≠ "" → is_empty (command_of config m) = false.
Proof.
  intros Hmodule. unfold command_of. destruct (module m) as [|c rest]; [done|]. simpl.
  by destruct (is_empty config).
Qed.

(** The entries with the unit, and with the unit enabled. *)
Definition with_unit (config account : string) (m : machine) : gmap string entry :=
  <[unit_path name_ := entry_file (unit_text (command_of config m) account)]> (entries m).

Definition with_wants (found : gmap string entry) : gmap string entry :=
  match found !! enabled_directory with
  | Some _ => found
  | None => <[enabled_directory := entry_directory]> found
  end.

Definition installed (config account : string) (m : machine) : gmap string entry :=
  <[enabled_path name_ := entry_link (unit_path name_)]> (with_wants (with_unit config account m)).

(** A machine whose service manager can be written to, without the service. *)
Definition manageable (m : machine) : Prop :=
  module m ≠ "" ∧ elevated m = true ∧ entries m !! unit_directory = Some entry_directory ∧
  entries m !! unit_path name_ = None ∧ entries m !! enabled_path name_ = None.

Lemma create_service_run config account m :
  manageable m →
  run (create_service qualified config account) m =
    if enabling m then (daemon_success, with_entries (installed config account m) m)
    else (EACCES, with_entries (with_unit config account m) m).
Proof.
  intros (Hmodule & Helevated & Hunits & Hunit & Henabled).
  unfold create_service. rewrite run_in_bind, run_command, (command_found config m Hmodule).
  rewrite run_perform. cbn [respond]. unfold path_found. rewrite Hunit.
  rewrite run_perform. cbn [respond negb]. rewrite Hunits. cbn [negb].
  rewrite run_perform. cbn [respond]. rewrite Helevated. cbn [negb].
  rewrite run_perform. cbn [respond negb].
  rewrite run_perform. cbn [respond enabling with_entries entries].
  rewrite insert_insert_eq. fold (with_unit config account m). destruct (enabling m); [|done].
  rewrite run_perform. cbn [respond entries with_entries]. unfold installed, with_wants.
  assert (with_unit config account m !! enabled_path name_ = None) as Hlink.
  { unfold with_unit. by rewrite lookup_insert_ne. }
  destruct (with_unit config account m !! enabled_directory); cbn [entries with_entries].
  - by rewrite Hlink.
  - rewrite lookup_insert_ne by done. by rewrite Hlink.
Qed.

Lemma delete_service_run m text :
  entries m !! unit_path name_ = Some (entry_file text) → elevated m = true →
  run delete_service m = (daemon_success,
    with_entries (delete (unit_path name_) (delete (enabled_path name_) (entries m))) m).
Proof.
  intros Hunit Helevated. unfold delete_service.
  rewrite run_perform. cbn [respond]. unfold path_found. rewrite Hunit. cbn [negb].
  rewrite run_perform. cbn [respond]. destruct (entries m !! enabled_path name_) as [e|] eqn:Hlink.
  - rewrite Helevated, run_perform. cbn [respond entries with_entries elevated].
    rewrite lookup_delete_ne, Hunit by done. by rewrite Helevated.
  - rewrite run_perform. cbn [respond]. rewrite Hunit, Helevated.
    by rewrite (delete_id (entries m) (enabled_path name_)).
Qed.

Definition logging (text : string) (m : machine) : machine :=
  Machine (entries m) (elevated m) (enabling m) (module m) (lines_logged m ++ [text])%list.

Definition permitted_user (user : option credential) : Prop :=
  match user with Some u => methods u = [] | None => True end.

Definition account_of (user : option credential) : string :=
  match user with Some u => username u | None => "" end.

(** The report of a code. *)
Definition reported (install : bool) (result : Z) : string :=
  if result =? daemon_success then if install then BS_DAEMON_INSTALLED else BS_DAEMON_UNINSTALLED
  else if result =? EACCES then BS_DAEMON_ELEVATION
  else if result =? EEXIST then BS_DAEMON_EXISTS
  else if result =? ENOENT then BS_DAEMON_ABSENT
  else format (if install then BS_DAEMON_INSTALL_FAILURE else BS_DAEMON_UNINSTALL_FAILURE) [number result].

Lemma do_daemon_run config user install m :
  permitted_user user →
  run (do_daemon qualified config user install) m =
    let '(result, m') := run (if install then create_service qualified (config_file config) (account_of user)
                              else delete_service) m in
    (result =? daemon_success, logging (reported install result) m').
Proof.
  intros Huser. unfold do_daemon. rewrite run_perform. cbn [respond].
  assert (match user with Some u => negb (bool_decide (methods u = [])) | None => false end = false) as ->.
  { destruct user as [u|]; [|done]. simpl in Huser. by rewrite bool_decide_true. }
  rewrite run_in_bind. fold (account_of user).
  destruct (run _ m) as [result m']. unfold reported.
  by repeat case_match.
Qed.

Lemma installed_unit config account m :
  installed config account m !! unit_path name_ =
    Some (entry_file (unit_text (command_of config m) account)).
Proof.
  unfold installed, with_wants, with_unit. rewrite lookup_insert_ne by done.
  case_match; [|rewrite lookup_insert_ne by done]; by rewrite lookup_insert_eq.
Qed.

Lemma installed_removed config account m :
  manageable m →
  delete (unit_path name_) (delete (enabled_path name_) (installed config account m)) =
    with_wants (entries m).
Proof.
  intros (_ & _ & _ & Hunit & Henabled). unfold installed. rewrite delete_insert_id.
  - unfold with_wants, with_unit. rewrite lookup_insert_ne by done.
    destruct (entries m !! enabled_directory); [by rewrite delete_insert_id|].
    rewrite delete_insert_ne by done. by rewrite delete_insert_id.
  - unfold with_wants, with_unit. rewrite lookup_insert_ne by done.
    case_match; rewrite ?lookup_insert_ne by done; done.
Qed.

(** A second installation finds the unit, and changes nothing. *)
Lemma create_service_exists config account m text :
  module m ≠ "" → entries m !! unit_path name_ = Some (entry_file text) →
  run (create_service qualified config account) m = (EEXIST, m).
Proof.
  intros Hmodule Hunit. unfold create_service.
  rewrite run_in_bind, run_command, (command_found config m Hmodule), run_perform. cbn [respond].
  unfold path_found. by rewrite Hunit.
Qed.

End Services.

(** C39: Installing the server as a service, on a machine where the service manager is
    installed and can be written to, and which does not have the service. If the unit
    can be enabled the installation succeeds, and leaves the unit, whose command starts
    the module with the configuration, and the link that enables it; a second
    installation changes nothing and says that it is installed; and removing the
    service restores the machine, but for the directory of links. If the unit cannot be
    enabled the installation fails, but the unit stays: an installation by an account
    that could enable it is then refused, as the service is installed. *)
Theorem service_round_trip other qualified config user m :
  manageable m → permitted_user user →
  let run {A} (p : prog A) (m : machine) := run_in (respond other) p m in
  let '(result, m') := run (do_daemon qualified config user true) m in
  let text := unit_text (command_of qualified (config_file config) m) (account_of user) in
  result = enabling m ∧ entries m' !! unit_path name_ = Some (entry_file text) ∧
  (enabling m = true →
    entries m' !! enabled_path name_ = Some (entry_link (unit_path name_)) ∧
    run (do_daemon qualified config user false) m' =
      (true, logging BS_DAEMON_UNINSTALLED (with_entries (with_wants (entries m)) m'))) ∧
  (enabling m = false → entries m' !! enabled_path name_ = None) ∧
  ∀ granted config' user', permitted_user user' →
    let m' := Machine (entries m') true granted (module m) (lines_logged m') in
    run (do_daemon qualified config' user' true) m' = (false, logging BS_DAEMON_EXISTS m').
Proof.
  intros Hm Huser run. pose proof Hm as (Hmodule & Helevated & _ & _ & Hlink).
  unfold run. rewrite do_daemon_run, create_service_run by done.
  destruct (enabling m) eqn:Henabling; cbn [entries logging with_entries lines_logged].
  - split_and!; [done|by rewrite installed_unit| |done|].
    + intros _. split; [by unfold installed; rewrite lookup_insert_eq|].
      rewrite do_daemon_run by done. erewrite delete_service_run; [|apply installed_unit|done].
      unfold logging, with_entries. cbn [entries elevated enabling module lines_logged].
      by rewrite installed_removed.
    + intros granted config' user' Huser'. rewrite do_daemon_run by done.
      by erewrite create_service_exists; [|done|apply installed_unit].
  - split_and!; [done|by unfold with_unit; rewrite lookup_insert_eq|done| |].
    + intros _. unfold with_unit. by rewrite lookup_insert_ne.
    + intros granted config' user' Huser'. rewrite do_daemon_run by done.
      by erewrite create_service_exists; [|done|unfold with_unit; apply lookup_insert_eq].
Qed.

(** ** Examples *)

Definition example_other (o : op) : answer o :=
  match o return answer o with
  | create_sinks | canceled | interactive | get_toggle _ | get_result | is_directory _ | platform _
  | solid_state _ | internal_storage _ | is_dirty | initialize | is_initialized | is_full | is_fault
  | query_flag _ | has_node | path_exists _ | open_file _ | write_file _ _ | create_directories _
  | create_symlink _ _ | remove_file _ | limited_blocks_setting | bucket_terminal _ _ => true
  | now | physical_memory | get_space | store_size | query_size _ => 0
  | get_signal => 0
  | row_key _ _ => array_key ""
  | milestone_setting => ("", 0)
  | space _ | candidate_context _ => None
  | query_text _ | module_path | candidate_key _ => ""
  | create_directory_ex _ | get_fault => (Error.make Error.success, "")
  | read_schema => (Error.make Error.success, "", "")
  | store_create | store_open | store_restore | store_close | store_snapshot | node_snapshot
  | node_reload => (Error.make Error.success, "", [])
  | apply_envelope_ | report => []
  | _ => tt
  end.

Definition example_config : executor_config :=
  ExecutorConfig "/etc/bs.cfg" "/var/lib/bs" "" false true false false false false false.

Definition example_machine (enabling : bool) : machine :=
  Machine {[ unit_directory := entry_directory ]} true enabling "/usr/bin/bs" [].

Lemma service_round_trip_witness :
  (run_in (respond example_other) (do_daemon (λ path, path) example_config None true)
     (example_machine false)).1 = false.
Proof.
  refine (proj1 (service_round_trip example_other (λ path, path) example_config None
    (example_machine false) _ I)).
  split_and!; done.
Defined.

Example installed_unit_text :
  entries (run_in (respond example_other) (do_daemon (λ path, path) example_config
    (Some (Credential "bitcoin" [])) true) (example_machine true)).2 !! unit_path name_ =
  Some (entry_file (unlines
    ["[Unit]"; "Description=Full node bitcoin server."; "After=network-online.target";
     "Wants=network-online.target"; ""; "[Service]"; "Type=notify";
     ("ExecStart=" ++ quote ++ "/usr/bin/bs" ++ quote ++ " --config " ++ quote ++ "/etc/bs.cfg" ++ quote)%string;
     "User=bitcoin"; "TimeoutStopSec=600"; ""; "[Install]"; "WantedBy=multi-user.target"; ""])).
Proof. vm_compute. reflexivity. Qed.
