(* ===== verification/ExecutorPrompts.v ===== *)
(** The warnings and the prompts of a start of the node
    (src/console/executor_warnings.cpp, [prompt_milestone_store] of executor_store.cpp). *)
From S2P Require Import Prelude Rpc Errors Localize Console ExecutorStore.

Section Prompts.
Context (config : executor_config).

(** [system::trim]. *)
Context (trim : string → string).

Definition giga : Z := 2 ^ 30.
Definition minimum_memory : Z := 8 * giga.
Definition validate_memory : Z := 16 * giga.
Definition recommend_memory : Z := 32 * giga.
Definition require_space : Z := 1024 * giga.
Definition limited_space : Z := 512 * giga.
Definition bypass_height : Z := 950000.

Definition warn (condition : bool) (texts : list string) : list string :=
  if condition then texts else [].

(** The branch of x64. *)
Definition warn_hardware : prog (list string) :=
  shani <- perform (platform "try_shani");;
  have_shani <- perform (platform "have_shani");;
  avx2 <- perform (platform "try_avx2");;
  have_avx2 <- perform (platform "have_avx2");;
  device <- perform (platform "cuda_device");;
  compiled <- perform (platform "batched::compiled");;
  accelerated <- perform (platform "batched::accelerated");;
  ret (warn ((shani : bool) && negb have_shani) [BS_HARDWARE_SHA_UNCOMPILED] ++
       warn ((avx2 : bool) && negb have_avx2) [BS_HARDWARE_AVX2_UNCOMPILED] ++
       warn ((device : bool) && negb compiled) [BS_HARDWARE_GPU_UNCOMPILED] ++
       warn ((device : bool) && use_gpu config && (compiled : bool) && negb accelerated)
         [BS_HARDWARE_UNSUPPORTED] ++
       warn (gpu_used config && negb (batch_verify config) && negb (batch_silent config))
         [BS_HARDWARE_UNCONFIGURED])%list.

(** The warning of a machine's memory, with its size; a milestone lowers the need. *)
Definition memory_warnings (memory height : Z) : list string :=
  let level :=
    if memory =? 0 then None
    else if memory <? minimum_memory then Some BS_MEMORY_BELOW_MINIMUM
    else if (height =? 0) && (memory <? validate_memory) then Some BS_MEMORY_BELOW_VALIDATION
    else if memory <? recommend_memory then Some BS_MEMORY_BELOW_RECOMMENDED
    else None in
  match level with
  | Some text => [text; format BS_MEMORY_PHYSICAL [number (memory / giga)]]
  | None => []
  end.

Definition warn_memory : prog (list string) :=
  memory <- perform physical_memory;;
  let* (_, height) := perform milestone_setting in
  ret (memory_warnings memory height).

(** The warning of the space for a store of a size. *)
Definition space_warnings (available store height : Z) (limited_blocks : bool) : list string :=
  let limited := limited_blocks && (bypass_height <=? height) in
  let space := if limited then limited_space else require_space in
  let require := if store <? space then space - store else 0 in
  if require <=? available then []
  else [BS_SPACE_BELOW_REQUIRED; format BS_SPACE_AVAILABLE [number (available / giga)]].

Definition warn_space : prog (list string) :=
  available <- perform (space (database_path config));;
  match available with
  | None => ret []
  | Some available =>
      limited <- perform limited_blocks_setting;;
      let* (_, height) := perform milestone_setting in
      store <- perform store_size;;
      ret (space_warnings available store height limited)
  end.

Definition warn_storage : prog (list string) :=
  solid <- perform (solid_state (database_path config));;
  internal <- (if (solid : bool) then perform (internal_storage (database_path config)) else ok false);;
  ret (warn (negb ((solid : bool) && internal)) [BS_STORAGE_NOT_INTERNAL]).

(** The loop over the lines that the input has before it ends: whether to go on, and the
    lines that remain. *)
Fixpoint prompt_lines (choices halted : list string) (lines : list string) :
    prog (bool * list string) :=
  match lines with
  | [] => ret (false, [])
  | line :: lines =>
      stopping <- perform canceled;;
      if (stopping : bool) then ret (false, lines)
      else
        let line := trim line in
        if is_empty line then ret (true, lines)
        else if line == "c" then
          for_each halted log;;
          ret (false, lines)
        else
          for_each choices log;;
          prompt_lines choices halted lines
  end.

Definition warning_choices : list string := [BS_WARNINGS_CHOICE1; BS_WARNINGS_CHOICE2].
Definition milestone_choices : list string := [BS_MILESTONE_CHOICE1; BS_MILESTONE_CHOICE2].
Definition milestone_halted : list string := [BS_MILESTONE_HALTED1; BS_MILESTONE_HALTED2].

Definition prompt_warnings (lines : list string) : prog (bool * list string) :=
  hardware <- warn_hardware;;
  memory <- warn_memory;;
  space <- warn_space;;
  storage <- warn_storage;;
  let warnings := (hardware ++ memory ++ space ++ storage)%list in
  if match warnings with [] => true | _ => false end then ret (true, lines)
  else
    log BS_PROMPT_SETOFF;;
    for_each warnings log;;
    answers <- perform interactive;;
    if negb answers || accept config then
      log BS_PROMPT_SETOFF;;
      ret (true, lines)
    else
      for_each warning_choices log;;
      log BS_PROMPT_SETOFF;;
      prompt_lines warning_choices [BS_WARNINGS_HALTED] lines.

Definition prompt_milestone_store (lines : list string) : prog (bool * list string) :=
  let* (milestone, height) := perform milestone_setting in
  if is_milestone_configured config || accept config then
    log (format BS_BITCOIN_MILESTONE [milestone]);;
    ret (true, lines)
  else
    unasked <- (if height =? 0 then ok true
                else
                  answers <- perform interactive;;
                  if negb answers then ok true else perform is_dirty);;
    if (unasked : bool) then ret (true, lines)
    else
      log BS_PROMPT_SETOFF;;
      log BS_MILESTONE_PROMPT1;;
      log BS_MILESTONE_PROMPT2;;
      log BS_MILESTONE_PROMPT3;;
      log (format BS_BITCOIN_MILESTONE [milestone]);;
      for_each milestone_choices log;;
      log BS_PROMPT_SETOFF;;
      prompt_lines milestone_choices milestone_halted lines.

End Prompts.

(** ** What the prompts accept *)

(** The answer of the lines to a prompt that nothing cancels: the first line that is
    empty or [c]. *)
Fixpoint accepted (trim : string → string) (lines : list string) : bool :=
  match lines with
  | [] => false
  | line :: lines =>
      if is_empty (trim line) then true
      else if trim line == "c" then false
      else accepted trim lines
  end.

Section PromptLaws.
Context (config : executor_config) (trim : string → string).

Lemma prompt_lines_keeps choices halted lines s : keeps (prompt_lines trim choices halted lines) s.
Proof.
  unfold keeps. induction lines as [|line lines IH]; cbn [prompt_lines]; [done|].
  take stopping. destruct stopping; [done|]. cbv zeta. destruct (is_empty (trim line)); [done|].
  destruct (trim line == "c"); [keep|]. by pass _.
Qed.

Hint Resolve prompt_lines_keeps : keeps.

Lemma warn_hardware_keeps s : keeps (warn_hardware config) s.
Proof. unfold warn_hardware. keep. Qed.

Lemma warn_memory_keeps s : keeps warn_memory s.
Proof. unfold warn_memory. keep. Qed.

Lemma warn_space_keeps node : keeps (warn_space config) (Status store_opened node).
Proof. unfold warn_space. keep. Qed.

Lemma warn_storage_keeps s : keeps (warn_storage config) s.
Proof. unfold warn_storage. keep. Qed.

Hint Resolve warn_hardware_keeps warn_memory_keeps warn_space_keeps warn_storage_keeps : keeps.

Lemma prompt_warnings_keeps lines node :
  keeps (prompt_warnings config trim lines) (Status store_opened node).
Proof. unfold prompt_warnings. keep. Qed.

Lemma prompt_milestone_store_keeps lines node :
  keeps (prompt_milestone_store config trim lines) (Status store_opened node).
Proof. unfold prompt_milestone_store. keep. Qed.

(** A prompt goes on exactly if its lines accept, and reads on after the accepted line. *)
Lemma prompt_accepts (outside : nat → ∀ o, answer o) n choices halted lines :
  (∀ i, outside i canceled = false) →
  (run_prog outside n (prompt_lines trim choices halted lines)).1.1 = accepted trim lines.
Proof.
  intros Hcanceled. revert n. induction lines as [|line lines IH]; intros n; simpl; [done|].
  rewrite Hcanceled. destruct (is_empty (trim line)); [done|]. destruct (trim line == "c").
  - destruct (run_prog outside (S n) _) as [[go rest] ops] eqn:E. simpl.
    pose proof (run_prog_bind_result outside (S n) (for_each halted log) (λ _, ret (false, lines))) as Hr.
    rewrite E in Hr. simpl in Hr. by injection Hr as -> _.
  - destruct (run_prog outside (S n) _) as [[go rest] ops] eqn:E. simpl.
    pose proof (run_prog_bind_result outside (S n) (for_each choices log)
      (λ _, prompt_lines trim choices halted lines)) as Hr.
    rewrite E in Hr. cbn in Hr. rewrite <-(IH (S n + length (run_prog outside (S n) (for_each choices log)).2)%nat).
    cbn. by rewrite <-Hr.
Qed.

End PromptLaws.

#[export] Hint Resolve warn_hardware_keeps prompt_warnings_keeps prompt_milestone_store_keeps : keeps.
