(* ===== verification/Scans.v ===== *)
(** The scans of the store (src/console/executor_scans.cpp): the flags of candidate blocks,
    the fill of the buckets of the hash tables, and the distribution of their rows. *)
From Stdlib Require Import Floats.
From stdpp Require Import pretty.
From S2P Require Import Prelude Rpc Errors Localize Console ExecutorStore.

(** ** Numbers *)

(** Commas between groups of three digits, from the end: the loop over positions. *)
Fixpoint group_digits (fuel at_ : nat) (text : string) : string :=
  match fuel with
  | O => text
  | S fuel =>
      if (3 <? at_)%nat then
        let place := (at_ - 3)%nat in
        group_digits fuel place
          (String.substring 0 place text ++ "," ++
           String.substring place (String.length text - place) text)
      else text
  end.

Definition to_grouped (value : Z) : string :=
  let text := number value in group_digits (String.length text) (String.length text) text.

(** ** Keys *)

(** The type of the keys of a table: an array of a size, points or search keys. *)
Inductive key_type := array_type (size : Z) | point_type | search_type.

Definition hash_size : Z := 32.

(** Link keys are narrower than hashes, other keys are hashed. *)
Definition is_linked (t : key_type) : bool :=
  match t with
  | array_type size => size <? hash_size
  | _ => false
  end.

Definition is_nullable (t : key_type) : bool :=
  match t with
  | array_type _ => false
  | point_type | search_type => true
  end.

(** What the scans use of the mathematics of C++ and of the tables of the database
    library: the type of the keys of a table, the bucket of a key of that many, and the
    filter of a bucket, which may be disabled. *)
Class ScanLibrary := {
  to_double : Z → PrimFloat.float;
  std_exp : PrimFloat.float → PrimFloat.float;
  std_floor : PrimFloat.float → PrimFloat.float;
  std_round : PrimFloat.float → Z;
  null_index : Z;
  null_hash : string;
  key_of : string → key_type;
  key_bucket : table_key → Z → Z;
  key_thumb : table_key → Z;
  filter_disabled : string → bool;
  filter_bits : string → Z;
  filter_k_max : string → Z;
  (** [unmask_right<filter>(m)], the filter of a bucket without rows. *)
  empty_filter : string → Z;
  filter_screen : string → Z → Z → Z → Z;
  filter_is_collision : string → Z → Z → bool;
  false_positive : string → Z → PrimFloat.float → PrimFloat.float;
  expected_walk : string → Z → PrimFloat.float → PrimFloat.float;
  optimal_k : string → Z → Z → Z;
}.

(** A bucket of a key is below the count. *)
Class ScanLibraryLaws `{ScanLibrary} : Prop := {
  key_bucket_range key count : 0 < count → 0 <= key_bucket key count < count;
}.

Section Scans.
Context `{ScanLibrary}.

(** [std::min(load, 1.0)]. *)
Definition at_most_one_float (load : PrimFloat.float) : PrimFloat.float :=
  if PrimFloat.ltb PrimFloat.one load then PrimFloat.one else load.

(** ** Flags *)

(** [binary(flag_bits, to_big_endian(flags)).encoded()], and the text of an integrity
    fault. *)
Context (encode_flags : Z → string) (integrity_message : string).

(** The loop over candidate heights, of which [count] are left: the height at which it
    ends, unless a context is missing. *)
Fixpoint scan_heights (count : nat) (height flags : Z) : prog (option Z) :=
  match count with
  | O => ret (Some height)
  | S count =>
      stopping <- perform canceled;;
      if (stopping : bool) then ret (Some height)
      else
        context <- perform (candidate_context height);;
        match context with
        | None => log (format BS_FLAGS_ERROR [integrity_message]);; ret None
        | Some (at_, next) =>
            if negb (at_ =? height) then log (format BS_FLAGS_ERROR [integrity_message]);; ret None
            else if next =? flags then scan_heights count (height + 1) flags
            else
              key <- perform (candidate_key height);;
              log (format BS_FLAGS_FORKED [encode_flags flags; encode_flags next; key; number height]);;
              scan_heights count (height + 1) next
        end
  end.

Definition scan_flags : prog unit :=
  start <- perform now;;
  top <- perform (query_size "get_top_candidate");;
  log BS_OPERATION_INTERRUPT;;
  scanned <- scan_heights (Z.to_nat (top + 1)) 0 0;;
  match scanned with
  | None => ret tt
  | Some height =>
      stopping <- perform canceled;;
      (if (stopping : bool) then log BS_OPERATION_CANCELED else ret tt);;
      finish <- perform now;;
      log (format BS_FLAGS_SCANNED [number height; number (finish - start)])
  end.

(** ** Buckets *)

(** The loop over the buckets of a head, of which [count] are left: those scanned, and
    those of them that are filled. *)
Fixpoint fill_buckets (table : string) (count : nat) (bucket filled : Z) : prog (Z * Z) :=
  match count with
  | O => ret (bucket, filled)
  | S count =>
      stopping <- perform canceled;;
      if (stopping : bool) then ret (bucket, filled)
      else
        terminal <- perform (bucket_terminal table bucket);;
        fill_buckets table count (bucket + 1) (if (terminal : bool) then filled else filled + 1)
  end.

(** The text of the row is BS_BUCKETS_ROW. *)
Definition scan_table (name : string) (records : Z) : prog unit :=
  buckets <- perform (query_size (name ++ ".buckets")%string);;
  stopping <- (if buckets =? 0 then ok true else perform canceled);;
  if (stopping : bool) then ret tt
  else
    start <- perform now;;
    let* (bucket, filled) := fill_buckets name (Z.to_nat buckets) 0 0 in
    let load := PrimFloat.div (to_double records) (to_double buckets) in
    let expect := if is_linked (key_of name) then at_most_one_float load
                  else PrimFloat.sub PrimFloat.one (std_exp (PrimFloat.opp load)) in
    finish <- perform now;;
    perform (log_row "BS_BUCKETS_ROW"
      [text_field name; text_field (to_grouped bucket); text_field (to_grouped records);
       real_field load; real_field (PrimFloat.div (to_double filled) (to_double (Z.max bucket 1)));
       real_field expect; text_field (number (finish - start))]).

Definition scanned_tables : list string :=
  ["header"; "tx"; "ins"; "outs"; "duplicate"; "pool"; "wtxid"].

Definition scan_buckets : prog unit :=
  log BS_OPERATION_INTERRUPT;;
  log BS_BUCKETS_HEADER;;
  for_each scanned_tables (λ name,
    records <- perform (query_size (name ++ "_records")%string);;
    scan_table name records);;
  stopping <- perform canceled;;
  if (stopping : bool) then log BS_OPERATION_CANCELED else ret tt.

(** ** Collisions *)

(** Null points (coinbase) and null search keys (unwritten rows) are excluded. *)
Definition is_null (key : table_key) : bool :=
  match key with
  | array_key _ => false
  | point_key _ index => index =? null_index
  | search_key value => value == null_hash
  end.

(** The variables of the scan of one table. *)
Record tally := Tally {
  lengths : list Z;
  screens : list Z;
  window_collisions : Z;
  window_walk : Z;
  window_start : Z;
  collisions : Z;
  walk : Z;
  nulls : Z;
  index : Z;
  fp_model : PrimFloat.float;
  walk_model : PrimFloat.float;
}.

Definition max_uint8 : Z := 255.

Definition new_tally (name : string) (buckets : Z) : tally :=
  Tally (replicate (Z.to_nat buckets) 0)
    (if filter_disabled name then [] else replicate (Z.to_nat buckets) (empty_filter name))
    0 0 0 0 0 0 0 PrimFloat.zero PrimFloat.zero.

(** The rows that were counted. *)
Definition keyed (t : tally) : Z := index t - nulls t.

(** The scan of a window of rows, reported and closed. *)
Definition progress (name : string) (buckets k start : Z) (t : tally) : prog tally :=
  let window := keyed t - window_start t in
  let load := PrimFloat.div (to_double (keyed t)) (to_double buckets) in
  finish <- perform now;;
  let secs := text_field (number (finish - start)) in
  if filter_disabled name then
    perform (log_row "BS_COLLISIONS_UNFILTERED_ROW"
      [text_field (to_grouped (keyed t)); real_field load; secs]);;
    ret (Tally (lengths t) (screens t) (window_collisions t) (window_walk t) (keyed t)
      (collisions t) (walk t) (nulls t) (index t) (fp_model t) (walk_model t))
  else if window =? 0 then ret t
  else
    let middle := PrimFloat.div (PrimFloat.div (to_double (window_start t + keyed t)) PrimFloat.two)
                    (to_double buckets) in
    let rate := false_positive name k middle in
    let cost := expected_walk name k middle in
    perform (log_row "BS_COLLISIONS_FILTERED_ROW"
      [text_field (to_grouped (keyed t)); real_field load;
       real_field (PrimFloat.div (to_double (window_collisions t)) (to_double window));
       real_field rate;
       real_field (PrimFloat.div (to_double (window_walk t)) (to_double window));
       real_field cost; secs]);;
    ret (Tally (lengths t) (screens t) 0 0 (keyed t) (collisions t) (walk t) (nulls t) (index t)
      (PrimFloat.add (fp_model t) (PrimFloat.mul rate (to_double window)))
      (PrimFloat.add (walk_model t) (PrimFloat.mul cost (to_double window)))).

(** One row. A length is a byte, which does not wrap. [at] throws past the end, where
    the bucket of a key does not lead ([ScanLibraryLaws]). *)
Definition count_row (name : string) (buckets k : Z) (key : table_key) (t : tally) : tally :=
  if is_null key then
    Tally (lengths t) (screens t) (window_collisions t) (window_walk t) (window_start t)
      (collisions t) (walk t) (nulls t + 1) (index t + 1) (fp_model t) (walk_model t)
  else
    let bucket := Z.to_nat (key_bucket key buckets) in
    let prior := default 0 (lengths t !! bucket) in
    let lengths' := <[bucket := if prior <? max_uint8 then prior + 1 else prior]> (lengths t) in
    if filter_disabled name then
      Tally lengths' (screens t) (window_collisions t) (window_walk t) (window_start t)
        (collisions t) (walk t) (nulls t) (index t + 1) (fp_model t) (walk_model t)
    else
      let value := default 0 (screens t !! bucket) in
      let next := filter_screen name value (key_thumb key) k in
      let screens' := <[bucket := next]> (screens t) in
      if filter_is_collision name value next then
        Tally lengths' screens' (window_collisions t + 1) (window_walk t + prior) (window_start t)
          (collisions t + 1) (walk t + prior) (nulls t) (index t + 1) (fp_model t) (walk_model t)
      else
        Tally lengths' screens' (window_collisions t) (window_walk t) (window_start t)
          (collisions t) (walk t) (nulls t) (index t + 1) (fp_model t) (walk_model t).

(** The loop over the rows, of which [count] are left. *)
Fixpoint scan_rows (name : string) (buckets k frequency start : Z) (count : nat) (t : tally) :
    prog tally :=
  match count with
  | O => ret t
  | S count =>
      stopping <- perform canceled;;
      if (stopping : bool) then ret t
      else
        t <- (if negb (index t =? 0) && (index t mod frequency =? 0)
              then progress name buckets k start t else ret t);;
        key <- perform (row_key name (index t));;
        scan_rows name buckets k frequency start count (count_row name buckets k key t)
  end.

(** How many buckets have each length. *)
Definition frequencies (lengths : list Z) : list Z :=
  foldl (λ f l, alter (Z.add 1) (Z.to_nat l) f) (replicate 256 0) lengths.

Definition half (x : PrimFloat.float) : PrimFloat.float := PrimFloat.div x PrimFloat.two.

(** The expected buckets of a length, if keys are links. *)
Definition perfect (buckets : Z) (whole part : PrimFloat.float) (length : Z) : PrimFloat.float :=
  let size := to_double length in
  if PrimFloat.eqb size whole then PrimFloat.mul (PrimFloat.sub PrimFloat.one part) (to_double buckets)
  else if PrimFloat.eqb size (PrimFloat.add whole PrimFloat.one) then PrimFloat.mul part (to_double buckets)
  else PrimFloat.zero.

Record moments := Moments {
  poisson : PrimFloat.float;
  squares : PrimFloat.float;
  hits : PrimFloat.float;
  longest : Z;
}.

(** The loop over the lengths, of which the occurrences are left. *)
Fixpoint scan_lengths (linked : bool) (buckets : Z) (load whole part : PrimFloat.float)
    (length : Z) (occurrences : list Z) (m : moments) : prog moments :=
  match occurrences with
  | [] => ret m
  | count :: rest =>
      let poisson' :=
        if length =? 0 then poisson m
        else PrimFloat.mul (poisson m) (PrimFloat.div load (to_double length)) in
      if count =? 0 then
        scan_lengths linked buckets load whole part (length + 1) rest
          (Moments poisson' (squares m) (hits m) (longest m))
      else
        let size := to_double length in
        let expect := if linked then perfect buckets whole part length
                      else PrimFloat.mul poisson' (to_double buckets) in
        perform (log_row "BS_COLLISIONS_LENGTHS_ROW"
          [text_field (number length); text_field (to_grouped count);
           text_field (to_grouped (std_round expect))]);;
        scan_lengths linked buckets load whole part (length + 1) rest
          (Moments poisson'
            (PrimFloat.add (squares m) (PrimFloat.mul (PrimFloat.mul (to_double count) size) size))
            (PrimFloat.add (hits m)
              (half (PrimFloat.mul (PrimFloat.mul (to_double count) size) (PrimFloat.add size PrimFloat.one))))
            length)
  end.

(** The row of a table in the distributions. *)
Definition distribution_row (name : string) (buckets : Z) (t : tally) (filled_ : Z) (m : moments) :
    list field :=
  let linked := is_linked (key_of name) in
  let load := PrimFloat.div (to_double (keyed t)) (to_double buckets) in
  let whole := std_floor load in
  let part := PrimFloat.sub load whole in
  let rest := PrimFloat.sub PrimFloat.one part in
  let empty_load := keyed t =? 0 in
  let filled := PrimFloat.div (to_double filled_) (to_double buckets) in
  let dispersion :=
    if empty_load then PrimFloat.zero
    else PrimFloat.div (PrimFloat.sub (PrimFloat.div (squares m) (to_double buckets))
           (PrimFloat.mul load load)) load in
  let walked := PrimFloat.div (hits m) (to_double (Z.max (keyed t) 1)) in
  let fill_expect := if linked then at_most_one_float load
                     else PrimFloat.sub PrimFloat.one (std_exp (PrimFloat.opp load)) in
  let dispersion_expect :=
    if negb linked then PrimFloat.one
    else if empty_load then PrimFloat.zero
    else PrimFloat.div (PrimFloat.mul part rest) load in
  let walk_expect :=
    if negb linked then PrimFloat.add PrimFloat.one (half load)
    else if empty_load then PrimFloat.zero
    else
      let more := PrimFloat.add whole PrimFloat.one in
      PrimFloat.div
        (PrimFloat.add
          (half (PrimFloat.mul (PrimFloat.mul rest whole) more))
          (half (PrimFloat.mul (PrimFloat.mul part more) (PrimFloat.add whole PrimFloat.two)))) load in
  [text_field name; text_field (to_grouped buckets); text_field (to_grouped (keyed t));
   real_field load; real_field filled; real_field fill_expect; real_field dispersion;
   real_field dispersion_expect; real_field walked; real_field walk_expect;
   text_field (number (longest m))].

(** The row of a table in the filters. *)
Definition filter_row (name : string) (buckets k : Z) (t : tally) : list field :=
  let load := PrimFloat.div (to_double (keyed t)) (to_double buckets) in
  let divisor := to_double (Z.max (keyed t) 1) in
  let optimal := optimal_k name (keyed t) buckets in
  [text_field name; text_field (number (filter_bits name)); text_field (number k);
   text_field (number optimal);
   real_field (PrimFloat.div (to_double (collisions t)) divisor);
   real_field (PrimFloat.div (fp_model t) divisor);
   real_field (PrimFloat.div (to_double (walk t)) divisor);
   real_field (PrimFloat.div (walk_model t) divisor);
   real_field (false_positive name k load); real_field (false_positive name optimal load)].

(** The rows of distributions and of filters. *)
Abbreviation collision_rows := (list (list field) * list (list field))%type.

(** One table: what it adds to the rows. *)
Definition scan_table_collisions (name : string) (records buckets k : Z) (rows : collision_rows) :
    prog collision_rows :=
  if buckets =? 0 then ret rows
  else
    let linked := is_linked (key_of name) in
    let kind := if linked then BS_COLLISIONS_LINK else BS_COLLISIONS_HASH in
    log (if filter_disabled name then format BS_COLLISIONS_UNFILTERED [name; kind]
         else format BS_COLLISIONS_FILTERED
                [name; kind; number (filter_bits name); number k; number (filter_k_max name)]);;
    let frequency := Z.max ((records + 19) / 20) 1 in
    start <- perform now;;
    t <- scan_rows name buckets k frequency start (Z.to_nat records) (new_tally name buckets);;
    t <- progress name buckets k start t;;
    stopping <- perform canceled;;
    (if (stopping : bool) then log BS_OPERATION_CANCELED else ret tt);;
    let f := frequencies (lengths t) in
    let load := PrimFloat.div (to_double (keyed t)) (to_double buckets) in
    let whole := std_floor load in
    log BS_COLLISIONS_LENGTHS;;
    m <- scan_lengths linked buckets load whole (PrimFloat.sub load whole) 0 f
           (Moments (std_exp (PrimFloat.opp load)) PrimFloat.zero PrimFloat.zero 0);;
    (if is_nullable (key_of name)
     then perform (log_row "BS_COLLISIONS_NULLS" [text_field (to_grouped (nulls t))]) else ret tt);;
    ret ((rows.1 ++ [distribution_row name buckets t (buckets - default 0 (head f)) m])%list,
         if filter_disabled name then rows.2 else (rows.2 ++ [filter_row name buckets k t])%list).

Definition collision_tables : list string := ["header"; "tx"; "ins"; "outs"; "wtxid"].

(** The tables, one after another. *)
Fixpoint scan_tables_collisions (names : list string) (rows : collision_rows) : prog collision_rows :=
  match names with
  | [] => ret rows
  | name :: names =>
      records <- perform (query_size (name ++ "_records")%string);;
      buckets <- perform (query_size (name ++ "_buckets")%string);;
      k <- perform (query_size (name ++ ".filter_k")%string);;
      rows <- scan_table_collisions name records buckets k rows;;
      scan_tables_collisions names rows
  end.

Definition scan_collisions : prog unit :=
  log BS_OPERATION_INTERRUPT;;
  rows <- scan_tables_collisions collision_tables ([], []);;
  log BS_COLLISIONS_DISTRIBUTION;;
  for_each rows.1 (λ row, perform (log_row "BS_COLLISIONS_DISTRIBUTION_ROW" row));;
  log BS_COLLISIONS_FILTER;;
  for_each rows.2 (λ row, perform (log_row "BS_COLLISIONS_FILTER_ROW" row)).

End Scans.

(** ** The scans read the open store *)

Section Keeps.
Context `{ScanLibrary} (encode_flags : Z → string) (integrity_message : string).

Lemma scan_heights_keeps count height flags node :
  keeps (scan_heights encode_flags integrity_message count height flags) (Status store_opened node).
Proof.
  unfold keeps. revert height flags. induction count as [|count IH]; intros height flags;
    cbn [scan_heights]; [done|].
  pass stopping. destruct stopping; [done|]. pass [[at_ next]|]; [|keep].
  destruct (negb _); [keep|]. destruct (next =? flags); [apply IH|].
  pass key. pass _. apply IH.
Qed.

Hint Resolve scan_heights_keeps : keeps.

Lemma scan_flags_keeps node : keeps (scan_flags encode_flags integrity_message) (Status store_opened node).
Proof. unfold scan_flags. keep. Qed.

Lemma fill_buckets_keeps table count bucket filled node :
  keeps (fill_buckets table count bucket filled) (Status store_opened node).
Proof.
  unfold keeps. revert bucket filled. induction count as [|count IH]; intros bucket filled;
    cbn [fill_buckets]; [done|].
  pass stopping. destruct stopping; [done|]. pass terminal. apply IH.
Qed.

Hint Resolve fill_buckets_keeps : keeps.

Lemma scan_table_keeps name records node :
  keeps (scan_table name records) (Status store_opened node).
Proof. unfold scan_table. keep. Qed.

Hint Resolve scan_table_keeps : keeps.

Lemma scan_buckets_keeps node : keeps (scan_buckets) (Status store_opened node).
Proof. unfold scan_buckets. keep. Qed.


Lemma progress_keeps name buckets k start t node :
  keeps (progress name buckets k start t) (Status store_opened node).
Proof. unfold progress. keep. Qed.

Hint Resolve progress_keeps : keeps.

Lemma scan_rows_keeps name buckets k frequency start count t node :
  keeps (scan_rows name buckets k frequency start count t) (Status store_opened node).
Proof.
  unfold keeps. revert t. induction count as [|count IH]; intros t; cbn [scan_rows]; [done|].
  pass stopping. destruct stopping; [done|]. pass t'. pass key. apply IH.
Qed.

Lemma scan_lengths_keeps linked buckets load whole part length occurrences m s :
  keeps (scan_lengths linked buckets load whole part length occurrences m) s.
Proof.
  unfold keeps. revert length m. induction occurrences as [|count rest IH]; intros length m;
    cbn [scan_lengths]; [done|].
  destruct (count =? 0); [apply IH|]. pass _. apply IH.
Qed.

Hint Resolve scan_rows_keeps scan_lengths_keeps : keeps.

Lemma scan_table_collisions_keeps name records buckets k rows node :
  keeps (scan_table_collisions name records buckets k rows) (Status store_opened node).
Proof. unfold scan_table_collisions. keep. Qed.

Hint Resolve scan_table_collisions_keeps : keeps.

Lemma scan_tables_collisions_keeps names rows node :
  keeps (scan_tables_collisions names rows) (Status store_opened node).
Proof.
  unfold keeps. revert rows. induction names as [|name names IH]; intros rows;
    cbn [scan_tables_collisions]; [done|].
  pass records. pass buckets. pass k. pass rows'. apply IH.
Qed.

Hint Resolve scan_tables_collisions_keeps : keeps.

Lemma scan_collisions_keeps node : keeps scan_collisions (Status store_opened node).
Proof. unfold scan_collisions. keep. Qed.

End Keeps.

#[export] Hint Resolve scan_flags_keeps scan_buckets_keeps scan_collisions_keeps : keeps.

(** ** What the collisions count *)

Section Counts.
Context `{ScanLibraryLaws}.

(** The rows of a bucket, of the keys that were read. *)
Definition rows_in (buckets b : Z) (keys : list table_key) : Z :=
  Z.of_nat (length (List.filter (λ key, negb (is_null key) && (key_bucket key buckets =? b)) keys)).

Definition sum (xs : list Z) : Z := foldr Z.add 0 xs.
#[local] Arguments sum : simpl never.
#[local] Arguments rows_in : simpl never.

(** The variables are those of the keys that were read: null keys are apart, the length of
    a bucket is the number of its rows, up to the greatest byte, and the windows are of
    rows that were counted. *)
Record counted (buckets : Z) (keys : list table_key) (t : tally) : Prop := {
  counted_index : index t = Z.of_nat (length keys);
  counted_nulls : nulls t = Z.of_nat (length (List.filter is_null keys));
  counted_size : length (lengths t) = Z.to_nat buckets;
  counted_lengths b : 0 <= b < buckets →
    lengths t !! Z.to_nat b = Some (Z.min max_uint8 (rows_in buckets b keys));
  counted_sum : sum (lengths t) <= keyed t ∧
    ((∀ b, rows_in buckets b keys <= max_uint8) → sum (lengths t) = keyed t);
  counted_window : 0 <= window_start t <= keyed t;
  counted_collisions : 0 <= window_collisions t <= collisions t ∧ collisions t <= keyed t;
}.

Lemma sum_cons x xs : sum (x :: xs) = x + sum xs.
Proof. done. Qed.

Lemma sum_replicate n x : sum (replicate n x) = Z.of_nat n * x.
Proof. induction n as [|n IH]; [done|]. change (replicate (S n) x) with (x :: replicate n x). rewrite sum_cons. lia. Qed.

Lemma sum_insert xs i old new : xs !! i = Some old → sum (<[i := new]> xs) = sum xs + new - old.
Proof.
  revert i. induction xs as [|x xs IH]; intros [|i] Hi; try done.
  - injection Hi as ->. change (<[0%nat := new]> (old :: xs)) with (new :: xs). rewrite !sum_cons. lia.
  - change (<[S i := new]> (x :: xs)) with (x :: <[i := new]> xs). rewrite !sum_cons, (IH i Hi). lia.
Qed.

Lemma sum_alter xs i old : xs !! i = Some old → sum (alter (Z.add 1) i xs) = sum xs + 1.
Proof.
  revert i. induction xs as [|x xs IH]; intros [|i] Hi; try done.
  - change (alter (Z.add 1) 0%nat (x :: xs)) with (1 + x :: xs). rewrite !sum_cons. lia.
  - change (alter (Z.add 1) (S i) (x :: xs)) with (x :: alter (Z.add 1) i xs). rewrite !sum_cons, (IH i Hi). lia.
Qed.

Lemma new_tally_counted name buckets : counted buckets [] (new_tally name buckets).
Proof.
  split; cbn; try done; try (split; done || lia).
  - apply length_replicate.
  - intros b Hb. apply lookup_replicate. split; [done|lia].
  - rewrite sum_replicate, Z.mul_0_r. by split.
Qed.

Lemma rows_in_snoc buckets b keys key :
  rows_in buckets b (keys ++ [key]) =
    rows_in buckets b keys + (if negb (is_null key) && (key_bucket key buckets =? b) then 1 else 0).
Proof.
  unfold rows_in. rewrite List.filter_app, length_app. cbn. destruct (_ && _); cbn; lia.
Qed.

Lemma count_row_counted name buckets k keys key t :
  0 < buckets → counted buckets keys t → counted buckets (keys ++ [key]) (count_row name buckets k key t).
Proof.
  intros Hbuckets [Hindex Hnulls Hsize Hlengths [Hsum Hall] Hwindow [Hcollisions Hkeyed]].
  unfold count_row. unfold keyed in *. destruct (is_null key) eqn:Hnull.
  - split; unfold keyed; cbn; rewrite ?List.filter_app, ?length_app; cbn; rewrite ?Hnull; cbn; try lia.
    + intros b Hb. rewrite rows_in_snoc, Hnull, Z.add_0_r. by apply Hlengths.
    + split; [lia|]. intros Hrows. rewrite Hall; [lia|]. intros b. specialize (Hrows b).
      rewrite rows_in_snoc, Hnull in Hrows. cbn in Hrows. lia.
  - pose proof (key_bucket_range key buckets Hbuckets) as Hrange. set (b0 := key_bucket key buckets) in *.
    assert (0 <= rows_in buckets b0 keys) as Hrows0 by (unfold rows_in; lia).
    assert (∀ b, rows_in buckets b (keys ++ [key]) =
      rows_in buckets b keys + if b0 =? b then 1 else 0) as Hsnoc.
    { intros b. rewrite rows_in_snoc, Hnull. done. }
    rewrite (Hlengths b0 Hrange). cbn [default from_option].
    set (prior := Z.min max_uint8 (rows_in buckets b0 keys)).
    set (next := if prior <? max_uint8 then prior + 1 else prior).
    assert (next = Z.min max_uint8 (rows_in buckets b0 keys + 1)) as Hnext.
    { unfold next, prior, max_uint8. destruct (Z.ltb_spec (Z.min 255 (rows_in buckets b0 keys)) 255); lia. }
    assert (sum (<[Z.to_nat b0 := next]> (lengths t)) = sum (lengths t) + next - prior) as Hinsert.
    { apply sum_insert, Hlengths, Hrange. }
    assert (∀ screens' wc ww w, 0 <= wc <= 1 → counted buckets (keys ++ [key])
      (Tally (<[Z.to_nat b0 := next]> (lengths t)) screens' (window_collisions t + wc) ww (window_start t)
        (collisions t + wc) w (nulls t) (index t + 1) (fp_model t) (walk_model t))) as Hgoal.
    { intros screens' wc ww w Hwc. split; unfold keyed; cbn;
        rewrite ?List.filter_app, ?length_app, ?length_insert; cbn; rewrite ?Hnull; cbn; try lia.
      - intros b Hb. rewrite Hsnoc. destruct (Z.eqb_spec b0 b) as [<-|Hne].
        + rewrite list_lookup_insert_eq; [by rewrite Hnext|]. rewrite Hsize. lia.
        + rewrite list_lookup_insert_ne by lia. rewrite Z.add_0_r. by apply Hlengths.
      - rewrite Hinsert. unfold prior, max_uint8 in *. split; [lia|]. intros Hrows.
        pose proof (Hrows b0) as Hb0. rewrite Hsnoc, Z.eqb_refl in Hb0.
        rewrite Hall; [lia|]. intros b. specialize (Hrows b). rewrite Hsnoc in Hrows.
        destruct (b0 =? b); lia. }
    destruct (filter_disabled name); [|destruct (filter_is_collision _ _ _)].
    + specialize (Hgoal (screens t) 0 (window_walk t) (walk t) ltac:(lia)). by rewrite !Z.add_0_r in Hgoal.
    + by apply Hgoal.
    + pose proof (λ s, Hgoal s 0 (window_walk t) (walk t) ltac:(lia)) as Hgoal0.
      setoid_rewrite Z.add_0_r in Hgoal0. apply Hgoal0.
Qed.

Lemma progress_counted name buckets k start keys t s :
  counted buckets keys t → store_is s = store_opened →
  safe (progress name buckets k start t) s (λ t s', s' = s ∧ counted buckets keys t).
Proof.
  intros [Hindex Hnulls Hsize Hlengths Hsum Hwindow Hcollisions] _. unfold progress. unfold keyed in *.
  intros finish _. cbn [next_status].
  destruct (filter_disabled name); [intros ? _; cbn|destruct (_ =? 0); [cbn|intros ? _; cbn]];
    (split; [done|]); split; unfold keyed; cbn; done || lia.
Qed.

(** Whatever the keys, and whenever the scan is canceled, it counts the rows that it has
    read: those of its index. A bucket of more than 255 rows is counted as one of 255. *)
Lemma scan_rows_counted name buckets k frequency start count keys t node :
  0 < buckets → counted buckets keys t →
  safe (scan_rows name buckets k frequency start count t) (Status store_opened node)
    (λ t' s, s = Status store_opened node ∧
       ∃ more, (length more <= count)%nat ∧ counted buckets (keys ++ more) t').
Proof.
  intros Hbuckets. revert keys t. induction count as [|count IH]; intros keys t Ht; cbn [scan_rows].
  { split; [done|]. exists []. split; [done|]. by rewrite app_nil_r. }
  take stopping. destruct stopping.
  { split; [done|]. exists []. split; [cbn; lia|]. by rewrite app_nil_r. }
  apply safe_bind. eapply (safe_mono _ _ (λ t s, s = Status store_opened node ∧ counted buckets keys t)).
  - intros t' s [-> Ht']. cbn beta. take key.
    eapply safe_mono; [|apply (IH (keys ++ [key])%list); by apply count_row_counted].
    intros t'' s (-> & more & Hmore & Hcounted). split; [done|].
    exists (key :: more). split; [cbn; lia|]. by rewrite <-app_assoc in Hcounted.
  - destruct (_ && _); [by apply progress_counted|done].
Qed.

(** The occurrences of the lengths: as many as buckets, and as many rows as the lengths. *)
Lemma frequencies_counted lengths :
  Forall (λ l, 0 <= l <= max_uint8) lengths →
  length (frequencies lengths) = 256%nat ∧
  (∀ l, 0 <= l <= max_uint8 →
    frequencies lengths !! Z.to_nat l = Some (Z.of_nat (length (List.filter (Z.eqb l) lengths)))) ∧
  sum (frequencies lengths) = Z.of_nat (length lengths).
Proof.
  intros Hlengths. unfold frequencies. induction lengths as [|x xs IH] using rev_ind.
  - split_and!; [done| |apply sum_replicate]. intros l Hl. unfold max_uint8 in Hl. apply lookup_replicate. split; [done|lia].
  - apply Forall_app in Hlengths as [(Hsize & Hlookup & Hsum)%IH Hx]. rewrite Forall_singleton in Hx.
    rewrite foldl_snoc. split_and!.
    + by rewrite length_alter.
    + intros l Hl. rewrite List.filter_app, length_app. cbn. destruct (Z.eqb_spec l x) as [->|Hne].
      * rewrite list_lookup_alter_eq, Hlookup by done. cbn [fmap option_fmap option_map]. f_equal. rewrite Nat2Z.inj_add. apply Z.add_comm.
      * rewrite list_lookup_alter_ne by lia. rewrite Hlookup by done. f_equal. cbn. lia.
    + specialize (Hlookup x Hx). rewrite length_app, Nat2Z.inj_add. cbn [length].
      rewrite (sum_alter _ _ _ Hlookup), Hsum. lia.
Qed.

End Counts.

(** ** Grouped numbers *)

(** A text without its commas. *)
Fixpoint ungroup (text : string) : string :=
  match text with
  | "" => ""
  | String c text => if Ascii.eqb c "," then ungroup text else String c (ungroup text)
  end.

Lemma ungroup_app s t : ungroup (s ++ t) = (ungroup s ++ ungroup t)%string.
Proof.
  induction s as [|c s IH]; [done|].
  change (String c s ++ t)%string with (String c (s ++ t)). cbn [ungroup]. rewrite IH.
  by destruct (Ascii.eqb c ",").
Qed.

Lemma substring_all s : String.substring 0 (String.length s) s = s.
Proof. induction s as [|c s IH]; [done|]. simpl. by rewrite IH. Qed.

Lemma substring_split n s :
  (n <= String.length s)%nat →
  (String.substring 0 n s ++ String.substring n (String.length s - n) s)%string = s.
Proof.
  revert s. induction n as [|n IH]; intros s Hn.
  - rewrite Nat.sub_0_r, substring_all. by destruct s.
  - destruct s as [|c s]; simpl in Hn; [lia|]. simpl.
    exact (f_equal (String c) (IH s ltac:(lia))).
Qed.

Lemma ungroup_group fuel at_ text :
  (at_ <= String.length text)%nat → ungroup (group_digits fuel at_ text) = ungroup text.
Proof.
  revert at_ text. induction fuel as [|fuel IH]; intros at_ text Hat; [done|]. cbn [group_digits].
  destruct (Nat.ltb_spec 3 at_); [|done]. rewrite IH.
  - rewrite !ungroup_app.
    change (ungroup "," ++ ?rest)%string with rest. rewrite <-ungroup_app. by rewrite substring_split by lia.
  - rewrite !string_length_app. pose proof (substring_split (at_ - 3) text ltac:(lia)) as Hsplit.
    apply (f_equal String.length) in Hsplit. rewrite string_length_app in Hsplit. simpl. lia.
Qed.

(** Grouping inserts commas only, and after every third digit. *)
Lemma to_grouped_digits value : ungroup (to_grouped value) = ungroup (number value).
Proof. unfold to_grouped. by apply ungroup_group. Qed.

Example to_grouped_example :
  to_grouped <$> [0; 999; 1000; 123456; 1234567890] = ["0"; "999"; "1,000"; "123,456"; "1,234,567,890"].
Proof. vm_compute. reflexivity. Qed.

(** ** Examples *)

(** A table of point keys with three buckets and filters of the last thumb. *)
Definition example_scan_library : ScanLibrary := {|
  to_double n := PrimFloat.of_uint63 (Uint63.of_Z n);
  std_exp x := x;
  std_floor x := x;
  std_round _ := 0;
  null_index := 4294967295;
  null_hash := "";
  key_of _ := point_type;
  key_bucket key count :=
    match key with
    | point_key _ index => index mod count
    | _ => 0
    end;
  key_thumb key :=
    match key with
    | point_key _ index => index
    | _ => 0
    end;
  filter_disabled _ := false;
  filter_bits _ := 8;
  filter_k_max _ := 4;
  empty_filter _ := -1;
  filter_screen _ _ thumb _ := thumb;
  filter_is_collision _ value next := value =? next;
  false_positive _ _ load := load;
  expected_walk _ _ load := load;
  optimal_k _ _ _ := 1;
|}.

Lemma example_scan_library_laws : @ScanLibraryLaws example_scan_library.
Proof. split. intros [] count Hcount; cbn; [lia|by apply Z.mod_pos_bound|lia]. Qed.

(** Rows of which the fourth is null and the last repeats one of its bucket. *)
Example collisions_counted :
  let keys := [point_key "a" 1; point_key "a" 4; point_key "b" 2; point_key "" 4294967295;
               point_key "b" 6; point_key "c" 6] in
  let t := foldl (λ t key, @count_row example_scan_library "ins" 3 1 key t)
             (@new_tally example_scan_library "ins" 3) keys in
  (lengths t, frequencies (lengths t) !! 2%nat, collisions t, walk t, nulls t, index t) =
    ([2; 2; 1], Some 2, 1, 1, 1, 6).
Proof. vm_compute. reflexivity. Qed.
