(* ===== verification/Executor.v ===== *)
(** The commands of the executable (src/console/executor_commands.cpp, executor_runner.cpp,
    [log_stopping] of executor_logging.cpp), as programs over the
    store, the node and the system. *)
From Stdlib Require Import Floats.
From stdpp Require Import pretty.
From S2P Require Import Prelude Rpc Errors Localize Console ExecutorStore ExecutorPrompts Daemon Scans.

(** ** Commands *)

(** The options of the command line. *)
Record command := Command {
  help : bool;
  backup : bool;
  restore : bool;
  daemon : option bool;
  hardware : bool;
  flags : bool;
  newstore : bool;
  buckets : bool;
  collisions : bool;
  information : bool;
  settings : bool;
  version : bool;
  (** With the built-in tests; a null hash is no option. *)
  builtin : bool;
  get : option string;
  put : option string;
}.

Section Commands.
Context `{StoreErrors} `{ExecutorErrors}.
Context (config : executor_config) (user : option credential).
Context (trim qualified : string → string) (versions : list string) (compiled : string).
Context (ratio : Z → Z → string).
Context `{ScanLibrary} (encode_flags : Z → string) (integrity_message : string).

Definition do_help : prog bool :=
  perform log_stop;;
  perform print_help;;
  ok true.

Definition do_hardware : prog bool :=
  perform log_stop;;
  dump_hardware config;;
  warnings <- warn_hardware config;;
  for_each warnings log;;
  ok true.

Definition do_settings : prog bool :=
  perform log_stop;;
  perform print_settings;;
  ok true.

Definition do_version : prog bool :=
  perform log_stop;;
  dump_version versions false;;
  dump_schema config;;
  ok true.

(** A sequence of [&&], or of [||] of negations that return. *)
Definition and_then (p q : prog bool) : prog bool :=
  passed <- p;;
  if (passed : bool) then q else ok false.

Definition do_new_store : prog bool :=
  perform log_stop;;
  and_then (check_store_path config true)
    (and_then (create_store true)
      (dump_body_sizes;;
       dump_records;;
       dump_buckets;;
       and_then (close_store true)
         (log BS_INITCHAIN_COMPLETE;;
          ok true))).

Definition do_backup : prog bool :=
  perform log_stop;;
  and_then (check_store_path config false)
    (and_then (open_store compiled false)
      (and_then (cold_backup_store true) (close_store false))).

Definition do_restore : prog bool :=
  perform log_stop;;
  and_then (check_store_path config false) (and_then (restore_store true) (close_store false)).

(** A command that reads the open store. *)
Definition with_open_store (body : prog unit) : prog bool :=
  perform log_stop;;
  and_then (check_store_path config false)
    (and_then (open_store compiled false)
      (body;;
       close_store false)).

Definition do_flags : prog bool := with_open_store (scan_flags encode_flags integrity_message).

Definition do_information : prog bool :=
  with_open_store
    (dump_body_sizes;;
     dump_records;;
     dump_buckets;;
     dump_load_factors ratio;;
     log BS_INFORMATION_PROGRESS_START;;
     dump_progress).

Definition do_buckets : prog bool := with_open_store scan_buckets.
Definition do_collisions : prog bool := with_open_store scan_collisions.
Definition do_get (hash : string) : prog bool := with_open_store (perform (read_test hash)).
Definition do_put (hash : string) : prog bool := with_open_store (perform (write_test hash)).

(** ** The run of the node *)

Definition stopper (message : string) : prog unit :=
  perform capture_stop;;
  perform (log_stop_with message);;
  perform wait_stopped.

Definition signal_none : Z := -2.

(** The levels of the log that a stop turns off: [levels::protocol], [levels::verbose]
    and [levels::proxy]. *)
Context (protocol_level verbose_level proxy_level : Z).

Definition log_stopping : prog unit :=
  signal <- perform get_signal;;
  if signal =? signal_none then ret tt
  else
    perform (set_toggle protocol_level false);;
    perform (set_toggle verbose_level false);;
    perform (set_toggle proxy_level false);;
    log (format BS_NODE_INTERRUPTED [number signal]);;
    log BS_NETWORK_STOPPING.

(** The store, opened, restored or created. *)
Definition prepare_store : prog bool :=
  found <- check_store_path config false;;
  if (found : bool) then
    ec <- open_store_coded compiled true;;
    if code_eqb ec flush_lock then restore_store true
    else ok (negb (is_error ec))
  else and_then (check_store_path config true) (create_store true).

(** A prompt that does not pass closes the store. *)
Definition or_close (prompt : prog (bool * list string)) (next : list string → prog bool) : prog bool :=
  let* (passed, lines) := prompt in
  if (passed : bool) then next lines
  else
    close_store false;;
    stopper BS_NODE_STOPPED;;
    ok false.

(** The node, from its start to its close. *)
Definition run_node : prog unit :=
  (if service config then ret tt else perform capture_start);;
  log BS_NODE_INTERRUPT;;
  perform make_node;;
  perform node_subscribe_connect;;
  perform node_subscribe_close;;
  log BS_NETWORK_STARTING;;
  perform node_start;;
  perform wait_for_stopping;;
  log_stopping;;
  perform node_close.

(** The logged values of [dump_options], with what of the log is compiled. *)
Context (levels : list (string * bool * Z)).

Definition dump_options : prog unit :=
  log BS_LOG_TABLE_HEADER;;
  for_each levels (λ '(label, defined, level),
    enabled <- perform (get_toggle level);;
    log (format (label ++ BS_LOG_TABLE) [flag defined; flag enabled])).

(** [lines] is the input of the console before the node starts. *)
Definition do_run (lines : list string) : prog bool :=
  (if is_empty (log_path config) then ret tt else perform create_log_directory);;
  created <- perform create_sinks;;
  if negb created then
    perform log_stop;;
    log BS_LOG_INITIALIZE_FAILURE;;
    ok false
  else
    perform subscribe_log;;
    perform subscribe_events;;
    (if service config then ret tt else perform capture_subscribe);;
    log BS_LOG_HEADER;;
    prepared <- prepare_store;;
    if negb prepared then
      stopper BS_NODE_STOPPED;;
      ok false
    else
      dump_body_sizes;;
      dump_records;;
      dump_buckets;;
      dump_version versions true;;
      dump_options;;
      dump_hardware config;;
      or_close (prompt_warnings config trim lines) (λ lines,
        or_close (prompt_milestone_store config trim lines) (λ _,
          run_node;;
          dump_body_sizes;;
          dump_records;;
          closed <- close_store true;;
          stopper BS_NODE_STOPPED;;
          result <- perform get_result;;
          ok ((closed : bool) && result))).

Definition dispatch (options : command) (lines : list string) : prog bool :=
  if help options then do_help
  else if backup options then do_backup
  else if restore options then do_restore
  else
    match daemon options with
    | Some install => do_daemon qualified config user install
    | None =>
        if hardware options then do_hardware
        else if flags options then do_flags
        else if newstore options then do_new_store
        else if buckets options then do_buckets
        else if collisions options then do_collisions
        else if information options then do_information
        else if settings options then do_settings
        else if version options then do_version
        else
          match builtin options, get options, put options with
          | true, Some hash, _ => do_get hash
          | true, None, Some hash => do_put hash
          | _, _, _ => do_run lines
          end
    end.

End Commands.

(** ** The store and the node on every path *)

Section Safety.
Context `{StoreErrors} `{ExecutorErrorsLaws}.
Context (config : executor_config) (user : option credential).
Context (trim qualified : string → string) (versions : list string) (compiled : string).
Context (ratio : Z → Z → string).
Context `{ScanLibrary} (encode_flags : Z → string) (integrity_message : string).
Context (protocol_level verbose_level proxy_level : Z) (levels : list (string * bool * Z)).

(** What a command leaves: the store is not open, and is closed if it succeeds; its node,
    if any, is closed. *)
Definition settled (succeeded : bool) (s : status) : Prop :=
  store_is s ≠ store_opened ∧ (succeeded = true → store_is s = store_closed) ∧
  (node_is s = node_absent ∨ node_is s = node_closed).

Lemma settled_false s : s = at_rest → settled false s.
Proof. intros ->. split_and!; [done..|by left]. Qed.

Lemma opens_settled s : opens false s → settled false s.
Proof. intros [-> | ->]; (split_and!; [done..|by left]). Qed.

Lemma close_store_settled details node :
  node = node_absent ∨ node = node_closed →
  safe (close_store details) (Status store_opened node) settled.
Proof.
  intros Hnode. eapply safe_mono; [|by apply close_store_safe].
  intros closed s ->. split_and!; [by destruct closed|by intros ->|done].
Qed.

Lemma and_then_safe p q s (P Q : bool → status → Prop) :
  safe p s P → (∀ s', P false s' → Q false s') → (∀ s', P true s' → safe q s' Q) →
  safe (and_then p q) s Q.
Proof.
  intros Hp Hfalse Htrue. unfold and_then. apply safe_bind. eapply safe_mono; [|exact Hp].
  intros [] s' Hs'; [by apply Htrue|by apply Hfalse].
Qed.

Lemma checked_safe create q :
  safe q at_rest settled → safe (and_then (check_store_path config create) q) at_rest settled.
Proof.
  intros Hq. eapply and_then_safe; [apply check_store_path_keeps| |by intros s' ->].
  intros s' ->. by apply settled_false.
Qed.

Lemma opened_safe p q :
  safe p at_rest opens → safe q (Status store_opened node_absent) settled →
  safe (and_then p q) at_rest settled.
Proof.
  intros Hp Hq. eapply and_then_safe; [exact Hp|apply opens_settled|]. intros s' Hs'. cbn in Hs'. by subst.
Qed.

Lemma with_open_store_safe body :
  keeps body (Status store_opened node_absent) →
  safe (with_open_store config compiled body) at_rest settled.
Proof.
  intros Hbody. unfold with_open_store. pass _. apply checked_safe, opened_safe; [apply open_store_safe|].
  apply safe_then; [exact Hbody|intros _]. apply close_store_settled. by left.
Qed.

Lemma stopper_keeps message s : keeps (stopper message) s.
Proof. unfold stopper. keep. Qed.

Lemma log_stopping_keeps s : keeps (log_stopping protocol_level verbose_level proxy_level) s.
Proof. unfold log_stopping. keep. Qed.

Lemma dump_options_keeps s : keeps (dump_options levels) s.
Proof. unfold dump_options. keep. Qed.

Hint Resolve stopper_keeps log_stopping_keeps dump_options_keeps : keeps.

Lemma run_node_safe :
  safe (run_node config protocol_level verbose_level proxy_level) (Status store_opened node_absent)
    (λ _ s, s = Status store_opened node_closed).
Proof.
  unfold run_node. pass _. pass _. take ?. pass _. pass _. pass _. take ?. pass _. pass _.
  by intros ? _.
Qed.

Lemma or_close_safe prompt next :
  keeps prompt (Status store_opened node_absent) →
  (∀ lines, safe (next lines) (Status store_opened node_absent) settled) →
  safe (or_close prompt next) (Status store_opened node_absent) settled.
Proof.
  intros Hprompt Hnext. unfold or_close. apply safe_then; [exact Hprompt|]. intros [[] lines]; [done|].
  apply safe_bind. eapply safe_mono; [|apply close_store_settled; by left].
  intros closed s (Hopen & _ & Hnode). pass _. by split_and!.
Qed.

Lemma prepare_store_safe : safe (prepare_store config compiled) at_rest opens.
Proof.
  unfold prepare_store. pass found. destruct found.
  - apply safe_bind. eapply safe_mono; [|apply open_store_coded_safe]. intros ec s ->.
    destruct (code_eqb ec flush_lock) eqn:Hlock.
    + apply bool_decide_eq_true in Hlock as ->. rewrite flush_lock_error. apply restore_store_safe.
    + by destruct (is_error ec); [left|].
  - eapply and_then_safe; [apply check_store_path_keeps|intros s' ->; by left|].
    intros s' ->. apply create_store_safe.
Qed.

Lemma do_run_safe lines :
  safe (do_run config trim versions compiled protocol_level verbose_level proxy_level levels lines)
    at_rest settled.
Proof.
  unfold do_run. pass _. pass created. destruct (negb created); [pass _; pass _; by apply settled_false|].
  pass _. pass _. pass _. pass _. apply safe_bind.
  eapply safe_mono; [|apply prepare_store_safe]. intros prepared s Hs.
  destruct prepared; cbn [negb]; [|pass _; by apply opens_settled]. cbn in Hs. subst.
  pass _. pass _. pass _. apply safe_then; [by apply dump_version_keeps|intros _]. pass _. pass _.
  apply or_close_safe; [apply prompt_warnings_keeps|]. intros rest.
  apply or_close_safe; [apply prompt_milestone_store_keeps|]. intros _.
  apply safe_bind. eapply safe_mono; [|apply run_node_safe]. intros _ s ->. pass _. pass _.
  apply safe_bind. eapply safe_mono; [|apply close_store_settled; by right].
  intros closed s (Hopen & Hclosed & Hnode). pass _. pass result.
  split_and!; [done| |done]. destruct closed; [by intros _; apply Hclosed|done].
Qed.

Lemma do_daemon_keeps install s : keeps (do_daemon qualified config user install) s.
Proof.
  unfold do_daemon, create_service, delete_service, command_line. pass _.
  destruct (match user with Some _ => _ | None => _ end); keep.
Qed.

(** The backup is the only command that may end with the store open. *)
Definition backs_up (options : command) : bool := negb (help options) && backup options.

Lemma dispatch_safe options lines :
  safe (dispatch config user trim qualified versions compiled ratio encode_flags integrity_message
      protocol_level verbose_level proxy_level levels options lines) at_rest
    (λ succeeded s,
      if backs_up options then succeeded = true → settled true s else settled succeeded s).
Proof.
  unfold backs_up, dispatch. destruct (help options); cbn [negb andb].
  { unfold do_help. pass _. pass _. by split_and!; [..|left]. }
  destruct (backup options).
  { unfold do_backup. pass _. eapply and_then_safe; [apply check_store_path_keeps|done|]. intros s ->.
    eapply and_then_safe; [apply open_store_safe|done|]. intros s Hs. cbn in Hs. subst.
    eapply and_then_safe; [apply cold_backup_store_keeps|done|]. intros s ->.
    eapply safe_mono; [|apply close_store_settled; by left]. by intros [] s Hs. }
  assert (∀ (p : prog bool), keeps p at_rest → safe p at_rest settled) as Hkeeps.
  { intros p Hp. eapply safe_mono; [|exact Hp]. intros a s ->. by split_and!; [..|left]. }
  destruct (restore options).
  { unfold do_restore. pass _. apply checked_safe, opened_safe; [apply restore_store_safe|].
    apply close_store_settled. by left. }
  destruct (daemon options) as [install|]; [apply Hkeeps, do_daemon_keeps|].
  destruct (hardware options); [apply Hkeeps; unfold do_hardware; keep|].
  destruct (flags options); [apply with_open_store_safe, scan_flags_keeps|].
  destruct (newstore options).
  { unfold do_new_store. pass _. apply checked_safe, opened_safe; [apply create_store_safe|].
    pass _. pass _. pass _. eapply and_then_safe; [apply close_store_settled; by left|done|].
    intros s (Hopen & Hclosed & Hnode). pass _. by split_and!. }
  destruct (buckets options); [apply with_open_store_safe, scan_buckets_keeps|].
  destruct (collisions options); [apply with_open_store_safe, scan_collisions_keeps|].
  destruct (information options); [apply with_open_store_safe; keep|].
  destruct (settings options); [apply Hkeeps; unfold do_settings; keep|].
  destruct (version options).
  { apply Hkeeps. unfold do_version. pass _.
    apply safe_then; [by apply dump_version_keeps|intros _]. keep. }
  destruct (builtin options), (get options), (put options); try apply do_run_safe;
    apply with_open_store_safe; keep.
Qed.

End Safety.

(** ** Properties *)

(** Any answers but a failed snapshot. *)
Definition full_disk (o : op) : answer o :=
  match o return answer o with
  | store_snapshot => (Error.make Error.empty_path, "disk full", [])
  | o => example_other o
  end.

(** A backup of a store whose snapshot fails. *)
Lemma backup_unclosed `{StoreErrors} `{ExecutorErrors} config compiled :
  ∃ ops, runs (do_backup config compiled) at_rest false (Status store_opened node_absent) ops.
Proof. eexists. apply (follow_runs full_disk). reflexivity. Qed.

(** C37: The store and the node of a command. Whatever the store, the node, the files and
    the console answer, a command opens a store that is closed, reads it while it is
    open, starts one node over it, and closes the node before the store. It ends with
    the store not open: closed if the command succeeds, and otherwise closed or failed
    to close. The exception is a backup that fails, which can leave the store open, as
    it does if the snapshot fails. *)
Theorem commands_settle_store `{StoreErrors} `{ExecutorErrorsLaws} `{ScanLibrary} config user trim qualified versions
    compiled ratio encode_flags integrity_message protocol_level verbose_level
    proxy_level levels options lines :
  let command := dispatch config user trim qualified versions compiled ratio encode_flags
    integrity_message protocol_level verbose_level proxy_level levels options lines in
  safe command at_rest (λ succeeded s,
    if backs_up options then succeeded = true → settled true s else settled succeeded s) ∧
  (backs_up options = true → ∃ ops, runs command at_rest false (Status store_opened node_absent) ops).
Proof.
  intros command. split; [apply dispatch_safe|]. unfold command, backs_up, dispatch.
  destruct (help options); [done|]. cbn [negb andb]. intros ->. apply backup_unclosed.
Qed.

(** ** Examples *)

#[local] Instance example_store_errors : StoreErrors := { depth_limited := 1; query_canceled := 2; integrity := 3 }.
#[local] Instance example_executor_errors : ExecutorErrors := {
  flush_lock := Code database_category 4;
  schema_version := Code database_category 5;
}.
#[local] Existing Instance example_scan_library.
#[local] Instance example_executor_laws : ExecutorErrorsLaws.
Proof. by split. Qed.

Definition example_command (backup_ : bool) : command :=
  Command false backup_ false None false false false false false false false false false None None.

Definition example_dispatch (backup_ : bool) : prog bool :=
  dispatch example_config None (λ line, line) (λ path, path) ["libbitcoin-server.... 4.0"] "1.0"
    (λ _ _, "1") number "integrity" 3 9 4
    [("[n]ews......... ", true, 1)] (example_command backup_) [""].

Lemma commands_settle_store_witness :
  ∃ ops, runs (example_dispatch true) at_rest false (Status store_opened node_absent) ops.
Proof.
  refine (proj2 (commands_settle_store example_config None (λ line, line) (λ path, path)
    ["libbitcoin-server.... 4.0"] "1.0" (λ _ _, "1") number "integrity" 3 9 4 [("[n]ews......... ", true, 1)] (example_command true) [""]) _).
  reflexivity.
Defined.

(** A snapshot that fails, and the lines of a run of the node that is stopped by ctrl-c. *)
Example backup_log :
  (logged ∘ snd) <$> follow full_disk (example_dispatch true) at_rest =
  Some ["Using config file: /etc/bs.cfg"; "Database is started."; "Snapshot is started.";
        "Snapshot failed with error 'disk full'."].
Proof. vm_compute. reflexivity. Qed.

Definition run_answers (o : op) : answer o :=
  match o return answer o with
  | canceled => false
  | get_signal => 2
  | o => example_other o
  end.

Example run_log :
  (λ '(result, s, ops), (result, s, List.filter (λ text, String.length text <? 60)%nat (logged ops))) <$>
    follow run_answers (example_dispatch false) at_rest =
  Some (true, Status store_closed node_closed,
    ["====================== startup ======================="; "Using config file: /etc/bs.cfg";
     "Database is started."; "Version Information..."; "libbitcoin-server.... 4.0";
     "database schema...... "; "Log system configuration...";
     "[n]ews......... compiled:1 enabled:1."; "Hardware configuration (x64)...";
     "aesni....... platform:1 compiled:1."; "vaes........ platform:1 compiled:1.";
     "shani....... platform:1 compiled:1."; "sha512...... platform:1 compiled:1.";
     "sse41....... platform:1 compiled:1."; "avx2........ platform:1 compiled:1.";
     "avx512...... platform:1 compiled:1."; "avxifma..... platform:1 compiled:1.";
     "avx512ifma.. platform:1 compiled:1."; "cuda........ platform:1 compiled:1.";
     "cuda ecc.... platform:1 enabled:1."; "bitcoin.milestone = ";
     "Press CTRL-C to stop the node."; "Please wait while network is starting...";
     "Node was interrupted by signal (2)."; "Please wait while network is stopping...";
     "Please wait while database is stopping..."; "Database stopped successfully in 0 secs.";
     "Node stopped successfully."]).
Proof. vm_compute. reflexivity. Qed.
