(* ===== verification/Runner.v ===== *)
(** The run of the node between its start and its close (src/console/executor.cpp,
    [wait_for_stopping] to [do_run]'s result of executor_runner.cpp), as transitions of
    the threads that share the executor: the handlers on the node's threads, the signals,
    the poller and the main thread. *)
From S2P Require Import Prelude Rpc Errors Executor.

(** [network::error::service_stopped]. *)
Class ServiceErrors := { service_stopped : code }.

(** ** State *)

(** The calls that the node owes to the executor's handlers. *)
Inductive callback :=
  | callback_started
  | callback_subscribed
  | callback_running
  | callback_stopped.

(** Where the main thread is in [do_run]: it waits, closes the node, closes the store, or
    has returned: whether the store is closed, and the result. *)
Inductive main_phase :=
  | main_waiting
  | main_closing_node
  | main_closing_store
  | main_finished (closed result : bool).

(** [signal_] is none while unsignalled; [stopping] is the promise that the poller
    keeps; [delivered] are the calls of the handlers so far. *)
Record runner := Runner {
  signal : option Z;
  stopping : bool;
  result : bool;
  pending : list callback;
  delivered : list (callback * code);
  main : main_phase;
}.

(** The node has been started. *)
Definition started : runner := Runner None false true [callback_started] [] main_waiting.

Definition with_result (value : bool) (r : runner) : runner :=
  Runner (signal r) (stopping r) value (pending r) (delivered r) (main r).
Definition with_pending (calls : list callback) (r : runner) : runner :=
  Runner (signal r) (stopping r) (result r) calls (delivered r) (main r).
Definition with_main (phase : main_phase) (r : runner) : runner :=
  Runner (signal r) (stopping r) (result r) (pending r) (delivered r) phase.
Definition add_pending (calls : list callback) (r : runner) : runner :=
  with_pending (pending r ++ calls) r.

(** [compare_exchange_strong]: the first signal is kept. *)
Definition stop (value : Z) (r : runner) : runner :=
  match signal r with
  | Some _ => r
  | None => Runner (Some value) (stopping r) (result r) (pending r) (delivered r) (main r)
  end.

Definition canceled (r : runner) : bool := bool_decide (is_Some (signal r)).

Section Runner.
Context `{ServiceErrors}.

(** ** Handlers *)

(** [subscribe_close] owes the call of the subscription and that of its completion. *)
Definition handle_started (ec : code) (r : runner) : runner :=
  if is_error ec then stop signal_none (with_result false r)
  else add_pending [callback_stopped; callback_subscribed] r.

Definition handle_subscribed (ec : code) (r : runner) : runner :=
  if is_error ec then stop signal_none (with_result false r)
  else add_pending [callback_running] r.

Definition handle_running (ec : code) (r : runner) : runner :=
  if is_error ec then stop signal_none (with_result false r) else r.

Definition handle_stopped (ec : code) (r : runner) : runner :=
  stop signal_none
    (if is_error ec && negb (code_eqb ec service_stopped) then with_result false r else r).

Definition handle (call : callback) (ec : code) (r : runner) : runner :=
  match call with
  | callback_started => handle_started ec r
  | callback_subscribed => handle_subscribed ec r
  | callback_running => handle_running ec r
  | callback_stopped => handle_stopped ec r
  end.

Definition record (call : callback) (ec : code) (r : runner) : runner :=
  Runner (signal r) (stopping r) (result r) (pending r) (delivered r ++ [(call, ec)]) (main r).

(** ** Transitions *)

Inductive runner_step : runner → runner → Prop :=
  (** The node calls a handler, with any code, until it is closed. *)
  | step_call r before call after ec :
      pending r = (before ++ call :: after)%list →
      main r = main_waiting ∨ main r = main_closing_node →
      runner_step r (handle call ec (record call ec (with_pending (before ++ after) r)))
  (** A signal of the system, or [stop] from the console. *)
  | step_signal r value :
      runner_step r (stop value r)
  (** The poller sees the signal, and keeps its promise once. *)
  | step_poll r :
      canceled r = true → stopping r = false →
      runner_step r (Runner (signal r) true (result r) (pending r) (delivered r) (main r))
  (** The main thread has waited, and closes the node. *)
  | step_wait r :
      main r = main_waiting → stopping r = true →
      runner_step r (with_main main_closing_node r)
  (** The node is closed: its threads are joined, so it calls no more. *)
  | step_node_closed r :
      main r = main_closing_node →
      runner_step r (with_pending [] (with_main main_closing_store r))
  (** The store is closed, with a code. *)
  | step_store_closed r ec :
      main r = main_closing_store →
      runner_step r (with_main (main_finished (negb (is_error ec)) (negb (is_error ec) && result r)) r).

Definition runner_reachable (r : runner) : Prop := rtc runner_step started r.

(** ** Invariant *)

(** A call that is no failure: the node may say that it was stopped. *)
Definition call_succeeded (c : callback * code) : bool :=
  match c with
  | (callback_stopped, ec) => negb (is_error ec) || code_eqb ec service_stopped
  | (_, ec) => negb (is_error ec)
  end.

(** A call after which the executor is signalled. *)
Definition call_stops (c : callback * code) : bool :=
  match c with
  | (callback_stopped, _) => true
  | (_, ec) => is_error ec
  end.

Definition finished (r : runner) : Prop := ∃ closed b, main r = main_finished closed b.

Record runner_ok (r : runner) : Prop := {
  result_ok : result r = forallb call_succeeded (delivered r);
  stops_ok : existsb call_stops (delivered r) = true → is_Some (signal r);
  stopping_ok : stopping r = true → is_Some (signal r);
  main_ok : main r ≠ main_waiting → stopping r = true;
  finished_ok closed b : main r = main_finished closed b → b = closed && result r;
  closed_ok : main r = main_closing_store ∨ finished r → pending r = [];
}.

Lemma started_ok : runner_ok started.
Proof. split; try done. intros [?|(? & ? & ?)]; done. Qed.

Lemma stop_signal value r : is_Some (signal (stop value r)).
Proof. unfold stop. destruct (signal r) eqn:E; [rewrite E|]; by eexists. Qed.

Lemma stop_keeps value r :
  stopping (stop value r) = stopping r ∧ result (stop value r) = result r ∧
  pending (stop value r) = pending r ∧ delivered (stop value r) = delivered r ∧
  main (stop value r) = main r ∧ (∀ v, signal r = Some v → signal (stop value r) = Some v).
Proof. unfold stop. by destruct (signal r) eqn:E; rewrite ?E. Qed.

Lemma stop_runner_ok value r : runner_ok r → runner_ok (stop value r).
Proof.
  intros []. pose proof (stop_signal value r).
  destruct (stop_keeps value r) as (Hst & Hres & Hp & Hd & Hm & _).
  split; rewrite ?Hst, ?Hres, ?Hp, ?Hd, ?Hm; try done. unfold finished. by rewrite Hm.
Qed.

(** What a handler does to the state that its call has left. *)
Lemma handle_spec call ec r :
  let r' := handle call ec r in
  stopping r' = stopping r ∧ main r' = main r ∧ delivered r' = delivered r ∧
  result r' = (result r && call_succeeded (call, ec)) ∧
  (call_stops (call, ec) = true → is_Some (signal r')) ∧
  (∀ v, signal r = Some v → signal r' = Some v).
Proof.
  destruct call; simpl;
    unfold handle_started, handle_subscribed, handle_running, handle_stopped;
    repeat match goal with
    | |- context [stop ?v ?x] =>
        pose proof (stop_signal v x);
        destruct (stop_keeps v x) as (? & ? & ? & ? & ? & ?);
        generalize dependent (stop v x); intros
    end;
    destruct (is_error ec); simpl in *; rewrite ?andb_true_r, ?andb_false_r; try (by split_and!).
  destruct (code_eqb ec service_stopped); simpl in *; rewrite ?andb_true_r, ?andb_false_r; by split_and!.
Qed.

Lemma step_call_ok r before call after ec :
  runner_ok r → pending r = (before ++ call :: after)%list →
  main r = main_waiting ∨ main r = main_closing_node →
  runner_ok (handle call ec (record call ec (with_pending (before ++ after) r))).
Proof.
  intros [Hresult Hstops Hstopping Hmain Hfinished Hclosed] Hpending Hphase.
  destruct (handle_spec call ec (record call ec (with_pending (before ++ after) r)))
    as (Hst & Hm & Hd & Hr & Hs & Hkeep). simpl in Hst, Hm, Hd, Hr.
  assert (∀ r', is_Some (signal r) → (∀ v, signal r = Some v → signal r' = Some v) →
    is_Some (signal r')) as Hmono.
  { intros r' [v Hv] Hr'. exists v. by apply Hr'. }
  split.
  - rewrite Hr, Hd, forallb_app, Hresult. simpl. by rewrite andb_true_r.
  - rewrite Hd, existsb_app. intros [Hold|Hnew]%orb_true_iff.
    + eapply Hmono; [by apply Hstops|done].
    + apply Hs. simpl in Hnew. by rewrite orb_false_r in Hnew.
  - rewrite Hst. intros Hset. eapply Hmono; [by apply Hstopping|done].
  - by rewrite Hst, Hm.
  - intros closed b. rewrite Hm. intros Hb. by destruct Hphase as [E|E]; rewrite E in Hb.
  - rewrite Hm. intros [E|(closed & b & E)]; destruct Hphase; congruence.
Qed.

Lemma runner_step_ok r r' : runner_ok r → runner_step r r' → runner_ok r'.
Proof.
  intros Hok Hstep.
  destruct Hstep as [r before call after ec Hpending Hphase|r value|r Hsignal Hstopping|r Hm Hs
    |r Hm|r ec Hm]; [by apply step_call_ok|by apply stop_runner_ok|..]; destruct Hok; split; simpl; try done.
  - intros _. unfold canceled in Hsignal. by apply bool_decide_eq_true in Hsignal.
  - intros [?|(? & ? & ?)]; done.
  - intros _. apply main_ok0. congruence.
  - intros _. apply main_ok0. congruence.
  - by intros closed b [= <- <-].
  - intros _. apply closed_ok0. by left.
Qed.

Lemma runner_reachable_ok r : runner_reachable r → runner_ok r.
Proof.
  intros Hr. eapply (rtc_preserves runner_step runner_ok); [|exact Hr|apply started_ok].
  apply runner_step_ok.
Qed.

Lemma runner_step_signal r r' v : runner_step r r' → signal r = Some v → signal r' = Some v.
Proof.
  intros Hstep Hv. destruct Hstep; simpl; try done.
  - destruct (handle_spec call ec (record call ec (with_pending (before ++ after) r)))
      as (_ & _ & _ & _ & _ & Hkeep). by apply Hkeep.
  - by apply stop_keeps.
Qed.

(** The steps that are left to the main thread and the poller. *)
Lemma runner_finishes r ec :
  runner_ok r → is_Some (signal r) → ¬ finished r →
  ∃ r', rtc runner_step r r' ∧ signal r' = signal r ∧ delivered r' = delivered r ∧
    main r' = main_finished (negb (is_error ec)) (negb (is_error ec) && result r).
Proof.
  intros Hok Hsignal Hunfinished.
  assert (∀ r, main r = main_closing_store → ∃ r', rtc runner_step r r' ∧ signal r' = signal r ∧
    delivered r' = delivered r ∧ main r' = main_finished (negb (is_error ec)) (negb (is_error ec) && result r)) as Hstore.
  { intros x Hx. eexists. split; [apply rtc_once, (step_store_closed x ec Hx)|done]. }
  assert (∀ r, main r = main_closing_node → ∃ r', rtc runner_step r r' ∧ signal r' = signal r ∧
    delivered r' = delivered r ∧ main r' = main_finished (negb (is_error ec)) (negb (is_error ec) && result r)) as Hnode.
  { intros x Hx. destruct (Hstore (with_pending [] (with_main main_closing_store x)) eq_refl)
      as (y & Hy & Hrest). exists y. split; [|done]. eapply rtc_l; [by apply step_node_closed|done]. }
  assert (∀ r, main r = main_waiting → stopping r = true → ∃ r', rtc runner_step r r' ∧
    signal r' = signal r ∧ delivered r' = delivered r ∧
    main r' = main_finished (negb (is_error ec)) (negb (is_error ec) && result r)) as Hwait.
  { intros x Hx Hs. destruct (Hnode (with_main main_closing_node x) eq_refl) as (y & Hy & Hrest).
    exists y. split; [|done]. eapply rtc_l; [by apply step_wait|done]. }
  destruct (main r) as [| | |closed b] eqn:Hm.
  - destruct (stopping r) eqn:Hs; [by apply Hwait|].
    destruct (Hwait (Runner (signal r) true (result r) (pending r) (delivered r) (main r)) Hm eq_refl)
      as (y & Hy & Hrest). exists y. split; [|done]. eapply rtc_l; [|exact Hy].
    apply step_poll; [|done]. unfold canceled. by apply bool_decide_eq_true.
  - by apply Hnode.
  - by apply Hstore.
  - destruct Hunfinished. by exists closed, b.
Qed.

End Runner.

(** C38: The run of the node. Whatever the node calls, with whatever codes, and whatever
    signals arrive, in any order: the first signal is kept; the run ends only after a
    signal; a call that fails, and the end of the node, signal; once signalled the run
    can end, from any state and however the store closes. It succeeds exactly if the
    store was closed and no call of the node was a failure, also of the calls that come
    while the node is closed; after that there are no calls. *)
Theorem run_correct `{ServiceErrors} r :
  runner_reachable r →
  (∀ r' v, rtc runner_step r r' → signal r = Some v → signal r' = Some v) ∧
  (existsb call_stops (delivered r) = true ∨ main r ≠ main_waiting → is_Some (signal r)) ∧
  (∀ closed b, main r = main_finished closed b →
    pending r = [] ∧ b = closed && forallb call_succeeded (delivered r)) ∧
  (is_Some (signal r) → ¬ finished r → ∀ ec, ∃ r', rtc runner_step r r' ∧
    delivered r' = delivered r ∧
    main r' = main_finished (negb (is_error ec))
      (negb (is_error ec) && forallb call_succeeded (delivered r))).
Proof.
  intros Hok%runner_reachable_ok. pose proof Hok as [Hresult Hstops Hstopping Hmain Hfinished Hclosed].
  split_and!.
  - intros r' v Hr'. apply (rtc_preserves runner_step (λ r, signal r = Some v)); [|done].
    intros x y Hx Hxy. by eapply runner_step_signal.
  - intros [Hcalls|Hphase]; [by apply Hstops|]. by apply Hstopping, Hmain.
  - intros closed b Hb. split; [apply Hclosed; right; by exists closed, b|].
    rewrite <-Hresult. by apply Hfinished.
  - intros Hsignal Hunfinished ec.
    destruct (runner_finishes r ec Hok Hsignal Hunfinished) as (r' & Hr' & _ & Hd & Hm).
    exists r'. split_and!; [done..|]. by rewrite Hm, Hresult.
Qed.

(** ** Examples *)

#[local] Instance example_service : ServiceErrors := { service_stopped := Code network_category 9 }.

Definition good : code := Error.make Error.success.

(** The node runs and is interrupted; it then reports that it was stopped. *)
Definition called (call : callback) (calls : list callback) (r : runner) : runner :=
  handle call good (record call good (with_pending calls r)).

Definition interrupted : runner :=
  stop 2 (called callback_running [callback_stopped]
    (called callback_subscribed [callback_stopped] (called callback_started [] started))).

Lemma run_correct_witness :
  ∃ r', rtc runner_step interrupted r' ∧ delivered r' = delivered interrupted ∧
    main r' = main_finished true true.
Proof.
  refine (proj2 (proj2 (proj2 (run_correct interrupted _))) _ _ good).
  - eapply rtc_l; [apply (step_call _ [] callback_started [] good); [done|by left]|].
    eapply rtc_l; [apply (step_call _ [callback_stopped] callback_subscribed [] good); [done|by left]|].
    eapply rtc_l; [apply (step_call _ [callback_stopped] callback_running [] good); [done|by left]|].
    apply rtc_once, step_signal.
  - by exists 2.
  - by intros (closed & b & Hb).
Defined.
