(* ===== verification/Process.v ===== *)
(** The process of the executable on Linux: its entry (src/console/main.cpp), its signals
    (executor_signals.cpp), the poller of executor.cpp with the notifications of the
    service manager (executor_daemon.cpp), and the file of events (executor_events.cpp,
    with the files of the log in src/settings.cpp). *)
From stdpp Require Import pretty.
From S2P Require Import Prelude Rpc Errors ExecutorStore Runner.

(** ** Entry *)

Definition EXIT_SUCCESS : Z := 0.
Definition EXIT_FAILURE : Z := 1.

(** Whether a manager supervises, by the variable NOTIFY_SOCKET; there is no dispatcher to
    connect, so this never takes over. *)
Definition service (socket : option string) : bool * bool := (bool_decide (is_Some socket), false).

(** The exit code and the lines of errors: [parsed] and [initialized] are the results of
    the configuration, [failure] what it failed for, [dispatch] the command's result. *)
Definition main (parsed : bool) (initialized : code) (message : code → string) (failure : string)
    (socket : option string) (dispatch : bool → bool) : Z * list string :=
  if negb parsed then (EXIT_FAILURE, [])
  else if is_error initialized then
    (EXIT_FAILURE,
      [(message initialized ++ (if is_empty failure then "" else " [" ++ failure ++ "]"))%string])
  else
    let '(service_, taken) := service socket in
    if taken then (EXIT_SUCCESS, [])
    else (if dispatch service_ then EXIT_SUCCESS else EXIT_FAILURE, []).

(** A daemon is a child of init or leads its session. *)
Definition interactive_ (service_ : bool) (ppid sid pid : Z) : bool :=
  negb service_ && negb ((ppid =? 1) || (sid =? pid)).

(** ** Signals *)

Definition SIGHUP : Z := 1.
Definition SIGINT : Z := 2.
Definition SIGUSR2 : Z := 12.
Definition SIGTERM : Z := 15.
Definition SIGPWR : Z := 30.

(** The signals that are handled, and those that are blocked meanwhile. *)
Definition handled_signals : list Z := [SIGINT; SIGTERM; SIGHUP; SIGUSR2; SIGPWR].
Definition masked_signals : list Z := [SIGINT; SIGTERM; SIGHUP; SIGUSR2].

Definition handle_stop (signal : Z) (r : runner) : runner := stop signal r.

(** ** Notifications of the service manager *)

(** The length of a path in a socket address, less its terminator. *)
Definition maximum_path : nat := 107.

(** The address of a socket: a leading at-sign denotes the abstract namespace. *)
Definition socket_address (path : string) : string :=
  match String.substring 0 maximum_path path with
  | String c rest => if Ascii.eqb c "@" then String Ascii.zero rest else String c rest
  | "" => ""
  end.

(** A datagram, if there is a manager and a socket can be opened. *)
Definition notify_manager (socket : option string) (opened : bool) (state : string) :
    list (string * string) :=
  match socket with
  | Some path => if opened then [(socket_address path, state)] else []
  | None => []
  end.

Definition EXTEND_TIMEOUT : string := "EXTEND_TIMEOUT_USEC=30000000".
Definition READY : string := "READY=1".
Definition STOPPING : string := "STOPPING=1" +:+ String "010" EXTEND_TIMEOUT.

(** The turns of the poller: it looks for the signal, sleeps, and may report that the
    process is starting; once signalled it keeps the promise, and reports that the process
    is stopping until it exits. *)
Inductive poller :=
  | poll_counting (count : Z)
  | poll_sleeping (count : Z)
  | poll_reporting (count : Z)
  | poll_draining
  | poll_waiting
  | poll_joined.

(** The flags that the threads share, the poller, and whether the node's call still has
    to report that the process runs. *)
Record process := Process {
  service_ : bool;
  starting_ : bool;
  exited_ : bool;
  poller_is : poller;
  readying : bool;
}.

Definition new_process (socket : option string) : process :=
  Process (service socket).1 true false (poll_counting 0) false.

Definition set_poller (phase : poller) (p : process) : process :=
  Process (service_ p) (starting_ p) (exited_ p) phase (readying p).

Section Process.
Context (socket : option string).

(** [notify_starting] loads the flag, and then sends: between the two the node may come
    to run. *)
Definition notify_starting (count : Z) (p : process) : process :=
  set_poller (if starting_ p then poll_reporting count else poll_counting ((count + 1) mod 2 ^ 64)) p.

Definition notify_stopping (opened : bool) : list (string * string) :=
  notify_manager socket opened STOPPING.

(** A turn of [poll_for_stopping], with the signal as it is and whether a socket can be
    opened. *)
Definition poll_turn (canceled opened : bool) (p : process) : process * list (string * string) :=
  match poller_is p with
  | poll_counting count => (set_poller (if canceled then poll_draining else poll_sleeping count) p, [])
  | poll_sleeping count =>
      (if service_ p && (count mod 10 =? 0) then notify_starting count p
       else set_poller (poll_counting ((count + 1) mod 2 ^ 64)) p, [])
  | poll_reporting count =>
      (set_poller (poll_counting ((count + 1) mod 2 ^ 64)) p, notify_manager socket opened EXTEND_TIMEOUT)
  | poll_draining =>
      (set_poller (if service_ p && negb (exited_ p) then poll_waiting else poll_joined) p, [])
  | poll_waiting => (set_poller poll_draining p, notify_stopping opened)
  | poll_joined => (p, [])
  end.

(** [notify_running], in its two steps. *)
Definition notify_running (p : process) : process :=
  Process (service_ p) false (exited_ p) (poller_is p) true.

Definition report_running (opened : bool) (p : process) : process * list (string * string) :=
  (Process (service_ p) (starting_ p) (exited_ p) (poller_is p) false,
   if readying p then notify_manager socket opened READY else []).

(** [uninitialize_stop]. *)
Definition exit_ (p : process) : process :=
  Process (service_ p) (starting_ p) true (poller_is p) (readying p).

Inductive process_input :=
  | input_poll (canceled opened : bool)
  | input_running
  | input_report (opened : bool)
  | input_exit.

Definition process_step (p : process) (i : process_input) : process * list (string * string) :=
  match i with
  | input_poll canceled opened => poll_turn canceled opened p
  | input_running => (notify_running p, [])
  | input_report opened => report_running opened p
  | input_exit => (exit_ p, [])
  end.

Fixpoint run_process (p : process) (inputs : list process_input) : process * list (string * string) :=
  match inputs with
  | [] => (p, [])
  | i :: inputs =>
      let '(p, sent) := process_step p i in
      let '(p, rest) := run_process p inputs in
      (p, (sent ++ rest)%list)
  end.

(** ** What the manager is told *)

Definition is_extension (d : string * string) : bool := d.2 == EXTEND_TIMEOUT.
Definition is_ready (d : string * string) : bool := d.2 == READY.

(** The extensions of the start that may still come once the process runs. *)
Definition in_flight (p : process) : nat :=
  match poller_is p with
  | poll_reporting _ => 1
  | _ => 0
  end.

Lemma sent_filter opened state (P : string * string → bool) :
  (∀ a, P (a, state) = false) → List.filter P (notify_manager socket opened state) = [].
Proof. intros HP. unfold notify_manager. destruct socket, opened; cbn; rewrite ?HP; done. Qed.

Lemma sent_count opened state (P : string * string → bool) :
  (length (List.filter P (notify_manager socket opened state)) <= 1)%nat.
Proof. unfold notify_manager. destruct socket, opened; cbn; try destruct (P _); cbn; lia. Qed.

Lemma process_step_extensions p i :
  starting_ p = false →
  let '(p', sent) := process_step p i in
  starting_ p' = false ∧ (length (List.filter is_extension sent) + in_flight p' <= in_flight p)%nat.
Proof.
  intros Hstarting. destruct i as [canceled opened| |opened|]; cbn.
  - unfold poll_turn, in_flight. destruct (poller_is p) eqn:Hphase; cbn; rewrite ?Hphase.
    + split; [done|]. destruct canceled; cbn; lia.
    + unfold notify_starting. rewrite Hstarting. destruct (_ && _); cbn; (split; [done|lia]).
    + split; [done|]. pose proof (sent_count opened EXTEND_TIMEOUT is_extension). lia.
    + split; [done|]. destruct (_ && _); cbn; lia.
    + split; [done|]. unfold notify_stopping. rewrite sent_filter by done. cbn. lia.
    + split; [done|lia].
  - split; [done|]. unfold in_flight. cbn. lia.
  - split; [done|]. unfold in_flight. cbn. destruct (readying p); cbn; [|lia].
    rewrite sent_filter by done. cbn. lia.
  - split; [done|]. unfold in_flight. cbn. lia.
Qed.

(** Once the process runs, at most one more extension of its start is sent: the one that
    the poller was about to send. *)
Lemma running_extensions p inputs :
  starting_ p = false → (length (List.filter is_extension (run_process p inputs).2) <= in_flight p)%nat.
Proof.
  revert p. induction inputs as [|i inputs IH]; intros p Hstarting; cbn [run_process]; [cbn; lia|].
  pose proof (process_step_extensions p i Hstarting) as Hstep.
  destruct (process_step p i) as [p' sent]. destruct Hstep as [Hstarting' Hsent].
  specialize (IH p' Hstarting'). destruct (run_process p' inputs) as [p'' rest]. cbn [snd] in *.
  rewrite List.filter_app, length_app. lia.
Qed.

(** Once the process is signalled and exits, the poller joins within four turns. *)
Lemma poller_joins p opened :
  exited_ p = true → ∃ n, (n <= 4)%nat ∧
    poller_is (run_process p (replicate n (input_poll true opened))).1 = poll_joined.
Proof.
  intros Hexited. destruct p as [service_ starting_ exited_ phase readying]. cbn in Hexited. subst.
  assert (∀ count, poller_is (run_process (Process service_ starting_ true (poll_counting count) readying)
    (replicate 2 (input_poll true opened))).1 = poll_joined) as Hcounting.
  { intros count. cbn. by rewrite andb_false_r. }
  destruct phase as [count|count|count| | |].
  - by exists 2%nat; split; [lia|].
  - destruct (service_ && (count mod 10 =? 0)) eqn:Hreports; [destruct starting_|].
    + exists 4%nat. split; [lia|]. cbn. rewrite Hreports. cbn. by rewrite andb_false_r.
    + exists 3%nat. split; [lia|]. cbn. rewrite Hreports. cbn. by rewrite andb_false_r.
    + exists 3%nat. split; [lia|]. cbn. rewrite Hreports. cbn. by rewrite andb_false_r.
  - exists 3%nat. split; [lia|]. cbn. by rewrite andb_false_r.
  - exists 1%nat. split; [lia|]. cbn. by rewrite andb_false_r.
  - exists 2%nat. split; [lia|]. cbn. by rewrite andb_false_r.
  - by exists 0%nat; split; [lia|].
Qed.

End Process.

(** ** Events *)

Inductive event_ :=
  | header_archived
  | header_organized
  | header_reorganized
  | block_archived
  | block_buffered
  | block_validated
  | block_confirmed
  | block_unconfirmable
  | validate_bypassed
  | confirm_bypassed
  | tx_archived
  | tx_validated
  | tx_invalidated
  | block_organized
  | block_reorganized
  | template_issued
  | snapshot_secs
  | prune_msecs
  | reload_msecs
  | block_usecs
  | ancestry_msecs
  | filter_msecs
  | filterhashes_msecs
  | filterchecks_msecs
  | ecdsa_secs
  | schnorr_secs
  | silent_secs
  | validate_usecs
  | unknown.

Definition fired_ (e : event_) : string :=
  match e with
  | header_archived => "header_archived....."
  | header_organized => "header_organized...."
  | header_reorganized => "header_reorganized.."
  | block_archived => "block_archived......"
  | block_buffered => "block_buffered......"
  | block_validated => "block_validated....."
  | block_confirmed => "block_confirmed....."
  | block_unconfirmable => "block_unconfirmable."
  | validate_bypassed => "validate_bypassed..."
  | confirm_bypassed => "confirm_bypassed...."
  | tx_archived => "tx_archived........."
  | tx_validated => "tx_validated........"
  | tx_invalidated => "tx_invalidated......"
  | block_organized => "block_organized....."
  | block_reorganized => "block_reorganized..."
  | template_issued => "template_issued....."
  | snapshot_secs => "snapshot_secs......."
  | prune_msecs => "prune_msecs........."
  | reload_msecs => "reload_msecs........"
  | block_usecs => "block_usecs........."
  | ancestry_msecs => "ancestry_msecs......"
  | filter_msecs => "filter_msecs........"
  | filterhashes_msecs => "filterhashes_msecs.."
  | filterchecks_msecs => "filterchecks_msecs.."
  | ecdsa_secs => "ecdsa_secs.........."
  | schnorr_secs => "schnorr_secs........"
  | silent_secs => "silent_secs........."
  | validate_usecs => "validate_usecs......"
  | unknown => "unknown............."
  end.

(** An event of the log, at a number of seconds from the start, as a line of the file. *)
Definition handle_event (ec : code) (e : event_) (value time : Z) : bool * list string :=
  if is_error ec then (false, [])
  else (true, [(fired_ e ++ " " ++ number value ++ " " ++ number time)%string]).

(** [path / name] of a relative name. *)
Definition path_append (path name : string) : string :=
  match String.get (String.length path - 1) path with
  | None => name
  | Some c => if Ascii.eqb c "/" then path ++ name else path ++ "/" ++ name
  end.

Definition log_file1 (path : string) : string := path_append path "bs_end.log".
Definition log_file2 (path : string) : string := path_append path "bs_begin.log".
Definition events_file (path : string) : string := path_append path "events.log".

(** The texts of the events are distinct, and of one width. *)
Lemma fired_distinct :
  let all := [header_archived; header_organized; header_reorganized; block_archived; block_buffered; block_validated; block_confirmed; block_unconfirmable; validate_bypassed; confirm_bypassed; tx_archived; tx_validated; tx_invalidated; block_organized; block_reorganized; template_issued; snapshot_secs; prune_msecs; reload_msecs; block_usecs; ancestry_msecs; filter_msecs; filterhashes_msecs; filterchecks_msecs; ecdsa_secs; schnorr_secs; silent_secs; validate_usecs; unknown] in
  NoDup (fired_ <$> all) ∧ Forall (λ e, String.length (fired_ e) = 20%nat) all.
Proof. split; apply (bool_decide_unpack _); vm_compute; exact I. Qed.

(** ** Examples *)

(** A service that starts, runs and is stopped. *)
Example service_notified :
  map snd (run_process (Some "@bs") (new_process (Some "@bs"))
    [input_poll false true; input_poll false true; input_running; input_poll false true; input_report true;
     input_poll true true; input_poll true true; input_poll true true; input_exit; input_poll true true]).2 =
  [EXTEND_TIMEOUT; READY; STOPPING].
Proof. vm_compute. reflexivity. Qed.

Example log_files :
  (log_file1 "/var/log", log_file2 "/var/log/", events_file "") =
    ("/var/log/bs_end.log", "/var/log/bs_begin.log", "events.log").
Proof. vm_compute. reflexivity. Qed.
