(* ===== verification/ExecutorOptions.v ===== *)
(** The commands of a running node's console (src/console/executor_options.cpp) and the
    filter of its log (src/console/executor_logging.cpp). *)
From stdpp Require Import pretty.
From S2P Require Import Prelude Rpc Errors Localize Console ExecutorStore Daemon Runner.

(** ** Menus *)

(** The levels of the log ([network::levels]), in the order of the toggles. *)
Inductive level :=
  | application | news | session | protocol | proxy | remote | fault | quitting | objects | verbose.

#[global] Instance level_eq : EqDecision level.
Proof. solve_decision. Defined.

Definition all_levels : list level :=
  [application; news; session; protocol; proxy; remote; fault; quitting; objects; verbose].

Definition level_value (l : level) : Z :=
  match l with
  | application => 0 | news => 1 | session => 2 | protocol => 3 | proxy => 4
  | remote => 5 | fault => 6 | quitting => 7 | objects => 8 | verbose => 9
  end.

(** The commands; [test] with the built-in tests only. *)
Inductive menu := backup | close | errors | go | hold | info | menu_ | test | work | zeroize.

#[global] Instance menu_eq : EqDecision menu.
Proof. solve_decision. Defined.

Definition close_ : string := "c".

Definition options_ (builtin : bool) : list (string * menu) :=
  ([("b", backup); ("c", close); ("e", errors); ("g", go); ("h", hold); ("i", info); ("m", menu_)] ++
   (if builtin then [("t", test)] else []) ++
   [("w", work); ("z", zeroize)])%list.

Definition options_menu_ (builtin : bool) : list (menu * string) :=
  ([(backup, "[b]ackup the store"); (close, "[c]lose the node"); (errors, "[e]rrors in store");
    (go, "[g]o network communication"); (hold, "[h]old network communication");
    (info, "[i]nfo about store"); (menu_, "[m]enu of options and toggles")] ++
   (if builtin then [(test, "[t]est built-in case")] else []) ++
   [(work, "[w]ork distribution"); (zeroize, "[z]eroize disk full error")])%list.

Definition toggles_ : list (string * level) :=
  [("a", application); ("n", news); ("s", session); ("p", protocol); ("x", proxy); ("r", remote);
   ("f", fault); ("q", quitting); ("o", objects); ("v", verbose)].

Definition toggles_menu_ : list (level * string) :=
  [(application, "[a]pplication"); (news, "[n]ews"); (session, "[s]ession"); (protocol, "[p]rotocol");
   (proxy, "[x]proxy"); (remote, "[r]emote"); (fault, "[f]ault"); (quitting, "[q]uitting");
   (objects, "[o]bjects"); (verbose, "[v]erbose")].

(** Lookups of the maps; [at] of a missing key throws. *)
Definition find_key {A} (key : string) (map : list (string * A)) : option A :=
  snd <$> List.find (λ e, fst e == key) map.

Definition find_text `{EqDecision K} (key : K) (map : list (K * string)) : string :=
  default "" (snd <$> List.find (λ e, bool_decide (e.1 = key)) map).

Section Options.
Context `{ServiceErrors}.

(** [trim_copy]; the levels that are compiled ([defined_]); the text of a load factor; and
    the orders in which the menus' maps are iterated. *)
Context (trim : string → string) (defined : level → bool) (ratio : Z → Z → string)
  (builtin : bool) (toggles_order : list (level * string)) (options_order : list (menu * string)).

(** ** Commands *)

Definition do_hot_backup : prog unit :=
  available <- perform has_node;;
  if negb available then log BS_NODE_UNAVAILABLE
  else
    hot_backup_store true;;
    ret tt.

Definition do_close : prog unit :=
  log "CONSOLE: Close";;
  perform stop_node.

Definition do_report_condition : prog unit :=
  conditions <- perform report;;
  for_each conditions (λ '(table, message), log (format BS_CONDITION [table; message]));;
  full <- perform is_full;;
  if (full : bool) then
    bytes <- perform get_space;;
    log (format BS_RELOAD_SPACE [number bytes])
  else ret tt.

Definition do_suspend : prog unit :=
  available <- perform has_node;;
  if negb available then log BS_NODE_UNAVAILABLE else perform node_suspend.

Definition do_resume : prog unit :=
  full <- perform is_full;;
  if (full : bool) then log BS_NODE_DISK_FULL
  else
    faulted <- perform is_fault;;
    if (faulted : bool) then log BS_NODE_UNRECOVERABLE
    else
      available <- perform has_node;;
      if negb available then log BS_NODE_UNAVAILABLE else perform node_resume.

Definition do_info : prog unit :=
  dump_configuration;;
  dump_body_sizes;;
  dump_records;;
  dump_buckets;;
  dump_load_factors ratio.

Definition do_menu : prog unit :=
  for_each toggles_order (λ '(_, text), log (format "Toggle: {}" [text]));;
  for_each options_order (λ '(_, text), log (format "Option: {}" [text])).

(** [read_test] of the null hash. *)
Definition do_test : prog unit := perform (read_test "").

(** Returns the next sequence. *)
Definition do_report_work (sequence : Z) : prog Z :=
  available <- perform has_node;;
  if negb available then
    log BS_NODE_UNAVAILABLE;;
    ret sequence
  else
    log (format BS_NODE_REPORT_WORK [number sequence]);;
    perform (node_report sequence);;
    ret (sequence + 1).

Definition do_reload_store : prog unit :=
  full <- perform is_full;;
  if (full : bool) then
    available <- perform has_node;;
    if negb available then log BS_NODE_UNAVAILABLE
    else
      reload_store true;;
      ret tt
  else
    faulted <- perform is_fault;;
    log (if (faulted : bool) then BS_NODE_UNRECOVERABLE else BS_NODE_OK).

(** ** Dispatch *)

Definition do_toggle (l : level) : prog unit :=
  if defined l then
    value <- perform (get_toggle (level_value l));;
    perform (set_toggle (level_value l) (negb value));;
    log (format "CONSOLE: toggle {} logging ({})."
      [find_text l toggles_menu_; if negb value then "+" else "-"])
  else log (format "CONSOLE: {} logging is not compiled." [find_text l toggles_menu_]).

Definition do_option (m : menu) (sequence : Z) : prog Z :=
  match m with
  | backup => do_hot_backup;; ret sequence
  | close => do_close;; ret sequence
  | errors => do_report_condition;; ret sequence
  | go => do_resume;; ret sequence
  | hold => do_suspend;; ret sequence
  | info => do_info;; ret sequence
  | menu_ => do_menu;; ret sequence
  | test => do_test;; ret sequence
  | work => do_report_work sequence
  | zeroize => do_reload_store;; ret sequence
  end.

(** A captured line: whether the capture goes on, and the next sequence. *)
Definition handle_line (ec : code) (line : string) (sequence : Z) : prog (bool * Z) :=
  if code_eqb ec service_stopped then
    perform set_console_echo;;
    ret (false, sequence)
  else
    let token := trim line in
    if is_empty token then ret (true, sequence)
    else
      match find_key token toggles_ with
      | Some l => do_toggle l;; ret (true, sequence)
      | None =>
          match find_key token (options_ builtin) with
          | Some m =>
              next <- do_option m sequence;;
              ret (true, next)
          | None =>
              log ("CONSOLE: '" ++ line ++ "'")%string;;
              ret (true, sequence)
          end
      end.

Definition handle_captured (ec : code) : prog unit :=
  if is_error ec then ret tt else perform unset_console_echo.

(** ** Log *)

(** A message of the log: whether the subscription is kept, what the sink of the log and
    the console are given, and whether the log is released ([stopped_]). [zulu] is
    [format_zulu_time]. *)
Definition handle_message (service : bool) (zulu : Z → string) (toggles : list bool) (ec : code)
    (value time : Z) (message : string) : bool * list string * list string * bool :=
  match toggles !! Z.to_nat value with
  | None =>
      let text := ("Invalid log [" ++ number value ++ "] : " ++ message)%string in
      (true, [text], [text], false)
  | Some selected =>
      if negb (is_error ec) && negb selected then (true, [], [], false)
      else
        let prefix := (zulu time ++ "." ++ number value ++ " ")%string in
        if is_error ec then
          let last := [(prefix ++ message ++ newline)%string;
                       (prefix ++ BS_NODE_FOOTER ++ newline)%string] in
          (false, last,
           (last ++ if service then [] else [(prefix ++ BS_NODE_TERMINATE ++ newline)%string])%list, true)
        else (true, [(prefix ++ message)%string], [(prefix ++ message)%string], false)
  end.

End Options.

(** ** The commands keep the store and the node *)

Section Laws.
Context `{ServiceErrors} (trim : string → string) (defined : level → bool) (ratio : Z → Z → string).
Context (builtin : bool) (toggles_order : list (level * string)) (options_order : list (menu * string)).

(** A command that needs the node checks for it. *)
Lemma checks_node {A} (absent found : prog A) node :
  keeps absent (Status store_opened node) →
  (node ≠ node_absent → keeps found (Status store_opened node)) →
  keeps (available <- perform has_node;; if negb available then absent else found)
    (Status store_opened node).
Proof.
  intros Habsent Hfound. apply safe_call. intros available Ha. eexists. split; [reflexivity|].
  cbn in Ha. destruct available, node; try discriminate; cbn [negb]; auto.
  all: by apply Hfound.
Qed.


Lemma do_option_keeps m sequence node :
  keeps (do_option ratio toggles_order options_order m sequence) (Status store_opened node).
Proof.
  assert (∀ text, keeps (log text) (Status store_opened node)) as Hlog by (intros; apply log_keeps).
  assert (∀ o, (∀ b, node ≠ node_absent → next_status (Status store_opened node) o b =
    Some (Status store_opened node)) → node ≠ node_absent → keeps (perform o) (Status store_opened node))
    as Hnode by (intros o Ho Hpresent b _; by rewrite Ho).
  destruct m; cbn [do_option].
  - apply safe_then; [|done]. apply checks_node; [done|intros _]. keep.
  - unfold do_close. keep.
  - unfold do_report_condition. keep.
  - unfold do_resume. apply safe_then; [|done]. pass full. destruct full; [keep|].
    pass faulted. destruct faulted; [keep|]. apply checks_node; [done|]. apply Hnode. by destruct node.
  - apply safe_then; [|done]. apply checks_node; [done|]. apply Hnode. by destruct node.
  - unfold do_info. keep.
  - unfold do_menu. keep.
  - unfold do_test. keep.
  - apply checks_node; [keep|]. intros Hpresent. pass _.
    apply safe_then; [apply Hnode; [by destruct node|done]|done].
  - unfold do_reload_store. apply safe_then; [|done]. pass full. destruct full; [|keep].
    apply checks_node; [done|intros _]. keep.
Qed.

Lemma do_toggle_keeps l s : keeps (do_toggle defined l) s.
Proof. unfold do_toggle. keep. Qed.

Lemma handle_line_safe ec line sequence node :
  safe (handle_line trim defined ratio builtin toggles_order options_order ec line sequence)
    (Status store_opened node)
    (λ '(kept, _) s, s = Status store_opened node ∧ kept = negb (code_eqb ec service_stopped)).
Proof.
  unfold handle_line. destruct (code_eqb ec service_stopped) eqn:Hec; cbn [negb]; [by intros ? _|].
  cbv zeta. destruct (is_empty (trim line)); [done|].
  destruct (find_key (trim line) toggles_) as [l|].
  { apply safe_then; [apply do_toggle_keeps|done]. }
  destruct (find_key (trim line) (options_ builtin)) as [m|].
  - apply safe_then; [apply do_option_keeps|done].
  - by pass _.
Qed.

(** ** The menus *)

Lemma tokens_unique : NoDup ((toggles_.*1 ++ (options_ builtin).*1)%list).
Proof. destruct builtin; apply (bool_decide_unpack _); vm_compute; exact I. Qed.

(** The text of an entry names its key. *)
Definition names_key (key text : string) : bool := String.prefix ("[" ++ key ++ "]") text.

Lemma menus_named :
  Forall (λ '(key, l), names_key key (find_text l toggles_menu_) = true) toggles_ ∧
  Forall (λ '(key, m), names_key key (find_text m (options_menu_ builtin)) = true) (options_ builtin) ∧
  toggles_.*2 = all_levels ∧ (options_ builtin).*2 = (options_menu_ builtin).*1.
Proof. split_and!; [|destruct builtin| |by destruct builtin]; by repeat constructor. Qed.

End Laws.

(** C40: The console of a running node. A line is a toggle of a level of the log, a command,
    or is repeated, by its text without spaces: no two entries have a key in common,
    and each entry's text names its key. Whatever the store and the node answer, the
    handling of a line uses them as they allow, also before there is a node, keeps the
    store open, and goes on capturing until the capture is stopped; the key that the
    capture is made with is that of the command that stops the node. *)
Theorem console_commands_correct `{ServiceErrors} trim defined ratio builtin toggles_order options_order :
  NoDup ((toggles_.*1 ++ (options_ builtin).*1)%list) ∧
  Forall (λ '(key, l), names_key key (find_text l toggles_menu_) = true) toggles_ ∧
  Forall (λ '(key, m), names_key key (find_text m (options_menu_ builtin)) = true) (options_ builtin) ∧
  find_key close_ (options_ builtin) = Some close ∧
  ∀ ec line sequence node,
    safe (handle_line trim defined ratio builtin toggles_order options_order ec line sequence)
      (Status store_opened node)
      (λ '(kept, _) s, s = Status store_opened node ∧ kept = negb (code_eqb ec service_stopped)).
Proof.
  destruct (menus_named builtin) as (Htoggles & Hoptions & _). split_and!; [|done..| |].
  - apply tokens_unique.
  - by destruct builtin.
  - intros. apply handle_line_safe.
Qed.

(** ** Examples *)

#[local] Instance example_service : ServiceErrors := { service_stopped := Code network_category 9 }.

Definition line_answers (o : op) : answer o :=
  match o return answer o with
  | is_full | has_node => false
  | o => Daemon.example_other o
  end.

Example lines_log :
  (λ line, logged ∘ snd <$> follow line_answers
     (handle_line (λ line, line) (λ _, true) (λ _ _, "1") false toggles_menu_ (options_menu_ false)
        (Error.make Error.success) line 0) (Status store_opened node_absent))
    <$> ["p"; "c"; "g"; "w"; "hello"] =
  [Some ["CONSOLE: toggle [p]rotocol logging (-)."]; Some ["CONSOLE: Close"];
   Some ["Node is not in recoverable condition."];
   Some ["Command not available until node started."]; Some ["CONSOLE: 'hello'"]].
Proof. vm_compute. reflexivity. Qed.
